(* ===== verification/_CoqProject ===== *)
-Q . S2P
Prelude.v
Bitarray.v
Cstring.v
NetifIndex.v
PortList.v
Database.v
DatabaseSync.v
Chains.v
DatabaseHash.v
ArrayStore.v
DatabaseSeq.v
KeyStore.v
SmartLink.v
Erpp.v
ErppRings.v
ErppProtocol.v
NpdStp.v
NpdRequests.v
NpdStpLogic.v
NpdChip.v
Lacp.v
LacpPorts.v
LacpExchange.v
LacpTables.v
LacpIds.v
LacpSelect.v
LacpDaemon.v
LacpChoice.v
NpdTrunk.v
NpdTrunkLinks.v
NpdTrunkRuns.v
DhcpPacket.v
DhcpOptions.v
DhcpFrames.v
DhcpSnooping.v
DhcpBindings.v
DhcpLeases.v
