(* ===== verification/Prelude.v ===== *)
(** * Verification of CHANOS: interface naming, bitmaps, database, protocols

    CHANOS is the control software of a family of Ethernet switches (boxes
    and chassis).  A main daemon (npd) and protocol daemons share a library
    ([src/src/npdsuit/lib]) that names interfaces by 32-bit indexes, keeps
    sets of ports and VLANs as bitmaps, and keeps configuration and state in
    in-memory database tables that are replicated between the boards of a
    chassis; the daemons react to interface events, operator commands and
    timers by changing entries of those tables, and the tables' callbacks
    carry the changes out.  This development models that library and, on top
    of it, the smart link daemon, the ring protection daemon, the spanning
    tree port table of npd, where the requests of both daemons become calls
    into the switch chip, the machines of npd's link aggregation protocol, the
    trunks that npd builds from ports, and its DHCP snooping.

    ** Files and what they model

    - [Prelude]: 32-bit integers with their wrap-around, C arrays indexed by
      integers (out of range is [None]), counted loops, bit and list lemmas,
      the tactics [bitwise] and [dlia].
    - [Bitarray]: [npd_bitarray.c] and [npd_bitarray.h]: word arrays as
      [list Z], one definition per function or macro, memory out of bounds as
      [None].  Theorems: each operation computes its set operation on every
      bit below the size; searches and iterations terminate and are exact;
      rank and select are inverse; the population count equals a reference
      count; shifts; byte-order conversion.
    - [Cstring]: the part of the C string functions ([sprintf] with [%d],
      [%04d], [%x], [strtoul], [atoi]) that names and lists use.
    - [NetifIndex]: [netif_index.c] and [netif_index.h]: the bit-field unions
      as fields of a word, the generators and accessors, the dense array
      index used for bitmaps, interface names and port groups, for the four
      board configurations of the build ([boards]).  Theorems: round trips,
      injectivity, ranges.
    - [PortList]: the VLAN and port list printers and state-machine readers
      of [npd_bitarray.c].  Theorems: print/read round trip, exact effect of a
      range item.
    - [Database]: tables of [npd_database.c]: entries with their flags, the
      ordered free list, the indexes of a table, synchronisation messages, the
      array index.  The data of an entry is a type parameter; the owner's
      callbacks, the platform's send function, the relay flag and the codec
      are the record [db_ops].  [core_eq] is the equivalence of tables up to
      the synchronisation marks, the messages sent and the other indexes;
      reading and well-formedness are [Proper] for it.  The specification of
      the array index is a finite map ([array_spec]).
    - [DatabaseSync]: [dbtable_recv], and that a replica that applies the
      messages of a table holds the same entries ([SyncLaws] states what the
      codec must do).
    - [Chains]: the bucket chains that the hash index and the sequence index
      share: how the work on other indexes leaves them alone, when the chains
      of an index list the entries of its table ([buckets_ok], under
      [ChainLaws]) and what a walk over them visits.
    - [DatabaseHash], [DatabaseSeq]: the hash index and the sequence index;
      their specification is a lookup function keyed by the owner's
      comparison ([hash_spec] and [seq_spec], under [HashLaws] and
      [SeqLaws]).  Theorems: refinement of the specification, walks visit
      every entry once, and the places where a bucket number is not checked.
    - [ArrayStore], [KeyStore]: the interfaces through which the daemons use
      a table behind an array index, and behind a hash or sequence index; the
      tables of [Database], [DatabaseHash] and [DatabaseSeq] are instances.
      [ks_valid] says which data the numbering of a table keeps apart: only
      such data is inserted or deleted.
    - [SmartLink]: [src/src/smart-link/src]: groups of a master and a slave
      uplink, the commands, the events, the requests to npd, over
      [ArrayStore].  Theorems: the event loop is exact, the forwarding port
      is up whenever a port of the group is, failover is announced.
    - [Erpp], [ErppRings], [ErppProtocol]: [src/src/erpp/src], the ring
      protection daemon: domains and rings, commands, the six packet types,
      link events and the timer, in a monad whose outcomes are a result, a
      crash and a wait for ever.  [ErppRings] is the program logic and the
      invariant of a ring, [ErppProtocol] the theorems: runs return, a
      complete ring has a port that does not forward, a lost ring is opened
      when the fail timer expires and closed when the hello returns, and what
      the daemon gets wrong.
    - [NpdStp], [NpdRequests]: [npd_rstp_common.c] and the handlers of
      [npd_erpp.c] and [npd_smart_link.c]: the states of ports in spanning
      tree instances and the instances of VLANs, over [KeyStore]; calls into
      the chip are recorded in order, and what other parts of npd answer is
      the environment ([npd_env]) of each operation.
    - [NpdStpLogic], [NpdChip]: total correctness rules for those operations,
      and the theorems: the chip has the state of the table, a ring's ports
      are held through link and VLAN changes, a decision of the bridge
      process can be read back, switching spanning tree off empties the
      tables.

    - [Lacp]: [npd_lacp.c] and [npd_lacp.h]: the receive, periodic and
      transmit machines of a port in link aggregation, its packets, changes of
      link, speed and duplex mode, static aggregators, over [KeyStore]; what
      other parts of npd know is the environment [lacp_env].  The tables are
      numbered as on a [board] of [NetifIndex], and the aggregators have the
      second index by identifier, with a slot per port of the board.
    - [LacpPorts]: theorems about one port: what it says of itself is true, a
      silent partner is noticed in time, packets go out at the agreed rate.
      There the choice of an aggregator is a relation on the port
      ([selection_writes]); that the code stays within it is shown in
      [LacpDaemon].
      [LacpExchange]: two ports that talk to each other come to agree; a match
      survives its partner.  [LacpTables]: the calls on the four tables refine
      one machine per port.  [LacpIds]: the second index finds the identifiers
      that have a slot of it.
    - [LacpSelect]: the other half of [npd_lacp.c]: aggregators and their
      identifiers, the choice of an aggregator with the dynamic trunks it
      joins, leaves and makes, the turn of the daemon for each aggregator, and
      the protocol turned on and off on a port.  The table of trunks of
      [npd_trunk.c] is the class [Trunks]; the theorems hold for each of its
      instances.
    - [LacpDaemon]: what the choice may write, shown by rules for its
      operations; every port of the daemon tells the truth through every run.
      [LacpChoice]: identifiers are fresh while those given out have a slot in
      the second index, and are given again beyond; a port can be taken for a
      trunk.
    - [NpdTrunk]: [npd_trunk.c] and the port table of [npd_eth_port.c]: the
      trunks with their lists of ports, the choice of the master, the records
      that the ports keep of their trunk and of their link, the event handlers
      that carry changes from one to the other, over [KeyStore]; the port
      numbering of the boards is the record [port_numbers], which
      [npd_numbers] fills from [NetifIndex].  What is read far beyond the array
      of an emptied trunk is the field [beyond_array] of the environment.
    - [NpdTrunkLinks], [NpdTrunkRuns]: rules for those operations, and the
      theorems about every run of operator commands and link changes: trunks
      and ports agree about membership and link state, the master is a port of
      the trunk, a removed trunk leaves no port behind, numbers and names stay
      unique; and the cases where the link of a trunk or its master is wrong.
    - [DhcpPacket]: DHCP packets as npd sees them ([npd_dhcp_snp_options.c],
      the option walk of [npd_dhcp_snp_com.c], the checksum of
      [npd_dhcp_snp_pkt.c]): a packet is the list of the bytes of its buffer,
      reads and writes outside of it are [None].  [DhcpOptions]: options as
      data with their encoding; the walk finds what the encoding says, and is
      safe on any bytes.  [DhcpFrames]: packets with their headers; requests
      get option 82 and replies lose it, and a receiver accepts lengths and
      checksums.
    - [DhcpSnooping]: the table of bindings with its timers
      ([npd_dhcp_snp_tbl.c]), the packets of clients and servers
      ([npd_dhcp_snp_pkt.c]) and the receive path and the commands
      ([npd_dhcp_snp_com.c]), over [KeyStore]; the rest of npd is the
      environment [snp_env].  [DhcpBindings]: triples for these operations, and
      the theorems about every run: bindings and timers agree, expired bindings
      go, packets leave static bindings alone.  [DhcpLeases]: what replies and
      acknowledgements do, and the errors that the code makes there.

    ** Conventions

    A definition has the name of the C function it models.  State is passed
    explicitly; a result code is a [Z]; an [option] around a result is a crash
    (out-of-bounds access, division by zero) and the theorems show that it
    does not happen, or exhibit the input for which it does.  [malloc] is
    assumed to succeed.  The database mutex is the depth to which the calling
    thread holds it; the theorems show that every operation restores it.
    Callbacks return a value that may depend on the data but do not change
    the table.  [unsigned long] has 32 bits where [~0UL] is compared with a
    32-bit field, in the lease times of [DhcpSnooping]; in [NpdRequests] it is
    a parameter.

    ** Loops and bounds

    Counted loops of the code are recursions on the number of iterations.
    Loops that end on a condition have fuel: the bit searches and iterations
    ([Bitarray]) get one unit per word or bit, and their theorems show that
    the fuel is enough; the loops over smart link groups and ring domains get
    [SMART_LINK_GROUP_SIZE + 2] and [ERPP_DOMAIN_SIZE + 2], more than the
    numbers a group or a domain can have, and [link_event_exact],
    [forwarding_port_up] and [erpp_runs_return] show that they end; the
    deletion of the entries of a VLAN gets 2, since a VLAN has one entry, and
    [chip_follows_table] shows that it ends.  The walks over DHCP options get a
    turn for every byte of the fields, and the timer thread one for every
    timer; [option_walk_safe] and [expired_bindings_removed] show that they
    end.
    Table sizes are below [2^32] and entry sizes between 1 and
    [MAX_SEND_SIZE] less the message header, where the message arithmetic of
    the code is defined.

    ** Not modelled

    Concurrency between threads other than through the lock depth; sockets,
    D-Bus marshalling, files and logging; the B-tree index, the registry of
    tables by name, traversals with a processor that changes anything but the
    entry it is given, and the show functions of the database; the port
    numbering of [netif_array_port.c] and the helpers of [common_api.c]; how
    the entry of a port into a static trunk calls the link aggregation back,
    and which entry of a table that changes during the walk
    over the aggregators is the next one: the theorems let any aggregator take
    its turn at any time; of [npd_trunk.c], what the callbacks of the table
    tell the chip, virtual trunks, VLAN membership, the show functions and the
    D-Bus handlers; of the link aggregation, changes of the mode; the requests of
    device link detection that set the chip past the spanning tree table; of
    [npd_eth_port.c], the settings of a port that only reach
    the chip; of the DHCP snooping, the walks over its second index (a turn of
    them is modelled), the configuration of ports and VLANs, the refusal that
    is sent for an unanswered request, the relay, the show functions and the
    decoding of commands; the other npd applications (VLAN, FDB, QoS,
    routing), most of which configure the switch chip through a vendor library
    that is not part of the sources. *)

From Stdlib Require Import ZArith Lia Bool Btauto.
From stdpp Require Import base decidable list gmap strings.

Open Scope Z_scope.

(** ** Machine integers

    The targets are 32-bit ARM boards: [int], [unsigned int],
    [unsigned long] and pointers have 32 bits, [short] 16 and [char] 8.
    A w-bit unsigned value is a [Z] in [[0, 2^w)]; the wrap-around of the C
    operators is written out with [wrap]. *)

Definition wrap (w x : Z) : Z := x mod 2 ^ w.

Definition u32 (x : Z) : Z := wrap 32 x.
Definition u16 (x : Z) : Z := wrap 16 x.
Definition u8 (x : Z) : Z := wrap 8 x.

(** Two's-complement reading of a 32-bit value, for [int] results. *)
Definition s32 (x : Z) : Z :=
  let y := u32 x in if y <? 2 ^ 31 then y else y - 2 ^ 32.

(** [~x], [x << n] on [unsigned long]. *)
Definition not32 (x : Z) : Z := u32 (Z.lnot x).
Definition shl32 (x n : Z) : Z := u32 (Z.shiftl x n).

Declare Scope c_scope.
Delimit Scope c_scope with c.
Infix "&" := Z.land (at level 40, left associativity) : c_scope.
Infix ".|" := Z.lor (at level 50, left associativity) : c_scope.
Infix "^^" := Z.lxor (at level 42, left associativity) : c_scope.
Infix ">>" := Z.shiftr (at level 38, left associativity) : c_scope.
Infix "<<" := shl32 (at level 38, left associativity) : c_scope.

Definition u32_range (x : Z) : Prop := 0 <= x < 2 ^ 32.

Create Rewrite HintDb bits.
Create HintDb ranges.
Create HintDb chanos.

Lemma wrap_range w x : 0 <= w -> 0 <= wrap w x < 2 ^ w.
Proof. intros. apply Z.mod_pos_bound. lia. Qed.

Lemma wrap_small w x : 0 <= x < 2 ^ w -> wrap w x = x.
Proof. apply Z.mod_small. Qed.

Lemma u32_small x : u32_range x -> u32 x = x.
Proof. apply wrap_small. Qed.

Lemma u32_in_range x : u32_range (u32 x).
Proof. apply wrap_range. lia. Qed.

Lemma wrap_spec w x i :
  0 <= w -> Z.testbit (wrap w x) i = (i <? w) && Z.testbit x i.
Proof.
  intros Hw. unfold wrap. destruct (Z.ltb_spec i w).
  - rewrite andb_true_l. apply Z.mod_pow2_bits_low. lia.
  - rewrite andb_false_l. apply Z.mod_pow2_bits_high. lia.
Qed.

Lemma testbit_high w x i :
  0 <= x < 2 ^ w -> 0 <= w <= i -> Z.testbit x i = false.
Proof.
  intros Hx Hi. rewrite <- (wrap_small w x) by lia.
  rewrite wrap_spec by lia. destruct (Z.ltb_spec i w); [lia|reflexivity].
Qed.

Lemma u32_testbit x i : Z.testbit (u32 x) i = (i <? 32) && Z.testbit x i.
Proof. apply wrap_spec. lia. Qed.

Lemma not32_testbit x i :
  0 <= i -> Z.testbit (not32 x) i = (i <? 32) && negb (Z.testbit x i).
Proof.
  intros. unfold not32. rewrite u32_testbit, Z.lnot_spec by lia. reflexivity.
Qed.

Lemma shl32_testbit x n i :
  0 <= i -> Z.testbit (shl32 x n) i = (i <? 32) && Z.testbit x (i - n).
Proof.
  intros. unfold shl32. rewrite u32_testbit, Z.shiftl_spec by lia. reflexivity.
Qed.

(** A value whose bits from [w] up are clear is a w-bit value. *)
Lemma range_of_testbit w x :
  0 <= w -> 0 <= x -> (forall i, w <= i -> Z.testbit x i = false) -> 0 <= x < 2 ^ w.
Proof.
  intros Hw Hx Hb. assert (wrap w x = x) as <-; [|apply wrap_range; lia].
  apply Z.bits_inj'. intros i Hi. rewrite wrap_spec by lia.
  destruct (Z.ltb_spec i w); [reflexivity|]. rewrite Hb by lia. reflexivity.
Qed.

Lemma land_range w x y : 0 <= w -> 0 <= x < 2 ^ w -> 0 <= y -> 0 <= Z.land x y < 2 ^ w.
Proof.
  intros Hw Hx Hy. assert (0 <= Z.land x y) by (apply Z.land_nonneg; lia).
  apply range_of_testbit; [lia|lia|]. intros i Hi.
  rewrite Z.land_spec, (testbit_high w x i) by lia. reflexivity.
Qed.

Lemma lor_range w x y : 0 <= w -> 0 <= x < 2 ^ w -> 0 <= y < 2 ^ w -> 0 <= Z.lor x y < 2 ^ w.
Proof.
  intros Hw Hx Hy. assert (0 <= Z.lor x y) by (apply Z.lor_nonneg; lia).
  apply range_of_testbit; [lia|lia|]. intros i Hi.
  rewrite Z.lor_spec, (testbit_high w x i), (testbit_high w y i) by lia. reflexivity.
Qed.

Lemma lxor_range w x y : 0 <= w -> 0 <= x < 2 ^ w -> 0 <= y < 2 ^ w -> 0 <= Z.lxor x y < 2 ^ w.
Proof.
  intros Hw Hx Hy. assert (0 <= Z.lxor x y) by (apply Z.lxor_nonneg; lia).
  apply range_of_testbit; [lia|lia|]. intros i Hi.
  rewrite Z.lxor_spec, (testbit_high w x i), (testbit_high w y i) by lia. reflexivity.
Qed.

Lemma shiftr_range w x n : 0 <= n -> 0 <= x < 2 ^ w -> 0 <= Z.shiftr x n < 2 ^ w.
Proof.
  intros Hn Hx. rewrite Z.shiftr_div_pow2 by lia.
  assert (0 < 2 ^ n) by lia. split; [apply Z.div_pos; lia|].
  apply Z.div_lt_upper_bound; nia.
Qed.

(** A word is zero exactly when all its bits are clear. *)
Lemma zero_of_testbit x : 0 <= x -> (forall i, 0 <= i -> Z.testbit x i = false) -> x = 0.
Proof. intros _ H. apply Z.bits_inj'. intros i Hi. rewrite H, Z.bits_0 by lia. reflexivity. Qed.

Lemma nonzero_testbit w x :
  0 <= x < 2 ^ w -> 0 <= w -> x <> 0 -> exists i, 0 <= i < w /\ Z.testbit x i = true.
Proof.
  intros Hx Hw Hne. exists (Z.log2 x). assert (0 < x) by lia. split.
  - split; [apply Z.log2_nonneg|]. apply Z.log2_lt_pow2; lia.
  - apply Z.bit_log2. lia.
Qed.

#[export] Hint Rewrite Z.land_spec Z.lor_spec Z.lxor_spec Z.ldiff_spec Z.bits_0
  u32_testbit : bits.
#[export] Hint Rewrite Z.lnot_spec Z.shiftr_spec Z.shiftl_spec not32_testbit
  shl32_testbit using lia : bits.
#[export] Hint Resolve u32_in_range land_range lor_range lxor_range shiftr_range : ranges.

(** [bitwise] proves an equality of integers bit by bit, pushing [testbit]
    through the operators and deciding the comparisons with [lia]. *)
Ltac bit_cases :=
  repeat match goal with
    | |- context [?a <? ?b] => destruct (Z.ltb_spec a b); try lia
    | |- context [?a <=? ?b] => destruct (Z.leb_spec a b); try lia
    end.

Ltac bitwise :=
  let i := fresh "i" in
  apply Z.bits_inj'; intros i ?; autorewrite with bits; bit_cases; try btauto.

(** [dlia] is [lia] with the division equations of [/] and [mod]. *)
Ltac dlia := Z.div_mod_to_equations; lia.

(** ** C arrays indexed by integers

    Reading or writing outside an array is undefined behaviour: the models
    return [None] there, and the theorems show that it does not happen. *)

Definition rd {A} (a : list A) (k : Z) : option A :=
  if 0 <=? k then a !! Z.to_nat k else None.

Definition wr {A} (a : list A) (k : Z) (v : A) : option (list A) :=
  if (0 <=? k) && (k <? Z.of_nat (length a)) then Some (<[Z.to_nat k := v]> a) else None.

Definition zlen {A} (a : list A) : Z := Z.of_nat (length a).

Lemma rd_Some_lt {A} (a : list A) k v : rd a k = Some v -> 0 <= k < zlen a.
Proof.
  unfold rd, zlen. destruct (Z.leb_spec 0 k); [|done].
  intros Hl%lookup_lt_Some. lia.
Qed.

Lemma rd_lt_Some {A} (a : list A) k : 0 <= k < zlen a -> is_Some (rd a k).
Proof.
  unfold rd, zlen. intros Hk. destruct (Z.leb_spec 0 k); [|lia].
  apply lookup_lt_is_Some. lia.
Qed.

Lemma rd_None_ge {A} (a : list A) k : zlen a <= k -> rd a k = None.
Proof.
  intros H. destruct (rd a k) eqn:E; [|done]. apply rd_Some_lt in E. lia.
Qed.

Lemma wr_Some {A} (a : list A) k v :
  0 <= k < zlen a -> wr a k v = Some (<[Z.to_nat k := v]> a).
Proof.
  unfold wr, zlen. intros Hk.
  destruct (Z.leb_spec 0 k), (Z.ltb_spec k (Z.of_nat (length a))); try lia; done.
Qed.

Lemma wr_len {A} (a : list A) k v b : wr a k v = Some b -> zlen b = zlen a.
Proof.
  unfold wr, zlen. destruct (_ && _); [|done]. intros [= <-]. by rewrite length_insert.
Qed.

Lemma wr_bounds {A} (a : list A) k v b : wr a k v = Some b -> 0 <= k < zlen a.
Proof.
  unfold wr, zlen.
  destruct (Z.leb_spec 0 k), (Z.ltb_spec k (Z.of_nat (length a))); try done; lia.
Qed.

Lemma rd_wr {A} (a b : list A) k v j :
  wr a k v = Some b -> rd b j = if j =? k then Some v else rd a j.
Proof.
  intros Hw. pose proof (wr_bounds _ _ _ _ Hw) as Hk. rewrite wr_Some in Hw by done.
  injection Hw as <-. unfold rd, zlen in *.
  destruct (Z.leb_spec 0 j), (Z.eqb_spec j k); subst; try lia; try done.
  - apply list_lookup_insert_eq. lia.
  - apply list_lookup_insert_ne. lia.
Qed.

Lemma rd_insert {A} (a : list A) k v j :
  0 <= k < zlen a -> rd (<[Z.to_nat k := v]> a) j = if j =? k then Some v else rd a j.
Proof. intros Hk. by apply rd_wr, wr_Some. Qed.

Lemma zlen_insert {A} (a : list A) i v : zlen (<[i := v]> a) = zlen a.
Proof. unfold zlen. by rewrite length_insert. Qed.

(** ** Counted loops

    [for_state n k body s] is [for (i = k; i < k + n; i++) s = body(i, s)].
    [for_return n k body] is a loop whose body may return early. *)

Fixpoint for_state {S} (n : nat) (k : Z) (body : Z -> S -> option S) (s : S) : option S :=
  match n with
  | O => Some s
  | Datatypes.S n' => s' ← body k s; for_state n' (k + 1) body s'
  end.

Fixpoint for_return {R} (n : nat) (k : Z) (body : Z -> option (option R)) : option (option R) :=
  match n with
  | O => Some None
  | Datatypes.S n' =>
      r ← body k;
      match r with Some v => Some (Some v) | None => for_return n' (k + 1) body end
  end.

(** Invariant rule for [for_state]: a body that always succeeds and carries
    [I k] to [I (k+1)] makes the loop succeed and establish [I (k + n)]. *)
Lemma for_state_inv {S} (I : Z -> S -> Prop) n k body s :
  I k s ->
  (forall j s, k <= j < k + Z.of_nat n -> I j s ->
     exists s', body j s = Some s' /\ I (j + 1) s') ->
  exists s', for_state n k body s = Some s' /\ I (k + Z.of_nat n) s'.
Proof.
  revert k s. induction n as [|n IH]; intros k s HI Hb; cbn [for_state].
  - exists s. split; [done|]. by replace (k + Z.of_nat 0) with k by lia.
  - destruct (Hb k s) as (s1 & E1 & HI1); [lia|done|]. rewrite E1. simpl.
    destruct (IH (k + 1) s1) as (s2 & E2 & HI2); [done| |].
    { intros j t Hj. apply Hb. lia. }
    exists s2. split; [done|]. by replace (k + Z.of_nat (Datatypes.S n)) with (k + 1 + Z.of_nat n) by lia.
Qed.

(** The value of an early-return loop: the first index whose body returns. *)
Lemma for_return_none {R} n k (body : Z -> option (option R)) :
  (forall j, k <= j < k + Z.of_nat n -> body j = Some None) ->
  for_return n k body = Some None.
Proof.
  revert k. induction n as [|n IH]; intros k Hb; [done|]. simpl.
  rewrite Hb by lia. simpl. apply IH. intros. apply Hb. lia.
Qed.

Lemma for_return_some {R} n k (body : Z -> option (option R)) i r :
  k <= i < k + Z.of_nat n ->
  (forall j, k <= j < i -> body j = Some None) ->
  body i = Some (Some r) ->
  for_return n k body = Some (Some r).
Proof.
  revert k. induction n as [|n IH]; intros k Hi Hb Hr; [lia|]. simpl.
  destruct (decide (k = i)) as [->|]; [by rewrite Hr|].
  rewrite Hb by lia. simpl. apply IH; [lia| |done]. intros. apply Hb. lia.
Qed.

(** Case analysis for a loop whose body decides a predicate at each index. *)
Lemma for_return_dec {R} n k (body : Z -> option (option R)) (P : Z -> bool) r :
  (forall j, k <= j < k + Z.of_nat n -> body j = Some (if P j then Some r else None)) ->
  (for_return n k body = Some None /\ forall j, k <= j < k + Z.of_nat n -> P j = false) \/
  (for_return n k body = Some (Some r) /\ exists j, k <= j < k + Z.of_nat n /\ P j = true).
Proof.
  revert k. induction n as [|n IH]; intros k Hb; simpl.
  - left. split; [done|]. lia.
  - rewrite (Hb k) by lia. destruct (P k) eqn:E; simpl.
    { right. split; [done|]. exists k. split; [lia|done]. }
    destruct (IH (k + 1)) as [[E1 H1]|[E1 (j & Hj & HP)]].
    { intros. apply Hb. lia. }
    + left. split; [done|]. intros j Hj.
      destruct (decide (j = k)) as [->|]; [done|]. apply H1. lia.
    + right. split; [done|]. exists j. split; [lia|done].
Qed.

(** A one-bit test, as flag words are tested. *)
Lemma land_bit x k : 0 <= k -> (Z.land x (2 ^ k) =? 0) = negb (Z.testbit x k).
Proof.
  intros Hk. destruct (Z.testbit x k) eqn:E; simpl.
  - apply Z.eqb_neq. intros H. apply (f_equal (fun y => Z.testbit y k)) in H.
    rewrite Z.land_spec, Z.pow2_bits_true, E, Z.bits_0 in H by lia. done.
  - apply Z.eqb_eq, Z.bits_inj'. intros i Hi. rewrite Z.land_spec, Z.pow2_bits_eqb, Z.bits_0 by lia.
    destruct (Z.eqb_spec k i) as [->|]; [by rewrite E|apply andb_false_r].
Qed.

Lemma rd_alter {A} (f : A -> A) (a : list A) k j :
  0 <= k -> rd (alter f (Z.to_nat k) a) j = if j =? k then f <$> rd a j else rd a j.
Proof.
  intros Hk. unfold rd. destruct (Z.leb_spec 0 j), (Z.eqb_spec j k) as [->|]; try lia; try done.
  - apply list_lookup_alter_eq.
  - apply list_lookup_alter_ne. lia.
Qed.

Lemma zlen_alter {A} (f : A -> A) i (a : list A) : zlen (alter f i a) = zlen a.
Proof. unfold zlen. by rewrite length_alter. Qed.

(** ** Concatenations *)

Lemma elem_of_concat {A} (x : A) (ls : list (list A)) : x ∈ concat ls <-> exists l, x ∈ l /\ l ∈ ls.
Proof.
  induction ls as [|l ls IH]; cbn [concat].
  - split; [by intros ?%elem_of_nil|]. by intros (? & _ & ?%elem_of_nil).
  - rewrite elem_of_app, IH. setoid_rewrite elem_of_cons. split.
    + intros [Hx|(l' & Hx & Hl)]; eauto.
    + intros (l' & Hx & [->|Hl]); eauto.
Qed.

Lemma NoDup_concat {A} (ls : list (list A)) :
  Forall NoDup ls ->
  (forall b c l l', b <> c -> ls !! b = Some l -> ls !! c = Some l' -> forall x, x ∈ l -> x ∈ l' -> False) ->
  NoDup (concat ls).
Proof.
  induction 1 as [|l ls Hl _ IH]; intros Hd; cbn [concat]; [constructor|]. apply NoDup_app. split_and!; [done| |].
  - intros x Hx (l' & Hx' & (c & Hc)%list_elem_of_lookup)%elem_of_concat. by apply (Hd 0%nat (S c) l l' ltac:(lia) eq_refl Hc x).
  - apply IH. intros b c l1 l2 Hne Hb Hc. apply (Hd (S b) (S c)); [lia|done|done].
Qed.
