(* ===== verification/Bitarray.v ===== *)
(** * Bit arrays

    Model of [src/src/npdsuit/lib/src/npd_bitarray.c] and of the inline
    functions and macros of [src/src/include/lib/npd_bitarray.h]: the port
    and VLAN bitmaps of the whole system.  An [unsigned long *] is the list
    of its 32-bit words; a read or write outside of it is [None].  The
    abstraction is [bit_at], the set of bit numbers that are members. *)

From Stdlib Require Import ZArith Lia Bool Btauto.
From stdpp Require Import base decidable list sorting.
From S2P Require Import Prelude.

Open Scope Z_scope.

(** ** Words *)

Definition NPD_BITS_PER_LONG : Z := 32.
Definition NPD_BITS_PER_BYTE : Z := 8.
Definition NPD_SZLONG_LOG : Z := 5.
Definition NPD_SZLONG_MASK : Z := 31.
Definition NPD_BIT_WORD (nr : Z) : Z := nr / NPD_BITS_PER_LONG.
Definition NPD_BITS_TO_LONGS (nr : Z) : Z :=
  (nr + NPD_BITS_PER_LONG - 1) / NPD_BITS_PER_LONG.
Definition NPD_BITARRAY_LAST_WORD_MASK (nbits : Z) : Z :=
  if nbits mod NPD_BITS_PER_LONG =? 0 then not32 0
  else u32 (shl32 1 (nbits mod NPD_BITS_PER_LONG) - 1).

Definition npd_hweight32 (w : Z) : Z :=
  let res := u32 (w - (Z.land (Z.shiftr w 1) 0x55555555)) in
  let res := u32 (Z.land res 0x33333333 + Z.land (Z.shiftr res 2) 0x33333333) in
  let res := Z.land (u32 (res + Z.shiftr res 4)) 0x0F0F0F0F in
  let res := u32 (res + Z.shiftr res 8) in
  Z.land (u32 (res + Z.shiftr res 16)) 0x000000FF.

Definition npd_hweight16 (w : Z) : Z :=
  let res := u32 (w - (Z.land (Z.shiftr w 1) 0x5555)) in
  let res := u32 (Z.land res 0x3333 + Z.land (Z.shiftr res 2) 0x3333) in
  let res := Z.land (u32 (res + Z.shiftr res 4)) 0x0F0F in
  Z.land (u32 (res + Z.shiftr res 8)) 0x00FF.

Definition npd_hweight8 (w : Z) : Z :=
  let res := u32 (w - (Z.land (Z.shiftr w 1) 0x55)) in
  let res := u32 (Z.land res 0x33 + Z.land (Z.shiftr res 2) 0x33) in
  Z.land (u32 (res + Z.shiftr res 4)) 0x0F.

(** [sizeof(w) == 4] on the modelled targets. *)
Definition npd_hweight_long (w : Z) : Z := npd_hweight32 w.

Definition __npd_ffs (word : Z) : Z :=
  let num := 0 in
  let '(num, word) :=
    if Z.land word 0xffff =? 0 then (num + 16, Z.shiftr word 16) else (num, word) in
  let '(num, word) :=
    if Z.land word 0xff =? 0 then (num + 8, Z.shiftr word 8) else (num, word) in
  let '(num, word) :=
    if Z.land word 0xf =? 0 then (num + 4, Z.shiftr word 4) else (num, word) in
  let '(num, word) :=
    if Z.land word 0x3 =? 0 then (num + 2, Z.shiftr word 2) else (num, word) in
  if Z.land word 0x1 =? 0 then num + 1 else num.

Definition npd_ffz (x : Z) : Z := __npd_ffs (not32 x).

(** ** Predicates over whole arrays

    The five predicates of the source share one shape: test a word computed
    from the arguments for every full word, then the last partial word under
    [NPD_BITARRAY_LAST_WORD_MASK]; return [hit] at the first nonzero word. *)
Definition scan_words (word : Z -> option Z) (bits hit miss : Z) : option Z :=
  let lim := bits / NPD_BITS_PER_LONG in
  r ← for_return (Z.to_nat lim) 0
        (fun k => w ← word k; Some (if w =? 0 then None else Some hit));
  match r with
  | Some v => Some v
  | None =>
      if bits mod NPD_BITS_PER_LONG =? 0 then Some miss
      else w ← word lim;
           Some (if Z.land w (NPD_BITARRAY_LAST_WORD_MASK bits) =? 0 then miss else hit)
  end.

Definition __npd_bitarray_empty (bitarray : list Z) (bits : Z) : option Z :=
  scan_words (rd bitarray) bits 0 1.

Definition __npd_bitarray_full (bitarray : list Z) (bits : Z) : option Z :=
  scan_words (fun k => w ← rd bitarray k; Some (not32 w)) bits 0 1.

(** The loop of [__npd_bitarray_equal] compares with [!=], its tail with [^];
    both are nonzero exactly when the words differ. *)
Definition __npd_bitarray_equal (bitarray1 bitarray2 : list Z) (bits : Z) : option Z :=
  scan_words (fun k => x ← rd bitarray1 k; y ← rd bitarray2 k; Some (Z.lxor x y)) bits 0 1.

Definition __npd_bitarray_intersects (bitarray1 bitarray2 : list Z) (bits : Z) : option Z :=
  scan_words (fun k => x ← rd bitarray1 k; y ← rd bitarray2 k; Some (Z.land x y)) bits 1 0.

Definition __npd_bitarray_subset (bitarray1 bitarray2 : list Z) (bits : Z) : option Z :=
  scan_words (fun k => x ← rd bitarray1 k; y ← rd bitarray2 k; Some (Z.land x (not32 y))) bits 0 1.

Definition __npd_bitarray_weight (bitarray : list Z) (bits : Z) : option Z :=
  let lim := bits / NPD_BITS_PER_LONG in
  w ← for_state (Z.to_nat lim) 0
        (fun k w => x ← rd bitarray k; Some (w + npd_hweight_long x)) 0;
  if bits mod NPD_BITS_PER_LONG =? 0 then Some w
  else x ← rd bitarray lim;
       Some (w + npd_hweight_long (Z.land x (NPD_BITARRAY_LAST_WORD_MASK bits))).

(** ** Word-wise operations

    The macros call these with [dst] equal to the first source: an operand is
    either another array or the destination itself, read as it is being
    overwritten. *)
Inductive operand := Dst | Src (a : list Z).

Definition rdop (dst : list Z) (o : operand) (k : Z) : option Z :=
  match o with Dst => rd dst k | Src a => rd a k end.

Definition word_op (f : Z -> Z -> Z) (dst : list Z) (o1 o2 : operand) (bits : Z)
  : option (list Z) :=
  for_state (Z.to_nat (NPD_BITS_TO_LONGS bits)) 0
    (fun k dst => x ← rdop dst o1 k; y ← rdop dst o2 k; wr dst k (f x y)) dst.

Definition __npd_bitarray_and := word_op Z.land.
Definition __npd_bitarray_or := word_op Z.lor.
Definition __npd_bitarray_xor := word_op Z.lxor.
Definition __npd_bitarray_andnot := word_op (fun x y => Z.land x (not32 y)).

Definition __npd_bitarray_complement (dst : list Z) (src : operand) (bits : Z)
  : option (list Z) :=
  let lim := bits / NPD_BITS_PER_LONG in
  dst ← for_state (Z.to_nat lim) 0
          (fun k dst => x ← rdop dst src k; wr dst k (not32 x)) dst;
  if bits mod NPD_BITS_PER_LONG =? 0 then Some dst
  else x ← rdop dst src lim;
       wr dst lim (Z.land (not32 x) (NPD_BITARRAY_LAST_WORD_MASK bits)).

(** One iteration of the loop of [__npd_bitarray_shift_right]; the last
    iteration with [rem = 0] shifts the zero [upper] by a whole word. *)
Definition shift_right_step (src : operand) (lim left off rem k : Z) (dst : list Z)
  : option (list Z) :=
  let mask := u32 (shl32 1 left - 1) in
  upper ← (if (rem =? 0) || (lim <=? off + k + 1) then Some 0
           else u ← rdop dst src (off + k + 1);
                Some (if (off + k + 1 =? lim - 1) && negb (left =? 0) then Z.land u mask else u));
  lower ← rdop dst src (off + k);
  let lower := if negb (left =? 0) && (off + k =? lim - 1) then Z.land lower mask else lower in
  let v := Z.lor (shl32 upper (NPD_BITS_PER_LONG - rem)) (Z.shiftr lower rem) in
  wr dst k (if negb (left =? 0) && (k =? lim - 1) then Z.land v mask else v).

Definition __npd_bitarray_shift_right (dst : list Z) (src : operand) (shift bits : Z)
  : option (list Z) :=
  let lim := NPD_BITS_TO_LONGS bits in
  let left := bits mod NPD_BITS_PER_LONG in
  let off := shift / NPD_BITS_PER_LONG in
  let rem := shift mod NPD_BITS_PER_LONG in
  dst ← for_state (Z.to_nat (lim - off)) 0 (shift_right_step src lim left off rem) dst;
  if off =? 0 then Some dst
  else for_state (Z.to_nat off) (lim - off) (fun k dst => wr dst k 0) dst.

(** One iteration of the descending loop of [__npd_bitarray_shift_left]. *)
Definition shift_left_step (src : operand) (lim left off rem k : Z) (dst : list Z)
  : option (list Z) :=
  let mask := u32 (shl32 1 left - 1) in
  lower ← (if negb (rem =? 0) && (0 <? k) then rdop dst src (k - 1) else Some 0);
  upper ← rdop dst src k;
  let upper := if negb (left =? 0) && (k =? lim - 1) then Z.land upper mask else upper in
  let v := Z.lor (Z.shiftr lower (NPD_BITS_PER_LONG - rem)) (shl32 upper rem) in
  wr dst (k + off) (if negb (left =? 0) && (k + off =? lim - 1) then Z.land v mask else v).

Definition __npd_bitarray_shift_left (dst : list Z) (src : operand) (shift bits : Z)
  : option (list Z) :=
  let lim := NPD_BITS_TO_LONGS bits in
  let left := bits mod NPD_BITS_PER_LONG in
  let off := shift / NPD_BITS_PER_LONG in
  let rem := shift mod NPD_BITS_PER_LONG in
  dst ← for_state (Z.to_nat (lim - off)) 0
          (fun n => shift_left_step src lim left off rem (lim - off - 1 - n)) dst;
  if off =? 0 then Some dst
  else for_state (Z.to_nat off) 0 (fun k dst => wr dst k 0) dst.

(** ** The inline wrappers: one-word arrays take the short path. *)

Definition npd_bitarray_zero (dst : list Z) (nbits : Z) : option (list Z) :=
  if nbits <=? NPD_BITS_PER_LONG then wr dst 0 0
  else for_state (Z.to_nat (NPD_BITS_TO_LONGS nbits)) 0 (fun k dst => wr dst k 0) dst.

Definition npd_bitarray_fill (dst : list Z) (nbits : Z) : option (list Z) :=
  let nlongs := NPD_BITS_TO_LONGS nbits in
  dst ← (if 1 <? nlongs
         then for_state (Z.to_nat (nlongs - 1)) 0 (fun k dst => wr dst k (not32 0)) dst
         else Some dst);
  wr dst (nlongs - 1) (NPD_BITARRAY_LAST_WORD_MASK nbits).

Definition npd_bitarray_copy (dst src : list Z) (nbits : Z) : option (list Z) :=
  if nbits <=? NPD_BITS_PER_LONG then x ← rd src 0; wr dst 0 x
  else for_state (Z.to_nat (NPD_BITS_TO_LONGS nbits)) 0
         (fun k dst => x ← rd src k; wr dst k x) dst.

Definition short_op (f : Z -> Z -> Z) (dst : list Z) (o1 o2 : operand) : option (list Z) :=
  x ← rdop dst o1 0; y ← rdop dst o2 0; wr dst 0 (f x y).

Definition npd_bitarray_and (dst : list Z) (src1 src2 : operand) (nbits : Z) :=
  if nbits <=? NPD_BITS_PER_LONG then short_op Z.land dst src1 src2
  else __npd_bitarray_and dst src1 src2 nbits.
Definition npd_bitarray_or (dst : list Z) (src1 src2 : operand) (nbits : Z) :=
  if nbits <=? NPD_BITS_PER_LONG then short_op Z.lor dst src1 src2
  else __npd_bitarray_or dst src1 src2 nbits.
Definition npd_bitarray_xor (dst : list Z) (src1 src2 : operand) (nbits : Z) :=
  if nbits <=? NPD_BITS_PER_LONG then short_op Z.lxor dst src1 src2
  else __npd_bitarray_xor dst src1 src2 nbits.
Definition npd_bitarray_andnot (dst : list Z) (src1 src2 : operand) (nbits : Z) :=
  if nbits <=? NPD_BITS_PER_LONG then short_op (fun x y => Z.land x (not32 y)) dst src1 src2
  else __npd_bitarray_andnot dst src1 src2 nbits.

Definition npd_bitarray_complement (dst : list Z) (src : operand) (nbits : Z) :=
  if nbits <=? NPD_BITS_PER_LONG
  then x ← rdop dst src 0; wr dst 0 (Z.land (not32 x) (NPD_BITARRAY_LAST_WORD_MASK nbits))
  else __npd_bitarray_complement dst src nbits.

Definition npd_bitarray_shift_right (dst : list Z) (src : operand) (shift nbits : Z) :=
  if nbits <=? NPD_BITS_PER_LONG
  then x ← rdop dst src 0; wr dst 0 (Z.shiftr x shift)
  else __npd_bitarray_shift_right dst src shift nbits.

Definition npd_bitarray_shift_left (dst : list Z) (src : operand) (shift nbits : Z) :=
  if nbits <=? NPD_BITS_PER_LONG
  then x ← rdop dst src 0;
       wr dst 0 (Z.land (shl32 x shift) (NPD_BITARRAY_LAST_WORD_MASK nbits))
  else __npd_bitarray_shift_left dst src shift nbits.

Definition lnot_int (x : Z) : Z := if x =? 0 then 1 else 0.

Definition npd_bitarray_equal (src1 src2 : list Z) (nbits : Z) : option Z :=
  if nbits <=? NPD_BITS_PER_LONG
  then x ← rd src1 0; y ← rd src2 0;
       Some (lnot_int (Z.land (Z.lxor x y) (NPD_BITARRAY_LAST_WORD_MASK nbits)))
  else __npd_bitarray_equal src1 src2 nbits.

Definition npd_bitarray_intersects (src1 src2 : list Z) (nbits : Z) : option Z :=
  if nbits <=? NPD_BITS_PER_LONG
  then x ← rd src1 0; y ← rd src2 0;
       Some (lnot_int (lnot_int (Z.land (Z.land x y) (NPD_BITARRAY_LAST_WORD_MASK nbits))))
  else __npd_bitarray_intersects src1 src2 nbits.

Definition npd_bitarray_subset (src1 src2 : list Z) (nbits : Z) : option Z :=
  if nbits <=? NPD_BITS_PER_LONG
  then x ← rd src1 0; y ← rd src2 0;
       Some (lnot_int (Z.land (Z.land x (not32 y)) (NPD_BITARRAY_LAST_WORD_MASK nbits)))
  else __npd_bitarray_subset src1 src2 nbits.

Definition npd_bitarray_empty (src : list Z) (nbits : Z) : option Z :=
  if nbits <=? NPD_BITS_PER_LONG
  then x ← rd src 0; Some (lnot_int (Z.land x (NPD_BITARRAY_LAST_WORD_MASK nbits)))
  else __npd_bitarray_empty src nbits.

Definition npd_bitarray_full (src : list Z) (nbits : Z) : option Z :=
  if nbits <=? NPD_BITS_PER_LONG
  then x ← rd src 0; Some (lnot_int (Z.land (not32 x) (NPD_BITARRAY_LAST_WORD_MASK nbits)))
  else __npd_bitarray_full src nbits.

Definition npd_bitarray_weight (src : list Z) (nbits : Z) : option Z :=
  if nbits <=? NPD_BITS_PER_LONG
  then x ← rd src 0; Some (npd_hweight_long (Z.land x (NPD_BITARRAY_LAST_WORD_MASK nbits)))
  else __npd_bitarray_weight src nbits.

(** ** Single bits *)

Definition npd_bitarray_test_bit (addr : list Z) (nr : Z) : option Z :=
  w ← rd addr (NPD_BIT_WORD nr);
  Some (Z.land 1 (Z.shiftr w (Z.land nr (NPD_BITS_PER_LONG - 1)))).

(** Read-modify-write of the word of bit [nr] with a one-bit mask. *)
Definition update_bit (f : Z -> Z -> Z) (addr : list Z) (nr : Z) : option (list Z) :=
  let bit := Z.land nr NPD_SZLONG_MASK in
  let a := Z.shiftr nr NPD_SZLONG_LOG in
  let mask := shl32 1 bit in
  w ← rd addr a; wr addr a (f w mask).

Definition npd_bitarray_set_bit := update_bit Z.lor.
Definition npd_bitarray_clear_bit := update_bit (fun w mask => Z.land w (not32 mask)).
Definition npd_bitarray_change_bit := update_bit Z.lxor.

(** The macro behind [NPD_PBMP_PORT_SET] and [NPD_VBMP_VLAN_SET]: it passes
    [sizeof(bm)], a number of bytes, where [npd_bitarray_zero] takes bits. *)
Definition _NPD_SHR_BMP_BIT_SET (bm : list Z) (nbit : Z) : option (list Z) :=
  bm ← npd_bitarray_zero bm (zlen bm * 4);
  npd_bitarray_set_bit bm nbit.

(** [ntohl] and [htonl]: a byte swap on the little-endian boards, the
    identity on the big-endian ones. *)
Definition bswap32 (x : Z) : Z :=
  Z.lor (Z.lor (shl32 (Z.land x 0xff) 24) (shl32 (Z.land x 0xff00) 8))
        (Z.lor (Z.land (Z.shiftr x 8) 0xff00) (Z.land (Z.shiftr x 24) 0xff)).
Definition htonl (little_endian : bool) (x : Z) : Z := if little_endian then bswap32 x else x.
Definition ntohl := htonl.

Definition npd_bitarray_ntoh (little_endian : bool) (buf : list Z) (nbits : Z) : option (list Z) :=
  for_state (Z.to_nat (NPD_BITS_TO_LONGS nbits)) 0
    (fun k buf => x ← rd buf k; wr buf k (ntohl little_endian x)) buf.
Definition npd_bitarray_hton (little_endian : bool) (buf : list Z) (nbits : Z) : option (list Z) :=
  for_state (Z.to_nat (NPD_BITS_TO_LONGS nbits)) 0
    (fun k buf => x ← rd buf k; wr buf k (htonl little_endian x)) buf.

(** ** Searching *)

(** The label [found_first]: mask the last partial word, then look for the
    lowest bit of [tmp]. *)
Definition found_first (tmp size result : Z) : Z :=
  let tmp := Z.land tmp (Z.shiftr (not32 0) (NPD_BITS_PER_LONG - size)) in
  if tmp =? 0 then result + size else result + __npd_ffs tmp.

(** [while (size & ~(NPD_BITS_PER_LONG-1))] and what follows it. *)
Fixpoint find_bit_loop (fuel : nat) (addr : list Z) (p size result : Z) : option Z :=
  if Z.land size (not32 (NPD_BITS_PER_LONG - 1)) =? 0 then
    if size =? 0 then Some result
    else tmp ← rd addr p; Some (found_first tmp size result)
  else
    match fuel with
    | O => None
    | S fuel =>
        tmp ← rd addr p;
        if tmp =? 0
        then find_bit_loop fuel addr (p + 1) (size - NPD_BITS_PER_LONG) (result + NPD_BITS_PER_LONG)
        else Some (result + __npd_ffs tmp)
    end.

Definition npd_find_first_bit (addr : list Z) (size : Z) : option Z :=
  find_bit_loop (Z.to_nat (size / NPD_BITS_PER_LONG)) addr 0 size 0.

Definition npd_find_next_bit (addr : list Z) (size offset : Z) : option Z :=
  let p := NPD_BIT_WORD offset in
  let result := Z.land offset (not32 (NPD_BITS_PER_LONG - 1)) in
  if size <=? offset then Some size
  else
    let size := size - result in
    let offset := offset mod NPD_BITS_PER_LONG in
    let fuel := Z.to_nat (size / NPD_BITS_PER_LONG) in
    if offset =? 0 then find_bit_loop fuel addr p size result
    else
      tmp ← rd addr p;
      let tmp := Z.land tmp (shl32 (not32 0) offset) in
      if size <? NPD_BITS_PER_LONG then Some (found_first tmp size result)
      else if negb (tmp =? 0) then Some (result + __npd_ffs tmp)
      else find_bit_loop fuel addr (p + 1) (size - NPD_BITS_PER_LONG) (result + NPD_BITS_PER_LONG).

Definition found_first_zero (tmp size result : Z) : Z :=
  let tmp := Z.lor tmp (shl32 (not32 0) size) in
  if tmp =? not32 0 then result + size else result + npd_ffz tmp.

Fixpoint find_zero_bit_loop (fuel : nat) (addr : list Z) (p size result : Z) : option Z :=
  if Z.land size (not32 (NPD_BITS_PER_LONG - 1)) =? 0 then
    if size =? 0 then Some result
    else tmp ← rd addr p; Some (found_first_zero tmp size result)
  else
    match fuel with
    | O => None
    | S fuel =>
        tmp ← rd addr p;
        if not32 tmp =? 0
        then find_zero_bit_loop fuel addr (p + 1) (size - NPD_BITS_PER_LONG) (result + NPD_BITS_PER_LONG)
        else Some (result + npd_ffz tmp)
    end.

Definition npd_find_first_zero_bit (addr : list Z) (size : Z) : option Z :=
  find_zero_bit_loop (Z.to_nat (size / NPD_BITS_PER_LONG)) addr 0 size 0.

Definition npd_find_next_zero_bit (addr : list Z) (size offset : Z) : option Z :=
  let p := NPD_BIT_WORD offset in
  let result := Z.land offset (not32 (NPD_BITS_PER_LONG - 1)) in
  if size <=? offset then Some size
  else
    let size := size - result in
    let offset := offset mod NPD_BITS_PER_LONG in
    let fuel := Z.to_nat (size / NPD_BITS_PER_LONG) in
    if offset =? 0 then find_zero_bit_loop fuel addr p size result
    else
      tmp ← rd addr p;
      let tmp := Z.lor tmp (Z.shiftr (not32 0) (NPD_BITS_PER_LONG - offset)) in
      if size <? NPD_BITS_PER_LONG then Some (found_first_zero tmp size result)
      else if negb (not32 tmp =? 0) then Some (result + npd_ffz tmp)
      else find_zero_bit_loop fuel addr (p + 1) (size - NPD_BITS_PER_LONG) (result + NPD_BITS_PER_LONG).

(** [npd_for_each_bit(bit, addr, size)]: the bits visited, in order. *)
Fixpoint for_each_bit_from (fuel : nat) (addr : list Z) (size bit : Z) : option (list Z) :=
  if bit <? size then
    match fuel with
    | O => None
    | S fuel =>
        next ← npd_find_next_bit addr size (bit + 1);
        rest ← for_each_bit_from fuel addr size next;
        Some (bit :: rest)
    end
  else Some [].

Definition npd_for_each_bit (addr : list Z) (size : Z) : option (list Z) :=
  bit ← npd_find_first_bit addr size;
  for_each_bit_from (Z.to_nat size) addr size bit.

(** Rank and select: [npd_bitarray_pos_to_ord] and [npd_bitarray_ord_to_pos]. *)
Fixpoint pos_to_ord_loop (fuel : nat) (buf : list Z) (pos bits i ord : Z) : option Z :=
  if i <? pos then
    match fuel with
    | O => None
    | S fuel =>
        i ← npd_find_next_bit buf bits (i + 1);
        pos_to_ord_loop fuel buf pos bits i (ord + 1)
    end
  else Some ord.

Definition npd_bitarray_pos_to_ord (buf : list Z) (pos bits : Z) : option Z :=
  if (pos <? 0) || (bits <=? pos) then Some (-1)
  else
    t ← npd_bitarray_test_bit buf pos;
    if t =? 0 then Some (-1)
    else i ← npd_find_first_bit buf bits;
         pos_to_ord_loop (Z.to_nat bits) buf pos bits i 0.

Fixpoint ord_to_pos_loop (fuel : nat) (buf : list Z) (bits i ord : Z) : option (Z * Z) :=
  if (i <? bits) && (0 <? ord) then
    match fuel with
    | O => None
    | S fuel =>
        i ← npd_find_next_bit buf bits (i + 1);
        ord_to_pos_loop fuel buf bits i (ord - 1)
    end
  else Some (i, ord).

Definition npd_bitarray_ord_to_pos (buf : list Z) (ord bits : Z) : option Z :=
  if (0 <=? ord) && (ord <? bits) then
    i ← npd_find_first_bit buf bits;
    '(i, ord) ← ord_to_pos_loop (Z.to_nat bits) buf bits i ord;
    Some (if (i <? bits) && (ord =? 0) then i else 0)
  else Some 0.

(** ** The abstraction: an array as the set of its member bits *)

Definition bit_at (a : list Z) (i : Z) : bool :=
  match rd a (i / 32) with Some w => Z.testbit w (i mod 32) | None => false end.

(** An array of 32-bit words that holds at least [bits] bits. *)
Record wf_bits (a : list Z) (bits : Z) : Prop := {
  wf_words : Forall u32_range a;
  wf_size : 0 <= bits <= 32 * zlen a
}.

Lemma rd_word a bits k :
  wf_bits a bits -> 0 <= k < zlen a ->
  exists w, rd a k = Some w /\ u32_range w /\ forall j, 0 <= j < 32 -> bit_at a (32 * k + j) = Z.testbit w j.
Proof.
  intros [Hf _] Hk. destruct (rd_lt_Some a k Hk) as [w Hw]. exists w. split; [done|].
  split.
  - unfold rd in Hw. destruct (0 <=? k); [|done].
    rewrite Forall_forall in Hf. apply Hf, list_elem_of_lookup. eauto.
  - intros j Hj. unfold bit_at.
    replace ((32 * k + j) / 32) with k by dlia. replace ((32 * k + j) mod 32) with j by dlia.
    by rewrite Hw.
Qed.

Lemma bit_at_split a i : bit_at a i = bit_at a (32 * (i / 32) + i mod 32).
Proof. f_equal. dlia. Qed.

(** *** Lowest set bit *)

Definition ffs_step (k : Z) (s : Z * Z) : Z * Z :=
  if Z.land s.2 (Z.ones k) =? 0 then (s.1 + k, Z.shiftr s.2 k) else s.

Definition ffs_inv (k word : Z) (s : Z * Z) : Prop :=
  0 <= s.1 /\ word = s.2 * 2 ^ s.1 /\ s.2 mod 2 ^ k <> 0.

Lemma ffs_step_inv k word s :
  0 < k -> ffs_inv (2 * k) word s -> ffs_inv k word (ffs_step k s).
Proof.
  destruct s as [num w]. unfold ffs_inv, ffs_step; simpl. intros Hk (Hn & -> & Hw).
  rewrite Z.land_ones by lia. replace (2 * k) with (k + k) in Hw by lia.
  rewrite Z.pow_add_r in Hw by lia. assert (0 < 2 ^ k) by lia.
  destruct (Z.eqb_spec (w mod 2 ^ k) 0) as [E|E]; simpl; [|done].
  rewrite Z.shiftr_div_pow2 by lia. split; [lia|]. split.
  - rewrite Z.pow_add_r by lia.
    rewrite (Z.div_mod w (2 ^ k)) at 1 by lia. rewrite E. ring.
  - intros E2. apply Hw. rewrite Z.rem_mul_r by lia. rewrite E, E2. lia.
Qed.

Lemma ffs_as_steps word :
  __npd_ffs word =
  (ffs_step 1 (ffs_step 2 (ffs_step 4 (ffs_step 8 (ffs_step 16 (0, word)))))).1.
Proof.
  unfold __npd_ffs.
  change (if Z.land word 0xffff =? 0 then (0 + 16, Z.shiftr word 16) else (0, word))
    with (ffs_step 16 (0, word)). destruct (ffs_step 16 (0, word)) as [n1 w1].
  change (if Z.land w1 0xff =? 0 then (n1 + 8, Z.shiftr w1 8) else (n1, w1))
    with (ffs_step 8 (n1, w1)). destruct (ffs_step 8 (n1, w1)) as [n2 w2].
  change (if Z.land w2 0xf =? 0 then (n2 + 4, Z.shiftr w2 4) else (n2, w2))
    with (ffs_step 4 (n2, w2)). destruct (ffs_step 4 (n2, w2)) as [n3 w3].
  change (if Z.land w3 0x3 =? 0 then (n3 + 2, Z.shiftr w3 2) else (n3, w3))
    with (ffs_step 2 (n3, w3)). destruct (ffs_step 2 (n3, w3)) as [n4 w4].
  unfold ffs_step. cbn [fst snd]. change (Z.ones 1) with 0x1.
  by destruct (Z.land w4 1 =? 0).
Qed.

Lemma ffs_spec word :
  u32_range word -> word <> 0 ->
  0 <= __npd_ffs word < 32 /\ Z.testbit word (__npd_ffs word) = true /\
  forall i, 0 <= i < __npd_ffs word -> Z.testbit word i = false.
Proof.
  intros Hr Hne. rewrite ffs_as_steps.
  set (s := ffs_step 1 _).
  assert (ffs_inv 1 word s) as (Hn & Hword & Hodd).
  { unfold s. repeat (apply ffs_step_inv; [lia|]). unfold ffs_inv; simpl.
    split; [lia|]. split; [lia|]. rewrite Z.mod_small by apply Hr. done. }
  destruct s as [num w]; simpl in *. change (2 ^ 1) with 2 in Hodd.
  assert (Z.testbit word num = true) as Hbit.
  { rewrite Hword, Z.mul_pow2_bits by lia. replace (num - num) with 0 by lia.
    rewrite Z.bit0_odd, Zodd_mod. pose proof (Z.mod_pos_bound w 2). apply Z.eqb_eq. lia. }
  split; [split; [lia|]|split; [done|]].
  - destruct (decide (num < 32)); [done|]. rewrite (testbit_high 32) in Hbit by (unfold u32_range in *; lia). done.
  - intros i Hi. rewrite Hword. apply Z.mul_pow2_bits_low. lia.
Qed.

(** *** The mask of the last word *)

Lemma last_mask_testbit bits j :
  0 <= bits -> 0 <= j ->
  Z.testbit (NPD_BITARRAY_LAST_WORD_MASK bits) j =
  (j <? (if bits mod 32 =? 0 then 32 else bits mod 32)).
Proof.
  intros Hb Hj. unfold NPD_BITARRAY_LAST_WORD_MASK, NPD_BITS_PER_LONG.
  destruct (Z.eqb_spec (bits mod 32) 0).
  - rewrite not32_testbit, Z.bits_0 by lia. btauto.
  - assert (0 < bits mod 32 < 32) as Hr by dlia. set (r := bits mod 32) in *.
    assert (2 ^ r < 2 ^ 32) by (apply Z.pow_lt_mono_r; lia). assert (0 < 2 ^ r) by lia.
    unfold shl32. rewrite Z.shiftl_1_l. rewrite (u32_small (2 ^ r)) by (unfold u32_range; lia).
    rewrite u32_small by (unfold u32_range; lia).
    rewrite Z.sub_1_r, <- Z.ones_equiv, Z.testbit_ones_nonneg by lia. done.
Qed.

Lemma last_mask_range bits : u32_range (NPD_BITARRAY_LAST_WORD_MASK bits).
Proof. unfold NPD_BITARRAY_LAST_WORD_MASK. destruct (_ =? 0); apply u32_in_range. Qed.

Lemma mask_zero_iff w bits :
  0 <= bits -> u32_range w ->
  (Z.land w (NPD_BITARRAY_LAST_WORD_MASK bits) = 0 <->
   forall j, 0 <= j < (if bits mod 32 =? 0 then 32 else bits mod 32) -> Z.testbit w j = false).
Proof.
  intros Hb Hw. split.
  - intros E j Hj.
    assert (Z.testbit (Z.land w (NPD_BITARRAY_LAST_WORD_MASK bits)) j = false) as Ht
      by (rewrite E; apply Z.bits_0).
    rewrite Z.land_spec, last_mask_testbit in Ht by lia.
    destruct (Z.ltb_spec j (if bits mod 32 =? 0 then 32 else bits mod 32)); [|lia].
    by rewrite andb_true_r in Ht.
  - intros H. apply Z.bits_inj'. intros j Hj.
    rewrite Z.land_spec, last_mask_testbit, Z.bits_0 by lia.
    destruct (Z.ltb_spec j (if bits mod 32 =? 0 then 32 else bits mod 32)); [|btauto].
    rewrite H by lia. done.
Qed.

Lemma word_zero_iff w : u32_range w -> (w = 0 <-> forall j, 0 <= j < 32 -> Z.testbit w j = false).
Proof.
  intros Hw. split; [intros -> j _; apply Z.bits_0|]. intros H.
  destruct (Z.eq_dec w 0) as [|Hne]; [done|].
  destruct (nonzero_testbit 32 w) as (i & Hi & E); [exact Hw|lia|done|].
  rewrite H in E by lia. done.
Qed.

Lemma word_nonzero_ex w n :
  ~ (forall j, 0 <= j < n -> Z.testbit w j = false) -> exists j, 0 <= j < n /\ Z.testbit w j = true.
Proof.
  intros H. destruct (decide (Exists (fun j => Z.testbit w j = true) (seqZ 0 n))) as [E|E].
  - apply Exists_exists in E as (j & Hj%elem_of_seqZ & Ht). exists j. split; [lia|done].
  - exfalso. apply H. intros j Hj. destruct (Z.testbit w j) eqn:Et; [|done].
    exfalso. apply E, Exists_exists. exists j. split; [apply elem_of_seqZ; lia|done].
Qed.

(** A scan returns [hit] exactly when one of the first [bits] bits of the
    computed words is set, and never reads outside the words given. *)
Lemma scan_words_spec word (g : Z -> Z) bits hit miss :
  0 <= bits ->
  (forall k, 0 <= k < NPD_BITS_TO_LONGS bits -> word k = Some (g k) /\ u32_range (g k)) ->
  (scan_words word bits hit miss = Some miss /\
     forall i, 0 <= i < bits -> Z.testbit (g (i / 32)) (i mod 32) = false) \/
  (scan_words word bits hit miss = Some hit /\
     exists i, 0 <= i < bits /\ Z.testbit (g (i / 32)) (i mod 32) = true).
Proof.
  intros Hb Hw. unfold scan_words, NPD_BITS_TO_LONGS, NPD_BITS_PER_LONG in *.
  set (lim := bits / 32) in *. assert (0 <= lim) by (unfold lim; dlia).
  destruct (for_return_dec (Z.to_nat lim) 0
    (fun k => w ← word k; Some (if w =? 0 then None else Some hit))
    (fun k => negb (g k =? 0)) hit) as [[E Hz]|[E (k & Hk & HP)]].
  { intros k Hk. destruct (Hw k) as [-> _]; [unfold lim in *; dlia|]. simpl. by destruct (g k =? 0). }
  - rewrite E. simpl.
    assert (forall i, 0 <= i < 32 * lim -> Z.testbit (g (i / 32)) (i mod 32) = false) as Hlow.
    { intros i Hi. specialize (Hz (i / 32)). rewrite negb_false_iff, Z.eqb_eq in Hz.
      rewrite Hz by dlia. apply Z.bits_0. }
    destruct (Z.eqb_spec (bits mod 32) 0) as [Er|Er].
    { left. split; [done|]. intros i Hi. apply Hlow. unfold lim. dlia. }
    destruct (Hw lim) as [-> Hr]; [unfold lim; dlia|]. simpl.
    pose proof (mask_zero_iff (g lim) bits Hb Hr) as Hm.
    rewrite (proj2 (Z.eqb_neq _ _) Er) in Hm.
    destruct (Z.eqb_spec (Z.land (g lim) (NPD_BITARRAY_LAST_WORD_MASK bits)) 0) as [Ez|Ez].
    + left. split; [done|]. intros i Hi. destruct (decide (i < 32 * lim)); [apply Hlow; lia|].
      assert (i / 32 = lim) as -> by (unfold lim in *; dlia). apply Hm; [done|].
      unfold lim in *; dlia.
    + right. split; [done|]. destruct (word_nonzero_ex (g lim) (bits mod 32)) as (j & Hj & Hbit).
      { intros Hall. by apply Ez, Hm. }
      exists (32 * lim + j). split; [unfold lim; dlia|].
      replace ((32 * lim + j) / 32) with lim by (dlia).
      replace ((32 * lim + j) mod 32) with j by dlia. done.
  - right. rewrite E. simpl. split; [done|]. rewrite negb_true_iff, Z.eqb_neq in HP.
    destruct (Hw k) as [_ Hr]; [unfold lim in *; dlia|].
    destruct (nonzero_testbit 32 (g k)) as (j & Hj & Hbit); [exact Hr|lia|done|].
    exists (32 * k + j). split; [unfold lim in *; dlia|].
    replace ((32 * k + j) / 32) with k by dlia. replace ((32 * k + j) mod 32) with j by dlia. done.
Qed.

(** The word of an array, zero where the array has none. *)
Definition word (a : list Z) (k : Z) : Z := default 0 (rd a k).

Lemma word_rd a bits k :
  wf_bits a bits -> 0 <= k < NPD_BITS_TO_LONGS bits ->
  rd a k = Some (word a k) /\ u32_range (word a k).
Proof.
  intros Hwf Hk. unfold word. destruct (rd_word a bits k Hwf) as (w & -> & Hr & _); [|done].
  destruct Hwf as [_ Hs]. unfold NPD_BITS_TO_LONGS, NPD_BITS_PER_LONG in Hk. dlia.
Qed.

Lemma word_testbit a i : Z.testbit (word a (i / 32)) (i mod 32) = bit_at a i.
Proof. unfold word, bit_at. destruct (rd a (i / 32)); simpl; [done|apply Z.bits_0]. Qed.

Lemma not32_range w : u32_range (not32 w).
Proof. apply u32_in_range. Qed.

#[export] Hint Resolve not32_range : ranges.

Lemma bit_mod_range i : 0 <= i mod 32 < 32.
Proof. dlia. Qed.

(** The one-word short path of the wrappers agrees with the general scan. *)
Lemma short_scan word w bits hit miss :
  0 < bits <= 32 -> word 0 = Some w -> u32_range w ->
  scan_words word bits hit miss =
  Some (if Z.land w (NPD_BITARRAY_LAST_WORD_MASK bits) =? 0 then miss else hit).
Proof.
  intros Hb Hw Hr. unfold scan_words, NPD_BITS_PER_LONG.
  destruct (decide (bits = 32)) as [->|Hne].
  - change (Z.to_nat (32 / 32)) with 1%nat. simpl. rewrite Hw. simpl.
    assert (Z.land w (NPD_BITARRAY_LAST_WORD_MASK 32) = w) as ->; [|by destruct (w =? 0)].
    apply Z.bits_inj'. intros i Hi. rewrite Z.land_spec, last_mask_testbit by lia.
    change (32 mod 32 =? 0) with true. cbn iota.
    destruct (Z.ltb_spec i 32); [btauto|]. rewrite (testbit_high 32 w i) by (unfold u32_range in *; lia). done.
  - rewrite (Z.div_small bits 32), (Z.mod_small bits 32) by lia. simpl.
    destruct (Z.eqb_spec bits 0); [lia|]. rewrite Hw. done.
Qed.

(** Every predicate wrapper is a scan of the words computed by [g]. *)
Lemma wrapper_scan (P : option Z) word (g : Z -> Z) bits hit miss :
  0 < bits ->
  (forall k, 0 <= k < NPD_BITS_TO_LONGS bits -> word k = Some (g k) /\ u32_range (g k)) ->
  (bits <= 32 -> P = Some (if Z.land (g 0) (NPD_BITARRAY_LAST_WORD_MASK bits) =? 0 then miss else hit)) ->
  (32 < bits -> P = scan_words word bits hit miss) ->
  (P = Some miss /\ forall i, 0 <= i < bits -> Z.testbit (g (i / 32)) (i mod 32) = false) \/
  (P = Some hit /\ exists i, 0 <= i < bits /\ Z.testbit (g (i / 32)) (i mod 32) = true).
Proof.
  intros Hb Hw Hs Hl.
  assert (P = scan_words word bits hit miss) as ->; [|by apply scan_words_spec; [lia|]].
  destruct (decide (bits <= 32)); [|apply Hl; lia].
  destruct (Hw 0) as [E Hr]; [unfold NPD_BITS_TO_LONGS, NPD_BITS_PER_LONG; dlia|].
  rewrite Hs by done. symmetry. by apply short_scan; [lia|..].
Qed.

(** What a 0/1 answer [r] says about a property of the member bits. *)
Definition decides (r : option Z) (P : Prop) : Prop :=
  (r = Some 1 /\ P) \/ (r = Some 0 /\ ~ P).

(** Select the short or the long path of a wrapper. *)
Ltac short_path f :=
  intros ?; unfold f, NPD_BITS_PER_LONG, lnot_int;
  match goal with |- context [?n <=? 32] => destruct (Z.leb_spec n 32); [|lia] end.
Ltac long_path f :=
  intros ?; unfold f, NPD_BITS_PER_LONG;
  match goal with |- context [?n <=? 32] => destruct (Z.leb_spec n 32); [lia|] end; done.

Lemma decides_all (P : option Z) word (g : Z -> Z) bits (Q : Z -> bool) (ans : Prop) :
  0 < bits ->
  (forall k, 0 <= k < NPD_BITS_TO_LONGS bits -> word k = Some (g k) /\ u32_range (g k)) ->
  (bits <= 32 -> P = Some (if Z.land (g 0) (NPD_BITARRAY_LAST_WORD_MASK bits) =? 0 then 1 else 0)) ->
  (32 < bits -> P = scan_words word bits 0 1) ->
  (forall i, 0 <= i < bits -> Z.testbit (g (i / 32)) (i mod 32) = negb (Q i)) ->
  (ans <-> forall i, 0 <= i < bits -> Q i = true) ->
  decides P ans.
Proof.
  intros Hb Hw Hs Hl Hq Ha.
  destruct (wrapper_scan P word g bits 0 1) as [[E H]|[E (i & Hi & H)]]; try done.
  - left. split; [done|]. apply Ha. intros i Hi. rewrite <- (negb_involutive (Q i)), <- Hq, H by done. done.
  - right. split; [done|]. rewrite Ha. intros Hall. rewrite Hq, Hall in H by done. done.
Qed.

Section predicates.
Context (a b : list Z) (bits : Z).
Hypothesis (Hpos : 0 < bits) (Ha : wf_bits a bits) (Hb : wf_bits b bits).

Let w1 (f : Z -> Z) k := w ← rd a k; Some (f w).
Let w2 (f : Z -> Z -> Z) k := x ← rd a k; y ← rd b k; Some (f x y).

Lemma unary_words f :
  (forall x, u32_range x -> u32_range (f x)) ->
  forall k, 0 <= k < NPD_BITS_TO_LONGS bits ->
  w1 f k = Some (f (word a k)) /\ u32_range (f (word a k)).
Proof. intros Hf k Hk. destruct (word_rd a bits k Ha Hk) as [E ?]. unfold w1. rewrite E. auto. Qed.

Lemma binary_words f :
  (forall x y, u32_range x -> u32_range y -> u32_range (f x y)) ->
  forall k, 0 <= k < NPD_BITS_TO_LONGS bits ->
  w2 f k = Some (f (word a k) (word b k)) /\ u32_range (f (word a k) (word b k)).
Proof.
  intros Hf k Hk. destruct (word_rd a bits k Ha Hk) as [E1 ?], (word_rd b bits k Hb Hk) as [E2 ?].
  unfold w2. rewrite E1. simpl. rewrite E2. auto.
Qed.

Lemma word0 : rd a 0 = Some (word a 0) /\ rd b 0 = Some (word b 0).
Proof.
  split; eapply word_rd; eauto; unfold NPD_BITS_TO_LONGS, NPD_BITS_PER_LONG; dlia.
Qed.

Lemma npd_bitarray_empty_spec :
  decides (npd_bitarray_empty a bits) (forall i, 0 <= i < bits -> bit_at a i = false).
Proof.
  apply (decides_all _ (rd a) (word a) bits (fun i => negb (bit_at a i))); try done.
  - intros k Hk. by apply (word_rd a bits).
  - short_path npd_bitarray_empty. by rewrite (proj1 word0).
  - long_path npd_bitarray_empty.
  - intros i Hi. by rewrite negb_involutive, word_testbit.
  - by setoid_rewrite negb_true_iff.
Qed.

Lemma npd_bitarray_full_spec :
  decides (npd_bitarray_full a bits) (forall i, 0 <= i < bits -> bit_at a i = true).
Proof.
  apply (decides_all _ (w1 not32) (fun k => not32 (word a k)) bits (bit_at a)); try done.
  - apply unary_words. auto with ranges.
  - short_path npd_bitarray_full. by rewrite (proj1 word0).
  - long_path npd_bitarray_full.
  - intros i Hi. pose proof (bit_mod_range i). rewrite not32_testbit, word_testbit by lia.
    destruct (Z.ltb_spec (i mod 32) 32); [done|lia].
Qed.

Lemma npd_bitarray_equal_spec :
  decides (npd_bitarray_equal a b bits) (forall i, 0 <= i < bits -> bit_at a i = bit_at b i).
Proof.
  apply (decides_all _ (w2 Z.lxor) (fun k => Z.lxor (word a k) (word b k)) bits
           (fun i => eqb (bit_at a i) (bit_at b i))); try done.
  - apply binary_words. intros. apply lxor_range; [lia|done..].
  - short_path npd_bitarray_equal. by rewrite (proj1 word0), (proj2 word0).
  - long_path npd_bitarray_equal.
  - intros i Hi. rewrite Z.lxor_spec, !word_testbit. by destruct (bit_at a i), (bit_at b i).
  - by setoid_rewrite eqb_true_iff.
Qed.

Lemma npd_bitarray_subset_spec :
  decides (npd_bitarray_subset a b bits)
    (forall i, 0 <= i < bits -> bit_at a i = true -> bit_at b i = true).
Proof.
  apply (decides_all _ (w2 (fun x y => Z.land x (not32 y))) (fun k => Z.land (word a k) (not32 (word b k)))
           bits (fun i => implb (bit_at a i) (bit_at b i))); try done.
  - apply binary_words. intros. apply land_range; [lia|done|]. apply not32_range.
  - short_path npd_bitarray_subset. by rewrite (proj1 word0), (proj2 word0).
  - long_path npd_bitarray_subset.
  - intros i Hi. pose proof (bit_mod_range i). rewrite Z.land_spec, not32_testbit, !word_testbit by lia.
    destruct (Z.ltb_spec (i mod 32) 32); [|lia]. by destruct (bit_at a i), (bit_at b i).
  - by setoid_rewrite implb_true_iff.
Qed.

Lemma npd_bitarray_intersects_spec :
  decides (npd_bitarray_intersects a b bits)
    (exists i, 0 <= i < bits /\ bit_at a i = true /\ bit_at b i = true).
Proof.
  destruct (wrapper_scan (npd_bitarray_intersects a b bits) (w2 Z.land)
    (fun k => Z.land (word a k) (word b k)) bits 1 0) as [[E H]|[E (i & Hi & H)]]; try done.
  - apply binary_words. intros. apply land_range; [lia|done|]. unfold u32_range in *; lia.
  - short_path npd_bitarray_intersects. rewrite (proj1 word0), (proj2 word0). simpl.
    by destruct (Z.land (Z.land _ _) _ =? 0).
  - long_path npd_bitarray_intersects.
  - right. split; [done|]. intros (i & Hi & Hx & Hy). specialize (H i Hi).
    rewrite Z.land_spec, !word_testbit, Hx, Hy in H. done.
  - left. split; [done|]. exists i. rewrite Z.land_spec, !word_testbit, andb_true_iff in H. done.
Qed.
End predicates.

(** ** Correctness of the word-wise loops *)

(** A loop that writes [h k] at index [k], reading at most the old word [k]. *)
Lemma for_words (n : Z) (dst : list Z) body (h : Z -> Z) :
  0 <= n <= zlen dst ->
  (forall k d, 0 <= k < n -> zlen d = zlen dst -> rd d k = rd dst k -> body k d = wr d k (h k)) ->
  exists d, for_state (Z.to_nat n) 0 body dst = Some d /\ zlen d = zlen dst /\
    forall j, rd d j = if (0 <=? j) && (j <? n) then Some (h j) else rd dst j.
Proof.
  intros Hn Hb.
  destruct (for_state_inv (fun k d => zlen d = zlen dst /\
      forall j, rd d j = if (0 <=? j) && (j <? k) then Some (h j) else rd dst j)
    (Z.to_nat n) 0 body dst) as (d & E & HI).
  - split; [done|]. intros j. bit_cases; done.
  - intros k d Hk [Hl Hj]. rewrite (Hb k d); [|lia|done|].
    + rewrite wr_Some by lia. eexists. split; [done|]. split; [by rewrite zlen_insert|].
      intros j. rewrite rd_insert, Hj by lia. destruct (Z.eqb_spec j k); bit_cases; subst; done.
    + rewrite Hj. bit_cases; done.
  - exists d. split; [done|]. rewrite Z.add_0_l, Z2Nat.id in HI by lia. done.
Qed.

Definition opbit (dst : list Z) (o : operand) (i : Z) : bool :=
  match o with Dst => bit_at dst i | Src a => bit_at a i end.

Definition wf_operand (o : operand) (bits : Z) : Prop :=
  match o with Dst => True | Src a => wf_bits a bits end.

Definition opword (dst : list Z) (o : operand) (k : Z) : Z :=
  match o with Dst => word dst k | Src a => word a k end.

Lemma rdop_word dst d o bits k :
  wf_bits dst bits -> wf_operand o bits -> 0 <= k < NPD_BITS_TO_LONGS bits ->
  rd d k = rd dst k -> rdop d o k = Some (opword dst o k) /\ u32_range (opword dst o k).
Proof.
  intros Hd Ho Hk E. destruct o as [|a]; simpl in *; [rewrite E|]; by apply (word_rd _ bits).
Qed.

Lemma opword_testbit dst o i : Z.testbit (opword dst o (i / 32)) (i mod 32) = opbit dst o i.
Proof. destruct o; apply word_testbit. Qed.

Lemma longs_bound dst bits : wf_bits dst bits -> 0 <= NPD_BITS_TO_LONGS bits <= zlen dst.
Proof. intros [_ Hs]. unfold NPD_BITS_TO_LONGS, NPD_BITS_PER_LONG. dlia. Qed.

(** From a description of the words to one of the member bits. *)
Lemma words_to_bits (dst d : list Z) (n : Z) (h : Z -> Z) (Q : Z -> bool) :
  Forall u32_range dst -> 0 <= n <= zlen dst -> zlen d = zlen dst ->
  (forall j, rd d j = if (0 <=? j) && (j <? n) then Some (h j) else rd dst j) ->
  (forall k, 0 <= k < n -> u32_range (h k)) ->
  (forall i, 0 <= i < 32 * n -> Z.testbit (h (i / 32)) (i mod 32) = Q i) ->
  Forall u32_range d /\
  forall i, bit_at d i = if (0 <=? i) && (i <? 32 * n) then Q i else bit_at dst i.
Proof.
  intros Hf Hn Hl Hj Hr HQ. split.
  - rewrite Forall_forall. intros w (k & Hk)%list_elem_of_lookup.
    specialize (Hj (Z.of_nat k)). unfold rd in Hj. rewrite Nat2Z.id, Hk in Hj.
    destruct (Z.leb_spec 0 (Z.of_nat k)); [|lia]. simpl in Hj.
    destruct (Z.ltb_spec (Z.of_nat k) n); [injection Hj as ->; apply Hr; lia|].
    rewrite Forall_forall in Hf. apply Hf, list_elem_of_lookup. eauto.
  - intros i. unfold bit_at at 1. rewrite Hj.
    destruct (Z.leb_spec 0 i); [destruct (Z.ltb_spec i (32 * n))|]; simpl.
    + destruct (Z.leb_spec 0 (i / 32)); [|dlia]. destruct (Z.ltb_spec (i / 32) n); [|dlia].
      simpl. apply HQ. lia.
    + destruct (Z.leb_spec 0 (i / 32)); [|dlia]. destruct (Z.ltb_spec (i / 32) n); [dlia|]. done.
    + destruct (Z.leb_spec 0 (i / 32)); [dlia|]. done.
Qed.

(** A bitwise word operation computes the Boolean operation [g] on every
    member of the first [NPD_BITS_TO_LONGS bits] words, also when operands
    alias the destination. *)
Lemma word_op_spec (f : Z -> Z -> Z) (g : bool -> bool -> bool) dst o1 o2 bits :
  (forall x y, u32_range x -> u32_range y -> u32_range (f x y)) ->
  (forall x y j, 0 <= j < 32 -> Z.testbit (f x y) j = g (Z.testbit x j) (Z.testbit y j)) ->
  wf_bits dst bits -> wf_operand o1 bits -> wf_operand o2 bits ->
  exists d, word_op f dst o1 o2 bits = Some d /\ zlen d = zlen dst /\ Forall u32_range d /\
    forall i, bit_at d i =
      if (0 <=? i) && (i <? 32 * NPD_BITS_TO_LONGS bits)
      then g (opbit dst o1 i) (opbit dst o2 i) else bit_at dst i.
Proof.
  intros Hr Hg Hd H1 H2. pose proof (longs_bound _ _ Hd) as Hn.
  set (h k := f (opword dst o1 k) (opword dst o2 k)).
  assert (forall k d, 0 <= k < NPD_BITS_TO_LONGS bits -> rd d k = rd dst k ->
            rdop d o1 k = Some (opword dst o1 k) /\ rdop d o2 k = Some (opword dst o2 k) /\
            u32_range (h k)) as Hrd.
  { intros k d Hk E. destruct (rdop_word dst d o1 bits k) as [E1 R1]; try done.
    destruct (rdop_word dst d o2 bits k) as [E2 R2]; try done.
    split; [done|]. split; [done|]. by apply Hr. }
  destruct (for_words (NPD_BITS_TO_LONGS bits) dst
    (fun k d => x ← rdop d o1 k; y ← rdop d o2 k; wr d k (f x y)) h) as (d & E & Hl & Hw); [done| |].
  { intros k d Hk Hl E. destruct (Hrd k d Hk E) as (E1 & E2 & _). rewrite E1. simpl. by rewrite E2. }
  exists d. unfold word_op. rewrite E. split; [done|]. split; [done|].
  apply (words_to_bits dst d (NPD_BITS_TO_LONGS bits) h); try done; [apply Hd| |].
  - intros k Hk. by apply (Hrd k dst).
  - intros i Hi. unfold h. pose proof (bit_mod_range i). rewrite Hg, !opword_testbit by lia. done.
Qed.

(** The short path of the wrappers is the loop run for one word. *)
Lemma short_op_loop f dst o1 o2 bits :
  0 < bits <= 32 -> short_op f dst o1 o2 = word_op f dst o1 o2 bits.
Proof.
  intros Hb. unfold word_op, NPD_BITS_TO_LONGS, NPD_BITS_PER_LONG.
  replace (Z.to_nat ((bits + 32 - 1) / 32)) with 1%nat by dlia. unfold short_op.
  cbn [for_state]. destruct (rdop dst o1 0); simpl; [|done].
  destruct (rdop dst o2 0); simpl; [|done]. by destruct (wr _ _ _).
Qed.

Lemma wrapper_op_spec (P : option (list Z)) f g dst o1 o2 bits :
  (forall x y, u32_range x -> u32_range y -> u32_range (f x y)) ->
  (forall x y j, 0 <= j < 32 -> Z.testbit (f x y) j = g (Z.testbit x j) (Z.testbit y j)) ->
  P = (if bits <=? 32 then short_op f dst o1 o2 else word_op f dst o1 o2 bits) ->
  0 < bits -> wf_bits dst bits -> wf_operand o1 bits -> wf_operand o2 bits ->
  exists d, P = Some d /\ wf_bits d bits /\
    forall i, 0 <= i < bits -> bit_at d i = g (opbit dst o1 i) (opbit dst o2 i).
Proof.
  intros Hr Hg -> Hb Hd H1 H2.
  assert ((if bits <=? 32 then short_op f dst o1 o2 else word_op f dst o1 o2 bits) =
          word_op f dst o1 o2 bits) as ->.
  { destruct (Z.leb_spec bits 32); [|done]. by apply short_op_loop. }
  destruct (word_op_spec f g dst o1 o2 bits) as (d & E & Hl & Hf & Hi); try done.
  exists d. split; [done|]. split; [split; [done|]; rewrite Hl; apply Hd|].
  intros i Hib. rewrite Hi. unfold NPD_BITS_TO_LONGS, NPD_BITS_PER_LONG.
  destruct (Z.leb_spec 0 i), (Z.ltb_spec i (32 * ((bits + 32 - 1) / 32))); try dlia. done.
Qed.

Lemma andnot_testbit x y j :
  0 <= j < 32 -> Z.testbit (Z.land x (not32 y)) j = Z.testbit x j && negb (Z.testbit y j).
Proof. intros. rewrite Z.land_spec, not32_testbit by lia. by bit_cases. Qed.

Lemma land_u32 x y : u32_range x -> u32_range y -> u32_range (Z.land x y).
Proof. intros Hx Hy. apply land_range; unfold u32_range in *; lia. Qed.
Lemma lor_u32 x y : u32_range x -> u32_range y -> u32_range (Z.lor x y).
Proof. intros Hx Hy. apply lor_range; unfold u32_range in *; lia. Qed.
Lemma lxor_u32 x y : u32_range x -> u32_range y -> u32_range (Z.lxor x y).
Proof. intros Hx Hy. apply lxor_range; unfold u32_range in *; lia. Qed.
#[export] Hint Resolve land_u32 lor_u32 lxor_u32 : ranges.

(** ** Single bits *)

Lemma land_31 nr : 0 <= nr -> Z.land nr 31 = nr mod 32.
Proof. intros. change 31 with (Z.ones 5). rewrite Z.land_ones by lia. done. Qed.

Lemma one_bit_testbit b j : 0 <= b < 32 -> 0 <= j -> Z.testbit (shl32 1 b) j = (j =? b).
Proof.
  intros Hb Hj. unfold shl32. rewrite Z.shiftl_1_l, u32_testbit, Z.pow2_bits_eqb by lia.
  destruct (Z.ltb_spec j 32), (Z.eqb_spec b j), (Z.eqb_spec j b); done || lia.
Qed.

Lemma update_bit_spec f (g : bool -> bool -> bool) a bits nr :
  (forall x y, u32_range x -> u32_range y -> u32_range (f x y)) ->
  (forall x y j, 0 <= j < 32 -> Z.testbit (f x y) j = g (Z.testbit x j) (Z.testbit y j)) ->
  (forall b, g b false = b) ->
  wf_bits a bits -> 0 <= nr < bits ->
  exists a', update_bit f a nr = Some a' /\ wf_bits a' bits /\
    forall i, bit_at a' i = if i =? nr then g (bit_at a i) true else bit_at a i.
Proof.
  intros Hr Hg Hid Ha Hn. unfold update_bit, NPD_SZLONG_MASK, NPD_SZLONG_LOG.
  rewrite land_31, Z.shiftr_div_pow2 by lia. change (2 ^ 5) with 32.
  destruct (rd_word a bits (nr / 32) Ha) as (w & E & Hw & _); [destruct Ha; dlia|].
  pose proof (bit_mod_range nr) as Hm. rewrite E. simpl.
  rewrite wr_Some by (destruct Ha; dlia).
  eexists. split; [done|].
  assert (0 <= nr / 32 < zlen a) as Hk by (destruct Ha; dlia). split.
  - split; [|rewrite zlen_insert; apply Ha]. apply Forall_insert; [apply Ha|].
    apply Hr; [done|]. apply u32_in_range.
  - intros i. unfold bit_at. rewrite rd_insert by done.
    destruct (Z.eqb_spec (i / 32) (nr / 32)) as [Ew|Ew].
    + rewrite Ew, E, Hg, one_bit_testbit by (pose proof (bit_mod_range i); lia).
      destruct (Z.eqb_spec (i mod 32) (nr mod 32)), (Z.eqb_spec i nr); subst; try dlia; auto.
    + destruct (Z.eqb_spec i nr); [subst; done|done].
Qed.

Lemma test_bit_spec a bits nr :
  wf_bits a bits -> 0 <= nr < bits ->
  npd_bitarray_test_bit a nr = Some (if bit_at a nr then 1 else 0).
Proof.
  intros Ha Hn. unfold npd_bitarray_test_bit, NPD_BIT_WORD, NPD_BITS_PER_LONG.
  destruct (rd_word a bits (nr / 32) Ha) as (w & E & Hw & _); [destruct Ha; dlia|].
  unfold bit_at. rewrite E. simpl. change (32 - 1) with 31. rewrite land_31 by lia.
  f_equal. rewrite Z.land_comm. change 1 with (Z.ones 1) at 1. rewrite Z.land_ones by lia.
  change (2 ^ 1) with 2. rewrite <- Z.bit0_mod, Z.shiftr_spec by lia.
  replace (0 + nr mod 32) with (nr mod 32) by lia. by destruct (Z.testbit w (nr mod 32)).
Qed.

Lemma set_bit_spec a bits nr :
  wf_bits a bits -> 0 <= nr < bits ->
  exists a', npd_bitarray_set_bit a nr = Some a' /\ wf_bits a' bits /\
    forall i, bit_at a' i = (i =? nr) || bit_at a i.
Proof.
  intros Ha Hn.
  destruct (update_bit_spec Z.lor orb a bits nr) as (a' & E & Hwf & Hi);
    eauto with ranges; [intros; apply Z.lor_spec|intros []; done|].
  exists a'. split; [done|]. split; [done|]. intros i. rewrite Hi. by destruct (i =? nr), (bit_at a i).
Qed.

Lemma clear_bit_spec a bits nr :
  wf_bits a bits -> 0 <= nr < bits ->
  exists a', npd_bitarray_clear_bit a nr = Some a' /\ wf_bits a' bits /\
    forall i, bit_at a' i = negb (i =? nr) && bit_at a i.
Proof.
  intros Ha Hn.
  destruct (update_bit_spec (fun w m => Z.land w (not32 m)) (fun x y => x && negb y) a bits nr)
    as (a' & E & Hwf & Hi); eauto with ranges; [intros; by apply andnot_testbit|intros []; done|].
  exists a'. split; [done|]. split; [done|]. intros i. rewrite Hi. by destruct (i =? nr), (bit_at a i).
Qed.

Lemma change_bit_spec a bits nr :
  wf_bits a bits -> 0 <= nr < bits ->
  exists a', npd_bitarray_change_bit a nr = Some a' /\ wf_bits a' bits /\
    forall i, bit_at a' i = xorb (i =? nr) (bit_at a i).
Proof.
  intros Ha Hn.
  destruct (update_bit_spec Z.lxor xorb a bits nr) as (a' & E & Hwf & Hi);
    try (intros []; done); eauto using Z.lxor_spec with ranges.
Qed.

(** ** Clearing, filling, copying, byte order *)

Lemma zero_words dst n :
  Forall u32_range dst -> 0 <= n <= zlen dst ->
  exists d, for_state (Z.to_nat n) 0 (fun k d => wr d k 0) dst = Some d /\ zlen d = zlen dst /\
    Forall u32_range d /\
    forall i, bit_at d i = if (0 <=? i) && (i <? 32 * n) then false else bit_at dst i.
Proof.
  intros Hf Hn. destruct (for_words n dst (fun k d => wr d k 0) (fun _ => 0)) as (d & E & Hl & Hj);
    [done|done|]. exists d. split; [done|]. split; [done|].
  apply (words_to_bits dst d n (fun _ => 0)); try done. intros. apply Z.bits_0.
Qed.

Lemma zero_spec dst nbits :
  0 < nbits -> wf_bits dst nbits ->
  exists d, npd_bitarray_zero dst nbits = Some d /\ wf_bits d nbits /\ zlen d = zlen dst /\
    forall i, bit_at d i =
      if (0 <=? i) && (i <? 32 * NPD_BITS_TO_LONGS nbits) then false else bit_at dst i.
Proof.
  intros Hb Hd. pose proof (longs_bound _ _ Hd) as Hn.
  destruct (zero_words dst (NPD_BITS_TO_LONGS nbits)) as (d & E & Hl & Hf & Hi); [apply Hd|done|].
  exists d. split; [|split; [split; [done|rewrite Hl; apply Hd]|done]].
  unfold npd_bitarray_zero, NPD_BITS_PER_LONG. destruct (Z.leb_spec nbits 32); [|done].
  rewrite <- E. unfold NPD_BITS_TO_LONGS, NPD_BITS_PER_LONG.
  replace (Z.to_nat ((nbits + 32 - 1) / 32)) with 1%nat by dlia. cbn [for_state].
  by destruct (wr dst 0 0).
Qed.

Lemma all_ones_testbit j : 0 <= j < 32 -> Z.testbit (not32 0) j = true.
Proof. intros. rewrite not32_testbit, Z.bits_0 by lia. by bit_cases. Qed.

Lemma fill_spec dst nbits :
  0 < nbits -> wf_bits dst nbits ->
  exists d, npd_bitarray_fill dst nbits = Some d /\ wf_bits d nbits /\
    forall i, 0 <= i < nbits -> bit_at d i = true.
Proof.
  intros Hb Hd. pose proof (longs_bound _ _ Hd) as Hn. set (n := NPD_BITS_TO_LONGS nbits) in *.
  assert (1 <= n) by (unfold n, NPD_BITS_TO_LONGS, NPD_BITS_PER_LONG; dlia).
  destruct (for_words (n - 1) dst (fun k d => wr d k (not32 0)) (fun _ => not32 0))
    as (d & E & Hl & Hj); [lia|done|].
  destruct (words_to_bits dst d (n - 1) (fun _ => not32 0) (fun _ => true)) as [Hf Hi];
    try done; [apply Hd|lia|intros; apply all_ones_testbit; dlia|].
  unfold npd_bitarray_fill. fold n.
  assert ((if 1 <? n then for_state (Z.to_nat (n - 1)) 0 (fun k d => wr d k (not32 0)) dst else Some dst)
          = Some d) as ->.
  { destruct (Z.ltb_spec 1 n); [done|]. rewrite <- E. by replace (Z.to_nat (n - 1)) with 0%nat by lia. }
  simpl. rewrite wr_Some by lia. eexists. split; [done|]. split.
  - split; [apply Forall_insert; [done|apply last_mask_range]|]. rewrite zlen_insert, Hl. apply Hd.
  - intros i Hib. unfold bit_at. rewrite rd_insert by lia.
    destruct (Z.eqb_spec (i / 32) (n - 1)) as [Ek|Ek].
    + rewrite last_mask_testbit by dlia. unfold n, NPD_BITS_TO_LONGS, NPD_BITS_PER_LONG in Ek.
      apply Z.ltb_lt. destruct (Z.eqb_spec (nbits mod 32) 0); dlia.
    + specialize (Hi i). unfold bit_at in Hi. rewrite Hi.
      destruct (Z.leb_spec 0 i), (Z.ltb_spec i (32 * (n - 1))); simpl; try done; try lia.
      exfalso. unfold n, NPD_BITS_TO_LONGS, NPD_BITS_PER_LONG in *. dlia.
Qed.

(** *** Byte order *)

Lemma bswap32_testbit x j :
  0 <= j < 32 -> Z.testbit (bswap32 x) j = Z.testbit x (8 * (3 - j / 8) + j mod 8).
Proof.
  intros Hj. revert j Hj.
  assert (Forall (fun j => Z.testbit (bswap32 x) j = Z.testbit x (8 * (3 - j / 8) + j mod 8))
            (seqZ 0 32)) as Hall.
  { unfold bswap32. let l := eval vm_compute in (seqZ 0 32) in change (seqZ 0 32) with l.
    repeat (apply Forall_cons; split); try exact (Forall_nil_2 _);
      rewrite !Z.lor_spec, !shl32_testbit, !Z.land_spec, !Z.shiftr_spec by lia;
      cbv -[Z.testbit andb orb];
      repeat match goal with |- context [Z.testbit (Z.pos ?p) ?i] =>
        let b := eval vm_compute in (Z.testbit (Z.pos p) i) in
        change (Z.testbit (Z.pos p) i) with b end; btauto. }
  rewrite Forall_forall in Hall. intros j Hj. apply Hall, elem_of_seqZ. lia.
Qed.

Lemma bswap32_range x : 0 <= x -> u32_range (bswap32 x).
Proof.
  intros Hx. unfold bswap32. apply lor_u32; apply lor_u32; try apply u32_in_range.
  - rewrite Z.land_comm. apply land_range; [lia|lia|]. by apply Z.shiftr_nonneg.
  - rewrite Z.land_comm. apply land_range; [lia|lia|]. by apply Z.shiftr_nonneg.
Qed.

Lemma bswap32_involutive x : u32_range x -> bswap32 (bswap32 x) = x.
Proof.
  intros Hx. apply Z.bits_inj'. intros j Hj.
  assert (u32_range (bswap32 (bswap32 x))) by (apply bswap32_range, bswap32_range, Hx).
  destruct (decide (j < 32)).
  - rewrite bswap32_testbit by lia. rewrite bswap32_testbit by dlia. f_equal. dlia.
  - by rewrite !(testbit_high 32) by (unfold u32_range in *; lia).
Qed.

Lemma hton_words le buf nbits :
  wf_bits buf nbits ->
  exists d, npd_bitarray_hton le buf nbits = Some d /\ zlen d = zlen buf /\ Forall u32_range d /\
    forall j, rd d j =
      if (0 <=? j) && (j <? NPD_BITS_TO_LONGS nbits) then Some (htonl le (word buf j)) else rd buf j.
Proof.
  intros Hb. pose proof (longs_bound _ _ Hb) as Hn.
  assert (forall k, 0 <= k < NPD_BITS_TO_LONGS nbits -> u32_range (htonl le (word buf k))) as Hr.
  { intros k Hk. destruct (word_rd buf nbits k Hb Hk) as [_ R].
    unfold htonl. destruct le; [apply bswap32_range; unfold u32_range in R; lia|done]. }
  destruct (for_words (NPD_BITS_TO_LONGS nbits) buf
    (fun k d => x ← rd d k; wr d k (htonl le x)) (fun k => htonl le (word buf k)))
    as (d & E & Hl & Hj); [done| |].
  { intros k d Hk _ E. rewrite E. by destruct (word_rd buf nbits k Hb Hk) as [-> _]. }
  exists d. split; [done|]. split; [done|]. split; [|done].
  by apply (words_to_bits buf d (NPD_BITS_TO_LONGS nbits) (fun k => htonl le (word buf k))
            (fun i => Z.testbit (htonl le (word buf (i / 32))) (i mod 32))); [apply Hb|..].
Qed.

(** ** Population count *)

(** Number of [i] in [[lo, lo + n)] with [f i]. *)
Fixpoint count_bits (f : Z -> bool) (lo : Z) (n : nat) : Z :=
  match n with
  | O => 0
  | S n' => (if f lo then 1 else 0) + count_bits f (lo + 1) n'
  end.

Lemma count_bits_app f lo n m :
  count_bits f lo (n + m) = count_bits f lo n + count_bits f (lo + Z.of_nat n) m.
Proof.
  revert lo. induction n as [|n IH]; intros lo; cbn [count_bits Nat.add].
  - by rewrite Z.add_0_r.
  - rewrite IH. replace (lo + 1 + Z.of_nat n) with (lo + Z.of_nat (S n)) by lia. lia.
Qed.

Lemma count_bits_ext f g d lo n :
  (forall i, lo <= i < lo + Z.of_nat n -> f i = g (i + d)) ->
  count_bits f lo n = count_bits g (lo + d) n.
Proof.
  revert lo. induction n as [|n IH]; intros lo H; [done|]. cbn [count_bits].
  rewrite (H lo) by lia. rewrite IH by (intros; apply H; lia).
  by replace (lo + 1 + d) with (lo + d + 1) by lia.
Qed.

Lemma count_bits_none f lo n :
  (forall i, lo <= i < lo + Z.of_nat n -> f i = false) -> count_bits f lo n = 0.
Proof.
  revert lo. induction n as [|n IH]; intros lo H; [done|]. cbn [count_bits].
  rewrite H by lia. rewrite IH by (intros; apply H; lia). done.
Qed.

(** Little-endian byte strings and the word they denote. *)
Fixpoint val (l : list Z) : Z := match l with [] => 0 | b :: l => b + 256 * val l end.

Definition byte_range (b : Z) : Prop := 0 <= b < 256.

Lemma val_nonneg l : Forall byte_range l -> 0 <= val l.
Proof. induction 1 as [|b l Hb _ IH]; simpl; [lia|]. unfold byte_range in Hb. lia. Qed.

Lemma add_lor_low x y : byte_range x -> x + 256 * y = Z.lor x (Z.shiftl y 8).
Proof.
  unfold byte_range. intros Hx.
  assert (Z.land x (Z.shiftl y 8) = 0) as Hz.
  { apply Z.bits_inj'. intros j Hj. rewrite Z.land_spec, Z.shiftl_spec, Z.bits_0 by lia.
    destruct (decide (j < 8)); [rewrite (Z.testbit_neg_r y) by lia; btauto|].
    by rewrite (testbit_high 8 x j) by lia. }
  pose proof (Z.add_lor_land x (Z.shiftl y 8)) as E. rewrite Hz in E.
  rewrite Z.shiftl_mul_pow2 in * by lia. lia.
Qed.

(** Shifting right by [s] and masking every byte with [m < 2^(8-s)] works
    byte by byte: the bits that cross a byte boundary are masked off. *)
Lemma shr_land_step s m m' lo hi :
  0 <= s <= 8 -> 0 <= m < 2 ^ (8 - s) -> byte_range lo ->
  Z.land (Z.shiftr (lo + 256 * hi) s) (m + 256 * m') =
  Z.land (Z.shiftr lo s) m + 256 * Z.land (Z.shiftr hi s) m'.
Proof.
  intros Hs Hm Hlo.
  assert (2 ^ (8 - s) <= 2 ^ 8) by (apply Z.pow_le_mono_r; lia). change (2 ^ 8) with 256 in *.
  assert (byte_range (Z.land (Z.shiftr lo s) m)) as Hb.
  { rewrite Z.land_comm. apply (land_range 8); [lia|lia|]. apply Z.shiftr_nonneg. apply Hlo. }
  rewrite (add_lor_low lo), (add_lor_low m), add_lor_low by (unfold byte_range in *; lia).
  unfold byte_range in *. apply Z.bits_inj'. intros j Hj.
  rewrite !Z.lor_spec, !Z.land_spec, !Z.shiftr_spec, !Z.lor_spec, !Z.shiftl_spec by lia.
  destruct (decide (j < 8)).
  - rewrite (Z.testbit_neg_r m' (j - 8)) by lia.
    rewrite (Z.testbit_neg_r (Z.land (Z.shiftr hi s) m') (j - 8)) by lia.
    destruct (decide (j + s < 8)).
    + rewrite (Z.testbit_neg_r hi (j + s - 8)) by lia. btauto.
    + rewrite (testbit_high (8 - s) m j) by lia. btauto.
  - rewrite (testbit_high 8 m j) by lia. rewrite (testbit_high 8 lo (j + s)) by lia.
    rewrite Z.land_spec, Z.shiftr_spec by lia. replace (j - 8 + s) with (j + s - 8) by lia. btauto.
Qed.

Lemma shr_land_val s m l :
  0 <= s <= 8 -> 0 <= m < 2 ^ (8 - s) -> Forall byte_range l ->
  Z.land (Z.shiftr (val l) s) (val (replicate (length l) m)) =
  val ((fun b => Z.land (Z.shiftr b s) m) <$> l).
Proof.
  intros Hs Hm. induction 1 as [|b l Hb _ IH]; simpl; [apply Z.land_0_r|].
  rewrite shr_land_step by done. by rewrite IH.
Qed.

(** Adding the high nibbles to the low ones does not carry between bytes when
    every nibble is at most four. *)
Definition nibbles_le4 (r : Z) : Prop := 0 <= r / 16 <= 4 /\ 0 <= r mod 16 <= 4.

Lemma nibble_sum_val l :
  Forall nibbles_le4 l ->
  Z.land (val l + Z.shiftr (val l) 4) (val (replicate (length l) 15)) =
  val ((fun r => r mod 16 + r / 16) <$> l) /\ 0 <= val l mod 16 <= 4.
Proof.
  induction 1 as [|b l Hb _ [IH Hm]]; simpl; [split; [apply Z.land_0_r|dlia]|].
  unfold nibbles_le4 in Hb. split; [|dlia]. set (v := val l) in *.
  rewrite Z.shiftr_div_pow2 in IH |- * by lia. change (2 ^ 4) with 16 in *.
  replace (b + 256 * v + (b + 256 * v) / 16)
    with (b + b / 16 + 16 * (v mod 16) + 256 * (v + v / 16)) by dlia.
  pose proof (shr_land_step 0 15 (val (replicate (length l) 15))
    (b + b / 16 + 16 * (v mod 16)) (v + v / 16)) as E.
  rewrite !Z.shiftr_0_r, IH in E. rewrite E; [|lia|done|unfold byte_range; dlia].
  f_equal. change 15 with (Z.ones 4). rewrite Z.land_ones by lia. change (2 ^ 4) with 16. dlia.
Qed.

(** The first two stages on one byte, and what they compute. *)
Definition swar1 (b : Z) : Z := b - Z.land (Z.shiftr b 1) 0x55.
Definition swar2 (r : Z) : Z := Z.land r 0x33 + Z.land (Z.shiftr r 2) 0x33.

Lemma swar_bytes b :
  byte_range b ->
  byte_range (swar1 b) /\ nibbles_le4 (swar2 (swar1 b)) /\
  swar2 (swar1 b) mod 16 + swar2 (swar1 b) / 16 = count_bits (Z.testbit b) 0 8.
Proof.
  assert (Forall (fun b => byte_range (swar1 b) /\ nibbles_le4 (swar2 (swar1 b)) /\
    swar2 (swar1 b) mod 16 + swar2 (swar1 b) / 16 = count_bits (Z.testbit b) 0 8) (seqZ 0 256)) as H.
  { unfold byte_range, nibbles_le4. apply (bool_decide_unpack _). vm_compute. exact I. }
  rewrite Forall_forall in H. unfold byte_range. intros Hb. apply H, elem_of_seqZ. lia.
Qed.

Definition bytes4 (w : Z) : list Z :=
  [w mod 256; w / 256 mod 256; w / 65536 mod 256; w / 16777216 mod 256].

Lemma val_bytes4 w : u32_range w -> val (bytes4 w) = w.
Proof. unfold u32_range, bytes4. simpl. intros. change (2 ^ 32) with 4294967296 in *. dlia. Qed.

Lemma bytes4_range w : Forall byte_range (bytes4 w).
Proof. unfold bytes4, byte_range. repeat constructor; dlia. Qed.

Lemma bytes4_testbit w k i :
  0 <= i < 8 -> 0 <= k ->
  Z.testbit (w / 2 ^ (8 * k) mod 256) i = Z.testbit w (i + 8 * k).
Proof.
  intros Hi Hk. change 256 with (2 ^ 8). rewrite Z.mod_pow2_bits_low by lia.
  by rewrite Z.div_pow2_bits by lia.
Qed.

Lemma count_bits_byte w k d :
  0 <= k -> d = 8 * k -> count_bits (Z.testbit (w / 2 ^ d mod 256)) 0 8 = count_bits (Z.testbit w) d 8.
Proof.
  intros Hk ->. apply (count_bits_ext _ _ (8 * k)). intros i Hi. apply bytes4_testbit; lia.
Qed.

Lemma count_bits_bytes4 w :
  count_bits (Z.testbit w) 0 32 =
  count_bits (Z.testbit (w mod 256)) 0 8 + (count_bits (Z.testbit (w / 256 mod 256)) 0 8 +
  (count_bits (Z.testbit (w / 65536 mod 256)) 0 8 + count_bits (Z.testbit (w / 16777216 mod 256)) 0 8)).
Proof.
  change 32%nat with (8 + (8 + (8 + 8)))%nat. rewrite !count_bits_app.
  rewrite <- (Z.div_1_r w) at 5.
  f_equal; [|f_equal; [|f_equal]]; symmetry.
  - by apply (count_bits_byte w 0 0).
  - by apply (count_bits_byte w 1 8).
  - by apply (count_bits_byte w 2 16).
  - by apply (count_bits_byte w 3 24).
Qed.

Lemma count_bits_bound f lo n : 0 <= count_bits f lo n <= Z.of_nat n.
Proof.
  revert lo. induction n as [|n IH]; intros lo; cbn [count_bits]; [lia|].
  specialize (IH (lo + 1)). destruct (f lo); lia.
Qed.

(** The stages of [npd_hweight32] on a word given by its four bytes. *)
Section hweight_stages.
Context (b0 b1 b2 b3 : Z).
Let l := [b0; b1; b2; b3].

Lemma hweight_stage1 :
  Forall byte_range l -> Forall byte_range (swar1 <$> l) ->
  u32 (val l - Z.land (Z.shiftr (val l) 1) 0x55555555) = val (swar1 <$> l).
Proof.
  intros Hl Hr. change 0x55555555 with (val (replicate (length l) 0x55)).
  rewrite shr_land_val by (done || lia). revert Hr. unfold l. cbn [fmap list_fmap val].
  rewrite !Forall_cons. unfold swar1, byte_range. intros (?&?&?&?&_).
  rewrite u32_small; [lia|]. unfold u32_range. change (2 ^ 32) with 4294967296. lia.
Qed.

Lemma hweight_stage2 :
  Forall byte_range l -> Forall nibbles_le4 (swar2 <$> l) ->
  u32 (Z.land (val l) 0x33333333 + Z.land (Z.shiftr (val l) 2) 0x33333333) = val (swar2 <$> l).
Proof.
  intros Hl Hr. change 0x33333333 with (val (replicate (length l) 0x33)).
  rewrite (shr_land_val 2) by (done || lia). rewrite <- (Z.shiftr_0_r (val l)).
  rewrite shr_land_val by (done || lia). revert Hr. unfold l. cbn [fmap list_fmap val].
  rewrite !Forall_cons, !Z.shiftr_0_r. unfold swar2, nibbles_le4. intros (?&?&?&?&_).
  rewrite u32_small; [lia|]. unfold u32_range. change (2 ^ 32) with 4294967296. dlia.
Qed.

Lemma hweight_stage3 :
  Forall nibbles_le4 l ->
  Z.land (u32 (val l + Z.shiftr (val l) 4)) 0x0F0F0F0F = val ((fun r => r mod 16 + r / 16) <$> l).
Proof.
  intros Hl. destruct (nibble_sum_val l Hl) as [<- _]. f_equal. apply u32_small.
  rewrite Z.shiftr_div_pow2 by lia. revert Hl. unfold l. cbn [val].
  rewrite !Forall_cons. unfold nibbles_le4, u32_range. intros (?&?&?&?&_).
  change (2 ^ 32) with 4294967296. change (2 ^ 4) with 16. dlia.
Qed.

Lemma hweight_stage4 :
  Forall (fun b => 0 <= b <= 8) l ->
  let res := u32 (val l + Z.shiftr (val l) 8) in
  Z.land (u32 (res + Z.shiftr res 16)) 0xFF = b0 + (b1 + (b2 + b3)).
Proof.
  unfold l. rewrite !Forall_cons. intros (?&?&?&?&_). cbn [val]. cbv zeta.
  change 0xFF with (Z.ones 8). rewrite Z.land_ones, !Z.shiftr_div_pow2 by lia.
  unfold u32, wrap. change (2 ^ 32) with 4294967296. change (2 ^ 8) with 256.
  change (2 ^ 16) with 65536.
  rewrite (Z.mod_small (_ + _ / 256)) by dlia. rewrite (Z.mod_small _ 4294967296) by dlia. dlia.
Qed.
End hweight_stages.

(** [npd_hweight32] counts the set bits of a 32-bit word. *)
Lemma hweight32_count w : u32_range w -> npd_hweight32 w = count_bits (Z.testbit w) 0 32.
Proof.
  intros Hw. rewrite count_bits_bytes4. rewrite <- (val_bytes4 w Hw) at 1.
  pose proof (bytes4_range w) as Hr. unfold bytes4 in *.
  rewrite !Forall_cons in Hr. destruct Hr as (R0 & R1 & R2 & R3 & _).
  apply swar_bytes in R0 as S0, R1 as S1, R2 as S2, R3 as S3.
  destruct S0 as (? & ? & E0), S1 as (? & ? & E1), S2 as (? & ? & E2), S3 as (? & ? & E3).
  assert (forall P (a b c d : Z), P a -> P b -> P c -> P d -> Forall P [a; b; c; d]) as F4.
  { intros. by repeat (apply Forall_cons_2; [done|]); apply Forall_nil_2. }
  unfold npd_hweight32. cbv zeta.
  rewrite hweight_stage1 by (cbn [fmap list_fmap]; auto). cbn [fmap list_fmap].
  rewrite hweight_stage2 by (cbn [fmap list_fmap]; auto). cbn [fmap list_fmap].
  rewrite hweight_stage3 by auto. cbn [fmap list_fmap]. rewrite E0, E1, E2, E3.
  apply hweight_stage4. apply F4; apply count_bits_bound.
Qed.

Lemma weight_loop a bits n :
  wf_bits a bits -> 0 <= n <= NPD_BITS_TO_LONGS bits ->
  for_state (Z.to_nat n) 0 (fun k w => x ← rd a k; Some (w + npd_hweight_long x)) 0 =
  Some (count_bits (bit_at a) 0 (Z.to_nat (32 * n))).
Proof.
  intros Ha Hn.
  destruct (for_state_inv (fun k w => w = count_bits (bit_at a) 0 (Z.to_nat (32 * k)))
    (Z.to_nat n) 0 (fun k w => x ← rd a k; Some (w + npd_hweight_long x)) 0) as (w & E & ->).
  - done.
  - intros k w Hk ->. pose proof (longs_bound _ _ Ha).
    destruct (rd_word a bits k Ha) as (x & E & Hr & Hj); [lia|]. rewrite E. simpl.
    eexists. split; [done|]. unfold npd_hweight_long. rewrite hweight32_count by done.
    replace (Z.to_nat (32 * (k + 1))) with (Z.to_nat (32 * k) + 32)%nat by lia.
    rewrite count_bits_app. f_equal. rewrite Z2Nat.id by lia.
    apply (count_bits_ext _ _ (32 * k)). intros i Hi. rewrite <- Hj by lia. f_equal. lia.
  - by rewrite E, Z.add_0_l, Z2Nat.id by lia.
Qed.

Lemma masked_weight a bits k :
  wf_bits a bits -> 0 <= k < zlen a -> 32 * k < bits <= 32 * k + 32 ->
  npd_hweight_long (Z.land (word a k) (NPD_BITARRAY_LAST_WORD_MASK bits)) =
  count_bits (bit_at a) (32 * k) (Z.to_nat (bits - 32 * k)).
Proof.
  intros Ha Hk Hb. destruct (rd_word a bits k Ha Hk) as (x & E & Hr & Hj).
  unfold word, npd_hweight_long. rewrite E. cbn [default from_option].
  assert ((if bits mod 32 =? 0 then 32 else bits mod 32) = bits - 32 * k) as Em.
  { destruct (Z.eqb_spec (bits mod 32) 0); dlia. }
  rewrite hweight32_count by (apply land_u32; [done|apply last_mask_range]).
  replace 32%nat with (Z.to_nat (bits - 32 * k) + Z.to_nat (32 - (bits - 32 * k)))%nat at 1 by lia.
  rewrite count_bits_app. rewrite (count_bits_none _ (0 + _)).
  - rewrite Z.add_0_r. apply (count_bits_ext _ _ (32 * k)). intros i Hi.
    rewrite Z.land_spec, last_mask_testbit, Em by lia. bit_cases. rewrite andb_true_r, <- Hj by lia.
    f_equal. lia.
  - intros i Hi. rewrite Z.land_spec, last_mask_testbit, Em by lia. bit_cases.
Qed.

Lemma weight_spec a bits :
  0 < bits -> wf_bits a bits ->
  npd_bitarray_weight a bits = Some (count_bits (bit_at a) 0 (Z.to_nat bits)).
Proof.
  intros Hb Ha. pose proof (longs_bound _ _ Ha) as Hn.
  assert (forall k, 0 <= k -> 32 * k < bits -> 0 <= k < zlen a /\ rd a k = Some (word a k)) as Hrd.
  { intros k ? ?. unfold NPD_BITS_TO_LONGS, NPD_BITS_PER_LONG in Hn.
    split; [dlia|]. apply (word_rd a bits); [done|]. unfold NPD_BITS_TO_LONGS, NPD_BITS_PER_LONG. dlia. }
  unfold npd_bitarray_weight, __npd_bitarray_weight, NPD_BITS_PER_LONG.
  destruct (Z.leb_spec bits 32).
  - destruct (Hrd 0) as [H0 ->]; [lia|lia|]. simpl. f_equal.
    rewrite (masked_weight a bits 0) by (done || lia). f_equal. lia.
  - rewrite (weight_loop a bits) by (done || unfold NPD_BITS_TO_LONGS, NPD_BITS_PER_LONG; dlia).
    simpl. destruct (Z.eqb_spec (bits mod 32) 0).
    + do 2 f_equal. dlia.
    + destruct (Hrd (bits / 32)) as [H0 ->]; [dlia|dlia|]. simpl. f_equal.
      rewrite (masked_weight a bits) by (done || dlia).
      replace (Z.to_nat bits) with (Z.to_nat (32 * (bits / 32)) + Z.to_nat (bits - 32 * (bits / 32)))%nat by dlia.
      rewrite count_bits_app. do 2 f_equal. dlia.
Qed.

(** ** Searching *)

(** [r] is the first index of [[lo, hi)] with [f], or [hi]. *)
Definition first_from (f : Z -> bool) (lo hi r : Z) : Prop :=
  lo <= r <= hi /\ (forall i, lo <= i < r -> f i = false) /\ (r < hi -> f r = true).

Lemma first_from_unique f lo hi r s : first_from f lo hi r -> first_from f lo hi s -> r = s.
Proof.
  intros (Hr & Hr1 & Hr2) (Hs & Hs1 & Hs2).
  destruct (Z.lt_trichotomy r s) as [H|[H|H]]; [|done|].
  - rewrite Hs1 in Hr2 by lia. by discriminate Hr2; lia.
  - rewrite Hr1 in Hs2 by lia. by discriminate Hs2; lia.
Qed.

Lemma first_from_extend f lo mid hi r :
  lo <= mid -> (forall i, lo <= i < mid -> f i = false) -> first_from f mid hi r -> first_from f lo hi r.
Proof.
  intros Hl Hz (Hr & H1 & H2). split; [lia|]. split; [|done]. intros i Hi.
  destruct (decide (i < mid)); [apply Hz; lia|apply H1; lia].
Qed.

(** [__npd_ffs] of a word that agrees with [f] finds the first index. *)
Lemma ffs_first f w lo hi :
  u32_range w -> w <> 0 -> lo <= hi ->
  (forall j, 0 <= j < 32 -> Z.testbit w j = (j <? hi - lo) && f (lo + j)) ->
  first_from f lo hi (lo + __npd_ffs w) /\ lo + __npd_ffs w < hi.
Proof.
  intros Hr Hne Hlh Hw. destruct (ffs_spec w Hr Hne) as (Hf & H1 & H2).
  rewrite Hw in H1 by lia. apply andb_true_iff in H1 as [Hlt%Z.ltb_lt Hb].
  split; [|lia]. split; [lia|]. split; [|done]. intros i Hi.
  specialize (H2 (i - lo)). rewrite Hw in H2 by lia. replace (lo + (i - lo)) with i in H2 by lia.
  destruct (Z.ltb_spec (i - lo) (hi - lo)); [apply H2; lia|lia].
Qed.

Lemma shr_ones_testbit s j :
  0 < s < 32 -> 0 <= j -> Z.testbit (Z.shiftr (not32 0) (32 - s)) j = (j <? s).
Proof.
  intros Hs Hj. rewrite Z.shiftr_spec, not32_testbit, Z.bits_0 by lia.
  bit_cases; try lia; done.
Qed.

Lemma shr_ones_range s : 0 < s < 32 -> u32_range (Z.shiftr (not32 0) (32 - s)).
Proof. intros. apply shiftr_range; [lia|]. apply not32_range. Qed.

Lemma found_first_spec f tmp size result :
  0 < size < 32 -> u32_range tmp ->
  (forall j, 0 <= j < size -> Z.testbit tmp j = f (result + j)) ->
  first_from f result (result + size) (found_first tmp size result).
Proof.
  intros Hs Hr Ht. unfold found_first, NPD_BITS_PER_LONG.
  set (w := Z.land tmp _). assert (u32_range w) as Hw by (apply land_u32, shr_ones_range; done).
  assert (forall j, 0 <= j < 32 -> Z.testbit w j = (j <? size) && f (result + j)) as Hb.
  { intros j Hj. unfold w. rewrite Z.land_spec, shr_ones_testbit by lia.
    destruct (Z.ltb_spec j size); [rewrite Ht by lia; btauto|btauto]. }
  destruct (Z.eqb_spec w 0) as [E|E].
  - split; [lia|]. split; [|lia]. intros i Hi. specialize (Hb (i - result)).
    rewrite E, Z.bits_0 in Hb. replace (result + (i - result)) with i in Hb by lia.
    destruct (Z.ltb_spec (i - result) size); [|lia]. symmetry. apply Hb. lia.
  - apply (ffs_first f w); try done; [lia|]. intros j Hj. rewrite Hb by lia. do 2 f_equal; lia.
Qed.

(** [size & ~31] is zero exactly for the last, partial word. *)
Lemma partial_word size :
  0 <= size < 2 ^ 32 -> (Z.land size (not32 31) =? 0) = (size <? 32).
Proof.
  intros Hs.
  assert (Z.land size (not32 31) = size - size mod 32) as ->.
  { change (not32 31) with (Z.ldiff (Z.ones 32) (Z.ones 5)).
    transitivity (Z.ldiff size (Z.ones 5)).
    - apply Z.bits_inj'. intros i Hi. rewrite Z.land_spec, !Z.ldiff_spec, Z.testbit_ones_nonneg by lia.
      destruct (Z.ltb_spec i 32); [btauto|]. by rewrite (testbit_high 32 size i) by lia.
    - rewrite Z.ldiff_ones_r, Z.shiftl_mul_pow2, Z.shiftr_div_pow2 by lia. change (2 ^ 5) with 32. dlia. }
  destruct (Z.eqb_spec (size - size mod 32) 0), (Z.ltb_spec size 32); dlia.
Qed.

Lemma find_bit_loop_spec fuel a bits p :
  wf_bits a bits -> bits < 2 ^ 32 -> 0 <= 32 * p <= bits ->
  (Z.to_nat ((bits - 32 * p) / 32) <= fuel)%nat ->
  exists r, find_bit_loop fuel a p (bits - 32 * p) (32 * p) = Some r /\
    first_from (bit_at a) (32 * p) bits r.
Proof.
  intros Ha Hm. revert p. induction fuel as [|fuel IH]; intros p Hp Hf; cbn [find_bit_loop];
    unfold NPD_BITS_PER_LONG; change (32 - 1) with 31; rewrite partial_word by lia.
  all: destruct (Z.ltb_spec (bits - 32 * p) 32);
    [destruct (Z.eqb_spec (bits - 32 * p) 0);
      [exists (32 * p); split; [done|]; split; [lia|]; split; lia|] |].
  all: try (exfalso; dlia).
  all: destruct (rd_word a bits p Ha) as (w & E & Hr & Hj); [destruct Ha; dlia|]; rewrite E; simpl.
  1,2: eexists; split; [done|]; replace bits with (32 * p + (bits - 32 * p)) at 1 by lia;
      apply found_first_spec; [lia|done|]; intros; rewrite <- Hj by lia; done.
  destruct (Z.eqb_spec w 0) as [->|Hne].
  - destruct (IH (p + 1)) as (r & Er & Hfr); [lia| |].
    { replace (bits - 32 * (p + 1)) with (bits - 32 * p - 32) by lia. dlia. }
    exists r. split.
    + rewrite <- Er. f_equal; lia.
    + apply (first_from_extend _ _ (32 * (p + 1))); [lia| |done]. intros i Hi.
      specialize (Hj (i - 32 * p)). replace (32 * p + (i - 32 * p)) with i in Hj by lia.
      rewrite Hj by lia. apply Z.bits_0.
  - eexists. split; [done|]. apply (ffs_first _ w); try done; [lia|].
    intros j Hjr. rewrite <- Hj by lia. bit_cases. done.
Qed.

Lemma find_first_bit_spec a size :
  wf_bits a size -> size < 2 ^ 32 ->
  exists r, npd_find_first_bit a size = Some r /\ first_from (bit_at a) 0 size r.
Proof.
  intros Ha Hm. unfold npd_find_first_bit, NPD_BITS_PER_LONG.
  destruct (find_bit_loop_spec (Z.to_nat (size / 32)) a size 0) as (r & E & H); try done.
  - destruct Ha. lia.
  - replace (size - 32 * 0) with size by lia. done.
  - exists r. split; [|done]. rewrite <- E. f_equal. lia.
Qed.

(** [offset & ~31], the first bit of the word of [offset]. *)
Lemma word_base offset : 0 <= offset < 2 ^ 32 -> Z.land offset (not32 31) = 32 * (offset / 32).
Proof.
  intros Ho. change (not32 31) with (Z.ldiff (Z.ones 32) (Z.ones 5)).
  transitivity (Z.ldiff offset (Z.ones 5)).
  - apply Z.bits_inj'. intros i Hi. rewrite Z.land_spec, !Z.ldiff_spec, Z.testbit_ones_nonneg by lia.
    destruct (Z.ltb_spec i 32); [btauto|]. by rewrite (testbit_high 32 offset i) by lia.
  - rewrite Z.ldiff_ones_r, Z.shiftl_mul_pow2, Z.shiftr_div_pow2 by lia. change (2 ^ 5) with 32. lia.
Qed.

Lemma high_mask_testbit o j : 0 <= o -> 0 <= j < 32 -> Z.testbit (shl32 (not32 0) o) j = (o <=? j).
Proof.
  intros Ho Hj. rewrite shl32_testbit by lia. destruct (Z.leb_spec o j).
  - rewrite all_ones_testbit by lia. by bit_cases.
  - rewrite Z.testbit_neg_r by lia. btauto.
Qed.

(** [first_from] only looks at [f] on the range. *)
Lemma first_from_ext f g lo hi r :
  (forall i, lo <= i < hi -> f i = g i) -> first_from f lo hi r -> first_from g lo hi r.
Proof.
  intros H (Hr & H1 & H2). split; [done|]. split.
  - intros i Hi. rewrite <- H by lia. by apply H1.
  - intros Hlt. rewrite <- H by lia. by apply H2.
Qed.

(** Dropping a prefix on which [f] was masked off. *)
Lemma first_from_masked f lo mid hi r :
  lo <= mid <= hi ->
  first_from (fun i => (mid <=? i) && f i) lo hi r -> first_from f mid hi r.
Proof.
  intros Hm (Hr & H1 & H2). destruct (Z.leb_spec mid r).
  - split; [lia|]. split.
    + intros i Hi. specialize (H1 i). destruct (Z.leb_spec mid i); [apply H1; lia|lia].
    + intros Hlt. apply H2 in Hlt. by destruct (Z.leb_spec mid r); [|lia].
  - destruct (Z.leb_spec mid r); [lia|]. simpl in H2. discriminate H2. lia.
Qed.

Lemma find_next_bit_spec a size offset :
  wf_bits a size -> size < 2 ^ 32 -> 0 <= offset < size ->
  exists r, npd_find_next_bit a size offset = Some r /\ first_from (bit_at a) offset size r.
Proof.
  intros Ha Hm Ho. unfold npd_find_next_bit, NPD_BIT_WORD, NPD_BITS_PER_LONG.
  change (32 - 1) with 31. rewrite word_base by lia. destruct (Z.leb_spec size offset); [lia|].
  set (p := offset / 32). destruct (Z.eqb_spec (offset mod 32) 0) as [E0|E0].
  { replace offset with (32 * p) by (unfold p; dlia).
    apply find_bit_loop_spec; try done. unfold p. dlia. }
  destruct (rd_word a size p Ha) as (w & E & Hr & Hj); [destruct Ha; unfold p; dlia|].
  rewrite E. simpl. set (f := fun i => (offset <=? i) && bit_at a i).
  set (tmp := Z.land w _).
  assert (u32_range tmp) as Htr by (apply land_u32; [done|apply u32_in_range]).
  assert (forall j, 0 <= j < 32 -> Z.testbit tmp j = f (32 * p + j)) as Ht.
  { intros j Hjr. unfold tmp, f. rewrite Z.land_spec, high_mask_testbit, Hj by dlia.
    rewrite andb_comm. f_equal. unfold p.
    destruct (Z.leb_spec (offset mod 32) j), (Z.leb_spec offset (32 * (offset / 32) + j)); dlia. }
  assert (0 <= 32 * p <= offset) by (unfold p; dlia).
  destruct (Z.ltb_spec (size - 32 * p) 32).
  - eexists. split; [done|]. apply (first_from_masked _ (32 * p)); [lia|]. fold f.
    replace size with (32 * p + (size - 32 * p)) at 1 by lia.
    apply found_first_spec; [lia|done|]. intros; apply Ht; lia.
  - destruct (Z.eqb_spec tmp 0) as [Ez|Ez]; simpl.
    + destruct (find_bit_loop_spec (Z.to_nat ((size - 32 * p) / 32)) a size (p + 1))
        as (r & Er & Hfr); try done; [lia|dlia|].
      exists r. split; [rewrite <- Er; f_equal; lia|].
      apply (first_from_extend _ _ (32 * (p + 1))); [unfold p; dlia| |done]. intros i Hi.
      specialize (Ht (i - 32 * p)). rewrite Ez, Z.bits_0 in Ht. unfold f in Ht.
      replace (32 * p + (i - 32 * p)) with i in Ht by lia.
      destruct (Z.leb_spec offset i); [symmetry; apply Ht; lia|lia].
    + eexists. split; [done|]. apply (first_from_masked _ (32 * p)); [lia|]. fold f.
      apply (ffs_first f tmp); try done; [lia|]. intros j Hjr. rewrite Ht by lia. by bit_cases.
Qed.

(** *** Zero bits: the search in the complemented array *)

Lemma not32_involutive w : u32_range w -> not32 (not32 w) = w.
Proof.
  intros Hw. apply Z.bits_inj'. intros j Hj. rewrite !not32_testbit by lia.
  destruct (Z.ltb_spec j 32); [by destruct (Z.testbit w j)|].
  by rewrite (testbit_high 32 w) by (unfold u32_range in *; lia).
Qed.

Lemma not32_lor x y : not32 (Z.lor x y) = Z.land (not32 x) (not32 y).
Proof. bitwise. Qed.

Lemma not32_shl_ones s : 0 < s < 32 -> not32 (shl32 (not32 0) s) = Z.shiftr (not32 0) (32 - s).
Proof.
  intros Hs. apply Z.bits_inj'. intros j Hj. rewrite shr_ones_testbit by lia.
  rewrite not32_testbit by lia. destruct (Z.ltb_spec j 32).
  - rewrite high_mask_testbit by lia. destruct (Z.leb_spec s j), (Z.ltb_spec j s); lia || done.
  - by bit_cases.
Qed.

Lemma found_first_zero_as tmp size result :
  0 < size < 32 -> u32_range tmp ->
  found_first_zero tmp size result = found_first (not32 tmp) size result.
Proof.
  intros Hs Hr. unfold found_first_zero, found_first, npd_ffz, NPD_BITS_PER_LONG.
  rewrite not32_lor, not32_shl_ones by done.
  set (x := Z.lor tmp _). assert (u32_range x) as Hx by (apply lor_u32; [done|apply u32_in_range]).
  assert (Z.land (not32 tmp) (Z.shiftr (not32 0) (32 - size)) = not32 x) as ->.
  { unfold x. by rewrite not32_lor, not32_shl_ones. }
  destruct (Z.eqb_spec x (not32 0)) as [E|E], (Z.eqb_spec (not32 x) 0) as [E'|E']; try done.
  - rewrite E, not32_involutive in E' by done. done.
  - destruct E. by rewrite <- E', not32_involutive.
Qed.

Lemma rd_fmap {A B} (f : A -> B) (a : list A) k : rd (f <$> a) k = f <$> rd a k.
Proof. unfold rd. destruct (0 <=? k); [apply list_lookup_fmap|done]. Qed.

Lemma find_zero_bit_loop_as fuel a p size result :
  Forall u32_range a -> 0 <= size < 2 ^ 32 ->
  find_zero_bit_loop fuel a p size result = find_bit_loop fuel (not32 <$> a) p size result.
Proof.
  intros Ha. revert p size result. induction fuel as [|fuel IH]; intros p size result Hs;
    cbn [find_zero_bit_loop find_bit_loop]; unfold NPD_BITS_PER_LONG; change (32 - 1) with 31;
    rewrite partial_word, rd_fmap by lia;
    destruct (Z.ltb_spec size 32); [destruct (Z.eqb_spec size 0); [done|]|done|
      destruct (Z.eqb_spec size 0); [done|]|].
  all: destruct (rd a p) as [w|] eqn:E; [|done]; simpl.
  1,2: rewrite found_first_zero_as; try done; [lia|]; unfold rd in E; destruct (0 <=? p); [|done];
    by apply (Forall_lookup_1 _ _ _ _ Ha E).
  unfold npd_ffz. destruct (not32 w =? 0); [|done]. apply IH. lia.
Qed.

Lemma bit_at_complement a i :
  0 <= i < 32 * zlen a -> bit_at (not32 <$> a) i = negb (bit_at a i).
Proof.
  intros Hi. unfold bit_at. rewrite rd_fmap.
  destruct (rd_lt_Some a (i / 32)) as [w ->]; [dlia|]. simpl.
  rewrite not32_testbit by dlia. destruct (Z.ltb_spec (i mod 32) 32); [done|dlia].
Qed.

Lemma wf_complement a bits : wf_bits a bits -> wf_bits (not32 <$> a) bits.
Proof.
  intros [_ Hs]. split.
  - apply Forall_fmap, Forall_true. intros. apply not32_range.
  - unfold zlen. by rewrite length_fmap.
Qed.

Lemma find_next_zero_bit_as a size offset :
  wf_bits a size -> size < 2 ^ 32 -> 0 <= offset ->
  npd_find_next_zero_bit a size offset = npd_find_next_bit (not32 <$> a) size offset.
Proof.
  intros [Hf Hs] Hm Ho. unfold npd_find_next_zero_bit, npd_find_next_bit, NPD_BIT_WORD, NPD_BITS_PER_LONG.
  destruct (Z.leb_spec size offset); [done|]. change (32 - 1) with 31. rewrite word_base by lia.
  destruct (Z.eqb_spec (offset mod 32) 0); [apply find_zero_bit_loop_as; [done|dlia]|].
  rewrite rd_fmap. destruct (rd a (offset / 32)) as [w|] eqn:E; [|done]. simpl.
  assert (u32_range w) as Hw.
  { unfold rd in E. destruct (0 <=? offset / 32); [|done]. by apply (Forall_lookup_1 _ _ _ _ Hf E). }
  set (m := Z.shiftr (not32 0) (32 - offset mod 32)).
  assert (not32 (Z.lor w m) = Z.land (not32 w) (shl32 (not32 0) (offset mod 32))) as Em.
  { rewrite not32_lor. f_equal. unfold m. rewrite <- not32_shl_ones by dlia.
    apply not32_involutive, u32_in_range. }
  rewrite <- Em. assert (u32_range (Z.lor w m)) by (apply lor_u32, shr_ones_range; [done|dlia]).
  destruct (Z.ltb_spec (size - 32 * (offset / 32)) 32); [f_equal; apply found_first_zero_as; [dlia|done]|].
  unfold npd_ffz. destruct (not32 (Z.lor w m) =? 0); [|done]. simpl.
  apply find_zero_bit_loop_as; [done|]. dlia.
Qed.

(** *** Iteration, rank and select *)

(** The member bits of [[lo, hi)] in ascending order. *)
Definition members (f : Z -> bool) (lo hi : Z) : list Z :=
  filter (fun i => f i = true) (seqZ lo (hi - lo)).

Lemma members_split f lo mid hi :
  lo <= mid <= hi -> members f lo hi = members f lo mid ++ members f mid hi.
Proof.
  intros H. unfold members. replace (hi - lo) with ((mid - lo) + (hi - mid)) by lia.
  rewrite seqZ_app, filter_app by lia. do 3 f_equal. lia.
Qed.

Lemma members_none f lo hi : (forall i, lo <= i < hi -> f i = false) -> members f lo hi = [].
Proof.
  intros H. apply elem_of_nil_inv. intros i. unfold members.
  rewrite list_elem_of_filter, elem_of_seqZ. intros [Hf Hi]. rewrite H in Hf by lia. done.
Qed.

Lemma members_cons f r hi : r < hi -> f r = true -> members f r hi = r :: members f (r + 1) hi.
Proof.
  intros Hr Hf. unfold members. rewrite seqZ_cons by lia.
  rewrite filter_cons_True by done. do 3 f_equal; lia.
Qed.

Lemma members_first f lo hi r :
  first_from f lo hi r ->
  members f lo hi = if r <? hi then r :: members f (r + 1) hi else [].
Proof.
  intros (Hr & H1 & H2). rewrite (members_split f lo r hi) by lia. rewrite (members_none f lo r) by done.
  destruct (Z.ltb_spec r hi); [by rewrite members_cons by auto|].
  apply members_none. intros. lia.
Qed.

Lemma members_length f lo n :
  Z.of_nat (length (members f lo (lo + Z.of_nat n))) = count_bits f lo n.
Proof.
  revert lo. induction n as [|n IH]; intros lo.
  - rewrite members_none by (intros; lia). done.
  - cbn [count_bits]. rewrite <- IH, (members_split f lo (lo + 1)) by lia. rewrite length_app.
    replace (lo + Z.of_nat (S n)) with (lo + 1 + Z.of_nat n) by lia.
    destruct (f lo) eqn:E.
    + rewrite (members_cons f lo) by (done || lia). rewrite (members_none f (lo + 1) (lo + 1)) by (intros; lia).
      simpl. lia.
    + rewrite (members_none f lo) by (intros i ?; by replace i with lo by lia). simpl. lia.
Qed.

Lemma members_sorted f lo hi : StronglySorted Z.lt (members f lo hi).
Proof.
  unfold members. remember (Z.to_nat (hi - lo)) as n eqn:En. revert lo En.
  induction n as [|n IH]; intros lo En.
  - rewrite seqZ_nil by lia. constructor.
  - rewrite seqZ_cons by lia. specialize (IH (Z.succ lo)).
    replace (hi - Z.succ lo) with (Z.pred (hi - lo)) in IH by lia.
    rewrite filter_cons. destruct (decide (f lo = true)); [|apply IH; lia].
    constructor; [apply IH; lia|]. apply Forall_forall. intros i.
    rewrite list_elem_of_filter, elem_of_seqZ. lia.
Qed.

(** [npd_find_next_bit] past the end returns the size. *)
Lemma find_next_bit_total a size offset :
  wf_bits a size -> size < 2 ^ 32 -> 0 <= offset <= size ->
  exists r, npd_find_next_bit a size offset = Some r /\ first_from (bit_at a) offset size r.
Proof.
  intros Ha Hm Ho. destruct (decide (offset < size)); [apply find_next_bit_spec; (done || lia)|].
  exists size. split; [|split; [lia|split; lia]].
  unfold npd_find_next_bit. by destruct (Z.leb_spec size offset); [|lia].
Qed.

Section iteration.
Context (a : list Z) (size : Z) (Ha : wf_bits a size) (Hm : size < 2 ^ 32).

Lemma for_each_bit_from_spec fuel lo bit :
  0 <= lo -> first_from (bit_at a) lo size bit -> (Z.to_nat (size - bit) <= fuel)%nat ->
  for_each_bit_from fuel a size bit = Some (members (bit_at a) lo size).
Proof.
  revert lo bit. induction fuel as [|fuel IH]; intros lo bit Hlo Hf Hfu; cbn [for_each_bit_from];
    rewrite (members_first _ _ _ _ Hf); destruct (Z.ltb_spec bit size); try done; [lia|].
  destruct Hf as [Hb _]. destruct (find_next_bit_total a size (bit + 1)) as (r & -> & Hr); try done; [lia|].
  simpl. rewrite (IH (bit + 1) r); [done|lia|done|]. destruct Hr. lia.
Qed.

Lemma for_each_bit_spec : npd_for_each_bit a size = Some (members (bit_at a) 0 size).
Proof.
  unfold npd_for_each_bit. destruct (find_first_bit_spec a size Ha Hm) as (r & -> & Hr). simpl.
  apply for_each_bit_from_spec; [lia|done|]. destruct Hr. lia.
Qed.

Lemma pos_to_ord_loop_spec fuel lo pos i ord :
  0 <= lo <= pos -> pos < size -> bit_at a pos = true ->
  first_from (bit_at a) lo size i -> (Z.to_nat (size - i) <= fuel)%nat ->
  pos_to_ord_loop fuel a pos size i ord = Some (ord + Z.of_nat (length (members (bit_at a) lo pos))).
Proof.
  intros Hlo Hpos Hbit. revert lo i ord Hlo. induction fuel as [|fuel IH]; intros lo i ord Hlo Hf Hfu;
    cbn [pos_to_ord_loop]; destruct Hf as (Hi & H1 & H2).
  all: assert (i <= pos) by (destruct (decide (pos < i)); [rewrite H1 in Hbit by lia; done|lia]).
  all: destruct (Z.ltb_spec i pos); [|rewrite members_none by (intros; apply H1; lia); f_equal; simpl; lia].
  - lia.
  - destruct (find_next_bit_total a size (i + 1)) as (r & -> & Hr); try done; [lia|]. simpl.
    rewrite (IH (i + 1)); [|lia|done|destruct Hr; lia].
    rewrite (members_first _ lo pos i) by (split; [lia|split; [done|intros; apply H2; lia]]).
    destruct (Z.ltb_spec i pos); [|lia]. f_equal. simpl. lia.
Qed.

Lemma pos_to_ord_spec pos :
  npd_bitarray_pos_to_ord a pos size =
  Some (if (0 <=? pos) && (pos <? size) && bit_at a pos
        then Z.of_nat (length (members (bit_at a) 0 pos)) else -1).
Proof.
  unfold npd_bitarray_pos_to_ord.
  destruct (Z.ltb_spec pos 0), (Z.leb_spec 0 pos), (Z.leb_spec size pos), (Z.ltb_spec pos size);
    try lia; try done. simpl.
  rewrite (test_bit_spec a size) by (done || lia). simpl. destruct (bit_at a pos) eqn:E; [|done]. simpl.
  destruct (find_first_bit_spec a size Ha Hm) as (r & -> & Hr). simpl.
  by rewrite (pos_to_ord_loop_spec _ 0) by (done || (destruct Hr; lia)).
Qed.

Lemma ord_to_pos_loop_spec fuel lo i ord :
  0 <= lo -> 0 <= ord -> first_from (bit_at a) lo size i -> (Z.to_nat (size - i) <= fuel)%nat ->
  exists i' ord', ord_to_pos_loop fuel a size i ord = Some (i', ord') /\
    (if (i' <? size) && (ord' =? 0) then i' else 0) =
    default 0 (members (bit_at a) lo size !! Z.to_nat ord).
Proof.
  revert lo i ord. induction fuel as [|fuel IH]; intros lo i ord Hlo Ho Hf Hfu;
    cbn [ord_to_pos_loop]; rewrite (members_first _ _ _ _ Hf); destruct Hf as (Hi & H1 & H2).
  all: destruct (Z.ltb_spec i size); cbn [andb];
    [|exists i, ord; split; [done|]; by destruct (Z.ltb_spec i size); [lia|]].
  - lia.
  - destruct (Z.ltb_spec 0 ord).
    + destruct (find_next_bit_total a size (i + 1)) as (r & -> & Hr); try done; [lia|]. simpl.
      destruct (IH (i + 1) r (ord - 1)) as (i' & o' & E & Hd); try done; [lia|lia|destruct Hr; lia|].
      exists i', o'. split; [done|]. rewrite Hd.
      replace (Z.to_nat ord) with (S (Z.to_nat (ord - 1))) by lia. done.
    + exists i, ord. split; [done|]. replace ord with 0 by lia.
      by destruct (Z.ltb_spec i size); [|lia].
Qed.

(** Select: the member of rank [ord], or 0 when there is none. *)
Lemma ord_to_pos_spec ord :
  npd_bitarray_ord_to_pos a ord size =
  Some (if 0 <=? ord then default 0 (members (bit_at a) 0 size !! Z.to_nat ord) else 0).
Proof.
  unfold npd_bitarray_ord_to_pos. destruct (Z.leb_spec 0 ord); [|done].
  destruct (Z.ltb_spec ord size); cbn [andb].
  - destruct (find_first_bit_spec a size Ha Hm) as (r & -> & Hr). simpl.
    destruct (ord_to_pos_loop_spec (Z.to_nat size) 0 r ord) as (i' & o' & -> & Hd); try done;
      [destruct Hr; lia|]. simpl. by rewrite Hd.
  - rewrite lookup_ge_None_2; [done|]. unfold members.
    etrans; [apply length_filter|]. rewrite length_seqZ. lia.
Qed.
End iteration.

Lemma select_rank f size pos :
  0 <= pos < size -> f pos = true ->
  members f 0 size !! length (members f 0 pos) = Some pos.
Proof.
  intros Hp Hf. rewrite (members_split f 0 pos size) by lia. rewrite (members_cons f pos) by (done || lia).
  by apply list_lookup_middle.
Qed.

(** *** Shifts *)

(** A loop that writes [h k] at index [k] and reads only words from [k] up. *)
Lemma for_words_ahead (n : Z) (dst : list Z) body (h : Z -> Z) :
  0 <= n <= zlen dst ->
  (forall k d, 0 <= k < n -> zlen d = zlen dst -> (forall j, k <= j -> rd d j = rd dst j) ->
     body k d = wr d k (h k)) ->
  exists d, for_state (Z.to_nat n) 0 body dst = Some d /\ zlen d = zlen dst /\
    forall j, rd d j = if (0 <=? j) && (j <? n) then Some (h j) else rd dst j.
Proof.
  intros Hn Hb.
  destruct (for_state_inv (fun k d => zlen d = zlen dst /\
      forall j, rd d j = if (0 <=? j) && (j <? k) then Some (h j) else rd dst j)
    (Z.to_nat n) 0 body dst) as (d & E & HI).
  - split; [done|]. intros j. bit_cases; done.
  - intros k d Hk [Hl Hj]. rewrite (Hb k d); [|lia|done|].
    + rewrite wr_Some by lia. eexists. split; [done|]. split; [by rewrite zlen_insert|].
      intros j. rewrite rd_insert, Hj by lia. destruct (Z.eqb_spec j k); bit_cases; subst; done.
    + intros j Hkj. rewrite Hj. bit_cases; done.
  - exists d. split; [done|]. rewrite Z.add_0_l, Z2Nat.id in HI by lia. done.
Qed.

(** A loop that writes zeros from index [lo]. *)
Lemma zero_from (n lo : Z) (dst : list Z) :
  0 <= lo -> 0 <= n -> lo + n <= zlen dst ->
  exists d, for_state (Z.to_nat n) lo (fun k d => wr d k 0) dst = Some d /\ zlen d = zlen dst /\
    forall j, rd d j = if (lo <=? j) && (j <? lo + n) then Some 0 else rd dst j.
Proof.
  intros Hlo Hn Hb.
  destruct (for_state_inv (fun k d => zlen d = zlen dst /\
      forall j, rd d j = if (lo <=? j) && (j <? k) then Some 0 else rd dst j)
    (Z.to_nat n) lo (fun k d => wr d k 0) dst) as (d & E & HI).
  - split; [done|]. intros j. bit_cases; done.
  - intros k d Hk [Hl Hj]. rewrite wr_Some by lia. eexists. split; [done|].
    split; [by rewrite zlen_insert|].
    intros j. rewrite rd_insert, Hj by lia. destruct (Z.eqb_spec j k); bit_cases; subst; done.
  - exists d. split; [done|]. rewrite Z2Nat.id in HI by lia. done.
Qed.

(** A loop that writes [h k] at [k = top, top - 1, ...] and reads only words
    up to [k]. *)
Lemma for_words_back (n top : Z) (dst : list Z) body (h : Z -> Z) :
  0 <= n <= top + 1 -> top < zlen dst ->
  (forall k d, 0 <= k < n -> zlen d = zlen dst -> (forall j, j <= top - k -> rd d j = rd dst j) ->
     body k d = wr d (top - k) (h (top - k))) ->
  exists d, for_state (Z.to_nat n) 0 body dst = Some d /\ zlen d = zlen dst /\
    forall j, rd d j = if (top - n <? j) && (j <=? top) then Some (h j) else rd dst j.
Proof.
  intros Hn Ht Hb.
  destruct (for_state_inv (fun k d => zlen d = zlen dst /\
      forall j, rd d j = if (top - k <? j) && (j <=? top) then Some (h j) else rd dst j)
    (Z.to_nat n) 0 body dst) as (d & E & HI).
  - split; [done|]. intros j. bit_cases; done.
  - intros k d Hk [Hl Hj]. rewrite (Hb k d); [|lia|done|].
    + rewrite wr_Some by lia. eexists. split; [done|]. split; [by rewrite zlen_insert|].
      intros j. rewrite rd_insert, Hj by lia. destruct (Z.eqb_spec j (top - k)); bit_cases; subst; done.
    + intros j Hkj. rewrite Hj. bit_cases; done.
  - exists d. split; [done|]. rewrite Z.add_0_l, Z2Nat.id in HI by lia. done.
Qed.

Section shifts.
Context (dst : list Z) (src : operand) (shift bits : Z).
Hypothesis (Hd : wf_bits dst bits) (Hs : wf_operand src bits) (Hsh : 0 <= shift <= bits).

Let lim := NPD_BITS_TO_LONGS bits.
Let left := bits mod 32.
Let off := shift / 32.
Let rem := shift mod 32.

(** The source restricted to its first [bits] bits. *)
Let sbit i := (0 <=? i) && (i <? bits) && opbit dst src i.

(** A source word, masked when it is the last one. *)
Definition mword (k : Z) : Z :=
  if negb (left =? 0) && (k =? lim - 1)
  then Z.land (opword dst src k) (u32 (shl32 1 left - 1)) else opword dst src k.

Lemma left_mask_testbit j : left <> 0 -> 0 <= j -> Z.testbit (u32 (shl32 1 left - 1)) j = (j <? left).
Proof.
  intros Hl Hj. pose proof (last_mask_testbit bits j) as E. destruct Hd as [_ Hb].
  unfold NPD_BITARRAY_LAST_WORD_MASK, NPD_BITS_PER_LONG in E. fold left in E.
  destruct (Z.eqb_spec left 0); [done|]. apply E; lia.
Qed.

Lemma mword_bits k j : 0 <= k < lim -> 0 <= j < 32 -> Z.testbit (mword k) j = sbit (32 * k + j).
Proof.
  intros Hk Hj. unfold mword. pose proof (opword_testbit dst src (32 * k + j)) as E.
  replace ((32 * k + j) / 32) with k in E by dlia. replace ((32 * k + j) mod 32) with j in E by dlia.
  unfold sbit. rewrite <- E. unfold lim, left, NPD_BITS_TO_LONGS, NPD_BITS_PER_LONG in *.
  destruct (Z.leb_spec 0 (32 * k + j)); [|lia].
  destruct (Z.eqb_spec (bits mod 32) 0); simpl.
  - destruct (Z.ltb_spec (32 * k + j) bits); [done|dlia].
  - destruct (Z.eqb_spec k ((bits + 32 - 1) / 32 - 1)).
    + rewrite Z.land_spec, left_mask_testbit by (done || lia). rewrite andb_comm. f_equal.
      unfold left. destruct (Z.ltb_spec j (bits mod 32)), (Z.ltb_spec (32 * k + j) bits); dlia || done.
    + destruct (Z.ltb_spec (32 * k + j) bits); [done|dlia].
Qed.

Lemma rdop_ahead d k j :
  k <= j -> 0 <= j < lim -> (forall j, k <= j -> rd d j = rd dst j) ->
  rdop d src j = Some (opword dst src j) /\ u32_range (opword dst src j).
Proof. intros. apply (rdop_word dst d src bits j); auto. Qed.

Definition right_word (k : Z) : Z :=
  let up := if (rem =? 0) || (lim <=? off + k + 1) then 0 else mword (off + k + 1) in
  let v := Z.lor (shl32 up (32 - rem)) (Z.shiftr (mword (off + k)) rem) in
  if negb (left =? 0) && (k =? lim - 1) then Z.land v (u32 (shl32 1 left - 1)) else v.

Lemma shift_right_step_eq k d :
  0 <= k < lim - off -> (forall j, k <= j -> rd d j = rd dst j) ->
  shift_right_step src lim left off rem k d = wr d k (right_word k).
Proof.
  intros Hk Hr. assert (0 <= off) by (unfold off; dlia).
  unfold shift_right_step, right_word, mword, NPD_BITS_PER_LONG.
  destruct (rdop_ahead d k (off + k)) as [E0 _]; [lia|lia|done|].
  destruct (Z.eqb_spec rem 0); simpl; [by rewrite E0|].
  destruct (Z.leb_spec lim (off + k + 1)); simpl; [by rewrite E0|].
  destruct (rdop_ahead d k (off + k + 1)) as [E1 _]; [lia|lia|done|].
  rewrite E1. simpl. rewrite E0. simpl. by rewrite (andb_comm (off + k + 1 =? lim - 1)).
Qed.

Lemma mword_range k : 0 <= k < lim -> u32_range (mword k).
Proof.
  intros Hk. unfold mword. destruct (rdop_ahead dst k k) as [_ Hr]; [lia|done|done|].
  destruct (negb _ && _); auto using land_u32, u32_in_range.
Qed.

Lemma right_word_bits k j :
  0 <= k < lim - off -> 0 <= j < 32 -> Z.testbit (right_word k) j = sbit (32 * k + j + shift).
Proof.
  intros Hk Hj. assert (0 <= off) by (unfold off; dlia). assert (0 <= rem < 32) by (unfold rem; dlia).
  assert (shift = 32 * off + rem) as Es by (unfold off, rem; dlia).
  unfold right_word. set (up := if _ || _ then _ else _). set (v := Z.lor _ _).
  assert (Z.testbit v j = sbit (32 * k + j + shift)) as Hv.
  { unfold v. rewrite Z.lor_spec, shl32_testbit, Z.shiftr_spec by lia.
    destruct (Z.ltb_spec j 32); [|lia]. destruct (decide (j + rem < 32)).
    - rewrite (Z.testbit_neg_r up) by lia. rewrite andb_true_l, orb_false_l, mword_bits by lia. f_equal. lia.
    - rewrite (testbit_high 32 (mword (off + k))) by (try lia; apply mword_range; lia).
      rewrite orb_false_r, andb_true_l. unfold up.
      destruct (Z.eqb_spec rem 0); [lia|]. destruct (Z.leb_spec lim (off + k + 1)); simpl.
      + rewrite Z.bits_0. unfold sbit. destruct (Z.ltb_spec (32 * k + j + shift) bits); [|by rewrite andb_false_r].
        unfold lim, NPD_BITS_TO_LONGS, NPD_BITS_PER_LONG in *. dlia.
      + rewrite mword_bits by lia. f_equal. lia. }
  destruct (Z.eqb_spec left 0) as [El|El]; simpl; [done|].
  destruct (Z.eqb_spec k (lim - 1)); [|done].
  rewrite Z.land_spec, Hv, left_mask_testbit by (done || lia).
  destruct (Z.ltb_spec j left); [apply andb_true_r|]. rewrite andb_false_r. unfold sbit.
  destruct (Z.ltb_spec (32 * k + j + shift) bits); [|by rewrite andb_false_r].
  unfold lim, left, NPD_BITS_TO_LONGS, NPD_BITS_PER_LONG in *. dlia.
Qed.

Lemma shift_right_spec :
  exists d, __npd_bitarray_shift_right dst src shift bits = Some d /\ zlen d = zlen dst /\
    forall i, 0 <= i < bits -> bit_at d i = (i + shift <? bits) && opbit dst src (i + shift).
Proof.
  pose proof (longs_bound _ _ Hd) as Hn. fold lim in Hn.
  assert (0 <= off <= lim) as Ho.
  { unfold off, lim, NPD_BITS_TO_LONGS, NPD_BITS_PER_LONG. dlia. }
  destruct (for_words_ahead (lim - off) dst (shift_right_step src lim left off rem) right_word)
    as (d1 & E1 & Hl1 & H1); [lia|intros; apply shift_right_step_eq; (done || lia)|].
  unfold __npd_bitarray_shift_right, NPD_BITS_PER_LONG. fold lim left off rem. rewrite E1. simpl.
  destruct (zero_from off (lim - off) d1) as (d2 & E2 & Hl2 & H2); [lia..|].
  assert (forall d, (forall j, rd d j = if (lim - off <=? j) && (j <? lim) then Some 0 else rd d1 j) ->
    forall i, 0 <= i < bits -> bit_at d i = (i + shift <? bits) && opbit dst src (i + shift)) as Hb.
  { intros d Hrd i Hi. unfold bit_at. rewrite Hrd, H1.
    unfold lim, NPD_BITS_TO_LONGS, NPD_BITS_PER_LONG in *.
    destruct (Z.leb_spec ((bits + 32 - 1) / 32 - off) (i / 32)).
    - destruct (Z.ltb_spec (i / 32) ((bits + 32 - 1) / 32)); [|dlia]. simpl. rewrite Z.bits_0.
      destruct (Z.ltb_spec (i + shift) bits); [|done]. unfold off in *. dlia.
    - simpl. destruct (Z.leb_spec 0 (i / 32)); [|dlia].
      destruct (Z.ltb_spec (i / 32) ((bits + 32 - 1) / 32 - off)); [|dlia]. simpl.
      rewrite right_word_bits by (unfold lim, NPD_BITS_TO_LONGS, NPD_BITS_PER_LONG; dlia).
      replace (32 * (i / 32) + i mod 32 + shift) with (i + shift) by dlia. unfold sbit.
      by destruct (Z.leb_spec 0 (i + shift)); [|lia]. }
  destruct (Z.eqb_spec off 0) as [E0|E0].
  - exists d1. split; [done|]. split; [done|]. apply Hb. intros j. by bit_cases.
  - exists d2. split; [done|]. split; [lia|]. apply Hb. intros j. rewrite H2.
    by replace (lim - off + off) with lim by lia.
Qed.
Definition left_word (w : Z) : Z :=
  let k := w - off in
  let lower := if negb (rem =? 0) && (0 <? k) then opword dst src (k - 1) else 0 in
  let v := Z.lor (Z.shiftr lower (32 - rem)) (shl32 (mword k) rem) in
  if negb (left =? 0) && (w =? lim - 1) then Z.land v (u32 (shl32 1 left - 1)) else v.

Lemma shift_left_step_eq n d :
  0 <= n < lim - off -> (forall j, j <= lim - 1 - n -> rd d j = rd dst j) ->
  shift_left_step src lim left off rem (lim - off - 1 - n) d = wr d (lim - 1 - n) (left_word (lim - 1 - n)).
Proof.
  intros Hk Hr. assert (0 <= off) by (unfold off; dlia).
  assert (forall j, 0 <= j <= lim - 1 - n -> rdop d src j = Some (opword dst src j)) as Hrd.
  { intros j Hj. apply (rdop_word dst d src bits j); auto; [fold lim; lia|]. apply Hr. lia. }
  unfold shift_left_step, left_word, mword, NPD_BITS_PER_LONG.
  replace (lim - off - 1 - n + off) with (lim - 1 - n) by lia.
  replace (lim - 1 - n - off) with (lim - off - 1 - n) by lia.
  rewrite (Hrd (lim - off - 1 - n)) by lia. destruct (negb (rem =? 0)); [|done].
  destruct (Z.ltb_spec 0 (lim - off - 1 - n)); [|done]. simpl. by rewrite Hrd by lia.
Qed.

Lemma left_word_bits w j :
  off <= w < lim -> 0 <= j < 32 -> 32 * w + j < bits ->
  Z.testbit (left_word w) j = sbit (32 * w + j - shift).
Proof.
  intros Hk Hj Hb. assert (0 <= off) by (unfold off; dlia). assert (0 <= rem < 32) by (unfold rem; dlia).
  assert (shift = 32 * off + rem) as Es by (unfold off, rem; dlia).
  unfold left_word. set (lo := if negb (rem =? 0) && _ then _ else 0). set (v := Z.lor _ _).
  assert (Z.testbit v j = sbit (32 * w + j - shift)) as Hv.
  { unfold v. rewrite Z.lor_spec, shl32_testbit, Z.shiftr_spec by lia.
    destruct (Z.ltb_spec j 32); [|lia]. rewrite andb_true_l. destruct (decide (rem <= j)).
    - rewrite mword_bits by lia.
      assert (Z.testbit lo (j + (32 - rem)) = false) as ->.
      { unfold lo. destruct (negb (rem =? 0) && (0 <? w - off)) eqn:El; [|apply Z.bits_0].
        apply andb_true_iff in El as [_ ?%Z.ltb_lt].
        apply (testbit_high 32); [|lia]. by apply (rdop_ahead dst 0); [lia|lia|]. }
      rewrite orb_false_l. f_equal. lia.
    - rewrite (Z.testbit_neg_r (mword _)) by lia. rewrite orb_false_r. unfold lo.
      destruct (Z.eqb_spec rem 0); [lia|]. simpl. destruct (Z.ltb_spec 0 (w - off)).
      + pose proof (mword_bits (w - off - 1) (j + (32 - rem))) as Hm. unfold mword in Hm.
        destruct (Z.eqb_spec (w - off - 1) (lim - 1)); [lia|]. rewrite andb_false_r in Hm.
        rewrite Hm by lia. f_equal. lia.
      + rewrite Z.bits_0. unfold sbit. by destruct (Z.leb_spec 0 (32 * w + j - shift)); [lia|]. }
  destruct (Z.eqb_spec left 0) as [El|El]; simpl; [done|].
  destruct (Z.eqb_spec w (lim - 1)); [|done].
  rewrite Z.land_spec, Hv, left_mask_testbit by (done || lia).
  destruct (Z.ltb_spec j left); [apply andb_true_r|].
  unfold lim, left, NPD_BITS_TO_LONGS, NPD_BITS_PER_LONG in *. dlia.
Qed.

Lemma shift_left_spec :
  exists d, __npd_bitarray_shift_left dst src shift bits = Some d /\ zlen d = zlen dst /\
    forall i, 0 <= i < bits -> bit_at d i = (shift <=? i) && opbit dst src (i - shift).
Proof.
  pose proof (longs_bound _ _ Hd) as Hn. fold lim in Hn.
  assert (0 <= off <= lim) as Ho.
  { unfold off, lim, NPD_BITS_TO_LONGS, NPD_BITS_PER_LONG. dlia. }
  destruct (for_words_back (lim - off) (lim - 1) dst
    (fun n => shift_left_step src lim left off rem (lim - off - 1 - n)) left_word)
    as (d1 & E1 & Hl1 & H1); [lia|lia|intros; apply shift_left_step_eq; (done || lia)|].
  unfold __npd_bitarray_shift_left, NPD_BITS_PER_LONG. fold lim left off rem. rewrite E1. simpl.
  destruct (zero_from off 0 d1) as (d2 & E2 & Hl2 & H2); [lia..|].
  assert (forall d, (forall j, rd d j = if (0 <=? j) && (j <? off) then Some 0 else rd d1 j) ->
    forall i, 0 <= i < bits -> bit_at d i = (shift <=? i) && opbit dst src (i - shift)) as Hb.
  { intros d Hrd i Hi. unfold bit_at. rewrite Hrd, H1.
    destruct (Z.leb_spec 0 (i / 32)); [|dlia]. destruct (Z.ltb_spec (i / 32) off); simpl.
    - rewrite Z.bits_0. destruct (Z.leb_spec shift i); [|done]. unfold off in *. dlia.
    - destruct (Z.ltb_spec (lim - 1 - (lim - off)) (i / 32)); [|lia].
      assert (i / 32 <= lim - 1).
      { unfold lim, NPD_BITS_TO_LONGS, NPD_BITS_PER_LONG. dlia. }
      destruct (Z.leb_spec (i / 32) (lim - 1)); [|lia]. simpl.
      rewrite left_word_bits by (lia || dlia).
      replace (32 * (i / 32) + i mod 32 - shift) with (i - shift) by dlia. unfold sbit.
      destruct (Z.leb_spec 0 (i - shift)), (Z.leb_spec shift i); try lia.
      by destruct (Z.ltb_spec (i - shift) bits); [|lia]. }
  destruct (Z.eqb_spec off 0) as [E0|E0].
  - exists d1. split; [done|]. split; [done|]. apply Hb. intros j. rewrite E0. by bit_cases.
  - exists d2. split; [done|]. split; [lia|]. apply Hb. intros j. by rewrite H2.
Qed.
End shifts.

(** *** Complement and copy *)

Lemma land_all_ones w : u32_range w -> Z.land w (not32 0) = w.
Proof.
  intros Hw. change (not32 0) with (Z.ones 32). rewrite Z.land_ones by lia. by apply u32_small.
Qed.

Lemma complement_short dst src bits :
  0 < bits -> npd_bitarray_complement dst src bits = __npd_bitarray_complement dst src bits.
Proof.
  intros Hb. unfold npd_bitarray_complement, __npd_bitarray_complement, NPD_BITS_PER_LONG.
  destruct (Z.leb_spec bits 32); [|done]. destruct (decide (bits = 32)) as [->|].
  - change (Z.to_nat (32 / 32)) with 1%nat. change (32 mod 32 =? 0) with true. cbn [for_state].
    destruct (rdop dst src 0) as [x|]; [|done]. simpl.
    unfold NPD_BITARRAY_LAST_WORD_MASK, NPD_BITS_PER_LONG. change (32 mod 32 =? 0) with true. cbn iota.
    rewrite land_all_ones by apply not32_range. by destruct (wr dst 0 _).
  - rewrite (Z.div_small bits 32), (Z.mod_small bits 32) by lia.
    change (Z.to_nat 0) with 0%nat. cbn [for_state]. simpl. by destruct (Z.eqb_spec bits 0); [lia|].
Qed.

(** Replacing word [k] changes exactly the bits of that word. *)
Lemma bit_at_insert a k w i :
  0 <= k < zlen a ->
  bit_at (<[Z.to_nat k := w]> a) i = if i / 32 =? k then Z.testbit w (i mod 32) else bit_at a i.
Proof. intros Hk. unfold bit_at. rewrite rd_insert by done. by destruct (i / 32 =? k). Qed.

Lemma complement_spec dst src bits :
  0 < bits -> wf_bits dst bits -> wf_operand src bits ->
  exists d, npd_bitarray_complement dst src bits = Some d /\ wf_bits d bits /\
    forall i, 0 <= i < bits -> bit_at d i = negb (opbit dst src i).
Proof.
  intros Hb Hd Hs. rewrite complement_short by done. unfold __npd_bitarray_complement, NPD_BITS_PER_LONG.
  set (lim := bits / 32). pose proof (longs_bound _ _ Hd) as Hn.
  assert (lim <= NPD_BITS_TO_LONGS bits /\ 0 <= lim) as [Hle H0].
  { unfold lim, NPD_BITS_TO_LONGS, NPD_BITS_PER_LONG. dlia. }
  assert (forall j d, 0 <= j < NPD_BITS_TO_LONGS bits -> rd d j = rd dst j ->
    rdop d src j = Some (opword dst src j)) as Hrd by (intros; by apply (rdop_word dst d src bits j)).
  assert (forall i, Z.testbit (not32 (opword dst src (i / 32))) (i mod 32) = negb (opbit dst src i)) as Ht.
  { intros i. pose proof (bit_mod_range i). rewrite not32_testbit, opword_testbit by lia. by bit_cases. }
  destruct (for_words lim dst (fun k d => x ← rdop d src k; wr d k (not32 x))
    (fun k => not32 (opword dst src k))) as (d & E & Hl & Hj);
    [lia|intros k d Hk _ ?; by rewrite Hrd by (done || lia)|].
  destruct (words_to_bits dst d lim (fun k => not32 (opword dst src k)) (fun i => negb (opbit dst src i)))
    as [Hf Hi]; try done; [apply Hd|lia|intros; apply not32_range|].
  rewrite E. simpl. destruct (Z.eqb_spec (bits mod 32) 0) as [E0|E0].
  - exists d. split; [done|]. split; [split; [done|rewrite Hl; apply Hd]|]. intros i Hib. rewrite Hi.
    by destruct (Z.leb_spec 0 i), (Z.ltb_spec i (32 * lim)); try (unfold lim in *; dlia).
  - assert (lim < NPD_BITS_TO_LONGS bits) by (unfold lim, NPD_BITS_TO_LONGS, NPD_BITS_PER_LONG; dlia).
    rewrite Hrd by (lia || (rewrite Hj; by bit_cases)). simpl. rewrite wr_Some by lia.
    eexists. split; [done|]. split.
    { split; [|rewrite zlen_insert, Hl; apply Hd]. apply Forall_insert; [done|].
      apply land_u32; [apply not32_range|apply last_mask_range]. }
    intros i Hib. rewrite bit_at_insert by lia. destruct (Z.eqb_spec (i / 32) lim) as [El|].
    + rewrite <- El, Z.land_spec, Ht, last_mask_testbit by dlia.
      rewrite (proj2 (Z.eqb_neq _ _) E0). destruct (Z.ltb_spec (i mod 32) (bits mod 32)); [btauto|unfold lim in *; dlia].
    + rewrite Hi. by destruct (Z.leb_spec 0 i), (Z.ltb_spec i (32 * lim)); try (unfold lim in *; dlia).
Qed.

Lemma copy_words (dst src : list Z) n :
  0 <= n -> n <= zlen dst -> n <= zlen src ->
  exists d, for_state (Z.to_nat n) 0 (fun k d => x ← rd src k; wr d k x) dst = Some d /\
    zlen d = zlen dst /\
    forall j, rd d j = if (0 <=? j) && (j <? n) then rd src j else rd dst j.
Proof.
  intros. destruct (for_words n dst (fun k d => x ← rd src k; wr d k x) (word src)) as (d & E & Hl & Hj);
    [lia| |].
  { intros k d Hk _ _. unfold word. by destruct (rd_lt_Some src k) as [w ->]; [lia|]. }
  exists d. split; [done|]. split; [done|]. intros j. rewrite Hj.
  destruct (Z.leb_spec 0 j), (Z.ltb_spec j n); try done. simpl.
  unfold word. by destruct (rd_lt_Some src j) as [w ->]; [lia|].
Qed.

Lemma copy_spec dst src bits :
  0 < bits -> wf_bits dst bits -> wf_bits src bits ->
  exists d, npd_bitarray_copy dst src bits = Some d /\ zlen d = zlen dst /\
    forall i, 0 <= i < bits -> bit_at d i = bit_at src i.
Proof.
  intros Hb Hd Hs. pose proof (longs_bound _ _ Hd). pose proof (longs_bound _ _ Hs).
  destruct (copy_words dst src (NPD_BITS_TO_LONGS bits)) as (d & E & Hl & Hj); [lia..|].
  exists d. split; [|split; [done|]].
  - unfold npd_bitarray_copy. rewrite <- E. unfold NPD_BITS_TO_LONGS, NPD_BITS_PER_LONG.
    destruct (Z.leb_spec bits 32); [|done]. replace (Z.to_nat ((bits + 32 - 1) / 32)) with 1%nat by dlia.
    cbn [for_state]. destruct (rd src 0); [|done]. simpl. by destruct (wr dst 0 _).
  - intros i Hi. unfold bit_at. rewrite Hj. unfold NPD_BITS_TO_LONGS, NPD_BITS_PER_LONG.
    by destruct (Z.leb_spec 0 (i / 32)), (Z.ltb_spec (i / 32) ((bits + 32 - 1) / 32)); try dlia.
Qed.

(** Two arrays with the same words at every index are equal. *)
Lemma rd_ext (a b : list Z) : (forall j, rd a j = rd b j) -> a = b.
Proof.
  intros H. apply list_eq. intros i. specialize (H (Z.of_nat i)). unfold rd in H.
  destruct (Z.leb_spec 0 (Z.of_nat i)); [|lia]. by rewrite Nat2Z.id in H.
Qed.

Lemma htonl_involutive le x : u32_range x -> ntohl le (htonl le x) = x.
Proof. intros. destruct le; [by apply bswap32_involutive|done]. Qed.

Lemma hton_ntoh le buf bits :
  wf_bits buf bits ->
  exists d, npd_bitarray_hton le buf bits = Some d /\ npd_bitarray_ntoh le d bits = Some buf.
Proof.
  intros Hb. destruct (hton_words le buf bits Hb) as (d & E & Hl & Hf & Hj).
  assert (wf_bits d bits) as Hd by (split; [done|rewrite Hl; apply Hb]).
  exists d. split; [done|]. change npd_bitarray_ntoh with npd_bitarray_hton.
  destruct (hton_words le d bits Hd) as (e & -> & _ & _ & Hk). f_equal. apply rd_ext.
  intros j. rewrite Hk. unfold word. rewrite Hj.
  destruct ((0 <=? j) && (j <? NPD_BITS_TO_LONGS bits)) eqn:Er; [|done]. simpl.
  apply andb_true_iff in Er as [?%Z.leb_le ?%Z.ltb_lt].
  destruct (word_rd buf bits j Hb) as [-> Hr]; [lia|]. f_equal. apply (htonl_involutive le). done.
Qed.

(** ** Main results *)

(** C35: the four word-wise operations compute the Boolean operation on every
    one of the first [nbits] bits, for every combination of sources that alias
    the destination (as the [NPD_PBMP_AND] family of macros uses them), on the
    one-word path and on the loop, without reading or writing out of bounds. *)
Theorem bitarray_algebra dst s1 s2 nbits :
  0 < nbits -> wf_bits dst nbits -> wf_operand s1 nbits -> wf_operand s2 nbits ->
  (exists d, npd_bitarray_and dst s1 s2 nbits = Some d /\ wf_bits d nbits /\
     forall i, 0 <= i < nbits -> bit_at d i = opbit dst s1 i && opbit dst s2 i) /\
  (exists d, npd_bitarray_or dst s1 s2 nbits = Some d /\ wf_bits d nbits /\
     forall i, 0 <= i < nbits -> bit_at d i = opbit dst s1 i || opbit dst s2 i) /\
  (exists d, npd_bitarray_xor dst s1 s2 nbits = Some d /\ wf_bits d nbits /\
     forall i, 0 <= i < nbits -> bit_at d i = xorb (opbit dst s1 i) (opbit dst s2 i)) /\
  (exists d, npd_bitarray_andnot dst s1 s2 nbits = Some d /\ wf_bits d nbits /\
     forall i, 0 <= i < nbits -> bit_at d i = opbit dst s1 i && negb (opbit dst s2 i)).
Proof.
  intros Hb Hd H1 H2.
  split; [|split; [|split]].
  - apply (wrapper_op_spec _ Z.land andb); auto using Z.land_spec with ranges.
  - apply (wrapper_op_spec _ Z.lor orb); auto using Z.lor_spec with ranges.
  - apply (wrapper_op_spec _ Z.lxor xorb); auto using Z.lxor_spec with ranges.
  - apply (wrapper_op_spec _ (fun x y => Z.land x (not32 y)) (fun x y => x && negb y));
      auto using andnot_testbit with ranges.
Qed.

Lemma bitarray_algebra_witness :
  exists d, npd_bitarray_andnot [0x0f; 0xff] Dst (Src [0x5; 0x1f]) 40 = Some d /\
    bit_at d 1 = true /\ bit_at d 36 = false.
Proof.
  assert (wf_bits [0x0f; 0xff] 40) as H1
    by (split; [by repeat constructor|vm_compute; split; congruence]).
  assert (wf_operand (Src [0x5; 0x1f]) 40) as H2
    by (split; [by repeat constructor|vm_compute; split; congruence]).
  destruct (bitarray_algebra [0x0f; 0xff] Dst (Src [0x5; 0x1f]) 40) as (_ & _ & _ & d & E & _ & Hi);
    [lia|done|done|done|].
  exists d. split; [done|]. rewrite !Hi by lia. split; reflexivity.
Defined.

(** The five whole-array predicates return 1 or 0 and decide emptiness,
    fullness, equality, inclusion and intersection of the sets of member bits
    below [nbits]; the bits of the last word past [nbits] do not matter. *)
Theorem bitarray_predicates a b nbits :
  0 < nbits -> wf_bits a nbits -> wf_bits b nbits ->
  decides (npd_bitarray_empty a nbits) (forall i, 0 <= i < nbits -> bit_at a i = false) /\
  decides (npd_bitarray_full a nbits) (forall i, 0 <= i < nbits -> bit_at a i = true) /\
  decides (npd_bitarray_equal a b nbits) (forall i, 0 <= i < nbits -> bit_at a i = bit_at b i) /\
  decides (npd_bitarray_subset a b nbits)
    (forall i, 0 <= i < nbits -> bit_at a i = true -> bit_at b i = true) /\
  decides (npd_bitarray_intersects a b nbits)
    (exists i, 0 <= i < nbits /\ bit_at a i = true /\ bit_at b i = true).
Proof.
  intros Hb Ha Hb'. repeat split.
  - by apply (npd_bitarray_empty_spec a b).
  - by apply (npd_bitarray_full_spec a b).
  - by apply npd_bitarray_equal_spec.
  - by apply npd_bitarray_subset_spec.
  - by apply npd_bitarray_intersects_spec.
Qed.

Lemma bitarray_predicates_witness :
  npd_bitarray_subset [0x5; 0xf0] [0xf; 0x10] 36 = Some 1 /\
  decides (npd_bitarray_subset [0x5; 0xf0] [0xf; 0x10] 36)
    (forall i, 0 <= i < 36 -> bit_at [0x5; 0xf0] i = true -> bit_at [0xf; 0x10] i = true).
Proof.
  split; [reflexivity|].
  apply (bitarray_predicates [0x5; 0xf0] [0xf; 0x10] 36); [lia|split|split];
    (by repeat constructor) || (vm_compute; split; congruence).
Defined.

(** Setting, clearing and flipping bit [nr] changes bit [nr] and no other
    one, and testing it returns its value: what is written is what is read. *)
Theorem bitarray_bit_ops a nbits nr :
  wf_bits a nbits -> 0 <= nr < nbits ->
  npd_bitarray_test_bit a nr = Some (if bit_at a nr then 1 else 0) /\
  (exists a', npd_bitarray_set_bit a nr = Some a' /\ wf_bits a' nbits /\
     npd_bitarray_test_bit a' nr = Some 1 /\ forall i, i <> nr -> bit_at a' i = bit_at a i) /\
  (exists a', npd_bitarray_clear_bit a nr = Some a' /\ wf_bits a' nbits /\
     npd_bitarray_test_bit a' nr = Some 0 /\ forall i, i <> nr -> bit_at a' i = bit_at a i) /\
  (exists a', npd_bitarray_change_bit a nr = Some a' /\ wf_bits a' nbits /\
     npd_bitarray_test_bit a' nr = Some (if bit_at a nr then 0 else 1) /\
     forall i, i <> nr -> bit_at a' i = bit_at a i).
Proof.
  intros Ha Hn. split; [by apply (test_bit_spec a nbits)|].
  destruct (set_bit_spec a nbits nr Ha Hn) as (s & Es & Hs & Bs).
  destruct (clear_bit_spec a nbits nr Ha Hn) as (c & Ec & Hc & Bc).
  destruct (change_bit_spec a nbits nr Ha Hn) as (x & Ex & Hx & Bx).
  split; [exists s|split; [exists c|exists x]];
    (split; [done|split; [done|split]]);
    try (rewrite (test_bit_spec _ nbits) by done; rewrite ?Bs, ?Bc, ?Bx, Z.eqb_refl; by destruct (bit_at a nr));
    intros i Hi; rewrite ?Bs, ?Bc, ?Bx, (proj2 (Z.eqb_neq _ _) Hi); by destruct (bit_at a i).
Qed.

Lemma bitarray_bit_ops_witness :
  exists a', npd_bitarray_set_bit [0; 0] 33 = Some a' /\ npd_bitarray_test_bit a' 33 = Some 1.
Proof.
  destruct (bitarray_bit_ops [0; 0] 64 33) as (_ & (a' & E & _ & T & _) & _);
    [split; [by repeat constructor|vm_compute; split; congruence]|lia|]. by exists a'.
Defined.

(** [npd_find_next_bit] and [npd_find_next_zero_bit] terminate within the
    array and return the first set (clear) bit at or after [offset], or the
    size when there is none, for every word alignment of size and offset. *)
Theorem find_next_bits a size offset :
  wf_bits a size -> size < 2 ^ 32 -> 0 <= offset <= size ->
  (exists r, npd_find_next_bit a size offset = Some r /\ first_from (bit_at a) offset size r) /\
  (exists r, npd_find_next_zero_bit a size offset = Some r /\
     first_from (fun i => negb (bit_at a i)) offset size r).
Proof.
  intros Ha Hm Ho. split; [by apply find_next_bit_total|].
  rewrite find_next_zero_bit_as by (done || lia).
  destruct (find_next_bit_total (not32 <$> a) size offset) as (r & -> & Hr);
    [by apply wf_complement|done|done|].
  exists r. split; [done|]. apply (first_from_ext (bit_at (not32 <$> a))); [|done].
  intros i Hi. apply bit_at_complement. destruct Ha. lia.
Qed.

Lemma find_next_bits_witness :
  exists r, npd_find_next_bit [0x3; 0x100] 60 2 = Some r /\ first_from (bit_at [0x3; 0x100]) 2 60 r.
Proof.
  apply (find_next_bits [0x3; 0x100] 60 2);
    [split; [by repeat constructor|vm_compute; split; congruence]|lia|lia].
Defined.

(** C36: [npd_for_each_bit] (the [NPD_PBMP_ITER] and [NPD_VBMP_ITER] loops)
    terminates and visits exactly the member bits, each once, in ascending
    order. *)
Theorem for_each_bit_exact a size :
  wf_bits a size -> size < 2 ^ 32 ->
  exists l, npd_for_each_bit a size = Some l /\
    (forall i, i ∈ l <-> 0 <= i < size /\ bit_at a i = true) /\ StronglySorted Z.lt l.
Proof.
  intros Ha Hm. exists (members (bit_at a) 0 size). split; [by apply for_each_bit_spec|]. split.
  - intros i. unfold members. rewrite list_elem_of_filter, elem_of_seqZ.
    split; intros [? ?]; split; (done || lia).
  - apply members_sorted.
Qed.

Lemma for_each_bit_exact_witness :
  exists l, npd_for_each_bit [0x80000001; 0x4] 64 = Some l /\ (34 ∈ l <-> 0 <= 34 < 64 /\ bit_at [0x80000001; 0x4] 34 = true).
Proof.
  destruct (for_each_bit_exact [0x80000001; 0x4] 64) as (l & E & H & _);
    [split; [by repeat constructor|vm_compute; split; congruence]|lia|]. eauto.
Defined.

(** [npd_bitarray_pos_to_ord] and [npd_bitarray_ord_to_pos] are rank and
    select: the ordinal of a member is the number of members below it, a
    non-member has ordinal -1, and selecting the ordinal of a member gives
    the member back. *)
Theorem rank_select_roundtrip a size pos :
  wf_bits a size -> size < 2 ^ 32 -> 0 <= pos < size ->
  if bit_at a pos then
    exists ord, npd_bitarray_pos_to_ord a pos size = Some ord /\
      ord = count_bits (bit_at a) 0 (Z.to_nat pos) /\
      npd_bitarray_ord_to_pos a ord size = Some pos
  else npd_bitarray_pos_to_ord a pos size = Some (-1).
Proof.
  intros Ha Hm Hp. rewrite pos_to_ord_spec by done.
  destruct (Z.leb_spec 0 pos), (Z.ltb_spec pos size); try lia. simpl.
  destruct (bit_at a pos) eqn:E; [|done]. eexists. split; [done|]. split.
  - rewrite <- members_length. do 3 f_equal. lia.
  - rewrite ord_to_pos_spec by done. destruct (Z.leb_spec 0 (Z.of_nat (length (members (bit_at a) 0 pos)))); [|lia].
    by rewrite Nat2Z.id, select_rank.
Qed.

Lemma rank_select_roundtrip_witness :
  exists ord, npd_bitarray_pos_to_ord [0x91; 0x3] 33 64 = Some ord /\
    npd_bitarray_ord_to_pos [0x91; 0x3] ord 64 = Some 33.
Proof.
  destruct (rank_select_roundtrip [0x91; 0x3] 64 33) as (ord & E & _ & F);
    [split; [by repeat constructor|vm_compute; split; congruence]|lia|lia|]. eauto.
Defined.

(** C37: [npd_bitarray_weight] (with the parallel bit count of
    [npd_hweight32]) is the number of member bits below [nbits]. *)
Theorem bitarray_weight_count a nbits :
  0 < nbits -> wf_bits a nbits ->
  npd_bitarray_weight a nbits = Some (count_bits (bit_at a) 0 (Z.to_nat nbits)).
Proof. apply weight_spec. Qed.

Lemma bitarray_weight_count_witness :
  npd_bitarray_weight [0xffffffff; 0xf0f0] 48 = Some 40 /\
  npd_bitarray_weight [0xffffffff; 0xf0f0] 48 =
    Some (count_bits (bit_at [0xffffffff; 0xf0f0]) 0 (Z.to_nat 48)).
Proof.
  split; [reflexivity|]. apply bitarray_weight_count; [lia|].
  split; [by repeat constructor|vm_compute; split; congruence].
Defined.

(** The word loops of the shifts move every bit by [shift] positions,
    feeding zeros, also in place ([dst] the same array as [src]); no bit past
    [bits] enters and none is lost inside. *)
Theorem bitarray_shifts dst src shift bits :
  wf_bits dst bits -> wf_operand src bits -> 0 <= shift <= bits ->
  (exists d, __npd_bitarray_shift_right dst src shift bits = Some d /\
     forall i, 0 <= i < bits -> bit_at d i = (i + shift <? bits) && opbit dst src (i + shift)) /\
  (exists d, __npd_bitarray_shift_left dst src shift bits = Some d /\
     forall i, 0 <= i < bits -> bit_at d i = (shift <=? i) && opbit dst src (i - shift)).
Proof.
  intros Hd Hs Hsh.
  destruct (shift_right_spec dst src shift bits Hd Hs Hsh) as (d1 & ? & _ & ?).
  destruct (shift_left_spec dst src shift bits Hd Hs Hsh) as (d2 & ? & _ & ?). eauto 6.
Qed.

Lemma bitarray_shifts_witness :
  exists d, __npd_bitarray_shift_right [0x80000000; 0x3; 0x7] Dst 33 70 = Some d /\ bit_at d 0 = true.
Proof.
  destruct (bitarray_shifts [0x80000000; 0x3; 0x7] Dst 33 70) as ((d & E & H) & _);
    [split; [by repeat constructor|vm_compute; split; congruence]|done|lia|].
  exists d. split; [done|]. rewrite H by lia. reflexivity.
Defined.

(** converting a bitmap to network order and back restores it on either
    byte order of the boards. *)
Theorem bitarray_hton_roundtrip little_endian buf nbits :
  wf_bits buf nbits ->
  exists d, npd_bitarray_hton little_endian buf nbits = Some d /\
    npd_bitarray_ntoh little_endian d nbits = Some buf.
Proof. apply hton_ntoh. Qed.

Lemma bitarray_hton_roundtrip_witness :
  exists d, npd_bitarray_hton true [0x12345678] 32 = Some d /\ npd_bitarray_ntoh true d 32 = Some [0x12345678].
Proof.
  apply bitarray_hton_roundtrip. split; [by repeat constructor|vm_compute; split; congruence].
Defined.

(** [NPD_PBMP_PORT_SET] and [NPD_VBMP_VLAN_SET] pass a number of bytes to
    [npd_bitarray_zero], which takes bits: the result is the new bit together
    with every old member past the first [sizeof] bits rounded up to words,
    not the singleton the name promises. *)
Theorem bit_set_keeps_stale bm nbit :
  Forall u32_range bm -> 0 <= nbit < 32 * zlen bm ->
  exists d, _NPD_SHR_BMP_BIT_SET bm nbit = Some d /\
    forall i, bit_at d i =
      (i =? nbit) || ((32 * NPD_BITS_TO_LONGS (4 * zlen bm) <=? i) && bit_at bm i).
Proof.
  intros Hf Hn. unfold _NPD_SHR_BMP_BIT_SET.
  assert (wf_bits bm (zlen bm * 4)) as Hw by (split; [done|lia]).
  destruct (zero_spec bm (zlen bm * 4)) as (d & -> & [Hd _] & Hl & Hz); [lia|done|]. simpl.
  destruct (set_bit_spec d (32 * zlen bm) nbit) as (d' & -> & _ & Hb); [split; [done|lia]|lia|].
  exists d'. split; [done|]. intros i. rewrite Hb, Hz, (Z.mul_comm (zlen bm)). f_equal.
  destruct (Z.leb_spec 0 i).
  - destruct (Z.ltb_spec i (32 * NPD_BITS_TO_LONGS (4 * zlen bm))),
      (Z.leb_spec (32 * NPD_BITS_TO_LONGS (4 * zlen bm)) i); done || lia.
  - unfold bit_at. assert (i / 32 < 0) by dlia.
    unfold rd. destruct (Z.leb_spec 0 (i / 32)); [lia|]. simpl. btauto.
Qed.

Lemma bit_set_keeps_stale_witness :
  exists d, _NPD_SHR_BMP_BIT_SET [1; 0; 4] 3 = Some d /\ bit_at d 66 = true /\ bit_at d 0 = false.
Proof.
  destruct (bit_set_keeps_stale [1; 0; 4] 3) as (d & E & H);
    [by repeat constructor|vm_compute; split; congruence|].
  exists d. split; [done|]. rewrite !H. split; reflexivity.
Defined.
