(* ===== verification/Cstring.v ===== *)
(** * C strings and number formats

    What the sources use of the C library on text: the conversions of
    [sprintf] ([%d], [%.nd], [%x]), [isdigit], [strtoul] in base 10 and
    [atoi].  A string is the list of its characters without the terminating
    zero. *)

From Stdlib Require Import ZArith Lia Bool Ascii String.
From stdpp Require Import base decidable list.
From S2P Require Import Prelude.

Open Scope Z_scope.

Definition cstr : Type := list ascii.

Definition lit (s : string) : cstr := list_ascii_of_string s.

Definition code (c : ascii) : Z := Z.of_N (N_of_ascii c).
Definition chr (n : Z) : ascii := ascii_of_N (Z.to_N n).

Definition isdigit (c : ascii) : bool := (48 <=? code c) && (code c <=? 57).
Definition digit_val (c : ascii) : Z := code c - 48.
Definition digit (d : Z) : ascii := chr (48 + d).

(** Decimal digits, least significant first; ten of them cover 32 bits. *)
Fixpoint dec_rev (fuel : nat) (n : Z) : cstr :=
  match fuel with
  | O => []
  | S fuel => digit (n mod 10) :: (if n / 10 =? 0 then [] else dec_rev fuel (n / 10))
  end.

Definition dec (n : Z) : cstr := reverse (dec_rev 10 n).

(** [%d] of an [int], [%.pd], [%x]. *)
Definition fmt_d (n : Z) : cstr := if n <? 0 then lit "-" ++ dec (- n) else dec n.
Definition fmt_prec (p : nat) (n : Z) : cstr :=
  let s := dec n in replicate (p - length s) (digit 0) ++ s.

Definition hex_digit (d : Z) : ascii := if d <? 10 then digit d else chr (97 + (d - 10)).
Fixpoint hex_rev (fuel : nat) (n : Z) : cstr :=
  match fuel with
  | O => []
  | S fuel => hex_digit (n mod 16) :: (if n / 16 =? 0 then [] else hex_rev fuel (n / 16))
  end.
Definition fmt_x (n : Z) : cstr := reverse (hex_rev 8 n).

(** Value of a run of digits; [strtoul] saturates at [ULONG_MAX]. *)
Definition digits_val (s : cstr) : Z := foldl (fun a c => 10 * a + digit_val c) 0 s.

Fixpoint take_digits (s : cstr) : cstr :=
  match s with
  | [] => []
  | c :: s => if isdigit c then c :: take_digits s else []
  end.

Definition strtoul10 (s : cstr) : Z := Z.min (digits_val (take_digits s)) (2 ^ 32 - 1).

Fixpoint skip_space (s : cstr) : cstr :=
  match s with
  | [] => []
  | c :: s' => if (code c =? 32) || ((9 <=? code c) && (code c <=? 13)) then skip_space s' else s
  end.

Definition atoi (s : cstr) : Z :=
  match skip_space s with
  | c :: s' =>
      if code c =? 45 then s32 (- digits_val (take_digits s'))
      else if code c =? 43 then s32 (digits_val (take_digits s'))
      else s32 (digits_val (take_digits (c :: s')))
  | [] => 0
  end.

(** What follows the first occurrence of [c]: [strchr(s, c) + 1]. *)
Fixpoint after_char (c : ascii) (s : cstr) : option cstr :=
  match s with
  | [] => None
  | d :: s => if Ascii.eqb d c then Some s else after_char c s
  end.

(** ** Lemmas *)

Lemma code_chr n : 0 <= n < 256 -> code (chr n) = n.
Proof. intros Hn. unfold code, chr. rewrite N_ascii_embedding by lia. lia. Qed.

Lemma digit_is_digit d : 0 <= d < 10 -> isdigit (digit d) = true.
Proof.
  intros Hd. unfold isdigit, digit. rewrite code_chr by lia.
  apply andb_true_iff. split; apply Z.leb_le; lia.
Qed.

Lemma digit_val_digit d : 0 <= d < 10 -> digit_val (digit d) = d.
Proof. intros Hd. unfold digit_val, digit. rewrite code_chr by lia. lia. Qed.

Definition all_digits (s : cstr) : Prop := Forall (fun c => isdigit c = true) s.

Lemma dec_rev_digits fuel n : all_digits (dec_rev fuel n).
Proof.
  revert n. induction fuel as [|fuel IH]; intros n; simpl; [constructor|].
  constructor; [apply digit_is_digit; dlia|]. destruct (n / 10 =? 0); [constructor|apply IH].
Qed.

Lemma dec_digits n : all_digits (dec n).
Proof. apply Forall_reverse, dec_rev_digits. Qed.

Lemma dec_nonempty n : dec n <> [].
Proof.
  unfold dec. intros H. apply (f_equal length) in H. rewrite length_reverse in H. done.
Qed.

Lemma dec_length n k :
  (1 <= k)%nat -> 0 <= n < 10 ^ Z.of_nat k -> (length (dec n) <= k)%nat.
Proof.
  unfold dec. rewrite length_reverse. generalize 10%nat as fuel. intros fuel. revert n k.
  induction fuel as [|fuel IH]; intros n k Hk Hn; simpl; [lia|].
  destruct (Z.eqb_spec (n / 10) 0); simpl; [lia|].
  destruct k as [|k]; [lia|]. destruct (decide (k = 0)%nat) as [->|].
  { simpl in Hn. change (10 ^ 1) with 10 in Hn. dlia. }
  apply le_n_S, IH; [lia|]. rewrite Nat2Z.inj_succ, Z.pow_succ_r in Hn by lia.
  set (m := 10 ^ Z.of_nat k) in *. dlia.
Qed.

Lemma digits_val_dec_rev fuel n :
  0 <= n < 10 ^ Z.of_nat fuel ->
  foldr (fun c a => 10 * a + digit_val c) 0 (dec_rev fuel n) = n.
Proof.
  revert n. induction fuel as [|fuel IH]; intros n Hn; simpl; [simpl in Hn; change (10 ^ 0) with 1 in Hn; lia|].
  rewrite digit_val_digit by dlia. destruct (Z.eqb_spec (n / 10) 0); simpl; [dlia|].
  rewrite IH; [dlia|]. rewrite Nat2Z.inj_succ, Z.pow_succ_r in Hn by lia.
  set (m := 10 ^ Z.of_nat fuel) in *. dlia.
Qed.

(** Printing a number and reading it back. *)
Lemma digits_val_dec n : 0 <= n < 10 ^ 10 -> digits_val (dec n) = n.
Proof.
  intros Hn. unfold digits_val, dec. rewrite <- (digits_val_dec_rev 10 n) at 2 by done.
  generalize (dec_rev 10 n) as l. induction l as [|c l IH]; [done|].
  rewrite reverse_cons, foldl_app. simpl. by rewrite IH.
Qed.

Lemma take_digits_all s : all_digits s -> take_digits s = s.
Proof. induction 1 as [|c s Hc _ IH]; simpl; [done|]. by rewrite Hc, IH. Qed.

Lemma strtoul_dec n : 0 <= n < 2 ^ 32 -> strtoul10 (dec n) = n.
Proof.
  intros Hn. unfold strtoul10. rewrite take_digits_all by apply dec_digits.
  rewrite digits_val_dec by lia. lia.
Qed.

Lemma dec_inj n m : 0 <= n < 10 ^ 10 -> 0 <= m < 10 ^ 10 -> dec n = dec m -> n = m.
Proof. intros Hn Hm E. by rewrite <- (digits_val_dec n), E, digits_val_dec. Qed.

(** A run of digits ends where a separator starts. *)
Lemma digits_sep_inj s1 s2 c d t1 t2 :
  all_digits s1 -> all_digits s2 -> isdigit c = false -> isdigit d = false ->
  s1 ++ c :: t1 = s2 ++ d :: t2 -> s1 = s2 /\ c = d /\ t1 = t2.
Proof.
  intros H1. revert s2. induction H1 as [|x s1 Hx H1 IH]; intros s2 H2 Hc Hd E.
  - destruct H2 as [|y s2 Hy H2]; [by injection E|]. injection E as -> _. congruence.
  - destruct H2 as [|y s2 Hy H2]; [injection E as -> _; congruence|]. injection E as -> E.
    destruct (IH s2 H2 Hc Hd E) as (-> & -> & ->). done.
Qed.

Lemma digits_no_sep s1 c t1 s2 :
  all_digits s2 -> isdigit c = false -> s1 ++ c :: t1 = s2 -> False.
Proof.
  intros H2 Hc E. subst s2. apply Forall_app in H2 as [_ H2]. apply Forall_cons in H2 as [? _]. congruence.
Qed.
