(* ===== verification/NetifIndex.v ===== *)
(** * Interface indexes

    Model of [src/src/npdsuit/lib/src/netif_index.c] and
    [src/src/include/lib/netif_index.h]: the 32-bit index that names every
    Ethernet port, VLAN, trunk, tunnel, stack port and radio, its conversion
    to a dense array index (the bit number of the port in a [npd_pbmp]
    bitmap), to names, and the port groups of the TCAM users.

    [NPD_NETIF_INDEX_U] is a union of bit-field structs over one 32-bit word.
    The big- and little-endian declarations put every field used by the code
    at the same bits of the word, so a union is its [Z] value with field reads
    and writes. *)

From Stdlib Require Import ZArith Lia Bool Ascii String.
From stdpp Require Import base decidable list.
From S2P Require Import Prelude.
From S2P Require Import Cstring.

Open Scope Z_scope.

(** ** Build configurations *)

(** The constants of one branch of the configuration macros. *)
Record board := {
  MAX_CHASSIS_COUNT : Z;
  MAX_CHASSIS_SLOT_COUNT : Z;
  MAX_SLOT_SUBBOARD_COUNT : Z;
  MAX_ETHPORT_PER_BOARD : Z;
  MAX_SUBPORT_PER_ETHPORT : Z;
  SUBBOARD_START_PORT : Z;
  MAX_ETHPORT_PER_SUBBOARD : Z;
  MAX_ETHPORT_PER_SYSTEM : Z;
  MAX_SWITCHPORT_PER_SYSTEM : Z;
  TRUNK_BITMAP_START_PORT : Z;
  WIFI_BITMAP_START_PORT : Z;
  TUNNEL_BITMAP_START_PORT : Z
}.

(** [HAVE_MEMORY_SHORT], [HAVE_CHASSIS_SUPPORT], [HAVE_MULTI_CHASSIS_SUPPORT]
    and none of them. *)
Definition memory_short : board := {|
  MAX_CHASSIS_COUNT := 1; MAX_CHASSIS_SLOT_COUNT := 1; MAX_SLOT_SUBBOARD_COUNT := 1;
  MAX_ETHPORT_PER_BOARD := 64; MAX_SUBPORT_PER_ETHPORT := 1; SUBBOARD_START_PORT := 52;
  MAX_ETHPORT_PER_SUBBOARD := 4; MAX_ETHPORT_PER_SYSTEM := 64; MAX_SWITCHPORT_PER_SYSTEM := 72;
  TRUNK_BITMAP_START_PORT := 64; WIFI_BITMAP_START_PORT := 64 + 8;
  TUNNEL_BITMAP_START_PORT := 64 + 8 + 0 |}.

Definition chassis_support : board := {|
  MAX_CHASSIS_COUNT := 1; MAX_CHASSIS_SLOT_COUNT := 16; MAX_SLOT_SUBBOARD_COUNT := 5;
  MAX_ETHPORT_PER_BOARD := 64; MAX_SUBPORT_PER_ETHPORT := 1; SUBBOARD_START_PORT := 52;
  MAX_ETHPORT_PER_SUBBOARD := 4; MAX_ETHPORT_PER_SYSTEM := 1024; MAX_SWITCHPORT_PER_SYSTEM := 2048;
  TRUNK_BITMAP_START_PORT := 1024; WIFI_BITMAP_START_PORT := 1024 + 127 + 1;
  TUNNEL_BITMAP_START_PORT := 1024 + 127 + 512 + 1 |}.

Definition multi_chassis_support : board := {|
  MAX_CHASSIS_COUNT := 4; MAX_CHASSIS_SLOT_COUNT := 16; MAX_SLOT_SUBBOARD_COUNT := 5;
  MAX_ETHPORT_PER_BOARD := 64; MAX_SUBPORT_PER_ETHPORT := 1; SUBBOARD_START_PORT := 52;
  MAX_ETHPORT_PER_SUBBOARD := 4; MAX_ETHPORT_PER_SYSTEM := 4096; MAX_SWITCHPORT_PER_SYSTEM := 5120;
  TRUNK_BITMAP_START_PORT := 4096; WIFI_BITMAP_START_PORT := 4096 + 127 + 1;
  TUNNEL_BITMAP_START_PORT := 4096 + 127 + 512 + 1 |}.

Definition default_board : board := {|
  MAX_CHASSIS_COUNT := 1; MAX_CHASSIS_SLOT_COUNT := 2; MAX_SLOT_SUBBOARD_COUNT := 5;
  MAX_ETHPORT_PER_BOARD := 64; MAX_SUBPORT_PER_ETHPORT := 4; SUBBOARD_START_PORT := 64;
  MAX_ETHPORT_PER_SUBBOARD := 4; MAX_ETHPORT_PER_SYSTEM := 512; MAX_SWITCHPORT_PER_SYSTEM := 1024;
  TRUNK_BITMAP_START_PORT := 512; WIFI_BITMAP_START_PORT := 512 + 127 + 1;
  TUNNEL_BITMAP_START_PORT := 512 + 127 + 0 + 1 |}.

Definition boards : list board :=
  [memory_short; chassis_support; multi_chassis_support; default_board].

Definition NETIF_LOCAL_RADIO_NUM : Z := 4.
Definition NETIF_LOCAL_BSS_NUM : Z := 8.
(** Defined in the two chassis branches only, where the stack ports are. *)
Definition STACK_INTER_ETHPORT_START : Z := 16.

Definition NPD_NETIF_ETH_TYPE : Z := 0x2.
Definition NPD_NETIF_VLAN_TYPE : Z := 0x3.
Definition NPD_NETIF_TRUNK_TYPE : Z := 0x4.
Definition NPD_NETIF_TUNNEL_TYPE : Z := 0x7.
Definition NPD_NETIF_VIDX_TYPE : Z := 0xB.
Definition NPD_NETIF_STACK_TYPE : Z := 0xD.
Definition NPD_NETIF_WIRELESS_TYPE : Z := 0xE.

(** ** The union *)

(** A bit field: position of its lowest bit and width. *)
Record field := Field { off : Z; width : Z }.

Definition get (f : field) (x : Z) : Z := Z.land (Z.shiftr x (off f)) (Z.ones (width f)).

(** Assignment to a bit field truncates to its width. *)
Definition set (f : field) (x v : Z) : Z :=
  Z.lor (Z.ldiff x (Z.shiftl (Z.ones (width f)) (off f)))
        (Z.shiftl (v mod 2 ^ width f) (off f)).

Definition if_type : field := Field 28 4.
Definition eth_chassis : field := Field 26 2.
Definition eth_slot : field := Field 22 4.
Definition eth_sub_slot : field := Field 20 2.
Definition eth_port : field := Field 14 6.
Definition eth_reserved : field := Field 0 14.
Definition vlan_vlanid : field := Field 16 12.
Definition trunk_trunkid : field := Field 16 12.
Definition vidx_vidx : field := Field 16 12.
Definition tunnel_tunnelid : field := Field 18 10.
Definition stack_chassis : field := Field 26 2.
Definition stack_slot : field := Field 22 4.
Definition stack_port : field := Field 16 6.
Definition wireless_wtpid : field := Field 22 6.
Definition wireless_radio_local_id : field := Field 20 2.
Definition wireless_bss_local_index : field := Field 17 3.

(** ** Ethernet indexes

    [box] is the value of [app_box_state_get()] of the chassis library. *)
Definition netif_system_is_box (box : Z) : Z := box.

Definition eth_port_get_chassis_by_ifindex (box eth_g_index : Z) : Z :=
  if negb (get if_type eth_g_index =? NPD_NETIF_ETH_TYPE) then -1
  else if netif_system_is_box box =? 1 then get eth_slot eth_g_index
  else get eth_chassis eth_g_index.

Definition eth_port_get_slot_by_ifindex (box eth_g_index : Z) : Z :=
  if negb (get if_type eth_g_index =? NPD_NETIF_ETH_TYPE) then -1
  else if netif_system_is_box box =? 1 then get eth_sub_slot eth_g_index
  else get eth_slot eth_g_index.

Definition eth_port_get_subslot_by_ifindex (box eth_g_index : Z) : Z :=
  if negb (get if_type eth_g_index =? NPD_NETIF_ETH_TYPE) then -1
  else if netif_system_is_box box =? 1 then -1
  else get eth_sub_slot eth_g_index.

Definition eth_port_get_portno_by_ifindex (eth_g_index : Z) : Z :=
  if negb (get if_type eth_g_index =? NPD_NETIF_ETH_TYPE) then -1
  else get eth_port eth_g_index.

(** The five assignments to an [eth_if] cleared before. *)
Definition eth_if (chassis slot sub_slot port reserved : Z) : Z :=
  let x := set if_type 0 NPD_NETIF_ETH_TYPE in
  let x := set eth_chassis x chassis in
  let x := set eth_slot x slot in
  let x := set eth_sub_slot x sub_slot in
  let x := set eth_port x port in
  set eth_reserved x reserved.

Definition eth_port_generate_ifindex (box chassis_id slot_id module_id port_id sub_port : Z) : Z :=
  if netif_system_is_box box =? 1
  then eth_if 0 chassis_id slot_id port_id sub_port
  else eth_if chassis_id slot_id module_id port_id sub_port.

Definition generate_eth_index (b : board) (box chassisno slotno moduleno portno subportno : Z) : Z :=
  if (chassisno <? 0) || (MAX_CHASSIS_COUNT b <? chassisno) then 0
  else if (slotno <? 0) || (MAX_CHASSIS_SLOT_COUNT b <? slotno) then 0
  else if (moduleno <? 0) || (MAX_SLOT_SUBBOARD_COUNT b <? moduleno) then 0
  else if (portno <=? 0) || (MAX_ETHPORT_PER_BOARD b <? portno) then 0
  else if (subportno <=? 0) || (MAX_SUBPORT_PER_ETHPORT b <? subportno) then 0
  else if netif_system_is_box box =? 1
  then eth_if 0 (chassisno - 1) slotno (portno - 1) (subportno - 1)
  else eth_if (chassisno - 1) (slotno - 1) moduleno (portno - 1) (subportno - 1).

(** [HAVE_CHASSIS_SUPPORT] only. *)
Definition stack_inter_port_generate_ifindex (b : board) (box chassis_id slot port : Z) : Z :=
  if (chassis_id <? 0) || (MAX_CHASSIS_COUNT b <=? chassis_id) then 0
  else
    let x := set if_type 0 NPD_NETIF_STACK_TYPE in
    if netif_system_is_box box =? 1 then
      let x := set stack_chassis x 0 in
      let x := set stack_slot x chassis_id in
      set stack_port x (port + SUBBOARD_START_PORT b + MAX_ETHPORT_PER_SUBBOARD b * slot)
    else
      let x := set stack_chassis x chassis_id in
      let x := set stack_slot x slot in
      set stack_port x (port + STACK_INTER_ETHPORT_START).

Definition npd_netif_type_get (netif_index : Z) : Z := get if_type netif_index.
Definition dcli_netif_type_get (netif_index : Z) : Z := get if_type netif_index.

(** The [unsigned long] arguments are converted to [char]. *)
Definition npd_netif_eth_index (box chassis_id slot_id port_id : Z) : Z :=
  eth_port_generate_ifindex box (u8 chassis_id) (u8 slot_id) 0 (u8 port_id) 0.

Definition npd_netif_eth_get_chassis (box netif_index : Z) : Z :=
  if netif_system_is_box box =? 1 then get eth_slot netif_index else get eth_chassis netif_index.

Definition npd_netif_eth_get_slot (box netif_index : Z) : Z :=
  if netif_system_is_box box =? 1 then get eth_sub_slot netif_index else get eth_slot netif_index.

Definition npd_netif_eth_get_subslot (netif_index : Z) : Z :=
  if negb (get if_type netif_index =? NPD_NETIF_ETH_TYPE) then -1
  else get eth_sub_slot netif_index.

Definition npd_netif_eth_get_port (netif_index : Z) : Z := get eth_port netif_index.
Definition npd_netif_eth_get_sub_port (netif_index : Z) : Z := get eth_reserved netif_index.

(** ** VLAN, trunk, tunnel and multicast-group indexes *)

Definition npd_netif_vlan_index (vid : Z) : Z :=
  set vlan_vlanid (set if_type 0 NPD_NETIF_VLAN_TYPE) vid.
Definition npd_netif_trunk_index (tid : Z) : Z :=
  set trunk_trunkid (set if_type 0 NPD_NETIF_TRUNK_TYPE) tid.
Definition npd_netif_vlan_get_vid (netif_index : Z) : Z := get vlan_vlanid netif_index.
Definition npd_netif_trunk_get_tid (netif_index : Z) : Z := get trunk_trunkid netif_index.
Definition npd_netif_tunnel_get_tunnelid (netif_index : Z) : Z := get tunnel_tunnelid netif_index.
Definition npd_netif_vlan_get_index (vid : Z) : Z :=
  set vlan_vlanid (set if_type 0 NPD_NETIF_VLAN_TYPE) vid.
Definition npd_netif_trunk_get_index (tid : Z) : Z :=
  set trunk_trunkid (set if_type 0 NPD_NETIF_TRUNK_TYPE) tid.
Definition npd_netif_tunnel_get_index (tunnel_id : Z) : Z :=
  set tunnel_tunnelid (set if_type 0 NPD_NETIF_TUNNEL_TYPE) tunnel_id.
Definition npd_netif_vidx_get_index (vidx : Z) : Z :=
  set vidx_vidx (set if_type 0 NPD_NETIF_VIDX_TYPE) vidx.
Definition npd_netif_vidx_get_vidx (netif_index : Z) : Z := get vidx_vidx netif_index.

(** ** Wireless indexes *)

Definition npd_netif_get_from_wtp_radio_bss (wtp_id radio_local_id bss_local_index : Z) : Z :=
  let x := set if_type 0 NPD_NETIF_WIRELESS_TYPE in
  let x := set wireless_wtpid x wtp_id in
  let x := set wireless_radio_local_id x radio_local_id in
  set wireless_bss_local_index x bss_local_index.

Definition npd_netif_wtpid_get (netif_index : Z) : Z :=
  if negb (get if_type netif_index =? NPD_NETIF_WIRELESS_TYPE) then -1
  else get wireless_wtpid netif_index.

Definition npd_netif_local_radio_id_get (netif_index : Z) : Z :=
  if negb (get if_type netif_index =? NPD_NETIF_WIRELESS_TYPE) then -1
  else get wireless_radio_local_id netif_index.

Definition npd_netif_local_bssindex_get (netif_index : Z) : Z :=
  if negb (get if_type netif_index =? NPD_NETIF_WIRELESS_TYPE) then -1
  else get wireless_bss_local_index netif_index.

Definition npd_netif_get_bssindex (netif_index : Z) : Z :=
  if negb (get if_type netif_index =? NPD_NETIF_WIRELESS_TYPE) then u32 (-1)
  else (get wireless_wtpid netif_index * NETIF_LOCAL_RADIO_NUM
        + get wireless_radio_local_id netif_index) * NETIF_LOCAL_BSS_NUM
       + get wireless_bss_local_index netif_index.

(** The local union is not initialised: [stack] is what the stack slot held. *)
Definition npd_netif_bssindex_to_netif_index (stack bss_index : Z) : Z :=
  let x := set if_type stack NPD_NETIF_WIRELESS_TYPE in
  let x := set wireless_wtpid x (bss_index / NETIF_LOCAL_BSS_NUM / NETIF_LOCAL_RADIO_NUM) in
  let x := set wireless_radio_local_id x
             ((bss_index / NETIF_LOCAL_BSS_NUM) mod NETIF_LOCAL_RADIO_NUM) in
  set wireless_bss_local_index x (bss_index mod NETIF_LOCAL_BSS_NUM).

(** ** Array indexes *)

(** An [unsigned] result returned as [int]. *)
Definition trunk_array_index_from_ifindex_in (b : board) (netif_index : Z) : Z :=
  let tid := s32 (npd_netif_trunk_get_tid netif_index) in
  s32 (u32 (TRUNK_BITMAP_START_PORT b + tid)).

Definition trunk_array_index_to_ifindex_in (b : board) (netif_array_index : Z) : Z :=
  let tid := s32 (u32 (netif_array_index - TRUNK_BITMAP_START_PORT b)) in
  s32 (npd_netif_trunk_get_index tid).

Definition tunnel_array_index_from_ifindex_in (b : board) (netif_index : Z) : Z :=
  let tunnel_id := s32 (npd_netif_tunnel_get_tunnelid netif_index) in
  s32 (u32 (TUNNEL_BITMAP_START_PORT b + tunnel_id)).

Definition tunnel_array_index_to_ifindex_in (b : board) (netif_array_index : Z) : Z :=
  let tunnelid := u32 (netif_array_index - TUNNEL_BITMAP_START_PORT b) in
  s32 (npd_netif_tunnel_get_index tunnelid).

Definition eth_port_array_index_from_ifindex_in (b : board) (eth_g_index : Z) : Z :=
  let per_board := MAX_ETHPORT_PER_BOARD b * MAX_SUBPORT_PER_ETHPORT b in
  let per_sub := MAX_ETHPORT_PER_SUBBOARD b * MAX_SUBPORT_PER_ETHPORT b in
  if negb (get if_type eth_g_index =? NPD_NETIF_ETH_TYPE) then -1
  else
    let t := get eth_chassis eth_g_index * MAX_CHASSIS_SLOT_COUNT b * per_board in
    let t := t + get eth_slot eth_g_index * per_board in
    let t := if get eth_sub_slot eth_g_index =? 0 then t
             else t + (SUBBOARD_START_PORT b + (get eth_sub_slot eth_g_index - 1) * per_sub) in
    s32 (t + (get eth_port eth_g_index * MAX_SUBPORT_PER_ETHPORT b + get eth_reserved eth_g_index)).

(** The assignments read back the truncated fields, as the code does. *)
Definition eth_port_array_index_to_ifindex_in (b : board) (eth_arr_index : Z) : Z :=
  let sub := MAX_SUBPORT_PER_ETHPORT b in
  let per_board := MAX_ETHPORT_PER_BOARD b * sub in
  let per_chassis := MAX_CHASSIS_SLOT_COUNT b * per_board in
  let per_sub := MAX_ETHPORT_PER_SUBBOARD b * sub in
  let x := set if_type 0 NPD_NETIF_ETH_TYPE in
  let x := set eth_chassis x (eth_arr_index / per_chassis) in
  let k := u32 (eth_arr_index - get eth_chassis x * per_chassis) in
  let x := set eth_slot x (k / per_board) in
  let k := u32 (k - get eth_slot x * per_board) in
  s32 (if k / sub <? SUBBOARD_START_PORT b then
         let x := set eth_sub_slot x 0 in
         let x := set eth_port x (k / sub) in
         set eth_reserved x (k mod sub)
       else
         let x := set eth_sub_slot x (u32 (k - SUBBOARD_START_PORT b) / per_sub + 1) in
         let k := u32 (k - ((get eth_sub_slot x - 1) * per_sub + SUBBOARD_START_PORT b)) in
         let x := set eth_port x (k / sub) in
         set eth_reserved x (k mod sub)).

(** Copies of the two conversions kept for the command line. *)
Definition dcli_eth_port_array_index_from_ifindex := eth_port_array_index_from_ifindex_in.
Definition dcli_eth_port_array_index_to_ifindex := eth_port_array_index_to_ifindex_in.

Definition wifi_port_array_index_from_ifindex_in (b : board) (netif_index : Z) : Z :=
  if negb (get if_type netif_index =? NPD_NETIF_WIRELESS_TYPE) then -1
  else
    let g_bss_index := s32 (npd_netif_get_bssindex netif_index) in
    if g_bss_index =? -1 then -1 else WIFI_BITMAP_START_PORT b + g_bss_index.

Definition wifi_port_array_index_to_ifindex_in (b : board) (stack wifi_arr_index : Z) : Z :=
  let g_bss_index := s32 (u32 (wifi_arr_index - WIFI_BITMAP_START_PORT b)) in
  s32 (npd_netif_bssindex_to_netif_index stack (u32 g_bss_index)).

Definition netif_array_index_from_ifindex (b : board) (netif_index : Z) : Z :=
  let ty := npd_netif_type_get netif_index in
  if ty =? NPD_NETIF_ETH_TYPE then eth_port_array_index_from_ifindex_in b netif_index
  else if ty =? NPD_NETIF_TRUNK_TYPE then trunk_array_index_from_ifindex_in b netif_index
  else if ty =? NPD_NETIF_TUNNEL_TYPE then tunnel_array_index_from_ifindex_in b netif_index
  else if ty =? NPD_NETIF_WIRELESS_TYPE then wifi_port_array_index_from_ifindex_in b netif_index
  else -1.

Definition netif_array_index_to_ifindex (b : board) (stack array_index : Z) : Z :=
  if array_index <? MAX_ETHPORT_PER_SYSTEM b then eth_port_array_index_to_ifindex_in b array_index
  else if array_index <? WIFI_BITMAP_START_PORT b then trunk_array_index_to_ifindex_in b array_index
  else if array_index <? TUNNEL_BITMAP_START_PORT b
  then wifi_port_array_index_to_ifindex_in b stack array_index
  else if array_index <? MAX_SWITCHPORT_PER_SYSTEM b
  then tunnel_array_index_to_ifindex_in b array_index
  else -1.

Definition trunk_array_index_from_ifindex := netif_array_index_from_ifindex.
Definition trunk_array_index_to_ifindex := netif_array_index_to_ifindex.
Definition tunnel_array_index_from_ifindex := netif_array_index_from_ifindex.
Definition tunnel_array_index_to_ifindex := netif_array_index_to_ifindex.
Definition eth_port_array_index_from_ifindex := netif_array_index_from_ifindex.
Definition eth_port_array_index_to_ifindex := netif_array_index_to_ifindex.

(** ** Names

    A function that fills [char *name] returns its [int] result and the text
    written, [None] when it writes nothing; [name] says whether the pointer
    is not [NULL], where the code tests it. *)

(** ["a<sep>b<sep>c"] with an optional [".r"]. *)
Definition name3 (pre sep : string) (a b c : Z) (r : option Z) : cstr :=
  lit pre ++ fmt_d a ++ lit sep ++ fmt_d b ++ lit sep ++ fmt_d c ++
  match r with Some r => lit "." ++ fmt_d r | None => [] end.

Definition name4 (pre sep : string) (a b c d : Z) (r : option Z) : cstr :=
  lit pre ++ fmt_d a ++ lit sep ++ fmt_d b ++ lit sep ++ fmt_d c ++ lit sep ++ fmt_d d ++
  match r with Some r => lit "." ++ fmt_d r | None => [] end.

(** [npd_eth_index_to_name] and [parse_eth_index_to_name] differ only in the
    prefix and the separator of their formats. *)
Definition eth_name (pre sep : string) (box eth_g_index : Z) (name : bool) : Z * option cstr :=
  let sub := get eth_reserved eth_g_index in
  let r := if sub =? 0 then None else Some (sub + 1) in
  if negb name then (-1, None)
  else if get if_type eth_g_index =? NPD_NETIF_ETH_TYPE then
    (0, Some (if netif_system_is_box box =? 1 then
                name3 pre sep (get eth_slot eth_g_index + 1) (get eth_sub_slot eth_g_index)
                  (get eth_port eth_g_index + 1) r
              else if negb (get eth_sub_slot eth_g_index =? 0) then
                name4 pre sep (get eth_chassis eth_g_index + 1) (get eth_slot eth_g_index + 1)
                  (get eth_sub_slot eth_g_index) (get eth_port eth_g_index + 1) r
              else
                name3 pre sep (get eth_chassis eth_g_index + 1) (get eth_slot eth_g_index + 1)
                  (get eth_port eth_g_index + 1) r))
  else (-1, None).

Definition npd_eth_index_to_name := eth_name "eth" "_".
Definition parse_eth_index_to_name := eth_name "" "/".

Definition npd_vlan_index_to_name (netif_index : Z) (name : bool) : Z * option cstr :=
  if negb name then (-1, None)
  else if get if_type netif_index =? NPD_NETIF_VLAN_TYPE
  then (0, Some (lit "vlan" ++ fmt_prec 4 (get vlan_vlanid netif_index)))
  else (-1, None).

Definition npd_trunk_index_to_name (netif_index : Z) (name : bool) : Z * option cstr :=
  if negb name then (-1, None)
  else if get if_type netif_index =? NPD_NETIF_TRUNK_TYPE
  then (0, Some (lit "lag" ++ fmt_prec 3 (get trunk_trunkid netif_index)))
  else (-1, None).

Definition npd_tunnel_index_to_name (netif_index : Z) (name : bool) : Z * option cstr :=
  if negb name then (-1, None)
  else if get if_type netif_index =? NPD_NETIF_TUNNEL_TYPE
  then (0, Some (lit "tunnel" ++ fmt_prec 3 (get tunnel_tunnelid netif_index)))
  else (-1, None).

(** [conf] holds what successive [fgets] calls return from
    [/var/run/wcpss/bssindex_wlan_relation], [None] when it cannot be opened;
    a matching line without [':'] makes the code read through a null pointer
    plus one, [None] here. *)
Fixpoint wifi_lines (netif_index bssindex : Z) (conf : list cstr) (found : option cstr)
  : option (option cstr) :=
  match conf with
  | [] => Some found
  | Buff :: conf =>
      if u32 (atoi Buff) =? bssindex then
        match after_char ":"%char Buff with
        | None => None
        | Some position =>
            let wlan_id := u32 (atoi position) in
            wifi_lines netif_index bssindex conf
              (Some (lit "Wifi " ++ fmt_d (npd_netif_wtpid_get netif_index) ++ lit "-" ++
                     fmt_d (npd_netif_local_radio_id_get netif_index + 1) ++ lit "(WLAN " ++
                     fmt_d (s32 wlan_id) ++ lit ")"))
        end
      else wifi_lines netif_index bssindex conf found
  end.

Definition npd_netif_index_wifi_subinterface_name_get (conf : option (list cstr)) (netif_index : Z)
  : option (Z * cstr) :=
  match conf with
  | None => Some (-1, lit "N/A")
  | Some conf =>
      found ← wifi_lines netif_index (npd_netif_get_bssindex netif_index) conf None;
      match found with
      | Some s => Some (0, s)
      | None => Some (-1, lit "N/A")
      end
  end.

(** The Ethernet part of the two user names: the sub-board only shows on a
    box. *)
Definition eth_user_name (pre : string) (box netif_index : Z) : cstr :=
  let chassisno := npd_netif_eth_get_chassis box netif_index + 1 in
  let slot := npd_netif_eth_get_slot box netif_index + 1 in
  let sub_slot := npd_netif_eth_get_subslot netif_index in
  let port := npd_netif_eth_get_port netif_index + 1 in
  let sub_port := npd_netif_eth_get_sub_port netif_index + 1 in
  let r := if sub_port =? 1 then None else Some sub_port in
  if netif_system_is_box box =? 1 then name3 pre "/" chassisno sub_slot port r
  else name3 pre "/" chassisno slot port r.

Definition npd_netif_index_to_user_fullname (box : Z) (conf : option (list cstr)) (netif_index : Z)
  : option (Z * cstr) :=
  let ty := npd_netif_type_get netif_index in
  if NPD_NETIF_ETH_TYPE =? ty then Some (0, eth_user_name "ethernet " box netif_index)
  else if NPD_NETIF_TRUNK_TYPE =? ty
  then Some (0, lit "port-channel " ++ fmt_d (npd_netif_trunk_get_tid netif_index))
  else if NPD_NETIF_VLAN_TYPE =? ty
  then Some (0, lit "vlan " ++ fmt_d (npd_netif_vlan_get_vid netif_index))
  else if NPD_NETIF_WIRELESS_TYPE =? ty
  then '(_, s) ← npd_netif_index_wifi_subinterface_name_get conf netif_index; Some (0, s)
  else if NPD_NETIF_TUNNEL_TYPE =? ty
  then Some (0, lit "tunnel " ++ fmt_d (npd_netif_tunnel_get_tunnelid netif_index))
  else Some (0, fmt_x netif_index).

Definition npd_netif_index_to_name (box : Z) (conf : option (list cstr)) (netif_index : Z) (ifname : bool)
  : option (Z * option cstr) :=
  let netif_type := npd_netif_type_get netif_index in
  if negb ifname then Some (-1, None)
  else if netif_type =? NPD_NETIF_ETH_TYPE then Some (npd_eth_index_to_name box netif_index ifname)
  else if netif_type =? NPD_NETIF_VLAN_TYPE then Some (npd_vlan_index_to_name netif_index ifname)
  else if netif_type =? NPD_NETIF_TRUNK_TYPE then Some (npd_trunk_index_to_name netif_index ifname)
  else if netif_type =? NPD_NETIF_WIRELESS_TYPE
  then '(r, s) ← npd_netif_index_to_user_fullname box conf netif_index; Some (r, Some s)
  else if netif_type =? NPD_NETIF_TUNNEL_TYPE then Some (npd_tunnel_index_to_name netif_index ifname)
  else Some (-1, Some (lit "UNKNOWN")).

Definition npd_netif_index_to_user_name (box : Z) (conf : option (list cstr)) (netif_index : Z)
  : option (Z * cstr) :=
  let ty := npd_netif_type_get netif_index in
  if NPD_NETIF_ETH_TYPE =? ty then Some (0, eth_user_name "eth" box netif_index)
  else if NPD_NETIF_TRUNK_TYPE =? ty
  then Some (0, lit "p-channel" ++ fmt_d (npd_netif_trunk_get_tid netif_index))
  else if NPD_NETIF_VLAN_TYPE =? ty
  then Some (0, lit "VLAN" ++ fmt_prec 4 (npd_netif_vlan_get_vid netif_index))
  else if NPD_NETIF_WIRELESS_TYPE =? ty then npd_netif_index_to_user_fullname box conf netif_index
  else if NPD_NETIF_TUNNEL_TYPE =? ty
  then Some (0, lit "tunnel" ++ fmt_prec 3 (npd_netif_tunnel_get_tunnelid netif_index))
  else Some (-1, lit "UNKNOWN").

Definition npd_netif_index_to_l3intf_name (box netif_index : Z) (ifname : bool) : Z * option cstr :=
  let netif_type := npd_netif_type_get netif_index in
  if negb ifname then (-1, None)
  else if netif_type =? NPD_NETIF_ETH_TYPE then
    let chassisno := npd_netif_eth_get_chassis box netif_index + 1 in
    let slot := npd_netif_eth_get_slot box netif_index + 1 in
    let port := npd_netif_eth_get_port netif_index + 1 in
    let sub_port := npd_netif_eth_get_sub_port netif_index + 1 in
    let slot := if netif_system_is_box box =? 1 then slot - 1 else slot in
    (0, Some (name3 "eth" "/" chassisno slot port (if sub_port =? 1 then None else Some sub_port)))
  else if netif_type =? NPD_NETIF_VLAN_TYPE
  then (0, Some (lit "vlan " ++ fmt_d (npd_netif_vlan_get_vid netif_index)))
  else if netif_type =? NPD_NETIF_TRUNK_TYPE
  then (0, Some (lit "lag" ++ fmt_prec 3 (npd_netif_trunk_get_tid netif_index)))
  else if netif_type =? NPD_NETIF_TUNNEL_TYPE
  then (0, Some (lit "tunnel" ++ fmt_prec 3 (npd_netif_tunnel_get_tunnelid netif_index)))
  else (-1, Some (lit "UNKNOWN")).

(** ** Port groups *)

(** A group with its three heap arrays; the words are [unsigned int]. *)
Record npd_netif_pbmp_group_t := Group {
  port_num : Z;
  bit_length : Z;
  bit_class_len : Z;
  bit_alloc : list Z;
  port_2_bit : list Z;
  bit_2_port : list Z
}.

Definition minus1 : Z := u32 (-1).

(** [(bit_length-bit_class_len)*(1<<bit_class_len)] *)
Definition group_size (bit_length bit_class_len : Z) : Z :=
  (bit_length - bit_class_len) * 2 ^ bit_class_len.

(** The allocations succeed; the error path is the length check. *)
Definition npd_netif_pbmp_group_create (port_num bit_length bit_class_len : Z)
  : Z * option npd_netif_pbmp_group_t :=
  if bit_length <? bit_class_len then (-1, None)
  else
    let n := Z.to_nat (group_size bit_length bit_class_len) in
    (0, Some (Group port_num bit_length bit_class_len
                (replicate n minus1) (replicate 128 minus1) (replicate n minus1))).

Definition class_shift (g : npd_netif_pbmp_group_t) : Z := bit_length g - bit_class_len g.

(** The search loop [for(i = portmax; i > 0; i--)]: the slot found. *)
Fixpoint alloc_slot (n : nat) (g : npd_netif_pbmp_group_t) : option (option Z) :=
  match n with
  | O => Some None
  | S n' =>
      a ← rd (bit_alloc g) (Z.of_nat n);
      if a =? minus1 then Some (Some (Z.of_nat n)) else alloc_slot n' g
  end.

(** The result, the group and what is stored in [*bit], if anything. *)
Definition npd_netif_pbmp_group_entry_alloc (g : npd_netif_pbmp_group_t) (port : Z)
  : option (Z * npd_netif_pbmp_group_t * option Z) :=
  let portmax := group_size (bit_length g) (bit_class_len g) in
  if 128 <? port then Some (-1, g, Some minus1)
  else
    p ← rd (port_2_bit g) port;
    if negb (p =? minus1) then Some (0, g, Some p)
    else
      slot ← alloc_slot (Z.to_nat portmax) g;
      match slot with
      | None => Some (0, g, None)
      | Some i =>
          let w := class_shift g in
          let v := u32 (shl32 1 (i mod w) + shl32 (i / w) w) in
          b2p ← wr (bit_2_port g) i port;
          ba ← wr (bit_alloc g) i 1;
          let v := if Z.shiftr v w =? 0 then Z.lor v 1 else v in
          p2b ← wr (port_2_bit g) port v;
          Some (0, Group (port_num g) (bit_length g) (bit_class_len g) ba p2b b2p, Some v)
      end.

(** [while((i&1) != 1) i++;] makes an even start odd. *)
Definition first_odd (i : Z) : Z := if Z.odd i then i else i + 1.

Definition npd_netif_pbmp_group_entry_free (g : npd_netif_pbmp_group_t) (port bit : Z)
  : option (Z * npd_netif_pbmp_group_t) :=
  if (128 <? port) || negb (Z.land bit (shl32 minus1 (bit_length g)) =? 0) then Some (-1, g)
  else
    p ← rd (port_2_bit g) port;
    if negb (p =? bit) then Some (-1, g)
    else
      let i := first_odd (Z.shiftr bit (class_shift g) * class_shift g) in
      ba ← wr (bit_alloc g) i minus1;
      b2p ← wr (bit_2_port g) i minus1;
      p2b ← wr (port_2_bit g) port minus1;
      Some (0, Group (port_num g) (bit_length g) (bit_class_len g) ba p2b b2p).

Definition npd_netif_pbmp_group_get_bit (g : npd_netif_pbmp_group_t) (port : Z) : option (Z * Z) :=
  if 128 <? port then Some (-1, minus1)
  else p ← rd (port_2_bit g) port; Some (if p =? minus1 then -1 else 0, p).

Definition npd_netif_pbmp_group_get_port (g : npd_netif_pbmp_group_t) (bit : Z) : option (Z * Z) :=
  let portmax := group_size (bit_length g) (bit_class_len g) in
  let i := first_odd (Z.shiftr bit (class_shift g) * class_shift g) in
  if portmax <? i then Some (-1, minus1)
  else p ← rd (bit_2_port g) i; Some (if p =? minus1 then -1 else 0, p).

Definition npd_netif_pbmp_group_class_bitempty (g : npd_netif_pbmp_group_t) (bit_class : Z) : Z :=
  if bit_class mod 2 ^ class_shift g =? 0 then 1 else 0.
Definition npd_netif_pbmp_group_same_class (g : npd_netif_pbmp_group_t) (bit1 bit2 : Z) : Z :=
  if Z.shiftr bit1 (class_shift g) =? Z.shiftr bit2 (class_shift g) then 1 else 0.
Definition npd_netif_pbmp_group_get_port_bit (g : npd_netif_pbmp_group_t) (bit1 : Z) : Z :=
  bit1 mod 2 ^ class_shift g.
Definition npd_netif_pbmp_group_get_port_mask (g : npd_netif_pbmp_group_t) : Z :=
  Z.shiftr (not32 1) (32 - bit_length g + bit_class_len g).
Definition npd_netif_pbmp_group_get_class_bit (g : npd_netif_pbmp_group_t) (bit1 : Z) : Z :=
  shl32 (Z.shiftr bit1 (class_shift g)) (class_shift g).
Definition npd_netif_pbmp_group_get_class (g : npd_netif_pbmp_group_t) (bit : Z) : Z :=
  Z.shiftr bit (class_shift g).
Definition npd_netif_pbmp_group_get_class_mask (g : npd_netif_pbmp_group_t) : Z :=
  shl32 (Z.shiftr (not32 1) (32 - bit_class_len g)) (class_shift g).

(** ** Bit-field algebra *)

Definition field_ok (f : field) : bool := (0 <=? off f) && (0 <=? width f) && (off f + width f <=? 32).
Definition disjoint (f g : field) : bool :=
  (off f + width f <=? off g) || (off g + width g <=? off f).

Lemma set_testbit f x v i :
  field_ok f = true -> 0 <= i ->
  Z.testbit (set f x v) i =
  if (off f <=? i) && (i <? off f + width f) then Z.testbit v (i - off f) else Z.testbit x i.
Proof.
  intros Hf Hi. apply andb_true_iff in Hf as [[Ho%Z.leb_le Hw%Z.leb_le]%andb_true_iff _].
  unfold set. rewrite Z.lor_spec, Z.ldiff_spec, !Z.shiftl_spec by lia.
  destruct (Z.leb_spec (off f) i); simpl.
  - rewrite Z.testbit_ones_nonneg by lia.
    destruct (Z.ltb_spec i (off f + width f)), (Z.ltb_spec (i - off f) (width f)); try lia.
    + rewrite Z.mod_pow2_bits_low by lia. by rewrite andb_false_r.
    + rewrite Z.mod_pow2_bits_high by lia. by rewrite andb_true_r, orb_false_r.
  - rewrite !(Z.testbit_neg_r _ (i - off f)) by lia. by rewrite andb_true_r, orb_false_r.
Qed.

Lemma get_testbit f x i :
  field_ok f = true -> 0 <= i ->
  Z.testbit (get f x) i = (i <? width f) && Z.testbit x (i + off f).
Proof.
  intros Hf Hi. apply andb_true_iff in Hf as [[Ho%Z.leb_le Hw%Z.leb_le]%andb_true_iff _].
  unfold get. rewrite Z.land_spec, Z.shiftr_spec, Z.testbit_ones_nonneg by lia. apply andb_comm.
Qed.

Lemma get_set_same f x v : field_ok f = true -> get f (set f x v) = v mod 2 ^ width f.
Proof.
  intros Hf. apply Z.bits_inj'. intros i Hi. rewrite get_testbit by done.
  pose proof Hf as Hf'. apply andb_true_iff in Hf' as [[Ho%Z.leb_le Hw%Z.leb_le]%andb_true_iff _].
  rewrite set_testbit by (done || lia). destruct (Z.ltb_spec i (width f)).
  - destruct (Z.leb_spec (off f) (i + off f)), (Z.ltb_spec (i + off f) (off f + width f)); try lia. simpl.
    rewrite Z.mod_pow2_bits_low by lia. f_equal. lia.
  - by rewrite Z.mod_pow2_bits_high by lia.
Qed.

Lemma get_set_other f g x v :
  field_ok f = true -> field_ok g = true -> disjoint f g = true -> get g (set f x v) = get g x.
Proof.
  intros Hf Hg Hd. apply Z.bits_inj'. intros i Hi. rewrite !get_testbit by done.
  apply andb_true_iff in Hg as [[Ho%Z.leb_le Hw%Z.leb_le]%andb_true_iff _].
  rewrite set_testbit by (done || lia). destruct (Z.ltb_spec i (width g)); [|done].
  apply orb_true_iff in Hd as [Hd%Z.leb_le|Hd%Z.leb_le].
  - destruct (Z.ltb_spec (i + off g) (off f + width f)); [lia|]. by rewrite andb_false_r.
  - destruct (Z.leb_spec (off f) (i + off g)); [lia|]. done.
Qed.

Lemma set_range f x v : field_ok f = true -> u32_range x -> u32_range (set f x v).
Proof.
  intros Hf Hx. pose proof Hf as Hf'.
  apply andb_true_iff in Hf' as [[Ho%Z.leb_le Hw%Z.leb_le]%andb_true_iff Hb%Z.leb_le].
  apply range_of_testbit; [lia| |].
  - unfold set. apply Z.lor_nonneg. split.
    + apply Z.ldiff_nonneg. unfold u32_range in Hx. lia.
    + apply Z.shiftl_nonneg. assert (0 < 2 ^ width f) by lia. apply Z.mod_pos_bound. lia.
  - intros i Hi. rewrite set_testbit by (done || lia).
    destruct (Z.ltb_spec i (off f + width f)); [lia|]. rewrite andb_false_r.
    apply (testbit_high 32); [done|lia].
Qed.

Lemma get_range f x : field_ok f = true -> 0 <= get f x < 2 ^ width f.
Proof.
  intros Hf. apply andb_true_iff in Hf as [[Ho%Z.leb_le Hw%Z.leb_le]%andb_true_iff _].
  unfold get. rewrite Z.land_ones by done. apply Z.mod_pos_bound. lia.
Qed.

Lemma get_lt f x n : field_ok f = true -> (2 ^ width f <=? n) = true -> 0 <= get f x < n.
Proof. intros Hf Hn%Z.leb_le. pose proof (get_range f x Hf). lia. Qed.

(** A field reads the same from the [int] view of an index. *)
Lemma u32_s32 x : u32_range x -> u32 (s32 x) = x.
Proof.
  intros Hx. unfold s32. rewrite (u32_small x) by done. destruct (x <? 2 ^ 31); [by apply u32_small|].
  unfold u32, wrap. rewrite Zminus_mod, Z_mod_same_full, Z.sub_0_r, Zmod_mod. by apply Z.mod_small.
Qed.

Lemma s32_small x : 0 <= x < 2 ^ 31 -> s32 x = x.
Proof.
  intros Hx. unfold s32. assert (2 ^ 31 < 2 ^ 32) by done.
  rewrite u32_small by (unfold u32_range; lia). by destruct (Z.ltb_spec x (2 ^ 31)); [|lia].
Qed.

(** [fields] evaluates every field read of an index built by assignments. *)
Ltac fields :=
  repeat (first [rewrite get_set_same by reflexivity | rewrite get_set_other by reflexivity]).

(** Decides the comparison of two type constants. *)
Ltac type_eqb :=
  repeat match goal with
    | |- context [?a =? ?b] => is_const a; is_const b;
        let v := eval vm_compute in (a =? b) in
        match v with true => idtac | false => idtac end;
        change (a =? b) with v; cbn [negb]; cbv iota
    end.

Ltac index_range := repeat (apply set_range; [reflexivity|]); done.

(** The assembled index has the given fields, truncated. *)
Lemma eth_if_fields c s ss p r :
  get if_type (eth_if c s ss p r) = NPD_NETIF_ETH_TYPE /\ get eth_chassis (eth_if c s ss p r) = c mod 4 /\
  get eth_slot (eth_if c s ss p r) = s mod 16 /\ get eth_sub_slot (eth_if c s ss p r) = ss mod 4 /\
  get eth_port (eth_if c s ss p r) = p mod 64 /\ get eth_reserved (eth_if c s ss p r) = r mod 16384 /\
  u32_range (eth_if c s ss p r).
Proof.
  unfold eth_if. repeat split; fields; try reflexivity; index_range.
Qed.

(** Two indexes with the same Ethernet fields are the same word. *)
Lemma eth_fields_inj x y :
  u32_range x -> u32_range y ->
  get if_type x = get if_type y -> get eth_chassis x = get eth_chassis y ->
  get eth_slot x = get eth_slot y -> get eth_sub_slot x = get eth_sub_slot y ->
  get eth_port x = get eth_port y -> get eth_reserved x = get eth_reserved y -> x = y.
Proof.
  intros Hx Hy H1 H2 H3 H4 H5 H6. apply Z.bits_inj'. intros i Hi.
  assert (forall f, field_ok f = true -> get f x = get f y -> off f <= i < off f + width f ->
    Z.testbit x i = Z.testbit y i) as Hf.
  { intros f Hok E Hr.
    assert (forall z, Z.testbit z i = Z.testbit (get f z) (i - off f)) as Ez.
    { intros z. rewrite get_testbit by (done || lia). destruct (Z.ltb_spec (i - off f) (width f)); [|lia].
      simpl. f_equal. lia. }
    by rewrite !Ez, E. }
  destruct (decide (i < 32)); [|by rewrite !(testbit_high 32) by (done || lia)].
  destruct (decide (28 <= i)); [apply (Hf if_type); simpl; (done || lia)|].
  destruct (decide (26 <= i)); [apply (Hf eth_chassis); simpl; (done || lia)|].
  destruct (decide (22 <= i)); [apply (Hf eth_slot); simpl; (done || lia)|].
  destruct (decide (20 <= i)); [apply (Hf eth_sub_slot); simpl; (done || lia)|].
  destruct (decide (14 <= i)); [apply (Hf eth_port); simpl; (done || lia)|].
  apply (Hf eth_reserved); simpl; (done || lia).
Qed.

(** ** Array indexes *)

(** The Ethernet, trunk and tunnel indexes of every board, exhaustively. *)
Definition wired_roundtrip (b : board) (k : Z) : Prop :=
  (WIFI_BITMAP_START_PORT b <= k < TUNNEL_BITMAP_START_PORT b) \/
  netif_array_index_from_ifindex b (u32 (netif_array_index_to_ifindex b 0 k)) = k.

Lemma wired_roundtrip_all :
  Forall (fun b => Forall (wired_roundtrip b) (seqZ 0 (MAX_SWITCHPORT_PER_SYSTEM b))) boards.
Proof. unfold wired_roundtrip. apply (bool_decide_unpack _). vm_compute. exact I. Qed.

(** Outside of the wireless range the result does not read the stack. *)
Lemma wired_no_stack b stack k :
  ~ (WIFI_BITMAP_START_PORT b <= k < TUNNEL_BITMAP_START_PORT b) ->
  MAX_ETHPORT_PER_SYSTEM b <= WIFI_BITMAP_START_PORT b ->
  netif_array_index_to_ifindex b stack k = netif_array_index_to_ifindex b 0 k.
Proof.
  intros Hk Hb. unfold netif_array_index_to_ifindex.
  destruct (Z.ltb_spec k (MAX_ETHPORT_PER_SYSTEM b)); [done|].
  destruct (Z.ltb_spec k (WIFI_BITMAP_START_PORT b)); [done|].
  by destruct (Z.ltb_spec k (TUNNEL_BITMAP_START_PORT b)); [lia|].
Qed.

Lemma bssindex_fields stack bss :
  u32_range stack -> 0 <= bss < 2048 ->
  let i := npd_netif_bssindex_to_netif_index stack bss in
  u32_range i /\ get if_type i = NPD_NETIF_WIRELESS_TYPE /\
  get wireless_wtpid i = bss / 32 /\ get wireless_radio_local_id i = bss / 8 mod 4 /\
  get wireless_bss_local_index i = bss mod 8.
Proof.
  intros Hs Hb i. unfold i, npd_netif_bssindex_to_netif_index, NETIF_LOCAL_BSS_NUM, NETIF_LOCAL_RADIO_NUM.
  split; [index_range|].
  split; [fields; reflexivity|].
  split; [fields; change (2 ^ width wireless_wtpid) with 64; dlia|].
  split; fields; [change (2 ^ width wireless_radio_local_id) with 4|
    change (2 ^ width wireless_bss_local_index) with 8]; dlia.
Qed.

Lemma bssindex_roundtrip stack bss :
  u32_range stack -> 0 <= bss < 2048 ->
  npd_netif_get_bssindex (npd_netif_bssindex_to_netif_index stack bss) = bss.
Proof.
  intros Hs Hb. destruct (bssindex_fields stack bss Hs Hb) as (_ & E1 & E2 & E3 & E4).
  unfold npd_netif_get_bssindex. rewrite E1, E2, E3, E4. type_eqb.
  unfold NETIF_LOCAL_BSS_NUM, NETIF_LOCAL_RADIO_NUM. dlia.
Qed.

Lemma wifi_roundtrip b stack k :
  u32_range stack -> 0 <= WIFI_BITMAP_START_PORT b < 2 ^ 16 ->
  WIFI_BITMAP_START_PORT b <= k < WIFI_BITMAP_START_PORT b + 2048 ->
  netif_array_index_from_ifindex b (u32 (wifi_port_array_index_to_ifindex_in b stack k)) = k.
Proof.
  intros Hs Hb Hk. unfold wifi_port_array_index_to_ifindex_in.
  set (bss := k - WIFI_BITMAP_START_PORT b). assert (0 <= bss < 2048) as Hbss by (unfold bss; lia).
  rewrite (u32_small bss) by (unfold u32_range; lia). rewrite (s32_small bss) by lia.
  rewrite (u32_small bss) by (unfold u32_range; lia).
  destruct (bssindex_fields stack bss Hs Hbss) as (Hr & E1 & _).
  rewrite u32_s32 by done. unfold netif_array_index_from_ifindex, npd_netif_type_get.
  unfold wifi_port_array_index_from_ifindex_in. rewrite E1. type_eqb.
  rewrite bssindex_roundtrip by done. rewrite s32_small by lia.
  destruct (Z.eqb_spec bss (-1)); [lia|]. unfold bss. lia.
Qed.

Lemma boards_layout b :
  b ∈ boards ->
  MAX_ETHPORT_PER_SYSTEM b <= WIFI_BITMAP_START_PORT b <= TUNNEL_BITMAP_START_PORT b /\
  0 <= WIFI_BITMAP_START_PORT b < 2 ^ 16 /\
  TUNNEL_BITMAP_START_PORT b <= WIFI_BITMAP_START_PORT b + 2048 /\
  TUNNEL_BITMAP_START_PORT b <= MAX_SWITCHPORT_PER_SYSTEM b.
Proof.
  intros Hb. repeat (apply elem_of_cons in Hb as [->|Hb]; [vm_compute; intuition congruence|]).
  by apply elem_of_nil in Hb.
Qed.

(** The Ethernet ports a board has: base-board ports below the sub-board
    range, and the four ports of each sub-board. *)
Record eth_canonical (b : board) (i : Z) : Prop := {
  can_range : u32_range i;
  can_type : get if_type i = NPD_NETIF_ETH_TYPE;
  can_chassis : get eth_chassis i < MAX_CHASSIS_COUNT b;
  can_slot : get eth_slot i < MAX_CHASSIS_SLOT_COUNT b;
  can_sub : get eth_reserved i < MAX_SUBPORT_PER_ETHPORT b;
  can_port : (get eth_sub_slot i = 0 /\ get eth_port i < SUBBOARD_START_PORT b) \/
             (1 <= get eth_sub_slot i /\ get eth_port i < MAX_ETHPORT_PER_SUBBOARD b /\
              SUBBOARD_START_PORT b + get eth_sub_slot i * MAX_ETHPORT_PER_SUBBOARD b
                <= MAX_ETHPORT_PER_BOARD b)
}.

(** Splitting an array index into chassis, slot and the rest. *)
Lemma eth_to_split b c s t :
  let sub := MAX_SUBPORT_PER_ETHPORT b in
  let pb := MAX_ETHPORT_PER_BOARD b * sub in
  let pc := MAX_CHASSIS_SLOT_COUNT b * pb in
  let ps := MAX_ETHPORT_PER_SUBBOARD b * sub in
  0 <= c < 4 -> 0 <= s < MAX_CHASSIS_SLOT_COUNT b -> MAX_CHASSIS_SLOT_COUNT b <= 16 ->
  0 <= t < pb -> pb <= 256 ->
  eth_port_array_index_to_ifindex_in b (c * pc + s * pb + t) =
  s32 (if t / sub <? SUBBOARD_START_PORT b then eth_if c s 0 (t / sub) (t mod sub)
       else let ss := u32 (t - SUBBOARD_START_PORT b) / ps + 1 in
            let k := u32 (t - ((ss mod 4 - 1) * ps + SUBBOARD_START_PORT b)) in
            eth_if c s ss (k / sub) (k mod sub)).
Proof.
  intros sub pb pc ps Hc Hs Hm Ht Hpb. unfold eth_port_array_index_to_ifindex_in.
  fold sub. fold pb. fold pc. fold ps.
  assert (s * pb + t < pc) by (unfold pc; nia). assert (0 <= s * pb) by nia.
  assert (pc <= 4096) by (unfold pc; nia).
  assert ((c * pc + s * pb + t) / pc = c) as E1.
  { rewrite <- Z.add_assoc, Z.div_add_l by lia. rewrite Z.div_small by lia. lia. }
  rewrite E1. fields. change (2 ^ width eth_chassis) with 4. rewrite (Z.mod_small c 4) by lia.
  replace (c * pc + s * pb + t - c * pc) with (s * pb + t) by lia.
  rewrite (u32_small (s * pb + t)) by (unfold u32_range; lia).
  assert ((s * pb + t) / pb = s) as E2 by (rewrite Z.div_add_l by lia; rewrite Z.div_small by lia; lia).
  rewrite E2. fields. change (2 ^ width eth_slot) with 16. rewrite (Z.mod_small s 16) by lia.
  replace (s * pb + t - s * pb) with t by lia. rewrite (u32_small t) by (unfold u32_range; lia).
  fields. reflexivity.
Qed.

Lemma eth_from_fields b c s ss p r :
  0 <= c < 4 -> 0 <= s < 16 -> 0 <= ss < 4 -> 0 <= p < 64 -> 0 <= r < 16384 ->
  netif_array_index_from_ifindex b (eth_if c s ss p r) =
  s32 ((if ss =? 0 then c * MAX_CHASSIS_SLOT_COUNT b * (MAX_ETHPORT_PER_BOARD b * MAX_SUBPORT_PER_ETHPORT b)
            + s * (MAX_ETHPORT_PER_BOARD b * MAX_SUBPORT_PER_ETHPORT b)
          else c * MAX_CHASSIS_SLOT_COUNT b * (MAX_ETHPORT_PER_BOARD b * MAX_SUBPORT_PER_ETHPORT b)
            + s * (MAX_ETHPORT_PER_BOARD b * MAX_SUBPORT_PER_ETHPORT b)
            + (SUBBOARD_START_PORT b + (ss - 1) * (MAX_ETHPORT_PER_SUBBOARD b * MAX_SUBPORT_PER_ETHPORT b)))
       + (p * MAX_SUBPORT_PER_ETHPORT b + r)).
Proof.
  intros. destruct (eth_if_fields c s ss p r) as (E1 & E2 & E3 & E4 & E5 & E6 & _).
  unfold netif_array_index_from_ifindex, npd_netif_type_get, eth_port_array_index_from_ifindex_in.
  rewrite E1, E2, E3, E4, E5, E6, !Z.mod_small by lia. reflexivity.
Qed.

Lemma eth_if_of_fields i :
  u32_range i -> get if_type i = NPD_NETIF_ETH_TYPE ->
  i = eth_if (get eth_chassis i) (get eth_slot i) (get eth_sub_slot i) (get eth_port i) (get eth_reserved i).
Proof.
  intros Hr Ht. destruct (eth_if_fields (get eth_chassis i) (get eth_slot i) (get eth_sub_slot i)
    (get eth_port i) (get eth_reserved i)) as (E1 & E2 & E3 & E4 & E5 & E6 & Hr').
  pose proof (get_range eth_chassis i eq_refl). pose proof (get_range eth_slot i eq_refl).
  pose proof (get_range eth_sub_slot i eq_refl). pose proof (get_range eth_port i eq_refl).
  pose proof (get_range eth_reserved i eq_refl).
  apply eth_fields_inj; try done; [congruence|..]; symmetry; [rewrite E2|rewrite E3|rewrite E4|rewrite E5|rewrite E6];
    by apply Z.mod_small.
Qed.

(** A concrete board. *)
Ltac each_board H :=
  repeat (apply elem_of_cons in H as [->|H]); [..|by apply elem_of_nil in H].

Lemma eth_tuple_roundtrip b c s ss p r :
  b ∈ boards -> 0 <= c < MAX_CHASSIS_COUNT b -> 0 <= s < MAX_CHASSIS_SLOT_COUNT b ->
  0 <= r < MAX_SUBPORT_PER_ETHPORT b -> 0 <= p ->
  (ss = 0 /\ p < SUBBOARD_START_PORT b) \/
  (1 <= ss /\ p < MAX_ETHPORT_PER_SUBBOARD b /\
   SUBBOARD_START_PORT b + ss * MAX_ETHPORT_PER_SUBBOARD b <= MAX_ETHPORT_PER_BOARD b) ->
  let k := netif_array_index_from_ifindex b (eth_if c s ss p r) in
  0 <= k < MAX_ETHPORT_PER_SYSTEM b /\ eth_port_array_index_to_ifindex_in b k = eth_if c s ss p r.
Proof.
  intros Hb Hc Hs Hr Hp0 Hp k.
  assert (forall x y, s32 (eth_if c s x y r) = eth_if c s x y r) as Hs32.
  { intros x y. destruct (eth_if_fields c s x y r) as (E1 & _ & _ & _ & _ & _ & Hrg).
    apply s32_small. split; [apply Hrg|].
    assert (Z.testbit (eth_if c s x y r) 31 = false) as Hbit.
    { pose proof (get_testbit if_type (eth_if c s x y r) 3 eq_refl ltac:(lia)) as Hg.
      rewrite E1 in Hg. symmetry. exact Hg. }
    apply range_of_testbit; [lia|apply Hrg|]. intros i Hi.
    destruct (decide (i = 31)) as [->|]; [done|]. apply (testbit_high 32); [done|lia]. }
  unfold k. destruct Hp as [[-> Hp]|(Hss & Hp & Hroom)].
  - rewrite eth_from_fields; each_board Hb; cbn in *; try lia.
    all: rewrite s32_small by lia; split; [lia|].
    all: match goal with |- context [eth_port_array_index_to_ifindex_in ?b _] =>
           pose proof (eth_to_split b c s (p * MAX_SUBPORT_PER_ETHPORT b + r)) as E end; cbn in E.
    all: etrans; [etrans; [|apply E; lia]; f_equal; lia|].
    all: rewrite ?Z.div_1_r, ?Z.mod_1_r.
    all: match goal with |- context [?x <? ?y] => destruct (Z.ltb_spec x y); [|dlia] end.
    all: rewrite <- Hs32; do 2 f_equal; dlia.
  - rewrite eth_from_fields; each_board Hb; cbn in *; try lia.
    all: destruct (Z.eqb_spec ss 0); [lia|]; rewrite s32_small by lia; split; [lia|].
    all: match goal with |- context [eth_port_array_index_to_ifindex_in ?b _] =>
           pose proof (eth_to_split b c s (SUBBOARD_START_PORT b + (ss - 1) * 4 + p)) as E end; cbn in E.
    all: etrans; [etrans; [|apply E; lia]; f_equal; lia|].
    all: rewrite ?Z.div_1_r, ?Z.mod_1_r.
    all: match goal with |- context [?x <? ?y] => destruct (Z.ltb_spec x y); [lia|] end.
    all: change (4 * 1) with 4; match goal with |- context [u32 ?x / 4 + 1] =>
           replace (u32 x / 4 + 1) with ss by (rewrite u32_small by (unfold u32_range; lia); dlia) end.
    all: rewrite (Z.mod_small ss 4) by lia; rewrite u32_small by (unfold u32_range; lia).
    all: rewrite <- Hs32; do 2 f_equal; lia.
Qed.

Lemma eth_canonical_roundtrip b i :
  b ∈ boards -> eth_canonical b i ->
  let k := netif_array_index_from_ifindex b i in
  0 <= k < MAX_ETHPORT_PER_SYSTEM b /\ eth_port_array_index_to_ifindex_in b k = i.
Proof.
  intros Hb [Hr Ht Hc Hs Hsub Hp]. rewrite (eth_if_of_fields i Hr Ht).
  pose proof (get_range eth_chassis i eq_refl). pose proof (get_range eth_slot i eq_refl).
  pose proof (get_range eth_port i eq_refl). pose proof (get_range eth_reserved i eq_refl).
  by apply eth_tuple_roundtrip; try lia.
Qed.

(** ** Names *)

Definition sub_tail (r : option Z) : cstr :=
  match r with Some r => lit "." ++ fmt_d r | None => [] end.

Definition small (n : Z) : Prop := 0 <= n < 10 ^ 10.

Lemma fmt_d_dec n : small n -> fmt_d n = dec n.
Proof. unfold fmt_d, small. intros. by destruct (Z.ltb_spec n 0); [lia|]. Qed.

Lemma fmt_d_sep_inj n m c d t1 t2 :
  small n -> small m -> isdigit c = false -> isdigit d = false ->
  fmt_d n ++ c :: t1 = fmt_d m ++ d :: t2 -> n = m /\ c = d /\ t1 = t2.
Proof.
  intros Hn Hm Hc Hd E. rewrite !fmt_d_dec in E by done.
  apply digits_sep_inj in E as (E & -> & ->); auto using dec_digits.
  split; [|done]. by apply dec_inj.
Qed.

Lemma sub_tail_inj c1 c2 r1 r2 :
  small c1 -> small c2 -> from_option small True r1 -> from_option small True r2 ->
  fmt_d c1 ++ sub_tail r1 = fmt_d c2 ++ sub_tail r2 -> c1 = c2 /\ r1 = r2.
Proof.
  intros H1 H2 Hr1 Hr2 E. destruct r1 as [r1|], r2 as [r2|]; simpl in *.
  - apply fmt_d_sep_inj in E as (-> & _ & E); try done.
    rewrite !fmt_d_dec in E by done. apply dec_inj in E; [|done..]. by subst.
  - exfalso. rewrite app_nil_r, (fmt_d_dec c2) in E by done.
    by apply digits_no_sep in E; [|apply dec_digits|].
  - exfalso. symmetry in E. rewrite app_nil_r, (fmt_d_dec c1) in E by done.
    by apply digits_no_sep in E; [|apply dec_digits|].
  - rewrite !app_nil_r, !fmt_d_dec in E by done. apply dec_inj in E; [|done..]. by subst.
Qed.

Lemma sep_no_tail c1 t c2 r2 :
  small c1 -> small c2 -> from_option small True r2 ->
  fmt_d c1 ++ "_"%char :: t = fmt_d c2 ++ sub_tail r2 -> False.
Proof.
  intros H1 H2 Hr E. destruct r2 as [r2|]; simpl in *.
  - by apply fmt_d_sep_inj in E as (_ & E & _).
  - rewrite app_nil_r, (fmt_d_dec c2) in E by done.
    by apply digits_no_sep in E; [|apply dec_digits|].
Qed.

(** The numbers a chassis system prints for a port, in printing order. *)
Definition eth_numbers (i : Z) : Z * Z * option Z * Z * option Z :=
  (get eth_chassis i + 1, get eth_slot i + 1,
   (if get eth_sub_slot i =? 0 then None else Some (get eth_sub_slot i)),
   get eth_port i + 1,
   (if get eth_reserved i =? 0 then None else Some (get eth_reserved i + 1))).

Definition eth_text (n : Z * Z * option Z * Z * option Z) : cstr :=
  let '(a, b, ss, p, r) := n in
  lit "eth" ++ fmt_d a ++ "_"%char :: fmt_d b ++ "_"%char ::
  match ss with Some ss => fmt_d ss ++ "_"%char :: fmt_d p ++ sub_tail r | None => fmt_d p ++ sub_tail r end.

Definition numbers_small (n : Z * Z * option Z * Z * option Z) : Prop :=
  let '(a, b, ss, p, r) := n in
  small a /\ small b /\ from_option small True ss /\ small p /\ from_option small True r.

Lemma eth_text_inj n m : numbers_small n -> numbers_small m -> eth_text n = eth_text m -> n = m.
Proof.
  destruct n as [[[[a b] ss] p] r], m as [[[[a' b'] ss'] p'] r'].
  intros (Ha & Hb & Hs & Hp & Hr) (Ha' & Hb' & Hs' & Hp' & Hr') E. unfold eth_text in E.
  apply app_inv_head in E.
  apply fmt_d_sep_inj in E as (-> & _ & E); try done.
  apply fmt_d_sep_inj in E as (-> & _ & E); try done.
  destruct ss as [ss|], ss' as [ss'|]; simpl in *.
  - apply fmt_d_sep_inj in E as (-> & _ & E); try done. apply sub_tail_inj in E as [-> ->]; done.
  - by apply sep_no_tail in E.
  - symmetry in E. by apply sep_no_tail in E.
  - apply sub_tail_inj in E as [-> ->]; done.
Qed.

Lemma eth_name_text box i :
  box <> 1 -> get if_type i = NPD_NETIF_ETH_TYPE ->
  npd_eth_index_to_name box i true = (0, Some (eth_text (eth_numbers i))).
Proof.
  intros Hb Ht. unfold npd_eth_index_to_name, eth_name, netif_system_is_box. rewrite Ht.
  destruct (Z.eqb_spec box 1); [done|]. cbn [negb]. rewrite Z.eqb_refl. unfold eth_text, eth_numbers.
  destruct (Z.eqb_spec (get eth_sub_slot i) 0), (Z.eqb_spec (get eth_reserved i) 0); cbn [negb];
    unfold name3, name4, sub_tail; reflexivity.
Qed.

Lemma eth_numbers_small i : numbers_small (eth_numbers i).
Proof.
  pose proof (get_lt eth_chassis i 16384 eq_refl eq_refl). pose proof (get_lt eth_slot i 16384 eq_refl eq_refl).
  pose proof (get_lt eth_sub_slot i 16384 eq_refl eq_refl). pose proof (get_lt eth_port i 16384 eq_refl eq_refl).
  pose proof (get_lt eth_reserved i 16384 eq_refl eq_refl).
  unfold eth_numbers, numbers_small, small.
  destruct (get eth_sub_slot i =? 0), (get eth_reserved i =? 0); cbn [from_option]; repeat split; lia.
Qed.

Lemma eth_numbers_inj i j :
  u32_range i -> u32_range j -> get if_type i = get if_type j -> eth_numbers i = eth_numbers j -> i = j.
Proof.
  intros Hi Hj Ht E. unfold eth_numbers in E.
  destruct (Z.eqb_spec (get eth_sub_slot i) 0), (Z.eqb_spec (get eth_sub_slot j) 0),
    (Z.eqb_spec (get eth_reserved i) 0), (Z.eqb_spec (get eth_reserved j) 0);
    simplify_eq; apply eth_fields_inj; congruence || lia.
Qed.

(** ** Main results *)

(** C33: on each of the four board configurations the dense array index is a
    faithful name of the interface: for every array index below
    [MAX_SWITCHPORT_PER_SYSTEM], Ethernet, trunk, wireless or tunnel, the
    interface index made from it converts back to it, whatever the
    uninitialised word the wireless conversion starts from held. *)
Theorem array_index_roundtrip b stack k :
  b ∈ boards -> u32_range stack -> 0 <= k < MAX_SWITCHPORT_PER_SYSTEM b ->
  netif_array_index_from_ifindex b (u32 (netif_array_index_to_ifindex b stack k)) = k.
Proof.
  intros Hb Hs Hk. destruct (boards_layout b Hb) as (H1 & H2 & H3 & H4).
  destruct (decide (WIFI_BITMAP_START_PORT b <= k < TUNNEL_BITMAP_START_PORT b)) as [Hw|Hw].
  - unfold netif_array_index_to_ifindex.
    destruct (Z.ltb_spec k (MAX_ETHPORT_PER_SYSTEM b)); [lia|].
    destruct (Z.ltb_spec k (WIFI_BITMAP_START_PORT b)); [lia|].
    destruct (Z.ltb_spec k (TUNNEL_BITMAP_START_PORT b)); [|lia].
    apply wifi_roundtrip; (done || lia).
  - rewrite wired_no_stack by (done || lia). pose proof wired_roundtrip_all as H.
    rewrite Forall_forall in H. specialize (H b Hb). rewrite Forall_forall in H.
    destruct (H k) as [|E]; [apply elem_of_seqZ; lia|done|done].
Qed.

Lemma array_index_roundtrip_witness :
  netif_array_index_from_ifindex chassis_support
    (u32 (netif_array_index_to_ifindex chassis_support 0x1ffff 1200)) = 1200.
Proof.
  apply array_index_roundtrip.
  - unfold boards. rewrite !elem_of_cons. tauto.
  - vm_compute. split; congruence.
  - cbn. lia.
Defined.

(** every Ethernet port a board has (base-board ports below the
    sub-board range, four ports per sub-board) gets an array index below
    [MAX_ETHPORT_PER_SYSTEM] from which its interface index is recovered;
    two such ports never share a bitmap bit. *)
Theorem eth_array_index_injective b i j :
  b ∈ boards -> eth_canonical b i -> eth_canonical b j ->
  0 <= netif_array_index_from_ifindex b i < MAX_ETHPORT_PER_SYSTEM b /\
  netif_array_index_to_ifindex b 0 (netif_array_index_from_ifindex b i) = i /\
  (netif_array_index_from_ifindex b i = netif_array_index_from_ifindex b j -> i = j).
Proof.
  intros Hb Hi Hj. destruct (eth_canonical_roundtrip b i Hb Hi) as [Ri Ei].
  destruct (eth_canonical_roundtrip b j Hb Hj) as [Rj Ej]. split; [done|]. split.
  - unfold netif_array_index_to_ifindex.
    by destruct (Z.ltb_spec (netif_array_index_from_ifindex b i) (MAX_ETHPORT_PER_SYSTEM b)); [|lia].
  - intros E. rewrite <- Ei, <- Ej. by rewrite E.
Qed.

Lemma eth_array_index_injective_witness :
  netif_array_index_to_ifindex chassis_support 0
    (netif_array_index_from_ifindex chassis_support (eth_if 0 3 2 1 0)) = eth_if 0 3 2 1 0.
Proof.
  apply (eth_array_index_injective chassis_support (eth_if 0 3 2 1 0) (eth_if 0 0 0 0 0)).
  - unfold boards. rewrite !elem_of_cons. tauto.
  - split; try (vm_compute; (reflexivity || (split; congruence))). right. vm_compute. repeat split; congruence.
  - split; try (vm_compute; (reflexivity || (split; congruence))). left. vm_compute. split; congruence.
Defined.

(** On a chassis system, an Ethernet index generated from 1-based
    chassis, slot and port numbers and a sub-board number up to 3 is nonzero,
    and the accessors return exactly the numbers it was generated from; on a
    box the chassis and slot numbers land in the slot and sub-slot fields and
    come back from there. *)
Theorem generate_eth_index_fields b box c s m p r :
  b ∈ boards -> 1 <= c <= MAX_CHASSIS_COUNT b -> 1 <= s <= MAX_CHASSIS_SLOT_COUNT b ->
  0 <= m <= MAX_SLOT_SUBBOARD_COUNT b -> m <= 3 -> 1 <= p <= MAX_ETHPORT_PER_BOARD b ->
  1 <= r <= MAX_SUBPORT_PER_ETHPORT b -> (box = 1 -> s <= 3) ->
  let i := generate_eth_index b box c s m p r in
  i <> 0 /\ npd_netif_type_get i = NPD_NETIF_ETH_TYPE /\
  eth_port_get_chassis_by_ifindex box i = c - 1 /\
  eth_port_get_slot_by_ifindex box i = (if box =? 1 then s else s - 1) /\
  eth_port_get_subslot_by_ifindex box i = (if box =? 1 then -1 else m) /\
  eth_port_get_portno_by_ifindex i = p - 1 /\ npd_netif_eth_get_sub_port i = r - 1.
Proof.
  intros Hb Hc Hs Hm Hm3 Hp Hr Hbox i.
  assert (MAX_CHASSIS_COUNT b <= 4 /\ MAX_CHASSIS_SLOT_COUNT b <= 16 /\ MAX_ETHPORT_PER_BOARD b = 64 /\
          MAX_SUBPORT_PER_ETHPORT b <= 4) as (B1 & B2 & B3 & B4).
  { each_board Hb; cbn; lia. }
  unfold i, generate_eth_index, netif_system_is_box. clear i.
  repeat match goal with |- context [?x <? ?y] => destruct (Z.ltb_spec x y); [lia|] end.
  repeat match goal with |- context [?x <=? ?y] => destruct (Z.leb_spec x y); [lia|] end. cbn [orb].
  unfold npd_netif_type_get, eth_port_get_chassis_by_ifindex, eth_port_get_slot_by_ifindex,
    eth_port_get_subslot_by_ifindex, eth_port_get_portno_by_ifindex, npd_netif_eth_get_sub_port,
    netif_system_is_box.
  destruct (Z.eqb_spec box 1) as [Ebox|Ebox].
  - specialize (Hbox Ebox).
    destruct (eth_if_fields 0 (c - 1) s (p - 1) (r - 1)) as (E1 & E2 & E3 & E4 & E5 & E6 & _).
    split; [intros E; by rewrite E in E1|].
    rewrite E1, E3, E4, E5, E6, Z.eqb_refl, !Z.mod_small by lia. done.
  - destruct (eth_if_fields (c - 1) (s - 1) m (p - 1) (r - 1)) as (E1 & E2 & E3 & E4 & E5 & E6 & _).
    split; [intros E; by rewrite E in E1|].
    rewrite E1, E2, E3, E4, E5, E6, Z.eqb_refl, !Z.mod_small by lia. done.
Qed.

Lemma generate_eth_index_fields_witness :
  eth_port_get_slot_by_ifindex 0 (generate_eth_index chassis_support 0 1 5 2 3 1) = 5 - 1.
Proof.
  apply (generate_eth_index_fields chassis_support 0 1 5 2 3 1); try (cbn; lia).
  unfold boards. rewrite !elem_of_cons. tauto.
Defined.

(** [generate_eth_index] accepts the sub-board numbers 4 and 5 allowed
    by [MAX_SLOT_SUBBOARD_COUNT], which do not fit the two-bit field: the
    ports of sub-board 4 get the indexes of the base board. *)
Theorem subboard_four_aliases b box c s p r :
  b ∈ boards -> MAX_SLOT_SUBBOARD_COUNT b = 5 -> box <> 1 ->
  generate_eth_index b box c s 4 p r = generate_eth_index b box c s 0 p r.
Proof.
  intros _ H5 Hbox. unfold generate_eth_index, netif_system_is_box. rewrite H5.
  change ((4 <? 0) || (5 <? 4)) with false. change ((0 <? 0) || (5 <? 0)) with false.
  destruct (Z.eqb_spec box 1); [done|].
  assert (eth_if (c - 1) (s - 1) 4 (p - 1) (r - 1) = eth_if (c - 1) (s - 1) 0 (p - 1) (r - 1)) as ->; [|done].
  destruct (eth_if_fields (c - 1) (s - 1) 4 (p - 1) (r - 1)) as (E1 & E2 & E3 & E4 & E5 & E6 & R).
  destruct (eth_if_fields (c - 1) (s - 1) 0 (p - 1) (r - 1)) as (F1 & F2 & F3 & F4 & F5 & F6 & S).
  change (4 mod 4) with (0 mod 4) in E4. apply eth_fields_inj; congruence.
Qed.

Lemma subboard_four_aliases_witness :
  generate_eth_index chassis_support 0 1 1 4 1 1 = generate_eth_index chassis_support 0 1 1 0 1 1.
Proof.
  apply subboard_four_aliases; [unfold boards; rewrite !elem_of_cons; tauto|reflexivity|lia].
Defined.

(** the VLAN, trunk, tunnel, multicast-group and wireless indexes carry
    their type, and their accessors return the number they were made from
    whenever it fits the field; the wireless index is also recovered from its
    three components. *)
Theorem typed_index_accessors vid tid tun vidx wtp radio bss :
  0 <= vid < 4096 -> 0 <= tid < 4096 -> 0 <= tun < 1024 -> 0 <= vidx < 4096 ->
  0 <= wtp < 64 -> 0 <= radio < 4 -> 0 <= bss < 8 ->
  npd_netif_type_get (npd_netif_vlan_get_index vid) = NPD_NETIF_VLAN_TYPE /\
  npd_netif_vlan_get_vid (npd_netif_vlan_get_index vid) = vid /\
  npd_netif_type_get (npd_netif_trunk_get_index tid) = NPD_NETIF_TRUNK_TYPE /\
  npd_netif_trunk_get_tid (npd_netif_trunk_get_index tid) = tid /\
  npd_netif_type_get (npd_netif_tunnel_get_index tun) = NPD_NETIF_TUNNEL_TYPE /\
  npd_netif_tunnel_get_tunnelid (npd_netif_tunnel_get_index tun) = tun /\
  npd_netif_vidx_get_vidx (npd_netif_vidx_get_index vidx) = vidx /\
  let w := npd_netif_get_from_wtp_radio_bss wtp radio bss in
  npd_netif_wtpid_get w = wtp /\ npd_netif_local_radio_id_get w = radio /\
  npd_netif_local_bssindex_get w = bss /\
  npd_netif_get_bssindex w = (wtp * 4 + radio) * 8 + bss.
Proof.
  intros. unfold npd_netif_type_get, npd_netif_vlan_get_vid, npd_netif_trunk_get_tid,
    npd_netif_tunnel_get_tunnelid, npd_netif_vidx_get_vidx, npd_netif_wtpid_get,
    npd_netif_local_radio_id_get, npd_netif_local_bssindex_get, npd_netif_get_bssindex,
    npd_netif_vlan_get_index, npd_netif_trunk_get_index, npd_netif_tunnel_get_index,
    npd_netif_vidx_get_index, npd_netif_get_from_wtp_radio_bss.
  cbv zeta. fields.
  assert (forall x n, 0 <= x < n -> x mod n = x) as M by (intros; by apply Z.mod_small).
  repeat split; try reflexivity; rewrite ?M by done; reflexivity.
Qed.

Lemma typed_index_accessors_witness :
  npd_netif_vlan_get_vid (npd_netif_vlan_get_index 4094) = 4094.
Proof. apply (typed_index_accessors 4094 5 6 7 8 3 7); lia. Defined.

(** On a chassis system the interface name written by
    [npd_eth_index_to_name] identifies the port: two Ethernet indexes with the
    same name are the same index, with and without sub-board and sub-port. *)
Theorem eth_name_injective box i j :
  box <> 1 -> u32_range i -> u32_range j ->
  npd_netif_type_get i = NPD_NETIF_ETH_TYPE -> npd_netif_type_get j = NPD_NETIF_ETH_TYPE ->
  npd_eth_index_to_name box i true = npd_eth_index_to_name box j true -> i = j.
Proof.
  intros Hb Hi Hj Ti Tj E. rewrite !eth_name_text in E by done.
  assert (forall a b : cstr, (0, Some a) = (0, Some b) -> a = b) as Hinj by (intros; congruence).
  apply Hinj in E.
  apply eth_text_inj in E; auto using eth_numbers_small.
  apply eth_numbers_inj; unfold npd_netif_type_get in *; congruence.
Qed.

Lemma eth_name_injective_witness :
  npd_eth_index_to_name 0 (eth_if 0 2 1 3 0) true = (0, Some (lit "eth1_3_1_4")) /\
  eth_if 0 2 1 3 0 = eth_if 4 18 5 67 0.
Proof.
  split; [vm_compute; reflexivity|].
  apply (eth_name_injective 0); [lia|index_range|index_range|reflexivity|reflexivity|].
  vm_compute. reflexivity.
Defined.

(** [npd_netif_pbmp_group_entry_alloc] starts its search at
    [bit_alloc[portmax]], one past the end of the array the constructor
    allocated: the first allocation of any port in a new group reads outside
    of the heap block. *)
Theorem group_alloc_out_of_bounds port_num bit_length bit_class_len port :
  0 <= bit_class_len < bit_length -> 0 <= port < 128 ->
  exists g, npd_netif_pbmp_group_create port_num bit_length bit_class_len = (0, Some g) /\
    npd_netif_pbmp_group_entry_alloc g port = None.
Proof.
  intros Hl Hp. unfold npd_netif_pbmp_group_create. destruct (Z.ltb_spec bit_length bit_class_len); [lia|].
  eexists. split; [done|]. unfold npd_netif_pbmp_group_entry_alloc. destruct (Z.ltb_spec 128 port); [lia|].
  cbn [port_2_bit NetifIndex.bit_length NetifIndex.bit_class_len].
  assert (rd (replicate 128 minus1) port = Some minus1) as ->.
  { unfold rd. destruct (Z.leb_spec 0 port); [|lia]. apply lookup_replicate_2. lia. }
  cbn [mbind option_bind]. rewrite Z.eqb_refl. cbn [negb].
  set (n := group_size bit_length bit_class_len).
  assert (0 < n) by (unfold n, group_size; assert (0 < 2 ^ bit_class_len) by lia; nia).
  destruct (Z.to_nat n) as [|m] eqn:En; [lia|]. cbn [alloc_slot bit_alloc].
  assert (rd (replicate (S m) minus1) (Z.of_nat (S m)) = None) as ->; [|done].
  apply rd_None_ge. unfold zlen. rewrite length_replicate. lia.
Qed.

Lemma group_alloc_out_of_bounds_witness :
  exists g, npd_netif_pbmp_group_create 24 8 3 = (0, Some g) /\ npd_netif_pbmp_group_entry_alloc g 5 = None.
Proof. apply group_alloc_out_of_bounds; lia. Defined.

(** the class part and the port part of a group bit pattern are disjoint
    and make up the pattern, and two patterns are in the same class exactly
    when their class parts are equal. *)
Theorem group_class_split g bit1 bit2 :
  0 <= class_shift g < 32 -> u32_range bit1 -> u32_range bit2 ->
  Z.lor (npd_netif_pbmp_group_get_class_bit g bit1) (npd_netif_pbmp_group_get_port_bit g bit1) = bit1 /\
  Z.land (npd_netif_pbmp_group_get_class_bit g bit1) (npd_netif_pbmp_group_get_port_bit g bit1) = 0 /\
  (npd_netif_pbmp_group_same_class g bit1 bit2 = 1 <->
   npd_netif_pbmp_group_get_class_bit g bit1 = npd_netif_pbmp_group_get_class_bit g bit2).
Proof.
  intros Hw H1 H2. unfold npd_netif_pbmp_group_get_class_bit, npd_netif_pbmp_group_get_port_bit,
    npd_netif_pbmp_group_same_class. set (w := class_shift g) in *.
  assert (forall x i, u32_range x -> 0 <= i ->
    Z.testbit (shl32 (Z.shiftr x w) w) i = (w <=? i) && Z.testbit x i) as Hc.
  { intros x i Hx Hi. rewrite shl32_testbit by lia. destruct (Z.leb_spec w i).
    - rewrite Z.shiftr_spec by lia. replace (i - w + w) with i by lia.
      destruct (Z.ltb_spec i 32); [done|]. by rewrite (testbit_high 32 x) by (done || lia).
    - rewrite Z.testbit_neg_r by lia. apply andb_false_r. }
  split; [|split].
  - apply Z.bits_inj'. intros i Hi. rewrite Z.lor_spec, Hc by done. destruct (Z.leb_spec w i).
    + rewrite Z.mod_pow2_bits_high by lia. apply orb_false_r.
    + rewrite Z.mod_pow2_bits_low by lia. done.
  - apply Z.bits_inj'. intros i Hi. rewrite Z.land_spec, Hc, Z.bits_0 by done. destruct (Z.leb_spec w i).
    + rewrite Z.mod_pow2_bits_high by lia. apply andb_false_r.
    + done.
  - destruct (Z.eqb_spec (Z.shiftr bit1 w) (Z.shiftr bit2 w)) as [E|E].
    + split; [intros _; by rewrite E|done].
    + split; [done|]. intros F. destruct E. apply Z.bits_inj'. intros i Hi.
      rewrite !Z.shiftr_spec by lia. apply (f_equal (fun x => Z.testbit x (i + w))) in F.
      rewrite !Hc in F by (done || lia). by destruct (Z.leb_spec w (i + w)); [|lia].
Qed.

Lemma group_class_split_witness :
  let g := Group 24 8 3 [] [] [] in
  npd_netif_pbmp_group_same_class g 0x45 0x5f = 1 <->
  npd_netif_pbmp_group_get_class_bit g 0x45 = npd_netif_pbmp_group_get_class_bit g 0x5f.
Proof. apply group_class_split; vm_compute; split; congruence. Defined.
