(* ===== verification/PortList.v ===== *)
(** * VLAN and port lists as text

    Model of the second half of [src/src/npdsuit/lib/src/npd_bitarray.c]:
    [vbmp_2_vlanlist_str] and [pbmp_2_portlist_str], which print a bitmap as a
    list of ranges, and [vlanlist_str_2_vbmp] and [portlist_str_2_pbmp], the
    state machines that read such lists.  The readers get the bitmap by value;
    the models return the local copy next to the [int] result.  A write
    outside of a local array is [None]. *)

From Stdlib Require Import ZArith Lia Bool Ascii String.
From stdpp Require Import base decidable list sorting.
From S2P Require Import Prelude.
From S2P Require Import Bitarray.
From S2P Require Import Cstring.
From S2P Require Import NetifIndex.

Open Scope Z_scope.

Definition NPD_VBMP_VLAN_MAX : Z := 4096.

(** ** Printing VLAN lists *)

Definition run_str (s e : Z) : cstr :=
  if s =? e then fmt_d s else fmt_d s ++ lit "-" ++ fmt_d e.

(** The body of [NPD_VBMP_ITER]: the list holds the bits still to visit, the
    result is [start_vlan], [end_vlan] and [string] after the loop. *)
Fixpoint vlan_iter (vlans : list Z) (start_vlan end_vlan : Z) (string : cstr) : Z * Z * cstr :=
  match vlans with
  | [] => (start_vlan, end_vlan, string)
  | vlan :: vlans =>
      if 0 =? start_vlan then vlan_iter vlans vlan vlan string
      else if end_vlan + 1 <? vlan then
        let vlan_str := run_str start_vlan end_vlan ++ lit "," in
        if zlen string + zlen vlan_str <? 255
        then vlan_iter vlans vlan vlan (string ++ vlan_str)
        else (start_vlan, end_vlan, string)
      else vlan_iter vlans start_vlan (end_vlan + 1) string
  end.

(** [string] is the text already in the caller's buffer.  The final test
    looks at the terminating zero, so it never removes a comma. *)
Definition vbmp_2_vlanlist_str (bmp : list Z) (string : cstr) : option (Z * cstr) :=
  vlans ← npd_for_each_bit bmp (zlen bmp * 4 * NPD_BITS_PER_BYTE);
  let '(start_vlan, end_vlan, string) := vlan_iter vlans 0 0 string in
  if negb (0 =? start_vlan) then
    let vlan_str := run_str start_vlan end_vlan in
    Some (0, if zlen string + zlen vlan_str <? 255 then string ++ vlan_str else string)
  else Some (0, string).

(** ** Reading VLAN lists *)

Inductive vstate := STATE_VS | STATE_VE.

(** The local variables of the reader; [temp] is [digit_temp[0..temp_i)]. *)
Record vparse := VParse {
  v_state : vstate;
  v_temp : cstr;
  v_vlan_s : Z;
  v_iflist_i : Z;
  v_bmp : list Z
}.

(** How a step of a reader ends: go on, [goto error], or undefined. *)
Inductive outcome (S : Type) := Next (s : S) | Error (s : S) | Undefined.
Arguments Next {S} s.
Arguments Error {S} s.
Arguments Undefined {S}.

(** [vlan_list[iflist_i] = vid; NPD_VBMP_VLAN_ADD(bmp, vid); iflist_i++;] *)
Definition vlan_add (p : vparse) (vid : Z) : option vparse :=
  if v_iflist_i p <? NPD_VBMP_VLAN_MAX then
    bmp ← npd_bitarray_set_bit (v_bmp p) vid;
    Some (VParse (v_state p) (v_temp p) (v_vlan_s p) (v_iflist_i p + 1) bmp)
  else None.

(** The [for] loop of a range, [n] iterations from [i]. *)
Fixpoint vlan_range (n : nat) (i : Z) (p : vparse) : outcome vparse :=
  match n with
  | O => Next p
  | S n =>
      if (1 <? i) && (i <? 4096) then
        match vlan_add p i with
        | None => Undefined
        | Some p => if i =? 4095 then Error p else vlan_range n (i + 1) p
        end
      else vlan_range n (i + 1) p
  end.

Definition with_temp (p : vparse) (state : vstate) (temp : cstr) : vparse :=
  VParse state temp (v_vlan_s p) (v_iflist_i p) (v_bmp p).

Definition vlan_digit (p : vparse) (cToken : ascii) : outcome vparse :=
  let p := with_temp p (v_state p) (v_temp p ++ [cToken]) in
  if 5 <=? zlen (v_temp p) then Error p else Next p.

Definition vlan_vs (p : vparse) (cToken : ascii) : outcome vparse :=
  if isdigit cToken then vlan_digit p cToken
  else if Ascii.eqb cToken "," then
    if zlen (v_temp p) =? 0 then Error p
    else
      let vlan_s := strtoul10 (v_temp p) in
      let p := VParse STATE_VS (v_temp p) vlan_s (v_iflist_i p) (v_bmp p) in
      if (0 <? vlan_s) && (vlan_s <? 4095) then
        match vlan_add p vlan_s with
        | None => Undefined
        | Some p => Next (with_temp p STATE_VS [])
        end
      else Error p
  else if Ascii.eqb cToken "-" then
    if zlen (v_temp p) =? 0 then Error p
    else Next (VParse STATE_VE [] (strtoul10 (v_temp p)) (v_iflist_i p) (v_bmp p))
  else Error p.

(** Both branches of the source's test give [i_s = vlan_s], [i_e = vlan_e]. *)
Definition vlan_ve (p : vparse) (cToken : ascii) : outcome vparse :=
  if isdigit cToken then vlan_digit p cToken
  else if Ascii.eqb cToken "," then
    if zlen (v_temp p) =? 0 then Error p
    else
      let i_s := v_vlan_s p in
      let i_e := strtoul10 (v_temp p) in
      match vlan_range (Z.to_nat (i_e - i_s + 1)) i_s p with
      | Next p => Next (with_temp p STATE_VS [])
      | r => r
      end
  else Error p.

Definition vlan_step (p : vparse) (cToken : ascii) : outcome vparse :=
  match v_state p with STATE_VS => vlan_vs p cToken | STATE_VE => vlan_ve p cToken end.

(** [while (cToken != 0)] *)
Fixpoint run_steps {S} (step : S -> ascii -> outcome S) (s : S) (list : cstr) : outcome S :=
  match list with
  | [] => Next s
  | c :: list => match step s c with Next s => run_steps step s list | r => r end
  end.

Definition vlanlist_str_2_vbmp (string : cstr) (bmp : list Z) : option (Z * list Z) :=
  match run_steps vlan_step (VParse STATE_VS [] 0 0 bmp) (string ++ lit ",") with
  | Next p => Some (0, v_bmp p)
  | Error p => Some (-1, v_bmp p)
  | Undefined => None
  end.

(** ** Printing port lists *)

Section ports.
Context (b : board) (box : Z).

(** [parse_eth_index_to_name(eth_g_index, port_name)] with its result ignored:
    the buffer keeps its text when the index is not an Ethernet one. *)
Definition fill_name (port_name : cstr) (eth_g_index : Z) : cstr :=
  default port_name (parse_eth_index_to_name box (u32 eth_g_index) true).2.

Record pprint := PPrint {
  start_port : Z;
  end_port : Z;
  end_array_id : Z;
  port_name : cstr;
  port_string : cstr;
  out : cstr
}.

(** Append the pending range and [sep] to [port_string]. *)
Definition flush_range (p : pprint) (sep : cstr) : cstr * cstr :=
  let n1 := fill_name (port_name p) (start_port p) in
  if start_port p =? end_port p then (n1, port_string p ++ n1 ++ sep)
  else
    let n2 := fill_name n1 (end_port p) in
    (n2, port_string p ++ n1 ++ lit "-" ++ n2 ++ sep).

(** The body of [NPD_PBMP_ITER]; [stack] is the uninitialised word of the
    wireless conversion. *)
Definition port_iter_step (stack : Z) (p : pprint) (array_index : Z) : pprint :=
  let eth_g_index := netif_array_index_to_ifindex b stack array_index in
  if 0 =? start_port p
  then PPrint eth_g_index eth_g_index array_index (port_name p) (port_string p) (out p)
  else if (end_array_id p =? array_index - 1) &&
          (npd_netif_eth_get_slot box (u32 (end_port p)) =? npd_netif_eth_get_slot box (u32 eth_g_index))
  then PPrint (start_port p) eth_g_index array_index (port_name p) (port_string p) (out p)
  else
    let '(n, s) := flush_range p (lit ", ") in
    if zlen s + 15 <? 39 then PPrint eth_g_index eth_g_index array_index n s (out p)
    else PPrint eth_g_index eth_g_index array_index n [] (out p ++ s ++ [chr 10]).

Definition pbmp_2_portlist_str (stack : Z) (bmp : list Z) (string : cstr) : option (Z * cstr) :=
  ports ← npd_for_each_bit bmp (zlen bmp * 4 * NPD_BITS_PER_BYTE);
  let p := foldl (port_iter_step stack) (PPrint 0 0 0 [] [] string) ports in
  let string :=
    if start_port p =? 0 then out p
    else out p ++ (flush_range p []).2 ++ [chr 10] in
  Some (0, string ++ [chr 10]).

(** ** Reading port lists *)

Inductive pstate := STATE_S | STATE_SS | STATE_PS | STATE_PE.

Record pparse := PParse {
  p_state : pstate;
  p_temp : cstr;
  p_chassis : Z;
  p_slot : Z;
  p_sub_slot : Z;
  p_ulPortS : Z;
  p_iflist_i : Z;
  p_bmp : list Z
}.

Definition NPD_PBMP_PORT_MAX : Z := MAX_SWITCHPORT_PER_SYSTEM b.

Definition p_with (p : pparse) (state : pstate) (temp : cstr) : pparse :=
  PParse state temp (p_chassis p) (p_slot p) (p_sub_slot p) (p_ulPortS p) (p_iflist_i p) (p_bmp p).

(** Generate the index of port [i] ([char] arguments) and add its bit; the
    [int] array index becomes the [unsigned long] bit number. *)
Definition port_add (p : pparse) (sub_slot i : Z) : outcome pparse :=
  let ulIfindex := generate_eth_index b box (u8 (p_chassis p)) (u8 (p_slot p)) (u8 sub_slot) (u8 i) 1 in
  let r :=
    if ulIfindex =? 0 then Some p
    else
      bmp ← npd_bitarray_set_bit (p_bmp p) (u32 (netif_array_index_from_ifindex b ulIfindex));
      Some (PParse (p_state p) (p_temp p) (p_chassis p) (p_slot p) (p_sub_slot p) (p_ulPortS p)
              (p_iflist_i p + 1) bmp) in
  match r with
  | None => Undefined
  | Some p => if NPD_PBMP_PORT_MAX <=? p_iflist_i p then Error p else Next p
  end.

Definition port_digit (p : pparse) (cToken : ascii) : outcome pparse :=
  let p := p_with p (p_state p) (p_temp p ++ [cToken]) in
  if 11 <=? zlen (p_temp p) then Error p else Next p.

Definition port_s (p : pparse) (cToken : ascii) : outcome pparse :=
  if isdigit cToken then port_digit p cToken
  else if Ascii.eqb cToken "/" then
    if zlen (p_temp p) =? 0 then Error p
    else Next (PParse STATE_SS [] (strtoul10 (p_temp p)) (p_slot p) (p_sub_slot p) (p_ulPortS p)
                 (p_iflist_i p) (p_bmp p))
  else Error p.

Definition port_ss (p : pparse) (cToken : ascii) : outcome pparse :=
  if isdigit cToken then port_digit p cToken
  else if Ascii.eqb cToken "/" then
    if zlen (p_temp p) =? 0 then Error p
    else Next (PParse STATE_PS [] (p_chassis p) (strtoul10 (p_temp p)) (p_sub_slot p) (p_ulPortS p)
                 (p_iflist_i p) (p_bmp p))
  else if Ascii.eqb cToken "," then
    if zlen (p_temp p) =? 0 then Error p
    else
      let ulPortS := strtoul10 (p_temp p) in
      match port_add (PParse STATE_SS (p_temp p) 0 0 (p_sub_slot p) ulPortS (p_iflist_i p) (p_bmp p))
              0 ulPortS with
      | Next p => Next (p_with p STATE_S [])
      | r => r
      end
  else if Ascii.eqb cToken "-" then
    if zlen (p_temp p) =? 0 then Error p
    else Next (PParse STATE_PE [] 0 0 (p_sub_slot p) (strtoul10 (p_temp p)) (p_iflist_i p) (p_bmp p))
  else Error p.

Definition port_ps (p : pparse) (cToken : ascii) : outcome pparse :=
  if isdigit cToken then port_digit p cToken
  else if Ascii.eqb cToken "/" then
    if zlen (p_temp p) =? 0 then Error p
    else Next (PParse STATE_PS [] (p_chassis p) (p_slot p) (strtoul10 (p_temp p)) (p_ulPortS p)
                 (p_iflist_i p) (p_bmp p))
  else if Ascii.eqb cToken "," then
    if zlen (p_temp p) =? 0 then Error p
    else
      let ulPortS := strtoul10 (p_temp p) in
      match port_add (PParse STATE_PS (p_temp p) (p_chassis p) (p_slot p) (p_sub_slot p) ulPortS
                        (p_iflist_i p) (p_bmp p)) (p_sub_slot p) ulPortS with
      | Next p => Next (p_with p STATE_S [])
      | r => r
      end
  else if Ascii.eqb cToken "-" then
    if zlen (p_temp p) =? 0 then Error p
    else Next (PParse STATE_PE [] (p_chassis p) (p_slot p) (p_sub_slot p) (strtoul10 (p_temp p))
                 (p_iflist_i p) (p_bmp p))
  else Error p.

Fixpoint port_range (n : nat) (i : Z) (p : pparse) : outcome pparse :=
  match n with
  | O => Next p
  | S n => match port_add p (p_sub_slot p) i with Next p => port_range n (i + 1) p | r => r end
  end.

Definition port_pe (p : pparse) (cToken : ascii) : outcome pparse :=
  if isdigit cToken then port_digit p cToken
  else if Ascii.eqb cToken "," then
    if zlen (p_temp p) =? 0 then Error p
    else
      let ulPortE := strtoul10 (p_temp p) in
      let '(i_s, i_e) := if p_ulPortS p <? ulPortE then (p_ulPortS p, ulPortE) else (ulPortE, p_ulPortS p) in
      match port_range (Z.to_nat (i_e - i_s + 1)) i_s p with
      | Next p => Next (p_with p STATE_S [])
      | r => r
      end
  else Error p.

Definition port_step (p : pparse) (cToken : ascii) : outcome pparse :=
  match p_state p with
  | STATE_S => port_s p cToken
  | STATE_SS => port_ss p cToken
  | STATE_PS => port_ps p cToken
  | STATE_PE => port_pe p cToken
  end.

Definition portlist_str_2_pbmp (string : cstr) (bmp : list Z) : option (Z * list Z) :=
  match run_steps port_step (PParse STATE_S [] 0 0 0 0 0 bmp) (string ++ lit ",") with
  | Next p => Some (0, p_bmp p)
  | Error p => Some (-1, p_bmp p)
  | Undefined => None
  end.

End ports.

(** ** The VLAN list round trip *)

(** The maximal runs of a list of VLANs, the first one being [start, end]. *)
Fixpoint runs (start_vlan end_vlan : Z) (vlans : list Z) : list (Z * Z) :=
  match vlans with
  | [] => [(start_vlan, end_vlan)]
  | vlan :: vlans =>
      if end_vlan + 1 <? vlan then (start_vlan, end_vlan) :: runs vlan vlan vlans
      else runs start_vlan (end_vlan + 1) vlans
  end.

Definition runs_str (l : list (Z * Z)) : cstr :=
  match l with
  | [] => []
  | (s, e) :: l => run_str s e ++ concat ((fun r => lit "," ++ run_str r.1 r.2) <$> l)
  end.

(** Every text written is followed by a comma when it is read. *)
Definition runs_items (l : list (Z * Z)) : cstr := concat ((fun r => run_str r.1 r.2 ++ lit ",") <$> l).

Lemma runs_str_items l : l <> [] -> runs_str l ++ lit "," = runs_items l.
Proof.
  destruct l as [|[s e] l]; [done|]. intros _. unfold runs_str, runs_items.
  cbn [fmap list_fmap concat fst snd]. rewrite <- !app_assoc. f_equal.
  revert s e. induction l as [|[s' e'] l IH]; intros s e; [done|].
  cbn [fmap list_fmap concat fst snd]. rewrite <- !app_assoc. do 2 f_equal. by apply IH.
Qed.

Lemma runs_nonempty s e l : runs s e l <> [].
Proof. revert s e. induction l as [|v l IH]; intros s e; simpl; [done|]. destruct (_ <? _); [done|apply IH]. Qed.

(** The loop followed by its last range writes the runs, as long as the text
    stays within the buffer. *)
Lemma vlan_iter_runs vlans s e string :
  s <> 0 -> Forall (fun v => v <> 0) vlans -> zlen (string ++ runs_str (runs s e vlans)) < 255 ->
  exists s' e' string', vlan_iter vlans s e string = (s', e', string') /\ s' <> 0 /\
    string' ++ run_str s' e' = string ++ runs_str (runs s e vlans).
Proof.
  revert s e string. induction vlans as [|v vlans IH]; intros s e string Hs Hv Hl; cbn [vlan_iter runs] in *.
  { exists s, e, string. split; [done|]. split; [done|]. cbn [runs_str fmap list_fmap concat]. by rewrite app_nil_r. }
  apply Forall_cons in Hv as [Hv0 Hv]. destruct (Z.eqb_spec 0 s); [lia|].
  destruct (Z.ltb_spec (e + 1) v); [|by apply IH].
  assert (forall l, l <> [] -> runs_str ((s, e) :: l) = (run_str s e ++ lit ",") ++ runs_str l) as Hc.
  { intros l Hne. destruct l as [|[s' e'] l]; [done|]. unfold runs_str.
    cbn [fmap list_fmap concat fst snd]. by rewrite <- !app_assoc. }
  rewrite Hc in Hl by apply runs_nonempty.
  unfold zlen in *. rewrite !length_app in Hl.
  destruct (Z.ltb_spec (Z.of_nat (length string) + Z.of_nat (length (run_str s e ++ lit ","))) 255).
  - destruct (IH v v (string ++ (run_str s e ++ lit ","))) as (s' & e' & t & E & Hz & Ht); try done.
    + rewrite !length_app in *. lia.
    + exists s', e', t. split; [done|]. split; [done|].
      rewrite Ht, Hc by apply runs_nonempty. by rewrite <- !app_assoc.
  - rewrite !length_app in *. lia.
Qed.

(** Feeding the digits of a number of at most four digits. *)
Lemma vlan_digits p ds :
  all_digits ds -> zlen (v_temp p) + zlen ds <= 4 -> forall rest,
  run_steps vlan_step p (ds ++ rest) = run_steps vlan_step (with_temp p (v_state p) (v_temp p ++ ds)) rest.
Proof.
  intros Hd. revert p. induction Hd as [|c ds Hc Hd IH]; intros p Hl rest.
  - cbn [app]. rewrite app_nil_r. by destruct p.
  - cbn [app run_steps].
    assert (vlan_step p c = Next (with_temp p (v_state p) (v_temp p ++ [c]))) as ->.
    { unfold vlan_step, vlan_vs, vlan_ve, vlan_digit. rewrite Hc.
      assert ((5 <=? zlen (v_temp (with_temp p (v_state p) (v_temp p ++ [c])))) = false) as ->;
        [|by destruct (v_state p)].
      apply Z.leb_gt. cbn [v_temp with_temp]. unfold zlen in *. rewrite length_app. simpl in *. lia. }
    rewrite IH; [cbn [v_temp v_state with_temp v_vlan_s v_iflist_i v_bmp]; by rewrite <- app_assoc|].
    cbn [v_temp with_temp]. unfold zlen in *. rewrite length_app. simpl in *. lia.
Qed.

Definition in_run (x : Z) (r : Z * Z) : bool := (r.1 <=? x) && (x <=? r.2).
Definition in_runs (x : Z) (l : list (Z * Z)) : bool := existsb (in_run x) l.
Definition run_size (r : Z * Z) : Z := r.2 - r.1 + 1.
Definition runs_size (l : list (Z * Z)) : Z := foldr (fun r n => run_size r + n) 0 l.

(** A run of VLANs that can be listed. *)
Definition run_ok (r : Z * Z) : Prop := 2 <= r.1 <= r.2 /\ r.2 <= 4094.

Lemma runs_spec s e l :
  2 <= s <= e -> Forall (fun v => e < v <= 4094) l -> StronglySorted Z.lt l -> e <= 4094 ->
  Forall run_ok (runs s e l) /\
  (forall x, in_runs x (runs s e l) = true <-> s <= x <= e \/ x ∈ l) /\
  runs_size (runs s e l) = e - s + 1 + zlen l.
Proof.
  revert s e. induction l as [|v l IH]; intros s e Hs Hl Hsort He; cbn [runs].
  - split; [constructor; [unfold run_ok; simpl; lia|constructor]|]. split; [|unfold runs_size, run_size, zlen; simpl; lia].
    intros x. unfold in_runs, in_run. simpl. rewrite orb_false_r, andb_true_iff, !Z.leb_le, elem_of_nil. tauto.
  - apply Forall_cons in Hl as [Hv Hl]. inversion Hsort as [|? ? Hsort' Hlt]; subst.
    assert (Forall (fun w => v < w <= 4094) l) as Hl'.
    { rewrite Forall_forall in *. intros w Hw. specialize (Hl w Hw). specialize (Hlt w Hw). lia. }
    unfold zlen in *. cbn [length]. destruct (Z.ltb_spec (e + 1) v).
    + destruct (IH v v) as (H1 & H2 & H3); [lia|done|done|lia|].
      split; [constructor; [unfold run_ok; simpl; lia|done]|]. split.
      * intros x. unfold in_runs in *. cbn [existsb]. rewrite orb_true_iff, H2, elem_of_cons. unfold in_run. simpl.
        rewrite andb_true_iff, !Z.leb_le. assert (v <= x <= v <-> x = v) by lia. tauto.
      * cbn [runs_size foldr]. unfold runs_size in H3. rewrite H3. unfold run_size. simpl. lia.
    + assert (v = e + 1) as -> by lia. destruct (IH s (e + 1)) as (H1 & H2 & H3); [lia|done|done|lia|].
      split; [done|]. split; [|lia]. intros x. rewrite H2, elem_of_cons.
      assert (s <= x <= e + 1 <-> s <= x <= e \/ x = e + 1) by lia. tauto.
Qed.

(** The reader has consumed its items: no pending digits, bitmap intact. *)
Record vready (p : vparse) : Prop := {
  vr_state : v_state p = STATE_VS;
  vr_temp : v_temp p = [];
  vr_bmp : wf_bits (v_bmp p) 4096;
  vr_i : 0 <= v_iflist_i p
}.

Lemma vlan_add_spec p vid :
  wf_bits (v_bmp p) 4096 -> 0 <= vid < 4096 -> v_iflist_i p < 4096 ->
  exists bmp, vlan_add p vid = Some (VParse (v_state p) (v_temp p) (v_vlan_s p) (v_iflist_i p + 1) bmp) /\
    wf_bits bmp 4096 /\ forall x, bit_at bmp x = (x =? vid) || bit_at (v_bmp p) x.
Proof.
  intros Hw Hv Hi. unfold vlan_add, NPD_VBMP_VLAN_MAX. destruct (Z.ltb_spec (v_iflist_i p) 4096); [|lia].
  destruct (set_bit_spec (v_bmp p) 4096 vid Hw Hv) as (bmp & -> & Hw' & Hb). simpl. eauto.
Qed.

Lemma vlan_range_spec n i p :
  wf_bits (v_bmp p) 4096 -> 2 <= i -> i + Z.of_nat n <= 4095 -> v_iflist_i p + Z.of_nat n <= 4096 ->
  exists bmp, vlan_range n i p =
      Next (VParse (v_state p) (v_temp p) (v_vlan_s p) (v_iflist_i p + Z.of_nat n) bmp) /\
    wf_bits bmp 4096 /\ forall x, bit_at bmp x = in_run x (i, i + Z.of_nat n - 1) || bit_at (v_bmp p) x.
Proof.
  revert i p. induction n as [|n IH]; intros i p Hw Hi Hn Hl; cbn [vlan_range].
  - exists (v_bmp p). rewrite Z.add_0_r. split; [by destruct p|]. split; [done|]. intros x. unfold in_run. simpl.
    destruct (Z.leb_spec i x), (Z.leb_spec x (i + Z.of_nat 0 - 1)); try lia; done.
  - destruct (Z.ltb_spec 1 i), (Z.ltb_spec i 4096); try lia. cbn [andb].
    destruct (vlan_add_spec p i Hw) as (bmp & -> & Hw' & Hb); [lia..|].
    destruct (Z.eqb_spec i 4095); [lia|].
    edestruct (IH (i + 1) (VParse (v_state p) (v_temp p) (v_vlan_s p) (v_iflist_i p + 1) bmp))
      as (bmp' & -> & Hw'' & Hb'); cbn [v_bmp v_iflist_i]; try done; [lia..|].
    exists bmp'. cbn [v_state v_temp v_vlan_s v_iflist_i]. split; [do 2 f_equal; lia|]. split; [done|].
    intros x. rewrite Hb'. cbn [v_bmp]. rewrite Hb. unfold in_run. simpl.
    destruct (Z.eqb_spec x i), (Z.leb_spec i x), (Z.leb_spec (i + 1) x),
      (Z.leb_spec x (i + 1 + Z.of_nat n - 1)), (Z.leb_spec x (i + Z.of_nat (S n) - 1)); try lia; done.
Qed.

Lemma dec_zlen n : 0 <= n < 10000 -> 1 <= zlen (dec n) <= 4.
Proof.
  intros Hn. pose proof (dec_length n 4 ltac:(lia) Hn). unfold zlen.
  pose proof (dec_nonempty n). destruct (dec n); [done|]. simpl in *. lia.
Qed.

(** Reading a number: its digits are pending when its separator comes. *)
Lemma vlan_number st vs k bmp n c rest :
  0 <= n < 10000 ->
  run_steps vlan_step (VParse st [] vs k bmp) (fmt_d n ++ c :: rest) =
  match vlan_step (VParse st (dec n) vs k bmp) c with
  | Next p => run_steps vlan_step p rest | r => r end.
Proof.
  intros Hn. pose proof (dec_zlen n Hn). rewrite fmt_d_dec by (unfold small; lia).
  rewrite vlan_digits by (apply dec_digits || (cbn [v_temp]; unfold zlen in *; simpl; lia)). done.
Qed.

Lemma vlan_comma_single vs k bmp s :
  wf_bits bmp 4096 -> 2 <= s <= 4094 -> 0 <= k < 4096 ->
  exists bmp', vlan_step (VParse STATE_VS (dec s) vs k bmp) "," = Next (VParse STATE_VS [] s (k + 1) bmp') /\
    wf_bits bmp' 4096 /\ forall x, bit_at bmp' x = in_run x (s, s) || bit_at bmp x.
Proof.
  intros Hw Hs Hk. pose proof (dec_zlen s ltac:(lia)). unfold vlan_step. cbn [v_state]. unfold vlan_vs.
  change (isdigit ",") with false. change (Ascii.eqb "," ",") with true. cbn iota. cbn [v_temp v_iflist_i v_bmp].
  destruct (Z.eqb_spec (zlen (dec s)) 0); [lia|]. rewrite strtoul_dec by lia.
  destruct (Z.ltb_spec 0 s), (Z.ltb_spec s 4095); try lia. cbn [andb].
  destruct (vlan_add_spec (VParse STATE_VS (dec s) s k bmp) s) as (bmp' & -> & Hw' & Hb);
    cbn [v_bmp v_iflist_i]; [done|lia|lia|].
  exists bmp'. split; [done|]. split; [done|]. intros x. rewrite Hb. cbn [v_bmp]. unfold in_run. simpl.
  destruct (Z.eqb_spec x s), (Z.leb_spec s x), (Z.leb_spec x s); try lia; done.
Qed.

Lemma vlan_comma_range s k bmp e :
  wf_bits bmp 4096 -> 2 <= s <= e -> e <= 4094 -> k + run_size (s, e) <= 4096 ->
  exists bmp', vlan_step (VParse STATE_VE (dec e) s k bmp) "," =
      Next (VParse STATE_VS [] s (k + run_size (s, e)) bmp') /\
    wf_bits bmp' 4096 /\ forall x, bit_at bmp' x = in_run x (s, e) || bit_at bmp x.
Proof.
  unfold run_size. cbn [fst snd].
  intros Hw Hs He Hk. pose proof (dec_zlen e ltac:(lia)). unfold vlan_step. cbn [v_state]. unfold vlan_ve.
  change (isdigit ",") with false. change (Ascii.eqb "," ",") with true. cbn iota. cbn [v_temp v_vlan_s].
  destruct (Z.eqb_spec (zlen (dec e)) 0); [lia|]. rewrite strtoul_dec by lia.
  destruct (vlan_range_spec (Z.to_nat (e - s + 1)) s (VParse STATE_VE (dec e) s k bmp))
    as (bmp' & -> & Hw' & Hb); cbn [v_bmp v_iflist_i]; [done|lia..|].
  exists bmp'. split; [unfold with_temp; cbn [v_vlan_s v_iflist_i v_bmp]; do 2 f_equal; lia|]. split; [done|].
  intros x. rewrite Hb. cbn [v_bmp]. by replace (s + Z.of_nat (Z.to_nat (e - s + 1)) - 1) with e by lia.
Qed.

(** Reading one item and its comma. *)
Lemma vlan_item p r rest :
  vready p -> run_ok r -> v_iflist_i p + run_size r <= 4096 ->
  exists p', run_steps vlan_step p ((run_str r.1 r.2 ++ lit ",") ++ rest) = run_steps vlan_step p' rest /\
    vready p' /\ v_iflist_i p' = v_iflist_i p + run_size r /\
    forall x, bit_at (v_bmp p') x = in_run x r || bit_at (v_bmp p) x.
Proof.
  destruct r as [s e], p as [st temp vs k bmp]. intros [Hst Htm Hw Hk] [Hse He] Hsz.
  cbn [v_state v_temp v_bmp v_iflist_i fst snd] in *. subst st temp. unfold run_str.
  destruct (Z.eqb_spec s e) as [<-|Hne]; rewrite <- !app_assoc; cbn [lit list_ascii_of_string app].
  - unfold run_size in *. cbn [fst snd] in *. rewrite vlan_number by lia.
    destruct (vlan_comma_single vs k bmp s) as (bmp' & -> & Hw' & Hb); [done|lia|lia|].
    eexists. split; [done|]. cbn [v_iflist_i v_bmp]. split; [split; cbn; (done || lia)|]. split; [lia|done].
  - rewrite vlan_number by lia.
    assert (vlan_step (VParse STATE_VS (dec s) vs k bmp) "-" = Next (VParse STATE_VE [] s k bmp)) as ->.
    { pose proof (dec_zlen s ltac:(lia)). unfold vlan_step. cbn [v_state]. unfold vlan_vs.
      change (isdigit "-") with false. change (Ascii.eqb "-" ",") with false.
      change (Ascii.eqb "-" "-") with true. cbn iota. cbn [v_temp v_iflist_i v_bmp].
      destruct (Z.eqb_spec (zlen (dec s)) 0); [lia|]. by rewrite strtoul_dec by lia. }
    rewrite vlan_number by lia.
    destruct (vlan_comma_range s k bmp e) as (bmp' & -> & Hw' & Hb); [done|lia|lia|done|].
    eexists. split; [done|]. cbn [v_iflist_i v_bmp].
    split; [split; cbn [v_state v_temp v_bmp v_iflist_i]; try done|done].
    unfold run_size. cbn [fst snd]. lia.
Qed.

Lemma vlan_items l p :
  vready p -> Forall run_ok l -> v_iflist_i p + runs_size l <= 4096 ->
  exists p', run_steps vlan_step p (runs_items l) = Next p' /\ vready p' /\
    forall x, bit_at (v_bmp p') x = in_runs x l || bit_at (v_bmp p) x.
Proof.
  revert p. induction l as [|r l IH]; intros p Hp Hl Hs.
  - exists p. by split; [|split].
  - apply Forall_cons in Hl as [Hr Hl]. cbn [runs_size foldr] in Hs.
    assert (0 <= foldr (fun r n => run_size r + n) 0 l) as H0.
    { clear -Hl. induction Hl as [|r l [? ?] _ IH]; simpl; [lia|]. unfold run_size in *. lia. }
    unfold runs_items. cbn [fmap list_fmap concat].
    destruct (vlan_item p r (runs_items l) Hp Hr) as (p1 & E & Hp1 & Hi1 & Hb1); [lia|].
    unfold runs_items in E. rewrite E.
    destruct (IH p1 Hp1 Hl) as (p2 & E2 & Hp2 & Hb2); [unfold runs_size; lia|].
    exists p2. split; [exact E2|]. split; [done|]. intros x. rewrite Hb2, Hb1. unfold in_runs. cbn [existsb].
    by destruct (in_run x r), (existsb (in_run x) l).
Qed.

(** A VLAN bitmap whose members are ordinary VLANs. *)
Record vlan_bitmap (bmp : list Z) : Prop := {
  vb_wf : wf_bits bmp 4096;
  vb_len : zlen bmp = 128;
  vb_members : forall i, 0 <= i < 4096 -> bit_at bmp i = true -> 2 <= i <= 4094
}.

(** The runs of the members, and the whole text without the buffer limit. *)
Definition bitmap_runs (bmp : list Z) : list (Z * Z) :=
  match members (bit_at bmp) 0 4096 with v :: l => runs v v l | [] => [] end.
Definition vlan_text (bmp : list Z) : cstr := runs_str (bitmap_runs bmp).

Lemma bitmap_runs_spec bmp :
  vlan_bitmap bmp ->
  Forall run_ok (bitmap_runs bmp) /\ runs_size (bitmap_runs bmp) <= 4096 /\
  forall x, 0 <= x < 4096 -> in_runs x (bitmap_runs bmp) = bit_at bmp x.
Proof.
  intros [Hw Hlen Hmem]. unfold bitmap_runs.
  assert (forall i, i ∈ members (bit_at bmp) 0 4096 <-> 0 <= i < 4096 /\ bit_at bmp i = true) as Hin.
  { intros i. unfold members. rewrite list_elem_of_filter, elem_of_seqZ. split; intros [? ?]; split; (done || lia). }
  pose proof (members_sorted (bit_at bmp) 0 4096) as Hsort.
  assert (zlen (members (bit_at bmp) 0 4096) <= 4096) as Hsz.
  { unfold zlen, members. etrans; [apply inj_le, length_filter|]. by rewrite length_seqZ. }
  destruct (members (bit_at bmp) 0 4096) as [|v l].
  { split; [constructor|]. split; [done|]. intros x Hx. destruct (bit_at bmp x) eqn:E; [|done].
    assert (x ∈ @nil Z) as Hi by (by apply Hin). by apply elem_of_nil in Hi. }
  assert (Forall (fun w => 2 <= w <= 4094) (v :: l)) as Hall.
  { apply Forall_forall. intros w Hwl. apply Hin in Hwl as [? ?]. by apply Hmem. }
  inversion Hsort as [|? ? Hsl Hlt]; subst. apply Forall_cons in Hall as [Hv Hall].
  destruct (runs_spec v v l) as (Hok & Hcov & Hs); try done; [lia| |lia|].
  { rewrite Forall_forall in *. intros w Hwl. specialize (Hlt w Hwl). specialize (Hall w Hwl). lia. }
  split; [done|]. split; [unfold zlen in *; cbn [length] in *; lia|].
  intros x Hx. apply eq_true_iff_eq. rewrite Hcov. specialize (Hin x). rewrite elem_of_cons in Hin.
  assert (v <= x <= v <-> x = v) by lia. tauto.
Qed.

Lemma vlanlist_print bmp :
  vlan_bitmap bmp -> zlen (vlan_text bmp) < 255 ->
  vbmp_2_vlanlist_str bmp [] = Some (0, vlan_text bmp).
Proof.
  intros [Hw Hlen Hmem] Hfit. unfold vbmp_2_vlanlist_str, vlan_text, bitmap_runs in *. rewrite Hlen.
  change (128 * 4 * NPD_BITS_PER_BYTE) with 4096. rewrite for_each_bit_spec by done. cbn [mbind option_bind].
  assert (Forall (fun w => w <> 0) (members (bit_at bmp) 0 4096)) as Hall.
  { apply Forall_forall. intros i. unfold members. rewrite list_elem_of_filter, elem_of_seqZ.
    intros [Hb Hi]. specialize (Hmem i ltac:(lia) Hb). lia. }
  destruct (members (bit_at bmp) 0 4096) as [|v l]; [done|]. apply Forall_cons in Hall as [Hv Hall].
  cbn [vlan_iter]. change (0 =? 0) with true. cbn iota.
  destruct (vlan_iter_runs l v v []) as (s' & e' & t & -> & Hs' & Ht); [done|done|done|].
  destruct (Z.eqb_spec 0 s'); [lia|]. cbn [negb app] in *.
  assert (zlen t + zlen (run_str s' e') < 255) as Hfit'.
  { rewrite <- Ht in Hfit. unfold zlen in *. rewrite length_app in Hfit. lia. }
  destruct (Z.ltb_spec (zlen t + zlen (run_str s' e')) 255); [|lia]. by rewrite Ht.
Qed.

Lemma vlanlist_read bmp bmp2 :
  vlan_bitmap bmp -> wf_bits bmp2 4096 -> bitmap_runs bmp <> [] ->
  exists bmp', vlanlist_str_2_vbmp (vlan_text bmp) bmp2 = Some (0, bmp') /\
    forall i, 0 <= i < 4096 -> bit_at bmp' i = bit_at bmp i || bit_at bmp2 i.
Proof.
  intros Hv Hw2 Hne. destruct (bitmap_runs_spec bmp Hv) as (Hok & Hsz & Hcov).
  unfold vlanlist_str_2_vbmp, vlan_text. rewrite runs_str_items by done.
  destruct (vlan_items (bitmap_runs bmp) (VParse STATE_VS [] 0 0 bmp2)) as (p & -> & _ & Hb);
    [by split|done|cbn [v_iflist_i]; lia|].
  exists (v_bmp p). split; [done|]. intros i Hi. by rewrite Hb, Hcov.
Qed.

(** ** Port list items *)

Lemma port_number b box p n c rest :
  p_temp p = [] -> 0 <= n < 10000 ->
  run_steps (port_step b box) p (fmt_d n ++ c :: rest) =
  match port_step b box (p_with p (p_state p) (dec n)) c with
  | Next p => run_steps (port_step b box) p rest | r => r end.
Proof.
  intros Ht Hn. pose proof (dec_zlen n Hn) as Hl. rewrite fmt_d_dec by (unfold small; lia).
  assert (forall ds t, all_digits ds -> zlen t + zlen ds <= 10 ->
    run_steps (port_step b box) (p_with p (p_state p) t) (ds ++ c :: rest) =
    run_steps (port_step b box) (p_with p (p_state p) (t ++ ds)) (c :: rest)) as H.
  { intros ds t Hd. revert t. induction Hd as [|d ds Hdg Hd IH]; intros t Hz; [by rewrite app_nil_r|].
    cbn [app run_steps]. unfold zlen in *. cbn [length] in *.
    assert (port_step b box (p_with p (p_state p) t) d = Next (p_with p (p_state p) (t ++ [d]))) as ->.
    { unfold port_step, port_s, port_ss, port_ps, port_pe, port_digit. rewrite Hdg. cbn [p_state p_with p_temp].
      assert ((11 <=? zlen (t ++ [d])) = false) as ->; [|by destruct (p_state p)].
      apply Z.leb_gt. unfold zlen. rewrite length_app. simpl. lia. }
    rewrite IH by (rewrite length_app; simpl; lia). by rewrite <- app_assoc. }
  specialize (H (dec n) [] (dec_digits n) ltac:(unfold zlen in *; simpl; lia)).
  cbn [app] in H. assert (p_with p (p_state p) [] = p) as E by (rewrite <- Ht; by destruct p).
  rewrite E in H. rewrite H. done.
Qed.

(** Facts on the constants of a board. *)
Lemma board_facts b :
  b ∈ boards ->
  1 <= MAX_CHASSIS_COUNT b <= 4 /\ 1 <= MAX_CHASSIS_SLOT_COUNT b <= 16 /\
  0 <= MAX_SLOT_SUBBOARD_COUNT b /\ MAX_ETHPORT_PER_BOARD b = 64 /\
  1 <= MAX_SUBPORT_PER_ETHPORT b <= 4 /\
  MAX_CHASSIS_COUNT b * (MAX_CHASSIS_SLOT_COUNT b * (64 * MAX_SUBPORT_PER_ETHPORT b))
    <= MAX_ETHPORT_PER_SYSTEM b /\
  MAX_ETHPORT_PER_SYSTEM b + 8 <= MAX_SWITCHPORT_PER_SYSTEM b <= 5120 /\
  72 <= MAX_SWITCHPORT_PER_SYSTEM b.
Proof. intros Hb. each_board Hb; cbn; lia. Qed.

(** The bit of port [p] of the base board of slot [s] of chassis [c]. *)
Definition port_bit (b : board) (c s p : Z) : Z :=
  ((c - 1) * MAX_CHASSIS_SLOT_COUNT b + (s - 1)) * (64 * MAX_SUBPORT_PER_ETHPORT b)
  + (p - 1) * MAX_SUBPORT_PER_ETHPORT b.

Definition slot_ok (b : board) (c s : Z) : Prop :=
  1 <= c <= MAX_CHASSIS_COUNT b /\ 1 <= s <= MAX_CHASSIS_SLOT_COUNT b.

Lemma port_bit_range b c s p :
  b ∈ boards -> slot_ok b c s -> 1 <= p <= 64 -> 0 <= port_bit b c s p < MAX_SWITCHPORT_PER_SYSTEM b - 8.
Proof.
  intros Hb [Hc Hs] Hp. destruct (board_facts b Hb) as (B1 & B2 & _ & _ & B5 & B6 & B7). unfold port_bit.
  set (S := MAX_CHASSIS_SLOT_COUNT b) in *. set (C := MAX_CHASSIS_COUNT b) in *.
  set (U := MAX_SUBPORT_PER_ETHPORT b) in *.
  assert (0 <= (c - 1) * S + (s - 1) <= C * S - 1) by nia.
  assert (0 <= (p - 1) * U <= 63 * U) by nia. nia.
Qed.

Lemma port_index b box c s p :
  b ∈ boards -> box <> 1 -> slot_ok b c s -> 1 <= p <= 64 ->
  let i := generate_eth_index b box c s 0 p 1 in
  i <> 0 /\ netif_array_index_from_ifindex b i = port_bit b c s p.
Proof.
  intros Hb Hbox Hcs Hp. pose proof (port_bit_range b c s p Hb Hcs Hp) as Hr. destruct Hcs as [Hc Hs].
  destruct (board_facts b Hb) as (B1 & B2 & B3 & B4 & B5 & B6 & B7).
  unfold generate_eth_index, netif_system_is_box.
  repeat match goal with |- context [?x <? ?y] => destruct (Z.ltb_spec x y); [lia|] end.
  repeat match goal with |- context [?x <=? ?y] => destruct (Z.leb_spec x y); [lia|] end. cbn [orb].
  destruct (Z.eqb_spec box 1); [done|]. split.
  - destruct (eth_if_fields (c - 1) (s - 1) 0 (p - 1) (1 - 1)) as (E1 & _). intros E. by rewrite E in E1.
  - rewrite eth_from_fields by lia. change (0 =? 0) with true. cbn iota. rewrite B4.
    assert ((c - 1) * MAX_CHASSIS_SLOT_COUNT b * (64 * MAX_SUBPORT_PER_ETHPORT b) +
      (s - 1) * (64 * MAX_SUBPORT_PER_ETHPORT b) + ((p - 1) * MAX_SUBPORT_PER_ETHPORT b + (1 - 1)) =
      port_bit b c s p) as -> by (unfold port_bit; ring).
    apply s32_small. lia.
Qed.

Lemma port_add_spec b box p i :
  b ∈ boards -> box <> 1 -> slot_ok b (p_chassis p) (p_slot p) -> 1 <= i <= 64 ->
  wf_bits (p_bmp p) (MAX_SWITCHPORT_PER_SYSTEM b) -> 0 <= p_iflist_i p ->
  p_iflist_i p + 1 < MAX_SWITCHPORT_PER_SYSTEM b ->
  exists bmp, port_add b box p 0 i =
      Next (PParse (p_state p) (p_temp p) (p_chassis p) (p_slot p) (p_sub_slot p) (p_ulPortS p)
              (p_iflist_i p + 1) bmp) /\
    wf_bits bmp (MAX_SWITCHPORT_PER_SYSTEM b) /\
    forall x, bit_at bmp x = (x =? port_bit b (p_chassis p) (p_slot p) i) || bit_at (p_bmp p) x.
Proof.
  intros Hb Hbox Hcs Hi Hw Hk Hk'. destruct (board_facts b Hb) as (B1 & B2 & _ & _ & _ & _ & B7).
  pose proof (port_bit_range b _ _ i Hb Hcs Hi) as Hr.
  destruct (port_index b box _ _ i Hb Hbox Hcs Hi) as [Hne Hidx]. destruct Hcs as [Hc Hs].
  unfold port_add. assert (forall x, 0 <= x < 256 -> u8 x = x) as Hu8 by (intros; by apply wrap_small).
  rewrite !Hu8 by lia. change (u8 0) with 0. rewrite Hidx.
  destruct (Z.eqb_spec (generate_eth_index b box (p_chassis p) (p_slot p) 0 i 1) 0); [done|].
  rewrite u32_small by (unfold u32_range; lia).
  destruct (set_bit_spec (p_bmp p) _ (port_bit b (p_chassis p) (p_slot p) i) Hw) as (bmp & -> & Hw' & Hbit); [lia|].
  cbn [mbind option_bind]. unfold NPD_PBMP_PORT_MAX. cbn [p_iflist_i].
  destruct (Z.leb_spec (MAX_SWITCHPORT_PER_SYSTEM b) (p_iflist_i p + 1)); [lia|]. eauto.
Qed.

Lemma port_range_spec b box n i p :
  b ∈ boards -> box <> 1 -> slot_ok b (p_chassis p) (p_slot p) -> p_sub_slot p = 0 ->
  1 <= i -> i + Z.of_nat n <= 65 ->
  wf_bits (p_bmp p) (MAX_SWITCHPORT_PER_SYSTEM b) -> 0 <= p_iflist_i p ->
  p_iflist_i p + Z.of_nat n < MAX_SWITCHPORT_PER_SYSTEM b ->
  exists bmp, port_range b box n i p =
      Next (PParse (p_state p) (p_temp p) (p_chassis p) (p_slot p) (p_sub_slot p) (p_ulPortS p)
              (p_iflist_i p + Z.of_nat n) bmp) /\
    wf_bits bmp (MAX_SWITCHPORT_PER_SYSTEM b) /\
    forall x, bit_at bmp x = true <->
      (exists k, i <= k < i + Z.of_nat n /\ x = port_bit b (p_chassis p) (p_slot p) k) \/ bit_at (p_bmp p) x = true.
Proof.
  intros Hb Hbox. revert i p. induction n as [|n IH]; intros i p Hcs Hss Hi Hn Hw Hk Hk'; cbn [port_range].
  - exists (p_bmp p). rewrite Z.add_0_r. split; [by destruct p|]. split; [done|]. intros x.
    split; [by right|]. intros [(k & ? & _)|]; [lia|done].
  - destruct (port_add_spec b box p i) as (bmp & E & Hw' & Hbit); try done; [lia..|].
    replace (port_add b box p (p_sub_slot p) i) with (port_add b box p 0 i) by (by rewrite Hss). rewrite E.
    edestruct (IH (i + 1) (PParse (p_state p) (p_temp p) (p_chassis p) (p_slot p) (p_sub_slot p) (p_ulPortS p)
              (p_iflist_i p + 1) bmp)) as (bmp' & E' & Hw'' & Hbit'); cbn [p_chassis p_slot p_sub_slot p_bmp p_iflist_i];
      try done; [lia..|].
    exists bmp'. rewrite E'. cbn [p_state p_temp p_chassis p_slot p_sub_slot p_ulPortS p_iflist_i].
    split; [do 2 f_equal; lia|]. split; [done|]. intros x. rewrite Hbit'. cbn [p_chassis p_slot p_bmp].
    rewrite Hbit, orb_true_iff, Z.eqb_eq. split.
    + intros [(k & Hkr & ->)|[->|?]]; [left; exists k; split; [lia|done]|left; exists i; split; [lia|done]|by right].
    + intros [(k & Hkr & ->)|?]; [|by right; right]. destruct (decide (k = i)) as [->|]; [by right; left|].
      left. exists k. split; [lia|done].
Qed.

(** The token steps used by a ["c/s/p1-p2,"] item. *)
Lemma port_tokens b box c s p1 bmp :
  0 <= c < 10000 -> 0 <= s < 10000 -> 0 <= p1 < 10000 ->
  port_step b box (PParse STATE_S (dec c) 0 0 0 0 0 bmp) "/" = Next (PParse STATE_SS [] c 0 0 0 0 bmp) /\
  port_step b box (PParse STATE_SS (dec s) c 0 0 0 0 bmp) "/" = Next (PParse STATE_PS [] c s 0 0 0 bmp) /\
  port_step b box (PParse STATE_PS (dec p1) c s 0 0 0 bmp) "-" = Next (PParse STATE_PE [] c s 0 p1 0 bmp).
Proof.
  intros Hc Hs Hp. pose proof (dec_zlen c Hc). pose proof (dec_zlen s Hs). pose proof (dec_zlen p1 Hp).
  unfold port_step, port_s, port_ss, port_ps. cbn [p_state p_temp p_chassis p_slot p_sub_slot p_ulPortS p_iflist_i p_bmp].
  change (isdigit "/") with false. change (isdigit "-") with false. change (Ascii.eqb "/" "/") with true.
  change (Ascii.eqb "-" "/") with false. change (Ascii.eqb "-" ",") with false. change (Ascii.eqb "-" "-") with true.
  cbn iota. rewrite !strtoul_dec by lia.
  destruct (Z.eqb_spec (zlen (dec c)) 0); [lia|]. destruct (Z.eqb_spec (zlen (dec s)) 0); [lia|].
  destruct (Z.eqb_spec (zlen (dec p1)) 0); [lia|]. done.
Qed.

Lemma port_comma_range b box c s p1 p2 bmp :
  b ∈ boards -> box <> 1 -> slot_ok b c s -> 1 <= p1 <= 64 -> 1 <= p2 <= 64 ->
  wf_bits bmp (MAX_SWITCHPORT_PER_SYSTEM b) ->
  exists p, port_step b box (PParse STATE_PE (dec p2) c s 0 p1 0 bmp) "," = Next p /\
    forall x, bit_at (p_bmp p) x = true <->
      (exists k, Z.min p1 p2 <= k <= Z.max p1 p2 /\ x = port_bit b c s k) \/ bit_at bmp x = true.
Proof.
  intros Hb Hbox Hcs H1 H2 Hw. destruct (board_facts b Hb) as (_ & _ & _ & _ & _ & _ & _ & B8).
  pose proof (dec_zlen p2 ltac:(lia)). unfold port_step, port_pe. cbn [p_state p_temp p_ulPortS].
  change (isdigit ",") with false. change (Ascii.eqb "," ",") with true. cbn iota. rewrite strtoul_dec by lia.
  destruct (Z.eqb_spec (zlen (dec p2)) 0); [lia|].
  assert ((if p1 <? p2 then (p1, p2) else (p2, p1)) = (Z.min p1 p2, Z.max p1 p2)) as ->.
  { destruct (Z.ltb_spec p1 p2); f_equal; lia. }
  destruct (port_range_spec b box (Z.to_nat (Z.max p1 p2 - Z.min p1 p2 + 1)) (Z.min p1 p2)
    (PParse STATE_PE (dec p2) c s 0 p1 0 bmp)) as (bmp' & -> & _ & Hbit);
    cbn [p_chassis p_slot p_sub_slot p_bmp p_iflist_i]; try done; [lia..|].
  eexists. split; [done|]. cbn [p_with p_bmp]. intros x. rewrite Hbit. cbn [p_chassis p_slot p_bmp].
  split; (intros [(k & Hk & ->)|?]; [left; exists k; split; [lia|done]|by right]).
Qed.

(** ** Main results *)

(** C34: Take a VLAN bitmap that is not empty, whose members are all in
    2..4094 and whose text is shorter than the 255 bytes of the buffer.
    Printing its members and reading the text back succeeds, and the bitmap that
    the reader works on, a copy of the one it was given, then has exactly the
    members of both: ranges, single VLANs and separators are written the way the
    state machine reads them, and the reader stays inside its arrays.  (The copy
    is not handed back to the caller; a range that starts at VLAN 1 loses it.) *)
Theorem vlanlist_roundtrip bmp bmp2 :
  vlan_bitmap bmp -> wf_bits bmp2 4096 -> bitmap_runs bmp <> [] -> zlen (vlan_text bmp) < 255 ->
  exists text bmp', vbmp_2_vlanlist_str bmp [] = Some (0, text) /\
    vlanlist_str_2_vbmp text bmp2 = Some (0, bmp') /\
    forall i, 0 <= i < 4096 -> bit_at bmp' i = bit_at bmp i || bit_at bmp2 i.
Proof.
  intros Hv Hw2 Hne Hfit. destruct (vlanlist_read bmp bmp2 Hv Hw2 Hne) as (bmp' & E & Hb).
  exists (vlan_text bmp), bmp'. split; [by apply vlanlist_print|done].
Qed.

(** An executable test of [vlan_bitmap]. *)
Lemma vlan_bitmap_check bmp :
  forallb (fun w => (0 <=? w) && (w <? 2 ^ 32)) bmp && (zlen bmp =? 128) &&
  forallb (fun i => implb (bit_at bmp i) ((2 <=? i) && (i <=? 4094))) (seqZ 0 4096) = true ->
  vlan_bitmap bmp.
Proof.
  rewrite !andb_true_iff, Z.eqb_eq, !forallb_forall. intros [[Hw Hl] Hm]. split; [split|done|].
  - apply Forall_forall. intros w Hin. apply list_elem_of_In, Hw in Hin.
    rewrite andb_true_iff, Z.leb_le, Z.ltb_lt in Hin. done.
  - rewrite Hl. lia.
  - intros i Hi Hb. specialize (Hm i). rewrite Hb in Hm. cbn [implb] in Hm.
    rewrite andb_true_iff, !Z.leb_le in Hm. apply Hm, list_elem_of_In, elem_of_seqZ. lia.
Qed.

(** VLANs 2 to 5 and 9. *)
Definition sample_vlans : list Z := 0x23c :: replicate 127 0.

Lemma vlanlist_roundtrip_witness :
  exists text bmp', vbmp_2_vlanlist_str sample_vlans [] = Some (0, text) /\
    vlanlist_str_2_vbmp text (replicate 128 0) = Some (0, bmp') /\ bit_at bmp' 9 = true.
Proof.
  destruct (vlanlist_roundtrip sample_vlans (replicate 128 0)) as (text & bmp' & E1 & E2 & H).
  - apply vlan_bitmap_check. vm_compute. reflexivity.
  - apply vlan_bitmap_check. vm_compute. reflexivity.
  - vm_compute. congruence.
  - vm_compute. reflexivity.
  - exists text, bmp'. split; [done|]. split; [done|]. rewrite H by lia. reflexivity.
Defined.

(** ["2-4094,2-4094"] makes [vlanlist_str_2_vbmp] write past the end of
    its local [vlan_list] of 4096 entries: the counter of listed VLANs is
    never compared with the size of the array. *)
Theorem vlanlist_overflow :
  vlanlist_str_2_vbmp (lit "2-4094,2-4094") (replicate 128 0) = None.
Proof. vm_compute. reflexivity. Qed.

(** on a chassis system the item ["c/s/p1-p2"] of a port list adds
    exactly the bitmap bits of the base-board ports from the smaller to the
    larger of [p1] and [p2] of that slot, in either order of the bounds, and
    succeeds without leaving the bitmap. *)
Theorem portlist_range_item b box c s p1 p2 bmp :
  b ∈ boards -> box <> 1 -> slot_ok b c s -> 1 <= p1 <= 64 -> 1 <= p2 <= 64 ->
  wf_bits bmp (MAX_SWITCHPORT_PER_SYSTEM b) ->
  exists bmp', portlist_str_2_pbmp b box
      (fmt_d c ++ lit "/" ++ fmt_d s ++ lit "/" ++ fmt_d p1 ++ lit "-" ++ fmt_d p2) bmp = Some (0, bmp') /\
    forall x, bit_at bmp' x = true <->
      (exists k, Z.min p1 p2 <= k <= Z.max p1 p2 /\ x = port_bit b c s k) \/ bit_at bmp x = true.
Proof.
  intros Hb Hbox Hcs H1 H2 Hw. destruct (board_facts b Hb) as (B1 & B2 & _).
  assert (0 <= c < 10000 /\ 0 <= s < 10000) as [Hc Hs] by (destruct Hcs; lia).
  destruct (port_tokens b box c s p1 bmp) as (T1 & T2 & T3); [lia..|].
  destruct (port_comma_range b box c s p1 p2 bmp) as (p & T4 & Hbit); try done.
  exists (p_bmp p). split; [|done]. unfold portlist_str_2_pbmp. rewrite <- !app_assoc.
  cbn [lit list_ascii_of_string app].
  rewrite port_number by (done || lia). unfold p_with at 1. cbn [p_state p_chassis p_slot p_sub_slot p_ulPortS p_iflist_i p_bmp].
  rewrite T1, port_number by (done || lia). unfold p_with at 1. cbn [p_state p_chassis p_slot p_sub_slot p_ulPortS p_iflist_i p_bmp].
  rewrite T2, port_number by (done || lia). unfold p_with at 1. cbn [p_state p_chassis p_slot p_sub_slot p_ulPortS p_iflist_i p_bmp].
  rewrite T3, port_number by (done || lia). unfold p_with at 1. cbn [p_state p_chassis p_slot p_sub_slot p_ulPortS p_iflist_i p_bmp].
  by rewrite T4.
Qed.

Lemma portlist_range_item_witness :
  exists bmp', portlist_str_2_pbmp chassis_support 0
      (fmt_d 1 ++ lit "/" ++ fmt_d 2 ++ lit "/" ++ fmt_d 7 ++ lit "-" ++ fmt_d 3) (replicate 64 0) = Some (0, bmp') /\
    bit_at bmp' (port_bit chassis_support 1 2 5) = true.
Proof.
  destruct (portlist_range_item chassis_support 0 1 2 7 3 (replicate 64 0)) as (bmp' & E & H).
  - unfold boards. rewrite !elem_of_cons. tauto.
  - lia.
  - split; cbn; lia.
  - lia.
  - lia.
  - split; [|vm_compute; split; congruence]. by apply (bool_decide_unpack _).
  - exists bmp'. split; [done|]. apply H. left. exists 5. split; [lia|done].
Defined.

(** the two-number form ["s/p"] sets chassis and slot to 0, which
    [generate_eth_index] accepts and stores as chassis 3, slot 15: on every
    board but the multi-chassis one the array index lies past the bitmap and
    the port is set outside of it. *)
Theorem portlist_slot_port_overflow b box n p bmp :
  b = memory_short \/ b = chassis_support \/ b = default_board ->
  box <> 1 -> 0 <= n < 10000 -> 1 <= p <= 64 ->
  zlen bmp = NPD_BITS_TO_LONGS (MAX_SWITCHPORT_PER_SYSTEM b) ->
  portlist_str_2_pbmp b box (fmt_d n ++ lit "/" ++ fmt_d p) bmp = None.
Proof.
  intros Hb Hbox Hn Hp Hlen. unfold portlist_str_2_pbmp. rewrite <- !app_assoc. cbn [lit list_ascii_of_string app].
  rewrite port_number by (done || lia). unfold p_with. cbn [p_state p_chassis p_slot p_sub_slot p_ulPortS p_iflist_i p_bmp].
  destruct (port_tokens b box n 0 0 bmp) as (-> & _); [lia..|].
  rewrite port_number by (done || lia). unfold p_with. cbn [p_state p_chassis p_slot p_sub_slot p_ulPortS p_iflist_i p_bmp].
  pose proof (dec_zlen p ltac:(lia)). unfold port_step, port_ss. cbn [p_state p_temp p_sub_slot p_iflist_i p_bmp].
  change (isdigit ",") with false. change (Ascii.eqb "," "/") with false. change (Ascii.eqb "," ",") with true. cbn iota.
  destruct (Z.eqb_spec (zlen (dec p)) 0); [lia|]. rewrite strtoul_dec by lia.
  assert (port_add b box (PParse STATE_SS (dec p) 0 0 0 p 0 bmp) 0 p = Undefined) as ->; [|done].
  unfold port_add. cbn [p_chassis p_slot p_bmp]. change (u8 0) with 0.
  assert (u8 p = p) as -> by (apply wrap_small; lia).
  assert (generate_eth_index b box 0 0 0 p 1 = eth_if 3 15 0 (p - 1) 0) as ->.
  { unfold generate_eth_index, netif_system_is_box. destruct (Z.eqb_spec box 1); [done|].
    destruct (eth_if_fields (0 - 1) (0 - 1) 0 (p - 1) (1 - 1)) as (E1 & E2 & E3 & E4 & E5 & E6 & R).
    destruct (eth_if_fields 3 15 0 (p - 1) 0) as (F1 & F2 & F3 & F4 & F5 & F6 & S).
    assert (eth_if (0 - 1) (0 - 1) 0 (p - 1) (1 - 1) = eth_if 3 15 0 (p - 1) 0) as <-.
    { change ((0 - 1) mod 4) with (3 mod 4) in E2. change ((0 - 1) mod 16) with (15 mod 16) in E3.
      change ((1 - 1) mod 16384) with (0 mod 16384) in E6. apply eth_fields_inj; congruence. }
    destruct Hb as [->|[->| ->]]; cbn; destruct (Z.leb_spec p 0), (Z.ltb_spec 64 p); try lia; done. }
  destruct (eth_if_fields 3 15 0 (p - 1) 0) as (F1 & _).
  destruct (Z.eqb_spec (eth_if 3 15 0 (p - 1) 0) 0) as [E|_]; [by rewrite E in F1|].
  rewrite eth_from_fields by lia. change (0 =? 0) with true. cbn iota.
  unfold npd_bitarray_set_bit, update_bit, NPD_SZLONG_LOG.
  rewrite rd_None_ge; [done|]. rewrite Z.shiftr_div_pow2 by lia. change (2 ^ 5) with 32. rewrite Hlen.
  destruct Hb as [->|[->| ->]]; cbn [MAX_CHASSIS_SLOT_COUNT MAX_ETHPORT_PER_BOARD MAX_SUBPORT_PER_ETHPORT
    MAX_SWITCHPORT_PER_SYSTEM memory_short chassis_support default_board];
    rewrite s32_small, u32_small by (unfold u32_range; lia);
    unfold NPD_BITS_TO_LONGS, NPD_BITS_PER_LONG; dlia.
Qed.

Lemma portlist_slot_port_overflow_witness :
  portlist_str_2_pbmp chassis_support 0 (fmt_d 1 ++ lit "/" ++ fmt_d 3) (replicate 64 0) = None.
Proof. apply portlist_slot_port_overflow; [tauto|lia|lia|lia|reflexivity]. Defined.
