(* ===== verification/Database.v ===== *)
(** * The in-memory database: tables, entries, synchronisation, array index

    Model of [src/src/npdsuit/lib/src/npd_database.c]: [db_table_t] with its
    entry array, its ordered list of free entry numbers, its indexes and the
    synchronisation messages to the other boards.  Entry data is an abstract
    type; the callbacks installed by the owner of a table, the platform's send
    function and the byte-order callback are parameters ([db_ops]).  The hash
    index is in [DatabaseHash]. *)

From Stdlib Require Import ZArith Lia Bool.
From stdpp Require Import base decidable list sorting gmap.
From S2P Require Import Prelude.

Open Scope Z_scope.

Definition DB_ENTRY_EXIST : Z := 1.
Definition DB_HW_SW_SYNCED : Z := 2.
Definition DB_MASTER_SLAVE_SYNCED : Z := 4.
Definition DB_DELETE_NOT_SYNCED : Z := 8.
Definition DB_SYNC_NONE : Z := 8.
Definition MAX_SEND_SIZE : Z := 20000.
(** [sizeof(npd_sync_msg_header_t)] *)
Definition SYNC_HEADER_SIZE : Z := 68.

Inductive NPD_SYNC_OP := NPD_SYNC_OP_ITEM_ADD | NPD_SYNC_OP_ITEM_DEL | NPD_SYNC_OP_ITEM_UPDATE.

Section table.
Context {D : Type}.

(** ** State *)

Record dbentry_common_t := Entry {
  flags : Z;
  modify_counter : Z;
  real_data : option D
}.

(** A hash index: bucket chains of entry numbers. *)
Record dbhash_t := Hash {
  size : Z;
  count : Z;
  hash_key : option (D -> Z);
  hash_cmp : D -> D -> bool;
  index : list (list Z)
}.

(** A sequence index: chains as well, in the bucket that [sequence_index]
    gives for a number; [sequence_key] is the number of an entry. *)
Record dbsequence_t := Sequence {
  seq_size : Z;
  seq_index : list (list Z);
  sequence_index : Z -> Z;
  sequence_cmp : D -> D -> bool;
  sequence_key : D -> Z
}.

Inductive db_index := HashIndex (h : dbhash_t) | SeqIndex (s : dbsequence_t) | ArrayIndex.

(** A message handed to the platform: operation, first entry number and one
    block per entry. *)
Record sync_msg := Msg { msg_op : NPD_SYNC_OP; start_index : Z; blocks : list D }.

Record db_table_t := Table {
  entries : list dbentry_common_t;
  entry_use_num_limit : Z;
  entry_use_num : Z;
  entry_size : Z;
  sync_mode : Z;
  index_list : list db_index;
  entry_alloc_list : list Z;
  lock : Z;
  sent : list sync_msg
}.

Definition entry_num (db : db_table_t) : Z := zlen (entries db).

(** What the table is parameterised with: the owner's callbacks ([NULL] as
    [None]), [platform_db_sync] (its result for a message),
    [platform_relay_flag], the [memcmp] of the first [sync_size] bytes, the
    [memcpy] of the bytes after them from the old data over the new
    ([keep_local new old]), the byte-order conversions of a block, the zeroed
    block, and whether the build has [HAVE_CHASSIS_SUPPORT] or
    [HAVE_STACKING].  A block carries the first [sync_size] bytes only, which
    is part of what [entry_hton] stands for. *)
Record db_ops := {
  handle_update : option (D -> D -> Z);
  handle_insert : option (D -> Z);
  handle_delete : option (D -> Z);
  app_handle_update : option (D -> D -> Z);
  app_handle_delete : option (D -> Z);
  platform_db_sync : option (sync_msg -> Z);
  platform_relay_flag : bool;
  same_sync_part : D -> D -> bool;
  keep_local : D -> D -> D;
  entry_hton : D -> D;
  entry_ntoh : D -> D;
  zero_entry : D;
  have_sync : bool
}.

Context (ops : db_ops).

(** Field updates. *)
Definition with_entries (db : db_table_t) (es : list dbentry_common_t) : db_table_t :=
  Table es (entry_use_num_limit db) (entry_use_num db) (entry_size db) (sync_mode db)
    (index_list db) (entry_alloc_list db) (lock db) (sent db).
Definition with_alloc (db : db_table_t) (use : Z) (l : list Z) : db_table_t :=
  Table (entries db) (entry_use_num_limit db) use (entry_size db) (sync_mode db)
    (index_list db) l (lock db) (sent db).
Definition with_index_list (db : db_table_t) (l : list db_index) : db_table_t :=
  Table (entries db) (entry_use_num_limit db) (entry_use_num db) (entry_size db) (sync_mode db)
    l (entry_alloc_list db) (lock db) (sent db).
Definition with_lock (db : db_table_t) (n : Z) : db_table_t :=
  Table (entries db) (entry_use_num_limit db) (entry_use_num db) (entry_size db) (sync_mode db)
    (index_list db) (entry_alloc_list db) n (sent db).
Definition with_sent (db : db_table_t) (l : list sync_msg) : db_table_t :=
  Table (entries db) (entry_use_num_limit db) (entry_use_num db) (entry_size db) (sync_mode db)
    (index_list db) (entry_alloc_list db) (lock db) l.

(** [PTHREAD_MUTEX_RECURSIVE_NP]: the depth to which the caller holds it. *)
Definition db_table_lock (db : db_table_t) : db_table_t := with_lock db (lock db + 1).
Definition db_table_unlock (db : db_table_t) : db_table_t := with_lock db (lock db - 1).
Definition db_table_read_lock := db_table_lock.
Definition db_table_read_unlock := db_table_unlock.

(** ** Creation *)

Definition empty_entry : dbentry_common_t := Entry 0 0 None.

(** [num] nodes numbered [num - 1 - i], each added at the head. *)
Fixpoint alloc_list_loop (n : nat) (i num : Z) (l : list Z) : list Z :=
  match n with
  | O => l
  | S n => alloc_list_loop n (i + 1) num ((num - i - 1) :: l)
  end.

Definition osal_table_entry_alloc_list_init (num : Z) : list Z := alloc_list_loop (Z.to_nat num) 0 num [].

Definition create_dbtable (num esize sync_flag : Z) : db_table_t :=
  Table (replicate (Z.to_nat num) empty_entry) num 0 esize sync_flag []
    (osal_table_entry_alloc_list_init num) 0 [].

Definition dbtable_create_array_index (db : db_table_t) : db_table_t :=
  with_index_list db (ArrayIndex :: index_list db).

(** ** Entry numbers *)

Definition osal_table_entry_id_alloc (db : db_table_t) : Z * db_table_t :=
  match entry_alloc_list db with
  | [] => (-1, db)
  | entry_index :: l =>
      if entry_use_num_limit db <=? entry_use_num db then (-1, db)
      else (entry_index, with_alloc db (u32 (entry_use_num db + 1)) l)
  end.

Definition osal_table_entry_id_free (db : db_table_t) (id : Z) : Z * db_table_t :=
  (0, with_alloc db (u32 (entry_use_num db - 1)) (id :: entry_alloc_list db)).

(** Take the first number that satisfies [p] out of the free list. *)
Fixpoint take_first (p : Z -> bool) (l : list Z) : option (Z * list Z) :=
  match l with
  | [] => None
  | x :: l =>
      if p x then Some (x, l)
      else '(y, l') ← take_first p l; Some (y, x :: l')
  end.

Definition db_table_internal_alloc (db : db_table_t) (input_id : Z) : option Z * db_table_t :=
  match take_first (fun x => x =? input_id) (entry_alloc_list db) with
  | Some (out_id, l) => (Some out_id, with_alloc db (u32 (entry_use_num db + 1)) l)
  | None => (None, db)
  end.

Definition db_table_internal_alloc_after (db : db_table_t) (input_id : Z) : option Z * db_table_t :=
  match take_first (fun x => input_id <=? x) (entry_alloc_list db) with
  | Some (out_id, l) => (Some out_id, with_alloc db (u32 (entry_use_num db + 1)) l)
  | None => (None, db)
  end.

(** Before the first larger number, or at the tail. *)
Fixpoint insert_order (id : Z) (l : list Z) : list Z :=
  match l with
  | [] => [id]
  | x :: l' => if id <? x then id :: l else x :: insert_order id l'
  end.

Definition db_table_internal_free_order (db : db_table_t) (id : Z) : db_table_t :=
  with_alloc db (u32 (entry_use_num db - 1)) (insert_order id (entry_alloc_list db)).

(** ** Entries *)

(** [db_table_get_entry] and [db_table_sync_get_entry]: 0 with the data
    copied, or -1 and the caller's buffer untouched. *)
Definition db_table_get_entry (db : db_table_t) (entry_id : Z) : option D :=
  e ← rd (entries db) entry_id;
  if negb (Z.land (flags e) DB_ENTRY_EXIST =? 0) then real_data e else None.

(** [db_table_entry] assigns its own parameter: the caller gets the result
    code and nothing else. *)
Definition db_table_entry (db : db_table_t) (entry_id : Z) : Z :=
  match db_table_get_entry db entry_id with Some _ => 0 | None => -1 end.

Definition alter_entry (db : db_table_t) (id : Z) (f : dbentry_common_t -> dbentry_common_t) : db_table_t :=
  with_entries db (alter f (Z.to_nat id) (entries db)).

Definition in_table (db : db_table_t) (entry_id : Z) : bool := (0 <=? entry_id) && (entry_id <? entry_num db).

Definition db_table_synced_entry (db : db_table_t) (entry_id flag : Z) : db_table_t :=
  if in_table db entry_id
  then alter_entry db entry_id (fun e => Entry (Z.lor (flags e) flag) (modify_counter e) (real_data e))
  else db.

Definition db_table_unsynced_entry (db : db_table_t) (entry_id flag : Z) : db_table_t :=
  if in_table db entry_id
  then alter_entry db entry_id (fun e => Entry (Z.land (flags e) (not32 flag)) (modify_counter e) (real_data e))
  else db.

(** ** Synchronisation messages *)

Definition sync_block (db : db_table_t) (id : Z) : D :=
  entry_hton ops (default (zero_entry ops) (db_table_get_entry db id)).

(** Build and send one message for [num] entries, and mark them synchronised
    when the platform took it. *)
Definition dbtable_sync_piece (op : NPD_SYNC_OP) (db : db_table_t) (start_id num : Z) : db_table_t :=
  let ids := seqZ start_id num in
  let m := Msg op start_id (sync_block db <$> ids) in
  match platform_db_sync ops with
  | None => db
  | Some send =>
      let db := with_sent db (sent db ++ [m]) in
      if send m =? 0
      then foldl (fun db id => db_table_synced_entry db id DB_MASTER_SLAVE_SYNCED) db ids
      else db
  end.

Definition dbtable_sync_data_insert_piece := dbtable_sync_piece NPD_SYNC_OP_ITEM_ADD.
Definition dbtable_sync_data_delete := dbtable_sync_piece NPD_SYNC_OP_ITEM_DEL.
Definition dbtable_sync_data_update := dbtable_sync_piece NPD_SYNC_OP_ITEM_UPDATE.

(** The loop over the pieces: [n] iterations left, the last one sends what
    remains.  [None] is the division by zero for an entry too large for a
    message. *)
Fixpoint sync_pieces (n : nat) (db : db_table_t) (s_id send_num last_num : Z) : db_table_t :=
  match n with
  | O => db
  | S O => dbtable_sync_data_insert_piece db s_id last_num
  | S n => sync_pieces n (dbtable_sync_data_insert_piece db s_id send_num) (s_id + send_num) send_num last_num
  end.

Definition dbtable_sync_data_insert (db : db_table_t) (start_id num : Z) : option db_table_t :=
  let send_num := (MAX_SEND_SIZE - SYNC_HEADER_SIZE) / entry_size db in
  if send_num =? 0 then None
  else
    let send_count := num / send_num + 1 in
    Some (sync_pieces (Z.to_nat send_count) db start_id send_num (num - (send_count - 1) * send_num)).

(** [dbtable_sync_data_all]: runs of existing entries. *)
Fixpoint sync_all_loop (n : nat) (db : db_table_t) (i start_id num : Z) : option db_table_t :=
  match n with
  | O => Some db
  | S n =>
      let exists_i := match rd (entries db) i with
                      | Some e => negb (Z.land (flags e) DB_ENTRY_EXIST =? 0)
                      | None => false
                      end in
      if exists_i then
        let start_id := if start_id =? -1 then i else start_id in
        let num := num + 1 in
        if start_id + num =? entry_num db then dbtable_sync_data_insert db start_id num
        else sync_all_loop n db (i + 1) start_id num
      else if negb (start_id =? -1) then
        db ← dbtable_sync_data_insert db start_id num;
        sync_all_loop n db (i + 1) (-1) 0
      else sync_all_loop n db (i + 1) start_id num
  end.

Definition dbtable_sync_data_all (db : db_table_t) : option db_table_t :=
  if negb (Z.land (sync_mode db) DB_SYNC_NONE =? 0) then Some db
  else sync_all_loop (Z.to_nat (entry_num db)) db 0 (-1) 0.

(** Whether a change made with [local_flag] is sent to the other boards. *)
Definition sync_wanted (db : db_table_t) (local_flag : bool) : bool :=
  have_sync ops && negb (sync_mode db =? DB_SYNC_NONE) && (local_flag || platform_relay_flag ops).

(** ** Hash chains

    Scan a chain for the first entry accepted by [p]; the buffer keeps its
    contents when an entry cannot be read, [junk] is what [malloc] left in
    it.  The result is the entry number, if any, and the buffer. *)
Fixpoint scan_chain (db : db_table_t) (p : D -> bool) (chain : list Z) (cmpdata : D) : option Z * D :=
  match chain with
  | [] => (None, cmpdata)
  | id :: chain =>
      let cmpdata := default cmpdata (db_table_get_entry db id) in
      if p cmpdata then (Some id, cmpdata) else scan_chain db p chain cmpdata
  end.

Definition chain_of (h : dbhash_t) (key1 : Z) : list Z := default [] (rd (index h) key1).

Definition with_chain (h : dbhash_t) (key1 : Z) (l : list Z) : dbhash_t :=
  Hash (size h) (count h) (hash_key h) (hash_cmp h) (<[Z.to_nat key1 := l]> (index h)).
Definition with_count (h : dbhash_t) (n : Z) : dbhash_t :=
  Hash (size h) n (hash_key h) (hash_cmp h) (index h).

(** Unlink the first occurrence of [id]. *)
Fixpoint unlink (id : Z) (chain : list Z) : list Z :=
  match chain with
  | [] => []
  | x :: chain => if x =? id then chain else x :: unlink id chain
  end.

Definition dbtable_hash_internal_insert (db : db_table_t) (junk : D) (h : dbhash_t) (data : D) (entry_id : Z)
  : dbhash_t :=
  match hash_key h with
  | None => h
  | Some key =>
      let key1 := key data in
      if size h <=? key1 then h
      else
        match (scan_chain db (hash_cmp h data) (chain_of h key1) junk).1 with
        | Some _ => h
        | None => with_chain h key1 (chain_of h key1 ++ [entry_id])
        end
  end.

Definition dbtable_hash_internal_delete (db : db_table_t) (junk : D) (h : dbhash_t) (data : D) : dbhash_t :=
  match hash_key h with
  | None => h
  | Some key =>
      let key1 := key data in
      if size h <=? key1 then h
      else
        match (scan_chain db (fun cmpdata => hash_cmp h cmpdata data) (chain_of h key1) junk).1 with
        | Some id => let h := with_chain h key1 (unlink id (chain_of h key1)) in with_count h (count h - 1)
        | None => h
        end
  end.

Definition seq_chain (s : dbsequence_t) (key1 : Z) : list Z := default [] (rd (seq_index s) key1).

Definition with_seq_chain (s : dbsequence_t) (key1 : Z) (l : list Z) : dbsequence_t :=
  Sequence (seq_size s) (<[Z.to_nat key1 := l]> (seq_index s)) (sequence_index s) (sequence_cmp s) (sequence_key s).

Definition dbtable_sequence_internal_insert (db : db_table_t) (junk : D) (s : dbsequence_t) (data : D) (entry_id : Z)
  : dbsequence_t :=
  let key1 := sequence_index s (sequence_key s data) in
  if seq_size s <=? key1 then s
  else
    match (scan_chain db (sequence_cmp s data) (seq_chain s key1) junk).1 with
    | Some _ => s
    | None => with_seq_chain s key1 (seq_chain s key1 ++ [entry_id])
    end.

Definition dbtable_sequence_internal_delete (db : db_table_t) (junk : D) (s : dbsequence_t) (data : D) : dbsequence_t :=
  let key1 := sequence_index s (sequence_key s data) in
  if seq_size s <=? key1 then s
  else
    match (scan_chain db (sequence_cmp s data) (seq_chain s key1) junk).1 with
    | Some id => with_seq_chain s key1 (unlink id (seq_chain s key1))
    | None => s
    end.

(** [index_insert] and [index_delete] of every index but [orig_index]. *)
Definition index_insert (db : db_table_t) (junk data : D) (entry_id : Z) (x : db_index) : db_index :=
  match x with
  | HashIndex h => HashIndex (dbtable_hash_internal_insert db junk h data entry_id)
  | SeqIndex s => SeqIndex (dbtable_sequence_internal_insert db junk s data entry_id)
  | ArrayIndex => ArrayIndex
  end.

Definition index_delete (db : db_table_t) (junk : D) (data : option D) (x : db_index) : db_index :=
  match x, data with
  | HashIndex h, Some data => HashIndex (dbtable_hash_internal_delete db junk h data)
  | SeqIndex s, Some data => SeqIndex (dbtable_sequence_internal_delete db junk s data)
  | _, _ => x
  end.

Definition map_others (orig_index : nat) (f : db_index -> db_index) (l : list db_index) : list db_index :=
  imap (fun i x => if decide (i = orig_index) then x else f x) l.

Definition insert_others (db : db_table_t) (junk data : D) (entry_id : Z) (orig_index : nat) : db_table_t :=
  with_index_list db (map_others orig_index (index_insert db junk data entry_id) (index_list db)).
Definition delete_others (db : db_table_t) (junk : D) (data : option D) (orig_index : nat) : db_table_t :=
  with_index_list db (map_others orig_index (index_delete db junk data) (index_list db)).

(** ** Inserting, deleting and updating entries

    The synchronisation of one entry divides by the number of entries per
    message; [None] is that division by zero. *)

Definition db_table_insert_entry (db : db_table_t) (junk : D) (entry_id : Z) (data : D) (orig_index : nat)
    (local_flag : bool) : option (Z * db_table_t) :=
  if negb (in_table db entry_id) then Some (-1, db)
  else
    let db := alter_entry db entry_id
      (fun e => Entry (Z.lor (flags e) DB_ENTRY_EXIST) (u32 (modify_counter e + 1)) (Some data)) in
    let db := insert_others db junk data entry_id orig_index in
    db ← (if sync_wanted db local_flag then dbtable_sync_data_insert db entry_id 1 else Some db);
    Some (0, db).

Definition db_table_free_entry_index (db : db_table_t) (junk : D) (entry_id : Z) (orig_index : nat) : Z * db_table_t :=
  if negb (in_table db entry_id) then (-1, db)
  else
    match rd (entries db) entry_id with
    | Some e =>
        if Z.land (flags e) DB_ENTRY_EXIST =? 0 then (0, db)
        else (0, delete_others db junk (real_data e) orig_index)
    | None => (-1, db)
    end.

Definition db_table_delete_entry (db : db_table_t) (entry_id : Z) (local_flag : bool) : Z * db_table_t :=
  match rd (entries db) entry_id with
  | None => (-1, db)
  | Some e =>
      if Z.land (flags e) DB_ENTRY_EXIST =? 0 then (0, db)
      else
        let db := if sync_wanted db local_flag then dbtable_sync_data_delete db entry_id 1 else db in
        if negb (Z.land (default 0 (flags <$> rd (entries db) entry_id)) DB_DELETE_NOT_SYNCED =? 0) then (0, db)
        else
          let db := alter_entry db entry_id
            (fun e => Entry (Z.land (flags e) (not32 DB_ENTRY_EXIST)) (modify_counter e) None) in
          (0, db_table_internal_free_order db entry_id)
  end.

(** [element_list] is empty: its only producer is compiled out. *)
Definition db_table_update_entry (db : db_table_t) (junk : D) (entry_id : Z) (data : D) (orig_index : nat)
    (local_flag : bool) : Z * db_table_t :=
  match rd (entries db) entry_id ≫= real_data with
  | None => (-1, db)
  | Some old =>
      let db := delete_others db junk (Some old) orig_index in
      let sync_remote := negb (have_sync ops && same_sync_part ops data old) in
      let db := alter_entry db entry_id (fun e => Entry (flags e) (modify_counter e) (Some data)) in
      let db := insert_others db junk data entry_id orig_index in
      let db := if sync_remote && sync_wanted db local_flag then dbtable_sync_data_update db entry_id 1 else db in
      (0, db)
  end.

(** ** The array index *)

(** The tail shared by the three inserts: store, call the owner, mark. *)
Definition array_store (db : db_table_t) (junk : D) (orig_index : nat) (entry_id : Z) (data : D)
  : option db_table_t :=
  '(_, db) ← db_table_insert_entry db junk entry_id data orig_index true;
  let ret := match handle_insert ops with Some f => f data | None => 0 end in
  Some (if ret =? 0 then db_table_synced_entry db entry_id DB_HW_SW_SYNCED
        else db_table_unsynced_entry db entry_id DB_HW_SW_SYNCED).

Definition dbtable_array_insert_byid (db : db_table_t) (junk : D) (array : nat) (array_index : Z) (data : D)
  : option (Z * db_table_t) :=
  let db := db_table_lock db in
  match db_table_internal_alloc db array_index with
  | (None, db) => Some (-1, db_table_unlock db)
  | (Some entry_id, db) =>
      db ← array_store db junk array entry_id data;
      Some (0, db_table_unlock db)
  end.

(** Result, [*array_index] and the table. *)
Definition dbtable_array_insert (db : db_table_t) (junk : D) (array : nat) (data : D)
  : option (Z * Z * db_table_t) :=
  let db := db_table_lock db in
  let '(entry_id, db) := osal_table_entry_id_alloc db in
  if entry_id =? -1 then Some (-1, u32 (-1), db_table_unlock db)
  else
    db ← array_store db junk array entry_id data;
    Some (0, entry_id, db_table_unlock db).

Definition dbtable_array_insert_after (db : db_table_t) (junk : D) (array : nat) (data : D) (start_id : Z)
  : option (Z * Z * db_table_t) :=
  let db := db_table_lock db in
  match db_table_internal_alloc_after db start_id with
  | (None, db) => Some (-1, u32 (-1), db_table_unlock db)
  | (Some entry_id, db) =>
      db ← array_store db junk array entry_id data;
      Some (0, entry_id, db_table_unlock db)
  end.

Definition dbtable_array_get (db : db_table_t) (array_index : Z) : option D * db_table_t :=
  let db := db_table_read_lock db in
  let r := db_table_get_entry db array_index in
  (r, db_table_read_unlock db).

Definition dbtable_array_totalcount (db : db_table_t) : Z := entry_num db.

(** Result, the data copied to [ret_data] if any, and the table; the result
    of the owner's callback does not matter. *)
Definition dbtable_array_delete (db : db_table_t) (junk : D) (array : nat) (array_index : Z)
  : Z * option D * db_table_t :=
  let db := db_table_lock db in
  match db_table_get_entry db array_index with
  | None => (0, None, db_table_unlock db)
  | Some ret_data =>
      let '(_, db) := db_table_free_entry_index db junk array_index array in
      let '(_, db) := db_table_delete_entry db array_index true in
      (0, Some ret_data, db_table_unlock db)
  end.

Definition dbtable_array_update (db : db_table_t) (junk : D) (array : nat) (array_index : Z) (data : D)
  : Z * db_table_t :=
  let db := db_table_lock db in
  match db_table_get_entry db array_index with
  | None => (-1, db_table_unlock db)
  | Some old_data =>
      let '(ret, db) := db_table_update_entry db junk array_index data array true in
      let ret := match handle_update ops with Some f => f data old_data | None => ret end in
      let db := if ret =? 0 then db_table_synced_entry db array_index DB_HW_SW_SYNCED
                else db_table_unsynced_entry db array_index DB_HW_SW_SYNCED in
      (0, db_table_unlock db)
  end.

End table.

Arguments dbentry_common_t : clear implicits.
Arguments dbhash_t : clear implicits.
Arguments dbsequence_t : clear implicits.
Arguments db_index : clear implicits.
Arguments sync_msg : clear implicits.
Arguments db_table_t : clear implicits.
Arguments db_ops : clear implicits.

(** ** Ordered free lists *)

Lemma take_first_Some p l x l' :
  take_first p l = Some (x, l') ->
  exists l1 l2, l = l1 ++ x :: l2 /\ l' = l1 ++ l2 /\ p x = true /\ Forall (fun y => p y = false) l1.
Proof.
  revert l'. induction l as [|y l IH]; intros l' H; cbn [take_first] in H; [done|].
  destruct (p y) eqn:Ep.
  - injection H as <- <-. by exists [], l.
  - destruct (take_first p l) as [[z l0]|]; [|done]. injection H as <- <-.
    destruct (IH _ eq_refl) as (l1 & l2 & -> & -> & Hp & Hf). exists (y :: l1), l2.
    repeat split; auto.
Qed.

Lemma take_first_None p l : take_first p l = None -> Forall (fun y => p y = false) l.
Proof.
  induction l as [|y l IH]; intros H; cbn [take_first] in H; [constructor|].
  destruct (p y) eqn:Ep; [done|]. destruct (take_first p l) as [[z l0]|]; [done|]. auto.
Qed.

Lemma sorted_NoDup (l : list Z) : StronglySorted Z.lt l -> NoDup l.
Proof.
  induction 1 as [|x l _ IH Hx]; constructor; [|done].
  intros Hin. rewrite Forall_forall in Hx. specialize (Hx x Hin). lia.
Qed.

(** A strictly ascending list is determined by its elements. *)
Lemma sorted_ext (l k : list Z) :
  StronglySorted Z.lt l -> StronglySorted Z.lt k -> (forall i, i ∈ l <-> i ∈ k) -> l = k.
Proof.
  intros Hl Hk Hi. apply (StronglySorted_unique_strong Z.lt); [|done|done|].
  - intros x y _ _ ? ?. lia.
  - by apply NoDup_Permutation; [apply sorted_NoDup..|].
Qed.

Lemma filter_none (P : Z -> Prop) `{!forall x, Decision (P x)} l :
  Forall (fun x => ~ P x) l -> filter P l = [].
Proof. induction 1 as [|x l Hx _ IH]; [done|]. by rewrite filter_cons, decide_False. Qed.

Lemma sorted_zlen (l : list Z) n :
  StronglySorted Z.lt l -> 0 <= n -> (forall i, i ∈ l -> 0 <= i < n) -> zlen l <= n.
Proof.
  intros Hs Hn Hi. assert (l ⊆+ seqZ 0 n) as H.
  { apply NoDup_submseteq; [by apply sorted_NoDup|]. intros i Hl. apply elem_of_seqZ. by apply Hi. }
  apply submseteq_length in H. rewrite length_seqZ in H. unfold zlen. lia.
Qed.

Lemma sorted_filter (P : Z -> Prop) `{!forall x, Decision (P x)} l :
  StronglySorted Z.lt l -> StronglySorted Z.lt (filter P l).
Proof.
  induction 1 as [|x l _ IH Hx]; [constructor|]. rewrite filter_cons.
  destruct (decide (P x)); [|done]. constructor; [done|].
  rewrite Forall_forall in *. intros y [_ Hy]%list_elem_of_filter. auto.
Qed.

Lemma sorted_seqZ a n : StronglySorted Z.lt (seqZ a n).
Proof.
  destruct (Z.le_gt_cases n 0); [rewrite seqZ_nil by lia; constructor|].
  revert a. pattern n. apply Zlt_0_ind; [|lia]. clear. intros n IH Hn a.
  destruct (decide (n = 0)) as [->|]; [constructor|]. rewrite seqZ_cons by lia.
  constructor; [apply IH; lia|]. apply Forall_forall. intros x Hx%elem_of_seqZ. lia.
Qed.

Lemma sorted_remove (l1 l2 : list Z) x :
  StronglySorted Z.lt (l1 ++ x :: l2) ->
  StronglySorted Z.lt (l1 ++ l2) /\ forall i, i ∈ l1 ++ l2 <-> i ∈ l1 ++ x :: l2 /\ i <> x.
Proof.
  intros H. pose proof (sorted_NoDup _ H) as Hnd.
  rewrite !StronglySorted_app in H. destruct H as (Hc & H1 & H2). apply StronglySorted_inv in H2 as [H2 Hx].
  split.
  - apply StronglySorted_app. repeat split; try done. intros y z Hy Hz. apply Hc; [done|]. by right.
  - intros i. rewrite !elem_of_app, elem_of_cons. apply NoDup_app in Hnd as (_ & Hd & Hn).
    apply NoDup_cons in Hn as [Hn _]. specialize (Hd x). rewrite elem_of_cons in Hd.
    destruct (decide (i = x)) as [->|]; tauto.
Qed.

Lemma elem_of_insert_order i x l : i ∈ insert_order x l <-> i = x \/ i ∈ l.
Proof.
  induction l as [|y l IH]; cbn [insert_order]; [by rewrite list_elem_of_singleton, elem_of_nil; tauto|].
  destruct (x <? y); rewrite !elem_of_cons; [done|]. rewrite IH. tauto.
Qed.

Lemma zlen_insert_order x l : zlen (insert_order x l) = zlen l + 1.
Proof.
  unfold zlen. induction l as [|y l IH]; cbn [insert_order]; [done|].
  destruct (x <? y); cbn [length] in *; lia.
Qed.

Lemma sorted_insert_order x l :
  StronglySorted Z.lt l -> ~ x ∈ l -> StronglySorted Z.lt (insert_order x l).
Proof.
  induction 1 as [|y l Hs IH Hy]; intros Hx; cbn [insert_order]; [repeat constructor|].
  rewrite elem_of_cons in Hx. rewrite Forall_forall in Hy. destruct (Z.ltb_spec x y).
  - constructor; [by constructor; [|apply Forall_forall]|]. apply Forall_cons; split; [lia|].
    apply Forall_forall. intros z Hz. specialize (Hy z Hz). lia.
  - constructor; [tauto|]. apply Forall_forall. intros z [-> |Hz]%elem_of_insert_order; [|auto].
    assert (x <> y) by tauto. lia.
Qed.

Lemma alloc_list_loop_seqZ n i num l :
  alloc_list_loop n i num l = seqZ (num - i - Z.of_nat n) (Z.of_nat n) ++ l.
Proof.
  revert i l. induction n as [|n IH]; intros i l; cbn [alloc_list_loop]; [done|].
  rewrite IH. rewrite Nat2Z.inj_succ, <- Z.add_1_r, (seqZ_app _ (Z.of_nat n) 1) by lia.
  rewrite <- app_assoc. f_equal; [f_equal; lia|].
  rewrite seqZ_cons, seqZ_nil by lia. cbn [app]. f_equal. lia.
Qed.

Lemma alloc_list_init_seqZ num : 0 <= num -> osal_table_entry_alloc_list_init num = seqZ 0 num.
Proof.
  intros H. unfold osal_table_entry_alloc_list_init. rewrite alloc_list_loop_seqZ, app_nil_r.
  f_equal; lia.
Qed.

(** ** The part of a table its owner sees

    Two tables that differ only in the synchronisation marks, the messages
    sent and the other indexes are the same table to a user of one index. *)

Section core.
Context {D : Type}.
Implicit Types (db : db_table_t D) (e : dbentry_common_t D).

Definition entry_eq e e' : Prop :=
  Z.testbit (flags e) 0 = Z.testbit (flags e') 0 /\ Z.testbit (flags e) 3 = Z.testbit (flags e') 3 /\
  real_data e = real_data e'.

Record core_eq db db' : Prop := {
  core_entries : Forall2 entry_eq (entries db) (entries db');
  core_alloc : entry_alloc_list db = entry_alloc_list db';
  core_use : entry_use_num db = entry_use_num db';
  core_limit : entry_use_num_limit db = entry_use_num_limit db';
  core_size : entry_size db = entry_size db';
  core_lock : lock db = lock db';
  core_mode : sync_mode db = sync_mode db'
}.

#[export] Instance entry_eq_equiv : Equivalence entry_eq.
Proof.
  split; [by intros e|intros e e' (? & ? & ?); by unfold entry_eq|].
  intros e1 e2 e3 (? & ? & ?) (? & ? & ?). unfold entry_eq. intuition congruence.
Qed.

#[export] Instance core_eq_equiv : Equivalence core_eq.
Proof.
  split.
  - intros db. by split.
  - intros db db' []. by split.
  - intros db1 db2 db3 [] []. split; [by etrans|congruence..].
Qed.

Lemma core_rd db db' i :
  core_eq db db' -> option_Forall2 entry_eq (rd (entries db) i) (rd (entries db') i).
Proof.
  intros [H _ _ _ _ _ _]. unfold rd. destruct (0 <=? i); [by apply Forall2_lookup|constructor].
Qed.

Lemma exist_flag e : negb (Z.land (flags e) DB_ENTRY_EXIST =? 0) = Z.testbit (flags e) 0.
Proof. unfold DB_ENTRY_EXIST. change 1 with (2 ^ 0) at 1. by rewrite land_bit, negb_involutive by lia. Qed.

#[local] Arguments Z.testbit : simpl never.

(** Reading an entry does not see the difference. *)
#[export] Instance get_entry_proper : Proper (core_eq ==> eq ==> eq) (db_table_get_entry (D := D)).
Proof.
  intros db db' Hc i ? <-. unfold db_table_get_entry.
  destruct (core_rd db db' i Hc) as [e e' (H1 & _ & H3)|]; [|done]. simpl.
  by rewrite !exist_flag, H1, H3.
Qed.

#[export] Instance entry_num_proper : Proper (core_eq ==> eq) (entry_num (D := D)).
Proof. intros db db' [H _ _ _ _ _ _]. unfold entry_num, zlen. by rewrite (Forall2_length _ _ _ H). Qed.

Lemma core_in_table db db' i : core_eq db db' -> in_table db i = in_table db' i.
Proof. intros H. unfold in_table. by rewrite H. Qed.

Lemma core_with_sent db l : core_eq (with_sent db l) db.
Proof. by split. Qed.
Lemma core_with_index db l : core_eq (with_index_list db l) db.
Proof. by split. Qed.

(** Changes of one entry that agree up to the marks. *)
Lemma core_alter_eq db db' id f f' :
  core_eq db db' -> (forall e e', entry_eq e e' -> entry_eq (f e) (f' e')) ->
  core_eq (alter_entry db id f) (alter_entry db' id f').
Proof.
  intros [H1 H2 H3 H4 H5 H6 H7] Hf. split; try done. unfold alter_entry, with_entries. cbn [entries].
  apply Forall2_same_length_lookup_2; [by rewrite !length_alter, (Forall2_length _ _ _ H1)|].
  intros i x y Hx Hy. destruct (decide (i = Z.to_nat id)) as [->|Hne].
  - rewrite list_lookup_alter_eq in Hx, Hy. apply fmap_Some in Hx as (x' & Hx & ->).
    apply fmap_Some in Hy as (y' & Hy & ->). apply Hf. by eapply Forall2_lookup_lr.
  - rewrite list_lookup_alter_ne in Hx, Hy by done. by eapply Forall2_lookup_lr.
Qed.

Lemma core_alter db id f : (forall e, entry_eq (f e) e) -> core_eq (alter_entry db id f) db.
Proof.
  intros Hf. trans (alter_entry db id (fun e => e)).
  - apply core_alter_eq; [done|]. intros e e' He. by rewrite Hf.
  - unfold alter_entry. destruct db as [es]. unfold with_entries. cbn. by rewrite list_alter_id.
Qed.

(** Setting or clearing the marks 1 and 2 is invisible. *)
Lemma core_synced db id flag : flag = 2 \/ flag = 4 -> core_eq (db_table_synced_entry db id flag) db.
Proof.
  intros Hf. unfold db_table_synced_entry. destruct (in_table db id); [|done]. apply core_alter.
  intros e. unfold entry_eq. cbn [flags real_data]. rewrite !Z.lor_spec.
  destruct Hf as [-> | ->]; repeat split; apply orb_false_r.
Qed.

Lemma core_unsynced db id : core_eq (db_table_unsynced_entry db id DB_HW_SW_SYNCED) db.
Proof.
  unfold db_table_unsynced_entry. destruct (in_table db id); [|done]. apply core_alter.
  intros e. unfold entry_eq. cbn [flags real_data]. rewrite !Z.land_spec. repeat split; apply andb_true_r.
Qed.

(** A function of tables that preserves the core, applied to equal cores. *)
Lemma core_foldl {B} (f : db_table_t D -> B -> db_table_t D) l db :
  (forall db x, core_eq (f db x) db) -> core_eq (foldl f db l) db.
Proof.
  intros Hf. revert db. induction l as [|x l IH]; intros db; simpl; [done|]. by rewrite IH, Hf.
Qed.

Context (ops : db_ops D).

Lemma core_sync_piece op db start num : core_eq (dbtable_sync_piece ops op db start num) db.
Proof.
  unfold dbtable_sync_piece. destruct (platform_db_sync ops) as [send|]; [|done].
  destruct (send _ =? 0); [|apply core_with_sent].
  rewrite core_foldl; [apply core_with_sent|]. intros. apply core_synced. by right.
Qed.

Lemma core_sync_pieces n db s num last : core_eq (sync_pieces ops n db s num last) db.
Proof.
  revert db s. induction n as [|n IH]; intros db s; [done|]. cbn [sync_pieces]. destruct n; [apply core_sync_piece|].
  rewrite IH. apply core_sync_piece.
Qed.

Lemma core_sync_insert db start num :
  0 < entry_size db <= MAX_SEND_SIZE - SYNC_HEADER_SIZE ->
  exists db', dbtable_sync_data_insert ops db start num = Some db' /\ core_eq db' db.
Proof.
  intros Hs. unfold dbtable_sync_data_insert.
  assert (1 <= (MAX_SEND_SIZE - SYNC_HEADER_SIZE) / entry_size db).
  { apply Z.div_le_lower_bound; lia. }
  destruct (Z.eqb_spec ((MAX_SEND_SIZE - SYNC_HEADER_SIZE) / entry_size db) 0); [lia|].
  eexists. split; [done|]. apply core_sync_pieces.
Qed.

(** Storing data in an entry, the change underneath insert and update. *)
Definition store (exist : bool) (d : D) (e : dbentry_common_t D) : dbentry_common_t D :=
  Entry (if exist then Z.lor (flags e) DB_ENTRY_EXIST else flags e) (modify_counter e) (Some d).

Lemma core_insert_entry db junk id d orig local_flag :
  0 < entry_size db <= MAX_SEND_SIZE - SYNC_HEADER_SIZE -> in_table db id = true ->
  exists db', db_table_insert_entry ops db junk id d orig local_flag = Some (0, db') /\
    core_eq db' (alter_entry db id (store true d)).
Proof.
  intros Hs Hi. unfold db_table_insert_entry. rewrite Hi. cbn [negb].
  set (db1 := alter_entry db id _). set (db2 := insert_others db1 junk d id orig).
  assert (core_eq db2 (alter_entry db id (store true d))) as H2.
  { unfold db2, insert_others. rewrite core_with_index. apply core_alter_eq; [done|].
    intros e e' (H1 & H2 & H3). unfold entry_eq. cbn [flags real_data store].
    by rewrite !Z.lor_spec, H1, H2. }
  destruct (sync_wanted ops db2 local_flag).
  - destruct (core_sync_insert db2 id 1) as (db3 & -> & H3); [done|]. simpl.
    exists db3. split; [done|]. by rewrite H3.
  - simpl. eauto.
Qed.

Lemma core_array_store db junk orig id d :
  0 < entry_size db <= MAX_SEND_SIZE - SYNC_HEADER_SIZE -> in_table db id = true ->
  exists db', array_store ops db junk orig id d = Some db' /\ core_eq db' (alter_entry db id (store true d)).
Proof.
  intros Hs Hi. unfold array_store. destruct (core_insert_entry db junk id d orig true Hs Hi) as (db1 & -> & H1).
  simpl. eexists. split; [done|]. rewrite <- H1.
  destruct (_ =? 0); [apply core_synced; by left|apply core_unsynced].
Qed.

Lemma core_update_entry db junk id d orig local_flag old :
  rd (entries db) id ≫= real_data = Some old ->
  exists db', db_table_update_entry ops db junk id d orig local_flag = (0, db') /\
    core_eq db' (alter_entry db id (store false d)).
Proof.
  intros Ho. unfold db_table_update_entry. rewrite Ho. eexists. split; [done|].
  set (db2 := insert_others _ junk d id orig).
  assert (core_eq db2 (alter_entry db id (store false d))) as H2 by (by split).
  destruct (_ && sync_wanted ops db2 local_flag); [|done].
  etrans; [apply core_sync_piece|done].
Qed.

(** ** Well-formed tables *)

Definition exist_at db (i : Z) : bool :=
  match rd (entries db) i with Some e => Z.testbit (flags e) 0 | None => false end.

Definition entry_wf e : Prop :=
  (Z.testbit (flags e) 0 = true <-> is_Some (real_data e)) /\ Z.testbit (flags e) 3 = false.

(** The free list is the ascending list of the numbers of the entries that
    do not exist; the use count is the number of the others. *)
Record wf_db db : Prop := {
  wf_entries : Forall entry_wf (entries db);
  wf_sorted : StronglySorted Z.lt (entry_alloc_list db);
  wf_free : forall i, i ∈ entry_alloc_list db <-> 0 <= i < entry_num db /\ exist_at db i = false;
  wf_use : entry_use_num db = entry_num db - zlen (entry_alloc_list db);
  wf_limit : entry_use_num_limit db = entry_num db;
  wf_num : entry_num db < 2 ^ 32;
  wf_esize : 0 < entry_size db <= MAX_SEND_SIZE - SYNC_HEADER_SIZE
}.

Lemma core_exist db db' i : core_eq db db' -> exist_at db i = exist_at db' i.
Proof.
  intros H. unfold exist_at. destruct (core_rd db db' i H) as [e e' (H1 & _)|]; done.
Qed.

#[export] Instance wf_db_proper : Proper (core_eq ==> iff) wf_db.
Proof.
  assert (forall db db', core_eq db db' -> wf_db db -> wf_db db') as H.
  { intros db db' Hc [H1 H2 H3 H4 H5 H6 H7]. pose proof (entry_num_proper db db' Hc) as En.
    pose proof Hc as [C1 C2 C3 C4 C5 C6 C7]. split; try congruence.
    - clear -H1 C1. induction C1 as [|e e' l l' (E1 & E2 & E3) _ IH]; [constructor|].
      apply Forall_cons in H1 as [[Ha Hb] H1]. constructor; [|by apply IH].
      unfold entry_wf. by rewrite <- E1, <- E2, <- E3.
    - intros i. rewrite <- C2, H3, En. by rewrite (core_exist db db' i Hc). }
  intros db db' Hc. split; apply H; [done|by symmetry].
Qed.

Lemma get_entry_exist db i : wf_db db -> (is_Some (db_table_get_entry db i) <-> exist_at db i = true).
Proof.
  intros [H1 _ _ _ _ _ _]. unfold db_table_get_entry, exist_at.
  destruct (rd (entries db) i) as [e|] eqn:E; cbn [mbind option_bind];
    [|split; [by intros [? [=]]|done]].
  rewrite exist_flag. destruct (Z.testbit (flags e) 0) eqn:Ef; [|split; [by intros [? [=]]|done]].
  split; [done|]. intros _. unfold rd in E. destruct (0 <=? i); [|done].
  apply (Forall_lookup_1 _ _ _ _ H1) in E as [He _]. by apply He.
Qed.

Lemma exist_at_range db i : exist_at db i = true -> 0 <= i < entry_num db.
Proof. unfold exist_at. destruct (rd (entries db) i) eqn:E; [|done]. intros _. by apply rd_Some_lt in E. Qed.

Lemma in_table_spec db i : in_table db i = true <-> 0 <= i < entry_num db.
Proof. unfold in_table. rewrite andb_true_iff, Z.leb_le, Z.ltb_lt. done. Qed.

(** Reading after an entry was changed. *)
Lemma get_entry_alter db id f i :
  0 <= id < entry_num db ->
  db_table_get_entry (alter_entry db id f) i =
  if i =? id then e ← f <$> rd (entries db) i; if Z.testbit (flags e) 0 then real_data e else None
  else db_table_get_entry db i.
Proof.
  intros Hi. unfold db_table_get_entry, alter_entry, with_entries. cbn [entries].
  rewrite rd_alter by lia. destruct (i =? id); [|done].
  destruct (rd (entries db) i) as [e|]; [|done]. simpl. by rewrite exist_flag.
Qed.

Lemma exist_at_alter db id f i :
  0 <= id < entry_num db ->
  exist_at (alter_entry db id f) i =
  if i =? id then default false ((fun e => Z.testbit (flags (f e)) 0) <$> rd (entries db) i)
  else exist_at db i.
Proof.
  intros Hi. unfold exist_at, alter_entry, with_entries. cbn [entries].
  rewrite rd_alter by lia. destruct (i =? id); [|done]. by destruct (rd (entries db) i).
Qed.

(** The map from entry numbers to data that a table holds. *)
Definition contents db : gmap Z D :=
  map_imap (fun i _ => db_table_get_entry db i)
    (gset_to_gmap tt (list_to_set (seqZ 0 (entry_num db)) : gset Z)).

Lemma contents_lookup db i : contents db !! i = db_table_get_entry db i.
Proof.
  unfold contents. rewrite map_lookup_imap, lookup_gset_to_gmap.
  destruct (decide (i ∈ seqZ 0 (entry_num db))) as [Hi|Hi].
  - rewrite option_guard_True by set_solver. done.
  - rewrite option_guard_False by set_solver. cbn [mbind option_bind].
    unfold db_table_get_entry. destruct (rd (entries db) i) eqn:E; [|done].
    apply rd_Some_lt in E. rewrite elem_of_seqZ in Hi. unfold entry_num in Hi. lia.
Qed.

#[export] Instance contents_proper : Proper (core_eq ==> eq) contents.
Proof. intros db db' Hc. apply map_eq. intros i. by rewrite !contents_lookup, Hc. Qed.

Lemma contents_exist db i : wf_db db -> contents db !! i = None <-> exist_at db i = false.
Proof.
  intros Hw. rewrite contents_lookup. pose proof (get_entry_exist db i Hw) as H.
  destruct (db_table_get_entry db i), (exist_at db i); rewrite is_Some_alt in H; intuition congruence.
Qed.

(** The free list is determined by the contents. *)
Definition free_ids (n : Z) (m : gmap Z D) : list Z := filter (fun i => m !! i = None) (seqZ 0 n).

Lemma alloc_list_free_ids db : wf_db db -> entry_alloc_list db = free_ids (entry_num db) (contents db).
Proof.
  intros Hw. apply sorted_ext.
  - apply wf_sorted, Hw.
  - apply sorted_filter, sorted_seqZ.
  - intros i. unfold free_ids. rewrite (wf_free _ Hw), list_elem_of_filter, elem_of_seqZ, contents_exist by done.
    split; intros ?; intuition lia.
Qed.

Lemma alloc_list_len db : wf_db db -> zlen (entry_alloc_list db) <= entry_num db.
Proof.
  intros Hw. apply sorted_zlen; [apply wf_sorted, Hw|unfold entry_num, zlen; lia|].
  intros i [Hi _]%(wf_free _ Hw). done.
Qed.

(** The three changes of a well-formed table. *)
Lemma entry_wf_store e b d : entry_wf e -> (b = false -> is_Some (real_data e)) -> entry_wf (store b d e).
Proof.
  unfold entry_wf. intros [H1 H2] Hb. cbn [flags real_data store]. destruct b.
  - rewrite !Z.lor_spec. split; [|by rewrite H2]. change (Z.testbit DB_ENTRY_EXIST 0) with true.
    rewrite orb_true_r. split; [by intros _; eexists|done].
  - split; [|done]. rewrite H1. split; [by intros _; eexists|]. intros _. by apply Hb.
Qed.

Lemma Forall_alter_rd (P : dbentry_common_t D -> Prop) db id f :
  Forall P (entries db) -> (forall e, rd (entries db) id = Some e -> P e -> P (f e)) -> 0 <= id ->
  Forall P (entries (alter_entry db id f)).
Proof.
  intros HP Hf Hid. unfold alter_entry, with_entries. cbn [entries]. apply Forall_alter; [done|].
  intros e He. apply Hf. unfold rd. destruct (Z.leb_spec 0 id); [done|lia].
Qed.

Lemma entry_num_alter db id f : entry_num (alter_entry db id f) = entry_num db.
Proof. apply zlen_alter. Qed.

Lemma wf_take db l1 x l2 d :
  wf_db db -> entry_alloc_list db = l1 ++ x :: l2 ->
  let db' := alter_entry (with_alloc db (u32 (entry_use_num db + 1)) (l1 ++ l2)) x (store true d) in
  wf_db db' /\ contents db' = <[x := d]> (contents db) /\ entry_num db' = entry_num db.
Proof.
  intros Hw El db'. pose proof (alloc_list_len db Hw) as Hlen. destruct Hw as [H1 H2 H3 H4 H5 H6 H7].
  assert (x ∈ entry_alloc_list db) as Hx by (rewrite El, elem_of_app, elem_of_cons; tauto).
  apply H3 in Hx as [Hr Hex].
  assert (entry_num db' = entry_num db) as En by (unfold db'; by rewrite entry_num_alter).
  rewrite El in H2. destruct (sorted_remove _ _ _ H2) as [Hs Hi].
  destruct (rd_lt_Some (entries db) x) as [e0 He0]; [done|].
  split_and!; [split|..]; rewrite ?En; try done.
  - apply Forall_alter_rd; [done| |lia]. intros e _ He. by apply entry_wf_store.
  - intros i. change (entry_alloc_list db') with (l1 ++ l2). rewrite Hi, <- El, H3.
    unfold db'. rewrite exist_at_alter by done. change (exist_at (with_alloc _ _ _) i) with (exist_at db i).
    cbn [entries with_alloc]. destruct (Z.eqb_spec i x) as [->|]; [|tauto].
    rewrite He0. cbn. rewrite Z.lor_spec, orb_true_r. intuition congruence.
  - change (u32 (entry_use_num db + 1) = entry_num db - zlen (l1 ++ l2)).
    assert (zlen (entry_alloc_list db) = zlen (l1 ++ l2) + 1) as Hz.
    { rewrite El. unfold zlen. rewrite !length_app. cbn [length]. lia. }
    rewrite H4, Hz, u32_small; [lia|]. unfold u32_range. unfold zlen in Hlen, Hz |- *. lia.
  - apply map_eq. intros i. rewrite contents_lookup. unfold db'. rewrite get_entry_alter by done.
    cbn [entries with_alloc]. destruct (Z.eqb_spec i x) as [->|].
    + rewrite He0. cbn. rewrite Z.lor_spec, orb_true_r. by rewrite lookup_insert_eq.
    + rewrite lookup_insert_ne, contents_lookup by done. done.
Qed.

Lemma wf_set db x d :
  wf_db db -> exist_at db x = true ->
  let db' := alter_entry db x (store false d) in
  wf_db db' /\ contents db' = <[x := d]> (contents db) /\ entry_num db' = entry_num db.
Proof.
  intros Hw Hx db'. pose proof (exist_at_range _ _ Hx) as Hr.
  assert (forall i, exist_at db' i = exist_at db i) as Hex.
  { intros i. unfold db'. rewrite exist_at_alter by done. destruct (Z.eqb_spec i x); [|done].
    unfold exist_at. by destruct (rd (entries db) i). }
  destruct Hw as [H1 H2 H3 H4 H5 H6 H7].
  assert (entry_num db' = entry_num db) as En by (unfold db'; by rewrite entry_num_alter).
  unfold exist_at in Hx. destruct (rd (entries db) x) as [e0|] eqn:He0; [|done].
  split_and!; [split|..]; rewrite ?En; try done.
  - apply Forall_alter_rd; [done| |lia]. intros e He We. apply entry_wf_store; [done|].
    intros _. apply We. congruence.
  - intros i. change (entry_alloc_list db') with (entry_alloc_list db). by rewrite Hex, H3.
  - apply map_eq. intros i. rewrite contents_lookup. unfold db'. rewrite get_entry_alter by done.
    destruct (Z.eqb_spec i x) as [->|].
    + rewrite He0. cbn. by rewrite Hx, lookup_insert_eq.
    + by rewrite lookup_insert_ne, contents_lookup by done.
Qed.

(** Clearing an entry, the change underneath delete. *)
Definition clear_entry (e : dbentry_common_t D) : dbentry_common_t D :=
  Entry (Z.land (flags e) (not32 DB_ENTRY_EXIST)) (modify_counter e) None.

#[local] Arguments clear_entry : simpl never.

Lemma wf_drop db x :
  wf_db db -> exist_at db x = true ->
  let db' := db_table_internal_free_order (alter_entry db x clear_entry) x in
  wf_db db' /\ contents db' = delete x (contents db) /\ entry_num db' = entry_num db.
Proof.
  intros Hw Hx db'. pose proof (exist_at_range _ _ Hx) as Hr. pose proof (alloc_list_len db Hw) as Hlen.
  destruct Hw as [H1 H2 H3 H4 H5 H6 H7].
  assert (entry_num db' = entry_num db) as En by (apply (entry_num_alter db x clear_entry)).
  assert (~ x ∈ entry_alloc_list db) as Hn by (rewrite H3; intuition congruence).
  assert (forall e, Z.testbit (flags (clear_entry e)) 0 = false) as Hc.
  { intros e. unfold clear_entry. cbn [flags]. rewrite Z.land_spec. apply andb_false_r. }
  unfold exist_at in Hx. destruct (rd (entries db) x) as [e0|] eqn:He0; [|done].
  split_and!; [split|..]; rewrite ?En; try done.
  - apply Forall_alter_rd; [done| |lia]. intros e He We. split; [|].
    + rewrite Hc. split; [done|by intros [? [=]]].
    + unfold clear_entry. cbn [flags]. rewrite Z.land_spec. destruct We as [_ ->]. done.
  - by apply sorted_insert_order.
  - intros i. change (entry_alloc_list db') with (insert_order x (entry_alloc_list db)).
    change (exist_at db' i) with (exist_at (alter_entry db x clear_entry) i).
    rewrite elem_of_insert_order, H3, exist_at_alter by done.
    destruct (Z.eqb_spec i x) as [->|]; [|intuition congruence].
    rewrite He0. cbn. rewrite Hc. tauto.
  - change (u32 (entry_use_num db - 1) = entry_num db - zlen (insert_order x (entry_alloc_list db))).
    assert (zlen (insert_order x (entry_alloc_list db)) <= entry_num db) as Hl.
    { apply sorted_zlen; [by apply sorted_insert_order|lia|].
      intros i [-> |[Hi _]%H3]%elem_of_insert_order; done. }
    rewrite zlen_insert_order in Hl |- *. rewrite H4, u32_small; [lia|].
    unfold u32_range. unfold zlen in Hl |- *. lia.
  - apply map_eq. intros i. rewrite contents_lookup.
    change (db_table_get_entry db' i) with (db_table_get_entry (alter_entry db x clear_entry) i).
    rewrite get_entry_alter by done. destruct (Z.eqb_spec i x) as [->|].
    + rewrite He0. cbn. by rewrite Hc, lookup_delete_eq.
    + by rewrite lookup_delete_ne, contents_lookup by done.
Qed.

#[export] Instance free_order_proper : Proper (core_eq ==> eq ==> core_eq) (db_table_internal_free_order (D := D)).
Proof.
  intros db db' [H1 H2 H3 H4 H5 H6 H7] x ? <-. split; try done; unfold db_table_internal_free_order, with_alloc; cbn.
  - by rewrite H2.
  - by rewrite H3.
Qed.

Lemma rd_exist db x : exist_at db x = true -> exists e, rd (entries db) x = Some e /\ Z.testbit (flags e) 0 = true.
Proof. unfold exist_at. destruct (rd (entries db) x) as [e|]; [eauto|done]. Qed.

Lemma core_free_entry_index db junk x orig :
  core_eq (db_table_free_entry_index db junk x orig).2 db.
Proof.
  unfold db_table_free_entry_index. destruct (in_table db x); [|done]. cbn [negb].
  destruct (rd (entries db) x) as [e|]; [|done]. destruct (_ =? 0); [done|]. apply core_with_index.
Qed.

Lemma core_delete_entry db x local_flag :
  wf_db db -> exist_at db x = true ->
  exists db', db_table_delete_entry ops db x local_flag = (0, db') /\
    core_eq db' (db_table_internal_free_order (alter_entry db x clear_entry) x).
Proof.
  intros Hw Hx. destruct (rd_exist db x Hx) as (e & He & Hb). unfold db_table_delete_entry. rewrite He.
  pose proof (exist_flag e) as Hf. rewrite Hb in Hf. destruct (_ =? 0); [done|]. cbv zeta.
  set (db1 := if sync_wanted ops db local_flag then _ else db).
  assert (core_eq db1 db) as H1 by (unfold db1; destruct (sync_wanted ops db local_flag); [apply core_sync_piece|done]).
  pose proof (core_rd db1 db x H1) as Hr. rewrite He in Hr. inversion Hr as [e1 ? (_ & Hd & _) E1|]. subst.
  assert (Z.testbit (flags e) 3 = false) as H3.
  { unfold rd in He. destruct (0 <=? x); [|done]. by apply (Forall_lookup_1 _ _ _ _ (wf_entries _ Hw)) in He as [_ He]. }
  change (default 0 (flags <$> Some e1)) with (flags e1). change DB_DELETE_NOT_SYNCED with (2 ^ 3).
  rewrite land_bit, Hd, H3 by lia. cbn [negb]. eexists. split; [done|].
  apply free_order_proper; [|done]. apply core_alter_eq; [done|].
  intros e2 e3 (E & E' & E''). unfold entry_eq, clear_entry. cbn [flags real_data]. by rewrite !Z.land_spec, E, E'.
Qed.

(** ** The array index as a map

    What the array operations promise: the table is a finite map from
    entry numbers below its size, and an insertion takes the requested
    number, the least free one, or the least free one from a start. *)

Inductive array_op :=
  | InsertById (array_index : Z) (data : D)
  | Insert (data : D)
  | InsertAfter (data : D) (start_id : Z)
  | Get (array_index : Z)
  | Delete (array_index : Z)
  | Update (array_index : Z) (data : D).

(** Return code, [*array_index] and the data copied out. *)
Record array_res := Res { code : Z; out_index : option Z; out_data : option D }.

Definition array_exec (junk : D) (array : nat) (db : db_table_t D) (op : array_op)
  : option (array_res * db_table_t D) :=
  match op with
  | InsertById i d => '(r, db) ← dbtable_array_insert_byid ops db junk array i d; Some (Res r None None, db)
  | Insert d => '(r, i, db) ← dbtable_array_insert ops db junk array d; Some (Res r (Some i) None, db)
  | InsertAfter d s => '(r, i, db) ← dbtable_array_insert_after ops db junk array d s; Some (Res r (Some i) None, db)
  | Get i => let '(r, db) := dbtable_array_get db i in Some (Res (if r is Some _ then 0 else -1) None r, db)
  | Delete i => let '(r, d, db) := dbtable_array_delete ops db junk array i in Some (Res r None d, db)
  | Update i d => let '(r, db) := dbtable_array_update ops db junk array i d in Some (Res r None None, db)
  end.

Definition spec_insert_first (n : Z) (m : gmap Z D) (start : Z) (d : D) : array_res * gmap Z D :=
  match filter (fun i => start <= i) (free_ids n m) with
  | i :: _ => (Res 0 (Some i) None, <[i := d]> m)
  | [] => (Res (-1) (Some (2 ^ 32 - 1)) None, m)
  end.

Definition array_spec (n : Z) (m : gmap Z D) (op : array_op) : array_res * gmap Z D :=
  match op with
  | InsertById i d =>
      if bool_decide (i ∈ free_ids n m) then (Res 0 None None, <[i := d]> m) else (Res (-1) None None, m)
  | Insert d => spec_insert_first n m 0 d
  | InsertAfter d s => spec_insert_first n m s d
  | Get i => (Res (if m !! i is Some _ then 0 else -1) None (m !! i), m)
  | Delete i => (Res 0 None (m !! i), delete i m)
  | Update i d => match m !! i with Some _ => (Res 0 None None, <[i := d]> m) | None => (Res (-1) None None, m) end
  end.

Fixpoint array_runs (junk : D) (array : nat) (db : db_table_t D) (l : list array_op)
  : option (list array_res * db_table_t D) :=
  match l with
  | [] => Some ([], db)
  | op :: l =>
      '(r, db) ← array_exec junk array db op;
      '(rs, db) ← array_runs junk array db l;
      Some (r :: rs, db)
  end.

Fixpoint array_specs (n : Z) (m : gmap Z D) (l : list array_op) : list array_res * gmap Z D :=
  match l with
  | [] => ([], m)
  | op :: l =>
      let '(r, m) := array_spec n m op in
      let '(rs, m) := array_specs n m l in
      (r :: rs, m)
  end.

(** What an operation must establish. *)
Definition refines (db : db_table_t D) (r : array_res * gmap Z D) (x : option (array_res * db_table_t D)) : Prop :=
  exists db', x = Some (r.1, db') /\ contents db' = r.2 /\ wf_db db' /\ lock db' = lock db /\
    entry_num db' = entry_num db /\ sync_mode db' = sync_mode db.

Lemma wf_lock db n : wf_db (with_lock db n) <-> wf_db db.
Proof. split; intros []; by split. Qed.

Lemma refines_core db db1 db2 r m :
  core_eq db1 db2 -> wf_db db2 -> contents db2 = m -> lock db2 = lock db + 1 -> entry_num db2 = entry_num db ->
  sync_mode db2 = sync_mode db ->
  refines db (r, m) (Some (r, db_table_unlock db1)).
Proof.
  intros Hc Hw Hm Hl Hn Hs. exists (db_table_unlock db1). split_and!; [done|..].
  - change (contents db1 = m). by rewrite Hc.
  - apply wf_lock. by rewrite Hc.
  - cbn. rewrite (core_lock _ _ Hc). lia.
  - change (entry_num db1 = entry_num db). by rewrite Hc.
  - change (sync_mode db1 = sync_mode db). by rewrite (core_mode _ _ Hc).
Qed.

Lemma array_insert_ok db l1 i l2 d junk array :
  wf_db db -> entry_alloc_list db = l1 ++ i :: l2 ->
  exists db', array_store ops (with_alloc (db_table_lock db) (u32 (entry_use_num db + 1)) (l1 ++ l2)) junk array i d
      = Some db' /\
    forall r, refines db (r, <[i := d]> (contents db)) (Some (r, db_table_unlock db')).
Proof.
  intros Hw Hl. destruct (wf_take (db_table_lock db) l1 i l2 d) as (Hw' & Hc' & Hn'); [by apply wf_lock|done|].
  set (db1 := with_alloc _ _ _) in *. destruct (core_array_store db1 junk array i d) as (db2 & E & H2).
  - exact (wf_esize _ Hw).
  - apply in_table_spec. apply (wf_free _ Hw i). rewrite Hl, elem_of_app, elem_of_cons. tauto.
  - exists db2. split; [done|]. intros r. by eapply refines_core.
Qed.

Lemma insert_first_ok db d start junk array :
  wf_db db ->
  refines db (spec_insert_first (entry_num db) (contents db) start d)
    (match take_first (fun x => start <=? x) (entry_alloc_list db) with
     | Some (i, l) =>
         db' ← array_store ops (with_alloc (db_table_lock db) (u32 (entry_use_num db + 1)) l) junk array i d;
         Some (Res 0 (Some i) None, db_table_unlock db')
     | None => Some (Res (-1) (Some (u32 (-1))) None, db_table_unlock (db_table_lock db))
     end).
Proof.
  intros Hw. unfold spec_insert_first. rewrite <- (alloc_list_free_ids _ Hw).
  destruct (take_first _ _) as [[i l]|] eqn:Et.
  - apply take_first_Some in Et as (l1 & l2 & Hl & -> & Hi & Hf).
    rewrite Hl, filter_app, filter_cons, decide_True by lia. rewrite (filter_none _ l1).
    + cbn [app]. destruct (array_insert_ok db l1 i l2 d junk array Hw Hl) as (db' & -> & H). apply H.
    + apply Forall_forall. intros x Hx. rewrite Forall_forall in Hf. specialize (Hf x Hx). lia.
  - apply take_first_None in Et. rewrite filter_none.
    + apply (refines_core db (db_table_lock db) (db_table_lock db)); try done. by apply wf_lock.
    + apply Forall_forall. intros x Hx. rewrite Forall_forall in Et. specialize (Et x Hx). lia.
Qed.

Lemma delete_ok db i junk array :
  wf_db db -> exist_at db i = true ->
  exists db', db_table_delete_entry ops (db_table_free_entry_index (db_table_lock db) junk i array).2 i true = (0, db') /\
    forall r, refines db (r, delete i (contents db)) (Some (r, db_table_unlock db')).
Proof.
  intros Hw Hx. set (db1 := (db_table_free_entry_index _ _ _ _).2).
  assert (core_eq db1 (db_table_lock db)) as H1 by apply core_free_entry_index.
  assert (wf_db db1) as Hw1 by (rewrite H1; by apply wf_lock).
  assert (exist_at db1 i = true) as Hx1 by (by rewrite (core_exist _ _ i H1)).
  destruct (core_delete_entry db1 i true Hw1 Hx1) as (db2 & -> & H2).
  destruct (wf_drop db1 i Hw1 Hx1) as (Hw2 & Hc2 & Hn2).
  exists db2. split; [done|]. intros r. eapply refines_core; [exact H2|done|..].
  - rewrite Hc2. by rewrite H1.
  - exact (core_lock _ _ H1).
  - rewrite Hn2. by rewrite H1.
  - exact (core_mode _ _ H1).
Qed.

Lemma update_ok db i d old junk array :
  wf_db db -> db_table_get_entry db i = Some old ->
  exists db', db_table_update_entry ops (db_table_lock db) junk i d array true = (0, db') /\
    forall r (b : bool), refines db (r, <[i := d]> (contents db))
      (Some (r, db_table_unlock (if b then db_table_synced_entry db' i DB_HW_SW_SYNCED
                                 else db_table_unsynced_entry db' i DB_HW_SW_SYNCED))).
Proof.
  intros Hw Hg. assert (exist_at db i = true) as Hx by (apply get_entry_exist; [done|]; by rewrite Hg).
  destruct (wf_set (db_table_lock db) i d) as (Hw' & Hc' & Hn'); [by apply wf_lock|done|].
  destruct (core_update_entry (db_table_lock db) junk i d array true old) as (db1 & -> & H1).
  { unfold db_table_get_entry in Hg. change (entries (db_table_lock db)) with (entries db).
    destruct (rd (entries db) i) as [e|]; [|done]. cbn [mbind option_bind] in *. by destruct (negb _). }
  exists db1. split; [done|]. intros r b. eapply refines_core; [|done..]. rewrite <- H1.
  destruct b; [apply core_synced; by left|apply core_unsynced].
Qed.

Lemma array_step_ok junk array db op :
  wf_db db -> refines db (array_spec (entry_num db) (contents db) op) (array_exec junk array db op).
Proof.
  intros Hw. assert (wf_db (db_table_lock db)) as Hwl by (by apply wf_lock).
  assert (forall r, refines db (r, contents db) (Some (r, db_table_unlock (db_table_lock db)))) as Hsame.
  { intros r. by apply (refines_core db (db_table_lock db) (db_table_lock db)). }
  destruct op as [i d|d|d s|i|i|i d]; cbn [array_exec array_spec].
  - unfold dbtable_array_insert_byid, db_table_internal_alloc.
    change (entry_alloc_list (db_table_lock db)) with (entry_alloc_list db).
    change (entry_use_num (db_table_lock db)) with (entry_use_num db).
    rewrite <- (alloc_list_free_ids _ Hw). destruct (take_first _ _) as [[x l]|] eqn:Et.
    + apply take_first_Some in Et as (l1 & l2 & Hl & -> & Hi & _). apply Z.eqb_eq in Hi as ->.
      rewrite bool_decide_true by (rewrite Hl, elem_of_app, elem_of_cons; tauto).
      destruct (array_insert_ok db l1 i l2 d junk array Hw Hl) as (db' & -> & H). apply H.
    + apply take_first_None in Et. rewrite Forall_forall in Et. rewrite bool_decide_false; [apply Hsame|].
      intros Hi. specialize (Et i Hi). lia.
  - pose proof (insert_first_ok db d 0 junk array Hw) as H. unfold dbtable_array_insert, osal_table_entry_id_alloc.
    change (entry_alloc_list (db_table_lock db)) with (entry_alloc_list db).
    destruct (entry_alloc_list db) as [|x l] eqn:El; [exact H|].
    assert (0 <= x) as Hx by (apply (wf_free _ Hw x); rewrite El; by left).
    cbn [take_first] in H. rewrite (proj2 (Z.leb_le 0 x) Hx) in H.
    change (entry_use_num_limit (db_table_lock db)) with (entry_use_num_limit db).
    change (entry_use_num (db_table_lock db)) with (entry_use_num db).
    rewrite (wf_limit _ Hw), (wf_use _ Hw), El in *. unfold zlen in *. cbn [length] in *.
    destruct (Z.leb_spec (entry_num db) (entry_num db - Z.of_nat (S (length l)))); [lia|].
    destruct (Z.eqb_spec x (-1)); [lia|]. by destruct (array_store _ _ _ _ _ _).
  - pose proof (insert_first_ok db d s junk array Hw) as H.
    unfold dbtable_array_insert_after, db_table_internal_alloc_after.
    change (entry_alloc_list (db_table_lock db)) with (entry_alloc_list db).
    destruct (take_first _ _) as [[x l]|]; [|done]. change (entry_use_num (db_table_lock db)) with (entry_use_num db).
    destruct (array_store _ _ _ _ _ _); [done|]. done.
  - unfold dbtable_array_get. rewrite contents_lookup. apply Hsame.
  - unfold dbtable_array_delete. rewrite contents_lookup.
    change (db_table_get_entry (db_table_lock db) i) with (db_table_get_entry db i).
    destruct (db_table_get_entry db i) as [d|] eqn:Eg.
    + assert (exist_at db i = true) as Hx by (apply get_entry_exist; [done|]; by rewrite Eg).
      destruct (delete_ok db i junk array Hw Hx) as (db' & E & H).
      destruct (db_table_free_entry_index _ _ _ _) as [r1 db1]. cbn [snd] in E. rewrite E. apply H.
    + rewrite delete_id by (by rewrite contents_lookup). apply Hsame.
  - unfold dbtable_array_update. rewrite contents_lookup.
    change (db_table_get_entry (db_table_lock db) i) with (db_table_get_entry db i).
    destruct (db_table_get_entry db i) as [old|] eqn:Eg; [|apply Hsame].
    destruct (update_ok db i d old junk array Hw Eg) as (db' & -> & H). apply H.
Qed.

Lemma array_runs_ok junk array db l :
  wf_db db ->
  exists db', array_runs junk array db l = Some ((array_specs (entry_num db) (contents db) l).1, db') /\
    contents db' = (array_specs (entry_num db) (contents db) l).2 /\
    wf_db db' /\ lock db' = lock db /\ entry_num db' = entry_num db.
Proof.
  revert db. induction l as [|op l IH]; intros db Hw; cbn [array_runs array_specs]; [by exists db|].
  destruct (array_step_ok junk array db op Hw) as (db1 & E1 & Hc1 & Hw1 & Hl1 & Hn1 & _). rewrite E1.
  destruct (array_spec (entry_num db) (contents db) op) as [r m]. cbn [fst snd] in *. subst m.
  cbn [mbind option_bind]. destruct (IH db1 Hw1) as (db2 & E2 & Hc2 & Hw2 & Hl2 & Hn2).
  rewrite E2. rewrite Hn1 in Hc2, Hn2 |- *. cbn [mbind option_bind].
  destruct (array_specs (entry_num db) (contents db1) l) as [rs m']. exists db2. cbn [fst snd] in *.
  by rewrite Hc2, Hl2, Hl1, Hn2.
Qed.

Lemma create_wf num esize sync_flag :
  0 <= num < 2 ^ 32 -> 0 < esize <= MAX_SEND_SIZE - SYNC_HEADER_SIZE ->
  let db := create_dbtable num esize sync_flag : db_table_t D in
  wf_db db /\ contents db = ∅ /\ entry_num db = num.
Proof.
  intros Hn Hs db.
  assert (entry_num db = num) as En.
  { unfold entry_num, zlen, db, create_dbtable. cbn [entries]. rewrite length_replicate. lia. }
  assert (forall i e, rd (entries db) i = Some e -> e = empty_entry) as He.
  { intros i e. unfold rd, db, create_dbtable. cbn [entries]. destruct (0 <=? i); [|done].
    by intros [-> _]%lookup_replicate. }
  assert (forall i, exist_at db i = false) as Hx.
  { intros i. unfold exist_at. destruct (rd (entries db) i) as [e|] eqn:E; [|done]. by apply He in E as ->. }
  split_and!; [split|..]; rewrite ?En; try done.
  - apply Forall_replicate. split; [split; [done|by intros [? [=]]]|done].
  - unfold db, create_dbtable. cbn [entry_alloc_list]. rewrite alloc_list_init_seqZ by lia. apply sorted_seqZ.
  - intros i. unfold db at 1, create_dbtable. cbn [entry_alloc_list]. rewrite alloc_list_init_seqZ by lia.
    rewrite elem_of_seqZ, Hx. split; [intros; split; [lia|done]|lia].
  - unfold db, create_dbtable. cbn [entry_alloc_list entry_use_num]. rewrite alloc_list_init_seqZ by lia.
    unfold zlen. rewrite length_seqZ. lia.
  - lia.
  - apply map_eq. intros i. rewrite contents_lookup, lookup_empty. unfold db_table_get_entry.
    destruct (rd (entries db) i) as [e|] eqn:E; [|done]. by apply He in E as ->.
Qed.

(** The number in use is the number of entries. *)
Lemma use_num_size db : wf_db db -> entry_use_num db = Z.of_nat (base.size (contents db)).
Proof.
  intros Hw. rewrite (wf_use _ Hw), <- size_dom.
  assert (dom (contents db) ∪ list_to_set (entry_alloc_list db) = (list_to_set (seqZ 0 (entry_num db)) : gset Z)) as Hu.
  { apply set_eq. intros i. rewrite elem_of_union, !elem_of_list_to_set, elem_of_seqZ, (wf_free _ Hw), elem_of_dom,
      contents_lookup, get_entry_exist by done.
    pose proof (exist_at_range db i). destruct (exist_at db i); intuition (try lia; try done). }
  apply (f_equal base.size) in Hu. rewrite size_union in Hu.
  - rewrite (size_list_to_set (entry_alloc_list db)) in Hu by apply sorted_NoDup, Hw.
    rewrite (size_list_to_set (seqZ _ _)), length_seqZ in Hu by apply NoDup_seqZ.
    unfold zlen, entry_num, zlen in *. lia.
  - intros i Hd. rewrite elem_of_list_to_set, (wf_free _ Hw), <- contents_exist by done.
    apply elem_of_dom in Hd as [? ->]. by intros [_ ?].
Qed.

End core.

(** ** Properties *)

(** C1: The array index implements a finite map: on a table made by
    [create_dbtable] and [dbtable_create_array_index], every sequence of
    array insertions (by number, first free, first free from a start),
    reads, deletions and updates returns without error the codes, numbers
    and data of the map specification, whatever the owner's callbacks and
    the platform answer; the table then holds exactly the map, counts its
    entries and its lock is released. *)
Theorem array_index_refines_map {D} (ops : db_ops D) (junk : D) num esize sync_flag l :
  0 <= num < 2 ^ 32 -> 0 < esize <= MAX_SEND_SIZE - SYNC_HEADER_SIZE ->
  let db := dbtable_create_array_index (create_dbtable num esize sync_flag) in
  exists db',
    array_runs ops junk 0 db l = Some ((array_specs num ∅ l).1, db') /\
    contents db' = (array_specs num ∅ l).2 /\
    dbtable_array_totalcount db' = num /\
    entry_use_num db' = Z.of_nat (base.size (contents db')) /\ lock db' = 0.
Proof.
  intros Hn Hs db. destruct (create_wf (D := D) num esize sync_flag Hn Hs) as (Hw & Hc & He).
  assert (wf_db db) as Hwi by (unfold db, dbtable_create_array_index; by rewrite core_with_index).
  destruct (array_runs_ok ops junk 0 db l Hwi) as (db' & E & Hc' & Hw' & Hl' & Hn').
  change (entry_num db) with (entry_num (create_dbtable num esize sync_flag : db_table_t D)) in *.
  change (contents db) with (contents (create_dbtable num esize sync_flag : db_table_t D)) in *.
  rewrite He, Hc in *. exists db'. split_and!; try done. by apply use_num_size.
Qed.

(** A table of three entries: fill it, fail, free the middle one, take it
    again by number. *)
Definition demo_ops : db_ops Z :=
  {| handle_update := None; handle_insert := Some (fun d => d - 5); handle_delete := None;
     app_handle_update := None; app_handle_delete := None; platform_db_sync := Some (fun _ => 0);
     platform_relay_flag := false; same_sync_part := Z.eqb; keep_local := fun new _ => new;
     entry_hton := Z.opp; entry_ntoh := Z.opp; zero_entry := 0; have_sync := true |}.

Definition demo_script : list (array_op (D := Z)) :=
  [Insert 5; InsertAfter 6 2; Insert 7; Insert 8; Delete 1; Get 1; InsertById 1 9; Update 0 4; Get 0; InsertById 2 1].

Lemma array_index_refines_map_witness :
  exists db',
    array_runs demo_ops 0 0 (dbtable_create_array_index (create_dbtable 3 8 1)) demo_script =
      Some ([Res 0 (Some 0) None; Res 0 (Some 2) None; Res 0 (Some 1) None; Res (-1) (Some (2 ^ 32 - 1)) None;
             Res 0 None (Some 7); Res (-1) None None; Res 0 None None; Res 0 None None; Res 0 None (Some 4);
             Res (-1) None None], db') /\
    contents db' = <[0 := 4]> (<[1 := 9]> (<[2 := 6]> ∅)).
Proof.
  destruct (array_index_refines_map demo_ops 0 3 8 1 demo_script) as (db' & E & Hc & _);
    [split; [discriminate|reflexivity]|split; [reflexivity|discriminate]|].
  exists db'. split; [exact E|rewrite Hc; vm_compute; reflexivity].
Defined.
