(* ===== verification/DatabaseSync.v ===== *)
(** * Replication of a table between boards

    The receiving side of [npd_database.c] ([dbtable_recv]) and what it
    makes of the messages the sending side produces: a board that applies
    them in order holds the same entries. *)

From Stdlib Require Import ZArith Lia Bool.
From stdpp Require Import base decidable list gmap.
From S2P Require Import Prelude Database.

Open Scope Z_scope.

Section recv.
Context {D : Type} (ops : db_ops D) (junk : D).
Implicit Types (db : db_table_t D).

(** The body of the loop over the blocks either goes on or returns from
    [dbtable_recv]. *)
Inductive recv_step := Continue (db : db_table_t D) | Return (r : Z) (db : db_table_t D).

(** [orig_index] is [NULL]: every index of the table is told. *)
Definition no_index db : nat := length (index_list db).

(** The owner's callback, then the application's, the last one deciding. *)
Definition recv_callbacks (first second : option Z) (op_ret : Z) : Z := default (default op_ret first) second.

(** Replace an existing entry. *)
Definition recv_update db (entry_id : Z) (data predata : D) : Z * db_table_t D :=
  let data := keep_local ops data predata in
  let '(_, db) := db_table_update_entry ops db junk entry_id data (no_index db) false in
  let op_ret := recv_callbacks ((fun f => f data predata) <$> handle_update ops)
                  ((fun f => f data predata) <$> app_handle_update ops) 0 in
  (op_ret, db_table_lock (db_table_unlock db)).

Definition recv_block (op : NPD_SYNC_OP) db (entry_id : Z) (block : D) : option recv_step :=
  if entry_num db <=? entry_id then Some (Return (-1) (db_table_unlock db))
  else
    let data := entry_ntoh ops block in
    match op with
    | NPD_SYNC_OP_ITEM_ADD =>
        match db_table_internal_alloc db entry_id with
        | (None, db) =>
            match db_table_get_entry db entry_id with
            | None => Some (Return (-1) (db_table_unlock db))
            | Some predata =>
                let '(op_ret, db) := recv_update db entry_id data predata in
                Some (Continue (if op_ret =? 0 then db_table_synced_entry db entry_id DB_HW_SW_SYNCED else db))
            end
        | (Some _, db) =>
            '(_, db) ← db_table_insert_entry ops db junk entry_id data (no_index db) false;
            let op_ret := recv_callbacks ((fun f => f data) <$> handle_insert ops)
                            ((fun f => f data data) <$> app_handle_update ops) 0 in
            let db := db_table_lock (db_table_unlock db) in
            Some (Continue (if op_ret =? 0 then db_table_synced_entry db entry_id DB_HW_SW_SYNCED
                            else db_table_unsynced_entry db entry_id DB_HW_SW_SYNCED))
        end
    | NPD_SYNC_OP_ITEM_DEL =>
        let db := db_table_lock (db_table_unlock db) in
        let db := db_table_synced_entry db entry_id DB_HW_SW_SYNCED in
        let '(_, db) := db_table_free_entry_index db junk entry_id (no_index db) in
        let '(_, db) := db_table_delete_entry ops db entry_id false in
        Some (Continue db)
    | NPD_SYNC_OP_ITEM_UPDATE =>
        match db_table_get_entry db entry_id with
        | None => Some (Return (-1) (db_table_unlock db))
        | Some predata =>
            let '(op_ret, db) := recv_update db entry_id data predata in
            Some (Continue (if op_ret =? 0 then db_table_synced_entry db entry_id DB_HW_SW_SYNCED
                            else db_table_unsynced_entry db entry_id DB_HW_SW_SYNCED))
        end
    end.

Fixpoint recv_blocks (op : NPD_SYNC_OP) db (entry_id : Z) (l : list D) : option recv_step :=
  match l with
  | [] => Some (Continue db)
  | x :: l =>
      r ← recv_block op db entry_id x;
      match r with
      | Return _ _ => Some r
      | Continue db => recv_blocks op db (u32 (entry_id + 1)) l
      end
  end.

(** The messages of one buffer, all for this table. *)
Fixpoint dbtable_recv db (ms : list (sync_msg D)) : option (Z * db_table_t D) :=
  match ms with
  | [] => Some (0, db)
  | m :: ms =>
      r ← recv_blocks (msg_op m) (db_table_lock db) (start_index m) (blocks m);
      match r with
      | Return r db => Some (r, db)
      | Continue db => dbtable_recv (db_table_unlock db) ms
      end
  end.

End recv.

Arguments recv_step : clear implicits.

(** What the two boards' codecs promise: the synchronised part of an entry
    survives the conversion to a block and back, and a received entry keeps
    the synchronised part it arrived with. *)
Class SyncLaws {D} (sender receiver : db_ops D) : Prop := {
  sync_equiv :: Equivalence (fun x y => same_sync_part sender x y = true);
  ntoh_hton d : same_sync_part sender (entry_ntoh receiver (entry_hton sender d)) d = true;
  keep_local_same new old : same_sync_part sender (keep_local receiver new old) new = true
}.

Section replication.
Context {D : Type} (mops sops : db_ops D) `{!SyncLaws mops sops} (junk : D).
Implicit Types (db : db_table_t D) (m s : gmap Z D).

Definition same (x y : D) : Prop := same_sync_part mops x y = true.

(** The replica holds the same entries, up to the parts not synchronised. *)
Definition agree s m : Prop := forall i, option_Forall2 same (s !! i) (m !! i).

Lemma same_refl x : same x x.
Proof. apply (sync_equiv (sender := mops) (receiver := sops)). Qed.
Lemma same_sym x y : same x y -> same y x.
Proof. apply (sync_equiv (sender := mops) (receiver := sops)). Qed.
Lemma same_trans x y z : same x y -> same y z -> same x z.
Proof. apply (sync_equiv (sender := mops) (receiver := sops)). Qed.

Lemma agree_refl m : agree m m.
Proof. intros i. destruct (m !! i); constructor. apply same_refl. Qed.

Lemma agree_insert s m i x y : agree s m -> same x y -> agree (<[i := x]> s) (<[i := y]> m).
Proof.
  intros Ha Hs j. destruct (decide (i = j)) as [->|].
  - rewrite !lookup_insert_eq. by constructor.
  - by rewrite !lookup_insert_ne.
Qed.

Lemma agree_delete s m i : agree s m -> agree (delete i s) (delete i m).
Proof.
  intros Ha j. destruct (decide (i = j)) as [->|].
  - rewrite !lookup_delete_eq. constructor.
  - by rewrite !lookup_delete_ne.
Qed.

(** A change of the receiving table. *)
Record step_ok db db' (s' : gmap Z D) : Prop := {
  ok_contents : contents db' = s';
  ok_wf : wf_db db';
  ok_lock : lock db' = lock db;
  ok_num : entry_num db' = entry_num db
}.

Lemma step_ok_core db db1 db2 s' :
  core_eq db1 db2 -> wf_db db2 -> contents db2 = s' -> lock db2 = lock db -> entry_num db2 = entry_num db ->
  step_ok db db1 s'.
Proof. intros Hc Hw Hm Hl Hn. split; rewrite ?Hc; try done. by rewrite (core_lock _ _ Hc). Qed.

Lemma core_relock db : core_eq (db_table_lock (db_table_unlock db)) db.
Proof. split; try done. cbn. lia. Qed.

Lemma get_entry_real db i old : db_table_get_entry db i = Some old -> rd (entries db) i ≫= real_data = Some old.
Proof.
  unfold db_table_get_entry. destruct (rd (entries db) i) as [e|]; [|done].
  cbn [mbind option_bind]. by destruct (negb _).
Qed.

Lemma recv_update_ok db i x pre :
  wf_db db -> db_table_get_entry db i = Some pre ->
  exists r db', recv_update sops junk db i x pre = (r, db') /\
    core_eq db' (alter_entry db i (store false (keep_local sops x pre))).
Proof.
  intros Hw Hg. unfold recv_update.
  destruct (core_update_entry sops db junk i (keep_local sops x pre) (no_index db) false pre) as (db1 & -> & H1);
    [by apply get_entry_real|].
  eexists _, _. split; [done|]. by rewrite core_relock.
Qed.

Lemma recv_update_step db i x pre :
  wf_db db -> db_table_get_entry db i = Some pre ->
  exists r db', recv_update sops junk db i x pre = (r, db') /\
    forall db2, core_eq db2 db' -> step_ok db db2 (<[i := keep_local sops x pre]> (contents db)).
Proof.
  intros Hw Hg. assert (exist_at db i = true) as Hx by (apply get_entry_exist; [done|]; by rewrite Hg).
  destruct (recv_update_ok db i x pre Hw Hg) as (r & db1 & -> & H1).
  destruct (wf_set db i (keep_local sops x pre) Hw Hx) as (Hw1 & Hc1 & Hn1).
  exists r, db1. split; [done|]. intros db2 H2.
  apply (step_ok_core db _ _ _ (transitivity H2 H1)); done.
Qed.

(** An entry added on the other board. *)
Lemma recv_add_block db i x :
  wf_db db -> 0 <= i < entry_num db ->
  exists db' y, recv_block sops junk NPD_SYNC_OP_ITEM_ADD db i x = Some (Continue db') /\
    same y (entry_ntoh sops x) /\ step_ok db db' (<[i := y]> (contents db)).
Proof.
  intros Hw Hi. unfold recv_block. destruct (Z.leb_spec (entry_num db) i); [lia|].
  set (data := entry_ntoh sops x). unfold db_table_internal_alloc.
  destruct (take_first _ _) as [[k l]|] eqn:Et.
  - apply take_first_Some in Et as (l1 & l2 & Hl & -> & Hk & _). apply Z.eqb_eq in Hk as ->.
    destruct (wf_take db l1 i l2 data Hw Hl) as (Hw1 & Hc1 & Hn1). set (db1 := with_alloc _ _ _) in *.
    destruct (core_insert_entry sops db1 junk i data (no_index db1) false) as (db2 & -> & H2);
      [exact (wf_esize _ Hw)|by apply in_table_spec|].
    cbn [mbind option_bind]. eexists _, data. split; [done|]. split; [apply same_refl|].
    eapply step_ok_core; [|done..]. etrans; [|exact H2]. etrans; [|apply core_relock].
    destruct (_ =? 0); [apply core_synced; by left|apply core_unsynced].
  - apply take_first_None in Et. destruct (db_table_get_entry db i) as [pre|] eqn:Eg.
    + destruct (recv_update_step db i data pre Hw Eg) as (r & db1 & -> & H1).
      eexists _, _. split; [done|]. split; [apply keep_local_same|]. apply H1.
      destruct (_ =? 0); [apply core_synced; by left|done].
    + exfalso. rewrite <- contents_lookup, contents_exist in Eg by done.
      assert (i ∈ entry_alloc_list db) as Hin by (by apply (wf_free _ Hw)).
      rewrite Forall_forall in Et. specialize (Et i Hin). lia.
Qed.

Lemma recv_update_block db i d :
  wf_db db -> is_Some (contents db !! i) ->
  exists db' y, recv_block sops junk NPD_SYNC_OP_ITEM_UPDATE db i (entry_hton mops d) = Some (Continue db') /\
    same y d /\ step_ok db db' (<[i := y]> (contents db)).
Proof.
  intros Hw [pre Hp]. rewrite contents_lookup in Hp.
  assert (exist_at db i = true) as Hx by (apply get_entry_exist; [done|]; by rewrite Hp).
  pose proof (exist_at_range _ _ Hx). unfold recv_block. destruct (Z.leb_spec (entry_num db) i); [lia|].
  rewrite Hp. destruct (recv_update_step db i (entry_ntoh sops (entry_hton mops d)) pre Hw Hp) as (r & db1 & -> & H1).
  eexists _, _. split; [done|]. split.
  - eapply same_trans; [apply keep_local_same|apply ntoh_hton].
  - apply H1. destruct (_ =? 0); [apply core_synced; by left|apply core_unsynced].
Qed.

Lemma recv_delete_block db i x :
  wf_db db -> exist_at db i = true ->
  exists db', recv_block sops junk NPD_SYNC_OP_ITEM_DEL db i x = Some (Continue db') /\
    step_ok db db' (delete i (contents db)).
Proof.
  intros Hw Hx. pose proof (exist_at_range _ _ Hx). unfold recv_block.
  destruct (Z.leb_spec (entry_num db) i); [lia|]. cbv zeta.
  set (db1 := db_table_synced_entry _ _ _).
  assert (core_eq db1 db) as H1 by (etrans; [apply core_synced; by left|apply core_relock]).
  pose proof (core_free_entry_index db1 junk i (no_index db1)) as H2.
  destruct (db_table_free_entry_index _ _ _ _) as [r2 db2]. cbn [snd] in H2. rewrite H1 in H2.
  destruct (core_delete_entry sops db2 i false) as (db3 & -> & H3); [by rewrite H2|by rewrite (core_exist _ _ i H2)|].
  destruct (wf_drop db i Hw Hx) as (Hw4 & Hc4 & Hn4).
  eexists. split; [done|]. eapply step_ok_core; [|done..]. rewrite H3.
  apply free_order_proper; [|done]. apply core_alter_eq; [done|].
  intros e e' (E1 & E2 & E3). unfold entry_eq, clear_entry. cbn [flags real_data]. by rewrite !Z.land_spec, E1, E2.
Qed.

(** ** Messages that add a range of entries *)

(** [ms] carries the blocks of the entries [start .. start + num - 1], whose
    data is [f], in order. *)
Inductive covers (f : Z -> D) : Z -> Z -> list (sync_msg D) -> Prop :=
  | covers_nil start : covers f start 0 []
  | covers_cons start num k ms :
      0 <= k <= num -> covers f (start + k) (num - k) ms ->
      covers f start num (Msg NPD_SYNC_OP_ITEM_ADD start ((fun i => entry_hton mops (f i)) <$> seqZ start k) :: ms).

(** The replica after it received the range. *)
Definition filled (f : Z -> D) start num s s' : Prop :=
  forall i, option_Forall2 same (s' !! i) (if (start <=? i) && (i <? start + num) then Some (f i) else s !! i).

Lemma recv_blocks_add f n db start :
  wf_db db -> 0 <= start -> (n = O \/ start + Z.of_nat n <= entry_num db) ->
  exists db', recv_blocks sops junk NPD_SYNC_OP_ITEM_ADD db (u32 start)
      ((fun i => entry_hton mops (f i)) <$> seqZ start (Z.of_nat n)) = Some (Continue db') /\
    step_ok db db' (contents db') /\ filled f start (Z.of_nat n) (contents db) (contents db').
Proof.
  revert db start. induction n as [|n IH]; intros db start Hw Hs Hn.
  { exists db. split; [done|]. split; [done|]. intros i. destruct (Z.leb_spec start i), (Z.ltb_spec i (start + Z.of_nat 0));
      try lia; apply agree_refl. }
  destruct Hn as [|Hn]; [done|]. pose proof (wf_num _ Hw). rewrite u32_small by (unfold u32_range; lia).
  rewrite seqZ_cons by lia. cbn [fmap list_fmap recv_blocks].
  destruct (recv_add_block db start (entry_hton mops (f start)) Hw) as (db1 & y & -> & Hy & [C1 W1 L1 N1]); [lia|].
  cbn [mbind option_bind]. replace (Z.pred (Z.of_nat (S n))) with (Z.of_nat n) by lia. rewrite Z.add_1_r.
  destruct (IH db1 (Z.succ start) W1) as (db2 & -> & [C2 W2 L2 N2] & F2); [lia|right; lia|].
  exists db2. split; [done|]. split; [split; congruence|]. intros i. specialize (F2 i). rewrite C1 in F2.
  destruct (decide (i = start)) as [->|].
  - rewrite lookup_insert_eq in F2.
    destruct (Z.leb_spec start start), (Z.ltb_spec start (start + Z.of_nat (S n))), (Z.leb_spec (Z.succ start) start);
      try lia. cbn [andb] in *.
    inversion F2 as [a b Hab Ea|]; subst. constructor. eapply same_trans; [exact Hab|].
    eapply same_trans; [exact Hy|apply ntoh_hton].
  - rewrite lookup_insert_ne in F2 by done.
    destruct (Z.leb_spec (Z.succ start) i), (Z.leb_spec start i), (Z.ltb_spec i (Z.succ start + Z.of_nat n)),
      (Z.ltb_spec i (start + Z.of_nat (S n))); try lia; done.
Qed.

Lemma recv_covers f start num ms db :
  covers f start num ms -> wf_db db -> 0 <= start -> start + num <= entry_num db ->
  exists db', dbtable_recv sops junk db ms = Some (0, db') /\
    step_ok db db' (contents db') /\ filled f start num (contents db) (contents db').
Proof.
  intros Hc. revert db. induction Hc as [start|start num k ms Hk Hc IH]; intros db Hw Hs Hn.
  { exists db. split; [done|]. split; [done|]. intros i.
    destruct (Z.leb_spec start i), (Z.ltb_spec i (start + 0)); try lia; apply agree_refl. }
  cbn [dbtable_recv msg_op start_index blocks]. pose proof (wf_num _ Hw).
  destruct (recv_blocks_add f (Z.to_nat k) (db_table_lock db) start) as (db1 & E & [C1 W1 L1 N1] & F1);
    [by apply wf_lock|done|right; change (entry_num (db_table_lock db)) with (entry_num db); lia|].
  rewrite Z2Nat.id in E, F1 by lia. rewrite u32_small in E by (unfold u32_range; lia). rewrite E. cbn [mbind option_bind].
  destruct (IH (db_table_unlock db1)) as (db2 & -> & [C2 W2 L2 N2] & F2);
    [by apply wf_lock|lia|change (entry_num (db_table_unlock db1)) with (entry_num db1); rewrite N1;
     change (entry_num (db_table_lock db)) with (entry_num db); lia|].
  exists db2. split; [done|]. split.
  - split; try done.
    + rewrite L2. cbn in L1 |- *. lia.
    + rewrite N2. exact N1.
  - intros i. specialize (F1 i). specialize (F2 i). change (contents (db_table_unlock db1)) with (contents db1) in F2.
    change (contents (db_table_lock db)) with (contents db) in F1.
    destruct (Z.leb_spec start i), (Z.leb_spec (start + k) i), (Z.ltb_spec i (start + num)), (Z.ltb_spec i (start + k)),
      (Z.ltb_spec i (start + k + (num - k))); try lia; cbn [andb] in *; try done;
    inversion F2 as [a b Hab Ea Eb|Ea Eb]; rewrite <- Eb in F1; inversion F1; subst; constructor;
      eauto using same_trans.
Qed.

(** ** What the sender sends *)

Definition entry_data db (i : Z) : D := default (zero_entry mops) (contents db !! i).

Definition fits (esize : Z) (m : sync_msg D) : Prop := SYNC_HEADER_SIZE + esize * zlen (blocks m) <= MAX_SEND_SIZE.

Lemma sent_synced db i flag : sent (db_table_synced_entry db i flag) = sent db.
Proof. unfold db_table_synced_entry. by destruct (in_table db i). Qed.
Lemma sent_unsynced db i flag : sent (db_table_unsynced_entry db i flag) = sent db.
Proof. unfold db_table_unsynced_entry. by destruct (in_table db i). Qed.

Lemma core_entry_data db db' i : core_eq db db' -> entry_data db i = entry_data db' i.
Proof. intros H. unfold entry_data. by rewrite H. Qed.

Context (send : sync_msg D -> Z) (Hsend : platform_db_sync mops = Some send).

Lemma sent_piece op db start num :
  sent (dbtable_sync_piece mops op db start num) =
  sent db ++ [Msg op start ((fun i => entry_hton mops (entry_data db i)) <$> seqZ start num)].
Proof.
  unfold dbtable_sync_piece. rewrite Hsend.
  assert (sync_block mops db <$> seqZ start num = (fun i => entry_hton mops (entry_data db i)) <$> seqZ start num) as ->.
  { apply list_fmap_ext. intros _ i _. unfold sync_block, entry_data. by rewrite contents_lookup. }
  set (m := Msg op start _). destruct (send m =? 0); [|done].
  set (db1 := with_sent db _). change (sent db ++ [m]) with (sent db1). generalize (seqZ start num) as l.
  intros l. clearbody db1. revert db1. induction l as [|i l IH]; intros db1; [done|]. cbn [foldl].
  by rewrite IH, sent_synced.
Qed.

Lemma covers_ext f g start num ms : (forall i, f i = g i) -> covers f start num ms -> covers g start num ms.
Proof.
  intros Hfg. induction 1 as [|start num k ms Hk _ IH]; [constructor|].
  replace ((fun i => entry_hton mops (f i)) <$> seqZ start k)
    with ((fun i => entry_hton mops (g i)) <$> seqZ start k); [by constructor|].
  apply list_fmap_ext. intros _ i _. by rewrite Hfg.
Qed.

Lemma fits_piece op db esize start k :
  0 <= k -> esize * k <= MAX_SEND_SIZE - SYNC_HEADER_SIZE ->
  fits esize (Msg op start ((fun i => entry_hton mops (entry_data db i)) <$> seqZ start k)).
Proof. intros Hk He. unfold fits, zlen. cbn [blocks]. rewrite length_fmap, length_seqZ, Z2Nat.id by lia. lia. Qed.

Lemma sent_pieces n db st k last :
  0 <= last <= k -> 0 < entry_size db -> entry_size db * k <= MAX_SEND_SIZE - SYNC_HEADER_SIZE ->
  exists ms, sent (sync_pieces mops (S n) db st k last) = sent db ++ ms /\
    covers (entry_data db) st (Z.of_nat n * k + last) ms /\ Forall (fits (entry_size db)) ms.
Proof.
  intros Hk He Hf. revert db st He Hf. induction n as [|n IH]; intros db st He Hf.
  - cbn [sync_pieces]. eexists. split; [apply sent_piece|]. split.
    + apply covers_cons; [lia|]. replace (Z.of_nat 0 * k + last - last) with 0 by lia. constructor.
    + constructor; [|constructor]. apply fits_piece; nia.
  - change (sync_pieces mops (S (S n)) db st k last) with
      (sync_pieces mops (S n) (dbtable_sync_data_insert_piece mops db st k) (st + k) k last).
    set (db1 := dbtable_sync_data_insert_piece mops db st k).
    assert (core_eq db1 db) as H1 by apply core_sync_piece.
    destruct (IH db1 (st + k)) as (ms & E & Hc & Hfit); [by rewrite (core_size _ _ H1)..|].
    unfold db1 in E. unfold dbtable_sync_data_insert_piece in E. rewrite sent_piece, <- app_assoc in E.
    eexists. split; [exact E|]. split.
    + apply covers_cons; [nia|]. replace (Z.of_nat (S n) * k + last - k) with (Z.of_nat n * k + last) by lia.
      eapply covers_ext; [|exact Hc]. intros i. by apply core_entry_data.
    + rewrite (core_size _ _ H1) in Hfit. constructor; [|done]. apply fits_piece; nia.
Qed.

Lemma sent_insert db start num :
  0 < entry_size db <= MAX_SEND_SIZE - SYNC_HEADER_SIZE -> 0 <= num ->
  exists db' ms, dbtable_sync_data_insert mops db start num = Some db' /\ core_eq db' db /\
    sent db' = sent db ++ ms /\ covers (entry_data db) start num ms /\ Forall (fits (entry_size db)) ms.
Proof.
  intros He Hn. destruct (core_sync_insert mops db start num He) as (db' & E & Hc). exists db'.
  unfold dbtable_sync_data_insert in E |- *. set (k := (MAX_SEND_SIZE - SYNC_HEADER_SIZE) / entry_size db) in *.
  assert (1 <= k /\ entry_size db * k <= MAX_SEND_SIZE - SYNC_HEADER_SIZE) as [Hk Hf].
  { split; [apply Z.div_le_lower_bound; lia|apply Z.mul_div_le; lia]. }
  destruct (Z.eqb_spec k 0); [lia|]. assert (0 <= num / k) by (apply Z.div_pos; lia).
  replace (num / k + 1 - 1) with (num / k) in * by lia.
  replace (Z.to_nat (num / k + 1)) with (S (Z.to_nat (num / k))) in * by lia.
  destruct (sent_pieces (Z.to_nat (num / k)) db start k (num - num / k * k)) as (ms & Es & Hcov & Hfit);
    [pose proof (Z.mod_pos_bound num k); pose proof (Z.mod_eq num k); lia|lia|done|].
  injection E as <-. exists ms. split_and!; try done.
  replace (Z.of_nat (Z.to_nat (num / k)) * k + (num - num / k * k)) with num in Hcov by lia. done.
Qed.

(** ** One operation, replicated *)

Context (Hhave : have_sync mops = true).

Definition sync_on db : Prop := sync_mode db <> DB_SYNC_NONE.

Lemma sync_wanted_on db : sync_on db -> sync_wanted mops db true = true.
Proof. intros Hs. unfold sync_wanted. rewrite Hhave. apply Z.eqb_neq in Hs. by rewrite Hs. Qed.

(** The messages sent by a step of the sender bring the replica along. *)
Definition replicates mdb sdb (x : option (array_res (D := D) * db_table_t D)) : Prop :=
  exists r mdb' ms sdb', x = Some (r, mdb') /\ sent mdb' = sent mdb ++ ms /\
    dbtable_recv sops junk sdb ms = Some (0, sdb') /\
    step_ok sdb sdb' (contents sdb') /\ agree (contents sdb') (contents mdb').

Lemma replicates_same mdb sdb r :
  wf_db sdb -> agree (contents sdb) (contents mdb) ->
  replicates mdb sdb (Some (r, db_table_unlock (db_table_lock mdb))).
Proof. intros Hw Ha. eexists _, _, [], sdb. rewrite app_nil_r. by split_and!. Qed.

Lemma filled_agree f i d m s s' :
  filled f i 1 s s' -> f i = d -> agree s m -> agree s' (<[i := d]> m).
Proof.
  intros Hf Hd Ha j. specialize (Hf j). destruct (decide (i = j)) as [<-|].
  - rewrite lookup_insert_eq, <- Hd. destruct (Z.leb_spec i i), (Z.ltb_spec i (i + 1)); try lia. done.
  - rewrite lookup_insert_ne by done. specialize (Ha j).
    destruct (Z.leb_spec i j), (Z.ltb_spec j (i + 1)); try lia; cbn [andb] in Hf;
    inversion Hf as [a b Hab Ea Eb|Ea Eb]; rewrite <- Eb in Ha; inversion Ha; subst; constructor; eauto using same_trans.
Qed.

Lemma sent_insert_entry db orig i d :
  0 < entry_size db <= MAX_SEND_SIZE - SYNC_HEADER_SIZE -> in_table db i = true -> sync_on db ->
  exists db' ms, db_table_insert_entry mops db junk i d orig true = Some (0, db') /\
    sent db' = sent db ++ ms /\ covers (entry_data db') i 1 ms.
Proof.
  intros He Hi Hs. unfold db_table_insert_entry. rewrite Hi. cbn [negb]. cbv zeta.
  set (db1 := insert_others _ junk d i orig).
  rewrite sync_wanted_on by done. destruct (sent_insert db1 i 1 He) as (db2 & ms & -> & Hc & Es & Hcov & _); [lia|].
  exists db2, ms. split_and!; try done. eapply covers_ext; [|exact Hcov]. intros j. by rewrite (core_entry_data _ _ j Hc).
Qed.

Lemma insert_rep mdb sdb l1 i l2 d array :
  wf_db mdb -> wf_db sdb -> sync_on mdb -> entry_num sdb = entry_num mdb ->
  agree (contents sdb) (contents mdb) -> entry_alloc_list mdb = l1 ++ i :: l2 ->
  exists db', array_store mops (with_alloc (db_table_lock mdb) (u32 (entry_use_num mdb + 1)) (l1 ++ l2)) junk array i d
      = Some db' /\
    forall r, replicates mdb sdb (Some (r, db_table_unlock db')).
Proof.
  intros Hwm Hws Hs Hn Ha Hl. destruct (array_insert_ok mops mdb l1 i l2 d junk array Hwm Hl) as (db' & E & Href).
  exists db'. split; [done|]. intros r. destruct (Href r) as (db2 & E2 & Hc2 & _). injection E2 as <-. cbn [snd] in Hc2.
  change (contents (db_table_unlock db')) with (contents db') in Hc2.
  assert (0 <= i < entry_num mdb) as Hi.
  { apply (wf_free _ Hwm i). rewrite Hl, elem_of_app, elem_of_cons. tauto. }
  unfold array_store in E. set (db1 := with_alloc _ _ _) in *.
  destruct (sent_insert_entry db1 array i d) as (db3 & ms & E3 & Es & Hcov);
    [exact (wf_esize _ Hwm)|by apply in_table_spec|exact Hs|].
  rewrite E3 in E. cbn [mbind option_bind] in E. injection E as E.
  assert (core_eq db' db3) as H3 by (rewrite <- E; destruct (_ =? 0); [apply core_synced; by left|apply core_unsynced]).
  destruct (recv_covers _ i 1 ms sdb Hcov Hws) as (sdb' & Er & Hok & Hfill); [lia|lia|].
  exists r, (db_table_unlock db'), ms, sdb'. split_and!; try done.
  - change (sent (db_table_unlock db')) with (sent db'). rewrite <- E.
    destruct (_ =? 0); [rewrite sent_synced|rewrite sent_unsynced]; exact Es.
  - change (contents (db_table_unlock db')) with (contents db'). rewrite Hc2.
    eapply filled_agree; [exact Hfill| |done]. unfold entry_data. by rewrite <- H3, Hc2, lookup_insert_eq.
Qed.

Lemma recv_one sdb op i x sdb1 :
  recv_block sops junk op (db_table_lock sdb) i x = Some (Continue sdb1) ->
  dbtable_recv sops junk sdb [Msg op i [x]] = Some (0, db_table_unlock sdb1).
Proof. intros E. cbn [dbtable_recv msg_op start_index blocks recv_blocks]. by rewrite E. Qed.

Lemma step_ok_unlock sdb sdb1 s' :
  step_ok (db_table_lock sdb) sdb1 s' -> step_ok sdb (db_table_unlock sdb1) (contents (db_table_unlock sdb1)).
Proof. intros [C W L N]. split; [done|by apply wf_lock|cbn in *; lia|exact N]. Qed.

Lemma seqZ_one i : seqZ i 1 = [i].
Proof. rewrite seqZ_cons, seqZ_nil by lia. done. Qed.

Lemma sent_delete_entry db i :
  exist_at db i = true -> sync_on db ->
  exists x, sent (db_table_delete_entry mops db i true).2 = sent db ++ [Msg NPD_SYNC_OP_ITEM_DEL i [x]].
Proof.
  intros Hx Hs. destruct (rd_exist db i Hx) as (e & He & Hb). unfold db_table_delete_entry. rewrite He.
  pose proof (exist_flag e) as Hf. rewrite Hb in Hf. destruct (_ =? 0); [done|]. clear Hf. cbv zeta.
  rewrite sync_wanted_on by done. exists (entry_hton mops (entry_data db i)).
  pose proof (sent_piece NPD_SYNC_OP_ITEM_DEL db i 1) as Es. rewrite seqZ_one in Es.
  unfold dbtable_sync_data_delete. destruct (negb _); exact Es.
Qed.

Lemma delete_rep mdb sdb i array :
  wf_db mdb -> wf_db sdb -> sync_on mdb -> agree (contents sdb) (contents mdb) -> exist_at mdb i = true ->
  exists db', db_table_delete_entry mops (db_table_free_entry_index (db_table_lock mdb) junk i array).2 i true = (0, db') /\
    forall r, replicates mdb sdb (Some (r, db_table_unlock db')).
Proof.
  intros Hwm Hws Hs Ha Hx. destruct (delete_ok mops mdb i junk array Hwm Hx) as (db' & E & Href).
  exists db'. split; [done|]. intros r. destruct (Href r) as (db2 & E2 & Hc2 & _). injection E2 as <-. cbn [snd] in Hc2.
  set (db1 := (db_table_free_entry_index _ _ _ _).2) in *.
  assert (core_eq db1 (db_table_lock mdb)) as H1 by apply core_free_entry_index.
  destruct (sent_delete_entry db1 i) as (x & Es); [by rewrite (core_exist _ _ i H1)|
    unfold sync_on; by rewrite (core_mode _ _ H1)|].
  rewrite E in Es. cbn [snd] in Es.
  assert (sent db1 = sent mdb) as Es1.
  { unfold db1, db_table_free_entry_index. destruct (in_table _ _); [|done]. cbn [negb].
    destruct (rd _ _); [|done]. by destruct (_ =? 0). }
  assert (exist_at sdb i = true) as Hxs.
  { apply get_entry_exist; [done|]. apply get_entry_exist in Hx as [d Hd]; [|done]. rewrite <- contents_lookup in Hd.
    specialize (Ha i). rewrite Hd in Ha. inversion Ha as [a b ? Ea|]; subst. rewrite <- contents_lookup, <- Ea. by eexists. }
  destruct (recv_delete_block (db_table_lock sdb) i x) as (sdb1 & Er & Hok); [by apply wf_lock|done|].
  exists r, (db_table_unlock db'), [Msg NPD_SYNC_OP_ITEM_DEL i [x]], (db_table_unlock sdb1). split_and!; [done| | | |].
  - change (sent db' = sent mdb ++ [Msg NPD_SYNC_OP_ITEM_DEL i [x]]). by rewrite Es, Es1.
  - by apply recv_one.
  - by eapply step_ok_unlock.
  - rewrite Hc2. change (contents (db_table_unlock sdb1)) with (contents sdb1). rewrite (ok_contents _ _ _ Hok).
    by apply agree_delete.
Qed.

Lemma sent_update_entry db orig i d old :
  rd (entries db) i ≫= real_data = Some old -> sync_on db -> 
  sent (db_table_update_entry mops db junk i d orig true).2 =
  sent db ++ (if same_sync_part mops d old then []
              else [Msg NPD_SYNC_OP_ITEM_UPDATE i
                      [entry_hton mops (entry_data (db_table_update_entry mops db junk i d orig true).2 i)]]).
Proof.
  intros Ho Hs. unfold db_table_update_entry. rewrite Ho. cbv zeta. cbn [snd]. rewrite Hhave. cbn [andb].
  set (db1 := insert_others _ junk d i orig). rewrite sync_wanted_on by done. rewrite andb_true_r.
  destruct (same_sync_part mops d old); cbn [negb]; [by rewrite app_nil_r|].
  unfold dbtable_sync_data_update. rewrite sent_piece, seqZ_one. cbn [fmap list_fmap].
  by rewrite (core_entry_data _ _ i (core_sync_piece mops NPD_SYNC_OP_ITEM_UPDATE db1 i 1)).
Qed.

Lemma update_rep mdb sdb i d old array :
  wf_db mdb -> wf_db sdb -> sync_on mdb -> agree (contents sdb) (contents mdb) -> db_table_get_entry mdb i = Some old ->
  exists db', db_table_update_entry mops (db_table_lock mdb) junk i d array true = (0, db') /\
    forall r (b : bool), replicates mdb sdb
      (Some (r, db_table_unlock (if b then db_table_synced_entry db' i DB_HW_SW_SYNCED
                                 else db_table_unsynced_entry db' i DB_HW_SW_SYNCED))).
Proof.
  intros Hwm Hws Hs Ha Hg. destruct (update_ok mops mdb i d old junk array Hwm Hg) as (db' & E & Href).
  exists db'. split; [done|]. intros r b. destruct (Href r b) as (db2 & E2 & Hc2 & _). cbn [snd fst] in *.
  set (db3 := if b then _ else _) in *. injection E2 as <-.
  assert (core_eq db3 db') as H3 by (unfold db3; destruct b; [apply core_synced; by left|apply core_unsynced]).
  assert (contents db' = <[i := d]> (contents mdb)) as Hc by (by rewrite <- Hc2, <- H3).
  pose proof (sent_update_entry (db_table_lock mdb) array i d old (get_entry_real mdb i old Hg) Hs) as Es.
  rewrite E in Es. cbn [snd] in Es. unfold entry_data in Es. rewrite Hc, lookup_insert_eq in Es. cbn [default] in Es.
  assert (sent (db_table_unlock db3) = sent db') as Es3.
  { change (sent db3 = sent db'). unfold db3. destruct b; [apply sent_synced|apply sent_unsynced]. }
  rewrite <- contents_lookup in Hg. pose proof (Ha i) as Hi. rewrite Hg in Hi. inversion Hi as [sold ? Hso Eo|]; subst.
  destruct (same_sync_part mops d old) eqn:Esame.
  - exists r, (db_table_unlock db3), [], sdb. split_and!; [done|by rewrite Es3, Es|done|done|].
    rewrite Hc2. replace (contents sdb) with (<[i := sold]> (contents sdb)) by (by apply insert_id).
    apply agree_insert; [done|]. eapply same_trans; [exact Hso|]. by apply same_sym.
  - destruct (recv_update_block (db_table_lock sdb) i d) as (sdb1 & y & Er & Hy & Hok);
      [by apply wf_lock|change (contents (db_table_lock sdb)) with (contents sdb); by rewrite <- Eo|].
    exists r, (db_table_unlock db3), [Msg NPD_SYNC_OP_ITEM_UPDATE i [entry_hton mops d]], (db_table_unlock sdb1).
    split_and!; [done|by rewrite Es3, Es|by apply recv_one|by eapply step_ok_unlock|].
    rewrite Hc2. change (contents (db_table_unlock sdb1)) with (contents sdb1). rewrite (ok_contents _ _ _ Hok).
    by apply agree_insert.
Qed.

Lemma array_step_rep array mdb sdb op :
  wf_db mdb -> wf_db sdb -> sync_on mdb -> entry_num sdb = entry_num mdb -> agree (contents sdb) (contents mdb) ->
  replicates mdb sdb (array_exec mops junk array mdb op).
Proof.
  intros Hwm Hws Hs Hn Ha. pose proof (fun r => replicates_same mdb sdb r Hws Ha) as Hsame.
  destruct op as [i d|d|d st|i|i|i d]; cbn [array_exec].
  - unfold dbtable_array_insert_byid, db_table_internal_alloc.
    change (entry_alloc_list (db_table_lock mdb)) with (entry_alloc_list mdb).
    destruct (take_first _ _) as [[x l]|] eqn:Et; [|apply Hsame].
    apply take_first_Some in Et as (l1 & l2 & Hl & -> & Hi & _).
    destruct (insert_rep mdb sdb l1 x l2 d array Hwm Hws Hs Hn Ha Hl) as (db' & E & H).
    change (entry_use_num (db_table_lock mdb)) with (entry_use_num mdb). rewrite E. apply H.
  - unfold dbtable_array_insert, osal_table_entry_id_alloc.
    change (entry_alloc_list (db_table_lock mdb)) with (entry_alloc_list mdb).
    destruct (entry_alloc_list mdb) as [|x l] eqn:El; [apply Hsame|].
    destruct (_ <=? _); [apply Hsame|]. destruct (x =? -1) eqn:Ex.
    { assert (0 <= x) as Hx by (apply (wf_free _ Hwm x); rewrite El; by left). lia. }
    destruct (insert_rep mdb sdb [] x l d array Hwm Hws Hs Hn Ha El) as (db' & E & H). cbn [app] in E.
    change (entry_use_num (db_table_lock mdb)) with (entry_use_num mdb). rewrite E. apply H.
  - unfold dbtable_array_insert_after, db_table_internal_alloc_after.
    change (entry_alloc_list (db_table_lock mdb)) with (entry_alloc_list mdb).
    destruct (take_first _ _) as [[x l]|] eqn:Et; [|apply Hsame].
    apply take_first_Some in Et as (l1 & l2 & Hl & -> & Hi & _).
    destruct (insert_rep mdb sdb l1 x l2 d array Hwm Hws Hs Hn Ha Hl) as (db' & E & H).
    change (entry_use_num (db_table_lock mdb)) with (entry_use_num mdb). rewrite E. apply H.
  - apply Hsame.
  - unfold dbtable_array_delete. change (db_table_get_entry (db_table_lock mdb) i) with (db_table_get_entry mdb i).
    destruct (db_table_get_entry mdb i) as [d|] eqn:Eg; [|apply Hsame].
    assert (exist_at mdb i = true) as Hx by (apply get_entry_exist; [done|]; by rewrite Eg).
    destruct (delete_rep mdb sdb i array Hwm Hws Hs Ha Hx) as (db' & E & H).
    destruct (db_table_free_entry_index _ _ _ _) as [r1 db1]. cbn [snd] in E. rewrite E. apply H.
  - unfold dbtable_array_update. change (db_table_get_entry (db_table_lock mdb) i) with (db_table_get_entry mdb i).
    destruct (db_table_get_entry mdb i) as [old|] eqn:Eg; [|apply Hsame].
    destruct (update_rep mdb sdb i d old array Hwm Hws Hs Ha Eg) as (db' & -> & H). apply H.
Qed.

(** ** Sequences of messages and of operations *)

Lemma recv_block_return op db i x r db' : recv_block sops junk op db i x = Some (Return r db') -> r = -1.
Proof.
  unfold recv_block. destruct (_ <=? _); [by intros [= <- _]|]. cbv zeta. destruct op.
  - destruct (db_table_internal_alloc db i) as [[k|] db1].
    + destruct (db_table_insert_entry _ _ _ _ _ _ _) as [[r1 db2]|]; done.
    + destruct (db_table_get_entry db1 i); [by destruct (recv_update _ _ _ _ _ _)|by intros [= <- _]].
  - destruct (db_table_free_entry_index _ _ _ _). by destruct (db_table_delete_entry _ _ _ _).
  - destruct (db_table_get_entry db i); [by destruct (recv_update _ _ _ _ _ _)|by intros [= <- _]].
Qed.

Lemma recv_blocks_return op db i l r db' : recv_blocks sops junk op db i l = Some (Return r db') -> r = -1.
Proof.
  revert db i. induction l as [|x l IH]; intros db i; cbn [recv_blocks]; [done|].
  destruct (recv_block sops junk op db i x) as [[db1|r1 db1]|] eqn:E; [apply IH| |done].
  intros [= <- <-]. by apply recv_block_return in E.
Qed.

Lemma recv_app db db1 ms1 ms2 :
  dbtable_recv sops junk db ms1 = Some (0, db1) ->
  dbtable_recv sops junk db (ms1 ++ ms2) = dbtable_recv sops junk db1 ms2.
Proof.
  revert db. induction ms1 as [|m ms1 IH]; intros db; cbn [dbtable_recv app]; [by intros [= <-]|].
  destruct (recv_blocks _ _ _ _ _ _) as [[db2|r db2]|] eqn:E; cbn [mbind option_bind]; [apply IH| |done].
  apply recv_blocks_return in E. intros [= -> _]. done.
Qed.

Lemma array_runs_rep array l mdb sdb :
  wf_db mdb -> wf_db sdb -> sync_on mdb -> entry_num sdb = entry_num mdb -> agree (contents sdb) (contents mdb) ->
  exists rs mdb' ms sdb', array_runs mops junk array mdb l = Some (rs, mdb') /\ sent mdb' = sent mdb ++ ms /\
    dbtable_recv sops junk sdb ms = Some (0, sdb') /\ step_ok sdb sdb' (contents sdb') /\
    agree (contents sdb') (contents mdb').
Proof.
  revert mdb sdb. induction l as [|op l IH]; intros mdb sdb Hwm Hws Hs Hn Ha; cbn [array_runs].
  { exists [], mdb, [], sdb. rewrite app_nil_r. by split_and!. }
  destruct (array_step_ok mops junk array mdb op Hwm) as (mdb1 & E & _ & Hwm1 & _ & Hn1 & Hm1).
  destruct (array_step_rep array mdb sdb op Hwm Hws Hs Hn Ha) as (r & mdb2 & ms1 & sdb1 & E' & Es1 & Er1 & Hok1 & Ha1).
  rewrite E in E'. injection E' as <- <-. rewrite E. cbn [mbind option_bind].
  destruct Hok1 as [_ Hws1 Hl1 Hns1].
  destruct (IH mdb1 sdb1) as (rs & mdb3 & ms2 & sdb2 & -> & Es2 & Er2 & [_ Hw2 Hl2 Hn2] & Ha2); try done.
  { unfold sync_on. by rewrite Hm1. }
  { congruence. }
  cbn [mbind option_bind]. eexists _, mdb3, (ms1 ++ ms2), sdb2. split_and!; [done| | | |done].
  - by rewrite Es2, Es1, app_assoc.
  - by rewrite (recv_app _ _ _ _ Er1).
  - split; congruence.
Qed.

(** ** A board that comes online *)

(** Every entry of the sender from [lo] on is in the replica. *)
Definition caught_up lo m s s' : Prop :=
  forall j, option_Forall2 same (s' !! j) (if lo <=? j then (if m !! j is Some d then Some d else s !! j) else s !! j).

Lemma caught_up_fill f start num lo m s s1 s2 :
  filled f start num s s1 -> caught_up lo m s1 s2 -> start + num <= lo -> 0 <= num ->
  (forall j, start <= j < start + num -> m !! j = Some (f j)) -> (forall j, start + num <= j < lo -> m !! j = None) ->
  caught_up start m s s2.
Proof.
  intros Hf Hc Hlo Hnum Hm Hnone j. specialize (Hf j). specialize (Hc j). specialize (Hm j). specialize (Hnone j).
  assert (forall a b c, option_Forall2 same a b -> option_Forall2 same b c -> option_Forall2 same a c) as Htr.
  { intros a b c H1 H2. destruct H1; inversion H2; subst; constructor; eauto using same_trans. }
  destruct (Z.leb_spec start j), (Z.ltb_spec j (start + num)), (Z.leb_spec lo j); try lia; cbn [andb] in Hf.
  - rewrite Hm by lia. by eapply Htr.
  - destruct (m !! j); [done|]. by eapply Htr.
  - rewrite Hnone by lia. by eapply Htr.
  - by eapply Htr.
Qed.

Definition loop_inv db (i start num : Z) : Prop :=
  (start = -1 /\ num = 0) \/
  (0 <= start /\ 0 < num /\ start + num = i /\ i < entry_num db /\
   forall j, start <= j < i -> exist_at db j = true).

Definition loop_lo (i start : Z) : Z := if start =? -1 then i else start.

(** Sending the rest of the table, as a receiver sees it. *)
Definition sends_from db lo (x : option (db_table_t D)) : Prop :=
  exists db' ms, x = Some db' /\ core_eq db' db /\ sent db' = sent db ++ ms /\ Forall (fits (entry_size db)) ms /\
    forall sdb, wf_db sdb -> entry_num sdb = entry_num db ->
      exists sdb', dbtable_recv sops junk sdb ms = Some (0, sdb') /\ step_ok sdb sdb' (contents sdb') /\
        caught_up lo (contents db) (contents sdb) (contents sdb').

Lemma entry_data_exist db j : wf_db db -> exist_at db j = true -> contents db !! j = Some (entry_data db j).
Proof.
  intros Hw Hx. unfold entry_data. apply get_entry_exist in Hx as [d Hd]; [|done].
  rewrite <- contents_lookup in Hd. by rewrite Hd.
Qed.

Lemma sends_nothing db lo : (forall j, lo <= j -> exist_at db j = false) -> wf_db db -> sends_from db lo (Some db).
Proof.
  intros Hx Hw. exists db, []. rewrite app_nil_r. split_and!; try done. intros sdb Hws _. exists sdb.
  split_and!; [done|done|]. intros j. destruct (Z.leb_spec lo j); [|apply agree_refl].
  assert (contents db !! j = None) as -> by (apply contents_exist; [done|by apply Hx]). apply agree_refl.
Qed.

Lemma sends_run db start num lo (k : db_table_t D -> option (db_table_t D)) :
  wf_db db -> 0 <= start -> 0 <= num -> start + num <= lo -> start + num <= entry_num db ->
  (forall j, start <= j < start + num -> exist_at db j = true) ->
  (forall j, start + num <= j < lo -> exist_at db j = false) ->
  (forall db1, core_eq db1 db -> sends_from db1 lo (k db1)) ->
  sends_from db start (db1 ← dbtable_sync_data_insert mops db start num; k db1).
Proof.
  intros Hw Hs Hnum Hlo Hn Hx Hnx Hk.
  destruct (sent_insert db start num (wf_esize _ Hw) Hnum) as (db1 & ms1 & -> & H1 & Es1 & Hcov & Hfit1).
  cbn [mbind option_bind]. destruct (Hk db1 H1) as (db2 & ms2 & -> & H2 & Es2 & Hfit2 & Hrec).
  exists db2, (ms1 ++ ms2). split_and!; [done|by rewrite H2|by rewrite Es2, Es1, app_assoc| |].
  { apply Forall_app. split; [done|]. by rewrite <- (core_size _ _ H1). }
  intros sdb Hws Hns. destruct (recv_covers _ start num ms1 sdb Hcov Hws) as (sdb1 & Er1 & [_ Hw1 Hl1 Hn1] & Hfill); [lia|lia|].
  destruct (Hrec sdb1) as (sdb2 & Er2 & [_ Hw2 Hl2 Hn2] & Hup); [done|by rewrite Hn1, Hns, H1|].
  exists sdb2. split_and!; [by rewrite (recv_app _ _ _ _ Er1)|split; congruence|]. rewrite H1 in Hup.
  eapply caught_up_fill; [exact Hfill|exact Hup|done|done| |].
  - intros j Hj. apply entry_data_exist; [done|by apply Hx].
  - intros j Hj. apply contents_exist; [done|by apply Hnx].
Qed.

Lemma sends_weaken db lo lo' x :
  wf_db db -> lo' <= lo -> (forall j, lo' <= j < lo -> exist_at db j = false) -> sends_from db lo x -> sends_from db lo' x.
Proof.
  intros Hw Hle Hx (db' & ms & -> & Hc & Es & Hf & Hrec). exists db', ms. split_and!; try done.
  intros sdb Hws Hn. destruct (Hrec sdb Hws Hn) as (sdb' & Er & Hok & Hup). exists sdb'. split_and!; try done.
  intros j. specialize (Hup j). destruct (Z.leb_spec lo j), (Z.leb_spec lo' j); try lia; try done.
  assert (contents db !! j = None) as -> by (apply contents_exist; [done|apply Hx; lia]). done.
Qed.

Lemma exist_at_flag db i :
  match rd (entries db) i with Some e => negb (Z.land (flags e) DB_ENTRY_EXIST =? 0) | None => false end = exist_at db i.
Proof. unfold exist_at. destruct (rd (entries db) i) as [e|]; [apply exist_flag|done]. Qed.

Lemma sync_all_loop_ok n db i start num :
  wf_db db -> 0 <= i -> i + Z.of_nat n = entry_num db -> loop_inv db i start num ->
  sends_from db (loop_lo i start) (sync_all_loop mops n db i start num).
Proof.
  revert db i start num. induction n as [|n IH]; intros db i start num Hw Hi Hn Hinv; cbn [sync_all_loop].
  { destruct Hinv as [[-> ->]|(? & ? & ? & ? & ?)]; [|lia]. apply sends_nothing; [|done].
    intros j Hj. destruct (exist_at db j) eqn:E; [|done]. apply exist_at_range in E. unfold loop_lo in Hj. cbn in Hj. lia. }
  rewrite exist_at_flag. cbv zeta. destruct (exist_at db i) eqn:Ei.
  - set (st := if start =? -1 then i else start).
    assert (loop_lo i start = st /\ 0 <= st /\ 0 <= num /\ st + (num + 1) = i + 1 /\
      forall j, st <= j < i + 1 -> exist_at db j = true) as (Est & Hst & Hnum & Hsum & Hex).
    { unfold loop_lo, st. destruct Hinv as [[-> ->]|(? & ? & ? & ? & Hall)].
      - cbn. split_and!; try done; try lia. intros j Hj. by replace j with i by lia.
      - destruct (Z.eqb_spec start (-1)); [lia|]. split_and!; try done; try lia.
        intros j Hj. destruct (decide (j = i)) as [->|]; [done|]. apply Hall. lia. }
    rewrite Est. destruct (Z.eqb_spec (st + (num + 1)) (entry_num db)).
    + replace (dbtable_sync_data_insert mops db st (num + 1)) with
        (db1 ← dbtable_sync_data_insert mops db st (num + 1); Some db1) by (by destruct (dbtable_sync_data_insert _ _ _ _)).
      apply (sends_run db st (num + 1) (entry_num db)); try done; try lia.
      { intros j Hj. apply Hex. lia. }
      intros db1 H1. apply sends_nothing; [|by rewrite H1]. intros j Hj. rewrite (core_exist _ _ j H1).
      destruct (exist_at db j) eqn:E; [|done]. apply exist_at_range in E. lia.
    + replace st with (loop_lo (i + 1) st) by (unfold loop_lo; destruct (Z.eqb_spec st (-1)); lia).
      replace (loop_lo (i + 1) st) with st at 2 by (unfold loop_lo; destruct (Z.eqb_spec st (-1)); lia).
      apply IH; [done|lia|lia|]. right. split_and!; try done; lia.
  - destruct Hinv as [[-> ->]|(Hst & Hnum & Hsum & Hlt & Hall)].
    + cbn [negb Z.eqb]. change (loop_lo i (-1)) with i. apply (sends_weaken db (i + 1)); [done|lia| |].
      { intros j Hj. by replace j with i by lia. }
      change (i + 1) with (loop_lo (i + 1) (-1)) at 1. apply IH; [done|lia|lia|by left].
    + assert (loop_lo i start = start) as -> by (unfold loop_lo; destruct (Z.eqb_spec start (-1)); lia).
      destruct (Z.eqb_spec start (-1)); [lia|]. cbn [negb].
      apply (sends_run db start num (i + 1)); try done; try lia.
      { intros j Hj. apply Hall. lia. }
      { intros j Hj. by replace j with i by lia. }
      intros db1 H1. change (i + 1) with (loop_lo (i + 1) (-1)) at 1.
      apply IH; [by rewrite H1|lia|rewrite H1; lia|by left].
Qed.

End replication.

(** ** Properties *)

(** C3: A replica follows its source: when a synchronised table is changed by
    any sequence of array operations and the messages it sends (additions,
    deletions, updates of the synchronised part) are applied by
    [dbtable_recv] on another board's table of the same size, the receiver
    reports success, its lock is released, and it holds the same entries up
    to the parts that are not synchronised. *)
Theorem array_operations_replicated {D} (mops sops : db_ops D) (junk : D) send num esize msize mode smode l :
  SyncLaws mops sops -> platform_db_sync mops = Some send -> have_sync mops = true ->
  0 <= num < 2 ^ 32 -> 0 < esize <= MAX_SEND_SIZE - SYNC_HEADER_SIZE ->
  0 < msize <= MAX_SEND_SIZE - SYNC_HEADER_SIZE -> mode <> DB_SYNC_NONE ->
  exists rs mdb sdb,
    array_runs mops junk 0 (dbtable_create_array_index (create_dbtable num esize mode)) l = Some (rs, mdb) /\
    dbtable_recv sops junk (dbtable_create_array_index (create_dbtable num msize smode)) (sent mdb) = Some (0, sdb) /\
    agree mops (contents sdb) (contents mdb) /\ lock sdb = 0.
Proof.
  intros HL Hsend Hhave Hn He Hm Hmode.
  destruct (create_wf (D := D) num esize mode Hn He) as (Hw1 & Hc1 & Hn1).
  destruct (create_wf (D := D) num msize smode Hn Hm) as (Hw2 & Hc2 & Hn2).
  set (mdb := dbtable_create_array_index (create_dbtable num esize mode : db_table_t D)).
  set (sdb := dbtable_create_array_index (create_dbtable num msize smode : db_table_t D)).
  destruct (array_runs_rep mops sops junk send Hsend Hhave 0 l mdb sdb) as
    (rs & mdb' & ms & sdb' & E & Es & Er & [_ _ Hl _] & Ha).
  - unfold mdb, dbtable_create_array_index. by rewrite core_with_index.
  - unfold sdb, dbtable_create_array_index. by rewrite core_with_index.
  - done.
  - unfold entry_num in *. cbn in *. congruence.
  - unfold sdb, mdb, dbtable_create_array_index. rewrite (contents_proper _ _ (core_with_index _ _)).
    rewrite (contents_proper _ _ (core_with_index _ _)), Hc1, Hc2. by apply (agree_refl mops sops).
  - exists rs, mdb', sdb'. change (sent mdb) with (@nil (sync_msg D)) in Es. rewrite app_nil_l in Es. by rewrite Es.
Qed.

(** Entries of eight bytes of which the first four are synchronised. *)
Definition part_ops (h : option (Z -> Z)) : db_ops Z :=
  {| handle_update := None; handle_insert := h; handle_delete := None;
     app_handle_update := None; app_handle_delete := None; platform_db_sync := Some (fun _ => 0);
     platform_relay_flag := false; same_sync_part := fun x y => x / 10 =? y / 10;
     keep_local := fun new old => new / 10 * 10 + old mod 10;
     entry_hton := fun d => d / 10 * 10; entry_ntoh := fun d => d; zero_entry := 0; have_sync := true |}.

#[export] Instance part_laws h h' : SyncLaws (part_ops h) (part_ops h').
Proof.
  split; cbn.
  - split; [intros x|intros x y|intros x y z]; rewrite !Z.eqb_eq; congruence.
  - intros d. apply Z.eqb_eq. by rewrite Z.div_mul.
  - intros new old. apply Z.eqb_eq. rewrite Z.div_add_l by lia. rewrite (Z.div_small (old mod 10)); [lia|].
    apply Z.mod_pos_bound. lia.
Qed.

Lemma array_operations_replicated_witness :
  exists rs mdb sdb,
    array_runs (part_ops None) 0 0 (dbtable_create_array_index (create_dbtable 3 8 1))
      [Insert 11; Insert 22; Update 0 15; Update 1 33; Delete 0; InsertById 2 47] = Some (rs, mdb) /\
    dbtable_recv (part_ops (Some id)) 0 (dbtable_create_array_index (create_dbtable 3 8 1)) (sent mdb) = Some (0, sdb) /\
    agree (part_ops None) (contents sdb) (contents mdb).
Proof.
  destruct (array_operations_replicated (part_ops None) (part_ops (Some id)) 0 (fun _ => 0) 3 8 8 1 1
    [Insert 11; Insert 22; Update 0 15; Update 1 33; Delete 0; InsertById 2 47]) as (rs & mdb & sdb & H1 & H2 & H3 & _);
    [apply part_laws|reflexivity|reflexivity|lia|unfold MAX_SEND_SIZE, SYNC_HEADER_SIZE; lia
    |unfold MAX_SEND_SIZE, SYNC_HEADER_SIZE; lia|unfold DB_SYNC_NONE; lia|].
  exists rs, mdb, sdb. split_and!; assumption.
Defined.

(** C4: A board that comes online catches up: [dbtable_sync_data_all] leaves
    the entries as they are and sends messages of at most [MAX_SEND_SIZE]
    bytes; a board that applies them to any well-formed table of the same
    size gets every entry of the sender, keeps its other entries, and, when
    its table was empty, holds the same entries. *)
Theorem slot_online_catches_up {D} (mops sops : db_ops D) (junk : D) send mdb sdb :
  SyncLaws mops sops -> platform_db_sync mops = Some send ->
  wf_db mdb -> wf_db sdb -> entry_num sdb = entry_num mdb -> Z.land (sync_mode mdb) DB_SYNC_NONE = 0 ->
  exists mdb' ms sdb',
    dbtable_sync_data_all mops mdb = Some mdb' /\ contents mdb' = contents mdb /\
    sent mdb' = sent mdb ++ ms /\ Forall (fits (entry_size mdb)) ms /\
    dbtable_recv sops junk sdb ms = Some (0, sdb') /\ lock sdb' = lock sdb /\ wf_db sdb' /\
    (forall i, option_Forall2 (same mops) (contents sdb' !! i)
       (if contents mdb !! i is Some d then Some d else contents sdb !! i)) /\
    (contents sdb = ∅ -> agree mops (contents sdb') (contents mdb)).
Proof.
  intros HL Hsend Hwm Hws Hn Hmode. unfold dbtable_sync_data_all. rewrite Hmode. cbn [Z.eqb negb].
  destruct (sync_all_loop_ok mops sops junk send Hsend (Z.to_nat (entry_num mdb)) mdb 0 (-1) 0) as
    (mdb' & ms & -> & Hc & Es & Hf & Hrec); [done|lia|unfold entry_num, zlen; lia|by left|].
  destruct (Hrec sdb Hws Hn) as (sdb' & Er & [_ Hw' Hl' _] & Hup). change (loop_lo 0 (-1)) with 0 in Hup.
  assert (forall i, option_Forall2 (same mops) (contents sdb' !! i)
    (if contents mdb !! i is Some d then Some d else contents sdb !! i)) as Hall.
  { intros i. specialize (Hup i). destruct (Z.leb_spec 0 i); [done|].
    assert (contents mdb !! i = None) as ->; [|done]. apply contents_exist; [done|].
    destruct (exist_at mdb i) eqn:E; [|done]. apply exist_at_range in E. lia. }
  exists mdb', ms, sdb'. split_and!; try done; [by rewrite Hc|].
  intros Hempty i. specialize (Hall i). rewrite Hempty, lookup_empty in Hall. by destruct (contents mdb !! i).
Qed.

Lemma slot_online_catches_up_witness :
  exists rs mdb mdb' ms sdb',
    array_runs (part_ops None) 0 0 (create_dbtable 3 8 1) [Insert 11; InsertAfter 22 2] = Some (rs, mdb) /\
    contents mdb = <[2 := 22]> (<[0 := 11]> ∅) /\
    dbtable_sync_data_all (part_ops None) mdb = Some mdb' /\ sent mdb' = sent mdb ++ ms /\
    dbtable_recv (part_ops None) 0 (create_dbtable 3 8 1) ms = Some (0, sdb') /\
    agree (part_ops None) (contents sdb') (contents mdb).
Proof.
  destruct (create_wf (D := Z) 3 8 1) as (Hw & Hc & Hn); [lia|unfold MAX_SEND_SIZE, SYNC_HEADER_SIZE; lia|].
  destruct (array_runs_ok (part_ops None) 0 0 (create_dbtable 3 8 1) [Insert 11; InsertAfter 22 2] Hw)
    as (mdb & E & Hc' & Hw' & _ & Hn').
  assert (sync_mode mdb = 1) as Hm by (vm_compute in E; injection E as <-; reflexivity).
  destruct (slot_online_catches_up (part_ops None) (part_ops None) 0 (fun _ => 0) mdb (create_dbtable 3 8 1))
    as (mdb' & ms & sdb' & H1 & _ & H3 & _ & H5 & _ & _ & _ & H9);
    [apply part_laws|reflexivity|exact Hw'|exact Hw|by rewrite Hn'|rewrite Hm; reflexivity|].
  eexists _, mdb, mdb', ms, sdb'. split_and!; [exact E|rewrite Hc'; vm_compute; reflexivity|assumption..|by apply H9].
Defined.
