(* ===== verification/Chains.v ===== *)
(** * Bucket chains of entry numbers

    The hash index and the sequence index of
    [src/src/npdsuit/lib/src/npd_database.c] have the same structure: an
    array of chains of entry numbers, an entry being in the chain of its key.
    This file holds what both need: that the work on the other indexes of a
    table leaves an index alone, what scanning a chain finds, and the
    invariant of the buckets ([buckets_ok]) with its preservation, against
    the finite map of the entries. *)

From Stdlib Require Import ZArith Lia Bool.
From stdpp Require Import base decidable list gmap.
From S2P Require Import Prelude Database.

Open Scope Z_scope.

(** Walk a chain without a processor: how many entries the filter accepts. *)
Fixpoint count_chain {D} (db : db_table_t D) (accept : D -> bool) (chain : list Z) (proc_data : D) : Z :=
  match chain with
  | [] => 0
  | id :: chain =>
      let proc_data := default proc_data (db_table_get_entry db id) in
      (if accept proc_data then 1 else 0) + count_chain db accept chain proc_data
  end.

(** ** The index at a position is not touched by the work on the others *)

Section frame.
Context {D : Type} (ops : db_ops D) (junk : D).
Implicit Types (db : db_table_t D).

Lemma index_synced db i flag : index_list (db_table_synced_entry db i flag) = index_list db.
Proof. unfold db_table_synced_entry. by destruct (in_table db i). Qed.
Lemma index_unsynced db i flag : index_list (db_table_unsynced_entry db i flag) = index_list db.
Proof. unfold db_table_unsynced_entry. by destruct (in_table db i). Qed.

Lemma index_sync_piece op db start num : index_list (dbtable_sync_piece ops op db start num) = index_list db.
Proof.
  unfold dbtable_sync_piece. destruct (platform_db_sync ops) as [send|]; [|done].
  destruct (send _ =? 0); [|done]. set (db1 := with_sent db _). change (index_list db) with (index_list db1).
  generalize (seqZ start num) as l. intros l. clearbody db1. revert db1.
  induction l as [|i l IH]; intros db1; [done|]. cbn [foldl]. by rewrite IH, index_synced.
Qed.

Lemma index_sync_insert db start num db' :
  dbtable_sync_data_insert ops db start num = Some db' -> index_list db' = index_list db.
Proof.
  unfold dbtable_sync_data_insert. destruct (_ =? 0); [done|]. intros [= <-]. generalize (start) as st.
  generalize (Z.to_nat (num / ((MAX_SEND_SIZE - SYNC_HEADER_SIZE) / entry_size db) + 1)) as n.
  generalize ((MAX_SEND_SIZE - SYNC_HEADER_SIZE) / entry_size db) as k.
  intros k n. generalize (num - (num / k + 1 - 1) * k) as last. intros last. clear.
  revert db. induction n as [|n IH]; intros db st; [done|]. cbn [sync_pieces].
  destruct n; [apply index_sync_piece|]. rewrite IH. apply index_sync_piece.
Qed.

Lemma map_others_self k f (l : list (db_index D)) : map_others k f l !! k = l !! k.
Proof.
  unfold map_others. rewrite list_lookup_imap. destruct (l !! k); [|done]. cbn. by rewrite decide_True.
Qed.

Lemma index_insert_entry db i d k local_flag r db' :
  db_table_insert_entry ops db junk i d k local_flag = Some (r, db') -> index_list db' !! k = index_list db !! k.
Proof.
  unfold db_table_insert_entry. destruct (in_table db i); [|by intros [= _ <-]]. cbn [negb]. cbv zeta.
  set (db1 := insert_others _ _ _ _ _).
  assert (index_list db1 !! k = index_list db !! k) as <- by apply map_others_self.
  destruct (sync_wanted ops db1 local_flag); [|by intros [= _ <-]].
  destruct (dbtable_sync_data_insert ops db1 i 1) as [db2|] eqn:E; [|done].
  intros [= _ <-]. by rewrite (index_sync_insert _ _ _ _ E).
Qed.

Lemma index_update_entry db i d k local_flag :
  index_list (db_table_update_entry ops db junk i d k local_flag).2 !! k = index_list db !! k.
Proof.
  unfold db_table_update_entry. destruct (rd (entries db) i ≫= real_data) as [old|]; [|done]. cbv zeta. cbn [snd].
  set (db1 := insert_others _ _ _ _ _).
  assert (index_list db1 !! k = index_list db !! k) as Hk.
  { unfold db1, insert_others. cbn [index_list with_index_list]. rewrite map_others_self. apply map_others_self. }
  destruct (_ && _); [|done]. unfold dbtable_sync_data_update. by rewrite index_sync_piece.
Qed.

Lemma index_free_entry db i k : index_list (db_table_free_entry_index db junk i k).2 !! k = index_list db !! k.
Proof.
  unfold db_table_free_entry_index. destruct (in_table db i); [|done]. cbn [negb].
  destruct (rd (entries db) i); [|done]. destruct (_ =? 0); [done|]. apply map_others_self.
Qed.

Lemma index_delete_entry db i local_flag :
  index_list (db_table_delete_entry ops db i local_flag).2 = index_list db.
Proof.
  unfold db_table_delete_entry. destruct (rd (entries db) i); [|done]. destruct (_ =? 0); [done|]. cbv zeta.
  set (db1 := if sync_wanted ops db local_flag then _ else _).
  assert (index_list db1 = index_list db) as <-.
  { unfold db1. destruct (sync_wanted ops db local_flag); [apply index_sync_piece|done]. }
  by destruct (negb _).
Qed.

End frame.

(** ** Chains of existing entries *)

Section chains.
Context {D : Type}.
Implicit Types (db : db_table_t D).

Definition data_of db (ids : list Z) : list D := omap (fun i => contents db !! i) ids.

Definition all_exist db (ids : list Z) : Prop := Forall (fun i => is_Some (contents db !! i)) ids.

(** The scan finds the first entry accepted. *)
Lemma scan_chain_spec db p ids buf :
  all_exist db ids ->
  (exists i d l1 l2, ids = l1 ++ i :: l2 /\ contents db !! i = Some d /\ p d = true /\
     Forall (fun d => p d = false) (data_of db l1) /\ scan_chain db p ids buf = (Some i, d)) \/
  (Forall (fun d => p d = false) (data_of db ids) /\ exists buf', scan_chain db p ids buf = (None, buf')).
Proof.
  revert buf. induction ids as [|i ids IH]; intros buf He; cbn [scan_chain]; [right; split; [constructor|eauto]|].
  apply Forall_cons in He as [[d Hd] He]. pose proof Hd as Hg. rewrite contents_lookup in Hg. rewrite Hg.
  change (default buf (Some d)) with d.
  destruct (p d) eqn:Ep.
  - left. exists i, d, [], ids. by split_and!.
  - destruct (IH d He) as [(j & d' & l1 & l2 & -> & Hj & Hp & Hf & E)|[Hf (buf' & E)]].
    + left. exists j, d', (i :: l1), l2. split_and!; try done. unfold data_of. cbn [omap list_omap]. rewrite Hd.
      by constructor.
    + right. split; [|by exists buf']. unfold data_of. cbn [omap list_omap]. rewrite Hd. by constructor.
Qed.

Lemma elem_of_data_of db ids d : d ∈ data_of db ids <-> exists i, i ∈ ids /\ contents db !! i = Some d.
Proof. unfold data_of. apply list_elem_of_omap. Qed.

Lemma elem_of_unlink i x l : NoDup l -> i ∈ unlink x l <-> i ∈ l /\ i <> x.
Proof.
  induction 1 as [|y l Hy Hnd IH]; cbn [unlink]; [rewrite elem_of_nil; tauto|].
  destruct (Z.eqb_spec y x) as [->|]; rewrite !elem_of_cons, ?IH.
  - destruct (decide (i = x)) as [->|]; tauto.
  - destruct (decide (i = y)) as [->|]; tauto.
Qed.

Lemma NoDup_unlink x l : NoDup l -> NoDup (unlink x l).
Proof.
  induction 1 as [|y l Hy Hnd IH]; cbn [unlink]; [constructor|]. destruct (Z.eqb_spec y x); [done|].
  constructor; [|done]. rewrite elem_of_unlink by done. tauto.
Qed.

Lemma all_exist_app db l1 l2 : all_exist db (l1 ++ l2) <-> all_exist db l1 /\ all_exist db l2.
Proof. apply Forall_app. Qed.

Lemma scan_chain_head db p ids buf :
  all_exist db ids ->
  match scan_chain db p ids buf with (Some _, d) => Some d | (None, _) => None end
  = head (filter (fun d => p d = true) (data_of db ids)).
Proof.
  intros He. destruct (scan_chain_spec db p ids buf He) as [(i & d & l1 & l2 & -> & Hi & Hp & Hf & ->)|[Hf (buf' & ->)]].
  - unfold data_of. rewrite omap_app, filter_app. cbn [omap list_omap]. rewrite Hi.
    replace (filter (fun d => p d = true) (omap (fun i => contents db !! i) l1)) with (@nil D).
    + cbn [app]. rewrite filter_cons, decide_True by done. done.
    + symmetry. clear -Hf. unfold data_of in Hf. induction Hf as [|x l Hx _ IH]; [done|].
      rewrite filter_cons, decide_False by congruence. done.
  - clear -Hf. induction Hf as [|x l Hx _ IH]; [done|]. rewrite filter_cons, decide_False by congruence. done.
Qed.

Lemma count_chain_spec db p ids buf :
  all_exist db ids -> count_chain db p ids buf = zlen (filter (fun d => p d = true) (data_of db ids)).
Proof.
  intros He. revert buf. induction He as [|i l [d Hd] _ IH]; intros buf; cbn [count_chain]; [done|].
  unfold data_of. cbn [omap list_omap]. rewrite Hd. rewrite contents_lookup in Hd. rewrite Hd.
  change (default buf (Some d)) with d. rewrite IH, filter_cons. unfold zlen, data_of.
  destruct (p d) eqn:Ep; [rewrite decide_True by done|rewrite decide_False by congruence]; cbn [length]; lia.
Qed.

End chains.

Lemma NoDup_split {A} (a a' b b' : list A) d : NoDup (a ++ d :: b) -> a ++ d :: b = a' ++ d :: b' -> b = b'.
Proof.
  revert a'. induction a as [|x a IH]; intros [|y a']; cbn [app]; intros Hnd He; simplify_eq; [done|..].
  - apply NoDup_cons in Hnd as [Hd _]. destruct Hd. apply elem_of_app. right. by left.
  - apply NoDup_cons in Hnd as [Hd _]. destruct Hd. apply elem_of_app. right. by left.
  - apply NoDup_cons in Hnd as [_ Hnd]. by apply (IH a').
Qed.

Lemma head_app {A} (l1 l2 : list A) : head (l1 ++ l2) = match head l1 with Some x => Some x | None => head l2 end.
Proof. by destruct l1. Qed.

Lemma relock_id {D} (db : db_table_t D) : db_table_unlock (db_table_lock db) = db.
Proof. destruct db. unfold db_table_unlock, db_table_lock, with_lock. cbn. f_equal. lia. Qed.

Lemma alloc_head {D} (db : db_table_t D) i l :
  wf_db db -> entry_alloc_list db = i :: l ->
  osal_table_entry_id_alloc db = (i, with_alloc db (u32 (entry_use_num db + 1)) l) /\ 0 <= i.
Proof.
  intros Hw Hl. unfold osal_table_entry_id_alloc. rewrite Hl, (wf_limit _ Hw), (wf_use _ Hw), Hl.
  unfold zlen. cbn [length]. destruct (Z.leb_spec (entry_num db) (entry_num db - Z.of_nat (S (length l)))); [lia|].
  split; [done|]. apply (wf_free _ Hw i). rewrite Hl. by left.
Qed.


(** ** Changes of the table below an index *)

Section table.
Context {D : Type} (ops : db_ops D) (junk : D) (k : nat).
Implicit Types (db : db_table_t D) (m : gmap Z D).

(** The table is well formed, holds [m], and is otherwise as before. *)
Record table_res db db' m : Prop := {
  tr_wf : wf_db db';
  tr_contents : contents db' = m;
  tr_lock : lock db' = lock db;
  tr_num : entry_num db' = entry_num db;
  tr_index : index_list db' !! k = index_list db !! k
}.

Lemma table_res_core db db1 db2 m :
  core_eq db1 db2 -> wf_db db2 -> contents db2 = m -> lock db2 = lock db -> entry_num db2 = entry_num db ->
  index_list db1 !! k = index_list db !! k -> table_res db db1 m.
Proof.
  intros Hc Hw Hm Hl Hn Hi. split; [by rewrite Hc|by rewrite Hc| |by rewrite Hc|done].
  by rewrite (core_lock _ _ Hc).
Qed.

Lemma table_res_id db : wf_db db -> table_res db db (contents db).
Proof. by split. Qed.

Lemma table_res_mark db db' m i (b : bool) :
  table_res db db' m ->
  table_res db (if b then db_table_synced_entry db' i DB_HW_SW_SYNCED else db_table_unsynced_entry db' i DB_HW_SW_SYNCED) m.
Proof.
  intros [Hw Hm Hl Hn Hi]. apply (table_res_core _ _ db'); try done.
  - destruct b; [apply core_synced; by left|apply core_unsynced].
  - by destruct b; rewrite ?index_synced, ?index_unsynced.
Qed.

Lemma update_res db i d x :
  wf_db db -> contents db !! i = Some x ->
  exists db', db_table_update_entry ops db junk i d k true = (0, db') /\ table_res db db' (<[i := d]> (contents db)).
Proof.
  intros Hw Hi. rewrite contents_lookup in Hi.
  destruct (wf_set db i d Hw) as (Hw2 & Hc2 & Hn2); [apply get_entry_exist; [done|by rewrite Hi]|].
  destruct (core_update_entry ops db junk i d k true x) as (db2 & E2 & H2).
  { unfold db_table_get_entry in Hi. destruct (rd (entries db) i) as [e|]; [|done].
    cbn [mbind option_bind] in *. by destruct (negb _). }
  exists db2. split; [done|]. eapply table_res_core; [exact H2|try done..].
  pose proof (index_update_entry ops junk db i d k true) as Hx. by rewrite E2 in Hx.
Qed.

(** [db1] is the table after the number [i] was taken. *)
Lemma insert_res db db1 i l d :
  wf_db db -> entry_alloc_list db = i :: l -> core_eq db1 (with_alloc db (u32 (entry_use_num db + 1)) l) ->
  exists db', db_table_insert_entry ops db1 junk i d k true = Some (0, db') /\
    wf_db db' /\ contents db' = <[i := d]> (contents db) /\ lock db' = lock db /\ entry_num db' = entry_num db /\
    index_list db' !! k = index_list db1 !! k.
Proof.
  intros Hw Hl H1. destruct (wf_take db [] i l d Hw Hl) as (Hw2 & Hc2 & Hn2). cbn [app] in *.
  set (dba := with_alloc db (u32 (entry_use_num db + 1)) l) in *.
  destruct (core_insert_entry ops db1 junk i d k true) as (db2 & E2 & H2).
  { rewrite (core_size _ _ H1). exact (wf_esize _ Hw). }
  { rewrite (core_in_table _ _ i H1). apply in_table_spec. apply (wf_free _ Hw i). rewrite Hl. by left. }
  assert (core_eq db2 (alter_entry dba i (store true d))) as H3.
  { rewrite H2. apply core_alter_eq; [done|].
    intros e e' (E & E' & E''). unfold entry_eq. cbn [flags real_data store]. by rewrite !Z.lor_spec, E, E'. }
  exists db2. split; [done|]. split_and!.
  - by rewrite H3.
  - by rewrite H3.
  - exact (core_lock _ _ H3).
  - by rewrite H3.
  - by eapply index_insert_entry.
Qed.

Lemma delete_res db i x :
  wf_db db -> contents db !! i = Some x ->
  let db2 := (db_table_free_entry_index db junk i k).2 in
  db_table_get_entry db2 i = Some x /\
  exists db', db_table_delete_entry ops db2 i true = (0, db') /\ table_res db db' (delete i (contents db)).
Proof.
  intros Hw Hi db2. pose proof (core_free_entry_index db junk i k) as H2. fold db2 in H2.
  pose proof (index_free_entry junk db i k) as I2. fold db2 in I2.
  assert (wf_db db2) as Hw2 by (by rewrite H2).
  assert (db_table_get_entry db2 i = Some x) as Hg2 by (by rewrite H2, <- contents_lookup).
  assert (exist_at db2 i = true) as Hx2 by (apply get_entry_exist; [done|by rewrite Hg2]).
  split; [done|]. destruct (core_delete_entry ops db2 i true Hw2 Hx2) as (db3 & E3 & H3).
  pose proof (index_delete_entry ops db2 i true) as I3. rewrite E3 in I3. cbn [snd] in I3.
  destruct (wf_drop db2 i Hw2 Hx2) as (Hw4 & Hc4 & Hn4).
  exists db3. split; [done|]. eapply table_res_core; [exact H3|done|by rewrite Hc4, H2|exact (core_lock _ _ H2)| |by rewrite I3].
  rewrite Hn4. by rewrite H2.
Qed.

End table.

(** ** The invariant of the buckets *)

(** What the owner's functions promise: comparison is an equivalence and
    equal data share the key. *)
Class ChainLaws {D} (key : D -> Z) (cmp : D -> D -> bool) : Prop := {
  cmp_equiv :: Equivalence (fun x y => cmp x y = true);
  key_cmp x y : cmp x y = true -> key x = key y
}.

Definition chain_at (ix : list (list Z)) (b : Z) : list Z := default [] (rd ix b).
Definition set_chain (ix : list (list Z)) (b : Z) (l : list Z) : list (list Z) := <[Z.to_nat b := l]> ix.

(** The entry numbers of the chains from [key1] on, in the order the loops
    over buckets and chains visit them. *)
Definition chains_from (ix : list (list Z)) (key1 : Z) : list Z := concat (drop (Z.to_nat key1) ix).

(** The buckets hold each existing entry once, in the bucket of its key, and
    no two entries compare equal. *)
Record buckets_ok {D} (key : D -> Z) (cmp : D -> D -> bool) (m : gmap Z D) (ix : list (list Z)) : Prop := {
  bk_in : forall b i, i ∈ chain_at ix b <-> exists d, m !! i = Some d /\ key d = b;
  bk_nodup : forall b, NoDup (chain_at ix b);
  bk_uniq : forall i j d d', m !! i = Some d -> m !! j = Some d' -> cmp d d' = true -> i = j
}.

(** The entry that compares equal to [d]. *)
Definition is_entry {D} (cmp : D -> D -> bool) (m : gmap Z D) (d : D) (i : Z) (d' : D) : Prop :=
  m !! i = Some d' /\ cmp d d' = true.

Section buckets.
Context {D : Type} {key : D -> Z} {cmp : D -> D -> bool} `{!ChainLaws key cmp}.
Implicit Types (db : db_table_t D) (m : gmap Z D) (ix : list (list Z)).

Lemma cmp_refl x : cmp x x = true.
Proof. apply (cmp_equiv (key := key)). Qed.
Lemma cmp_sym x y : cmp x y = cmp y x.
Proof.
  destruct (cmp_equiv (key := key)) as [_ Hs _]. pose proof (Hs x y) as H1. pose proof (Hs y x) as H2. cbn in H1, H2.
  destruct (cmp x y), (cmp y x); intuition congruence.
Qed.
Lemma cmp_trans x y z : cmp x y = true -> cmp y z = true -> cmp x z = true.
Proof. apply (cmp_equiv (key := key)). Qed.

Lemma is_entry_unique m ix d i j x y :
  buckets_ok key cmp m ix -> is_entry cmp m d i x -> is_entry cmp m d j y -> i = j /\ x = y.
Proof.
  intros Hok [Hi Hx] [Hj Hy]. assert (i = j) as ->; [|split; congruence].
  apply (bk_uniq _ _ _ _ Hok i j x y); try done. rewrite cmp_sym in Hx. by eapply cmp_trans.
Qed.

Lemma chain_all_exist db ix b : buckets_ok key cmp (contents db) ix -> all_exist db (chain_at ix b).
Proof. intros Hok. apply Forall_forall. intros i (d & Hd & _)%(bk_in _ _ _ _ Hok). by eexists. Qed.

(** Scanning the bucket of [d] for the entry that compares equal. *)
Lemma scan_bucket db ix d buf p :
  buckets_ok key cmp (contents db) ix -> (forall x, p x = cmp d x) ->
  (exists i x, is_entry cmp (contents db) d i x /\ scan_chain db p (chain_at ix (key d)) buf = (Some i, x)) \/
  ((forall i x, ~ is_entry cmp (contents db) d i x) /\
   exists buf', scan_chain db p (chain_at ix (key d)) buf = (None, buf')).
Proof.
  intros Hok Hp. destruct (scan_chain_spec db p (chain_at ix (key d)) buf) as
    [(i & x & l1 & l2 & _ & Hi & Hx & _ & E)|[Hf (buf' & E)]]; [by apply chain_all_exist|left|right].
  - exists i, x. split; [|done]. split; [done|]. by rewrite <- Hp.
  - split; [|by exists buf']. intros i x [Hi Hx]. rewrite Forall_forall in Hf.
    assert (x ∈ data_of db (chain_at ix (key d))) as Hin.
    { apply elem_of_data_of. exists i. split; [|done]. apply (bk_in _ _ _ _ Hok). exists x. split; [done|].
      symmetry. by apply (key_cmp (cmp := cmp)). }
    specialize (Hf x Hin). rewrite Hp in Hf. congruence.
Qed.

Lemma chain_set_chain ix b l b' :
  0 <= b < zlen ix -> chain_at (set_chain ix b l) b' = if b' =? b then l else chain_at ix b'.
Proof.
  intros Hb. unfold chain_at, set_chain. rewrite rd_insert by done. by destruct (b' =? b).
Qed.

Lemma buckets_update m ix i d x :
  buckets_ok key cmp m ix -> is_entry cmp m d i x -> buckets_ok key cmp (<[i := d]> m) ix.
Proof.
  intros [H5 H6 H7] [Hi Hx].
  assert (key d = key x) as Hk by (by apply (key_cmp (cmp := cmp))). split; try done.
  - intros b j. rewrite H5. destruct (decide (i = j)) as [->|].
    + rewrite lookup_insert_eq, Hi. split; intros (y & [= ->] & Hy); eexists; split; eauto; congruence.
    + by rewrite lookup_insert_ne.
  - intros a b y z. destruct (decide (a = i)) as [->|], (decide (b = i)) as [->|];
      rewrite ?lookup_insert_eq, ?lookup_insert_ne by congruence; try done.
    + intros [= ->] Hz Hc. apply (H7 i b x z); try done. rewrite cmp_sym in Hx. by eapply cmp_trans.
    + intros Hy [= ->] Hc. apply (H7 a i y x); try done. by eapply cmp_trans.
    + apply H7.
Qed.

Lemma buckets_insert m ix i d :
  buckets_ok key cmp m ix -> 0 <= key d < zlen ix -> m !! i = None -> (forall j x, ~ is_entry cmp m d j x) ->
  forall l1 l2, chain_at ix (key d) = l1 ++ l2 ->
    buckets_ok key cmp (<[i := d]> m) (set_chain ix (key d) (l1 ++ i :: l2)).
Proof.
  intros [H5 H6 H7] Hr Hi Hno l1 l2 Hl.
  assert (~ i ∈ chain_at ix (key d)) as Hni by (intros (x & Hx & _)%H5; congruence).
  split.
  - intros b j. rewrite chain_set_chain by lia.
    assert (j ∈ l1 ++ i :: l2 <-> j = i \/ j ∈ chain_at ix (key d)) as Hj
      by (rewrite Hl, !elem_of_app, elem_of_cons; tauto).
    destruct (decide (i = j)) as [->|].
    + rewrite lookup_insert_eq. destruct (Z.eqb_spec b (key d)) as [->|Hb].
      * rewrite Hj. split; [intros _; by exists d|by left].
      * rewrite H5. split; [intros (x & Hx & _); congruence|intros (x & [= <-] & Hx); congruence].
    + rewrite lookup_insert_ne, <- H5 by done. destruct (Z.eqb_spec b (key d)) as [->|Hb]; [|done].
      rewrite Hj. split; [intros [->|]; done|tauto].
  - intros b. rewrite chain_set_chain by lia. destruct (b =? key d); [|done].
    specialize (H6 (key d)). rewrite Hl in H6, Hni. rewrite Permutation_app_comm. cbn [app].
    constructor; [rewrite elem_of_app in *; tauto|]. by rewrite Permutation_app_comm.
  - intros a b y z. destruct (decide (a = i)) as [->|], (decide (b = i)) as [->|];
      rewrite ?lookup_insert_eq, ?lookup_insert_ne by congruence; try done.
    + intros [= ->] Hz Hc. by destruct (Hno b z).
    + intros Hy [= ->] Hc. destruct (Hno a y). split; [done|]. by rewrite cmp_sym.
    + apply H7.
Qed.

(** An existing entry has a bucket. *)
Lemma buckets_range m ix i x : buckets_ok key cmp m ix -> m !! i = Some x -> 0 <= key x < zlen ix.
Proof.
  intros Hok Hi. assert (i ∈ chain_at ix (key x)) as Hin by (apply (bk_in _ _ _ _ Hok); eauto).
  unfold chain_at in Hin. destruct (rd ix (key x)) eqn:E; [|cbn in Hin; by apply elem_of_nil in Hin].
  by apply rd_Some_lt in E.
Qed.

Lemma buckets_delete m ix i x :
  buckets_ok key cmp m ix -> m !! i = Some x ->
  buckets_ok key cmp (delete i m) (set_chain ix (key x) (unlink i (chain_at ix (key x)))).
Proof.
  intros Hok Hi. pose proof (buckets_range _ _ _ _ Hok Hi) as Hr. destruct Hok as [H5 H6 H7]. split.
  - intros b j. rewrite chain_set_chain by lia. destruct (decide (i = j)) as [->|].
    + rewrite lookup_delete_eq. split; [|by intros (? & [=] & _)]. destruct (Z.eqb_spec b (key x)) as [->|Hb].
      * rewrite elem_of_unlink by done. tauto.
      * intros (y & Hy & Hk)%H5. congruence.
    + rewrite lookup_delete_ne, <- H5 by done. destruct (Z.eqb_spec b (key x)) as [->|Hb]; [|done].
      rewrite elem_of_unlink by done. split; [tauto|]. intros Hj. by split.
  - intros b. rewrite chain_set_chain by lia. destruct (b =? key x); [|done]. by apply NoDup_unlink.
  - intros a b y z. rewrite !lookup_delete_Some. intros [_ Ha] [_ Hb]. by apply H7.
Qed.

Lemma buckets_empty sz : buckets_ok key cmp (∅ : gmap Z D) (replicate (Z.to_nat sz) []).
Proof.
  assert (forall b, chain_at (replicate (Z.to_nat sz) []) b = []) as Hch.
  { intros b. unfold chain_at, rd. destruct (0 <=? b); [|done].
    destruct (replicate (Z.to_nat sz) [] !! Z.to_nat b) as [l|] eqn:E; [|done]. by apply lookup_replicate in E as [-> _]. }
  split.
  - intros b i. rewrite Hch, elem_of_nil. split; [done|]. intros (d & Hd & _). by rewrite lookup_empty in Hd.
  - intros b. rewrite Hch. constructor.
  - intros i j d d' Hi. by rewrite lookup_empty in Hi.
Qed.

(** *** The entry that compares equal, after a change *)

Definition entry_in m (d x : D) : Prop := exists i, is_entry cmp m d i x.

Lemma entry_in_insert m ix i d d' x :
  buckets_ok key cmp m ix ->
  (m !! i = None /\ (forall j y, ~ is_entry cmp m d j y)) \/ (exists y, is_entry cmp m d i y) ->
  entry_in (<[i := d]> m) d' x <-> if cmp d' d then x = d else entry_in m d' x.
Proof.
  intros Hok Hi. unfold entry_in, is_entry. destruct (cmp d' d) eqn:Ec.
  - split; [|intros ->; exists i; by rewrite lookup_insert_eq]. intros (j & Hj & Hx).
    destruct (decide (i = j)) as [->|]; [rewrite lookup_insert_eq in Hj; congruence|].
    rewrite lookup_insert_ne in Hj by done. exfalso. rewrite cmp_sym in Ec. pose proof (cmp_trans _ _ _ Ec Hx) as Hdx.
    destruct Hi as [[_ Hno]|(y & Hy)]; [by destruct (Hno j x)|].
    by destruct (is_entry_unique m ix d i j y x Hok Hy (conj Hj Hdx)).
  - split; intros (j & Hj & Hx); exists j; destruct (decide (i = j)) as [->|].
    + rewrite lookup_insert_eq in Hj. injection Hj as ->. congruence.
    + by rewrite lookup_insert_ne in Hj.
    + exfalso. destruct Hi as [[Hi _]|(y & Hi & Hy)]; [congruence|].
      assert (x = y) as -> by congruence. rewrite cmp_sym in Hy. rewrite (cmp_trans _ _ _ Hx Hy) in Ec. done.
    + by rewrite lookup_insert_ne.
Qed.

Lemma entry_in_delete m ix i d d' y x :
  buckets_ok key cmp m ix -> is_entry cmp m d i y ->
  entry_in (delete i m) d' x <-> if cmp d' d then False else entry_in m d' x.
Proof.
  intros Hok Hi. unfold entry_in. destruct (cmp d' d) eqn:Ec.
  - split; [|done]. intros (j & Hj & Hx). rewrite lookup_delete_Some in Hj. destruct Hj as [Hne Hj].
    apply Hne. rewrite cmp_sym in Ec.
    by destruct (is_entry_unique m ix d i j y x Hok Hi (conj Hj (cmp_trans _ _ _ Ec Hx))).
  - unfold is_entry. split; intros (j & Hj & Hx); exists j.
    + rewrite lookup_delete_Some in Hj. tauto.
    + split; [|done]. rewrite lookup_delete_Some. split; [|done]. intros ->. destruct Hi as [Hi Hy].
      assert (x = y) as -> by congruence. rewrite cmp_sym in Hy. rewrite (cmp_trans _ _ _ Hx Hy) in Ec. done.
Qed.

(** *** Walking the buckets *)

Lemma chain_at_lookup ix b : 0 <= b < zlen ix -> ix !! Z.to_nat b = Some (chain_at ix b).
Proof.
  intros Hb. unfold chain_at. destruct (rd_lt_Some ix b Hb) as [l Hl]. rewrite Hl. cbn.
  unfold rd in Hl. destruct (Z.leb_spec 0 b); [done|lia].
Qed.

Lemma chain_at_nat ix (b : nat) l : ix !! b = Some l -> chain_at ix (Z.of_nat b) = l.
Proof.
  intros Hl. pose proof (lookup_lt_Some _ _ _ Hl). unfold chain_at, rd.
  destruct (Z.leb_spec 0 (Z.of_nat b)); [|lia]. by rewrite Nat2Z.id, Hl.
Qed.

Lemma elem_of_chains m ix i : buckets_ok key cmp m ix -> i ∈ chains_from ix 0 <-> is_Some (m !! i).
Proof.
  intros Hok. unfold chains_from. change (drop (Z.to_nat 0) ix) with ix. rewrite elem_of_concat. split.
  - intros (l & Hi & (b & Hl)%list_elem_of_lookup). rewrite <- (chain_at_nat _ _ _ Hl) in Hi.
    apply (bk_in _ _ _ _ Hok) in Hi as (d & Hd & _). by exists d.
  - intros [d Hd]. exists (chain_at ix (key d)). split; [apply (bk_in _ _ _ _ Hok); eauto|].
    apply (list_elem_of_lookup_2 _ (Z.to_nat (key d))), chain_at_lookup. by eapply buckets_range.
Qed.

Lemma NoDup_chains m ix : buckets_ok key cmp m ix -> NoDup (chains_from ix 0).
Proof.
  intros Hok. unfold chains_from. change (drop (Z.to_nat 0) ix) with ix. apply NoDup_concat.
  - apply Forall_forall. intros l (b & Hl)%list_elem_of_lookup. rewrite <- (chain_at_nat _ _ _ Hl). apply (bk_nodup _ _ _ _ Hok).
  - intros b c l l' Hne Hl Hl' i Hi Hi'. rewrite <- (chain_at_nat _ _ _ Hl) in Hi. rewrite <- (chain_at_nat _ _ _ Hl') in Hi'.
    apply (bk_in _ _ _ _ Hok) in Hi as (d & Hd & Hb), Hi' as (d' & Hd' & Hc). rewrite Hd in Hd'. injection Hd' as <-. lia.
Qed.

Lemma chains_split ix b :
  0 <= b < zlen ix -> exists pre, chains_from ix 0 = pre ++ chain_at ix b ++ chains_from ix (b + 1).
Proof.
  intros Hb. exists (concat (take (Z.to_nat b) ix)). unfold chains_from.
  change (drop (Z.to_nat 0) ix) with ix. rewrite <- (take_drop_middle _ _ _ (chain_at_lookup ix b Hb)) at 1.
  rewrite concat_app. cbn [concat]. replace (Z.to_nat (b + 1)) with (S (Z.to_nat b)) by lia. done.
Qed.

(** The entries in the order the walks visit them. *)
Definition walk db ix : list D := data_of db (chains_from ix 0).

Lemma walk_all_exist db ix : buckets_ok key cmp (contents db) ix -> all_exist db (chains_from ix 0).
Proof. intros Hok. apply Forall_forall. intros i Hi. by apply (elem_of_chains (contents db) ix i Hok). Qed.

Lemma NoDup_walk db ix : buckets_ok key cmp (contents db) ix -> NoDup (walk db ix).
Proof.
  intros Hok. pose proof (NoDup_chains _ _ Hok) as Hnd. unfold walk, data_of. induction Hnd as [|i l Hi Hnd IH]; [constructor|].
  cbn [omap list_omap]. destruct (contents db !! i) as [d|] eqn:Ei; [|done]. constructor; [|done].
  rewrite list_elem_of_omap. intros (j & Hj & Ej). apply Hi.
  by rewrite (bk_uniq _ _ _ _ Hok i j d d Ei Ej (cmp_refl d)).
Qed.

Lemma walk_length db ix :
  wf_db db -> buckets_ok key cmp (contents db) ix -> zlen (walk db ix) = entry_use_num db.
Proof.
  intros Hw Hok. rewrite use_num_size, <- size_dom by done. unfold zlen. f_equal.
  assert (dom (contents db) = list_to_set (chains_from ix 0) :> gset Z) as ->.
  { apply set_eq. intros i. rewrite elem_of_list_to_set, (elem_of_chains _ _ _ Hok). apply elem_of_dom. }
  rewrite size_list_to_set by (by eapply NoDup_chains). pose proof (walk_all_exist db ix Hok) as He. unfold walk, data_of.
  induction He as [|i l [d Hd] _ IH]; [done|]. cbn [omap list_omap]. rewrite Hd. cbn [length]. by f_equal.
Qed.

Lemma elem_of_walk db ix d : buckets_ok key cmp (contents db) ix -> d ∈ walk db ix <-> exists i, contents db !! i = Some d.
Proof.
  intros Hok. unfold walk. rewrite elem_of_data_of. split; [intros (i & _ & Hi); eauto|].
  intros (i & Hi). exists i. split; [|done]. apply (elem_of_chains (contents db) ix i Hok). by exists d.
Qed.

(** A stored record is the entry of its own key. *)
Lemma entry_self (c : gmap Z D) d : (exists i, c !! i = Some d) <-> entry_in c d d.
Proof. split; [intros (i & Hi); exists i; split; [done|apply cmp_refl]|intros (i & Hi & _); by exists i]. Qed.

(** Where an entry stands in the walk: in the chain of its key. *)
Lemma walk_at db ix a d b :
  buckets_ok key cmp (contents db) ix -> walk db ix = a ++ d :: b ->
  exists i l1 l2, contents db !! i = Some d /\ chain_at ix (key d) = l1 ++ i :: l2 /\
    Forall (fun x => cmp d x = false) (data_of db l1) /\
    all_exist db (chain_at ix (key d)) /\ all_exist db (chains_from ix (key d + 1)) /\
    b = data_of db l2 ++ data_of db (chains_from ix (key d + 1)).
Proof.
  intros Hok Hw. assert (d ∈ walk db ix) as Hd by (rewrite Hw; apply elem_of_app; right; by left).
  apply elem_of_data_of in Hd as (i & Hi & Hd). pose proof (buckets_range _ _ _ _ Hok Hd) as Hr.
  assert (i ∈ chain_at ix (key d)) as (l1 & l2 & Hl)%list_elem_of_split by (apply (bk_in _ _ _ _ Hok); eauto).
  destruct (chains_split ix (key d) Hr) as (pre & Hsplit).
  pose proof (walk_all_exist db ix Hok) as He. rewrite Hsplit in He.
  apply all_exist_app in He as [_ He]. apply all_exist_app in He as [He1 He2].
  exists i, l1, l2. split_and!; try done.
  - apply Forall_forall. intros x (j & Hj & Hx)%elem_of_data_of.
    destruct (cmp d x) eqn:Ec; [|done]. assert (i = j) as -> by (by apply (bk_uniq _ _ _ _ Hok i j d x)).
    pose proof (bk_nodup _ _ _ _ Hok (key d)) as Hnd. rewrite Hl in Hnd. apply NoDup_app in Hnd as (_ & Hdis & _).
    destruct (Hdis j Hj). by left.
  - eapply NoDup_split; [rewrite <- Hw; by apply NoDup_walk|]. rewrite <- Hw. unfold walk. rewrite Hsplit, Hl.
    unfold data_of. rewrite !omap_app. cbn [omap list_omap]. rewrite Hd, <- app_assoc. cbn [app]. rewrite app_assoc. done.
Qed.

End buckets.
