(* ===== verification/DatabaseHash.v ===== *)
(** * The hash index

    Model of the hash index of [src/src/npdsuit/lib/src/npd_database.c]
    ([dbtable_hash_*]): bucket chains of entry numbers over the table of
    [Database], with the owner's key and comparison functions. *)

From Stdlib Require Import ZArith Lia Bool.
From stdpp Require Import base decidable list gmap.
From S2P Require Import Prelude Database Chains.

Open Scope Z_scope.

Definition DB_TABLE_RETURN_CODE_KEY_OVERLAP : Z := 6.
Definition DB_TABLE_RETURN_CODE_ENTRY_NOT_EXIST : Z := 13.

Section hash.
Context {D : Type} (ops : db_ops D) (junk : D).
Implicit Types (db : db_table_t D) (h : dbhash_t D).

(** A hash index is a position in the table's list of indexes. *)
Definition get_hash db (hash : nat) : option (dbhash_t D) :=
  match index_list db !! hash with Some (HashIndex h) => Some h | _ => None end.

Definition set_hash db (hash : nat) h : db_table_t D :=
  with_index_list db (<[hash := HashIndex h]> (index_list db)).

Definition alter_hash db (hash : nat) (f : dbhash_t D -> dbhash_t D) : db_table_t D :=
  match get_hash db hash with Some h => set_hash db hash (f h) | None => db end.

(** [( *count ) += n] *)
Definition add_count db (hash : nat) (n : Z) : db_table_t D :=
  alter_hash db hash (fun h => with_count h (count h + n)).

Definition dbtable_create_hash_index db (hash_bucket_size : Z) (key : option (D -> Z)) (cmp : D -> D -> bool)
  : db_table_t D :=
  with_index_list db
    (HashIndex (Hash hash_bucket_size 0 key cmp (replicate (Z.to_nat hash_bucket_size) [])) :: index_list db).

(** Result code, the data copied to [retData] if any, and the table. *)
Definition dbtable_hash_search db (hash : nat) (data : D) (compFunc : option (D -> D -> bool))
  : Z * option D * db_table_t D :=
  match get_hash db hash with
  | None => (-1, None, db)
  | Some h =>
      let db := db_table_read_lock db in
      match hash_key h with
      | None => (DB_TABLE_RETURN_CODE_ENTRY_NOT_EXIST, None, db_table_read_unlock db)
      | Some key =>
          let key1 := key data in
          if size h <=? key1 then (DB_TABLE_RETURN_CODE_KEY_OVERLAP, None, db_table_read_unlock db)
          else
            let match_entry cmpdata :=
              hash_cmp h data cmpdata || match compFunc with Some f => f data cmpdata | None => false end in
            match scan_chain db match_entry (chain_of h key1) junk with
            | (Some _, cmpdata) => (0, Some cmpdata, db_table_read_unlock db)
            | (None, _) => (DB_TABLE_RETURN_CODE_ENTRY_NOT_EXIST, None, db_table_read_unlock db)
            end
      end
  end.

(** The chain walked by an insertion: an entry that compares equal, or the
    place for a new one, before the first entry accepted by [stop] or at the
    end. *)
Inductive chain_scan := Found (id : Z) (cmpdata : D) | Place (before after : list Z).

Fixpoint scan_place db (equal stop : D -> bool) (chain : list Z) (cmpdata : D) : chain_scan :=
  match chain with
  | [] => Place [] []
  | id :: rest =>
      let cmpdata := default cmpdata (db_table_get_entry db id) in
      if equal cmpdata then Found id cmpdata
      else if stop cmpdata then Place [] chain
      else match scan_place db equal stop rest cmpdata with
           | Place before after => Place (id :: before) after
           | r => r
           end
  end.

(** The common body of [dbtable_hash_insert] and [dbtable_hash_insert_seq]. *)
Definition hash_insert db (hash : nat) (data : D) (stop : D -> bool) : option (Z * db_table_t D) :=
  match get_hash db hash with
  | None => Some (-1, db)
  | Some h =>
      let db := add_count (db_table_lock db) hash 1 in
      match hash_key h with
      | None => Some (-1, db_table_unlock (add_count db hash (-1)))
      | Some key =>
          let key1 := key data in
          if size h <=? key1 then Some (-1, add_count (db_table_unlock db) hash (-1))
          else
            match scan_place db (hash_cmp h data) stop (chain_of h key1) junk with
            | Found id cmpdata =>
                let '(_, db) := db_table_update_entry ops db junk id data hash true in
                let db := add_count db hash (-1) in
                let ret := match handle_update ops with Some f => f data cmpdata | None => 0 end in
                let db := if ret =? 0 then db_table_synced_entry db id DB_HW_SW_SYNCED
                          else db_table_unsynced_entry db id DB_HW_SW_SYNCED in
                Some (0, db_table_unlock db)
            | Place before after =>
                let '(entry_id, db) := osal_table_entry_id_alloc db in
                if entry_id =? -1 then Some (-1, add_count (db_table_unlock db) hash (-1))
                else
                  let db := alter_hash db hash (fun h => with_chain h key1 (before ++ entry_id :: after)) in
                  '(_, db) ← db_table_insert_entry ops db junk entry_id data hash true;
                  let ret := match handle_insert ops with Some f => f data | None => 0 end in
                  let db := if ret =? 0 then db_table_synced_entry db entry_id DB_HW_SW_SYNCED else db in
                  Some (0, db_table_unlock db)
            end
      end
  end.

Definition dbtable_hash_insert db (hash : nat) (data : D) : option (Z * db_table_t D) :=
  hash_insert db hash data (fun _ => false).

Definition dbtable_hash_insert_seq db (hash : nat) (data : D) (list_prev : option (D -> D -> bool))
  : option (Z * db_table_t D) :=
  hash_insert db hash data (fun cmpdata => match list_prev with Some f => f data cmpdata | None => false end).

(** Result, the data copied to [ret_data] if any, and the table; the result
    of the owner's callback does not matter. *)
Definition dbtable_hash_delete db (hash : nat) (data : D) : Z * option D * db_table_t D :=
  match get_hash db hash with
  | None => (-1, None, db)
  | Some h =>
      let db := db_table_lock db in
      match hash_key h with
      | None => (0, None, db_table_unlock db)
      | Some key =>
          let key1 := key data in
          if size h <=? key1 then (-1, None, db_table_unlock db)
          else
            match scan_chain db (fun cmpdata => hash_cmp h cmpdata data) (chain_of h key1) junk with
            | (None, _) => (0, None, db_table_unlock db)
            | (Some entry_id, cmpdata) =>
                let db := alter_hash db hash (fun h => with_chain h key1 (unlink entry_id (chain_of h key1))) in
                let '(_, db) := db_table_free_entry_index db junk entry_id hash in
                let ret_data := default cmpdata (db_table_get_entry db entry_id) in
                let '(_, db) := db_table_delete_entry ops db entry_id true in
                (0, Some ret_data, db_table_unlock (add_count db hash (-1)))
            end
      end
  end.

Definition dbtable_hash_update db (hash : nat) (data : D) : option (Z * db_table_t D) :=
  match get_hash db hash with
  | None => Some (-1, db)
  | Some _ =>
      let db := db_table_read_lock db in
      let '(ret, _, db) := dbtable_hash_search db hash data None in
      if negb (ret =? 0) then Some (-1, db_table_unlock db)
      else
        '(ret, db) ← dbtable_hash_insert db hash data;
        Some (ret, db_table_unlock db)
  end.

Definition dbtable_hash_count db : Z := entry_use_num db.

(** The entry numbers of the buckets from [key1] on, in the order the loops
    over buckets and chains visit them. *)
Definition buckets_from h (key1 : Z) : list Z := chains_from (index h) key1.

(** After the entry that compares equal to [data], the next one accepted by
    the filter; when none compares equal, or none is left in its bucket, go
    on with the next bucket ([inl] with the buffer). *)
Fixpoint next_in_bucket db (equal accept : D -> bool) (chain : list Z) (cmpdata : D) : D + D :=
  match chain with
  | [] => inl cmpdata
  | id :: chain =>
      let cmpdata := default cmpdata (db_table_get_entry db id) in
      if equal cmpdata then
        match scan_chain db accept chain cmpdata with
        | (Some _, cmpdata) => inr cmpdata
        | (None, cmpdata) => inl cmpdata
        end
      else next_in_bucket db equal accept chain cmpdata
  end.

Definition dbtable_hash_next db (hash : nat) (data : option D) (filter : option (option D -> D -> bool))
  : option D * db_table_t D :=
  match get_hash db hash with
  | None => (None, db)
  | Some h =>
      let db := db_table_read_lock db in
      let accept cmpdata := match filter with Some f => f data cmpdata | None => true end in
      let first key1 buf :=
        match scan_chain db accept (buckets_from h key1) buf with
        | (Some _, cmpdata) => (Some cmpdata, db_table_read_unlock db)
        | (None, _) => (None, db_table_read_unlock db)
        end in
      match hash_key h, data with
      | None, _ => (None, db_table_read_unlock db)
      | Some key, None => first 0 junk
      | Some key, Some d =>
          if size h <=? key d then first 0 junk
          else
            match next_in_bucket db (hash_cmp h d) accept (chain_of h (key d)) junk with
            | inr outdata => (Some outdata, db_table_read_unlock db)
            | inl buf => first (key d + 1) buf
            end
      end
  end.

Definition dbtable_hash_head db (hash : nat) (indata : option D) (filter : option (D -> D -> bool))
  : option D * db_table_t D :=
  match get_hash db hash with
  | None => (None, db)
  | Some h =>
      let db := db_table_read_lock db in
      if dbtable_hash_count db =? 0 then (None, db_table_read_unlock db)
      else
        let accept cmpdata :=
          match filter, indata with Some f, Some d => f d cmpdata | _, _ => true end in
        match scan_chain db accept (buckets_from h 0) junk with
        | (Some id, cmpdata) => (db_table_get_entry db id, db_table_read_unlock db)
        | (None, _) => (None, db_table_read_unlock db)
        end
  end.

Definition dbtable_hash_traversal db (hash : nat) (data : D) (filter : option (D -> D -> bool)) : Z * db_table_t D :=
  match get_hash db hash with
  | None => (0, db)
  | Some h =>
      let db := db_table_read_lock db in
      let accept proc_data := match filter with Some f => f proc_data data | None => true end in
      (count_chain db accept (buckets_from h 0) junk, db_table_read_unlock db)
  end.

End hash.

(** ** The index at a position is not touched by the work on the others *)

Section frame.
Context {D : Type} (ops : db_ops D) (junk : D).
Implicit Types (db : db_table_t D) (h : dbhash_t D).
Lemma get_hash_index db db' k : index_list db' !! k = index_list db !! k -> get_hash db' k = get_hash db k.
Proof. intros H. unfold get_hash. by rewrite H. Qed.

Lemma get_set_hash db k h h0 : get_hash db k = Some h0 -> get_hash (set_hash db k h) k = Some h.
Proof.
  unfold get_hash, set_hash. cbn [index_list with_index_list]. destruct (index_list db !! k) as [x|] eqn:E; [|done].
  intros _. by rewrite list_lookup_insert_eq by (by eapply lookup_lt_Some).
Qed.

Lemma core_alter_hash db k f : core_eq (alter_hash db k f) db.
Proof. unfold alter_hash. destruct (get_hash db k); [apply core_with_index|done]. Qed.

Lemma get_alter_hash db k f h : get_hash db k = Some h -> get_hash (alter_hash db k f) k = Some (f h).
Proof. intros H. unfold alter_hash. rewrite H. by eapply get_set_hash. Qed.

Lemma get_add_count db k n h : get_hash db k = Some h -> get_hash (add_count db k n) k = Some (with_count h (count h + n)).
Proof. exact (get_alter_hash db k (fun h => with_count h (count h + n)) h). Qed.

End frame.

(** Without a stopping condition a place is at the end of the chain. *)
Lemma scan_place_scan {D} (db : db_table_t D) p ids buf :
  scan_place db p (fun _ => false) ids buf =
  match scan_chain db p ids buf with (Some i, d) => Found i d | (None, _) => Place ids [] end.
Proof.
  revert buf. induction ids as [|i ids IH]; intros buf; cbn [scan_place scan_chain]; [done|].
  destruct (p _); [done|]. rewrite IH. by destruct (scan_chain _ _ _ _) as [[?|] ?].
Qed.

(** ** A table with a hash index as a map keyed by [hash_cmp] *)

(** What the owner's functions promise: the laws of the chains, and a key
    that is a bucket number. *)
Class HashLaws {D} (key : D -> Z) (cmp : D -> D -> bool) (sz : Z) : Prop := {
  hash_chain :: ChainLaws key cmp;
  key_range x : 0 <= key x < sz
}.

Section map.
Context {D : Type} (ops : db_ops D) (junk : D) (k : nat).
Context (key : D -> Z) (cmp : D -> D -> bool) (sz : Z) `{!HashLaws key cmp sz}.
Implicit Types (db : db_table_t D) (h : dbhash_t D) (m : gmap Z D).

Record chains_ok m h : Prop := {
  ch_key : hash_key h = Some key;
  ch_cmp : hash_cmp h = cmp;
  ch_size : size h = sz;
  ch_len : zlen (index h) = sz;
  ch_buckets : buckets_ok key cmp m (index h)
}.

Definition hash_ok db : Prop := wf_db db /\ exists h, get_hash db k = Some h /\ chains_ok (contents db) h.

(** The key of [d] is in range, where the code checks it. *)
Lemma hash_key_ok m h d : chains_ok m h -> (size h <=? key d) = false /\ 0 <= key d < zlen (index h).
Proof.
  intros Hok. pose proof (key_range (key := key) (cmp := cmp) (sz := sz) d). rewrite (ch_size _ _ Hok), (ch_len _ _ Hok).
  split; [apply Z.leb_gt; lia|lia].
Qed.

(** A change of the table through the index. *)
Record hash_res db db' m' : Prop := {
  hr_ok : hash_ok db';
  hr_contents : contents db' = m';
  hr_lock : lock db' = lock db;
  hr_num : entry_num db' = entry_num db
}.

Lemma hash_res_core db db1 db2 h m' :
  core_eq db1 db2 -> wf_db db2 -> contents db2 = m' -> get_hash db1 k = Some h -> chains_ok m' h ->
  lock db2 = lock db + 1 -> entry_num db2 = entry_num db -> hash_res db (db_table_unlock db1) m'.
Proof.
  intros Hc Hw Hm Hg Hok Hl Hn. assert (contents (db_table_unlock db1) = m') as Hcm
    by (change (contents db1 = m'); by rewrite Hc).
  split; [split| | |].
  - apply wf_lock. by rewrite Hc.
  - exists h. split; [exact Hg|]. by rewrite Hcm.
  - done.
  - cbn. rewrite (core_lock _ _ Hc). lia.
  - change (entry_num db1 = entry_num db). by rewrite Hc.
Qed.

Lemma chains_with_count m h c : chains_ok m h -> chains_ok m (with_count h c).
Proof. by intros []. Qed.

Lemma chains_with_chain m m' h b l :
  chains_ok m h -> buckets_ok key cmp m' (set_chain (index h) b l) -> chains_ok m' (with_chain h b l).
Proof. intros [H1 H2 H3 H4 _] Hb. split; try done. unfold with_chain. cbn [index]. by rewrite zlen_insert. Qed.

Lemma search_ok db d :
  hash_ok db ->
  (exists i x, is_entry cmp (contents db) d i x /\ dbtable_hash_search junk db k d None = (0, Some x, db)) \/
  ((forall i x, ~ is_entry cmp (contents db) d i x) /\
   dbtable_hash_search junk db k d None = (DB_TABLE_RETURN_CODE_ENTRY_NOT_EXIST, None, db)).
Proof.
  intros [Hw (h & Hg & Hok)]. unfold dbtable_hash_search, db_table_read_unlock, db_table_read_lock.
  rewrite Hg, (ch_key _ _ Hok), relock_id. destruct (hash_key_ok _ h d Hok) as [-> _]. cbv zeta.
  destruct (scan_bucket (db_table_lock db) (index h) d junk (fun x => hash_cmp h d x || false)) as
    [(i & x & He & E)|[Hno (buf & E)]]; [apply Hok| | |]; unfold chain_of, chain_at in *; rewrite ?E; [|left; by exists i, x|by right].
  intros x. by rewrite (ch_cmp _ _ Hok), orb_false_r.
Qed.

Lemma found_ok db h i d x :
  hash_ok db -> get_hash db k = Some h -> is_entry cmp (contents db) d i x ->
  let db1 := add_count (db_table_lock db) k 1 in
  exists db', db_table_update_entry ops db1 junk i d k true = (0, db') /\
    forall b : bool, hash_res db
      (db_table_unlock (if b then db_table_synced_entry (add_count db' k (-1)) i DB_HW_SW_SYNCED
                        else db_table_unsynced_entry (add_count db' k (-1)) i DB_HW_SW_SYNCED)) (<[i := d]> (contents db)).
Proof.
  intros [Hw (h' & Hg' & Hok)] Hg He db1. rewrite Hg in Hg'. injection Hg' as <-.
  assert (core_eq db1 (db_table_lock db)) as H1 by apply core_alter_hash.
  assert (contents db1 = contents db) as Hc1 by (by rewrite H1).
  assert (wf_db db1) as Hw1 by (rewrite H1; by apply wf_lock).
  destruct (update_res ops junk k db1 i d x Hw1) as (db2 & E2 & [Hw2 Hc2 Hl2 Hn2 Hi2]); [rewrite Hc1; apply He|].
  exists db2. split; [done|]. intros b. apply get_hash_index in Hi2.
  eapply (hash_res_core db _ db2 (with_count _ _)).
  - trans (add_count db2 k (-1)); [destruct b; [apply core_synced; by left|apply core_unsynced]|apply core_alter_hash].
  - done.
  - by rewrite Hc2, Hc1.
  - trans (get_hash (add_count db2 k (-1)) k); [destruct b; apply get_hash_index; by rewrite ?index_synced, ?index_unsynced|].
    apply get_add_count. rewrite Hi2. by apply get_add_count.
  - do 2 apply chains_with_count. destruct Hok. split; try done. by eapply buckets_update.
  - rewrite Hl2. exact (core_lock _ _ H1).
  - rewrite Hn2. by rewrite H1.
Qed.

Lemma fresh_ok db h i l d before after :
  hash_ok db -> get_hash db k = Some h -> entry_alloc_list db = i :: l -> (forall j x, ~ is_entry cmp (contents db) d j x) ->
  chain_of h (key d) = before ++ after ->
  let db1 := alter_hash (with_alloc (add_count (db_table_lock db) k 1) (u32 (entry_use_num db + 1)) l) k
               (fun h => with_chain h (key d) (before ++ i :: after)) in
  exists db', db_table_insert_entry ops db1 junk i d k true = Some (0, db') /\
    forall b : bool, hash_res db (db_table_unlock (if b then db_table_synced_entry db' i DB_HW_SW_SYNCED else db'))
      (<[i := d]> (contents db)).
Proof.
  intros [Hw (h' & Hg' & Hok)] Hg Hl Hno Hch db1. rewrite Hg in Hg'. injection Hg' as <-.
  set (dbc := add_count (db_table_lock db) k 1) in *.
  assert (core_eq dbc (db_table_lock db)) as Hc by apply core_alter_hash.
  destruct (insert_res ops junk k dbc db1 i l d) as (db2 & E2 & Hw2 & Hc2 & Hl2 & Hn2 & Hi2);
    [rewrite Hc; by apply wf_lock|by rewrite (core_alloc _ _ Hc)|rewrite (core_use _ _ Hc); apply core_alter_hash|].
  exists db2. split; [done|]. intros b. apply get_hash_index in Hi2.
  assert (contents dbc = contents db) as Hcc by (by rewrite Hc). rewrite Hcc in Hc2.
  eapply (hash_res_core db _ db2 (with_chain (with_count h (count h + 1)) (key d) (before ++ i :: after))).
  - destruct b; [apply core_synced; by left|done].
  - done.
  - done.
  - trans (get_hash db2 k); [destruct b; apply get_hash_index; by rewrite ?index_synced|]. rewrite Hi2.
    apply (get_alter_hash (with_alloc dbc (u32 (entry_use_num db + 1)) l) k (fun h => with_chain h (key d) (before ++ i :: after))).
    by apply (get_add_count (db_table_lock db) k 1).
  - destruct (hash_key_ok _ h d Hok) as [_ Hr]. eapply chains_with_chain; [by apply chains_with_count|].
    apply buckets_insert; try done; [apply Hok|].
    apply contents_exist; [done|]. apply (wf_free _ Hw i). rewrite Hl. by left.
  - rewrite Hl2. exact (core_lock _ _ Hc).
  - rewrite Hn2. by rewrite Hc.
Qed.

Lemma hash_same db h n :
  hash_ok db -> get_hash db k = Some h -> hash_res db (db_table_unlock (add_count (add_count (db_table_lock db) k n) k (- n))) (contents db).
Proof.
  intros [Hw (h' & Hg' & Hok)] Hg. rewrite Hg in Hg'. injection Hg' as <-.
  eapply (hash_res_core db _ (db_table_lock db)).
  - unfold add_count. by rewrite !core_alter_hash.
  - by apply wf_lock.
  - done.
  - apply get_add_count. by apply get_add_count.
  - by do 2 apply chains_with_count.
  - done.
  - done.
Qed.

(** What an insertion does: replace the entry that compares equal, or take
    the least free number, or fail on a full table. *)
Definition insert_post db (d : D) (r : Z) db' : Prop :=
  (exists i x, is_entry cmp (contents db) d i x /\ r = 0 /\ hash_res db db' (<[i := d]> (contents db))) \/
  ((forall i x, ~ is_entry cmp (contents db) d i x) /\
   match free_ids (entry_num db) (contents db) with
   | i :: _ => r = 0 /\ hash_res db db' (<[i := d]> (contents db))
   | [] => r = -1 /\ hash_res db db' (contents db)
   end).

Lemma hash_insert_ok db d :
  hash_ok db -> exists r db', dbtable_hash_insert ops junk db k d = Some (r, db') /\ insert_post db d r db'.
Proof.
  intros Hh. pose proof Hh as [Hw (h & Hg & Hok)]. unfold dbtable_hash_insert, hash_insert. rewrite Hg, (ch_key _ _ Hok).
  cbv zeta. destruct (hash_key_ok _ h d Hok) as [-> _].
  set (dbc := add_count (db_table_lock db) k 1).
  assert (core_eq dbc (db_table_lock db)) as Hc by apply core_alter_hash.
  assert (contents dbc = contents db) as Hcc by (by rewrite Hc).
  rewrite scan_place_scan. change (chain_of h (key d)) with (chain_at (index h) (key d)) at 1.
  destruct (scan_bucket dbc (index h) d junk (hash_cmp h d)) as [(i & x & He & ->)|[Hno (buf & ->)]];
    [rewrite Hcc; apply Hok|by rewrite (ch_cmp _ _ Hok)| |]; rewrite Hcc in *.
  - destruct (found_ok db h i d x Hh Hg He) as (db' & E & Hres). fold dbc in E. rewrite E. cbv zeta.
    eexists _, _. split; [done|]. left. exists i, x. split_and!; [done..|apply Hres].
  - assert (wf_db dbc) as Hwc by (rewrite Hc; by apply wf_lock).
    destruct (entry_alloc_list db) as [|i l] eqn:El.
    + unfold osal_table_entry_id_alloc. rewrite (core_alloc _ _ Hc). change (entry_alloc_list (db_table_lock db)) with (entry_alloc_list db).
      rewrite El. cbn [Z.eqb]. eexists _, _. split; [done|]. right. split; [done|].
      rewrite <- (alloc_list_free_ids db Hw), El. split; [done|].
      replace (add_count (db_table_unlock dbc) k (-1)) with (db_table_unlock (add_count dbc k (-1)))
        by (unfold add_count, alter_hash; change (get_hash (db_table_unlock dbc) k) with (get_hash dbc k); by destruct (get_hash dbc k)).
      by apply (hash_same db h 1).
    + destruct (alloc_head dbc i l Hwc) as [Ea Hi]; [by rewrite (core_alloc _ _ Hc)|]. rewrite Ea.
      destruct (Z.eqb_spec i (-1)); [lia|]. rewrite (core_use _ _ Hc).
      destruct (fresh_ok db h i l d (chain_of h (key d)) [] Hh Hg El Hno) as (db' & E & Hres); [by rewrite app_nil_r|].
      change (entry_use_num (db_table_lock db)) with (entry_use_num db). fold dbc in E. rewrite E. cbn [mbind option_bind].
      eexists _, _. split; [done|]. right. split; [done|]. rewrite <- (alloc_list_free_ids db Hw), El. split; [done|apply Hres].
Qed.

Definition delete_post db (d : D) (r : Z * option D) db' : Prop :=
  (exists i x, is_entry cmp (contents db) d i x /\ r = (0, Some x) /\ hash_res db db' (delete i (contents db))) \/
  ((forall i x, ~ is_entry cmp (contents db) d i x) /\ r = (0, None) /\ db' = db).

Lemma hash_delete_ok db d :
  hash_ok db -> exists r db', dbtable_hash_delete ops junk db k d = (r, db') /\ delete_post db d r db'.
Proof.
  intros Hh. pose proof Hh as [Hw (h & Hg & Hok)]. unfold dbtable_hash_delete. rewrite Hg, (ch_key _ _ Hok).
  cbv zeta. destruct (hash_key_ok _ h d Hok) as [-> _].
  destruct (scan_bucket (db_table_lock db) (index h) d junk (fun x => hash_cmp h x d)) as [(i & x & He & E)|[Hno (buf & E)]];
    [apply Hok|intros y; by rewrite (ch_cmp _ _ Hok), cmp_sym| |]; unfold chain_at in E; unfold chain_of at 1; rewrite E.
  2: { rewrite relock_id. eexists _, _. split; [done|]. by right. }
  change (contents (db_table_lock db)) with (contents db) in He. pose proof He as [Hi Hx].
  assert (key d = key x) as Hkx by (by apply (key_cmp (cmp := cmp))).
  set (db1 := alter_hash (db_table_lock db) k _).
  assert (core_eq db1 (db_table_lock db)) as H1 by apply core_alter_hash.
  assert (get_hash db1 k = Some (with_chain h (key d) (unlink i (chain_of h (key d))))) as Hg1
    by exact (get_alter_hash (db_table_lock db) k (fun h => with_chain h (key d) (unlink i (chain_of h (key d)))) h Hg).
  assert (contents db1 = contents db) as Hc1 by (by rewrite H1).
  destruct (delete_res ops junk k db1 i x) as (Hg2 & db3 & E3 & [Hw3 Hc3 Hl3 Hn3 Hi3]);
    [rewrite H1; by apply wf_lock|by rewrite Hc1|].
  destruct (db_table_free_entry_index db1 junk i k) as [r2 db2]. cbn [snd] in Hg2, E3. rewrite Hg2, E3.
  eexists _, _. split; [done|]. left. exists i, x. split_and!; [done..|].
  eapply (hash_res_core db (add_count db3 k (-1)) db3 (with_count _ _)).
  - apply core_alter_hash.
  - done.
  - by rewrite Hc3, Hc1.
  - apply get_add_count. rewrite (get_hash_index _ _ _ Hi3). exact Hg1.
  - apply chains_with_count. rewrite Hkx. eapply chains_with_chain; [done|]. apply buckets_delete; [apply Hok|done].
  - rewrite Hl3. exact (core_lock _ _ H1).
  - rewrite Hn3. by rewrite H1.
Qed.

(** *** The map a client sees *)

Definition hash_find db (d : D) : option D := (dbtable_hash_search junk db k d None).1.2.

Lemma hash_find_spec db d x : hash_ok db -> hash_find db d = Some x <-> entry_in (cmp := cmp) (contents db) d x.
Proof.
  intros Hh. unfold hash_find. destruct (search_ok db d Hh) as [(i & y & He & ->)|[Hno ->]]; cbn.
  - split; [intros [= <-]; by exists i|]. intros (j & Hj). pose proof Hh as [_ (h & _ & Hok)].
    destruct (is_entry_unique _ _ _ _ _ _ _ (ch_buckets _ _ Hok) He Hj) as [_ ->]. done.
  - split; [done|]. intros (j & Hj). by destruct (Hno j x).
Qed.

Lemma hash_find_none db d : hash_ok db -> hash_find db d = None <-> forall i x, ~ is_entry cmp (contents db) d i x.
Proof.
  intros Hh. pose proof (hash_find_spec db d) as H. split.
  - intros Hn i x Hi. rewrite Hn in H. assert (None = Some x) by (apply H; [done|by exists i]). done.
  - intros Hno. destruct (hash_find db d) as [x|]; [|done]. destruct (H x Hh) as [[i Hi] _]; [done|]. by destruct (Hno i x).
Qed.

(** Two finds agree when the entries that compare equal do. *)
Lemma hash_find_ext db db' d d' :
  hash_ok db -> hash_ok db' ->
  (forall x, entry_in (cmp := cmp) (contents db') d x <-> entry_in (cmp := cmp) (contents db) d' x) ->
  hash_find db' d = hash_find db d'.
Proof.
  intros H1 H2 He. apply option_eq. intros x. by rewrite !hash_find_spec, He.
Qed.

Lemma find_after_insert db db' i d :
  hash_ok db -> hash_res db db' (<[i := d]> (contents db)) ->
  (contents db !! i = None /\ (forall j y, ~ is_entry cmp (contents db) d j y)) \/
  (exists x, is_entry cmp (contents db) d i x) ->
  forall d', hash_find db' d' = if cmp d' d then Some d else hash_find db d'.
Proof.
  intros Hh [Hh' Hc _ _] Hi d'. pose proof Hh as [_ (h & _ & Hok)]. apply option_eq. intros x.
  rewrite hash_find_spec, Hc, (entry_in_insert _ _ _ _ _ _ (ch_buckets _ _ Hok) Hi) by done.
  destruct (cmp d' d); [split; congruence|]. by rewrite hash_find_spec.
Qed.

Lemma find_after_delete db db' i d x :
  hash_ok db -> hash_res db db' (delete i (contents db)) -> is_entry cmp (contents db) d i x ->
  forall d', hash_find db' d' = if cmp d' d then None else hash_find db d'.
Proof.
  intros Hh [Hh' Hc _ _] Hi d'. pose proof Hh as [_ (h & _ & Hok)]. apply option_eq. intros y.
  rewrite hash_find_spec, Hc, (entry_in_delete _ _ _ _ _ _ _ (ch_buckets _ _ Hok) Hi) by done.
  destruct (cmp d' d); [done|]. by rewrite hash_find_spec.
Qed.

(** The specification: a lookup function that respects [hash_cmp] and a
    count, with a capacity. *)
Record hash_state := HState { look : D -> option D; cnt : Z }.

Inductive hash_op := HSearch (data : D) | HInsert (data : D) | HUpdate (data : D) | HDelete (data : D).

Definition spec_put (st : hash_state) (d : D) : hash_state :=
  HState (fun d' => if cmp d' d then Some d else look st d')
    (if look st d is Some _ then cnt st else cnt st + 1).

Definition hash_spec (cap : Z) (st : hash_state) (op : hash_op) : Z * option D * hash_state :=
  match op with
  | HSearch d =>
      (match look st d with Some _ => 0 | None => DB_TABLE_RETURN_CODE_ENTRY_NOT_EXIST end, look st d, st)
  | HInsert d =>
      match look st d with
      | None => if cnt st =? cap then (-1, None, st) else (0, None, spec_put st d)
      | Some _ => (0, None, spec_put st d)
      end
  | HUpdate d => match look st d with None => (-1, None, st) | Some _ => (0, None, spec_put st d) end
  | HDelete d =>
      (0, look st d, match look st d with
                     | None => st
                     | Some _ => HState (fun d' => if cmp d' d then None else look st d') (cnt st - 1)
                     end)
  end.

Definition hash_exec db (op : hash_op) : option (Z * option D * db_table_t D) :=
  match op with
  | HSearch d => Some (dbtable_hash_search junk db k d None)
  | HInsert d => '(r, db) ← dbtable_hash_insert ops junk db k d; Some (r, None, db)
  | HUpdate d => '(r, db) ← dbtable_hash_update ops junk db k d; Some (r, None, db)
  | HDelete d => Some (dbtable_hash_delete ops junk db k d)
  end.

Fixpoint hash_runs db (l : list hash_op) : option (list (Z * option D) * db_table_t D) :=
  match l with
  | [] => Some ([], db)
  | op :: l => '(r, db) ← hash_exec db op; '(rs, db) ← hash_runs db l; Some (r :: rs, db)
  end.

Fixpoint hash_specs (cap : Z) (st : hash_state) (l : list hash_op) : list (Z * option D) * hash_state :=
  match l with
  | [] => ([], st)
  | op :: l => let '(r, st) := hash_spec cap st op in let '(rs, st) := hash_specs cap st l in (r :: rs, st)
  end.

(** The table implements the specification state. *)
Record models db (st : hash_state) : Prop := {
  mo_ok : hash_ok db;
  mo_find : forall d, hash_find db d = look st d;
  mo_count : dbtable_hash_count db = cnt st
}.

Lemma hash_ok_lock db n : hash_ok (with_lock db n) <-> hash_ok db.
Proof. unfold hash_ok. by rewrite wf_lock. Qed.

Lemma count_size db : hash_ok db -> dbtable_hash_count db = Z.of_nat (base.size (contents db)).
Proof. intros [Hw _]. by apply use_num_size. Qed.

Lemma full_iff db : hash_ok db -> free_ids (entry_num db) (contents db) = [] <-> dbtable_hash_count db = entry_num db.
Proof.
  intros [Hw _]. rewrite <- (alloc_list_free_ids db Hw). unfold dbtable_hash_count. rewrite (wf_use _ Hw).
  unfold zlen. destruct (entry_alloc_list db); cbn [length]; split; intros; try done; lia.
Qed.

(** A step of the table and of the specification. *)
Definition step_models db (x : option (Z * option D * db_table_t D)) (y : Z * option D * hash_state) : Prop :=
  exists db', x = Some (y.1, db') /\ models db' y.2 /\ lock db' = lock db /\ entry_num db' = entry_num db.

Lemma put_models db db' st d i :
  models db st -> hash_res db db' (<[i := d]> (contents db)) ->
  (contents db !! i = None /\ look st d = None) \/ (exists x, is_entry cmp (contents db) d i x /\ look st d = Some x) ->
  models db' (spec_put st d).
Proof.
  intros [Hh Hf Hc] Hr Hi. pose proof Hr as [Hh' Hc' _ _]. split; [done| |].
  - intros d'. unfold spec_put. cbn [look]. rewrite <- Hf. apply (find_after_insert db db' i); try done.
    destruct Hi as [[Hi Hn]|(x & Hi & _)]; [left|right; by exists x]. split; [done|]. rewrite <- Hf in Hn.
    by apply hash_find_none.
  - rewrite count_size, Hc' by done. rewrite count_size in Hc by done. unfold spec_put. cbn [cnt].
    destruct Hi as [[Hi ->]|(x & [Hi _] & ->)].
    + rewrite map_size_insert_None by done. lia.
    + rewrite map_size_insert_Some by done. done.
Qed.

Lemma insert_models db st d :
  models db st -> exists r db', dbtable_hash_insert ops junk db k d = Some (r, db') /\
    step_models db (Some (r, None, db')) (hash_spec (entry_num db) st (HInsert d)).
Proof.
  intros Hm. pose proof Hm as [Hh Hf Hc]. destruct (hash_insert_ok db d Hh) as (r & db' & E & Hp). exists r, db'.
  split; [done|]. cbn [hash_spec]. destruct Hp as [(i & x & He & -> & Hr)|[Hno Hp]].
  - assert (look st d = Some x) as Hl by (rewrite <- Hf; apply hash_find_spec; [done|by exists i]). rewrite Hl.
    exists db'. split; [done|]. split; [|split; apply Hr]. eapply put_models; eauto.
  - assert (look st d = None) as Hl by (rewrite <- Hf; by apply hash_find_none). rewrite Hl.
    pose proof (full_iff db Hh) as Hfull. rewrite Hc in Hfull. pose proof Hh as [Hw _].
    destruct (free_ids (entry_num db) (contents db)) as [|i l] eqn:Efree; destruct Hp as [-> Hr]; pose proof Hr as [Hh' Hc' Hl' Hn'].
    + destruct (Z.eqb_spec (cnt st) (entry_num db)) as [_|Hne]; [|tauto]. exists db'. split_and!; try done. split; [done| |].
      * intros d'. rewrite <- Hf. apply hash_find_ext; [done|done|]. by rewrite Hc'.
      * rewrite count_size, Hc' by done. by rewrite <- count_size.
    + destruct (Z.eqb_spec (cnt st) (entry_num db)) as [Heq|_]; [by apply Hfull in Heq|].
      exists db'. split; [done|]. split; [|done]. eapply put_models; [done|done|]. left. split; [|done].
      apply contents_exist; [done|]. apply (wf_free _ Hw i). rewrite (alloc_list_free_ids db Hw), Efree. by left.
Qed.

Lemma search_models db st d :
  models db st ->
  dbtable_hash_search junk db k d None =
  (match look st d with Some _ => 0 | None => DB_TABLE_RETURN_CODE_ENTRY_NOT_EXIST end, look st d, db).
Proof.
  intros [Hh Hf _]. rewrite <- Hf. unfold hash_find.
  destruct (search_ok db d Hh) as [(i & x & _ & ->)|[_ ->]]; done.
Qed.

Lemma hash_step_ok db st op : models db st -> step_models db (hash_exec db op) (hash_spec (entry_num db) st op).
Proof.
  intros Hm. pose proof Hm as [Hh Hf Hc]. destruct op as [d|d|d|d]; cbn [hash_exec].
  - rewrite (search_models db st d Hm). cbn [hash_spec]. by exists db.
  - destruct (insert_models db st d Hm) as (r & db' & -> & H). exact H.
  - unfold dbtable_hash_update. pose proof Hh as [_ (h & Hg & _)]. rewrite Hg.
    set (db1 := db_table_read_lock db).
    assert (models db1 st) as Hm1.
    { split; [by apply hash_ok_lock| |exact Hc]. intros d'. rewrite <- Hf.
      apply hash_find_ext; [done|by apply hash_ok_lock|done]. }
    rewrite (search_models db1 st d Hm1). cbn [hash_spec]. destruct (look st d) as [x|] eqn:El; cbn [Z.eqb negb].
    + destruct (insert_models db1 st d Hm1) as (r & db2 & -> & (db3 & E3 & [Hh3 Hf3 Hc3] & Hl3 & Hn3)).
      cbn [hash_spec] in *. rewrite El in *. cbn [fst snd] in *. injection E3 as -> <-. cbn [mbind option_bind].
      exists (db_table_unlock db2). split; [done|]. split; [split|split].
      * by apply hash_ok_lock.
      * intros d'. cbn [snd]. rewrite <- Hf3. apply hash_find_ext; [done|by apply hash_ok_lock|done].
      * exact Hc3.
      * cbn in Hl3 |- *. lia.
      * exact Hn3.
    + exists db. split; [|done]. cbn [fst]. unfold db1. change db_table_read_lock with (db_table_lock (D := D)). by rewrite relock_id.
  - destruct (hash_delete_ok db d Hh) as (r & db' & -> & Hp). cbn [hash_spec].
    destruct Hp as [(i & x & He & -> & Hr)|(Hno & -> & ->)].
    + assert (look st d = Some x) as Hl by (rewrite <- Hf; apply hash_find_spec; [done|by exists i]). rewrite Hl.
      pose proof Hr as [Hh' Hc' Hl' Hn']. exists db'. split; [done|]. split; [|done]. split; [done| |].
      * intros d'. cbn [snd look]. rewrite <- Hf. by eapply find_after_delete.
      * cbn [snd cnt]. rewrite count_size, Hc' by done. rewrite count_size in Hc by done. destruct He as [Hi _].
        rewrite map_size_delete_Some by (by exists x). rewrite <- Hc.
        assert (base.size (contents db) <> 0%nat) by (intros Hz; apply map_size_empty_inv in Hz; rewrite Hz, lookup_empty in Hi; done).
        lia.
    + assert (look st d = None) as Hl by (rewrite <- Hf; by apply hash_find_none). rewrite Hl. by exists db.
Qed.

Lemma hash_runs_ok db st l :
  models db st ->
  exists db', hash_runs db l = Some ((hash_specs (entry_num db) st l).1, db') /\
    models db' (hash_specs (entry_num db) st l).2 /\ lock db' = lock db /\ entry_num db' = entry_num db.
Proof.
  revert db st. induction l as [|op l IH]; intros db st Hm; cbn [hash_runs hash_specs]; [by exists db|].
  destruct (hash_step_ok db st op Hm) as (db1 & E1 & Hm1 & Hl1 & Hn1). rewrite E1.
  destruct (hash_spec (entry_num db) st op) as [r st1]. cbn [fst snd] in *. cbn [mbind option_bind].
  destruct (IH db1 st1 Hm1) as (db2 & E2 & Hm2 & Hl2 & Hn2). rewrite E2. rewrite Hn1 in Hm2, Hn2 |- *.
  cbn [mbind option_bind]. destruct (hash_specs (entry_num db) st1 l) as [rs st2]. exists db2. cbn [fst snd] in *.
  by rewrite Hl2, Hl1.
Qed.

(** *** Walking the buckets *)

Lemma next_in_bucket_spec db e p ids buf :
  all_exist db ids ->
  forall l1 i l2 d, ids = l1 ++ i :: l2 -> contents db !! i = Some d -> e d = true ->
    Forall (fun d => e d = false) (data_of db l1) ->
    match next_in_bucket db e p ids buf with inr x => Some x | inl _ => None end
    = head (filter (fun d => p d = true) (data_of db l2)).
Proof.
  intros He l1 i l2 d Hids Hd Hed Hf. subst ids. revert buf. induction l1 as [|j l1 IH]; intros buf; cbn [app next_in_bucket].
  - cbn [app] in He. apply Forall_cons in He as [_ He]. pose proof Hd as Hg. rewrite contents_lookup in Hg. rewrite Hg.
    change (default buf (Some d)) with d. rewrite Hed, <- (scan_chain_head db p l2 d He).
    by destruct (scan_chain db p l2 d) as [[?|] ?].
  - cbn [app] in He. apply Forall_cons in He as [[x Hx] He]. unfold data_of in Hf. cbn [omap list_omap] in Hf. rewrite Hx in Hf.
    apply Forall_cons in Hf as [Hex Hf]. pose proof Hx as Hg. rewrite contents_lookup in Hg. rewrite Hg.
    change (default buf (Some x)) with x. rewrite Hex. by apply IH.
Qed.

(** After [d] the walk goes on with the entries behind it. *)
Lemma hash_next_ok db h a d b f :
  hash_ok db -> get_hash db k = Some h -> chains_ok (contents db) h -> walk db (index h) = a ++ d :: b ->
  (dbtable_hash_next junk db k (Some d) f).1
  = head (filter (fun c => match f with Some f => f (Some d) c | None => true end = true) b).
Proof.
  intros Hh Hg Hok Hw. unfold dbtable_hash_next. rewrite Hg, (ch_key _ _ Hok). cbv zeta.
  destruct (hash_key_ok _ h d Hok) as [-> _].
  set (accept := fun c => match f with Some f => f (Some d) c | None => true end).
  destruct (walk_at db (index h) a d b (ch_buckets _ _ Hok) Hw) as (i & l1 & l2 & Hd & Hl & Hf & He1 & He2 & ->).
  rewrite filter_app, head_app.
  assert (Forall (fun x => hash_cmp h d x = false) (data_of db l1)) as Hf' by (by rewrite (ch_cmp _ _ Hok)).
  pose proof (next_in_bucket_spec (db_table_read_lock db) (hash_cmp h d) accept (chain_of h (key d)) junk He1
    l1 i l2 d Hl Hd) as Hnext. specialize (Hnext ltac:(rewrite (ch_cmp _ _ Hok); apply cmp_refl) Hf').
  pose proof (fun buf => scan_chain_head (db_table_read_lock db) accept (buckets_from h (key d + 1)) buf He2) as Hscan.
  change (data_of (db_table_read_lock db)) with (data_of db) in *.
  trans (match head (filter (fun c => accept c = true) (data_of db l2)) with
         | Some x => Some x
         | None => head (filter (fun c => accept c = true) (data_of db (buckets_from h (key d + 1))))
         end); [|done].
  destruct (next_in_bucket _ _ _ _ _) as [buf|x].
  - rewrite <- Hnext, <- (Hscan buf). by destruct (scan_chain _ _ _ _) as [[?|] ?].
  - by rewrite <- Hnext.
Qed.

Lemma hash_first_ok db h :
  hash_ok db -> get_hash db k = Some h -> chains_ok (contents db) h ->
  (dbtable_hash_head junk db k None None).1 = head (walk db (index h)) /\
  (dbtable_hash_next junk db k None None).1 = head (walk db (index h)).
Proof.
  intros Hh Hg Hok. pose proof (walk_all_exist db (index h) (ch_buckets _ _ Hok)) as He.
  pose proof (walk_length db (index h) (proj1 Hh) (ch_buckets _ _ Hok)) as Hlen. change (entry_use_num db) with (dbtable_hash_count db) in Hlen.
  pose proof (scan_chain_spec (db_table_read_lock db) (fun _ => true) (chains_from (index h) 0) junk He) as Hs.
  unfold dbtable_hash_head, dbtable_hash_next, buckets_from. rewrite Hg, (ch_key _ _ Hok). cbv zeta.
  destruct Hs as [(i & d & l1 & l2 & Hl & Hi & _ & Hf & ->)|[Hf (buf & ->)]].
  - assert (l1 = []) as ->.
    { destruct l1 as [|j l1]; [done|]. rewrite Hl in He. apply Forall_cons in He as [[x Hx] _].
      unfold data_of in Hf. cbn [omap list_omap] in Hf. change (contents (db_table_read_lock db)) with (contents db) in *.
      rewrite Hx in Hf. by apply Forall_cons in Hf as [? _]. }
    change (contents (db_table_read_lock db)) with (contents db) in *.
    change (db_table_get_entry (db_table_read_lock db) i) with (db_table_get_entry db i).
    change (dbtable_hash_count (db_table_read_lock db)) with (dbtable_hash_count db).
    unfold walk, data_of in *. rewrite Hl in *. cbn [app omap list_omap] in *. rewrite Hi in *. rewrite contents_lookup in Hi.
    unfold zlen in Hlen. cbn [length] in Hlen. destruct (Z.eqb_spec (dbtable_hash_count db) 0); [lia|]. by rewrite Hi.
  - assert (walk db (index h) = []) as ->.
    { unfold walk. change (data_of (db_table_read_lock db)) with (data_of db) in Hf.
      destruct (data_of db (chains_from (index h) 0)); [done|]. by apply Forall_cons in Hf as [? _]. }
    by destruct (_ =? 0).
Qed.

Lemma hash_traversal_ok db h d f :
  get_hash db k = Some h -> chains_ok (contents db) h ->
  (dbtable_hash_traversal junk db k d f).1
  = zlen (filter (fun c => match f with Some f => f c d | None => true end = true) (walk db (index h))).
Proof.
  intros Hg Hok. unfold dbtable_hash_traversal. rewrite Hg. cbn [fst]. rewrite count_chain_spec; [done|].
  exact (walk_all_exist db (index h) (ch_buckets _ _ Hok)).
Qed.

End map.

Section created.
Context {D : Type} (junk : D) (key : D -> Z) (cmp : D -> D -> bool) (sz : Z) `{!HashLaws key cmp sz}.

Lemma create_models num esize mode :
  0 <= num < 2 ^ 32 -> 0 < esize <= MAX_SEND_SIZE - SYNC_HEADER_SIZE -> 0 <= sz ->
  models junk 0 key cmp sz (dbtable_create_hash_index (create_dbtable num esize mode) sz (Some key) cmp)
    (HState (fun _ => None) 0).
Proof.
  intros Hn He Hs. destruct (create_wf (D := D) num esize mode Hn He) as (Hw & Hc & _).
  set (db := dbtable_create_hash_index _ _ _ _).
  assert (core_eq db (create_dbtable num esize mode)) as Hdb by apply core_with_index.
  assert (contents db = ∅) as Hcd by (by rewrite Hdb).
  assert (hash_ok 0 key cmp sz db) as Hh.
  { split; [by rewrite Hdb|]. eexists. split; [done|]. rewrite Hcd.
    split; try done; [unfold zlen; cbn [index]; rewrite length_replicate; lia|apply buckets_empty]. }
  split; [done| |].
  - intros d. cbn [look]. apply (hash_find_none junk 0 key cmp sz db d Hh). intros i x [Hi _]. by rewrite Hcd in Hi.
  - rewrite (count_size 0 key cmp sz db Hh), Hcd. done.
Qed.

End created.

(** ** Properties *)

(** C2: The hash index implements a map keyed by the owner's comparison
    function: on a table made by [create_dbtable] and
    [dbtable_create_hash_index], with an equivalence for comparison and keys
    within the bucket count that equal data share, every sequence of
    searches, insertions, updates and deletions returns the codes and data of
    the map specification (an insertion fails only for new data on a full
    table, and replaces an equal entry), and leaves a table that finds
    exactly the data of the specification, counts it, and is unlocked. *)
Theorem hash_index_refines_map {D} (ops : db_ops D) (junk : D) (key : D -> Z) (cmp : D -> D -> bool) sz num esize mode l :
  HashLaws key cmp sz -> 0 <= num < 2 ^ 32 -> 0 < esize <= MAX_SEND_SIZE - SYNC_HEADER_SIZE -> 0 <= sz ->
  let db := dbtable_create_hash_index (create_dbtable num esize mode) sz (Some key) cmp in
  let spec := hash_specs cmp num (HState (fun _ => None) 0) l in
  exists db', hash_runs ops junk 0 db l = Some (spec.1, db') /\
    (forall d, (dbtable_hash_search junk db' 0 d None).1.2 = look spec.2 d) /\
    dbtable_hash_count db' = cnt spec.2 /\ lock db' = 0.
Proof.
  intros HL Hn He Hs db spec. pose proof (create_models junk key cmp sz num esize mode Hn He Hs) as Hm.
  destruct (create_wf (D := D) num esize mode Hn He) as (_ & _ & Hnum).
  destruct (hash_runs_ok ops junk 0 key cmp sz _ _ l Hm) as (db' & E & [_ Hf Hc] & Hl & _).
  change (entry_num (dbtable_create_hash_index (create_dbtable num esize mode) sz (Some key) cmp))
    with (entry_num (create_dbtable num esize mode : db_table_t D)) in *. rewrite Hnum in *.
  exists db'. split_and!; done.
Qed.

(** Pairs keyed by their first component, three buckets. *)
Definition pair_key (d : Z * Z) : Z := d.1 mod 3.
Definition pair_cmp (d d' : Z * Z) : bool := d.1 =? d'.1.

#[export] Instance pair_laws : HashLaws pair_key pair_cmp 3.
Proof.
  unfold pair_cmp, pair_key. split; [split|].
  - split; [intros x|intros x y|intros x y z]; rewrite !Z.eqb_eq; congruence.
  - intros x y Hxy%Z.eqb_eq. by rewrite Hxy.
  - intros x. apply Z.mod_pos_bound. lia.
Qed.

Definition pair_ops : db_ops (Z * Z) :=
  {| handle_update := None; handle_insert := None; handle_delete := None;
     app_handle_update := None; app_handle_delete := None; platform_db_sync := Some (fun _ => 0);
     platform_relay_flag := false; same_sync_part := fun x y => bool_decide (x = y); keep_local := fun new _ => new;
     entry_hton := fun d => d; entry_ntoh := fun d => d; zero_entry := (0, 0); have_sync := true |}.

Definition pair_script : list (hash_op (D := Z * Z)) :=
  [HInsert (1, 10); HInsert (4, 40); HSearch (4, 0); HInsert (7, 70); HInsert (1, 11); HSearch (1, 0);
   HDelete (4, 0); HUpdate (4, 41); HInsert (7, 71)].

Lemma hash_index_refines_map_witness :
  exists db', hash_runs pair_ops (0, 0) 0
      (dbtable_create_hash_index (create_dbtable 2 16 1) 3 (Some pair_key) pair_cmp) pair_script =
    Some ([(0, None); (0, None); (0, Some (4, 40)); (-1, None); (0, None); (0, Some (1, 11)); (0, Some (4, 40));
           (-1, None); (0, None)], db') /\ dbtable_hash_count db' = 2.
Proof.
  destruct (hash_index_refines_map pair_ops (0, 0) pair_key pair_cmp 3 2 16 1 pair_script) as (db' & E & _ & Hc & _);
    [apply pair_laws|split; [discriminate|reflexivity]|split; [reflexivity|discriminate]|discriminate|].
  exists db'. split; [exact E|exact Hc].
Defined.

(** C32: Walking a hash index visits every entry once: the entries have an
    order such that [dbtable_hash_head] and a [dbtable_hash_next] without
    data give the first, [dbtable_hash_next] from an entry gives the first of
    the following ones that its filter accepts (failing after the last),
    and [dbtable_hash_traversal] counts the accepted ones; the order lists
    the entries that a search can find, each once, [dbtable_hash_count] in
    all. *)
Theorem hash_walk_complete {D} (junk : D) (k : nat) (key : D -> Z) (cmp : D -> D -> bool) sz db :
  HashLaws key cmp sz -> hash_ok k key cmp sz db ->
  exists ds : list D,
    NoDup ds /\ zlen ds = dbtable_hash_count db /\
    (forall d, d ∈ ds <-> (dbtable_hash_search junk db k d None).1.2 = Some d) /\
    (dbtable_hash_head junk db k None None).1 = head ds /\ (dbtable_hash_next junk db k None None).1 = head ds /\
    (forall a d b f, ds = a ++ d :: b ->
       (dbtable_hash_next junk db k (Some d) f).1
       = head (filter (fun c => match f with Some f => f (Some d) c | None => true end = true) b)) /\
    (forall d f, (dbtable_hash_traversal junk db k d f).1
       = zlen (filter (fun c => match f with Some f => f c d | None => true end = true) ds)).
Proof.
  intros HL Hh. pose proof Hh as [Hw (h & Hg & Hok)]. exists (walk db (index h)).
  destruct (hash_first_ok junk k key cmp sz db h Hh Hg Hok) as [H1 H2]. pose proof (ch_buckets _ _ _ _ _ Hok) as Hb. split_and!; try done.
  - by eapply NoDup_walk.
  - by eapply walk_length.
  - intros d. rewrite (hash_find_spec junk k key cmp sz db d d Hh), (elem_of_walk db (index h) d Hb). apply (entry_self (key := key)).
  - intros a d b f Hs. by eapply hash_next_ok.
  - intros d f. by eapply hash_traversal_ok.
Qed.

Lemma hash_walk_complete_witness :
  exists rs db, hash_runs pair_ops (0, 0) 0
      (dbtable_create_hash_index (create_dbtable 4 16 1) 3 (Some pair_key) pair_cmp)
      [HInsert (4, 40); HInsert (2, 20); HInsert (1, 10); HDelete (2, 0); HInsert (6, 60)] = Some (rs, db) /\
    exists ds, NoDup ds /\ zlen ds = 3 /\ (dbtable_hash_head (0, 0) db 0 None None).1 = head ds /\
      head ds = Some (6, 60) /\
      (dbtable_hash_next (0, 0) db 0 (Some (4, 40)) None).1 = Some (1, 10).
Proof.
  pose proof (create_models (0, 0) pair_key pair_cmp 3 4 16 1) as Hm.
  destruct (hash_runs_ok pair_ops (0, 0) 0 pair_key pair_cmp 3 _ _
    [HInsert (4, 40); HInsert (2, 20); HInsert (1, 10); HDelete (2, 0); HInsert (6, 60)]
    (Hm ltac:(split; [discriminate|reflexivity]) ltac:(split; [reflexivity|discriminate]) ltac:(discriminate)))
    as (db & E & [Hok _ Hc] & _).
  destruct (hash_walk_complete (0, 0) 0 pair_key pair_cmp 3 db pair_laws Hok) as (ds & H1 & H2 & _ & H4 & _ & _ & _).
  eexists _, db. split; [exact E|]. exists ds. rewrite H2, Hc, <- H4. vm_compute in E. injection E as <-.
  split; [exact H1|]. split; [reflexivity|]. split; [reflexivity|]. split; reflexivity.
Defined.

(** Pairs with a second index on the second component, which is not a key. *)
Definition snd_key (d : Z * Z) : Z := d.2 mod 3.
Definition snd_cmp (d d' : Z * Z) : bool := d.2 =? d'.2.

Definition two_index_table : db_table_t (Z * Z) :=
  dbtable_create_hash_index
    (dbtable_create_hash_index (create_dbtable 4 16 1) 3 (Some pair_key) pair_cmp) 3 (Some snd_key) snd_cmp.

(** A secondary hash index loses entries: when two entries agree on the
    secondary key, deleting the one that the index did not take removes the
    other from the index ([dbtable_hash_internal_delete] ignores the entry
    number), so a search through the secondary index fails for an entry that
    the primary index still finds, and the index's count, never raised by
    [dbtable_hash_internal_insert], becomes negative. *)
Theorem secondary_index_loses_entry :
  exists rs db h, hash_runs pair_ops (0, 0) 1 two_index_table [HInsert (1, 5); HInsert (2, 5); HDelete (2, 5)] = Some (rs, db) /\
    (dbtable_hash_search (0, 0) db 1 (1, 5) None).1 = (0, Some (1, 5)) /\
    (dbtable_hash_search (0, 0) db 0 (1, 5) None).1 = (DB_TABLE_RETURN_CODE_ENTRY_NOT_EXIST, None) /\
    get_hash db 0 = Some h /\ count h = -1.
Proof.
  eexists _, _, _. split; [vm_compute; reflexivity|]. split; [vm_compute; reflexivity|].
  split; [vm_compute; reflexivity|]. split; [vm_compute; reflexivity|]. reflexivity.
Qed.
