(* ===== verification/ArrayStore.v ===== *)
(** * The array table as an interface

    The protocol daemons keep their configuration in database tables that
    they reach by entry number only.  [ArrayStore] is what they use of such a
    table and [ArrayStoreLaws] what it promises; the table of [Database] with
    an array index is an instance. *)

From Stdlib Require Import ZArith Lia Bool.
From stdpp Require Import base decidable list gmap.
From S2P Require Import Prelude Database.

Open Scope Z_scope.

(** [None] from an operation is a crash of the process. *)
Class ArrayStore (T D : Type) := {
  st_get : T -> Z -> option D;
  st_insert : T -> Z -> D -> option (Z * T);
  st_delete : T -> Z -> option (Z * T);
  st_update : T -> Z -> D -> option (Z * T);
  st_view : T -> gmap Z D;
  st_size : T -> Z;
  st_ok : T -> Prop
}.

Section outcome.
Context {T D : Type} `{!ArrayStore T D}.

(** A call returned [r] and left a good table that holds [m]. *)
Definition st_result (t : T) (x : option (Z * T)) (r : Z) (m : gmap Z D) : Prop :=
  exists t', x = Some (r, t') /\ st_ok t' /\ st_size t' = st_size t /\ st_view t' = m.

End outcome.

Class ArrayStoreLaws (T D : Type) `{!ArrayStore T D} : Prop := {
  st_get_view (t : T) i : st_ok t -> st_get t i = st_view t !! i;
  st_view_range (t : T) i : st_ok t -> is_Some (st_view t !! i) -> 0 <= i < st_size t;
  st_insert_free (t : T) i d : st_ok t -> 0 <= i < st_size t -> st_view t !! i = None ->
    st_result t (st_insert t i d) 0 (<[i := d]> (st_view t));
  st_insert_fail (t : T) i d : st_ok t -> ~ (0 <= i < st_size t) \/ is_Some (st_view t !! i) ->
    st_result t (st_insert t i d) (-1) (st_view t);
  st_delete_any (t : T) i : st_ok t -> st_result t (st_delete t i) 0 (delete i (st_view t));
  st_update_some (t : T) i d : st_ok t -> is_Some (st_view t !! i) ->
    st_result t (st_update t i d) 0 (<[i := d]> (st_view t));
  st_update_none (t : T) i d : st_ok t -> st_view t !! i = None -> st_result t (st_update t i d) (-1) (st_view t)
}.

(** ** The database table *)

Section database.
Context {D : Type} (ops : db_ops D) (junk : D) (array : nat).

Definition database_store : ArrayStore (db_table_t D) D := {|
  st_get db i := (dbtable_array_get db i).1;
  st_insert db i d := dbtable_array_insert_byid ops db junk array i d;
  st_delete db i := let '(r, _, db) := dbtable_array_delete ops db junk array i in Some (r, db);
  st_update db i d := Some (dbtable_array_update ops db junk array i d);
  st_view := contents;
  st_size := entry_num;
  st_ok := wf_db
|}.

#[local] Existing Instance database_store.

Lemma elem_of_free_ids (n : Z) (m : gmap Z D) i : i ∈ free_ids n m <-> 0 <= i < n /\ m !! i = None.
Proof. unfold free_ids. rewrite list_elem_of_filter, elem_of_seqZ. intuition lia. Qed.

Lemma store_result (db : db_table_t D) (x : option (Z * db_table_t D)) res m :
  (exists y, x = Some y /\ refines db (res, m) (Some (Res y.1 (out_index res) (out_data res), y.2))) ->
  st_result db x (code res) m.
Proof.
  intros ([r db'] & -> & (db1 & E & Hc & Hw & _ & Hn & _)). cbn [fst snd] in *. injection E as E <-.
  exists db'. split_and!; [|done..]. by rewrite <- E.
Qed.

Lemma database_store_laws : ArrayStoreLaws (db_table_t D) D.
Proof.
  assert (forall db i d m r, wf_db db ->
    array_spec (entry_num db) (contents db) (InsertById i d) = (Res r None None, m) ->
    st_result db (st_insert db i d) r m) as Hins.
  { intros db i d m r Hw E. pose proof (array_step_ok ops junk array db (InsertById i d) Hw) as H. rewrite E in H.
    apply (store_result db _ (Res r None None)). cbn [array_exec] in H. cbn [st_insert database_store].
    destruct (dbtable_array_insert_byid ops db junk array i d) as [[r' db']|]; [|destruct H as (? & [=] & _)].
    exists (r', db'). split; [done|]. exact H. }
  split; cbn [st_get st_view st_size st_ok database_store].
  - intros db i _. by rewrite contents_lookup.
  - intros db i Hw [d Hd]. apply (exist_at_range db). apply get_entry_exist; [done|]. rewrite <- contents_lookup. by exists d.
  - intros db i d Hw Hi Hn. apply Hins; [done|]. cbn [array_spec].
    by rewrite bool_decide_true by (by apply elem_of_free_ids).
  - intros db i d Hw Hor. apply Hins; [done|]. cbn [array_spec]. rewrite bool_decide_false; [done|].
    rewrite elem_of_free_ids. intros [Hi Hn]. destruct Hor as [|[x Hx]]; [tauto|congruence].
  - intros db i Hw. pose proof (array_step_ok ops junk array db (Delete i) Hw) as H. cbn [array_exec array_spec] in H.
    apply (store_result db _ (Res 0 None (contents db !! i))). cbn [st_delete database_store].
    destruct (dbtable_array_delete ops db junk array i) as [[r d] db']. eexists. split; [done|]. cbn [fst snd out_data out_index].
    destruct H as (db1 & E & H). cbn [fst] in E. injection E as E1 E2 E3. subst. eexists. split; [done|exact H].
  - intros db i d Hw [x Hx]. pose proof (array_step_ok ops junk array db (Update i d) Hw) as H.
    cbn [array_exec array_spec] in H. rewrite Hx in H. apply (store_result db _ (Res 0 None None)). cbn [st_update database_store].
    destruct (dbtable_array_update ops db junk array i d) as [r db']. eauto.
  - intros db i d Hw Hx. pose proof (array_step_ok ops junk array db (Update i d) Hw) as H.
    cbn [array_exec array_spec] in H. rewrite Hx in H. apply (store_result db _ (Res (-1) None None)). cbn [st_update database_store].
    destruct (dbtable_array_update ops db junk array i d) as [r db']. eauto.
Qed.

End database.
