(* ===== verification/DatabaseSeq.v ===== *)
(** * The sequence index

    Model of the sequence index of [src/src/npdsuit/lib/src/npd_database.c]
    ([dbtable_sequence_*]): the caller passes a number, [sequence_index] maps
    it to a bucket, and the buckets are chains of entry numbers over the
    table of [Database].  VLANs, trunks, Ethernet ports and the LACP ports
    are kept behind such an index.  The specification is the one of the hash
    index ([hash_spec]) with the codes of this index; the walk with
    [dbtable_sequence_traverse_next] is shown to be complete. *)

From Stdlib Require Import ZArith Lia Bool.
From stdpp Require Import base decidable list gmap.
From S2P Require Import Prelude Database Chains DatabaseHash.

Open Scope Z_scope.

(** [(unsigned int)-1], the start of a walk. *)
Definition SEQUENCE_START : Z := 2 ^ 32 - 1.

Section sequence.
Context {D : Type} (ops : db_ops D) (junk : D).
Implicit Types (db : db_table_t D) (s : dbsequence_t D).

(** A sequence index is a position in the table's list of indexes. *)
Definition get_seq db (sequence : nat) : option (dbsequence_t D) :=
  match index_list db !! sequence with Some (SeqIndex s) => Some s | _ => None end.

Definition alter_seq db (sequence : nat) (f : dbsequence_t D -> dbsequence_t D) : db_table_t D :=
  match get_seq db sequence with
  | Some s => with_index_list db (<[sequence := SeqIndex (f s)]> (index_list db))
  | None => db
  end.

Definition dbtable_create_sequence_index db (sequence_size : Z) (sindex : Z -> Z) (skey : D -> Z) (cmp : D -> D -> bool)
  : db_table_t D :=
  with_index_list db
    (SeqIndex (Sequence sequence_size (replicate (Z.to_nat sequence_size) []) sindex cmp skey) :: index_list db).

Definition dbtable_sequence_insert db (sequence : nat) (sidx : Z) (data : D) : option (Z * db_table_t D) :=
  match get_seq db sequence with
  | None => Some (-1, db)
  | Some s =>
      let db := db_table_lock db in
      let key1 := sequence_index s sidx in
      if seq_size s <=? key1 then Some (-1, db_table_unlock db)
      else
        match scan_chain db (sequence_cmp s data) (seq_chain s key1) junk with
        | (Some id, cmpdata) =>
            let '(_, db) := db_table_update_entry ops db junk id data sequence true in
            let ret := match handle_update ops with Some f => f data cmpdata | None => 0 end in
            let db := if ret =? 0 then db_table_synced_entry db id DB_HW_SW_SYNCED
                      else db_table_unsynced_entry db id DB_HW_SW_SYNCED in
            Some (0, db_table_unlock db)
        | (None, _) =>
            let '(entry_id, db) := osal_table_entry_id_alloc db in
            if entry_id =? -1 then Some (-1, db_table_unlock db)
            else
              let db := alter_seq db sequence (fun s => with_seq_chain s key1 (seq_chain s key1 ++ [entry_id])) in
              '(_, db) ← db_table_insert_entry ops db junk entry_id data sequence true;
              let ret := match handle_insert ops with Some f => f data | None => 0 end in
              let db := if ret =? 0 then db_table_synced_entry db entry_id DB_HW_SW_SYNCED else db in
              Some (0, db_table_unlock db)
        end
  end.

(** The first bucket whose entry can be read and is accepted. *)
Fixpoint scan_present db (p : D -> bool) (chain : list Z) : option Z :=
  match chain with
  | [] => None
  | id :: chain =>
      match db_table_get_entry db id with
      | Some cmpdata => if p cmpdata then Some id else scan_present db p chain
      | None => scan_present db p chain
      end
  end.

(** Result code, the data copied to [data] if any, and the table. *)
Definition dbtable_sequence_search db (sequence : nat) (sidx : Z) (data : D) : Z * option D * db_table_t D :=
  match get_seq db sequence with
  | None => (-1, None, db)
  | Some s =>
      let db := db_table_read_lock db in
      let key1 := sequence_index s sidx in
      if seq_size s <=? key1 then (-1, None, db_table_read_unlock db)
      else
        match scan_present db (fun cmpdata => sequence_cmp s cmpdata data) (seq_chain s key1) with
        | None => (-1, None, db_table_read_unlock db)
        | Some entry_id =>
            let ret := db_table_get_entry db entry_id in
            (match ret with Some _ => 0 | None => -1 end, ret, db_table_read_unlock db)
        end
  end.

(** Code and the contents of [data] afterwards. *)
Fixpoint head_loop db s (sidx : Z) (chain : list Z) (data : D) : Z * D :=
  match chain with
  | [] => (-1, data)
  | id :: chain =>
      let ret := db_table_get_entry db id in
      let data := default data ret in
      if sequence_key s data =? sidx then (match ret with Some _ => 0 | None => -1 end, data)
      else head_loop db s sidx chain data
  end.

(** The bucket number is not checked: [None] is an access out of bounds. *)
Definition dbtable_sequence_head db (sequence : nat) (sidx : Z) (data : D) : option (Z * D * db_table_t D) :=
  match get_seq db sequence with
  | None => Some (-1, data, db)
  | Some s =>
      let db := db_table_read_lock db in
      chain ← rd (seq_index s) (sequence_index s sidx);
      Some (head_loop db s sidx chain data, db_table_read_unlock db)
  end.

(** The inner loop of [dbtable_sequence_next]; [None] is its error exit. *)
Fixpoint next_accepted db (accept : D -> bool) (chain : list Z) : option D :=
  match chain with
  | [] => None
  | id :: chain =>
      match db_table_get_entry db id with
      | None => None
      | Some cmpdata => if accept cmpdata then Some cmpdata else next_accepted db accept chain
      end
  end.

Fixpoint next_loop db s (sidx : Z) (accept : D -> bool) (chain : list Z) : option D :=
  match chain with
  | [] => None
  | id :: chain =>
      match db_table_get_entry db id with
      | None => None
      | Some cmpdata =>
          if sequence_key s cmpdata =? sidx then next_accepted db accept chain
          else next_loop db s sidx accept chain
      end
  end.

(** Code, the data copied to [ret_data] if any, and the table. *)
Definition dbtable_sequence_next db (sequence : nat) (sidx : Z) (data : D) (filter : option (D -> D -> bool))
  : option (Z * option D * db_table_t D) :=
  match get_seq db sequence with
  | None => Some (-1, None, db)
  | Some s =>
      let db := db_table_read_lock db in
      let accept cmpdata := match filter with Some f => f data cmpdata | None => true end in
      chain ← rd (seq_index s) (sequence_index s sidx);
      let r := next_loop db s sidx accept chain in
      Some (match r with Some _ => 0 | None => -1 end, r, db_table_read_unlock db)
  end.

(** The data of the first entry of the first chain that is not empty. *)
Fixpoint first_entry db (ix : list (list Z)) : option D :=
  match ix with
  | [] => None
  | [] :: ix => first_entry db ix
  | (id :: _) :: _ => db_table_get_entry db id
  end.

(** After the entry with the number [sidx]: the next one of its chain, or
    the first one of the chains [rest] behind it. *)
Fixpoint traverse_loop db s (sidx : Z) (rest : list (list Z)) (chain : list Z) : option D :=
  match chain with
  | [] => None
  | id :: chain =>
      match db_table_get_entry db id with
      | None => None
      | Some cmpdata =>
          if sequence_key s cmpdata =? sidx then first_entry db (chain :: rest)
          else traverse_loop db s sidx rest chain
      end
  end.

(** The check of the bucket number lets [size] itself through. *)
Definition dbtable_sequence_traverse_next db (sequence : nat) (sidx : Z) : option (Z * option D * db_table_t D) :=
  match get_seq db sequence with
  | None => Some (-1, None, db)
  | Some s =>
      let db := db_table_read_lock db in
      let key1 := if sidx =? SEQUENCE_START then 0 else sequence_index s sidx in
      let first_flag := (sidx =? SEQUENCE_START) || (seq_size s <? key1) in
      let key1 := if seq_size s <? key1 then 0 else key1 in
      chain ← rd (seq_index s) key1;
      let rest := drop (Z.to_nat (key1 + 1)) (seq_index s) in
      let r := if first_flag || bool_decide (chain = []) then first_entry db (chain :: rest)
               else traverse_loop db s sidx rest chain in
      Some (match r with Some _ => 0 | None => -1 end, r, db_table_read_unlock db)
  end.

(** [ret_data] is the buffer of the comparisons: when the caller passes the
    same object for [data] and [ret_data], an entry is compared with itself.
    Code, the data left in [ret_data] by a deletion, and the table. *)
Definition dbtable_sequence_delete db (sequence : nat) (sidx : Z) (data : D) (same : bool) : Z * option D * db_table_t D :=
  match get_seq db sequence with
  | None => (-1, None, db)
  | Some s =>
      let db := db_table_lock db in
      let key1 := sequence_index s sidx in
      if seq_size s <=? key1 then (-1, None, db_table_unlock db)
      else
        match scan_chain db (fun ret_data => sequence_cmp s (if same then ret_data else data) ret_data)
                (seq_chain s key1) (if same then data else junk) with
        | (None, _) => (0, None, db_table_unlock db)
        | (Some entry_id, ret_data) =>
            let db := alter_seq db sequence (fun s => with_seq_chain s key1 (unlink entry_id (seq_chain s key1))) in
            let '(_, db) := db_table_free_entry_index db junk entry_id sequence in
            let ret_data := default ret_data (db_table_get_entry db entry_id) in
            let '(_, db) := db_table_delete_entry ops db entry_id true in
            (0, Some ret_data, db_table_unlock db)
        end
  end.

Definition dbtable_sequence_update db (sequence : nat) (sidx : Z) (data : D) : option (Z * db_table_t D) :=
  match get_seq db sequence with
  | None => Some (-1, db)
  | Some _ =>
      let '(ret, _, db) := dbtable_sequence_search db sequence sidx data in
      if negb (ret =? 0) then Some (-1, db) else dbtable_sequence_insert db sequence sidx data
  end.

(** Without a processor: how many entries the filter accepts. *)
Definition dbtable_sequence_traversal db (sequence : nat) (data : D) (filter : option (D -> D -> bool))
  : Z * db_table_t D :=
  match get_seq db sequence with
  | None => (0, db)
  | Some s =>
      let db := db_table_read_lock db in
      let accept proc_data := match filter with Some f => f proc_data data | None => true end in
      (count_chain db accept (chains_from (seq_index s) 0) junk, db_table_read_unlock db)
  end.

End sequence.

(** ** A table with a sequence index as a map *)

(** What the owner's functions promise: the laws of the chains, for the
    bucket as the key. *)
Class SeqLaws {D} (sindex : Z -> Z) (skey : D -> Z) (cmp : D -> D -> bool) : Prop := {
  seq_chain_laws :: ChainLaws (fun d => sindex (skey d)) cmp;
  sindex_pos d : 0 <= sindex (skey d)
}.

Section map.
Context {D : Type} (ops : db_ops D) (junk : D) (k : nat).
Context (sindex : Z -> Z) (skey : D -> Z) (cmp : D -> D -> bool) (sz : Z) `{!SeqLaws sindex skey cmp}.
Implicit Types (db : db_table_t D) (s : dbsequence_t D) (m : gmap Z D).

#[local] Abbreviation bucket := (fun d => sindex (skey d)).

Record seq_chains_ok m s : Prop := {
  sc_index : sequence_index s = sindex;
  sc_key : sequence_key s = skey;
  sc_cmp : sequence_cmp s = cmp;
  sc_size : seq_size s = sz;
  sc_len : zlen (seq_index s) = sz;
  sc_buckets : buckets_ok bucket cmp m (seq_index s)
}.

Definition seq_ok db : Prop := wf_db db /\ exists s, get_seq db k = Some s /\ seq_chains_ok (contents db) s.

(** The data has a bucket. *)
Definition fits (d : D) : bool := bucket d <? sz.

Lemma get_seq_index db db' : index_list db' !! k = index_list db !! k -> get_seq db' k = get_seq db k.
Proof. intros H. unfold get_seq. by rewrite H. Qed.

Lemma core_alter_seq db f : core_eq (alter_seq db k f) db.
Proof. unfold alter_seq. destruct (get_seq db k); [apply core_with_index|done]. Qed.

Lemma get_alter_seq db f s : get_seq db k = Some s -> get_seq (alter_seq db k f) k = Some (f s).
Proof.
  intros H. unfold alter_seq. rewrite H. unfold get_seq in *. cbn [index_list with_index_list].
  destruct (index_list db !! k) eqn:E; [|done]. by rewrite list_lookup_insert_eq by (by eapply lookup_lt_Some).
Qed.

Lemma seq_with_chain m m' s b l :
  seq_chains_ok m s -> buckets_ok bucket cmp m' (set_chain (seq_index s) b l) -> seq_chains_ok m' (with_seq_chain s b l).
Proof.
  intros [H1 H2 H3 H4 H5 _] Hb. split; try done. unfold with_seq_chain. cbn [seq_index]. by rewrite zlen_insert.
Qed.

(** A change of the table through the index. *)
Record seq_res db db' m' : Prop := {
  sr_ok : seq_ok db';
  sr_contents : contents db' = m';
  sr_lock : lock db' = lock db;
  sr_num : entry_num db' = entry_num db
}.

Lemma seq_res_table db db1 db2 s m :
  table_res k db1 db2 m -> get_seq db1 k = Some s -> seq_chains_ok m s ->
  lock db1 = lock db + 1 -> entry_num db1 = entry_num db -> seq_res db (db_table_unlock db2) m.
Proof.
  intros [Hw Hm Hl Hn Hi] Hg Hok Hl1 Hn1.
  assert (contents (db_table_unlock db2) = m) as Hcm by exact Hm. split; [split| | |].
  - by apply wf_lock.
  - exists s. split; [change (get_seq db2 k = Some s); by rewrite (get_seq_index _ _ Hi)|by rewrite Hcm].
  - done.
  - cbn. lia.
  - change (entry_num db2 = entry_num db). lia.
Qed.

Lemma seq_res_lock db : seq_ok db -> seq_res db (db_table_unlock (db_table_lock db)) (contents db).
Proof. intros Hs. by rewrite relock_id. Qed.

Lemma scan_present_chain db p ids buf :
  all_exist db ids -> scan_present db p ids = (scan_chain db p ids buf).1.
Proof.
  intros He. revert buf. induction He as [|i l [d Hd] _ IH]; intros buf; cbn [scan_present scan_chain]; [done|].
  rewrite contents_lookup in Hd. rewrite Hd. change (default buf (Some d)) with d. destruct (p d); [done|apply IH].
Qed.

Lemma sindex_fits d s m : seq_chains_ok m s -> (seq_size s <=? sindex (skey d)) = negb (fits d).
Proof.
  intros Hok. rewrite (sc_size _ _ Hok). unfold fits. destruct (Z.leb_spec sz (sindex (skey d))), (Z.ltb_spec (sindex (skey d)) sz); try done; lia.
Qed.

Lemma no_entry_outside db s d :
  seq_chains_ok (contents db) s -> fits d = false -> forall i x, ~ is_entry cmp (contents db) d i x.
Proof.
  intros Hok Hf i x [Hi Hx]. pose proof (buckets_range _ _ _ _ (sc_buckets _ _ Hok) Hi) as Hr. cbn in Hr.
  rewrite (sc_len _ _ Hok) in Hr. pose proof (key_cmp (key := bucket) _ _ Hx) as Hk. cbn in Hk. unfold fits in Hf. lia.
Qed.

Lemma seq_search_ok db d :
  seq_ok db ->
  (exists i x, is_entry cmp (contents db) d i x /\ dbtable_sequence_search db k (skey d) d = (0, Some x, db)) \/
  ((forall i x, ~ is_entry cmp (contents db) d i x) /\ dbtable_sequence_search db k (skey d) d = (-1, None, db)).
Proof.
  intros [Hw (s & Hg & Hok)]. unfold dbtable_sequence_search, db_table_read_unlock, db_table_read_lock.
  rewrite Hg, (sc_index _ _ Hok), relock_id, (sindex_fits d s _ Hok). cbv zeta. destruct (fits d) eqn:Ef; cbn [negb].
  - unfold seq_chain. change (default [] (rd (seq_index s) (sindex (skey d)))) with (chain_at (seq_index s) (sindex (skey d))).
    rewrite (scan_present_chain _ _ _ junk) by exact (chain_all_exist db _ _ (sc_buckets _ _ Hok)).
    destruct (scan_bucket (db_table_lock db) (seq_index s) d junk (fun x => sequence_cmp s x d)) as
      [(i & x & He & ->)|[Hno (buf & ->)]]; [exact (sc_buckets _ _ Hok)| |left|by right].
    + intros x. by rewrite (sc_cmp _ _ Hok), (cmp_sym (key := bucket)).
    + exists i, x. split; [done|]. cbn [fst]. destruct He as [Hi _]. rewrite contents_lookup in Hi. by rewrite Hi.
  - right. split; [by eapply no_entry_outside|done].
Qed.

(** What an insertion does: replace the entry that compares equal, or take
    the least free number, or fail on a full table or without a bucket. *)
Definition seq_insert_post db (d : D) (r : Z) db' : Prop :=
  (exists i x, is_entry cmp (contents db) d i x /\ r = 0 /\ seq_res db db' (<[i := d]> (contents db))) \/
  ((forall i x, ~ is_entry cmp (contents db) d i x) /\
   if fits d then
     match free_ids (entry_num db) (contents db) with
     | i :: _ => r = 0 /\ seq_res db db' (<[i := d]> (contents db))
     | [] => r = -1 /\ seq_res db db' (contents db)
     end
   else r = -1 /\ seq_res db db' (contents db)).

Lemma seq_insert_ok db d :
  seq_ok db -> exists r db', dbtable_sequence_insert ops junk db k (skey d) d = Some (r, db') /\ seq_insert_post db d r db'.
Proof.
  intros Hs. pose proof Hs as [Hw (s & Hg & Hok)]. unfold dbtable_sequence_insert, seq_insert_post.
  rewrite Hg, (sc_index _ _ Hok), (sindex_fits d s _ Hok). cbv zeta. destruct (fits d) eqn:Ef; cbn [negb].
  2: { eexists _, _. split; [done|]. right. split; [by eapply no_entry_outside|]. split; [done|by apply seq_res_lock]. }
  assert (wf_db (db_table_lock db)) as Hwl by (by apply wf_lock).
  change (seq_chain s (sindex (skey d))) with (chain_at (seq_index s) (sindex (skey d))) at 1.
  destruct (scan_bucket (db_table_lock db) (seq_index s) d junk (sequence_cmp s d)) as [(i & x & He & ->)|[Hno (buf & ->)]];
    [exact (sc_buckets _ _ Hok)|by rewrite (sc_cmp _ _ Hok)| |]; change (contents (db_table_lock db)) with (contents db) in *.
  - destruct (update_res ops junk k (db_table_lock db) i d x Hwl (proj1 He)) as (db2 & -> & Hr).
    eexists _, _. split; [done|]. left. exists i, x. split_and!; [done..|].
    eapply (seq_res_table db (db_table_lock db)); [by apply table_res_mark|exact Hg| |done|done].
    destruct Hok. split; try done. by eapply buckets_update.
  - destruct (entry_alloc_list db) as [|i l] eqn:El.
    + unfold osal_table_entry_id_alloc. change (entry_alloc_list (db_table_lock db)) with (entry_alloc_list db).
      rewrite El. cbn [Z.eqb]. eexists _, _. split; [done|]. right. split; [done|].
      rewrite <- (alloc_list_free_ids db Hw), El. split; [done|by apply seq_res_lock].
    + destruct (alloc_head (db_table_lock db) i l Hwl El) as [Ea Hi]. rewrite Ea. destruct (Z.eqb_spec i (-1)); [lia|].
      set (dba := with_alloc _ _ l). set (db1 := alter_seq dba k _).
      destruct (insert_res ops junk k (db_table_lock db) db1 i l d Hwl El) as (db2 & E2 & Hw2 & Hc2 & Hl2 & Hn2 & Hi2);
        [apply core_alter_seq|]. rewrite E2. cbn [mbind option_bind].
      eexists _, _. split; [done|]. right. split; [done|]. rewrite <- (alloc_list_free_ids db Hw), El. split; [done|].
      assert (table_res k db1 db2 (<[i := d]> (contents db))) as Hr.
      { split; try done.
        - rewrite Hl2. symmetry. exact (core_lock _ _ (core_alter_seq dba _)).
        - rewrite Hn2. unfold db1. by rewrite (core_alter_seq dba _). }
      eapply (seq_res_table db db1 _ (with_seq_chain s (sindex (skey d)) (seq_chain s (sindex (skey d)) ++ [i]))).
      * destruct (_ =? 0); [by apply (table_res_mark k db1 db2 _ i true)|done].
      * by apply (get_alter_seq dba (fun s => with_seq_chain s _ (seq_chain s _ ++ [i]))).
      * eapply seq_with_chain; [done|]. apply (buckets_insert _ _ i d (sc_buckets _ _ Hok)); try done.
        -- pose proof (sindex_pos (sindex := sindex) (cmp := cmp) d). unfold fits in Ef. rewrite (sc_len _ _ Hok). lia.
        -- apply contents_exist; [done|]. apply (wf_free _ Hw i). rewrite El. by left.
        -- by rewrite app_nil_r.
      * exact (core_lock _ _ (core_alter_seq dba _)).
      * unfold db1. by rewrite (core_alter_seq dba _).
Qed.

(** A caller that passes one object for both buffers needs buckets that hold
    one entry at most: that of [d], or those of all data. *)
Definition same_at (same : bool) db (d : D) : Prop :=
  same = true -> forall i x, contents db !! i = Some x -> bucket d = bucket x -> cmp d x = true.
Definition same_ok (same : bool) : Prop := same = true -> forall x y, bucket x = bucket y -> cmp x y = true.

Lemma same_ok_at same db d : same_ok same -> same_at same db d.
Proof. intros H Hs i x _. by apply H. Qed.

Definition seq_delete_post db (d : D) (r : Z * option D) db' : Prop :=
  (exists i x, is_entry cmp (contents db) d i x /\ r = (0, Some x) /\ seq_res db db' (delete i (contents db))) \/
  ((forall i x, ~ is_entry cmp (contents db) d i x) /\ r = (if fits d then 0 else -1, None) /\ db' = db).

Lemma scan_same db ids p buf :
  all_exist db ids -> (forall x, x ∈ data_of db ids -> p x = true) ->
  scan_chain db (fun x => cmp x x) ids buf = scan_chain db p ids buf.
Proof.
  intros He Hp. destruct He as [|i l [x Hx] He]; [done|]. cbn [scan_chain].
  pose proof Hx as Hg. rewrite contents_lookup in Hg. rewrite Hg. change (default buf (Some x)) with x.
  rewrite (Hp x), (cmp_refl (key := bucket)); [done|]. apply elem_of_data_of. exists i. split; [by left|done].
Qed.

Lemma seq_delete_ok db d same :
  same_at same db d -> seq_ok db ->
  exists r db', dbtable_sequence_delete ops junk db k (skey d) d same = (r, db') /\ seq_delete_post db d r db'.
Proof.
  intros Hsame Hs. pose proof Hs as [Hw (s & Hg & Hok)]. unfold dbtable_sequence_delete, seq_delete_post.
  rewrite Hg, (sc_index _ _ Hok), (sindex_fits d s _ Hok). cbv zeta. destruct (fits d) eqn:Ef; cbn [negb].
  2: { rewrite relock_id. eexists _, _. split; [done|]. right. split; [by eapply no_entry_outside|done]. }
  assert (exists b, scan_chain (db_table_lock db)
            (fun ret => sequence_cmp s (if same then ret else d) ret) (seq_chain s (sindex (skey d))) (if same then d else junk)
          = scan_chain (db_table_lock db) (cmp d) (chain_at (seq_index s) (sindex (skey d))) b) as [b ->].
  { rewrite (sc_cmp _ _ Hok). destruct same; [|by exists junk]. exists d.
    change (seq_chain s (sindex (skey d))) with (chain_at (seq_index s) (sindex (skey d))).
    pose proof (chain_all_exist db (seq_index s) (sindex (skey d)) (sc_buckets _ _ Hok)) as He.
    apply (scan_same (db_table_lock db) _ (cmp d) d He).
    intros x (i & Hi & Hx)%elem_of_data_of. change (contents (db_table_lock db)) with (contents db) in Hx. apply (Hsame eq_refl i x Hx).
    apply (bk_in _ _ _ _ (sc_buckets _ _ Hok)) in Hi as (y & Hy & Hb). assert (x = y) as -> by congruence. by symmetry. }
  destruct (scan_bucket (db_table_lock db) (seq_index s) d b (cmp d)) as [(i & x & He & ->)|[Hno (buf & ->)]];
    [exact (sc_buckets _ _ Hok)|done| |]; change (contents (db_table_lock db)) with (contents db) in *.
  2: { rewrite relock_id. eexists _, _. split; [done|]. by right. }
  pose proof He as [Hi Hx]. pose proof (key_cmp (key := bucket) _ _ Hx) as Hk. cbn in Hk.
  set (db1 := alter_seq (db_table_lock db) k _).
  assert (core_eq db1 (db_table_lock db)) as H1 by apply core_alter_seq.
  assert (contents db1 = contents db) as Hc1 by (by rewrite H1).
  destruct (delete_res ops junk k db1 i x) as (Hg2 & db3 & E3 & Hr); [rewrite H1; by apply wf_lock|by rewrite Hc1|].
  destruct (db_table_free_entry_index db1 junk i k) as [r2 db2]. cbn [snd] in Hg2, E3. rewrite Hg2, E3. rewrite Hc1 in Hr.
  eexists _, _. split; [done|]. left. exists i, x. split_and!; [done..|].
  eapply (seq_res_table db db1 db3 (with_seq_chain s (sindex (skey d)) (unlink i (seq_chain s (sindex (skey d)))))).
  - done.
  - by apply (get_alter_seq (db_table_lock db) (fun s => with_seq_chain s _ (unlink i (seq_chain s _)))).
  - eapply seq_with_chain; [done|]. rewrite Hk. by apply (buckets_delete _ _ i x (sc_buckets _ _ Hok)).
  - exact (core_lock _ _ H1).
  - by rewrite H1.
Qed.

(** *** The map a client sees *)

Definition seq_find db (d : D) : option D := (dbtable_sequence_search db k (skey d) d).1.2.

Lemma seq_find_spec db d x : seq_ok db -> seq_find db d = Some x <-> entry_in (cmp := cmp) (contents db) d x.
Proof.
  intros Hh. unfold seq_find. destruct (seq_search_ok db d Hh) as [(i & y & He & ->)|[Hno ->]]; cbn.
  - split; [intros [= <-]; by exists i|]. intros (j & Hj). pose proof Hh as [_ (s & _ & Hok)].
    destruct (is_entry_unique _ _ _ _ _ _ _ (sc_buckets _ _ Hok) He Hj) as [_ ->]. done.
  - split; [done|]. intros (j & Hj). by destruct (Hno j x).
Qed.

Lemma seq_find_none db d : seq_ok db -> seq_find db d = None <-> forall i x, ~ is_entry cmp (contents db) d i x.
Proof.
  intros Hh. pose proof (seq_find_spec db d) as H. split.
  - intros Hn i x Hi. rewrite Hn in H. assert (None = Some x) by (apply H; [done|by exists i]). done.
  - intros Hno. destruct (seq_find db d) as [x|]; [|done]. destruct (H x Hh) as [[i Hi] _]; [done|]. by destruct (Hno i x).
Qed.

(** The specification of an operation: the one of the hash index, where the
    data has a bucket; this index fails with -1 only. *)
Definition op_data (op : hash_op (D := D)) : D := match op with HSearch d | HInsert d | HUpdate d | HDelete d => d end.

Definition seq_spec (cap : Z) (st : hash_state) (op : hash_op) : Z * option D * hash_state :=
  match op with
  | HSearch d => (match look st d with Some _ => 0 | None => -1 end, look st d, st)
  | _ => if fits (op_data op) then hash_spec cmp cap st op else (-1, None, st)
  end.

(** Callers pass the number of the data. *)
Definition seq_exec (same : bool) db (op : hash_op) : option (Z * option D * db_table_t D) :=
  match op with
  | HSearch d => Some (dbtable_sequence_search db k (skey d) d)
  | HInsert d => '(r, db) ← dbtable_sequence_insert ops junk db k (skey d) d; Some (r, None, db)
  | HUpdate d => '(r, db) ← dbtable_sequence_update ops junk db k (skey d) d; Some (r, None, db)
  | HDelete d => Some (dbtable_sequence_delete ops junk db k (skey d) d same)
  end.

Fixpoint seq_runs (same : bool) db (l : list hash_op) : option (list (Z * option D) * db_table_t D) :=
  match l with
  | [] => Some ([], db)
  | op :: l => '(r, db) ← seq_exec same db op; '(rs, db) ← seq_runs same db l; Some (r :: rs, db)
  end.

Fixpoint seq_specs (cap : Z) (st : hash_state) (l : list hash_op) : list (Z * option D) * hash_state :=
  match l with
  | [] => ([], st)
  | op :: l => let '(r, st) := seq_spec cap st op in let '(rs, st) := seq_specs cap st l in (r :: rs, st)
  end.

(** The table implements the specification state. *)
Record seq_models db (st : hash_state) : Prop := {
  sm_ok : seq_ok db;
  sm_find : forall d, seq_find db d = look st d;
  sm_count : entry_use_num db = cnt st
}.

Definition seq_step_models db (x : option (Z * option D * db_table_t D)) (y : Z * option D * hash_state) : Prop :=
  exists db', x = Some (y.1, db') /\ seq_models db' y.2 /\ lock db' = lock db /\ entry_num db' = entry_num db.

Lemma seq_full_iff db : seq_ok db -> free_ids (entry_num db) (contents db) = [] <-> entry_use_num db = entry_num db.
Proof.
  intros [Hw _]. rewrite <- (alloc_list_free_ids db Hw), (wf_use _ Hw).
  unfold zlen. destruct (entry_alloc_list db); cbn [length]; split; intros; try done; lia.
Qed.

Lemma seq_models_same db db' st :
  seq_models db st -> seq_res db db' (contents db) -> seq_models db' st.
Proof.
  intros [Hh Hf Hc] [Hh' Hc' _ _]. split; [done| |].
  - intros d. rewrite <- Hf. apply option_eq. intros x. by rewrite !seq_find_spec, Hc'.
  - rewrite use_num_size, Hc' by apply Hh'. rewrite <- use_num_size; [done|apply Hh].
Qed.

Lemma seq_put_models db db' st d i :
  seq_models db st -> seq_res db db' (<[i := d]> (contents db)) ->
  (contents db !! i = None /\ look st d = None) \/ (exists x, is_entry cmp (contents db) d i x /\ look st d = Some x) ->
  seq_models db' (spec_put cmp st d).
Proof.
  intros [Hh Hf Hc] Hr Hi. pose proof Hr as [Hh' Hc' _ _]. pose proof Hh as [Hw (s & _ & Hok)]. split; [done| |].
  - intros d'. unfold spec_put. cbn [look]. apply option_eq. intros x. rewrite seq_find_spec, Hc' by done.
    rewrite (entry_in_insert _ _ _ _ _ _ (sc_buckets _ _ Hok)).
    + destruct (cmp d' d); [split; congruence|]. by rewrite <- Hf, seq_find_spec.
    + destruct Hi as [[Hi Hn]|(y & Hi & _)]; [left|right; by exists y]. split; [done|]. rewrite <- Hf in Hn. by apply seq_find_none.
  - rewrite use_num_size, Hc' by apply Hh'. rewrite use_num_size in Hc by done. unfold spec_put. cbn [cnt].
    destruct Hi as [[Hi ->]|(x & [Hi _] & ->)].
    + rewrite map_size_insert_None by done. lia.
    + rewrite map_size_insert_Some by done. done.
Qed.

Lemma seq_insert_models db st d :
  seq_models db st -> exists r db', dbtable_sequence_insert ops junk db k (skey d) d = Some (r, db') /\
    seq_step_models db (Some (r, None, db')) (seq_spec (entry_num db) st (HInsert d)).
Proof.
  intros Hm. pose proof Hm as [Hh Hf Hc]. destruct (seq_insert_ok db d Hh) as (r & db' & E & Hp). exists r, db'.
  split; [done|]. cbn [seq_spec op_data hash_spec]. pose proof Hh as [Hw (s & _ & Hok)].
  destruct Hp as [(i & x & He & -> & Hr)|[Hno Hp]].
  - assert (look st d = Some x) as Hl by (rewrite <- Hf; apply seq_find_spec; [done|by exists i]). rewrite Hl.
    destruct (fits d) eqn:Ef; [|by destruct (no_entry_outside db s d Hok Ef i x)].
    exists db'. split; [done|]. split; [|split; apply Hr]. eapply seq_put_models; eauto.
  - assert (look st d = None) as Hl by (rewrite <- Hf; by apply seq_find_none). rewrite Hl.
    destruct (fits d) eqn:Ef; [|destruct Hp as [-> Hr]; exists db'; split_and!; [done|by eapply seq_models_same|apply Hr..]].
    pose proof (seq_full_iff db Hh) as Hfull. rewrite Hc in Hfull.
    destruct (free_ids (entry_num db) (contents db)) as [|i l] eqn:Efree; destruct Hp as [-> Hr]; exists db'.
    + destruct (Z.eqb_spec (cnt st) (entry_num db)) as [_|Hne]; [|tauto]. split_and!; [done|by eapply seq_models_same|apply Hr..].
    + destruct (Z.eqb_spec (cnt st) (entry_num db)) as [Heq|_]; [by apply Hfull in Heq|].
      split; [done|]. split; [|split; apply Hr]. eapply seq_put_models; [done|done|]. left. split; [|done].
      apply contents_exist; [done|]. apply (wf_free _ Hw i). rewrite (alloc_list_free_ids db Hw), Efree. by left.
Qed.

Lemma seq_search_models db st d :
  seq_models db st ->
  dbtable_sequence_search db k (skey d) d = (match look st d with Some _ => 0 | None => -1 end, look st d, db).
Proof.
  intros [Hh Hf _]. rewrite <- Hf. unfold seq_find.
  destruct (seq_search_ok db d Hh) as [(i & x & _ & ->)|[_ ->]]; done.
Qed.

Lemma seq_delete_models db st d same :
  same_at same db d -> seq_models db st ->
  seq_step_models db (Some (dbtable_sequence_delete ops junk db k (skey d) d same)) (seq_spec (entry_num db) st (HDelete d)).
Proof.
  intros Hsame Hm. pose proof Hm as [Hh Hf Hc]. destruct (seq_delete_ok db d same Hsame Hh) as (r & db' & -> & Hp).
  cbn [seq_spec op_data hash_spec]. pose proof Hh as [Hw (s & _ & Hok)].
  destruct Hp as [(i & x & He & -> & Hr)|(Hno & -> & ->)].
  - assert (look st d = Some x) as Hl by (rewrite <- Hf; apply seq_find_spec; [done|by exists i]). rewrite Hl.
    destruct (fits d) eqn:Ef; [|by destruct (no_entry_outside db s d Hok Ef i x)].
    pose proof Hr as [Hh' Hc' Hl' Hn']. exists db'. split; [done|]. split; [|done]. split; [done| |].
    + intros d'. cbn [snd look]. apply option_eq. intros y. rewrite seq_find_spec, Hc' by done.
      rewrite (entry_in_delete _ _ _ _ _ _ _ (sc_buckets _ _ Hok) He). destruct (cmp d' d); [done|].
      by rewrite <- Hf, seq_find_spec.
    + cbn [snd cnt]. rewrite use_num_size, Hc' by apply Hh'. rewrite use_num_size in Hc by done. destruct He as [Hi _].
      rewrite map_size_delete_Some by (by exists x). rewrite <- Hc.
      assert (base.size (contents db) <> 0%nat) by (intros Hz; apply map_size_empty_inv in Hz; rewrite Hz, lookup_empty in Hi; done).
      lia.
  - assert (look st d = None) as Hl by (rewrite <- Hf; by apply seq_find_none). rewrite Hl. exists db. by destruct (fits d).
Qed.

Lemma seq_step_ok same db st op :
  (forall d, op = HDelete d -> same_at same db d) -> seq_models db st ->
  seq_step_models db (seq_exec same db op) (seq_spec (entry_num db) st op).
Proof.
  intros Hsame Hm. destruct op as [d|d|d|d]; cbn [seq_exec].
  - rewrite (seq_search_models db st d Hm). by exists db.
  - destruct (seq_insert_models db st d Hm) as (r & db' & -> & H). exact H.
  - unfold dbtable_sequence_update. pose proof Hm as [[_ (s & Hg & _)] _ _]. rewrite Hg, (seq_search_models db st d Hm).
    destruct (seq_insert_models db st d Hm) as (r & db' & E & Hi). cbn [seq_spec op_data hash_spec] in *.
    destruct (look st d) as [x|] eqn:El; cbn [Z.eqb negb]; [by rewrite E|]. exists db. by destruct (fits d).
  - apply seq_delete_models; [by apply Hsame|done].
Qed.

Lemma seq_runs_ok same db st l :
  same_ok same -> seq_models db st ->
  exists db', seq_runs same db l = Some ((seq_specs (entry_num db) st l).1, db') /\
    seq_models db' (seq_specs (entry_num db) st l).2 /\ lock db' = lock db /\ entry_num db' = entry_num db.
Proof.
  intros Hsame. revert db st. induction l as [|op l IH]; intros db st Hm; cbn [seq_runs seq_specs]; [by exists db|].
  destruct (seq_step_ok same db st op (fun d _ => same_ok_at same db d Hsame) Hm) as (db1 & E1 & Hm1 & Hl1 & Hn1). rewrite E1.
  destruct (seq_spec (entry_num db) st op) as [r st1]. cbn [fst snd] in *. cbn [mbind option_bind].
  destruct (IH db1 st1 Hm1) as (db2 & E2 & Hm2 & Hl2 & Hn2). rewrite E2. rewrite Hn1 in Hm2, Hn2 |- *.
  cbn [mbind option_bind]. destruct (seq_specs (entry_num db) st1 l) as [rs st2]. exists db2. cbn [fst snd] in *.
  by rewrite Hl2, Hl1.
Qed.

(** *** Walking the buckets *)

Lemma first_entry_head db ix : all_exist db (concat ix) -> first_entry db ix = head (data_of db (concat ix)).
Proof.
  induction ix as [|[|i l] ix IH]; cbn [first_entry concat app]; intros He; [done|by apply IH|].
  apply Forall_cons in He as [[d Hd] _]. unfold data_of. cbn [omap list_omap]. rewrite Hd. by rewrite contents_lookup in Hd.
Qed.

Lemma traverse_loop_spec db s sidx rest l1 i l2 d :
  all_exist db (l1 ++ i :: l2) -> contents db !! i = Some d -> sequence_key s d = sidx ->
  Forall (fun x => sequence_key s x <> sidx) (data_of db l1) ->
  traverse_loop db s sidx rest (l1 ++ i :: l2) = first_entry db (l2 :: rest).
Proof.
  intros He Hd Hk Hf. induction l1 as [|j l1 IH]; cbn [app traverse_loop].
  - rewrite contents_lookup in Hd. rewrite Hd, Hk, Z.eqb_refl. done.
  - cbn [app] in He. apply Forall_cons in He as [[x Hx] He]. unfold data_of in Hf. cbn [omap list_omap] in Hf.
    rewrite Hx in Hf. apply Forall_cons in Hf as [Hn Hf]. rewrite contents_lookup in Hx. rewrite Hx.
    destruct (Z.eqb_spec (sequence_key s x) sidx); [done|]. by apply IH.
Qed.

Lemma head_loop_spec db s sidx l1 i l2 d buf :
  all_exist db (l1 ++ i :: l2) -> contents db !! i = Some d -> sequence_key s d = sidx ->
  Forall (fun x => sequence_key s x <> sidx) (data_of db l1) -> head_loop db s sidx (l1 ++ i :: l2) buf = (0, d).
Proof.
  intros He Hd Hk Hf. revert buf. induction l1 as [|j l1 IH]; intros buf; cbn [app head_loop].
  - rewrite contents_lookup in Hd. rewrite Hd. change (default buf (Some d)) with d. by rewrite Hk, Z.eqb_refl.
  - cbn [app] in He. apply Forall_cons in He as [[x Hx] He]. unfold data_of in Hf. cbn [omap list_omap] in Hf.
    rewrite Hx in Hf. apply Forall_cons in Hf as [Hn Hf]. rewrite contents_lookup in Hx. rewrite Hx.
    change (default buf (Some x)) with x. destruct (Z.eqb_spec (sequence_key s x) sidx); [done|]. by apply IH.
Qed.

Lemma head_loop_none db s sidx ids buf :
  all_exist db ids -> Forall (fun x => sequence_key s x <> sidx) (data_of db ids) -> (head_loop db s sidx ids buf).1 = -1.
Proof.
  intros He Hf. revert buf. induction He as [|i l [x Hx] He IH]; intros buf; cbn [head_loop]; [done|].
  unfold data_of in Hf. cbn [omap list_omap] in Hf. rewrite Hx in Hf. apply Forall_cons in Hf as [Hn Hf].
  rewrite contents_lookup in Hx. rewrite Hx. change (default buf (Some x)) with x.
  destruct (Z.eqb_spec (sequence_key s x) sidx); [done|]. by apply IH.
Qed.

(** Finding an entry by its number, when the numbers identify the entries. *)
Lemma seq_head_ok db d buf :
  (forall x y, cmp x y = true <-> skey x = skey y) -> seq_ok db -> fits d = true ->
  exists r, dbtable_sequence_head db k (skey d) buf = Some (r, db) /\
    match seq_find db d with Some x => r = (0, x) | None => r.1 = -1 end.
Proof.
  intros Hnum Hs Hfit. pose proof Hs as [Hw (s & Hg & Hok)]. unfold dbtable_sequence_head. rewrite Hg. cbv zeta.
  assert (0 <= sindex (skey d) < zlen (seq_index s)) as Hr.
  { pose proof (sindex_pos (sindex := sindex) (cmp := cmp) d). unfold fits in Hfit. rewrite (sc_len _ _ Hok). lia. }
  assert (rd (seq_index s) (sequence_index s (skey d)) = Some (chain_at (seq_index s) (sindex (skey d)))) as Hrd.
  { rewrite (sc_index _ _ Hok). unfold rd. destruct (Z.leb_spec 0 (sindex (skey d))); [|lia]. by apply chain_at_lookup. }
  rewrite Hrd. cbn [mbind option_bind]. unfold db_table_read_unlock, db_table_read_lock. rewrite relock_id.
  eexists. split; [done|]. pose proof (chain_all_exist db (seq_index s) (sindex (skey d)) (sc_buckets _ _ Hok)) as He.
  destruct (seq_find db d) as [x|] eqn:Ef.
  - apply (seq_find_spec db d x Hs) in Ef as (i & Hi & Hx). pose proof (key_cmp (key := bucket) _ _ Hx) as Hk. cbn in Hk.
    destruct (bk_in _ _ _ _ (sc_buckets _ _ Hok) (sindex (skey d)) i) as [_ Hin].
    apply list_elem_of_split in Hin as (l1 & l2 & Hl); [|by exists x]. rewrite Hl in He |- *.
    apply head_loop_spec; [done|done|rewrite (sc_key _ _ Hok); symmetry; by apply Hnum|].
    apply Forall_forall. intros y (j & Hj & Hy)%elem_of_data_of E. rewrite (sc_key _ _ Hok) in E.
    assert (i = j) as <-.
    { apply (bk_uniq _ _ _ _ (sc_buckets _ _ Hok) i j x y); try done. apply Hnum. rewrite E. symmetry. by apply Hnum. }
    pose proof (bk_nodup _ _ _ _ (sc_buckets _ _ Hok) (sindex (skey d))) as Hnd. rewrite Hl in Hnd.
    apply NoDup_app in Hnd as (_ & Hdis & _). destruct (Hdis i Hj). by left.
  - apply head_loop_none; [done|]. apply Forall_forall. intros x (i & Hi & Hx)%elem_of_data_of E.
    rewrite (sc_key _ _ Hok) in E. assert (cmp d x = true) as Hc by (apply Hnum; by symmetry).
    assert (seq_find db d = Some x) by (apply seq_find_spec; [done|by exists i]). congruence.
Qed.

(** Numbers that identify the entries. *)
Definition numbered db : Prop :=
  (forall x y, skey x = skey y -> cmp x y = true) /\ forall i d, contents db !! i = Some d -> skey d <> SEQUENCE_START.

Definition code (r : option D) : Z := match r with Some _ => 0 | None => -1 end.

Lemma traverse_start_ok db s :
  0 < sz -> get_seq db k = Some s -> seq_chains_ok (contents db) s ->
  dbtable_sequence_traverse_next db k SEQUENCE_START =
    Some (code (head (walk db (seq_index s))), head (walk db (seq_index s)), db).
Proof.
  intros Hsz Hg Hok. unfold dbtable_sequence_traverse_next. rewrite Hg. cbv zeta. rewrite Z.eqb_refl. cbn [orb].
  pose proof (sc_size _ _ Hok) as Hs. destruct (Z.ltb_spec (seq_size s) 0); [lia|].
  pose proof (walk_all_exist db (seq_index s) (sc_buckets _ _ Hok)) as He.
  change (walk db (seq_index s)) with (data_of (db_table_lock db) (concat (seq_index s))).
  rewrite <- (first_entry_head (db_table_lock db) (seq_index s) He). pose proof (sc_len _ _ Hok) as Hlen.
  destruct (seq_index s) as [|c ix]; [unfold zlen in Hlen; cbn in Hlen; lia|]. change (rd (c :: ix) 0) with (Some c). cbn [mbind option_bind].
  unfold db_table_read_unlock, db_table_read_lock. rewrite relock_id.
  done.
Qed.

Lemma traverse_next_ok db s a d b :
  numbered db -> get_seq db k = Some s -> seq_chains_ok (contents db) s -> walk db (seq_index s) = a ++ d :: b ->
  dbtable_sequence_traverse_next db k (skey d) = Some (code (head b), head b, db) /\
  forall buf, dbtable_sequence_head db k (skey d) buf = Some (0, d, db).
Proof.
  intros [Hn1 Hn2] Hg Hok Hw.
  destruct (walk_at db (seq_index s) a d b (sc_buckets _ _ Hok) Hw) as (i & l1 & l2 & Hd & Hl & Hf & He1 & He2 & ->).
  pose proof (buckets_range _ _ _ _ (sc_buckets _ _ Hok) Hd) as Hr. cbn beta in *.
  pose proof (chain_at_lookup _ _ Hr) as Hch.
  assert (rd (seq_index s) (sequence_index s (skey d)) = Some (l1 ++ i :: l2)) as Hrd.
  { rewrite (sc_index _ _ Hok). unfold rd. destruct (Z.leb_spec 0 (sindex (skey d))); [|lia]. by rewrite Hch, Hl. }
  assert (Forall (fun x => sequence_key s x <> skey d) (data_of db l1)) as Hf'.
  { eapply Forall_impl; [exact Hf|]. intros x Hx E. rewrite (sc_key _ _ Hok) in E. pose proof (Hn1 d x (eq_sym E)). cbn beta in Hx. congruence. }
  assert (sequence_key s d = skey d) as Hkd by (by rewrite (sc_key _ _ Hok)). rewrite Hl in He1.
  unfold dbtable_sequence_traverse_next, dbtable_sequence_head. rewrite Hg. cbv zeta.
  unfold db_table_read_unlock, db_table_read_lock. rewrite !relock_id. split.
  - destruct (Z.eqb_spec (skey d) SEQUENCE_START); [by destruct (Hn2 i d)|]. cbn [orb].
    pose proof (sc_len _ _ Hok). destruct (Z.ltb_spec (seq_size s) (sequence_index s (skey d)));
      [rewrite (sc_size _ _ Hok), (sc_index _ _ Hok) in *; lia|].
    rewrite Hrd. cbn [mbind option_bind orb]. rewrite bool_decide_eq_false_2 by (intros E%app_eq_nil; by destruct E).
    rewrite (traverse_loop_spec (db_table_lock db) s (skey d) _ l1 i l2 d He1 Hd Hkd Hf'). rewrite (sc_index _ _ Hok).
    rewrite first_entry_head; [cbn [concat]; unfold data_of; rewrite omap_app; by unfold chains_from|].
    cbn [concat]. apply all_exist_app. split; [|exact He2]. apply all_exist_app in He1 as [_ He1]. by apply Forall_cons in He1 as [_ ?].
  - intros buf. rewrite Hrd. cbn [mbind option_bind].
    by rewrite (head_loop_spec (db_table_lock db) s (skey d) l1 i l2 d buf He1 Hd Hkd Hf').
Qed.

End map.

Section created.
Context {D : Type} (junk : D) (sindex : Z -> Z) (skey : D -> Z) (cmp : D -> D -> bool) (sz : Z) `{!SeqLaws sindex skey cmp}.

Lemma seq_create_models num esize mode :
  0 <= num < 2 ^ 32 -> 0 < esize <= MAX_SEND_SIZE - SYNC_HEADER_SIZE -> 0 <= sz ->
  seq_models 0 sindex skey cmp sz (dbtable_create_sequence_index (create_dbtable num esize mode) sz sindex skey cmp)
    (HState (fun _ => None) 0).
Proof.
  intros Hn He Hs. destruct (create_wf (D := D) num esize mode Hn He) as (Hw & Hc & _).
  set (db := dbtable_create_sequence_index _ _ _ _ _).
  assert (core_eq db (create_dbtable num esize mode)) as Hdb by apply core_with_index.
  assert (contents db = ∅) as Hcd by (by rewrite Hdb).
  assert (seq_ok 0 sindex skey cmp sz db) as Hh.
  { split; [by rewrite Hdb|]. eexists. split; [done|]. rewrite Hcd.
    split; try done; [unfold zlen; cbn [seq_index]; rewrite length_replicate; lia|apply buckets_empty]. }
  split; [done| |].
  - intros d. cbn [look]. apply (seq_find_none junk 0 sindex skey cmp sz db d Hh). intros i x [Hi _]. by rewrite Hcd in Hi.
  - rewrite use_num_size, Hcd by apply Hh. done.
Qed.

End created.

(** ** Properties *)

(** C31: The sequence index implements a map keyed by the owner's comparison
    function: on a table made by [create_dbtable] and
    [dbtable_create_sequence_index], every sequence of searches, insertions,
    updates and deletions that pass the number of their data returns the
    codes and data of the map specification (-1 where the number has no
    bucket), and leaves a table that finds exactly the data of the
    specification, counts it, and is unlocked.  A caller that gives a
    deletion the same object for the key and for the result is served as
    well, provided that no two different data share a bucket. *)
Theorem sequence_index_refines_map {D} (ops : db_ops D) (junk : D) (sindex : Z -> Z) (skey : D -> Z)
    (cmp : D -> D -> bool) same sz num esize mode l :
  SeqLaws sindex skey cmp -> same_ok sindex skey cmp same ->
  0 <= num < 2 ^ 32 -> 0 < esize <= MAX_SEND_SIZE - SYNC_HEADER_SIZE -> 0 <= sz ->
  let db := dbtable_create_sequence_index (create_dbtable num esize mode) sz sindex skey cmp in
  let spec := seq_specs sindex skey cmp sz num (HState (fun _ => None) 0) l in
  exists db', seq_runs ops junk 0 skey same db l = Some (spec.1, db') /\
    (forall d, (dbtable_sequence_search db' 0 (skey d) d).1.2 = look spec.2 d) /\
    entry_use_num db' = cnt spec.2 /\ lock db' = 0.
Proof.
  intros HL Hsame Hn He Hs db spec. pose proof (seq_create_models junk sindex skey cmp sz num esize mode Hn He Hs) as Hm.
  destruct (create_wf (D := D) num esize mode Hn He) as (_ & _ & Hnum).
  destruct (seq_runs_ok ops junk 0 sindex skey cmp sz same _ _ l Hsame Hm) as (db' & E & [_ Hf Hc] & Hl & _).
  change (entry_num (dbtable_create_sequence_index (create_dbtable num esize mode) sz sindex skey cmp))
    with (entry_num (create_dbtable num esize mode : db_table_t D)) in *. rewrite Hnum in *.
  exists db'. split_and!; done.
Qed.

(** Pairs numbered by the last digits of their first component, three buckets for all numbers
    or four buckets for the numbers below four. *)
Definition mod3 (i : Z) : Z := i mod 3.
Definition pair_number (d : Z * Z) : Z := d.1 mod 100.
Definition same_number (d d' : Z * Z) : bool := d.1 mod 100 =? d'.1 mod 100.

#[export] Instance same_number_laws sindex `{Hp : forall i, 0 <= i -> 0 <= sindex i} : SeqLaws sindex pair_number same_number.
Proof.
  unfold same_number, pair_number. split; [split|].
  - split; [intros x|intros x y|intros x y z]; rewrite !Z.eqb_eq; congruence.
  - intros x y Hxy%Z.eqb_eq. by rewrite Hxy.
  - intros d. apply Hp, Z.mod_pos_bound. lia.
Qed.

Definition seq_script : list (hash_op (D := Z * Z)) :=
  [HInsert (1, 10); HInsert (4, 40); HSearch (1, 0); HInsert (2, 20); HInsert (1, 11); HDelete (3, 0);
   HDelete (1, 0); HUpdate (1, 12); HInsert (0, 5); HInsert (3, 30)].

Lemma sequence_index_refines_map_witness :
  exists db', seq_runs pair_ops (0, 0) 0 pair_number true
      (dbtable_create_sequence_index (create_dbtable 2 16 1) 4 (fun i => i) pair_number same_number) seq_script =
    Some ([(0, None); (-1, None); (0, Some (1, 10)); (0, None); (0, None); (0, None); (0, Some (1, 11));
           (-1, None); (0, None); (-1, None)], db') /\ entry_use_num db' = 2.
Proof.
  destruct (sequence_index_refines_map pair_ops (0, 0) (fun i => i) pair_number same_number true 4 2 16 1 seq_script)
    as (db' & E & _ & Hc & _); [apply same_number_laws; by intros i Hi| |split; [discriminate|reflexivity]|
      split; [reflexivity|discriminate]|discriminate|].
  - intros _ x y Hxy. unfold same_number. apply Z.eqb_eq. exact Hxy.
  - exists db'. split; [exact E|exact Hc].
Defined.

(** Walking a sequence index visits every entry once: when the numbers
    identify the entries and none is -1, the entries have an order such that
    [dbtable_sequence_traverse_next] from -1 gives the first, and from the
    number of an entry the following one, failing after the last;
    [dbtable_sequence_head] of a number gives its entry and
    [dbtable_sequence_traversal] counts the entries that the filter accepts;
    the order lists the entries that a search can find, each once. *)
Theorem sequence_walk_complete {D} (junk : D) (k : nat) (sindex : Z -> Z) (skey : D -> Z) (cmp : D -> D -> bool) sz db :
  SeqLaws sindex skey cmp -> numbered skey cmp db -> 0 < sz -> seq_ok k sindex skey cmp sz db ->
  exists ds : list D,
    NoDup ds /\ zlen ds = entry_use_num db /\
    (forall d, d ∈ ds <-> (dbtable_sequence_search db k (skey d) d).1.2 = Some d) /\
    dbtable_sequence_traverse_next db k SEQUENCE_START = Some (code (head ds), head ds, db) /\
    (forall a d b, ds = a ++ d :: b ->
       dbtable_sequence_traverse_next db k (skey d) = Some (code (head b), head b, db) /\
       forall buf, dbtable_sequence_head db k (skey d) buf = Some (0, d, db)) /\
    (forall d f, (dbtable_sequence_traversal junk db k d f).1
       = zlen (filter (fun c => match f with Some f => f c d | None => true end = true) ds)).
Proof.
  intros HL Hn Hsz Hs. pose proof Hs as [Hw (s & Hg & Hok)]. pose proof (sc_buckets _ _ _ _ _ _ Hok) as Hb.
  exists (walk db (seq_index s)). split_and!.
  - by eapply NoDup_walk.
  - by eapply walk_length.
  - intros d. rewrite (seq_find_spec junk k sindex skey cmp sz db d d Hs), (elem_of_walk db (seq_index s) d Hb).
    apply (entry_self (key := fun d => sindex (skey d))).
  - by eapply traverse_start_ok.
  - intros a d b Hd. by eapply traverse_next_ok.
  - intros d f. unfold dbtable_sequence_traversal. rewrite Hg. cbn [fst]. rewrite count_chain_spec; [done|].
    exact (walk_all_exist db (seq_index s) Hb).
Qed.

Lemma sequence_walk_complete_witness :
  exists rs db, seq_runs pair_ops (0, 0) 0 pair_number false
      (dbtable_create_sequence_index (create_dbtable 4 16 1) 3 mod3 pair_number same_number)
      [HInsert (4, 40); HInsert (2, 20); HInsert (1, 10); HDelete (2, 0); HInsert (6, 60)] = Some (rs, db) /\
    exists ds, NoDup ds /\ zlen ds = 3 /\
      dbtable_sequence_traverse_next db 0 SEQUENCE_START = Some (code (head ds), head ds, db) /\ head ds = Some (6, 60) /\
      dbtable_sequence_traverse_next db 0 4 = Some (0, Some (1, 10), db).
Proof.
  pose proof (same_number_laws mod3 (Hp := fun i _ => proj1 (Z.mod_pos_bound i 3 ltac:(reflexivity)))) as HL.
  pose proof (seq_create_models (0, 0) mod3 pair_number same_number 3 4 16 1) as Hm.
  destruct (seq_runs_ok pair_ops (0, 0) 0 mod3 pair_number same_number 3 false _ _
    [HInsert (4, 40); HInsert (2, 20); HInsert (1, 10); HDelete (2, 0); HInsert (6, 60)] ltac:(discriminate)
    (Hm ltac:(split; [discriminate|reflexivity]) ltac:(split; [reflexivity|discriminate]) ltac:(discriminate)))
    as (db & E & [Hok _ Hc] & _).
  destruct (sequence_walk_complete (0, 0) 0 mod3 pair_number same_number 3 db HL) as (ds & H1 & H2 & _ & H4 & _);
    [|reflexivity|exact Hok|].
  - split; [intros x y Hxy; apply Z.eqb_eq; exact Hxy|]. intros i d _ Hd. pose proof (Z.mod_pos_bound d.1 100 ltac:(lia)).
    unfold pair_number, SEQUENCE_START in Hd. lia.
  - eexists _, db. split; [exact E|]. exists ds. rewrite H2, Hc. split; [exact H1|]. split; [reflexivity|]. split; [exact H4|].
    vm_compute in E. injection E as <-. split; [|vm_compute; reflexivity].
    assert (Some (0, Some (6, 60)) = Some (code (head ds), head ds)) as Hh; [|injection Hh as _ <-; reflexivity].
    apply (f_equal (fmap fst)) in H4. etransitivity; [|exact H4]. vm_compute. reflexivity.
Defined.

(** The bucket number is checked inconsistently: for a number that
    [sequence_index] maps to the number of buckets, a search and a deletion
    fail with -1, but [dbtable_sequence_head], [dbtable_sequence_next] and
    [dbtable_sequence_traverse_next] (which tests [key > size]) read past the
    end of the bucket array.  With the 4094 buckets of the VLAN to spanning
    tree table this is VLAN 4094. *)
Theorem sequence_bucket_unchecked {D} (ops : db_ops D) (junk : D) (k : nat) (sindex : Z -> Z) (skey : D -> Z)
    (cmp : D -> D -> bool) sz db i :
  seq_ok k sindex skey cmp sz db -> sindex i = sz -> 0 <= sz -> i <> SEQUENCE_START ->
  (forall d, (dbtable_sequence_search db k i d).1 = (-1, None)) /\
  (forall d same, (dbtable_sequence_delete ops junk db k i d same).1 = (-1, None)) /\
  (forall d, dbtable_sequence_head db k i d = None) /\
  (forall d f, dbtable_sequence_next db k i d f = None) /\
  dbtable_sequence_traverse_next db k i = None.
Proof.
  intros [_ (s & Hg & [Hi _ _ Hs Hl _])] He Hz Hne.
  assert (rd (seq_index s) sz = None) as Hrd by (apply rd_None_ge; lia).
  unfold dbtable_sequence_search, dbtable_sequence_delete, dbtable_sequence_head, dbtable_sequence_next,
    dbtable_sequence_traverse_next. rewrite Hg, Hi, He, Hs, Hrd, Z.leb_refl.
  split_and!; try done. cbv zeta. destruct (Z.eqb_spec i SEQUENCE_START); [done|].
  rewrite Z.ltb_irrefl, Hrd. done.
Qed.

Definition vlan_buckets : db_table_t (Z * Z) :=
  dbtable_create_sequence_index (create_dbtable 4094 8 1) 4094 (fun i => i) pair_number same_number.

Lemma sequence_bucket_unchecked_witness :
  (dbtable_sequence_search vlan_buckets 0 4094 (4094, 0)).1 = (-1, None) /\
  (forall d, dbtable_sequence_head vlan_buckets 0 4094 d = None) /\
  dbtable_sequence_traverse_next vlan_buckets 0 4094 = None.
Proof.
  destruct (sequence_bucket_unchecked pair_ops (0, 0) 0 (fun i => i) pair_number same_number 4094 vlan_buckets 4094)
    as (H1 & _ & H3 & _ & H5); [|reflexivity|discriminate|discriminate|exact (conj (H1 _) (conj H3 H5))].
  pose proof (same_number_laws (fun i => i) (Hp := fun i Hi => Hi)) as HL.
  exact (sm_ok _ _ _ _ _ _ _ (seq_create_models (0, 0) (fun i => i) pair_number same_number 4094 4094 8 1
    ltac:(split; [discriminate|reflexivity]) ltac:(split; [reflexivity|discriminate]) ltac:(discriminate))).
Defined.
