(* ===== verification/KeyStore.v ===== *)
(** * Tables of records with a key, as an interface

    The npd applications keep their tables behind a hash index or a sequence
    index, and use either as a set of records with at most one record per
    key.  [KeyStore] is what they use of it and [KeyStoreLaws] what it
    promises; the tables of [DatabaseHash] and [DatabaseSeq] are instances. *)

From Stdlib Require Import ZArith Lia Bool.
From stdpp Require Import base decidable list gmap.
From S2P Require Import Prelude Database Chains DatabaseHash DatabaseSeq.

Open Scope Z_scope.

(** [None] from an operation is a crash of the process; [ks_head] finds a
    record by its number; [ks_entries] are the records that a traversal gives
    to a processor which at most deletes the one it is given, in order;
    [ks_same] says that two records have the same key and [ks_fits] that the
    index has a bucket for it; [ks_valid] are the records that the index tells
    apart, which are the ones that a client may insert or delete. *)
Class KeyStore (T D : Type) := {
  ks_search : T -> D -> option D;
  ks_insert : T -> D -> option (Z * T);
  ks_update : T -> D -> option (Z * T);
  ks_delete : T -> D -> option (Z * T);
  ks_head : T -> D -> option (option D);
  ks_first : T -> option D;
  ks_entries : T -> list D;
  ks_count : T -> Z;
  ks_cap : T -> Z;
  ks_same : D -> D -> bool;
  ks_fits : T -> D -> bool;
  ks_valid : D -> Prop;
  ks_ok : T -> Prop
}.

Section outcome.
Context {T D : Type} `{!KeyStore T D}.

(** A call returned [r], and the table now finds what [f] says. *)
Definition ks_result (t : T) (x : option (Z * T)) (r : Z) (f : D -> option D) (n : Z) : Prop :=
  exists t', x = Some (r, t') /\ ks_ok t' /\ ks_cap t' = ks_cap t /\ ks_count t' = n /\
    (forall d, ks_fits t' d = ks_fits t d) /\ forall d, ks_search t' d = f d.

(** The lookup after [d] is stored, and after it is removed. *)
Definition ks_put (t : T) (d d' : D) : option D := if ks_same d' d then Some d else ks_search t d'.
Definition ks_drop (t : T) (d d' : D) : option D := if ks_same d' d then None else ks_search t d'.

End outcome.

Class KeyStoreLaws (T D : Type) `{!KeyStore T D} : Prop := {
  ks_equiv :: Equivalence (fun x y : D => ks_same x y = true);
  ks_head_fits (t : T) d : ks_ok t -> ks_fits t d = true -> ks_head t d = Some (ks_search t d);
  ks_first_head (t : T) : ks_ok t -> ks_first t = head (ks_entries t);
  ks_entries_found (t : T) d : ks_ok t -> d ∈ ks_entries t <-> ks_search t d = Some d;
  ks_search_same (t : T) d x : ks_ok t -> ks_search t d = Some x -> ks_same d x = true;
  ks_search_ext (t : T) d d' : ks_ok t -> ks_same d d' = true -> ks_search t d = ks_search t d';
  ks_update_some (t : T) d x : ks_ok t -> ks_search t d = Some x -> ks_result t (ks_update t d) 0 (ks_put t d) (ks_count t);
  ks_update_none (t : T) d : ks_ok t -> ks_search t d = None -> ks_result t (ks_update t d) (-1) (ks_search t) (ks_count t);
  ks_insert_some (t : T) d x : ks_ok t -> ks_search t d = Some x -> ks_result t (ks_insert t d) 0 (ks_put t d) (ks_count t);
  ks_insert_new (t : T) d : ks_ok t -> ks_valid d -> ks_search t d = None -> ks_fits t d = true -> ks_count t <> ks_cap t ->
    ks_result t (ks_insert t d) 0 (ks_put t d) (ks_count t + 1);
  ks_insert_full (t : T) d : ks_ok t -> ks_valid d -> ks_search t d = None -> ks_fits t d = false \/ ks_count t = ks_cap t ->
    ks_result t (ks_insert t d) (-1) (ks_search t) (ks_count t);
  ks_delete_some (t : T) d x : ks_ok t -> ks_search t d = Some x -> ks_result t (ks_delete t d) 0 (ks_drop t d) (ks_count t - 1);
  ks_delete_none (t : T) d : ks_ok t -> ks_valid d -> ks_search t d = None ->
    ks_result t (ks_delete t d) (if ks_fits t d then 0 else -1) (ks_search t) (ks_count t)
}.

(** Tables that tell all records apart. *)
Class KeyStoreTotal (T D : Type) `{!KeyStore T D} : Prop := ks_all_valid (d : D) : ks_valid d.

(** ** A table with a hash index *)

Section hash.
Context {D : Type} (ops : db_ops D) (junk : D) (k : nat).
Context (key : D -> Z) (cmp : D -> D -> bool) (sz : Z) `{!HashLaws key cmp sz}.

Definition database_hash_store : KeyStore (db_table_t D) D := {|
  ks_search db d := (dbtable_hash_search junk db k d None).1.2;
  ks_insert db d := dbtable_hash_insert ops junk db k d;
  ks_update db d := dbtable_hash_update ops junk db k d;
  ks_delete db d := let '(r, _, db) := dbtable_hash_delete ops junk db k d in Some (r, db);
  ks_head db d := Some (dbtable_hash_search junk db k d None).1.2;
  ks_first db := (dbtable_hash_head junk db k None None).1;
  ks_entries db := match get_hash db k with Some h => walk db (index h) | None => [] end;
  ks_count := dbtable_hash_count;
  ks_cap := entry_num;
  ks_same := cmp;
  ks_fits _ _ := true;
  ks_valid _ := True;
  ks_ok := hash_ok k key cmp sz
|}.

#[local] Existing Instance database_hash_store.

Lemma database_hash_store_total : KeyStoreTotal (db_table_t D) D.
Proof. done. Qed.

Lemma models_self db : hash_ok k key cmp sz db ->
  models junk k key cmp sz db (HState (hash_find junk k db) (dbtable_hash_count db)).
Proof. by split. Qed.

(** A step of the specification as a result of the interface. *)
Lemma store_step db op (x : option (Z * db_table_t D)) r out f n :
  hash_ok k key cmp sz db ->
  hash_spec cmp (entry_num db) (HState (hash_find junk k db) (dbtable_hash_count db)) op = (r, out, HState f n) ->
  (exists o, hash_exec ops junk k db op = '(r, db) ← x; Some (r, o, db)) ->
  ks_result db x r f n.
Proof.
  intros Hok Hs [o Ho]. destruct (hash_step_ok ops junk k key cmp sz db _ op (models_self db Hok)) as (db' & E & Hm & Hl & Hn).
  rewrite Hs in E, Hm. cbn [fst snd] in E, Hm. destruct Hm as [Hok' Hf Hc]. rewrite Ho in E.
  destruct x as [[r' db1]|]; [|done]. cbn [mbind option_bind] in E. injection E as -> _ ->. exists db'. by split_and!.
Qed.

Lemma database_hash_store_laws : KeyStoreLaws (db_table_t D) D.
Proof.
  split; cbn [ks_search ks_insert ks_update ks_delete ks_head ks_first ks_entries ks_count ks_cap ks_same ks_fits ks_valid ks_ok database_hash_store].
  - apply (cmp_equiv (key := key)).
  - done.
  - intros db Hok. pose proof Hok as [Hw (h & Hg & Hc)]. destruct (hash_first_ok junk k key cmp sz db h Hok Hg Hc) as [-> _].
    by rewrite Hg.
  - intros db d Hok. pose proof Hok as [_ (h & Hg & Hc)]. rewrite Hg.
    rewrite (elem_of_walk (key := key) (cmp := cmp) db (index h) d (ch_buckets _ _ _ _ _ Hc)).
    pose proof (hash_find_spec junk k key cmp sz db d d Hok) as Hf. unfold hash_find in Hf. rewrite Hf. apply (entry_self (key := key)).
  - intros db d x Hok Hx. apply (hash_find_spec junk k key cmp sz) in Hx as (i & _ & Hc); done.
  - intros db d d' Hok Hc. pose proof (hash_find_spec junk k key cmp sz db d) as H1.
    pose proof (hash_find_spec junk k key cmp sz db d') as H2. unfold hash_find in H1, H2.
    assert (forall i x, is_entry cmp (contents db) d i x <-> is_entry cmp (contents db) d' i x) as He.
    { intros i x. unfold is_entry. split; intros [Hi Hx]; split; try done.
      - apply (cmp_trans (key := key) _ d); [|done]. by rewrite (cmp_sym (key := key)).
      - by apply (cmp_trans (key := key) _ d'). }
    destruct (dbtable_hash_search junk db k d None).1.2 as [x|] eqn:E1.
    + destruct (proj1 (H1 x Hok) eq_refl) as [i Hi]. symmetry. apply H2; [done|]. exists i. by apply He.
    + destruct (dbtable_hash_search junk db k d' None).1.2 as [y|] eqn:E2; [|done].
      destruct (proj1 (H2 y Hok) eq_refl) as [i Hi]. apply (H1 y Hok). exists i. by apply He.
  - intros db d x Hok Hx. apply (store_step db (HUpdate d) _ _ None); [done|unfold hash_spec, spec_put, hash_find; cbn [look cnt]; by rewrite !Hx|by exists None].
  - intros db d Hok Hx. apply (store_step db (HUpdate d) _ _ None); [done|unfold hash_spec, spec_put, hash_find; cbn [look cnt]; by rewrite !Hx|by exists None].
  - intros db d x Hok Hx. apply (store_step db (HInsert d) _ _ None); [done|unfold hash_spec, spec_put, hash_find; cbn [look cnt]; by rewrite !Hx|by exists None].
  - intros db d Hok _ Hx _ Hne. apply (store_step db (HInsert d) _ _ None); [done| |by exists None].
    unfold hash_spec, spec_put, hash_find. cbn [look cnt]. rewrite !Hx.
    by destruct (Z.eqb_spec (dbtable_hash_count db) (entry_num db)).
  - intros db d Hok _ Hx [|He]; [done|]. apply (store_step db (HInsert d) _ _ None); [done| |by exists None].
    unfold hash_spec, hash_find. cbn [look cnt]. by rewrite !Hx, He, Z.eqb_refl.
  - intros db d x Hok Hx. apply (store_step db (HDelete d) _ _ (Some x)); [done|unfold hash_spec, spec_put, hash_find; cbn [look cnt]; by rewrite !Hx|].
    cbn [hash_exec]. destruct (dbtable_hash_delete ops junk db k d) as [[r o] db']. by exists o.
  - intros db d Hok _ Hx. apply (store_step db (HDelete d) _ _ None); [done|unfold hash_spec, spec_put, hash_find; cbn [look cnt]; by rewrite !Hx|].
    cbn [hash_exec]. destruct (dbtable_hash_delete ops junk db k d) as [[r o] db']. by exists o.
Qed.

End hash.

(** ** A table with a sequence index *)

Section sequence.
Context {D : Type} (ops : db_ops D) (junk : D) (k : nat) (same : bool).
Context (sindex : Z -> Z) (skey : D -> Z) (cmp : D -> D -> bool) (sz : Z) `{!SeqLaws sindex skey cmp}.

(** [same] says whether the owner deletes with one object for both buffers;
    [valid] are the keys that have a bucket of their own, and the only ones
    that are stored. *)
Context (valid : Z -> Prop).
Definition all_valid (db : db_table_t D) : Prop := forall i d, contents db !! i = Some d -> valid (skey d).

Definition database_seq_store : KeyStore (db_table_t D) D := {|
  ks_search db d := (dbtable_sequence_search db k (skey d) d).1.2;
  ks_insert db d := dbtable_sequence_insert ops junk db k (skey d) d;
  ks_update db d := dbtable_sequence_update ops junk db k (skey d) d;
  ks_delete db d := let '(r, _, db) := dbtable_sequence_delete ops junk db k (skey d) d same in Some (r, db);
  ks_head db d :=
    '(r, x, _) ← dbtable_sequence_head db k (skey d) d; Some (if r =? 0 then Some x else None);
  ks_first db := dbtable_sequence_traverse_next db k SEQUENCE_START ≫= fun x => x.1.2;
  ks_entries db := match get_seq db k with Some s => walk db (seq_index s) | None => [] end;
  ks_count := entry_use_num;
  ks_cap := entry_num;
  ks_same := cmp;
  ks_fits _ := fits sindex skey sz;
  ks_valid d := valid (skey d);
  ks_ok db := seq_ok k sindex skey cmp sz db /\ all_valid db
|}.

#[local] Existing Instance database_seq_store.

Context (Hinj : same = true -> forall m n, valid m -> valid n -> sindex m = sindex n -> m = n) (Hsz : 0 < sz)
  (Hnum : forall x y, cmp x y = true <-> skey x = skey y).

Lemma found_fits db d x : seq_ok k sindex skey cmp sz db -> seq_find k skey db d = Some x -> fits sindex skey sz d = true.
Proof.
  intros Hok Hx. apply (seq_find_spec junk k sindex skey cmp sz) in Hx as (i & Hi); [|done].
  destruct (fits sindex skey sz d) eqn:Ef; [done|]. pose proof Hok as [_ (s & _ & Hs)].
  by destruct (no_entry_outside sindex skey cmp sz db s d Hs Ef i x).
Qed.

(** Only valid keys are found. *)
Lemma found_valid db d x : seq_ok k sindex skey cmp sz db -> all_valid db -> seq_find k skey db d = Some x -> valid (skey d).
Proof.
  intros Hok Hv Hx. apply (seq_find_spec junk k sindex skey cmp sz) in Hx as (i & Hi & Hc); [|done].
  apply Hnum in Hc. rewrite Hc. by apply (Hv i).
Qed.
Lemma finds_valid db : seq_ok k sindex skey cmp sz db -> (forall d, seq_find k skey db d = Some d -> valid (skey d)) -> all_valid db.
Proof.
  intros Hok H i d Hi. apply H. apply (seq_find_spec junk k sindex skey cmp sz); [done|]. exists i. split; [done|].
  apply (cmp_refl (key := fun d => sindex (skey d))).
Qed.

Lemma seq_store_step db op (x : option (Z * db_table_t D)) r out f n :
  ks_ok db -> (forall d, op = HDelete d -> valid (skey d)) ->
  seq_spec sindex skey cmp sz (entry_num db) (HState (seq_find k skey db) (entry_use_num db)) op = (r, out, HState f n) ->
  (forall d, f d = Some d -> valid (skey d) \/ seq_find k skey db d = Some d) ->
  (exists o, seq_exec ops junk k skey same db op = '(r, db) ← x; Some (r, o, db)) ->
  ks_result db x r f n.
Proof.
  intros [Hok Hv] Hd Hs Hfv [o Ho].
  destruct (seq_step_ok ops junk k sindex skey cmp sz same db (HState (seq_find k skey db) (entry_use_num db)) op)
    as (db' & E & Hm & Hl & Hn); [|by split|].
  { intros d -> Hsame i y Hi Hb. apply Hnum. apply (Hinj Hsame); [by apply Hd|by apply (Hv i)|exact Hb]. }
  rewrite Hs in E, Hm. cbn [fst snd] in E, Hm. destruct Hm as [Hok' Hf Hc]. rewrite Ho in E.
  destruct x as [[r' db1]|]; [|done]. cbn [mbind option_bind] in E. injection E as -> _ ->. exists db'.
  split_and!; try done. split; [done|]. apply finds_valid; [done|]. intros d Hfd. rewrite Hf in Hfd. cbn [look] in Hfd.
  destruct (Hfv d Hfd) as [H|H]; [done|exact (found_valid db d d Hok Hv H)].
Qed.

(** What the lookup after an operation finds is valid or was there. *)
Lemma put_found db d x : valid (skey d) ->
  (if cmp x d then Some d else seq_find k skey db x) = Some x -> valid (skey x) \/ seq_find k skey db x = Some x.
Proof. intros Hd. destruct (cmp x d); [intros [= ->]; by left|by right]. Qed.
Lemma drop_found db d x : (if cmp x d then None else seq_find k skey db x) = Some x -> valid (skey x) \/ seq_find k skey db x = Some x.
Proof. destruct (cmp x d); [done|by right]. Qed.

(** One operation of the specification, where the search for its data gave
    [Hx]. *)
Ltac seq_op op o Hx :=
  apply (seq_store_step _ op _ _ o); [done|intros ? [=]; by subst
    |unfold seq_spec, hash_spec, spec_put, op_data; cbn [look cnt]; unfold seq_find; rewrite !Hx
    |intros y; first [by apply put_found|by right|apply drop_found]
    |cbn [seq_exec]; first [by exists None|by (destruct (dbtable_sequence_delete _ _ _ _ _ _ _) as [[? ?] ?]; eexists)]].

Lemma database_seq_store_laws : KeyStoreLaws (db_table_t D) D.
Proof.
  split; cbn [ks_search ks_insert ks_update ks_delete ks_head ks_first ks_entries ks_count ks_cap ks_same ks_fits ks_valid ks_ok database_seq_store].
  - apply (cmp_equiv (key := fun d => sindex (skey d))).
  - intros db d [Hok _] Hfit. destruct (seq_head_ok junk k sindex skey cmp sz db d d Hnum Hok Hfit) as ([r x] & -> & Hr).
    cbn [mbind option_bind]. unfold seq_find in Hr. destruct (dbtable_sequence_search db k (skey d) d).1.2 as [y|].
    + injection Hr as -> ->. done.
    + cbn [fst] in Hr. by rewrite Hr.
  - intros db [Hok _]. pose proof Hok as [Hw (s & Hg & Hc)].
    rewrite (traverse_start_ok k sindex skey cmp sz db s Hsz Hg Hc). cbn [mbind option_bind fst snd].
    by rewrite Hg.
  - intros db d [Hok _]. pose proof Hok as [_ (s & Hg & Hc)]. rewrite Hg.
    rewrite (elem_of_walk (key := fun d => sindex (skey d)) (cmp := cmp) db (seq_index s) d (sc_buckets _ _ _ _ _ _ Hc)).
    pose proof (seq_find_spec junk k sindex skey cmp sz db d d Hok) as Hf. unfold seq_find in Hf. rewrite Hf.
    apply (entry_self (key := fun d => sindex (skey d))).
  - intros db d x [Hok _] Hx. apply (seq_find_spec junk k sindex skey cmp sz) in Hx as (i & _ & Hc); done.
  - intros db d d' [Hok _] Hc. apply option_eq. intros x.
    pose proof (seq_find_spec junk k sindex skey cmp sz db d x Hok) as H1.
    pose proof (seq_find_spec junk k sindex skey cmp sz db d' x Hok) as H2. unfold seq_find in H1, H2. rewrite H1, H2.
    unfold entry_in, is_entry. split; intros (i & Hi & Hx); exists i; (split; [done|]).
    + apply (cmp_trans (key := fun d => sindex (skey d)) _ d); [|done]. by rewrite (cmp_sym (key := fun d => sindex (skey d))).
    + by apply (cmp_trans (key := fun d => sindex (skey d)) _ d').
  - intros db d x Hok Hx. pose proof (found_valid db d x (proj1 Hok) (proj2 Hok) Hx).
    seq_op (HUpdate d) (@None D) Hx. by rewrite (found_fits db d x (proj1 Hok) Hx).
  - intros db d Hok Hx. seq_op (HUpdate d) (@None D) Hx. by destruct (fits _ _ _ _).
  - intros db d x Hok Hx. pose proof (found_valid db d x (proj1 Hok) (proj2 Hok) Hx).
    seq_op (HInsert d) (@None D) Hx. by rewrite (found_fits db d x (proj1 Hok) Hx).
  - intros db d Hok Hv Hx Hfit Hne. seq_op (HInsert d) (@None D) Hx. rewrite Hfit. by destruct (Z.eqb_spec (entry_use_num db) (entry_num db)).
  - intros db d Hok Hv Hx Hf. seq_op (HInsert d) (@None D) Hx. destruct (fits _ _ _ _); [|done].
    destruct Hf as [|Hf]; [done|]. by rewrite Hf, Z.eqb_refl.
  - intros db d x Hok Hx. pose proof (found_valid db d x (proj1 Hok) (proj2 Hok) Hx).
    seq_op (HDelete d) (Some x) Hx. by rewrite (found_fits db d x (proj1 Hok) Hx).
  - intros db d Hok Hv Hx. seq_op (HDelete d) (@None D) Hx. by destruct (fits _ _ _ _).
Qed.

End sequence.

(** A sequence index over numbers of its own for the keys. *)
Section numbered.
Context (number : Z -> Z) (valid : Z -> Prop) (sz : Z) (Hpos : forall n, 0 <= number n)
  (Hinj : forall m n, valid m -> valid n -> number m = number n -> m = n) (Hsz : 0 < sz).

Lemma number_seq_laws {D} (keyof : D -> Z) : SeqLaws number keyof (fun x y => keyof x =? keyof y).
Proof.
  split; [split; [split|]|].
  - intros x. apply Z.eqb_refl.
  - intros x y. rewrite !Z.eqb_eq. congruence.
  - intros x y z. rewrite !Z.eqb_eq. congruence.
  - intros x y. rewrite Z.eqb_eq. congruence.
  - done.
Qed.

Lemma number_seq_store {D} (ops : db_ops D) (zero : D) (keyof : D -> Z) :
  KeyStoreLaws (db_table_t D) D
    (KeyStore0 := database_seq_store ops zero 0 true number keyof (fun x y => keyof x =? keyof y) sz valid).
Proof.
  pose proof (number_seq_laws keyof). apply (database_seq_store_laws ops zero 0 true number keyof _ sz valid); [done|done|].
  intros x y. apply Z.eqb_eq.
Qed.

(** A new table is empty. *)
Lemma number_seq_created {D} (zero : D) (keyof : D -> Z) num esize mode :
  0 <= num < 2 ^ 32 -> 0 < esize <= MAX_SEND_SIZE - SYNC_HEADER_SIZE ->
  let cmp := fun x y => keyof x =? keyof y in
  let db := dbtable_create_sequence_index (create_dbtable num esize mode) sz number keyof cmp in
  (seq_ok 0 number keyof cmp sz db /\ all_valid keyof valid db) /\ forall d, (dbtable_sequence_search db 0 (keyof d) d).1.2 = None.
Proof.
  intros Hn He cmp db. pose proof (number_seq_laws keyof).
  destruct (seq_create_models zero number keyof cmp sz num esize mode Hn He ltac:(lia)) as [A1 A2 _]. fold db in A1, A2.
  split; [|exact A2]. split; [exact A1|]. intros i d Hi.
  assert (seq_find 0 keyof db d = Some d) as Hf; [|by rewrite A2 in Hf].
  apply (seq_find_spec zero 0 number keyof cmp sz db d d A1). exists i. split; [exact Hi|apply Z.eqb_refl].
Qed.

End numbered.

(** ** Tables with a number as key *)

(** What is found afterwards was there, or is the record itself. *)
Lemma insert_any {T D} `{!KeyStore T D, !KeyStoreLaws T D} (t : T) d : ks_ok t -> ks_valid d ->
  exists r t', ks_insert t d = Some (r, t') /\ ks_ok t' /\ forall x, ks_search t' x = Some x -> x = d \/ ks_search t x = Some x.
Proof.
  intros Hok Hv. assert (forall x, ks_put t d x = Some x -> x = d \/ ks_search t x = Some x) as Hp.
  { intros x. unfold ks_put. destruct (ks_same x d); [intros [= ->]; by left|by right]. }
  destruct (ks_search t d) as [x|] eqn:Hx; [|destruct (ks_fits t d) eqn:Hf; [destruct (decide (ks_count t = ks_cap t)) as [Hc|Hc]|]].
  - destruct (ks_insert_some t d x Hok Hx) as (t' & E & H & _ & _ & _ & L). exists 0, t'. split_and!; [done|done|]. intros y. rewrite L. apply Hp.
  - destruct (ks_insert_full t d Hok Hv Hx) as (t' & E & H & _ & _ & _ & L); [by right|]. exists (-1), t'. split_and!; [done|done|].
    intros y. rewrite L. by right.
  - destruct (ks_insert_new t d Hok Hv Hx Hf Hc) as (t' & E & H & _ & _ & _ & L). exists 0, t'. split_and!; [done|done|]. intros y. rewrite L. apply Hp.
  - destruct (ks_insert_full t d Hok Hv Hx) as (t' & E & H & _ & _ & _ & L); [by left|]. exists (-1), t'. split_and!; [done|done|].
    intros y. rewrite L. by right.
Qed.
Lemma delete_any {T D} `{!KeyStore T D, !KeyStoreLaws T D} (t : T) d : ks_ok t -> ks_valid d ->
  exists r t', ks_delete t d = Some (r, t') /\ ks_ok t' /\ forall x, ks_search t' x = Some x -> ks_search t x = Some x.
Proof.
  intros Hok Hv. destruct (ks_search t d) as [x|] eqn:Hx.
  - destruct (ks_delete_some t d x Hok Hx) as (t' & E & H & _ & _ & _ & L). eexists _, t'. split_and!; [done|done|]. intros y. rewrite L.
    unfold ks_drop. by destruct (ks_same y d).
  - destruct (ks_delete_none t d Hok Hv Hx) as (t' & E & H & _ & _ & _ & L). eexists _, t'. split_and!; [done|done|]. intros y. by rewrite L.
Qed.

(** So insertions and deletions return, whatever the table holds. *)
Lemma insert_total {T D} `{!KeyStore T D, !KeyStoreLaws T D} (t : T) d : ks_ok t -> ks_valid d -> exists r t', ks_insert t d = Some (r, t') /\ ks_ok t'.
Proof. intros Hok Hv. destruct (insert_any t d Hok Hv) as (r & t' & E & H & _). by exists r, t'. Qed.
Lemma delete_total {T D} `{!KeyStore T D, !KeyStoreLaws T D} (t : T) d : ks_ok t -> ks_valid d -> exists r t', ks_delete t d = Some (r, t') /\ ks_ok t'.
Proof. intros Hok Hv. destruct (delete_any t d Hok Hv) as (r & t' & E & H & _). by exists r, t'. Qed.

Section keyed.
Context {T D : Type} `{!KeyStore T D, !KeyStoreLaws T D} (keyof : D -> Z) (mk : Z -> D).
Context (Hmk : forall n, keyof (mk n) = n) (Hsame : forall x y : D, ks_same x y = (keyof x =? keyof y)).
Implicit Types (t : T).

Lemma search_key t n x : ks_ok t -> ks_search t (mk n) = Some x -> keyof x = n.
Proof. intros Hok Hx. apply (ks_search_same t) in Hx; [|done]. rewrite Hsame, Hmk in Hx. by apply Z.eqb_eq in Hx. Qed.

Lemma search_mk t d : ks_ok t -> ks_search t d = ks_search t (mk (keyof d)).
Proof. intros Hok. apply ks_search_ext; [done|]. by rewrite Hsame, Hmk, Z.eqb_refl. Qed.

Lemma update_at t d : ks_ok t -> is_Some (ks_search t (mk (keyof d))) ->
  exists t', ks_update t d = Some (0, t') /\ ks_ok t' /\
    forall m, ks_search t' (mk m) = if m =? keyof d then Some d else ks_search t (mk m).
Proof.
  intros Hok [x Hx]. rewrite <- search_mk in Hx by done. destruct (ks_update_some t d x Hok Hx) as (t' & E & Hok' & _ & _ & _ & Hf).
  exists t'. split_and!; [done|done|]. intros m. rewrite Hf. unfold ks_put. by rewrite Hsame, Hmk.
Qed.

Lemma update_missing t d : ks_ok t -> ks_search t (mk (keyof d)) = None ->
  exists t', ks_update t d = Some (-1, t') /\ ks_ok t' /\ forall m, ks_search t' (mk m) = ks_search t (mk m).
Proof.
  intros Hok Hx. rewrite <- search_mk in Hx by done. destruct (ks_update_none t d Hok Hx) as (t' & E & Hok' & _ & _ & _ & Hf).
  exists t'. split_and!; [done|done|]. intros m. by rewrite Hf.
Qed.

Lemma insert_at t d : ks_ok t -> ks_valid d -> ks_search t (mk (keyof d)) = None -> ks_fits t d = true -> ks_count t <> ks_cap t ->
  exists t', ks_insert t d = Some (0, t') /\ ks_ok t' /\
    forall m, ks_search t' (mk m) = if m =? keyof d then Some d else ks_search t (mk m).
Proof.
  intros Hok Hv Hx Hf Hc. rewrite <- search_mk in Hx by done.
  destruct (ks_insert_new t d Hok Hv Hx Hf Hc) as (t' & E & Hok' & _ & _ & _ & Hl).
  exists t'. split_and!; [done|done|]. intros m. rewrite Hl. unfold ks_put. by rewrite Hsame, Hmk.
Qed.

(** A record that is new goes in, or is refused. *)
Lemma insert_try t d : ks_ok t -> ks_valid d -> ks_search t (mk (keyof d)) = None -> exists r t', ks_insert t d = Some (r, t') /\ ks_ok t' /\
  (r = 0 /\ (forall m, ks_search t' (mk m) = if m =? keyof d then Some d else ks_search t (mk m)) \/
   r = -1 /\ forall m, ks_search t' (mk m) = ks_search t (mk m)).
Proof.
  intros Hok Hv Hx. destruct (ks_fits t d) eqn:Hf; [destruct (decide (ks_count t = ks_cap t)) as [Hc|Hc]|].
  2: { destruct (insert_at t d Hok Hv Hx Hf Hc) as (t' & E & Hok' & Hl). exists 0, t'. auto. }
  all: rewrite <- search_mk in Hx by done; destruct (ks_insert_full t d Hok Hv Hx) as (t' & E & Hok' & _ & _ & _ & Hl); [by auto|];
    exists (-1), t'; (split_and!; [done|done|]); right; split; [done|]; intros m; by rewrite Hl.
Qed.

Lemma delete_at t n : ks_ok t -> is_Some (ks_search t (mk n)) ->
  exists t', ks_delete t (mk n) = Some (0, t') /\ ks_ok t' /\ forall m, ks_search t' (mk m) = if m =? n then None else ks_search t (mk m).
Proof.
  intros Hok [x Hx]. destruct (ks_delete_some t (mk n) x Hok Hx) as (t' & E & Hok' & _ & _ & _ & Hl).
  exists t'. split_and!; [done|done|]. intros m. rewrite Hl. unfold ks_drop. by rewrite Hsame, !Hmk.
Qed.

End keyed.
