(* ===== verification/SmartLink.v ===== *)
(** * Smart link: groups of a master and a slave uplink

    Model of [src/src/smart-link/src]: the configuration operations of
    [smart_link_dbus.c], the interface events of [smart_link_event.c] and the
    advertisement of [smart_link_packet.c].  The groups live in a database
    table reached through [ArrayStore]; the requests to npd and the
    advertisements sent are part of the state. *)

From Stdlib Require Import ZArith Lia Bool.
From stdpp Require Import base decidable list gmap.
From S2P Require Import Prelude Bitarray NetifIndex Database ArrayStore.

Open Scope Z_scope.

Definition SMART_LINK_GROUP_SIZE : Z := 8.
Definition SL_PORT_DOWN : Z := 0.
Definition SL_PORT_UP : Z := 1.
Definition SMART_LINK_RETURN_CODE_SUCCESS : Z := 0.
Definition SMART_LINK_RETURN_CODE_ERROR : Z := 0x152001.
Definition SMART_LINK_RETURN_CODE_GROUP_ENABLE : Z := 0x152002.
Definition SMART_LINK_RETURN_CODE_GROUP_NOT_EXIST : Z := 0x152003.
Definition SMART_LINK_RETURN_CODE_GROUP_INCOMPLEATE : Z := 0x152004.
Definition SMART_LINK_RETURN_CODE_MSTI_INCOMPLEATE : Z := 0x152005.

(** ** Data *)

Record smart_link_s := Group {
  id : Z;
  is_enable : Z;
  is_preempt : Z;
  instance : Z;
  master_port : Z;
  slave_port : Z;
  master_index : Z;
  master_status : Z;
  slave_index : Z;
  slave_status : Z;
  advertise_vlan : Z;
  data_vlan : list Z
}.

(** [memset(&entry, 0, sizeof(entry)); entry.id = id] *)
Definition zero_group (i : Z) : smart_link_s := Group i 0 0 0 0 0 0 0 0 0 0 (replicate 128 0).

Definition with_id (e : smart_link_s) (i : Z) : smart_link_s :=
  Group i (is_enable e) (is_preempt e) (instance e) (master_port e) (slave_port e) (master_index e) (master_status e)
    (slave_index e) (slave_status e) (advertise_vlan e) (data_vlan e).
Definition with_enable (e : smart_link_s) (x : Z) : smart_link_s :=
  Group (id e) x (is_preempt e) (instance e) (master_port e) (slave_port e) (master_index e) (master_status e)
    (slave_index e) (slave_status e) (advertise_vlan e) (data_vlan e).
Definition with_preempt (e : smart_link_s) (x : Z) : smart_link_s :=
  Group (id e) (is_enable e) x (instance e) (master_port e) (slave_port e) (master_index e) (master_status e)
    (slave_index e) (slave_status e) (advertise_vlan e) (data_vlan e).
Definition with_ports (e : smart_link_s) (m s : Z) : smart_link_s :=
  Group (id e) (is_enable e) (is_preempt e) (instance e) m s (master_index e) (master_status e)
    (slave_index e) (slave_status e) (advertise_vlan e) (data_vlan e).
Definition with_master (e : smart_link_s) (i st : Z) : smart_link_s :=
  Group (id e) (is_enable e) (is_preempt e) (instance e) (master_port e) (slave_port e) i st
    (slave_index e) (slave_status e) (advertise_vlan e) (data_vlan e).
Definition with_slave (e : smart_link_s) (i st : Z) : smart_link_s :=
  Group (id e) (is_enable e) (is_preempt e) (instance e) (master_port e) (slave_port e) (master_index e) (master_status e)
    i st (advertise_vlan e) (data_vlan e).
Definition with_advertise (e : smart_link_s) (v : Z) : smart_link_s :=
  Group (id e) (is_enable e) (is_preempt e) (instance e) (master_port e) (slave_port e) (master_index e) (master_status e)
    (slave_index e) (slave_status e) v (data_vlan e).
Definition with_msti (e : smart_link_s) (i : Z) (v : list Z) : smart_link_s :=
  Group (id e) (is_enable e) (is_preempt e) i (master_port e) (slave_port e) (master_index e) (master_status e)
    (slave_index e) (slave_status e) (advertise_vlan e) v.

(** A request to npd, without its cookies. *)
Record smart_link_msg_s := NpdMsg { block_port : Z; unblock_port : Z; msg_instance : Z; back_id : Z }.

(** An advertisement frame: the control block for the sender (interface,
    VLAN, tagged, length), the Ethernet header and the packet, multi-byte
    fields by the value they have on the wire. *)
Record advertise_s := Advertise {
  ctrl_netif_index : Z;
  ctrl_vid : Z;
  ctrl_istagged : Z;
  ctrl_packet_len : Z;
  frame_dmac : list Z;
  frame_smac : list Z;
  frame_type : Z;
  adv_version : Z;
  adv_action : Z;
  adv_auth_mode : Z;
  adv_smac : list Z;
  adv_advertise_vlan : Z;
  adv_data_vlan : list Z
}.

Definition SL_MUTICAST_MAC : list Z := [0x01; 0x80; 0xc2; 0x55; 0xaa; 0x0f].
Definition SL_STLK_TYPE : Z := 0x9f11.
Definition SL_VERSION : Z := 0.
Definition CLEAR_FDB : Z := 1.
Definition FLUSH_ARP : Z := 2.
Definition SL_AUTHMODE_DLT : Z := 0.

Section daemon.
Context {T : Type} `{!ArrayStore T smart_link_s}.

Record sl_state := SL {
  smart_link_group_db : T;
  is_active_master_board : bool;
  to_npd : list smart_link_msg_s;
  advertised : list advertise_s;
  sl_sys_mac : list Z
}.
Implicit Types (st : sl_state) (e : smart_link_s).

Definition with_db st (t : T) : sl_state := SL t (is_active_master_board st) (to_npd st) (advertised st) (sl_sys_mac st).

Definition smart_link_master_board_set st (is_active_master : bool) : sl_state :=
  SL (smart_link_group_db st) is_active_master (to_npd st) (advertised st) (sl_sys_mac st).

(** ** Groups in the table *)

Definition smart_link_group_search st e : option smart_link_s := st_get (smart_link_group_db st) (id e).

Definition smart_link_group_insert st e : option (Z * sl_state) :=
  '(r, t) ← st_insert (smart_link_group_db st) (id e) e;
  Some (if r =? 0 then 0 else -1, with_db st t).

(** The requests made by the update callback of the table. *)
Definition smart_link_handle_update (active : bool) (new old : smart_link_s) : list smart_link_msg_s :=
  if active then
    if negb (is_enable new =? is_enable old) then
      if negb (is_enable new =? 0) then [NpdMsg (slave_port new) (master_port new) (instance new) (id new)]
      else [NpdMsg (slave_index old) (master_index old) (instance old) (2 ^ 32 - 1)]
    else if negb (is_enable new =? 0) then
      if negb (master_port new =? master_port old)
      then [NpdMsg (slave_port new) (master_port new) (instance new) (id new)]
      else if negb (slave_port new =? slave_port old) then
        if negb (slave_index new =? 0) then [NpdMsg (slave_port new) 0 (instance new) 0] else []
      else []
    else []
  else [].

Definition smart_link_group_update st e : option (Z * sl_state) :=
  let old := st_get (smart_link_group_db st) (id e) in
  '(r, t) ← st_update (smart_link_group_db st) (id e) e;
  let sent := match old with
              | Some old => smart_link_handle_update (is_active_master_board st) e old
              | None => []
              end in
  Some (if r =? 0 then 0 else -1, SL t (is_active_master_board st) (to_npd st ++ sent) (advertised st)
          (sl_sys_mac st)).

Definition smart_link_group_delete st e : option (Z * sl_state) :=
  '(r, t) ← st_delete (smart_link_group_db st) (id e);
  Some (if r =? 0 then 0 else -1, with_db st t).

(** The next existing group; [None] inside when there is none, outside when
    the iterations given do not suffice. *)
Fixpoint smart_link_group_get_next (n : nat) st e : option (option smart_link_s) :=
  match n with
  | O => None
  | S n =>
      let e := with_id e (u32 (id e + 1)) in
      if id e <=? SMART_LINK_GROUP_SIZE then
        match smart_link_group_search st e with
        | Some e' => Some (Some e')
        | None => smart_link_group_get_next n st e
        end
      else Some None
  end.

(** ** Configuration *)

(** An update whose failure is reported. *)
Definition update_reply st e : option (Z * sl_state) :=
  '(r, st) ← smart_link_group_update st e;
  Some (if r =? 0 then SMART_LINK_RETURN_CODE_SUCCESS else SMART_LINK_RETURN_CODE_ERROR, st).

Definition smart_link_group st (i : Z) : option (Z * sl_state) :=
  match smart_link_group_search st (zero_group i) with
  | Some _ => Some (SMART_LINK_RETURN_CODE_SUCCESS, st)
  | None =>
      '(r, st) ← smart_link_group_insert st (zero_group i);
      Some (if r =? 0 then SMART_LINK_RETURN_CODE_SUCCESS else SMART_LINK_RETURN_CODE_ERROR, st)
  end.

Definition smart_link_no_group st (i : Z) : option (Z * sl_state) :=
  match smart_link_group_search st (zero_group i) with
  | Some e =>
      if negb (is_enable e =? 0) then Some (SMART_LINK_RETURN_CODE_GROUP_ENABLE, st)
      else
        '(r, st) ← smart_link_group_delete st e;
        Some (if r =? 0 then SMART_LINK_RETURN_CODE_SUCCESS else SMART_LINK_RETURN_CODE_ERROR, st)
  | None => Some (SMART_LINK_RETURN_CODE_ERROR, st)
  end.

(** The ports chosen when a group is enabled or made preemptive. *)
Definition select_ports e : smart_link_s :=
  if master_status e =? SL_PORT_UP then
    with_ports e (master_index e) (if slave_status e =? SL_PORT_UP then slave_index e else slave_port e)
  else if slave_status e =? SL_PORT_UP then with_ports e (slave_index e) 0
  else e.

Definition smart_link_enable st (i enable : Z) : option (Z * sl_state) :=
  match smart_link_group_search st (zero_group i) with
  | Some e =>
      if ((master_index e =? 0) && (slave_index e =? 0)) || (instance e =? 0)
      then Some (SMART_LINK_RETURN_CODE_GROUP_INCOMPLEATE, st)
      else if negb (is_enable e =? enable) then
        let e := with_enable e enable in
        update_reply st (if negb (enable =? 0) then select_ports e else e)
      else Some (SMART_LINK_RETURN_CODE_SUCCESS, st)
  | None => Some (SMART_LINK_RETURN_CODE_ERROR, st)
  end.

Definition smart_link_preempt st (i enable : Z) : option (Z * sl_state) :=
  match smart_link_group_search st (zero_group i) with
  | Some e =>
      let e := with_preempt e enable in
      let complete := negb (master_index e =? 0) && negb (slave_index e =? 0) && negb (instance e =? 0) in
      update_reply st (if negb (enable =? 0) && complete then select_ports e else e)
  | None => Some (SMART_LINK_RETURN_CODE_ERROR, st)
  end.

Definition smart_link_advertise_vlan st (i v : Z) : option (Z * sl_state) :=
  match smart_link_group_search st (zero_group i) with
  | Some e => update_reply st (with_advertise e v)
  | None => Some (SMART_LINK_RETURN_CODE_ERROR, st)
  end.

Definition smart_link_port st (i netif_m_idx netif_m_status netif_s_idx netif_s_status : Z) : option (Z * sl_state) :=
  match smart_link_group_search st (zero_group i) with
  | Some e =>
      if negb (is_enable e =? 0) then Some (SMART_LINK_RETURN_CODE_GROUP_ENABLE, st)
      else
        let e := with_slave (with_master e netif_m_idx netif_m_status) netif_s_idx netif_s_status in
        update_reply st (with_ports e netif_m_idx (slave_port e))
  | None => Some (SMART_LINK_RETURN_CODE_ERROR, st)
  end.

(** The instance and its VLANs; a bitmap of the wrong size is refused. *)
Definition smart_link_dbus_msti st (i inst : Z) (vlan_bitmap : list Z) : option (Z * sl_state) :=
  if negb (zlen vlan_bitmap =? 128) then Some (SMART_LINK_RETURN_CODE_ERROR, st)
  else
    match smart_link_group_search st (zero_group i) with
    | Some e =>
        if is_enable e =? 0 then
          if forallb (fun w => w =? 0) vlan_bitmap then Some (SMART_LINK_RETURN_CODE_MSTI_INCOMPLEATE, st)
          else update_reply st (with_msti e inst vlan_bitmap)
        else Some (SMART_LINK_RETURN_CODE_GROUP_ENABLE, st)
    | None => Some (SMART_LINK_RETURN_CODE_ERROR, st)
    end.

(** ** Interface events *)

Definition touches (netif_index : Z) e : bool := (netif_index =? master_index e) || (netif_index =? slave_index e).

(** The change of one group, when the event concerns it. *)
Definition linkup_group (netif_index : Z) e : smart_link_s :=
  if (master_status e =? SL_PORT_DOWN) && (slave_status e =? SL_PORT_DOWN) then
    let e' := if netif_index =? master_index e then with_master e (master_index e) SL_PORT_UP
              else with_slave e (slave_index e) SL_PORT_UP in
    with_ports e' netif_index (slave_port e)
  else if (master_status e =? SL_PORT_UP) && (slave_status e =? SL_PORT_DOWN) then
    if netif_index =? slave_index e
    then with_slave (with_ports e (master_port e) netif_index) (slave_index e) SL_PORT_UP
    else e
  else if (master_status e =? SL_PORT_DOWN) && (slave_status e =? SL_PORT_UP) then
    if netif_index =? master_index e then
      let e' := with_master e (master_index e) SL_PORT_UP in
      if negb (is_preempt e =? 0) then with_ports e' (master_index e) (slave_index e)
      else with_ports e' (master_port e) netif_index
    else e
  else e.

Definition linkdown_group (netif_index : Z) e : smart_link_s :=
  let e' :=
    if (master_status e =? SL_PORT_UP) && (slave_status e =? SL_PORT_UP) then
      if netif_index =? master_port e then
        if master_port e =? master_index e
        then with_ports (with_master e (master_index e) SL_PORT_DOWN) (slave_index e) (slave_port e)
        else with_ports (with_slave e (slave_index e) SL_PORT_DOWN) (master_index e) (slave_port e)
      else if netif_index =? master_index e then with_master e (master_index e) SL_PORT_DOWN
      else with_slave e (slave_index e) SL_PORT_DOWN
    else if (master_status e =? SL_PORT_DOWN) && (slave_status e =? SL_PORT_UP) then
      if netif_index =? slave_index e
      then with_slave (with_ports e 0 (slave_port e)) (slave_index e) SL_PORT_DOWN
      else e
    else if (master_status e =? SL_PORT_UP) && (slave_status e =? SL_PORT_DOWN) then
      if netif_index =? master_index e
      then with_master (with_ports e 0 (slave_port e)) (master_index e) SL_PORT_DOWN
      else e
    else e in
  with_ports e' (master_port e') 0.

Definition l2delete_group (netif_index : Z) e : smart_link_s :=
  let e' :=
    if netif_index =? master_port e then
      if master_port e =? master_index e then
        let e' := with_master e 0 SL_PORT_DOWN in
        if (slave_status e =? SL_PORT_UP) && negb (slave_index e =? 0)
        then with_ports e' (slave_index e) (slave_port e) else e'
      else
        let e' := with_slave e 0 SL_PORT_DOWN in
        if (master_status e =? SL_PORT_UP) && negb (master_index e =? 0)
        then with_ports e' (master_index e) (slave_port e) else e'
    else if netif_index =? master_index e then with_master e 0 SL_PORT_DOWN
    else with_slave e 0 SL_PORT_DOWN in
  with_ports e' (master_port e') 0.

(** A port left a data VLAN: [None] when the group is not updated. *)
Definition leave_group (son_netif_index vlan_id : Z) e : option (option smart_link_s) :=
  if touches son_netif_index e then
    m ← npd_bitarray_test_bit (data_vlan e) vlan_id;
    Some (if negb (m =? 0) && (son_netif_index =? master_port e)
             && ((slave_status e =? SL_PORT_UP) && negb (slave_index e =? 0))
          then Some (with_ports e (if master_port e =? master_index e then slave_index e else master_index e)
                       (master_port e))
          else None)
  else Some None.

(** A VLAN was removed. *)
Definition delete_group (vlan_id : Z) e : option (option smart_link_s) :=
  m ← npd_bitarray_test_bit (data_vlan e) vlan_id;
  if negb (m =? 0) then
    v ← npd_bitarray_clear_bit (data_vlan e) vlan_id;
    Some (Some (with_msti e (instance e) v))
  else Some None.

(** [while (0 == smart_link_group_get_next(&entry))] over the groups, each
    changed by [step], the result of the update ignored. *)
Fixpoint event_loop (n : nat) (step : smart_link_s -> option (option smart_link_s)) st e : option sl_state :=
  match n with
  | O => None
  | S n =>
      next ← smart_link_group_get_next (Z.to_nat (SMART_LINK_GROUP_SIZE + 2)) st e;
      match next with
      | None => Some st
      | Some e =>
          r ← step e;
          match r with
          | None => event_loop n step st e
          | Some e' => '(_, st) ← smart_link_group_update st e'; event_loop n step st e'
          end
      end
  end.

Definition for_each_group (step : smart_link_s -> option (option smart_link_s)) st : option sl_state :=
  event_loop (Z.to_nat (SMART_LINK_GROUP_SIZE + 2)) step st (zero_group 0).

Definition when_touched (netif_index : Z) (f : smart_link_s -> smart_link_s) e : option (option smart_link_s) :=
  Some (if touches netif_index e then Some (f e) else None).

Definition smart_link_app_event_linkup st (netif_index : Z) : option sl_state :=
  for_each_group (when_touched netif_index (linkup_group netif_index)) st.

Definition smart_link_app_event_linkdown st (netif_index : Z) : option sl_state :=
  for_each_group (when_touched netif_index (linkdown_group netif_index)) st.

Definition smart_link_app_event_delete st (netif_index : Z) : option sl_state :=
  if negb (npd_netif_type_get netif_index =? NPD_NETIF_VLAN_TYPE) then Some st
  else for_each_group (delete_group (npd_netif_vlan_get_vid netif_index)) st.

Definition is_port_type (netif_index : Z) : bool :=
  (npd_netif_type_get netif_index =? NPD_NETIF_ETH_TYPE) || (npd_netif_type_get netif_index =? NPD_NETIF_TRUNK_TYPE).

Definition smart_link_app_event_l2delete st (netif_index : Z) : option sl_state :=
  if negb (is_port_type netif_index) then Some st
  else for_each_group (when_touched netif_index (l2delete_group netif_index)) st.

Definition smart_link_app_relate_event_leave st (netif_index son_netif_index : Z) : option sl_state :=
  if negb (npd_netif_type_get netif_index =? NPD_NETIF_VLAN_TYPE) || negb (is_port_type son_netif_index) then Some st
  else for_each_group (leave_group son_netif_index (npd_netif_vlan_get_vid netif_index)) st.

(** ** Advertisements *)

(** [sizeof(struct advertise_s)] is 540. *)
Definition smart_link_assembly_packet (sys_mac : list Z) e : advertise_s :=
  {| ctrl_netif_index := master_port e; ctrl_vid := u16 (advertise_vlan e); ctrl_istagged := 1; ctrl_packet_len := 540;
     frame_dmac := SL_MUTICAST_MAC; frame_smac := sys_mac; frame_type := SL_STLK_TYPE;
     adv_version := SL_VERSION; adv_action := Z.lor CLEAR_FDB FLUSH_ARP; adv_auth_mode := SL_AUTHMODE_DLT;
     adv_smac := sys_mac; adv_advertise_vlan := u16 (advertise_vlan e); adv_data_vlan := data_vlan e |}.

Definition smart_link_send_advertise st e : sl_state :=
  SL (smart_link_group_db st) (is_active_master_board st) (to_npd st)
    (advertised st ++ [smart_link_assembly_packet (sl_sys_mac st) e]) (sl_sys_mac st).

Definition smart_link_msg_processor st (i : Z) : Z * sl_state :=
  match smart_link_group_search st (zero_group i) with
  | None => (-1, st)
  | Some e => (0, if negb (advertise_vlan e =? 0) then smart_link_send_advertise st e else st)
  end.

Definition smart_link_recv_msg st (i : Z) : Z * sl_state :=
  if (i <? 1) || (SMART_LINK_GROUP_SIZE <? i) then (-1, st)
  else let '(_, st) := smart_link_msg_processor st i in (0, st).

End daemon.

Arguments sl_state : clear implicits.

(** ** The event loop visits every group once *)

Section loop.
Context {T : Type} `{!ArrayStore T smart_link_s, !ArrayStoreLaws T smart_link_s}.
Implicit Types (st : sl_state T) (e : smart_link_s) (m : gmap Z smart_link_s).

Definition groups st : gmap Z smart_link_s := st_view (smart_link_group_db st).

(** A group is stored under its own number, in a table of nine. *)
Definition ids_ok m : Prop := forall i e, m !! i = Some e -> id e = i /\ 0 <= i <= SMART_LINK_GROUP_SIZE.

Record sl_ok st : Prop := {
  sl_store : st_ok (smart_link_group_db st);
  sl_size : st_size (smart_link_group_db st) = SMART_LINK_GROUP_SIZE + 1;
  sl_ids : ids_ok (groups st)
}.

Lemma search_groups st e : sl_ok st -> smart_link_group_search st e = groups st !! id e.
Proof. intros [H _ _]. by apply st_get_view. Qed.

Lemma ids_ok_insert m i e : ids_ok m -> is_Some (m !! i) -> id e = i -> ids_ok (<[i := e]> m).
Proof.
  intros Hm [x Hx] Hi j y. destruct (decide (i = j)) as [->|].
  - rewrite lookup_insert_eq. intros [= <-]. split; [done|]. by apply (Hm j x).
  - rewrite lookup_insert_ne by done. apply Hm.
Qed.

(** An update of an existing group. *)
Lemma group_update_ok st e old :
  sl_ok st -> groups st !! id e = Some old ->
  exists st', smart_link_group_update st e = Some (0, st') /\ sl_ok st' /\
    groups st' = <[id e := e]> (groups st) /\ is_active_master_board st' = is_active_master_board st /\
    to_npd st' = to_npd st ++ smart_link_handle_update (is_active_master_board st) e old /\
    advertised st' = advertised st.
Proof.
  intros [H1 H2 H3] Ho. unfold smart_link_group_update. rewrite st_get_view by done.
  change (st_view (smart_link_group_db st)) with (groups st). rewrite Ho.
  destruct (st_update_some (smart_link_group_db st) (id e) e H1) as (t & -> & Hok & Hs & Hv); [by exists old|].
  eexists. split; [done|]. split_and!; try done. split; try done; cbn; [by rewrite Hs|].
  unfold groups. cbn. rewrite Hv. apply ids_ok_insert; [done|by exists old|done].
Qed.

(** What visiting one group does. *)
Definition visit (step : smart_link_s -> option (option smart_link_s)) st (i : Z) : option (sl_state T) :=
  match groups st !! i with
  | None => Some st
  | Some e =>
      r ← step e;
      match r with None => Some st | Some e' => '(_, st) ← smart_link_group_update st e'; Some st end
  end.

Fixpoint visit_all (step : smart_link_s -> option (option smart_link_s)) st (l : list Z) : option (sl_state T) :=
  match l with [] => Some st | i :: l => st ← visit step st i; visit_all step st l end.

(** The step is defined for the groups after [k] and keeps their numbers. *)
Definition step_ok k m (step : smart_link_s -> option (option smart_link_s)) : Prop :=
  forall i e, k < i -> m !! i = Some e -> exists r, step e = Some r /\ forall e', r = Some e' -> id e' = id e.

Lemma get_next_spec n st e :
  sl_ok st -> 0 <= id e <= SMART_LINK_GROUP_SIZE -> SMART_LINK_GROUP_SIZE - id e < Z.of_nat n ->
  (exists i e', smart_link_group_get_next n st e = Some (Some e') /\ groups st !! i = Some e' /\ id e < i <= SMART_LINK_GROUP_SIZE /\
     forall j, id e < j < i -> groups st !! j = None) \/
  (smart_link_group_get_next n st e = Some None /\ forall j, id e < j <= SMART_LINK_GROUP_SIZE -> groups st !! j = None).
Proof.
  intros Hok. revert e. induction n as [|n IH]; intros e He Hn; [lia|]. cbn [smart_link_group_get_next].
  assert (u32 (id e + 1) = id e + 1) as Hu by (apply u32_small; unfold u32_range, SMART_LINK_GROUP_SIZE in *; lia).
  cbn [id with_id]. rewrite Hu. destruct (Z.leb_spec (id e + 1) SMART_LINK_GROUP_SIZE).
  - rewrite search_groups by done. cbn [id with_id]. destruct (groups st !! (id e + 1)) as [e'|] eqn:E.
    + left. exists (id e + 1), e'. split_and!; try done; try lia.
    + destruct (IH (with_id e (id e + 1))) as [(i & e' & Eq & Hi & Hr & Hb)|[Eq Hb]]; cbn [id with_id] in *; [lia|lia| |].
      * left. exists i, e'. split_and!; try done; try lia. intros j Hj. destruct (decide (j = id e + 1)) as [->|]; [done|].
        apply Hb. lia.
      * right. split; [done|]. intros j Hj. destruct (decide (j = id e + 1)) as [->|]; [done|]. apply Hb. lia.
  - right. split; [done|]. intros j Hj. lia.
Qed.

Lemma visit_none step st l : (forall i, i ∈ l -> groups st !! i = None) -> visit_all step st l = Some st.
Proof.
  induction l as [|i l IH]; intros Hl; [done|]. cbn [visit_all]. unfold visit.
  rewrite (Hl i) by (by left). cbn [mbind option_bind]. apply IH. intros j Hj. apply Hl. by right.
Qed.

Lemma visit_all_app step st l1 l2 : visit_all step st (l1 ++ l2) = st ← visit_all step st l1; visit_all step st l2.
Proof.
  revert st. induction l1 as [|i l1 IH]; intros st; [done|]. cbn [app visit_all].
  destruct (visit step st i); [apply IH|done].
Qed.

(** Visiting a group keeps the table good and changes that group only. *)
Lemma visit_ok step st i :
  sl_ok st -> step_ok (i - 1) (groups st) step ->
  exists st', visit step st i = Some st' /\ sl_ok st' /\ (forall j, j <> i -> groups st' !! j = groups st !! j) /\
    is_active_master_board st' = is_active_master_board st /\ advertised st' = advertised st /\
    match groups st !! i with
    | Some e =>
        match step e with
        | Some (Some e') => groups st' !! i = Some e' /\
            to_npd st' = to_npd st ++ smart_link_handle_update (is_active_master_board st) e' e
        | _ => groups st' !! i = Some e /\ to_npd st' = to_npd st
        end
    | None => groups st' !! i = None /\ to_npd st' = to_npd st
    end.
Proof.
  intros Hok Hs. unfold visit. destruct (groups st !! i) as [e|] eqn:Ei; [|by exists st].
  destruct (Hs i e ltac:(lia) Ei) as (r & -> & Hid). cbn [mbind option_bind]. destruct r as [e'|]; [|by exists st].
  destruct (sl_ids _ Hok i e Ei) as [He _]. specialize (Hid e' eq_refl).
  destruct (group_update_ok st e' e Hok) as (st' & -> & Hok' & Hg & Ha & Hn & Hadv); [congruence|].
  exists st'. split_and!; try done; rewrite Hg.
  - intros j Hj. apply lookup_insert_ne. congruence.
  - replace (id e') with i by congruence. apply lookup_insert_eq.
Qed.

Lemma event_loop_visits n step st e :
  sl_ok st -> step_ok (id e) (groups st) step -> 0 <= id e <= SMART_LINK_GROUP_SIZE ->
  SMART_LINK_GROUP_SIZE - id e < Z.of_nat n ->
  event_loop n step st e = visit_all step st (seqZ (id e + 1) (SMART_LINK_GROUP_SIZE - id e)).
Proof.
  revert st e. induction n as [|n IH]; intros st e Hok Hs He Hn; [lia|]. cbn [event_loop].
  destruct (get_next_spec (Z.to_nat (SMART_LINK_GROUP_SIZE + 2)) st e Hok He) as [(i & e1 & -> & Hi & Hr & Hb)|[-> Hb]];
    [unfold SMART_LINK_GROUP_SIZE in *; lia| |].
  2: { cbn [mbind option_bind]. symmetry. apply visit_none. intros j Hj%elem_of_seqZ. apply Hb. lia. }
  cbn [mbind option_bind]. destruct (sl_ids _ Hok i e1 Hi) as [Hid _].
  replace (SMART_LINK_GROUP_SIZE - id e) with ((i - id e - 1) + Z.succ (SMART_LINK_GROUP_SIZE - i)) by lia.
  rewrite seqZ_app, visit_all_app by lia. rewrite visit_none by (intros j Hj%elem_of_seqZ; apply Hb; lia).
  cbn [mbind option_bind]. rewrite seqZ_cons by lia. cbn [visit_all].
  replace (id e + 1 + (i - id e - 1)) with i by lia.
  replace (Z.pred (Z.succ (SMART_LINK_GROUP_SIZE - i))) with (SMART_LINK_GROUP_SIZE - i) by lia.
  destruct (visit_ok step st i Hok) as (st' & Ev & Hok' & Hg & _).
  { intros j x Hj. apply Hs. lia. }
  rewrite Ev. cbn [mbind option_bind].
  assert (step_ok i (groups st') step) as Hs' by (intros j x Hj Hx; apply (Hs j x); [lia|]; rewrite <- Hg by lia; done).
  unfold visit in Ev. rewrite Hi in Ev. destruct (Hs i e1) as (r & Er & Hre); [lia|done|].
  rewrite Er in Ev |- *. cbn [mbind option_bind] in *. destruct r as [e'|].
  - destruct (smart_link_group_update st e') as [[r1 st1]|]; [|done]. cbn [mbind option_bind] in *. injection Ev as ->.
    specialize (Hre e' eq_refl). replace (Z.succ i) with (id e' + 1) by lia. replace i with (id e') in Hs' |- * by lia.
    apply IH; [done|done|lia|lia].
  - injection Ev as ->. replace (Z.succ i) with (id e1 + 1) by lia. replace i with (id e1) in Hs' |- * by lia.
    apply IH; [done|done|lia|lia].
Qed.

(** The requests made when the groups [l] of [m] are changed. *)
Definition requests (step : smart_link_s -> option (option smart_link_s)) (active : bool) m (l : list Z)
  : list smart_link_msg_s :=
  concat ((fun i => match m !! i with
                    | Some e => match step e with Some (Some e') => smart_link_handle_update active e' e | _ => [] end
                    | None => []
                    end) <$> l).

Definition changed (step : smart_link_s -> option (option smart_link_s)) e : smart_link_s :=
  match step e with Some (Some e') => e' | _ => e end.

Lemma visit_all_ok step st k n :
  sl_ok st -> step_ok (k - 1) (groups st) step ->
  exists st', visit_all step st (seqZ k (Z.of_nat n)) = Some st' /\ sl_ok st' /\
    (forall i, groups st' !! i = if (k <=? i) && (i <? k + Z.of_nat n) then changed step <$> groups st !! i else groups st !! i) /\
    is_active_master_board st' = is_active_master_board st /\ advertised st' = advertised st /\
    to_npd st' = to_npd st ++ requests step (is_active_master_board st) (groups st) (seqZ k (Z.of_nat n)).
Proof.
  revert st k. induction n as [|n IH]; intros st k Hok Hs.
  { exists st. cbn. rewrite app_nil_r. split_and!; try done. intros i.
    destruct (Z.leb_spec k i), (Z.ltb_spec i (k + Z.of_nat 0)); try lia; done. }
  rewrite seqZ_cons by lia. cbn [visit_all]. replace (Z.pred (Z.of_nat (S n))) with (Z.of_nat n) by lia.
  destruct (visit_ok step st k Hok Hs) as (st1 & -> & Hok1 & Hg1 & Ha1 & Hadv1 & Hk). cbn [mbind option_bind].
  destruct (IH st1 (Z.succ k) Hok1) as (st2 & -> & Hok2 & Hg2 & Ha2 & Hadv2 & Hn2).
  { intros j x Hj Hx. apply (Hs j x); [lia|]. by rewrite <- Hg1 by lia. }
  assert (groups st1 !! k = changed step <$> groups st !! k /\
    to_npd st1 = to_npd st ++ requests step (is_active_master_board st) (groups st) [k]) as [Hgk Hnk].
  { revert Hk. unfold requests, changed. cbn [fmap list_fmap concat]. rewrite app_nil_r.
    destruct (groups st !! k) as [e|]; [|by rewrite app_nil_r]. cbn [fmap option_fmap option_map].
    destruct (step e) as [[e'|]|]; by rewrite ?app_nil_r. }
  exists st2. split_and!; try done; [|congruence..|].
  - intros i. rewrite Hg2. destruct (decide (i = k)) as [->|].
    + destruct (Z.leb_spec (Z.succ k) k), (Z.leb_spec k k), (Z.ltb_spec k (k + Z.of_nat (S n))); try lia. done.
    + rewrite Hg1 by done. destruct (Z.leb_spec (Z.succ k) i), (Z.leb_spec k i), (Z.ltb_spec i (Z.succ k + Z.of_nat n)),
        (Z.ltb_spec i (k + Z.of_nat (S n))); try lia; done.
  - rewrite Hn2, Hnk, <- app_assoc, Ha1. f_equal. unfold requests. cbn [fmap list_fmap concat]. rewrite app_nil_r. f_equal.
    f_equal. apply list_fmap_ext. intros j i [Hi _]%lookup_seqZ. by rewrite Hg1 by lia.
Qed.

Lemma for_each_group_ok step st :
  sl_ok st -> step_ok 0 (groups st) step ->
  exists st', for_each_group step st = Some st' /\ sl_ok st' /\
    (forall i, groups st' !! i = if 1 <=? i then changed step <$> groups st !! i else groups st !! i) /\
    is_active_master_board st' = is_active_master_board st /\ advertised st' = advertised st /\
    to_npd st' = to_npd st ++ requests step (is_active_master_board st) (groups st) (seqZ 1 SMART_LINK_GROUP_SIZE).
Proof.
  intros Hok Hs. unfold for_each_group. rewrite event_loop_visits; [|done|done|cbn; unfold SMART_LINK_GROUP_SIZE; lia..].
  cbn [id zero_group]. change (seqZ (0 + 1) (SMART_LINK_GROUP_SIZE - 0)) with (seqZ 1 (Z.of_nat 8)).
  destruct (visit_all_ok step st 1 8 Hok Hs) as (st' & E & Hok' & Hg & Ha & Hadv & Hn).
  exists st'. split_and!; try done. intros i. rewrite Hg. destruct (Z.leb_spec 1 i); cbn [andb]; [|done].
  destruct (Z.ltb_spec i (1 + Z.of_nat 8)); [done|].
  destruct (groups st !! i) as [e|] eqn:Ei; [|done]. destruct (sl_ids _ Hok i e Ei) as [_ Hr].
  unfold SMART_LINK_GROUP_SIZE in Hr. lia.
Qed.

End loop.

(** ** The forwarding port *)

(** Two distinct ports; with both up one forwards and the other is blocked,
    with one up that one forwards, and nothing is blocked when one is down. *)
Definition link_ok (e : smart_link_s) : Prop :=
  master_index e <> slave_index e /\
  (master_status e = SL_PORT_DOWN \/ master_status e = SL_PORT_UP) /\
  (slave_status e = SL_PORT_DOWN \/ slave_status e = SL_PORT_UP) /\
  match master_status e =? SL_PORT_UP, slave_status e =? SL_PORT_UP with
  | true, true => (master_port e = master_index e /\ slave_port e = slave_index e) \/
                  (master_port e = slave_index e /\ slave_port e = master_index e)
  | true, false => master_port e = master_index e /\ slave_port e = 0
  | false, true => master_port e = slave_index e /\ slave_port e = 0
  | false, false => slave_port e = 0
  end.

(** Case analysis on the statuses and the comparisons of a group. *)
Ltac group_cases :=
  repeat match goal with
    | |- context [?a =? ?b] => destruct (Z.eqb_spec a b); cbn in *; try (subst; lia)
    | H : context [?a =? ?b] |- _ => destruct (Z.eqb_spec a b); cbn in *; try (subst; lia)
    end.

Lemma linkup_link_ok n e : touches n e = true -> link_ok e -> link_ok (linkup_group n e).
Proof.
  destruct e as [i en pre inst mp sp mi ms si ss adv dv]. unfold touches, link_ok, linkup_group, SL_PORT_UP, SL_PORT_DOWN.
  cbn. intros Ht (Hd & [-> | ->] & [-> | ->] & H); cbn in H, Ht |- *; group_cases; cbn; repeat split; auto; lia.
Qed.

Lemma linkdown_link_ok n e : touches n e = true -> link_ok e -> link_ok (linkdown_group n e).
Proof.
  destruct e as [i en pre inst mp sp mi ms si ss adv dv]. unfold touches, link_ok, linkdown_group, SL_PORT_UP, SL_PORT_DOWN.
  cbn. intros Ht (Hd & [-> | ->] & [-> | ->] & H); cbn in H, Ht |- *; group_cases; cbn; repeat split; auto; lia.
Qed.

Lemma select_link_ok e : link_ok e -> link_ok (select_ports e).
Proof.
  destruct e as [i en pre inst mp sp mi ms si ss adv dv]. unfold link_ok, select_ports, SL_PORT_UP, SL_PORT_DOWN. cbn.
  intros (Hd & [-> | ->] & [-> | ->] & H); cbn in H |- *; repeat split; auto; lia.
Qed.

(** ** Runs of the daemon *)

Section runs.
Context {T : Type} `{!ArrayStore T smart_link_s, !ArrayStoreLaws T smart_link_s}.
Implicit Types (st : sl_state T) (e : smart_link_s).

(** What happens to a configured daemon: link changes, a VLAN removed, the
    board's role, and the commands that do not change a group's ports. *)
Inductive sl_event :=
  | LinkUp (netif_index : Z)
  | LinkDown (netif_index : Z)
  | VlanDelete (netif_index : Z)
  | Switchover (is_active_master : bool)
  | Enable (i enable : Z)
  | Preempt (i enable : Z)
  | AdvertiseVlan (i v : Z)
  | AdvertiseRequest (i : Z).

Definition sl_exec st (ev : sl_event) : option (sl_state T) :=
  match ev with
  | LinkUp n => smart_link_app_event_linkup st n
  | LinkDown n => smart_link_app_event_linkdown st n
  | VlanDelete n => smart_link_app_event_delete st n
  | Switchover b => Some (smart_link_master_board_set st b)
  | Enable i x => snd <$> smart_link_enable st i x
  | Preempt i x => snd <$> smart_link_preempt st i x
  | AdvertiseVlan i v => snd <$> smart_link_advertise_vlan st i v
  | AdvertiseRequest i => Some (smart_link_recv_msg st i).2
  end.

Fixpoint sl_run st (l : list sl_event) : option (sl_state T) :=
  match l with [] => Some st | ev :: l => st ← sl_exec st ev; sl_run st l end.

Definition group_inv e : Prop := link_ok e /\ wf_bits (data_vlan e) 4096.

Definition sl_inv st : Prop := sl_ok st /\ forall i e, 1 <= i -> groups st !! i = Some e -> group_inv e.

(** A pass over the groups keeps the invariant when its step does. *)
Lemma for_each_inv step st :
  sl_inv st ->
  (forall e, group_inv e -> exists r, step e = Some r /\ forall e', r = Some e' -> id e' = id e /\ group_inv e') ->
  exists st', for_each_group step st = Some st' /\ sl_inv st'.
Proof.
  intros [Hok Hinv] Hstep. destruct (for_each_group_ok step st Hok) as (st' & E & Hok' & Hg & _).
  { intros i e Hi He. destruct (Hstep e) as (r & Er & Hr); [apply (Hinv i e); [lia|done]|].
    exists r. split; [done|]. intros e' He'. by apply Hr. }
  exists st'. split; [done|]. split; [done|]. intros i e Hi. rewrite Hg. destruct (Z.leb_spec 1 i); [|lia].
  destruct (groups st !! i) as [x|] eqn:Ex; [|done]. intros [= <-]. specialize (Hinv i x Hi Ex).
  unfold changed. destruct (Hstep x Hinv) as (r & -> & Hr). destruct r as [e'|]; [|done]. by apply Hr.
Qed.

Lemma when_touched_inv n f st :
  sl_inv st -> (forall e, touches n e = true -> link_ok e -> link_ok (f e)) ->
  (forall e, id (f e) = id e /\ data_vlan (f e) = data_vlan e) ->
  exists st', for_each_group (when_touched n f) st = Some st' /\ sl_inv st'.
Proof.
  intros Hinv Hf Hd. apply for_each_inv; [done|]. intros e [Hl Hb]. eexists. split; [done|]. intros e'.
  destruct (touches n e) eqn:Et; [|done]. intros [= <-]. destruct (Hd e) as [Hi Hv]. split; [done|].
  split; [by apply Hf|]. by rewrite Hv.
Qed.

Lemma linkup_fields n e : id (linkup_group n e) = id e /\ data_vlan (linkup_group n e) = data_vlan e.
Proof. unfold linkup_group. repeat case_match; done. Qed.
Lemma linkdown_fields n e : id (linkdown_group n e) = id e /\ data_vlan (linkdown_group n e) = data_vlan e.
Proof. unfold linkdown_group. repeat case_match; done. Qed.
Lemma select_fields e : id (select_ports e) = id e /\ data_vlan (select_ports e) = data_vlan e.
Proof. unfold select_ports. repeat case_match; done. Qed.

Lemma delete_group_inv vid e :
  0 <= vid < 4096 -> group_inv e ->
  exists r, delete_group vid e = Some r /\ forall e', r = Some e' -> id e' = id e /\ group_inv e'.
Proof.
  intros Hv [Hl Hb]. unfold delete_group. rewrite (test_bit_spec _ 4096) by done. cbn [mbind option_bind].
  destruct (bit_at (data_vlan e) vid); cbn [Z.eqb negb].
  - destruct (clear_bit_spec (data_vlan e) 4096 vid Hb Hv) as (a & -> & Ha & _). cbn [mbind option_bind].
    eexists. split; [done|]. by intros e' [= <-].
  - by eexists.
Qed.

(** A change of one group by a command. *)
Lemma update_reply_inv st i e e' :
  sl_inv st -> groups st !! i = Some e -> id e' = i -> (1 <= i -> group_inv e') ->
  exists st', update_reply st e' = Some (SMART_LINK_RETURN_CODE_SUCCESS, st') /\ sl_inv st'.
Proof.
  intros [Hok Hinv] He Hid Hg. unfold update_reply.
  destruct (group_update_ok st e' e Hok) as (st' & -> & Hok' & Hgr & _); [by rewrite Hid|].
  cbn. exists st'. split; [done|]. split; [done|]. intros j x Hj. rewrite Hgr, Hid.
  destruct (decide (i = j)) as [->|]; [rewrite lookup_insert_eq; intros [= <-]; by apply Hg|].
  rewrite lookup_insert_ne by done. by apply Hinv.
Qed.

Lemma command_inv st i (f : smart_link_s -> option (Z * sl_state T)) :
  sl_inv st ->
  (forall e, groups st !! i = Some e -> id e = i -> (1 <= i -> group_inv e) ->
     exists r st', f e = Some (r, st') /\ sl_inv st') ->
  exists st', snd <$> (match smart_link_group_search st (zero_group i) with
                       | Some e => f e
                       | None => Some (SMART_LINK_RETURN_CODE_ERROR, st)
                       end) = Some st' /\ sl_inv st'.
Proof.
  intros Hinv Hf. pose proof Hinv as [Hok Hg]. rewrite search_groups by done. cbn [id zero_group].
  destruct (groups st !! i) as [e|] eqn:Ei; [|by exists st].
  destruct (Hf e) as (r & st' & -> & H); [done|by apply (sl_ids _ Hok i e)|intros; by apply (Hg i e)|].
  by exists st'.
Qed.

Lemma sl_exec_inv st ev : sl_inv st -> exists st', sl_exec st ev = Some st' /\ sl_inv st'.
Proof.
  intros Hinv. pose proof Hinv as [Hok Hg]. destruct ev as [n|n|n|b|i x|i x|i v|i]; cbn [sl_exec].
  - apply when_touched_inv; [done|intros; by apply linkup_link_ok|apply linkup_fields].
  - apply when_touched_inv; [done|intros; by apply linkdown_link_ok|apply linkdown_fields].
  - unfold smart_link_app_event_delete. destruct (negb _); [by exists st|]. apply for_each_inv; [done|].
    intros e He. apply delete_group_inv; [|done]. by apply get_lt.
  - eexists. split; [done|]. split; [|done]. destruct Hok. by split.
  - apply command_inv; [done|]. intros e Ee Hi He. destruct (_ || _); [by eexists _, st|].
    destruct (is_enable e =? x); cbn [negb]; [by eexists _, st|].
    edestruct (update_reply_inv st i e) as (st' & E & H); [done|done| | |eauto].
    + destruct (negb (x =? 0)); [|done]. by destruct (select_fields (with_enable e x)) as [-> _].
    + intros H1. destruct (He H1) as [Hl Hb]. destruct (negb (x =? 0)); [|done].
      split; [by apply select_link_ok|]. by destruct (select_fields (with_enable e x)) as [_ ->].
  - apply command_inv; [done|]. intros e Ee Hi He.
    edestruct (update_reply_inv st i e) as (st' & E & H); [done|done| | |eauto].
    + destruct (_ && _); [|done]. by destruct (select_fields (with_preempt e x)) as [-> _].
    + intros H1. destruct (He H1) as [Hl Hb]. destruct (_ && _); [|done].
      split; [by apply select_link_ok|]. by destruct (select_fields (with_preempt e x)) as [_ ->].
  - apply command_inv; [done|]. intros e Ee Hi He.
    edestruct (update_reply_inv st i e) as (st' & E & H); [done|done| | |eauto]; [done|].
    intros H1. by apply He.
  - eexists. split; [done|]. unfold smart_link_recv_msg, smart_link_msg_processor.
    destruct (_ || _); [done|]. destruct (smart_link_group_search _ _) as [e|]; [|done].
    destruct (negb _); [|done]. split; [|done]. destruct Hok. by split.
Qed.

Lemma sl_run_inv st l : sl_inv st -> exists st', sl_run st l = Some st' /\ sl_inv st'.
Proof.
  revert st. induction l as [|ev l IH]; intros st Hinv; [by exists st|]. cbn [sl_run].
  destruct (sl_exec_inv st ev Hinv) as (st1 & -> & H1). by apply IH.
Qed.

End runs.

(** ** Configuring a new group *)

Section configure.
Context {T : Type} `{!ArrayStore T smart_link_s, !ArrayStoreLaws T smart_link_s}.
Implicit Types (st : sl_state T) (e : smart_link_s).

(** The commands that set a group up, each expected to succeed. *)
Definition succeed (x : option (Z * sl_state T)) : option (sl_state T) :=
  '(r, st) ← x; if r =? SMART_LINK_RETURN_CODE_SUCCESS then Some st else None.

Definition configure st (i inst : Z) (vlans : list Z) (m ms s ss : Z) : option (sl_state T) :=
  st ← succeed (smart_link_group st i);
  st ← succeed (smart_link_dbus_msti st i inst vlans);
  st ← succeed (smart_link_port st i m ms s ss);
  succeed (smart_link_enable st i 1).

Lemma group_insert_ok st i :
  sl_ok st -> 0 <= i <= SMART_LINK_GROUP_SIZE -> groups st !! i = None ->
  exists st', smart_link_group st i = Some (SMART_LINK_RETURN_CODE_SUCCESS, st') /\ sl_ok st' /\
    groups st' = <[i := zero_group i]> (groups st).
Proof.
  intros Hok Hi Hn. unfold smart_link_group. rewrite search_groups by done. cbn [id zero_group]. rewrite Hn.
  destruct Hok as [H1 H2 H3]. unfold smart_link_group_insert. cbn [id zero_group].
  destruct (st_insert_free (smart_link_group_db st) i (zero_group i) H1) as (t & -> & Hok & Hs & Hv);
    [rewrite H2; lia|done|].
  cbn. eexists. split; [done|]. split; [|exact Hv]. split; [done|cbn; by rewrite Hs|].
  unfold groups. cbn. rewrite Hv. intros j e. destruct (decide (i = j)) as [->|].
  - rewrite lookup_insert_eq. by intros [= <-].
  - rewrite lookup_insert_ne by done. apply H3.
Qed.

Lemma update_reply_ok st i e e' :
  sl_ok st -> groups st !! i = Some e -> id e' = i ->
  exists st', update_reply st e' = Some (SMART_LINK_RETURN_CODE_SUCCESS, st') /\ sl_ok st' /\
    groups st' = <[i := e']> (groups st).
Proof.
  intros Hok He Hid. unfold update_reply.
  destruct (group_update_ok st e' e Hok) as (st' & -> & Hok' & Hgr & _); [by rewrite Hid|].
  exists st'. by rewrite Hgr, Hid.
Qed.

Lemma configured_link_ok i inst vlans m ms s ss :
  m <> s -> (ms = SL_PORT_DOWN \/ ms = SL_PORT_UP) -> (ss = SL_PORT_DOWN \/ ss = SL_PORT_UP) ->
  link_ok (select_ports (Group i 1 0 inst m 0 m ms s ss 0 vlans)).
Proof.
  intros Hd [-> | ->] [-> | ->]; unfold link_ok, select_ports, SL_PORT_UP, SL_PORT_DOWN; cbn; repeat split; auto.
Qed.

Lemma configure_ok st i inst vlans m ms s ss :
  sl_inv st -> 1 <= i <= SMART_LINK_GROUP_SIZE -> groups st !! i = None -> inst <> 0 ->
  zlen vlans = 128 -> wf_bits vlans 4096 -> forallb (fun w => w =? 0) vlans = false -> m <> s ->
  (ms = SL_PORT_DOWN \/ ms = SL_PORT_UP) -> (ss = SL_PORT_DOWN \/ ss = SL_PORT_UP) ->
  exists st' e, configure st i inst vlans m ms s ss = Some st' /\ sl_inv st' /\
    e = select_ports (Group i 1 0 inst m 0 m ms s ss 0 vlans) /\ groups st' = <[i := e]> (groups st).
Proof.
  intros [Hok Hinv] Hi Hn Hinst Hlen Hwf Hnz Hd Hms Hss. unfold configure.
  destruct (group_insert_ok st i Hok) as (st1 & -> & Hok1 & Hg1); [unfold SMART_LINK_GROUP_SIZE in *; lia|done|].
  cbn [succeed mbind option_bind]. rewrite Z.eqb_refl. cbn [mbind option_bind]. unfold smart_link_dbus_msti.
  rewrite Hlen, Z.eqb_refl, Hnz, search_groups by done. cbn [id zero_group negb].
  rewrite Hg1, lookup_insert_eq. cbn [is_enable zero_group Z.eqb].
  destruct (update_reply_ok st1 i (zero_group i) (with_msti (zero_group i) inst vlans) Hok1) as (st2 & -> & Hok2 & Hg2);
    [by rewrite Hg1, lookup_insert_eq|done|].
  cbn [succeed mbind option_bind]. rewrite Z.eqb_refl. cbn [mbind option_bind]. unfold smart_link_port.
  rewrite search_groups by done. cbn [id zero_group]. rewrite Hg2, lookup_insert_eq. cbn [is_enable with_msti zero_group Z.eqb negb].
  set (e3 := with_ports _ _ _).
  destruct (update_reply_ok st2 i (with_msti (zero_group i) inst vlans) e3 Hok2) as (st3 & -> & Hok3 & Hg3);
    [by rewrite Hg2, lookup_insert_eq|done|].
  cbn [succeed mbind option_bind]. rewrite Z.eqb_refl. cbn [mbind option_bind]. unfold smart_link_enable.
  rewrite search_groups by done. cbn [id zero_group]. rewrite Hg3, lookup_insert_eq.
  assert (((master_index e3 =? 0) && (slave_index e3 =? 0)) || (instance e3 =? 0) = false) as ->.
  { cbn. destruct (Z.eqb_spec m 0), (Z.eqb_spec s 0), (Z.eqb_spec inst 0); subst; done. }
  cbn [is_enable e3 with_ports with_slave with_master with_msti zero_group Z.eqb negb].
  set (e4 := select_ports (with_enable e3 1)).
  destruct (update_reply_ok st3 i e3 e4 Hok3) as (st4 & -> & Hok4 & Hg4);
    [by rewrite Hg3, lookup_insert_eq|exact (proj1 (select_fields (with_enable e3 1)))|].
  cbn [succeed mbind option_bind]. rewrite Z.eqb_refl. exists st4, e4. split_and!; try done.
  - split; [done|]. intros j x Hj. rewrite Hg4, Hg3, Hg2, Hg1, !insert_insert_eq. destruct (decide (i = j)) as [->|].
    + rewrite lookup_insert_eq. intros [= <-]. split; [by apply configured_link_ok|].
      change (data_vlan e4) with (data_vlan (select_ports (with_enable e3 1))).
      by rewrite (proj2 (select_fields (with_enable e3 1))).
    + rewrite lookup_insert_ne by done. by apply Hinv.
  - by rewrite Hg4, Hg3, Hg2, Hg1, !insert_insert_eq.
Qed.

End configure.

(** ** The daemon on the database *)

#[export] Instance smart_link_s_eq_dec : EqDecision smart_link_s.
Proof. solve_decision. Defined.

(** The table's only callback always returns 0; no byte-order callbacks. *)
Definition smart_link_ops : db_ops smart_link_s :=
  {| handle_update := Some (fun _ _ => 0); handle_insert := None; handle_delete := None;
     app_handle_update := None; app_handle_delete := None; platform_db_sync := Some (fun _ => 0);
     platform_relay_flag := false; same_sync_part := fun x y => bool_decide (x = y); keep_local := fun new _ => new;
     entry_hton := fun d => d; entry_ntoh := fun d => d; zero_entry := zero_group 0; have_sync := true |}.

#[export] Instance smart_link_store : ArrayStore (db_table_t smart_link_s) smart_link_s :=
  database_store smart_link_ops (zero_group 0) 0.
#[export] Instance smart_link_store_laws : ArrayStoreLaws (db_table_t smart_link_s) smart_link_s :=
  database_store_laws smart_link_ops (zero_group 0) 0.

(** [sizeof(struct smart_link_s)] is 556; [DB_SYNC_ALL] is 1; on the active
    master board, with some system MAC address. *)
Definition smart_link_db_init : sl_state (db_table_t smart_link_s) :=
  SL (dbtable_create_array_index (create_dbtable (SMART_LINK_GROUP_SIZE + 1) 556 1)) true [] []
    [0; 0x1f; 0x64; 0; 0; 1].

Lemma db_init_inv : sl_inv smart_link_db_init.
Proof.
  destruct (create_wf (D := smart_link_s) (SMART_LINK_GROUP_SIZE + 1) 556 1) as (Hw & Hc & Hn);
    [unfold SMART_LINK_GROUP_SIZE; lia|unfold MAX_SEND_SIZE, SYNC_HEADER_SIZE; lia|].
  assert (groups smart_link_db_init = ∅) as He by exact Hc.
  split; [split|].
  - cbn. unfold dbtable_create_array_index. by rewrite core_with_index.
  - exact Hn.
  - by rewrite He.
  - intros i e _. by rewrite He.
Qed.

(** VLAN 100 as the data VLAN of a group. *)
Definition demo_vlans : list Z := <[3%nat := 16]> (replicate 128 0).

Lemma demo_vlans_wf : wf_bits demo_vlans 4096.
Proof.
  split; [|unfold zlen; cbn; lia]. unfold demo_vlans. apply Forall_insert; [|unfold u32_range; lia].
  apply Forall_replicate. unfold u32_range. lia.
Qed.

(** Group 1 with ports 10 and 20, both up, enabled. *)
Lemma demo_configured :
  exists st e, configure smart_link_db_init 1 5 demo_vlans 10 SL_PORT_UP 20 SL_PORT_UP = Some st /\ sl_inv st /\
    groups st = <[1 := e]> ∅ /\ e = Group 1 1 0 5 10 20 10 1 20 1 0 demo_vlans.
Proof.
  destruct (configure_ok smart_link_db_init 1 5 demo_vlans 10 SL_PORT_UP 20 SL_PORT_UP) as (st & e & E & Hi & He & Hg);
    [apply db_init_inv|unfold SMART_LINK_GROUP_SIZE; lia|vm_compute; reflexivity|lia|reflexivity|apply demo_vlans_wf|
     vm_compute; reflexivity|lia|by right|by right|].
  exists st, e. by split_and!.
Qed.

(** ** Properties *)

(** C6: A link event is applied to every group exactly once: the loop over the
    groups terminates, every group 1..8 that has the interface as one of its
    ports becomes [linkup_group] or [linkdown_group] of itself, the others
    and the table's invariant are kept, and the requests to npd are those of
    the changed groups in ascending order. *)
Theorem link_event_exact {T} `{!ArrayStore T smart_link_s, !ArrayStoreLaws T smart_link_s} (st : sl_state T) n (up : bool) :
  sl_ok st ->
  let f := if up then linkup_group n else linkdown_group n in
  exists st', (if up then smart_link_app_event_linkup st n else smart_link_app_event_linkdown st n) = Some st' /\ sl_ok st' /\
    (forall i, groups st' !! i = (fun e => if (1 <=? i) && touches n e then f e else e) <$> groups st !! i) /\
    to_npd st' = to_npd st ++ concat ((fun i => match groups st !! i with
        | Some e => if touches n e then smart_link_handle_update (is_active_master_board st) (f e) e else []
        | None => []
        end) <$> seqZ 1 SMART_LINK_GROUP_SIZE).
Proof.
  intros Hok f. assert (forall e, id (f e) = id e) as Hid.
  { intros e. unfold f. destruct up; [apply linkup_fields|apply linkdown_fields]. }
  destruct (for_each_group_ok (when_touched n f) st Hok) as (st' & E & Hok' & Hg & _ & _ & Hn).
  { intros i e _ _. eexists. split; [done|]. intros e'. destruct (touches n e); [|done]. by intros [= <-]. }
  exists st'. split_and!; try done.
  - unfold f in E. by destruct up.
  - intros i. rewrite Hg. destruct (groups st !! i) as [e|]; [|by destruct (1 <=? i)].
    unfold changed, when_touched. cbn. by destruct (1 <=? i), (touches n e).
  - rewrite Hn. f_equal. unfold requests. f_equal. apply list_fmap_ext. intros j i _. unfold when_touched.
    destruct (groups st !! i) as [e|]; [|done]. by destruct (touches n e).
Qed.

Lemma link_event_exact_witness :
  exists st st' e', sl_ok st /\ smart_link_app_event_linkdown st 10 = Some st' /\ groups st' !! 1 = Some e' /\
    master_port e' = 20 /\ master_status e' = SL_PORT_DOWN.
Proof.
  destruct demo_configured as (st & e & _ & [Hok _] & Hg & He).
  destruct (link_event_exact st 10 false Hok) as (st' & E & _ & Hg' & _).
  exists st, st'. eexists. split; [exact Hok|]. split; [exact E|]. split.
  - rewrite Hg', Hg, lookup_insert_eq. reflexivity.
  - subst e. split; reflexivity.
Defined.

(** C5: Failover keeps traffic flowing.  Let the table be in order and every
    group of it consistent ([sl_inv]): two different ports, statuses up or
    down, and already the forwarding and blocked ports that these statuses ask
    for, as a group has them after it was set up and enabled
    ([configure_new_group]; a group whose master port was given while down and
    that was not yet enabled is not consistent).  Then every sequence of link
    changes, VLAN removals, role changes, enable, preempt and advertisement
    commands is executed without failure, and afterwards, in every group with a
    port up, the forwarding port is one of the group's ports and is up, and the
    blocked port is none or the other port. *)
Theorem forwarding_port_up {T} `{!ArrayStore T smart_link_s, !ArrayStoreLaws T smart_link_s} (st : sl_state T) l :
  sl_inv st ->
  exists st', sl_run st l = Some st' /\ forall i e, 1 <= i -> groups st' !! i = Some e ->
    master_status e = SL_PORT_UP \/ slave_status e = SL_PORT_UP ->
    (master_port e = master_index e /\ master_status e = SL_PORT_UP /\ (slave_port e = 0 \/ slave_port e = slave_index e)) \/
    (master_port e = slave_index e /\ slave_status e = SL_PORT_UP /\ (slave_port e = 0 \/ slave_port e = master_index e)).
Proof.
  intros Hinv. destruct (sl_run_inv st l Hinv) as (st' & E & [_ Hg]). exists st'. split; [done|].
  intros i e Hi He Hup. destruct (Hg i e Hi He) as [(_ & [Hm | Hm] & [Hs | Hs] & H) _]; rewrite Hm, Hs in *;
    unfold SL_PORT_UP, SL_PORT_DOWN in *; cbn in H; intuition (auto; lia).
Qed.

Lemma forwarding_port_up_witness :
  exists st st' e', sl_inv st /\ sl_run st [LinkDown 10; Preempt 1 1; LinkUp 10; LinkDown 20] = Some st' /\
    groups st' !! 1 = Some e' /\ master_port e' = 10 /\ slave_port e' = 0.
Proof.
  destruct demo_configured as (st & e & E & Hinv & _).
  destruct (forwarding_port_up st [LinkDown 10; Preempt 1 1; LinkUp 10; LinkDown 20] Hinv) as (st' & E' & _).
  exists st, st'. eexists. split; [exact Hinv|]. split; [exact E'|].
  vm_compute in E. injection E as <-. vm_compute in E'. injection E' as <-.
  split; [vm_compute; reflexivity|]. split; reflexivity.
Defined.

(** Setting up a new group succeeds and establishes the invariant: create,
    instance with a non-empty VLAN bitmap, two distinct ports, enable; the
    group then forwards on the master port when it is up, else on the slave
    port when that is up. *)
Theorem configure_new_group {T} `{!ArrayStore T smart_link_s, !ArrayStoreLaws T smart_link_s} (st : sl_state T)
    i inst vlans m ms s ss :
  sl_inv st -> 1 <= i <= SMART_LINK_GROUP_SIZE -> groups st !! i = None -> inst <> 0 ->
  zlen vlans = 128 -> wf_bits vlans 4096 -> forallb (fun w => w =? 0) vlans = false -> m <> s ->
  (ms = SL_PORT_DOWN \/ ms = SL_PORT_UP) -> (ss = SL_PORT_DOWN \/ ss = SL_PORT_UP) ->
  exists st' e, configure st i inst vlans m ms s ss = Some st' /\ sl_inv st' /\ groups st' = <[i := e]> (groups st) /\
    is_enable e = 1 /\ data_vlan e = vlans /\
    master_port e = (if (ms =? SL_PORT_DOWN) && (ss =? SL_PORT_UP) then s else m).
Proof.
  intros Hinv Hi Hn Hin Hl Hw Hz Hd Hms Hss.
  destruct (configure_ok st i inst vlans m ms s ss) as (st' & e & E & Hinv' & -> & Hg); try done.
  eexists st', _. split_and!; [exact E|done|exact Hg| | |];
    destruct Hms as [-> | ->], Hss as [-> | ->]; done.
Qed.

Lemma configure_new_group_witness :
  exists st' e, configure smart_link_db_init 2 7 demo_vlans 10 SL_PORT_DOWN 20 SL_PORT_UP = Some st' /\
    groups st' = <[2 := e]> ∅ /\ master_port e = 20.
Proof.
  destruct (configure_new_group smart_link_db_init 2 7 demo_vlans 10 SL_PORT_DOWN 20 SL_PORT_UP)
    as (st' & e & E & _ & Hg & _ & _ & Hm);
    [apply db_init_inv|unfold SMART_LINK_GROUP_SIZE; lia|vm_compute; reflexivity|lia|reflexivity|apply demo_vlans_wf|
     vm_compute; reflexivity|lia|by left|by right|].
  exists st', e. split; [exact E|]. split; [exact Hg|exact Hm].
Defined.

(** Failover is announced: on the active master board, when the
    forwarding port of an enabled group with both ports up goes down, the
    standby port becomes the forwarding one, nothing stays blocked, and npd
    is asked to unblock the new port for the group's instance, with the
    group's number so that an advertisement follows. *)
Theorem failover_request {T} `{!ArrayStore T smart_link_s, !ArrayStoreLaws T smart_link_s} (st : sl_state T) i e :
  sl_inv st -> is_active_master_board st = true -> 1 <= i -> groups st !! i = Some e -> is_enable e <> 0 ->
  master_status e = SL_PORT_UP -> slave_status e = SL_PORT_UP ->
  exists st' e', smart_link_app_event_linkdown st (master_port e) = Some st' /\ groups st' !! i = Some e' /\
    master_port e' = slave_port e /\ slave_port e' = 0 /\
    NpdMsg 0 (slave_port e) (instance e) i ∈ to_npd st'.
Proof.
  intros [Hok Hinv] Ha Hi He Hen Hm Hs.
  destruct (for_each_group_ok (when_touched (master_port e) (linkdown_group (master_port e))) st Hok)
    as (st' & E & Hok' & Hg & _ & _ & Hn).
  { intros j x _ _. eexists. split; [done|]. intros e'. destruct (touches _ x); [|done]. intros [= <-]. apply linkdown_fields. }
  destruct (Hinv i e Hi He) as [(Hd & _ & _ & H) _]. rewrite Hm, Hs in H. cbn in H.
  set (e' := linkdown_group (master_port e) e).
  assert (touches (master_port e) e = true) as Ht
    by (unfold touches; destruct H as [[-> _]|[-> _]]; rewrite Z.eqb_refl, ?orb_true_r; done).
  assert (master_port e' = slave_port e /\ slave_port e' = 0 /\ is_enable e' = is_enable e /\ instance e' = instance e /\
    id e' = id e) as (E1 & E2 & E3 & E4 & E5).
  { unfold e', linkdown_group. rewrite Hm, Hs, !Z.eqb_refl. cbn [andb].
    destruct H as [[H1 H2]|[H1 H2]], (Z.eqb_spec (master_port e) (master_index e)); try congruence; by split_and!. }
  assert (master_port e' <> master_port e) as Hne by (rewrite E1; destruct H as [[-> ->]|[-> ->]]; congruence).
  exists st', e'. split_and!; try done.
  - rewrite Hg, He. destruct (Z.leb_spec 1 i); [|lia]. unfold changed, when_touched. cbn. by rewrite Ht.
  - rewrite Hn, elem_of_app. right. unfold requests. apply elem_of_concat.
    exists [NpdMsg 0 (slave_port e) (instance e) i]. split; [by left|]. apply list_elem_of_fmap. exists i. split.
    + rewrite He. unfold when_touched. rewrite Ht. fold e'. unfold smart_link_handle_update. rewrite Ha, E3, Z.eqb_refl.
      apply Z.eqb_neq in Hen. rewrite Hen. apply Z.eqb_neq in Hne. rewrite Hne. cbn [negb].
      rewrite E1, E2, E4, E5. f_equal. f_equal. symmetry. by apply (sl_ids _ Hok i e He).
    + apply elem_of_seqZ. destruct (sl_ids _ Hok i e He) as [_ Hr]. lia.
Qed.

Lemma failover_request_witness :
  exists st st' e', sl_inv st /\ smart_link_app_event_linkdown st 10 = Some st' /\ groups st' !! 1 = Some e' /\
    master_port e' = 20 /\ NpdMsg 0 20 5 1 ∈ to_npd st'.
Proof.
  destruct demo_configured as (st & e & E & Hinv & Hg & He).
  assert (groups st !! 1 = Some e) as H1 by (rewrite Hg; apply lookup_insert_eq).
  assert (is_active_master_board st = true) as Ha by (vm_compute in E; injection E as <-; reflexivity). clear E Hg. subst e.
  destruct (failover_request st 1 _ Hinv Ha ltac:(lia) H1) as (st' & e' & E' & Hg' & Hm & _ & Hin);
    [discriminate|reflexivity|reflexivity|].
  exists st, st', e'. split; [exact Hinv|]. split; [exact E'|]. split; [exact Hg'|]. split; [exact Hm|exact Hin].
Defined.

(** The configuration commands are guarded: on an enabled group, removal,
    new ports and a new instance are refused with [GROUP_ENABLE] and change
    nothing; on a group that does not exist every command but creation
    reports an error and changes nothing; creating an existing group
    succeeds and changes nothing. *)
Theorem configuration_guards {T} `{!ArrayStore T smart_link_s, !ArrayStoreLaws T smart_link_s} (st : sl_state T)
    i m ms s ss inst vlans x v :
  sl_ok st -> zlen vlans = 128 ->
  (forall e, groups st !! i = Some e -> smart_link_group st i = Some (SMART_LINK_RETURN_CODE_SUCCESS, st)) /\
  (forall e, groups st !! i = Some e -> is_enable e <> 0 ->
     smart_link_no_group st i = Some (SMART_LINK_RETURN_CODE_GROUP_ENABLE, st) /\
     smart_link_port st i m ms s ss = Some (SMART_LINK_RETURN_CODE_GROUP_ENABLE, st) /\
     smart_link_dbus_msti st i inst vlans = Some (SMART_LINK_RETURN_CODE_GROUP_ENABLE, st)) /\
  (groups st !! i = None ->
     smart_link_no_group st i = Some (SMART_LINK_RETURN_CODE_ERROR, st) /\
     smart_link_port st i m ms s ss = Some (SMART_LINK_RETURN_CODE_ERROR, st) /\
     smart_link_dbus_msti st i inst vlans = Some (SMART_LINK_RETURN_CODE_ERROR, st) /\
     smart_link_enable st i x = Some (SMART_LINK_RETURN_CODE_ERROR, st) /\
     smart_link_preempt st i x = Some (SMART_LINK_RETURN_CODE_ERROR, st) /\
     smart_link_advertise_vlan st i v = Some (SMART_LINK_RETURN_CODE_ERROR, st)).
Proof.
  intros Hok Hl. pose proof (search_groups st (zero_group i) Hok) as Hs. cbn [id zero_group] in Hs.
  unfold smart_link_no_group, smart_link_port, smart_link_dbus_msti, smart_link_enable, smart_link_preempt,
    smart_link_advertise_vlan, smart_link_group. rewrite Hs, Hl. split_and!.
  - by intros e ->.
  - intros e -> Hen. apply Z.eqb_neq in Hen. by rewrite Hen.
  - intros ->. done.
Qed.

Lemma configuration_guards_witness :
  exists st, sl_ok st /\ smart_link_no_group st 1 = Some (SMART_LINK_RETURN_CODE_GROUP_ENABLE, st) /\
    smart_link_no_group st 2 = Some (SMART_LINK_RETURN_CODE_ERROR, st).
Proof.
  destruct demo_configured as (st & e & _ & [Hok _] & Hg & He). exists st.
  destruct (configuration_guards st 1 0 0 0 0 0 demo_vlans 0 0 Hok eq_refl) as (_ & H1 & _).
  destruct (configuration_guards st 2 0 0 0 0 0 demo_vlans 0 0 Hok eq_refl) as (_ & _ & H2).
  split; [exact Hok|]. split.
  - apply (H1 e); [rewrite Hg; apply lookup_insert_eq|]. rewrite He. discriminate.
  - apply H2. rewrite Hg. reflexivity.
Defined.

(** A VLAN leave event can move traffic to a dead port: when only the
    slave port of a group is up and it leaves a data VLAN of the group,
    [smart_link_app_relate_event_leave] makes the master port, which is down,
    the forwarding one: it checks the state of the slave port only. *)
Theorem leave_selects_down_port e vlan_id :
  link_ok e -> wf_bits (data_vlan e) 4096 -> 0 <= vlan_id < 4096 -> bit_at (data_vlan e) vlan_id = true ->
  master_status e = SL_PORT_DOWN -> slave_status e = SL_PORT_UP -> slave_index e <> 0 ->
  exists e', leave_group (slave_index e) vlan_id e = Some (Some e') /\
    master_port e' = master_index e' /\ master_status e' = SL_PORT_DOWN /\ slave_status e' = SL_PORT_UP /\
    slave_port e' = slave_index e'.
Proof.
  intros (Hd & _ & _ & H) Hw Hv Hb Hm Hs Hn. rewrite Hm, Hs in H. cbn in H. destruct H as [Hmp Hsp].
  unfold leave_group, touches. rewrite Z.eqb_refl, orb_true_r, (test_bit_spec _ 4096), Hb by done.
  cbn [mbind option_bind]. rewrite Hmp, Hs, !Z.eqb_refl. apply Z.eqb_neq in Hn. rewrite Hn. cbn [Z.eqb negb andb].
  destruct (Z.eqb_spec (slave_index e) (master_index e)); [congruence|]. eexists. split; [done|]. by split_and!.
Qed.

Lemma leave_selects_down_port_witness :
  let e := Group 1 1 0 5 20 0 10 SL_PORT_DOWN 20 SL_PORT_UP 0 demo_vlans in
  exists e', leave_group 20 100 e = Some (Some e') /\ master_port e' = 10 /\ master_status e' = SL_PORT_DOWN.
Proof.
  intros e. destruct (leave_selects_down_port e 100) as (e' & E & H1 & H2 & _);
    [repeat split; [discriminate|by left|by right]|apply demo_vlans_wf|lia|reflexivity|reflexivity|reflexivity|discriminate|].
  exists e'. split; [exact E|]. vm_compute in E. injection E as <-. split; reflexivity.
Defined.

(** An enabled group whose two ports are deleted can no longer be
    disabled, reconfigured or removed: [smart_link_enable] calls it
    incomplete before it looks at the requested state, and the other
    commands refuse an enabled group. *)
Theorem deleted_ports_lock_group {T} `{!ArrayStore T smart_link_s, !ArrayStoreLaws T smart_link_s} (st : sl_state T)
    i e x m ms s ss :
  sl_ok st -> 1 <= i -> groups st !! i = Some e -> is_enable e <> 0 ->
  is_port_type (master_index e) = true -> is_port_type (slave_index e) = true ->
  master_index e <> slave_index e -> master_index e <> 0 -> slave_index e <> 0 ->
  exists st1 st2, smart_link_app_event_l2delete st (master_index e) = Some st1 /\
    smart_link_app_event_l2delete st1 (slave_index e) = Some st2 /\
    smart_link_enable st2 i x = Some (SMART_LINK_RETURN_CODE_GROUP_INCOMPLEATE, st2) /\
    smart_link_no_group st2 i = Some (SMART_LINK_RETURN_CODE_GROUP_ENABLE, st2) /\
    smart_link_port st2 i m ms s ss = Some (SMART_LINK_RETURN_CODE_GROUP_ENABLE, st2).
Proof.
  intros Hok Hi He Hen Hp1 Hp2 Hd Hm0 Hs0.
  assert (forall (st : sl_state T) n, sl_ok st -> is_port_type n = true ->
    exists st', smart_link_app_event_l2delete st n = Some st' /\ sl_ok st' /\
      forall e, groups st !! i = Some e -> touches n e = true -> groups st' !! i = Some (l2delete_group n e)) as Hdel.
  { intros st0 n Hok0 Hp. unfold smart_link_app_event_l2delete. rewrite Hp. cbn [negb].
    destruct (for_each_group_ok (when_touched n (l2delete_group n)) st0 Hok0) as (st' & E & Hok' & Hg & _).
    { intros j y _ _. eexists. split; [done|]. intros e'. destruct (touches n y); [|done]. intros [= <-].
      unfold l2delete_group. repeat case_match; done. }
    exists st'. split_and!; try done. intros y Hy Ht. rewrite Hg, Hy. destruct (Z.leb_spec 1 i); [|lia].
    unfold changed, when_touched. cbn. by rewrite Ht. }
  destruct (Hdel st (master_index e) Hok Hp1) as (st1 & E1 & Hok1 & Hg1).
  specialize (Hg1 e He ltac:(unfold touches; by rewrite Z.eqb_refl)).
  set (e1 := l2delete_group (master_index e) e) in *.
  assert (master_index e1 = 0 /\ slave_index e1 = slave_index e /\ is_enable e1 = is_enable e) as (M1 & S1 & N1).
  { unfold e1, l2delete_group. rewrite Z.eqb_refl. destruct (Z.eqb_spec (master_index e) (master_port e)) as [<-|];
      [rewrite Z.eqb_refl; by destruct (_ && _)|done]. }
  destruct (Hdel st1 (slave_index e) Hok1 Hp2) as (st2 & E2 & Hok2 & Hg2).
  specialize (Hg2 e1 Hg1 ltac:(unfold touches; rewrite S1, Z.eqb_refl; apply orb_true_r)).
  set (e2 := l2delete_group (slave_index e) e1) in *.
  assert (master_index e2 = 0 /\ slave_index e2 = 0 /\ is_enable e2 = is_enable e) as (M2 & S2 & N2).
  { unfold e2, l2delete_group. rewrite M1. apply Z.eqb_neq in Hs0. rewrite Hs0.
    destruct (Z.eqb_spec (slave_index e) (master_port e1)) as [<-|]; [|done].
    rewrite Hs0. destruct (_ && _); done. }
  exists st1, st2. split; [done|]. split; [done|].
  unfold smart_link_enable, smart_link_no_group, smart_link_port. rewrite !search_groups by done. cbn [id zero_group].
  rewrite Hg2, M2, S2, N2. apply Z.eqb_neq in Hen. by rewrite Hen.
Qed.

(** Ports 1/1 and 1/2 of a chassis as master and slave of group 1. *)
Lemma deleted_ports_lock_group_witness :
  exists st st1 st2, smart_link_app_event_l2delete st 0x20000000 = Some st1 /\
    smart_link_app_event_l2delete st1 0x20040000 = Some st2 /\
    smart_link_enable st2 1 0 = Some (SMART_LINK_RETURN_CODE_GROUP_INCOMPLEATE, st2) /\
    smart_link_no_group st2 1 = Some (SMART_LINK_RETURN_CODE_GROUP_ENABLE, st2).
Proof.
  destruct (configure_ok smart_link_db_init 1 5 demo_vlans 0x20000000 SL_PORT_UP 0x20040000 SL_PORT_UP)
    as (st & e & _ & [Hok _] & He & Hg);
    [apply db_init_inv|unfold SMART_LINK_GROUP_SIZE; lia|vm_compute; reflexivity|lia|reflexivity|apply demo_vlans_wf|
     vm_compute; reflexivity|lia|by right|by right|].
  assert (groups st !! 1 = Some e) as H1 by (rewrite Hg; apply lookup_insert_eq). subst e.
  destruct (deleted_ports_lock_group st 1 _ 0 0 0 0 0 Hok ltac:(lia) H1) as (st1 & st2 & E1 & E2 & E3 & E4 & _);
    [discriminate|vm_compute; reflexivity|vm_compute; reflexivity|discriminate|discriminate|discriminate|].
  exists st, st1, st2. split_and!; assumption.
Defined.
