(* ===== verification/Erpp.v ===== *)
(** * ERPP: Ethernet ring protection

    Model of [src/src/erpp/src]: the domains and rings of [erpp_dbus.c], the
    interface events of [erpp_event.c], the ring packets of [erpp_packet.c]
    and the timer of [erpp_timer.c].  The domains live in a database table
    reached through [ArrayStore]; the mutex, the frames and the requests to
    npd, which [NpdRequests] carries out, are part of the state of a small
    monad. *)

From Stdlib Require Import ZArith Lia Bool.
From stdpp Require Import base decidable list gmap.
From S2P Require Import Prelude Database ArrayStore.

Open Scope Z_scope.

Definition ERPP_DOMAIN_SIZE : Z := 8.
Definition ERPP_RING_SIZE : Z := 4.
Definition ERPP_TIMER_HELLO_DEFAULT : Z := 1.
Definition ERPP_TIMER_FAIL_DEFAULT : Z := 3.

(** [enum erpp_port_status] *)
Definition FORWARDING : Z := 0.
Definition BLOCK : Z := 1.

(** [enum erpp_node_role] *)
Definition NODE_MASTER : Z := 0.
Definition NODE_TRANSMIT : Z := 1.
Definition NODE_EDGE : Z := 2.
Definition NODE_ASSISTANT_EDGE : Z := 3.

(** [enum erpp_port_role] *)
Definition PORT_PRIMARY : Z := 0.
Definition PORT_SECONDARY : Z := 1.
Definition PORT_COMMON : Z := 2.
Definition PORT_EDGE : Z := 3.

(** The status of a node: [enum erpp_master_node_status] for a master,
    [enum erpp_edge_node_status] for an assistant edge and
    [enum erpp_node_status] for the others, in one [int]. *)
Definition NODE_COMPLETE : Z := 0.
Definition NODE_FAIL : Z := 1.
Definition ERPP_LINK_NORMAL : Z := 1.
Definition ERPP_LINK_FAIL : Z := 2.
Definition LINK_UP : Z := 0.
Definition LINK_DOWN : Z := 1.
Definition PRE_FORWARDING : Z := 2.

(** [enum erpp_frame_type] *)
Definition HELLO_PACKET : Z := 1.
Definition COMPLETE_FLUSH_PACKET : Z := 2.
Definition COMMON_FLUSH_PACKET : Z := 3.
Definition LINK_DOWN_PACKET : Z := 4.
Definition EDGE_HELLO_PACKET : Z := 5.
Definition FAULT_PACKET : Z := 6.

Definition ERPP_RETURN_CODE_SUCCESS : Z := 0.
Definition ERPP_RETURN_CODE_ERROR : Z := 0x220001.
Definition ERPP_RETURN_CODE_DOMAIN_NOEXIST : Z := 0x220003.
Definition ERPP_RETURN_CODE_RING_CONFLICT : Z := 0x220009.
Definition ERPP_RETURN_CODE_RING_NOEXIST : Z := 0x22000A.

(** ** Data *)

Record erpp_port_s := Port { netif_index : Z; erpp_port_role : Z; erpp_port_status : Z }.

(** [port[0]] is the primary or edge port, [port[1]] the other one. *)
Record erpp_node_s := Node { erpp_node_role : Z; erpp_node_status : Z; port0 : erpp_port_s; port1 : erpp_port_s }.

Record erpp_ring_s := Ring { ring_id : Z; level : Z; is_enable : Z; node : erpp_node_s }.

(** The arrays [control_vlan_id[2]] and [timer_count[3]], only ever indexed
    by constants, are a field per element. *)
Record erpp_domain_s := Domain {
  domain_id : Z;
  control_vlan_id_0 : Z;
  control_vlan_id_1 : Z;
  protect_instance_id : Z;
  hello_timer : Z;
  fail_timer : Z;
  fault_timer : Z;
  timer_count_0 : Z;
  timer_count_1 : Z;
  timer_count_2 : Z;
  flush_flag : Z;
  packet_ring : Z;
  ring : list erpp_ring_s
}.

Definition zero_port : erpp_port_s := Port 0 0 0.
Definition zero_ring : erpp_ring_s := Ring 0 0 0 (Node 0 0 zero_port zero_port).

(** [memset(&entry, 0, sizeof(entry)); entry.domain_id = i] *)
Definition zero_domain (i : Z) : erpp_domain_s :=
  Domain (s32 i) 0 0 0 0 0 0 0 0 0 0 0 (replicate (Z.to_nat ERPP_RING_SIZE) zero_ring).

(** Assignments to fields. *)
Definition set_status (p : erpp_port_s) (s : Z) : erpp_port_s := Port (netif_index p) (erpp_port_role p) s.
Definition with_node (r : erpp_ring_s) (n : erpp_node_s) : erpp_ring_s := Ring (ring_id r) (level r) (is_enable r) n.
Definition with_enable (r : erpp_ring_s) (x : Z) : erpp_ring_s := Ring (ring_id r) (level r) x (node r).
Definition with_ports (r : erpp_ring_s) (s0 s1 : Z) : erpp_ring_s :=
  with_node r (Node (erpp_node_role (node r)) (erpp_node_status (node r))
    (set_status (port0 (node r)) s0) (set_status (port1 (node r)) s1)).
Definition with_node_status (r : erpp_ring_s) (x : Z) : erpp_ring_s :=
  with_node r (Node (erpp_node_role (node r)) x (port0 (node r)) (port1 (node r))).

Definition with_domain_id (e : erpp_domain_s) (i : Z) : erpp_domain_s :=
  Domain i (control_vlan_id_0 e) (control_vlan_id_1 e) (protect_instance_id e) (hello_timer e) (fail_timer e)
    (fault_timer e) (timer_count_0 e) (timer_count_1 e) (timer_count_2 e) (flush_flag e) (packet_ring e) (ring e).
Definition with_vlan (e : erpp_domain_s) (v : Z) : erpp_domain_s :=
  Domain (domain_id e) v (control_vlan_id_1 e) (protect_instance_id e) (hello_timer e) (fail_timer e)
    (fault_timer e) (timer_count_0 e) (timer_count_1 e) (timer_count_2 e) (flush_flag e) (packet_ring e) (ring e).
Definition with_instance (e : erpp_domain_s) (i : Z) : erpp_domain_s :=
  Domain (domain_id e) (control_vlan_id_0 e) (control_vlan_id_1 e) i (hello_timer e) (fail_timer e)
    (fault_timer e) (timer_count_0 e) (timer_count_1 e) (timer_count_2 e) (flush_flag e) (packet_ring e) (ring e).
Definition with_timers (e : erpp_domain_s) (h f g : Z) : erpp_domain_s :=
  Domain (domain_id e) (control_vlan_id_0 e) (control_vlan_id_1 e) (protect_instance_id e) h f
    g (timer_count_0 e) (timer_count_1 e) (timer_count_2 e) (flush_flag e) (packet_ring e) (ring e).
Definition with_counts (e : erpp_domain_s) (c0 c1 c2 : Z) : erpp_domain_s :=
  Domain (domain_id e) (control_vlan_id_0 e) (control_vlan_id_1 e) (protect_instance_id e) (hello_timer e) (fail_timer e)
    (fault_timer e) c0 c1 c2 (flush_flag e) (packet_ring e) (ring e).
Definition with_flush (e : erpp_domain_s) (x : Z) : erpp_domain_s :=
  Domain (domain_id e) (control_vlan_id_0 e) (control_vlan_id_1 e) (protect_instance_id e) (hello_timer e) (fail_timer e)
    (fault_timer e) (timer_count_0 e) (timer_count_1 e) (timer_count_2 e) x (packet_ring e) (ring e).
Definition with_packet_ring (e : erpp_domain_s) (x : Z) : erpp_domain_s :=
  Domain (domain_id e) (control_vlan_id_0 e) (control_vlan_id_1 e) (protect_instance_id e) (hello_timer e) (fail_timer e)
    (fault_timer e) (timer_count_0 e) (timer_count_1 e) (timer_count_2 e) (flush_flag e) x (ring e).
Definition with_rings (e : erpp_domain_s) (l : list erpp_ring_s) : erpp_domain_s :=
  Domain (domain_id e) (control_vlan_id_0 e) (control_vlan_id_1 e) (protect_instance_id e) (hello_timer e) (fail_timer e)
    (fault_timer e) (timer_count_0 e) (timer_count_1 e) (timer_count_2 e) (flush_flag e) (packet_ring e) l.

(** [entry->ring[k] = r], for a [k] that was read before. *)
Definition set_ring (e : erpp_domain_s) (k : Z) (r : erpp_ring_s) : erpp_domain_s :=
  with_rings e (<[Z.to_nat k := r]> (ring e)).

(** A request to npd, without its cookies and the port roles, which are zero. *)
Record erpp_msg_to_npd_s := NpdMsg {
  msg_netif_0 : Z;
  msg_status_0 : Z;
  msg_netif_1 : Z;
  msg_status_1 : Z;
  msg_flush_flag : Z;
  msg_instance : Z;
  msg_is_enable : Z
}.

(** [struct erpp_packet_sync_ctrl_s]; the netlink header is opaque. *)
Record erpp_packet_sync_ctrl_s := Ctrl {
  ctrl_nlh : list Z;
  ctrl_packet_type : Z;
  ctrl_flag : Z;
  ctrl_netif_index : Z;
  ctrl_son_netif_index : Z;
  ctrl_vid : Z;
  ctrl_istagged : Z;
  ctrl_packet_len : Z
}.

Record ethernet_header_s := Ether { dmac : list Z; smac : list Z; ether_type : Z }.

Record erpp_packet_fix_s := Fix {
  pri : Z;
  vlanid : Z;
  frame_length : Z;
  dsap_ssap : Z;
  control : Z;
  oui : list Z;
  fixup_1 : Z;
  fixup_2 : Z;
  fixup_3 : Z
}.

(** Multi-byte fields that the code converts have the value on the wire. *)
Record erpp_packet_s := Packet {
  fix_part : erpp_packet_fix_s;
  erpp_length : Z;
  erpp_version : Z;
  erpp_type : Z;
  pkt_domain_id : Z;
  pkt_ring_id : Z;
  pkt_control_vlan_id : Z;
  sys_mac : list Z;
  pkt_hello_timer : Z;
  pkt_fail_timer : Z;
  pkt_level : Z;
  reserve : list Z;
  passward : list Z
}.

(** A buffer of [ERPP_PACKET_LENGTH] bytes. *)
Record erpp_frame := Frame { sync_ctrl : erpp_packet_sync_ctrl_s; ether : ethernet_header_s; packet : erpp_packet_s }.

(** ** State and effects *)

(** How a call ends: it returns, it is undefined behaviour (an index out of
    bounds, an overflow, a crash in the database), it waits for ever for
    the mutex, or the iterations given to a loop do not suffice. *)
Inductive outcome (A : Type) :=
  | Done (a : A)
  | Undefined
  | Blocked
  | OutOfFuel.
Arguments Done {A} a.
Arguments Undefined {A}.
Arguments Blocked {A}.
Arguments OutOfFuel {A}.

Record erpp_state (T G : Type) := ERPP {
  erpp_domain_db : T;
  erpp_global_array : G;
  erpp_master_active : bool;
  semErppMutex : bool;
  frames : list erpp_frame;
  to_npd : list erpp_msg_to_npd_s;
  SysMac : list Z
}.
Arguments ERPP {T G}.
Arguments erpp_domain_db {T G}.
Arguments erpp_global_array {T G}.
Arguments erpp_master_active {T G}.
Arguments semErppMutex {T G}.
Arguments frames {T G}.
Arguments to_npd {T G}.
Arguments SysMac {T G}.

(** Computations of the daemon. *)
Definition M (T G A : Type) : Type := erpp_state T G -> outcome (A * erpp_state T G).

#[export] Instance M_ret {T G} : MRet (M T G) := fun A a st => Done (a, st).
#[export] Instance M_bind {T G} : MBind (M T G) := fun A B f m st =>
  match m st with
  | Done (a, st') => f a st'
  | Undefined => Undefined
  | Blocked => Blocked
  | OutOfFuel => OutOfFuel
  end.

Section effects.
Context {T G : Type}.

Definition get_state : M T G (erpp_state T G) := fun st => Done (st, st).

Definition lift {A} (x : option A) : M T G A := fun st =>
  match x with Some a => Done (a, st) | None => Undefined end.

Definition no_fuel {A} : M T G A := fun _ => OutOfFuel.

(** A thread that locks a mutex that is never released waits for ever. *)
Definition pthread_mutex_lock : M T G unit := fun st =>
  if semErppMutex st then Blocked
  else Done (tt, ERPP (erpp_domain_db st) (erpp_global_array st) (erpp_master_active st) true (frames st) (to_npd st)
                   (SysMac st)).

Definition pthread_mutex_unlock : M T G unit := fun st =>
  Done (tt, ERPP (erpp_domain_db st) (erpp_global_array st) (erpp_master_active st) false (frames st) (to_npd st)
              (SysMac st)).

Definition set_domain_db (t : T) : M T G unit := fun st =>
  Done (tt, ERPP t (erpp_global_array st) (erpp_master_active st) (semErppMutex st) (frames st) (to_npd st) (SysMac st)).

Definition set_global (g : G) : M T G unit := fun st =>
  Done (tt, ERPP (erpp_domain_db st) g (erpp_master_active st) (semErppMutex st) (frames st) (to_npd st) (SysMac st)).

Definition set_active (b : bool) : M T G unit := fun st =>
  Done (tt, ERPP (erpp_domain_db st) (erpp_global_array st) b (semErppMutex st) (frames st) (to_npd st) (SysMac st)).

(** [erpp_send_packet]: the buffer is handed to the packet socket. *)
Definition erpp_send_packet (f : erpp_frame) : M T G unit := fun st =>
  Done (tt, ERPP (erpp_domain_db st) (erpp_global_array st) (erpp_master_active st) (semErppMutex st)
              (frames st ++ [f]) (to_npd st) (SysMac st)).

(** [erpp_send_msg]: the requests are handed to the socket of npd. *)
Definition erpp_send_msg (l : list erpp_msg_to_npd_s) : M T G unit := fun st =>
  Done (tt, ERPP (erpp_domain_db st) (erpp_global_array st) (erpp_master_active st) (semErppMutex st)
              (frames st) (to_npd st ++ l) (SysMac st)).

(** [entry->ring[k]], an array of four. *)
Definition ring_at (e : erpp_domain_s) (k : Z) : M T G erpp_ring_s := lift (rd (ring e) k).

(** [x--] on an [int]. *)
Definition decr (x : Z) : M T G Z := lift (if x =? - 2 ^ 31 then None else Some (x - 1)).

End effects.

Section daemon.
Context {T G : Type} `{!ArrayStore T erpp_domain_s, !ArrayStore G Z}.
Implicit Types (e : erpp_domain_s) (r : erpp_ring_s).

(** ** Domains in the table *)

Definition erpp_domain_search e : M T G (option erpp_domain_s) :=
  st ← get_state; mret (st_get (erpp_domain_db st) (u32 (domain_id e))).

Definition erpp_domain_insert e : M T G Z :=
  st ← get_state;
  '(c, t) ← lift (st_insert (erpp_domain_db st) (u32 (domain_id e)) e);
  set_domain_db t;; mret (if c =? 0 then 0 else -1).

(** The request for a ring, [port] being the ports of the new entry. *)
Definition erpp_send_msg_to_npd r (instance flush enable : Z) : erpp_msg_to_npd_s :=
  let n := node r in
  NpdMsg (netif_index (port0 n)) (erpp_port_status (port0 n)) (netif_index (port1 n)) (erpp_port_status (port1 n))
    (u8 flush) (u8 instance) (u32 enable).

Definition ring_request (instance flush : Z) (new old : erpp_ring_s) : list erpp_msg_to_npd_s :=
  if negb (ring_id new =? 0) then
    let msg := [erpp_send_msg_to_npd new instance flush (is_enable new)] in
    if negb (is_enable new =? is_enable old) then
      if negb (netif_index (port0 (node new)) =? 0) || negb (netif_index (port1 (node new)) =? 0) then msg else []
    else if negb (is_enable new =? 0) then
      if negb (erpp_port_status (port0 (node new)) =? erpp_port_status (port0 (node old)))
         || negb (erpp_port_status (port1 (node new)) =? erpp_port_status (port1 (node old))) then msg else []
    else []
  else [].

(** The requests made by the update callback of the table. *)
Definition erpp_handle_update (active : bool) (new old : erpp_domain_s) : list erpp_msg_to_npd_s :=
  let flush := if flush_flag new =? flush_flag old then 0 else if flush_flag new =? 0 then 0 else 1 in
  if active then concat (zip_with (ring_request (protect_instance_id new) flush) (ring new) (ring old)) else [].

Definition erpp_domain_update e : M T G Z :=
  st ← get_state;
  let old := st_get (erpp_domain_db st) (u32 (domain_id e)) in
  '(c, t) ← lift (st_update (erpp_domain_db st) (u32 (domain_id e)) e);
  set_domain_db t;;
  erpp_send_msg (match old with Some old => erpp_handle_update (erpp_master_active st) e old | None => [] end);;
  mret (if c =? 0 then 0 else -1).

Definition erpp_domain_delete e : M T G Z :=
  st ← get_state;
  '(c, t) ← lift (st_delete (erpp_domain_db st) (u32 (domain_id e)));
  set_domain_db t;; mret (if c =? 0 then 0 else -1).

(** The next existing domain; [domain_id] is an [int] and stays below ten. *)
Fixpoint get_next_loop (n : nat) e : M T G (option erpp_domain_s) :=
  match n with
  | O => no_fuel
  | S n =>
      let e := with_domain_id e (domain_id e + 1) in
      if domain_id e <=? ERPP_DOMAIN_SIZE then
        found ← erpp_domain_search e;
        match found with Some e' => mret (Some e') | None => get_next_loop n e end
      else mret None
  end.

Definition erpp_domain_get_next e : M T G (option erpp_domain_s) := get_next_loop (Z.to_nat (ERPP_DOMAIN_SIZE + 2)) e.

(** [while (0 == erpp_domain_get_next(&entry))] *)
Fixpoint domain_loop (n : nat) (body : erpp_domain_s -> M T G erpp_domain_s) e : M T G unit :=
  match n with
  | O => no_fuel
  | S n =>
      next ← erpp_domain_get_next e;
      match next with
      | None => mret tt
      | Some e => e ← body e; domain_loop n body e
      end
  end.

Definition for_each_domain (body : erpp_domain_s -> M T G erpp_domain_s) : M T G unit :=
  domain_loop (Z.to_nat (ERPP_DOMAIN_SIZE + 2)) body (zero_domain 0).

(** [for (k = first; ...; k++)] over the rings of an entry. *)
Fixpoint ring_loop (l : list Z) (body : Z -> erpp_domain_s -> M T G erpp_domain_s) e : M T G erpp_domain_s :=
  match l with [] => mret e | k :: l => e ← body k e; ring_loop l body e end.

(** ** Configuration *)

Definition erpp_ring_id_exist_check (rid did : Z) : M T G Z :=
  found ← erpp_domain_search (zero_domain did);
  match found with
  | None => mret ERPP_RETURN_CODE_SUCCESS
  | Some e =>
      r ← ring_at e (u32 (rid - 1));
      mret (if negb (ring_id r =? 0) then ERPP_RETURN_CODE_RING_CONFLICT else ERPP_RETURN_CODE_SUCCESS)
  end.

Definition erpp_domain_process (domain isenable : Z) : M T G Z :=
  found ← erpp_domain_search (zero_domain domain);
  match found with
  | None =>
      if negb (isenable =? 0) then
        let h := 3 * ERPP_TIMER_HELLO_DEFAULT in
        let f := 3 * ERPP_TIMER_FAIL_DEFAULT in
        erpp_domain_insert (with_counts (with_timers (zero_domain domain) h f f) h f f)
      else mret ERPP_RETURN_CODE_SUCCESS
  | Some e =>
      if isenable =? 0 then erpp_domain_delete e else mret ERPP_RETURN_CODE_SUCCESS
  end.

(** An update whose failure is reported. *)
Definition update_reply e : M T G Z :=
  c ← erpp_domain_update e;
  mret (if negb (c =? 0) then ERPP_RETURN_CODE_ERROR else c).

Definition erpp_domain_control_vlan_set (domain vlan_id : Z) : M T G Z :=
  pthread_mutex_lock;;
  found ← erpp_domain_search (zero_domain domain);
  c ← match found with
      | None => mret ERPP_RETURN_CODE_ERROR
      | Some e => update_reply (with_vlan e (u16 vlan_id))
      end;
  pthread_mutex_unlock;; mret c.

Definition erpp_domain_instance_set (domain instance : Z) : M T G Z :=
  pthread_mutex_lock;;
  found ← erpp_domain_search (zero_domain domain);
  c ← match found with
      | None => mret ERPP_RETURN_CODE_ERROR
      | Some e => update_reply (with_instance e (s32 instance))
      end;
  pthread_mutex_unlock;; mret c.

(** The roles and states given to a ring by [node_mode], a byte; a mode that
    is none of the four leaves the ports and the status as they are. *)
Definition ring_mode (node_mode : Z) r : erpp_ring_s :=
  let n := node r in
  let port p role st := Port (netif_index p) role st in
  if node_mode =? NODE_MASTER then
    with_node r (Node NODE_MASTER NODE_COMPLETE (port (port0 n) PORT_PRIMARY FORWARDING)
                   (port (port1 n) PORT_SECONDARY BLOCK))
  else if node_mode =? NODE_TRANSMIT then
    with_node r (Node NODE_TRANSMIT LINK_UP (port (port0 n) PORT_PRIMARY FORWARDING)
                   (port (port1 n) PORT_SECONDARY FORWARDING))
  else if (node_mode =? NODE_EDGE) || (node_mode =? NODE_ASSISTANT_EDGE) then
    with_node r (Node (erpp_node_role n) LINK_UP (port (port0 n) PORT_EDGE FORWARDING)
                   (port (port1 n) PORT_COMMON FORWARDING))
  else r.

Definition ring_configure (rid node_mode primary_port secondary_port lvl : Z) r : erpp_ring_s :=
  let r := ring_mode node_mode r in
  let n := node r in
  Ring (s32 rid) (s32 lvl) (is_enable r)
    (Node node_mode (erpp_node_status n) (Port primary_port (erpp_port_role (port0 n)) (erpp_port_status (port0 n)))
       (Port secondary_port (erpp_port_role (port1 n)) (erpp_port_status (port1 n)))).

(** The mutex is released only when the domain exists. *)
Definition erpp_domain_ring_configure_process (domain rid node_mode primary_port secondary_port lvl : Z) : M T G Z :=
  pthread_mutex_lock;;
  found ← erpp_domain_search (zero_domain domain);
  match found with
  | None => mret ERPP_RETURN_CODE_ERROR
  | Some e =>
      let k := u32 (rid - 1) in
      r ← ring_at e k;
      c ← update_reply (set_ring e k (ring_configure rid node_mode primary_port secondary_port lvl r));
      pthread_mutex_unlock;; mret c
  end.

Definition erpp_domain_ring_process (domain rid isenable : Z) : M T G Z :=
  pthread_mutex_lock;;
  found ← erpp_domain_search (zero_domain domain);
  c ← match found with
      | None => mret ERPP_RETURN_CODE_ERROR
      | Some e =>
          let k := u32 (rid - 1) in
          r ← ring_at e k;
          update_reply (set_ring e k (with_enable r (s32 isenable)))
      end;
  pthread_mutex_unlock;; mret c.

Definition erpp_global_process (isenable : Z) : M T G Z :=
  st ← get_state;
  match st_get (erpp_global_array st) 0 with
  | None => mret (-1)
  | Some x =>
      if isenable =? u32 x then mret 0
      else '(c, g) ← lift (st_update (erpp_global_array st) 0 (s32 isenable)); set_global g;; mret c
  end.

(** The update is made with a zero entry when the domain is missing; it
    fails and the error is reported. *)
Definition erpp_timer_process (domain hello_value fail_value : Z) : M T G Z :=
  pthread_mutex_lock;;
  found ← erpp_domain_search (zero_domain domain);
  let e := match found with
           | None => zero_domain domain
           | Some e =>
               let h := s32 hello_value in
               let f := s32 fail_value in
               with_counts (with_timers e h f f) h f f
           end in
  c ← update_reply e;
  pthread_mutex_unlock;; mret c.

(** The reply is the code, the domain and its ring. *)
Definition erpp_dbus_domain_info_get (did rid : Z) : M T G (Z * erpp_domain_s * erpp_ring_s) :=
  found ← erpp_domain_search (zero_domain did);
  let k := u32 (rid - 1) in
  match found with
  | None => r ← ring_at (zero_domain did) k; mret (ERPP_RETURN_CODE_DOMAIN_NOEXIST, zero_domain did, r)
  | Some e =>
      r ← ring_at e k;
      mret (if negb (rid =? u32 (ring_id r)) then ERPP_RETURN_CODE_RING_NOEXIST else ERPP_RETURN_CODE_SUCCESS, e, r)
  end.

(** ** Packets *)

Definition ERPP_MUTICAST_MAC : list Z := [0x01; 0x80; 0xc2; 0x00; 0x00; 0xaa].
Definition FIX_PRI : Z := 0x1110.
Definition DSAP_SSAP : Z := 0xAAAA.
Definition FIX_CONTROL : Z := 0x02.
Definition FRAME_LENGTH : Z := 0x48.
Definition FIX_OUI : list Z := [0x00; 0xE0; 0x2B].
Definition FIX_1 : Z := 0x00bb.
Definition FIX_2 : Z := 0x99.
Definition FIX_3 : Z := 0x0b.
Definition ERPP_LENGTH : Z := 0x50.
Definition ERPP_VERSION : Z := 0.

(** [r] is [entry->ring[entry->packet_ring-1]]; [sizeof(struct erpp_packet_s)]
    is 54; [pri] and [vlanid] are bit fields of 4 and 12 bits. *)
Definition erpp_assembly_packet (mac : list Z) e r (type netif : Z) : erpp_frame :=
  Frame
    {| ctrl_nlh := replicate 16 0; ctrl_packet_type := 0; ctrl_flag := 0; ctrl_netif_index := netif;
       ctrl_son_netif_index := 0; ctrl_vid := u16 (control_vlan_id_0 e); ctrl_istagged := 1; ctrl_packet_len := 54 |}
    {| dmac := ERPP_MUTICAST_MAC; smac := mac; ether_type := 0 |}
    {| fix_part := {| pri := wrap 4 FIX_PRI; vlanid := wrap 12 (control_vlan_id_0 e); frame_length := FRAME_LENGTH;
                      dsap_ssap := DSAP_SSAP; control := FIX_CONTROL; oui := FIX_OUI;
                      fixup_1 := FIX_1; fixup_2 := FIX_2; fixup_3 := FIX_3 |};
       erpp_length := ERPP_LENGTH; erpp_version := ERPP_VERSION; erpp_type := u8 type;
       pkt_domain_id := u16 (domain_id e); pkt_ring_id := u16 (ring_id r); pkt_control_vlan_id := 0;
       sys_mac := mac; pkt_hello_timer := u16 (hello_timer e); pkt_fail_timer := u16 (fail_timer e);
       pkt_level := u8 (level r); reserve := replicate 3 0; passward := replicate 16 0 |}.

Definition erpp_tx_type_packet e (type netif : Z) : M T G unit :=
  r ← ring_at e (packet_ring e - 1);
  st ← get_state;
  erpp_send_packet (erpp_assembly_packet (SysMac st) e r type netif).

(** A packet that is not ours leaves through the other port of the ring. *)
Definition relay r (buff : erpp_frame) : erpp_frame :=
  let c := sync_ctrl buff in
  let out := if netif_index (port0 (node r)) =? ctrl_netif_index c then netif_index (port1 (node r))
             else netif_index (port0 (node r)) in
  Frame {| ctrl_nlh := ctrl_nlh c; ctrl_packet_type := ctrl_packet_type c; ctrl_flag := ctrl_flag c;
           ctrl_netif_index := out; ctrl_son_netif_index := ctrl_son_netif_index c; ctrl_vid := ctrl_vid c;
           ctrl_istagged := ctrl_istagged c; ctrl_packet_len := ctrl_packet_len c |}
    (ether buff) (packet buff).

(** [0 == memcmp(erpp_buff->sys_mac, SysMac, sizeof(SysMac))] *)
Definition own_packet (buff : erpp_frame) : M T G bool :=
  st ← get_state; mret (bool_decide (sys_mac (packet buff) = SysMac st)).

(** [if (0 != erpp_domain_update(entry)) return 1; return 0;] *)
Definition update_result e : M T G Z :=
  c ← erpp_domain_update e; mret (if negb (c =? 0) then 1 else 0).

(** The secondary port is closed when the primary forwards. *)
Definition close_secondary r : erpp_ring_s :=
  if erpp_port_status (port0 (node r)) =? FORWARDING then with_ports r (erpp_port_status (port0 (node r))) BLOCK else r.

Definition erpp_packet_hello_process (buff : erpp_frame) e : M T G Z :=
  let temp_ring_id := pkt_ring_id (packet buff) in
  own ← own_packet buff;
  r ← ring_at e (temp_ring_id - 1);
  if negb own then erpp_send_packet (relay r buff);; mret 0
  else if erpp_node_status (node r) =? NODE_FAIL then
    let r := close_secondary (with_node_status r NODE_COMPLETE) in
    let e := with_packet_ring (set_ring (with_flush e 1) (temp_ring_id - 1) r) temp_ring_id in
    c ← erpp_domain_update e;
    if negb (c =? 0) then mret 1
    else
      erpp_tx_type_packet e COMPLETE_FLUSH_PACKET (netif_index (port0 (node r)));;
      erpp_tx_type_packet e COMPLETE_FLUSH_PACKET (netif_index (port1 (node r)));;
      mret 0
  else
    let e := with_counts e (timer_count_0 e) (fail_timer e) (timer_count_2 e) in
    update_result (set_ring e (temp_ring_id - 1) (close_secondary r)).

(** A transit node opens its ports. *)
Definition complete_ring r : erpp_ring_s :=
  if erpp_node_status (node r) =? PRE_FORWARDING then
    let r := with_node_status r LINK_UP in
    if (erpp_port_status (port0 (node r)) =? BLOCK) || (erpp_port_status (port1 (node r)) =? BLOCK)
    then with_ports r FORWARDING FORWARDING else r
  else r.

Definition erpp_packet_complete_flush_process (buff : erpp_frame) e : M T G Z :=
  let temp_ring_id := pkt_ring_id (packet buff) in
  own ← own_packet buff;
  e ← (if negb own then
         r ← ring_at e (temp_ring_id - 1);
         erpp_send_packet (relay r buff);;
         mret (set_ring e (temp_ring_id - 1) (complete_ring r))
       else mret e);
  update_result (with_flush e 1).

Definition erpp_packet_common_flush_process (buff : erpp_frame) e : M T G Z := update_result (with_flush e 1).

Definition erpp_packet_link_down_process (buff : erpp_frame) e : M T G Z :=
  let temp_ring_id := pkt_ring_id (packet buff) in
  r ← ring_at e (temp_ring_id - 1);
  if negb (erpp_node_role (node r) =? NODE_MASTER) then erpp_send_packet (relay r buff);; mret 0
  else
    let r := with_node_status (with_ports r FORWARDING (if level r =? 1 then FORWARDING else BLOCK)) NODE_FAIL in
    let e := with_packet_ring (with_flush (set_ring e (temp_ring_id - 1) r) 1) temp_ring_id in
    erpp_tx_type_packet e COMMON_FLUSH_PACKET (netif_index (port0 (node r)));;
    erpp_tx_type_packet e COMMON_FLUSH_PACKET (netif_index (port1 (node r)));;
    update_result e.

(** The assistant edge is looked up at [ring[temp_ring_id]]. *)
Definition erpp_packet_edge_hello_process (buff : erpp_frame) e : M T G Z :=
  let temp_ring_id := pkt_ring_id (packet buff) in
  own ← own_packet buff;
  if (own : bool) then update_result (with_counts e (hello_timer e) (timer_count_1 e) (timer_count_2 e))
  else
    r ← ring_at e temp_ring_id;
    if erpp_node_role (node r) =? NODE_ASSISTANT_EDGE then
      let e := with_counts e (timer_count_0 e) (timer_count_1 e) (fault_timer e) in
      update_result (set_ring e temp_ring_id (with_node_status r ERPP_LINK_NORMAL))
    else
      r ← ring_at e (temp_ring_id - 1);
      erpp_send_packet (relay r buff);; mret 0.

Definition erpp_packet_fault_process (buff : erpp_frame) e : M T G Z :=
  let temp_ring_id := pkt_ring_id (packet buff) in
  r ← ring_at e (temp_ring_id - 1);
  if erpp_node_role (node r) =? NODE_EDGE then
    let r := if erpp_port_status (port1 (node r)) =? FORWARDING
             then with_ports r (erpp_port_status (port0 (node r))) BLOCK else r in
    update_result (set_ring e (temp_ring_id - 1) r)
  else
    own ← own_packet buff;
    if (own : bool) then mret 0 else erpp_send_packet (relay r buff);; mret 0.

Definition erpp_packet_rx_hander (buff : erpp_frame) e (packet_type : Z) : M T G Z :=
  if packet_type =? HELLO_PACKET then erpp_packet_hello_process buff e
  else if packet_type =? COMPLETE_FLUSH_PACKET then erpp_packet_complete_flush_process buff e
  else if packet_type =? COMMON_FLUSH_PACKET then erpp_packet_common_flush_process buff e
  else if packet_type =? LINK_DOWN_PACKET then erpp_packet_link_down_process buff e
  else if packet_type =? EDGE_HELLO_PACKET then erpp_packet_edge_hello_process buff e
  else if packet_type =? FAULT_PACKET then erpp_packet_fault_process buff e
  else mret 0.

(** [buff] holds a frame of full length, whatever [len] says. *)
Definition erpp_packet_rx_callback (buff : erpp_frame) (len : Z) : M T G Z :=
  if len <=? 0 then mret 0
  else if ERPP_RING_SIZE <? pkt_ring_id (packet buff) then mret (-1)
  else
    pthread_mutex_lock;;
    found ← erpp_domain_search (zero_domain (pkt_domain_id (packet buff)));
    match found with
    | None => pthread_mutex_unlock;; mret (-1)
    | Some e =>
        r ← ring_at e (pkt_ring_id (packet buff) - 1);
        if is_enable r =? 0 then pthread_mutex_unlock;; mret (-1)
        else c ← erpp_packet_rx_hander buff e (erpp_type (packet buff)); pthread_mutex_unlock;; mret c
    end.

(** ** Interface events *)

Definition touches (netif : Z) r : bool :=
  (netif =? netif_index (port0 (node r))) || (netif =? netif_index (port1 (node r))).

Definition is_master r : bool := erpp_node_role (node r) =? NODE_MASTER.

(** The states of the two ports. *)
Definition ports_are r (s0 s1 : Z) : bool :=
  (s0 =? erpp_port_status (port0 (node r))) && (s1 =? erpp_port_status (port1 (node r))).

Definition linkup_ring (netif : Z) r : erpp_ring_s :=
  let s0 := erpp_port_status (port0 (node r)) in
  let s1 := erpp_port_status (port1 (node r)) in
  if ports_are r BLOCK BLOCK then
    if netif =? netif_index (port0 (node r)) then
      if is_master r then with_ports r FORWARDING s1 else with_node_status r PRE_FORWARDING
    else if is_master r then with_ports r s0 FORWARDING else with_node_status r PRE_FORWARDING
  else if ports_are r FORWARDING BLOCK then
    if netif =? netif_index (port1 (node r)) then
      if negb (is_master r) then with_node_status r PRE_FORWARDING else r
    else r
  else if ports_are r BLOCK FORWARDING then
    if netif =? netif_index (port0 (node r)) then
      if is_master r then with_ports r FORWARDING BLOCK else with_node_status r PRE_FORWARDING
    else r
  else
    if is_master r then with_ports r FORWARDING BLOCK
    else with_ports (with_node_status r PRE_FORWARDING) BLOCK BLOCK.

(** The body of the ring loop of a link event: enabled rings with the
    interface are changed and the entry is stored, failures being logged. *)
Definition event_ring (netif : Z) (change : Z -> erpp_domain_s -> erpp_ring_s -> M T G erpp_domain_s) (rid : Z) e
  : M T G erpp_domain_s :=
  r ← ring_at e (rid - 1);
  if negb (is_enable r =? 0) && touches netif r then
    e ← change rid e r; erpp_domain_update e;; mret e
  else mret e.

(** [for (ring_id = 1; ring_id < ERPP_RING_SIZE; ring_id++)] *)
Definition event_rings : list Z := seqZ 1 (ERPP_RING_SIZE - 1).

Definition linkup_change (netif rid : Z) e r : M T G erpp_domain_s := mret (set_ring e (rid - 1) (linkup_ring netif r)).

Definition erpp_app_event_linkup (netif : Z) : M T G Z :=
  pthread_mutex_lock;;
  for_each_domain (ring_loop event_rings (event_ring netif (linkup_change netif)));;
  pthread_mutex_unlock;; mret 0.

(** The ring becomes [r] and a packet leaves for it. *)
Definition change_and_tx (rid : Z) e r (type netif : Z) : M T G erpp_domain_s :=
  let e := with_packet_ring (set_ring e (rid - 1) r) rid in
  erpp_tx_type_packet e type netif;; mret e.

Definition linkdown_change (netif rid : Z) e r : M T G erpp_domain_s :=
  let n0 := netif_index (port0 (node r)) in
  let n1 := netif_index (port1 (node r)) in
  let s0 := erpp_port_status (port0 (node r)) in
  let s1 := erpp_port_status (port1 (node r)) in
  if ports_are r FORWARDING BLOCK then
    if netif =? n0 then
      if is_master r then change_and_tx rid e (with_ports r BLOCK FORWARDING) COMMON_FLUSH_PACKET n1
      else change_and_tx rid e (with_ports r BLOCK s1) LINK_DOWN n1
    else if negb (is_master r) then erpp_tx_type_packet e LINK_DOWN n0;; mret e
    else mret e
  else if ports_are r BLOCK FORWARDING then
    if netif =? n1 then
      if is_master r then change_and_tx rid e (with_ports r s0 BLOCK) COMMON_FLUSH_PACKET n0
      else change_and_tx rid e (with_node_status (with_ports r s0 BLOCK) LINK_DOWN) LINK_DOWN_PACKET n0
    else mret e
  else if ports_are r FORWARDING FORWARDING then
    if netif =? n0 then
      if is_master r then change_and_tx rid e (with_ports r BLOCK FORWARDING) COMMON_FLUSH_PACKET n1
      else change_and_tx rid e (with_node_status (with_ports r BLOCK s1) LINK_DOWN) LINK_DOWN_PACKET n1
    else
      if is_master r then change_and_tx rid e (with_ports r FORWARDING BLOCK) COMMON_FLUSH_PACKET n0
      else change_and_tx rid e (with_node_status (with_ports r s0 BLOCK) LINK_DOWN) LINK_DOWN_PACKET n0
  else mret e.

Definition erpp_app_event_linkdown (netif : Z) : M T G Z :=
  pthread_mutex_lock;;
  for_each_domain (ring_loop event_rings (event_ring netif (linkdown_change netif)));;
  pthread_mutex_unlock;; mret 0.

Definition PORT_NOTIFIER_LINKUP_E : Z := 0.
Definition PORT_NOTIFIER_LINKDOWN_E : Z := 1.

(** The handlers of the other events are empty. *)
Definition erpp_netif_event_callback (netif event : Z) : M T G Z :=
  st ← get_state;
  match st_get (erpp_global_array st) 0 with
  | None => mret (-1)
  | Some x =>
      if x =? 0 then mret 0
      else if event =? PORT_NOTIFIER_LINKUP_E then erpp_app_event_linkup netif;; mret 0
      else if event =? PORT_NOTIFIER_LINKDOWN_E then erpp_app_event_linkdown netif;; mret 0
      else mret 0
  end.

(** [erpp_ring_id_get_from_netif]: two increments per iteration. *)
Fixpoint ring_of_netif (n : nat) (netif i : Z) e : M T G Z :=
  match n with
  | O => no_fuel
  | S n =>
      if i <? ERPP_RING_SIZE then
        r ← ring_at e i;
        if touches netif r then mret (i + 1) else ring_of_netif n netif (i + 2) e
      else mret 0
  end.

Fixpoint ring_id_loop (n : nat) (netif : Z) e : M T G Z :=
  match n with
  | O => no_fuel
  | S n =>
      next ← erpp_domain_get_next e;
      match next with
      | None => mret 0
      | Some e =>
          c ← ring_of_netif 3 netif 0 e;
          if negb (c =? 0) then mret c else ring_id_loop n netif e
      end
  end.

Definition erpp_ring_id_get_from_netif (netif : Z) : M T G Z :=
  ring_id_loop (Z.to_nat (ERPP_DOMAIN_SIZE + 2)) netif (zero_domain 0).

(** ** Timer *)

(** A master sends a hello, and gives up on a ring whose hellos do not come
    back. *)
Definition timer_hello (i : Z) e r : M T G erpp_domain_s :=
  if timer_count_0 e =? 0 then
    let e := with_packet_ring (with_counts e (hello_timer e) (timer_count_1 e) (timer_count_2 e)) i in
    erpp_tx_type_packet e HELLO_PACKET (netif_index (port0 (node r)));; mret e
  else mret e.

Definition timer_fail (i : Z) e r : M T G erpp_domain_s :=
  if timer_count_1 e =? 0 then
    let r := with_node_status (with_ports r (erpp_port_status (port0 (node r))) FORWARDING) NODE_FAIL in
    let e := with_counts e (timer_count_0 e) (fail_timer e) (timer_count_2 e) in
    let e := with_packet_ring (set_ring (with_flush e 1) (i - 1) r) i in
    erpp_tx_type_packet e COMMON_FLUSH_PACKET (netif_index (port0 (node r)));; mret e
  else mret e.

(** The body of the ring loop for the ring numbered [i]. *)
Definition timer_ring (i : Z) e : M T G erpp_domain_s :=
  r ← ring_at e (i - 1);
  if is_enable r =? 0 then mret e
  else if erpp_node_role (node r) =? NODE_MASTER then
    e ← timer_hello i e r;
    e ← timer_fail i e r;
    c0 ← decr (timer_count_0 e);
    c1 ← decr (timer_count_1 e);
    mret (with_counts e c0 c1 (timer_count_2 e))
  else if erpp_node_role (node r) =? NODE_EDGE then
    e ← (if timer_count_0 e =? 0 then
           let e := with_packet_ring (with_counts e (hello_timer e) (timer_count_1 e) (timer_count_2 e)) (i - 1) in
           r0 ← ring_at e 0;
           erpp_tx_type_packet e EDGE_HELLO_PACKET (netif_index (port0 (node r0)));;
           erpp_tx_type_packet e EDGE_HELLO_PACKET (netif_index (port1 (node r0)));; mret e
         else mret e);
    c0 ← decr (timer_count_0 e);
    mret (with_counts e c0 (timer_count_1 e) (timer_count_2 e))
  else if erpp_node_role (node r) =? NODE_ASSISTANT_EDGE then
    e ← (if timer_count_2 e =? 0 then
           let e := with_packet_ring (set_ring e (i - 1) (with_node_status r ERPP_LINK_FAIL)) i in
           erpp_tx_type_packet e FAULT_PACKET (netif_index (port0 (node r)));; mret e
         else mret e);
    c2 ← decr (timer_count_2 e);
    mret (with_counts e (timer_count_0 e) (timer_count_1 e) c2)
  else mret e.

(** [for (i = 1; i < ERPP_RING_SIZE+1; i++)] and the update; the entry is
    handed back to the loop over the domains. *)
Definition erpp_domain_timer_handler e : M T G erpp_domain_s :=
  e ← ring_loop (seqZ 1 ERPP_RING_SIZE) timer_ring e;
  erpp_domain_update e;; mret e.

Definition erpp_timer_handler : M T G Z :=
  st ← get_state;
  match st_get (erpp_global_array st) 0 with
  | None => mret 1
  | Some x =>
      if x =? 0 then mret 1
      else pthread_mutex_lock;; for_each_domain erpp_domain_timer_handler;; pthread_mutex_unlock;; mret 0
  end.

Definition NOTIFIER_SWITCHOVER : Z := 20.

(** [active] is the answer of [app_act_master_running], asked at a
    switchover; the database library is told as well, which only concerns
    its replication. *)
Definition erpp_app_event_handler (active : bool) (netif event : Z) : M T G unit :=
  if event =? NOTIFIER_SWITCHOVER then set_active active
  else erpp_netif_event_callback netif event;; mret tt.

End daemon.

(** ** Start *)

#[export] Instance erpp_port_eq : EqDecision erpp_port_s.
Proof. solve_decision. Defined.
#[export] Instance erpp_node_eq : EqDecision erpp_node_s.
Proof. solve_decision. Defined.
#[export] Instance erpp_ring_eq : EqDecision erpp_ring_s.
Proof. solve_decision. Defined.
#[export] Instance erpp_domain_eq : EqDecision erpp_domain_s.
Proof. solve_decision. Defined.

(** The callbacks of the two tables as the library sees them: the requests
    of [erpp_handle_update] are made by [erpp_domain_update]. *)
Definition erpp_domain_ops : db_ops erpp_domain_s :=
  {| handle_update := Some (fun _ _ => 0); handle_insert := Some (fun _ => 0); handle_delete := None;
     app_handle_update := None; app_handle_delete := None; platform_db_sync := Some (fun _ => 0);
     platform_relay_flag := false; same_sync_part := fun x y => bool_decide (x = y); keep_local := fun new _ => new;
     entry_hton := fun d => d; entry_ntoh := fun d => d; zero_entry := zero_domain 0; have_sync := true |}.

Definition erpp_global_ops : db_ops Z :=
  {| handle_update := None; handle_insert := None; handle_delete := None;
     app_handle_update := None; app_handle_delete := None; platform_db_sync := Some (fun _ => 0);
     platform_relay_flag := false; same_sync_part := fun x y => bool_decide (x = y); keep_local := fun new _ => new;
     entry_hton := fun d => d; entry_ntoh := fun d => d; zero_entry := 0; have_sync := true |}.

#[export] Instance erpp_domain_store : ArrayStore (db_table_t erpp_domain_s) erpp_domain_s :=
  database_store erpp_domain_ops (zero_domain 0) 0.
#[export] Instance erpp_domain_store_laws : ArrayStoreLaws (db_table_t erpp_domain_s) erpp_domain_s :=
  database_store_laws erpp_domain_ops (zero_domain 0) 0.
#[export] Instance erpp_global_store : ArrayStore (db_table_t Z) Z := database_store erpp_global_ops 0 0.
#[export] Instance erpp_global_store_laws : ArrayStoreLaws (db_table_t Z) Z := database_store_laws erpp_global_ops 0 0.

(** [sizeof(struct erpp_domain_s)] is 220; [DB_SYNC_ALL] is 1. *)
Definition erpp_db_init (active : bool) (mac : list Z)
  : option (Z * erpp_state (db_table_t erpp_domain_s) (db_table_t Z)) :=
  let domains := dbtable_create_array_index (create_dbtable (ERPP_DOMAIN_SIZE + 1) 220 1) in
  let global := dbtable_create_array_index (create_dbtable 1 4 1) in
  '(c, _, global) ← dbtable_array_insert erpp_global_ops global 0 0 0;
  Some (c, ERPP domains global active false [] [] mac).
