(* ===== verification/ErppRings.v ===== *)
(** * ERPP: the rings stay loop-free and the daemon keeps running

    A small program logic for the monad of [Erpp], the invariants of the
    domains and of the state, and the properties of the daemon under any
    sequence of commands, packets, link events and timer ticks. *)

From Stdlib Require Import ZArith Lia Bool.
From stdpp Require Import base decidable list gmap.
From S2P Require Import Prelude Database ArrayStore Erpp.

Open Scope Z_scope.

(** ** Triples

    [triple total P m Q]: from a state with [P], [m] returns a value and a
    state with [Q]; with [total = false] it may also fail to return. *)

Section triples.
Context {T G : Type}.

Definition ends {A} (total : bool) (x : outcome (A * erpp_state T G)) (Q : A -> erpp_state T G -> Prop) : Prop :=
  match x with Done (a, st) => Q a st | _ => total = false end.

Definition triple {A} (total : bool) (P : erpp_state T G -> Prop) (m : M T G A) (Q : A -> erpp_state T G -> Prop) : Prop :=
  forall st, P st -> ends total (m st) Q.

Lemma triple_ret {A} t (P : erpp_state T G -> Prop) (a : A) (Q : A -> erpp_state T G -> Prop) :
  (forall st, P st -> Q a st) -> triple t P (mret a) Q.
Proof. intros H st Hp. by apply H. Qed.

Lemma triple_bind {A B} t P (m : M T G A) (f : A -> M T G B) R Q :
  triple t P m R -> (forall a, triple t (R a) (f a) Q) -> triple t P (m ≫= f) Q.
Proof.
  intros Hm Hf st Hp. specialize (Hm st Hp). unfold mbind, M_bind, ends in *.
  destruct (m st) as [[a st']| | |]; [|done..]. by apply Hf.
Qed.

Lemma triple_conseq {A} t (P P' : erpp_state T G -> Prop) (m : M T G A) (Q Q' : A -> erpp_state T G -> Prop) :
  triple t P m Q -> (forall st, P' st -> P st) -> (forall a st, Q a st -> Q' a st) -> triple t P' m Q'.
Proof.
  intros Hm HP HQ st Hp. specialize (Hm st (HP st Hp)). unfold ends in *.
  destruct (m st) as [[a st']| | |]; [|done..]. by apply HQ.
Qed.

Lemma triple_get {B} t P (f : erpp_state T G -> M T G B) Q :
  (forall st0, triple t (fun st => st = st0 /\ P st) (f st0) Q) -> triple t P (get_state ≫= f) Q.
Proof. intros H st Hp. unfold mbind, M_bind, get_state. by apply H. Qed.

Lemma triple_pure {A} t (P : Prop) (R : erpp_state T G -> Prop) (m : M T G A) Q :
  (P -> triple t R m Q) -> triple t (fun st => P /\ R st) m Q.
Proof. intros H st [Hp Hr]. by apply H. Qed.

End triples.

(** ** An invariant of the stored domains *)

Section invariant.
Context {T G : Type} `{!ArrayStore T erpp_domain_s, !ArrayStoreLaws T erpp_domain_s}.
Context `{!ArrayStore G Z, !ArrayStoreLaws G Z}.
Implicit Types (e : erpp_domain_s) (st : erpp_state T G).

Definition domains st : gmap Z erpp_domain_s := st_view (erpp_domain_db st).

(** A good table of nine domains, each stored under its own number and with
    [P]; the system address is [mac] and the mutex is as [mu]
    says. *)
Record inv (P : erpp_domain_s -> Prop) (mac : list Z) (mu : bool -> Prop) st : Prop := {
  inv_store : st_ok (erpp_domain_db st);
  inv_size : st_size (erpp_domain_db st) = ERPP_DOMAIN_SIZE + 1;
  inv_global : st_ok (erpp_global_array st);
  inv_domains : forall i e, domains st !! i = Some e -> domain_id e = i /\ P e;
  inv_mac : SysMac st = mac;
  inv_mutex : mu (semErppMutex st)
}.

Context (P : erpp_domain_s -> Prop) (mac : list Z).

Definition good e : Prop := P e /\ 0 <= domain_id e <= ERPP_DOMAIN_SIZE.

Definition keeps {A} (t : bool) (mu : bool -> Prop) (m : M T G A) (Q : A -> Prop) : Prop :=
  triple t (inv P mac mu) m (fun a st => inv P mac mu st /\ Q a).

Lemma inv_range mu st i e : inv P mac mu st -> domains st !! i = Some e -> 0 <= i <= ERPP_DOMAIN_SIZE.
Proof.
  intros [H1 H2 _ _ _ _] Hi. pose proof (st_view_range _ i H1) as H. rewrite H2 in H.
  specialize (H ltac:(by exists e)). lia.
Qed.

Lemma stored_good mu st i e : inv P mac mu st -> domains st !! i = Some e -> good e.
Proof.
  intros Hi He. destruct (inv_domains _ _ _ _ Hi _ _ He) as [Hd Hp]. pose proof (inv_range mu st _ _ Hi He).
  split; [done|lia].
Qed.

Lemma keeps_ret {A} t mu (a : A) (Q : A -> Prop) : Q a -> keeps t mu (mret a) Q.
Proof. intros H. apply triple_ret. auto. Qed.

Lemma keeps_bind {A B} t mu (m : M T G A) (f : A -> M T G B) R Q :
  keeps t mu m R -> (forall a, R a -> keeps t mu (f a) Q) -> keeps t mu (m ≫= f) Q.
Proof. intros Hm Hf. eapply triple_bind; [exact Hm|]. intros a st [Hi Hr]. by apply Hf. Qed.

Lemma keeps_then {A B} t mu (m : M T G A) (f : A -> M T G B) R Q :
  keeps t mu m R -> (forall a, R a -> triple t (inv P mac mu) (f a) Q) -> triple t (inv P mac mu) (m ≫= f) Q.
Proof. intros Hm Hf. eapply triple_bind; [exact Hm|]. intros a st [Hi Hr]. by apply Hf. Qed.

Lemma keeps_weaken {A} t mu (m : M T G A) (Q Q' : A -> Prop) :
  keeps t mu m Q -> (forall a, Q a -> Q' a) -> keeps t mu m Q'.
Proof. intros Hm HQ. eapply triple_conseq; [exact Hm|done|]. intros a st [Hi Hq]. auto. Qed.

Lemma keeps_search t mu e :
  keeps t mu (erpp_domain_search e) (fun o => forall e', o = Some e' -> good e' /\ domain_id e' = u32 (domain_id e)).
Proof.
  intros st Hi. unfold erpp_domain_search, mbind, M_bind, get_state, mret, M_ret, ends. split; [done|].
  intros e'. rewrite st_get_view by (by eapply inv_store). intros He.
  split; [by eapply stored_good|]. by destruct (inv_domains _ _ _ _ Hi _ _ He).
Qed.

Lemma search_bind {B} e (f : option erpp_domain_s -> M T G B) st :
  (erpp_domain_search e ≫= f) st = f (st_get (erpp_domain_db st) (u32 (domain_id e))) st.
Proof. done. Qed.

Lemma keeps_send t mu f : keeps t mu (erpp_send_packet f) (fun _ => True).
Proof. by intros st [? ? ? ? ? ?]. Qed.

Lemma keeps_own t mu buff : keeps t mu (own_packet buff) (fun own => own = bool_decide (sys_mac (packet buff) = mac)).
Proof. intros st Hi. unfold own_packet, mbind, M_bind, get_state, mret, M_ret, ends. by rewrite (inv_mac _ _ _ _ Hi). Qed.

(** Storing an entry, whose number must be its own if it is in use. *)
Lemma update_triple t mu e (R : erpp_state T G -> Prop) :
  (forall st, inv P mac mu st -> R st -> is_Some (domains st !! u32 (domain_id e)) -> P e /\ u32 (domain_id e) = domain_id e) ->
  triple t (fun st => inv P mac mu st /\ R st) (erpp_domain_update e) (fun _ st => inv P mac mu st).
Proof.
  intros He st [Hi HR]. specialize (He st Hi HR). destruct Hi as [H1 H2 H3 H4 Hmac H5].
  unfold erpp_domain_update, mbind, M_bind, get_state, lift, ends.
  destruct (st_view (erpp_domain_db st) !! u32 (domain_id e)) as [old|] eqn:Eo.
  - destruct (st_update_some (erpp_domain_db st) (u32 (domain_id e)) e H1) as (t' & -> & Hok & Hs & Hv);
      [by exists old|]. cbn. split; cbn; try done; [by rewrite Hs|]. unfold domains. cbn. rewrite Hv. intros i x.
    destruct He as [Hp Hd]; [by exists old|]. destruct (decide (u32 (domain_id e) = i)) as [Ei|].
    + rewrite <- Ei, lookup_insert_eq. intros [= <-]. split; [by symmetry|done].
    + rewrite lookup_insert_ne by done. apply H4.
  - destruct (st_update_none (erpp_domain_db st) (u32 (domain_id e)) e H1 Eo) as (t' & -> & Hok & Hs & Hv). cbn.
    split; cbn; try done; [by rewrite Hs|]. unfold domains. cbn. rewrite Hv. apply H4.
Qed.

Lemma u32_id e : 0 <= domain_id e <= ERPP_DOMAIN_SIZE -> u32 (domain_id e) = domain_id e.
Proof. intros H. apply u32_small. unfold u32_range, ERPP_DOMAIN_SIZE in *. lia. Qed.

Lemma keeps_update t mu e : good e -> keeps t mu (erpp_domain_update e) (fun _ => True).
Proof.
  intros [Hp Hr]. apply triple_conseq with (fun st => inv P mac mu st /\ True) (fun _ st => inv P mac mu st); [|auto|auto].
  apply update_triple. intros st _ _ _. split; [done|]. by apply u32_id.
Qed.

(** ** Loops *)

Lemma keeps_get_next_loop t mu n e :
  0 <= domain_id e <= ERPP_DOMAIN_SIZE -> ERPP_DOMAIN_SIZE - domain_id e < Z.of_nat n ->
  keeps t mu (get_next_loop n e) (fun o => forall e', o = Some e' -> good e' /\ domain_id e < domain_id e').
Proof.
  revert e. induction n as [|n IH]; intros e He Hn; [lia|]. cbn [get_next_loop]. set (e1 := with_domain_id e _).
  assert (domain_id e1 = domain_id e + 1) as E1 by done. destruct (Z.leb_spec (domain_id e1) ERPP_DOMAIN_SIZE).
  - eapply keeps_bind; [apply keeps_search|]. intros [e'|] Hs.
    + destruct (Hs e' eq_refl) as [Hg Hd]. apply keeps_ret. intros ? [= <-]. split; [done|].
      rewrite u32_id in Hd by lia. lia.
    + eapply keeps_weaken; [apply IH; lia|]. intros o Ho e' He'. destruct (Ho e' He') as [Hg Hlt]. split; [done|lia].
  - by apply keeps_ret.
Qed.

Lemma keeps_domain_loop t mu n body e :
  (forall e, good e -> keeps t mu (body e) (fun e' => good e' /\ domain_id e' = domain_id e)) ->
  0 <= domain_id e <= ERPP_DOMAIN_SIZE -> ERPP_DOMAIN_SIZE - domain_id e < Z.of_nat n ->
  keeps t mu (domain_loop n body e) (fun _ => True).
Proof.
  intros Hb. revert e. induction n as [|n IH]; intros e He Hn; [lia|]. cbn [domain_loop].
  eapply keeps_bind; [apply keeps_get_next_loop; [done|unfold ERPP_DOMAIN_SIZE in *; lia]|]. intros [e1|] H1; [|by apply keeps_ret].
  destruct (H1 e1 eq_refl) as [Hg Hlt]. eapply keeps_bind; [by apply Hb|]. intros e2 [[_ H2] Hd].
  apply IH; lia.
Qed.

Lemma keeps_for_each t mu body :
  (forall e, good e -> keeps t mu (body e) (fun e' => good e' /\ domain_id e' = domain_id e)) ->
  keeps t mu (for_each_domain body) (fun _ => True).
Proof. intros Hb. by apply keeps_domain_loop. Qed.

Lemma keeps_ring_loop t mu l body e :
  (forall k e, k ∈ l -> good e -> keeps t mu (body k e) (fun e' => good e' /\ domain_id e' = domain_id e)) ->
  good e -> keeps t mu (ring_loop l body e) (fun e' => good e' /\ domain_id e' = domain_id e).
Proof.
  revert e. induction l as [|k l IH]; intros e Hb He; cbn [ring_loop]; [by apply keeps_ret|].
  eapply keeps_bind; [apply Hb; [by left|done]|]. intros e1 [Hg <-]. apply IH; [|done].
  intros k' e' Hk. apply Hb. by right.
Qed.

End invariant.

(** ** The rings of a domain *)

(** A configured master that believes the ring complete does not forward on
    both ports. *)
Definition loop_free (r : erpp_ring_s) : Prop :=
  ring_id r <> 0 -> is_master r = true ->
  (erpp_node_status (node r) = NODE_COMPLETE \/ erpp_node_status (node r) = NODE_FAIL) /\
  (erpp_node_status (node r) = NODE_COMPLETE -> ports_are r FORWARDING FORWARDING = false).

(** A node that is no edge of another ring. *)
Definition plain_node (r : erpp_ring_s) : Prop :=
  erpp_node_role (node r) = NODE_MASTER \/ erpp_node_role (node r) = NODE_TRANSMIT.

Definition ring_ok (t : bool) (r : erpp_ring_s) : Prop := loop_free r /\ (t = true -> plain_node r).

Definition timers_ok (e : erpp_domain_s) : Prop :=
  1 <= hello_timer e /\ 1 <= fail_timer e /\ 0 <= timer_count_0 e /\ 0 <= timer_count_1 e.

(** A packet can be built for the ring of the last packet, or no ring needs
    it: a node that is not the master sends one when its blocked secondary
    port goes down. *)
Definition no_packet_due (r : erpp_ring_s) : Prop := is_master r = false -> ports_are r FORWARDING BLOCK = false.
Definition tx_ready (e : erpp_domain_s) : Prop := 1 <= packet_ring e <= ERPP_RING_SIZE \/ Forall no_packet_due (ring e).

(** With [t], also what the daemon needs to keep running. *)
Record domain_ok (t : bool) (e : erpp_domain_s) : Prop := {
  ok_length : length (ring e) = 4%nat;
  ok_rings : Forall (ring_ok t) (ring e);
  ok_timers : t = true -> timers_ok e;
  ok_tx : t = true -> tx_ready e
}.

Lemma rd_Forall {A} (P : A -> Prop) (l : list A) k x : Forall P l -> rd l k = Some x -> P x.
Proof.
  unfold rd. destruct (0 <=? k); [|done]. intros Hl Hx. rewrite Forall_lookup in Hl. by eapply Hl.
Qed.

Lemma domain_ok_rd t e k r : domain_ok t e -> rd (ring e) k = Some r -> ring_ok t r.
Proof. intros [_ H _ _]. by apply rd_Forall. Qed.

(** Assignments keep [domain_ok]. *)
Lemma domain_ok_set t e k r :
  domain_ok t e -> ring_ok t r -> (t = true -> 1 <= packet_ring e <= ERPP_RING_SIZE \/ no_packet_due r) ->
  domain_ok t (set_ring e k r).
Proof.
  intros [H1 H2 H3 H4] Hr Ht. split; cbn.
  - by rewrite length_insert.
  - by apply Forall_insert.
  - exact H3.
  - intros E. destruct (H4 E) as [Hp|Hf]; [by left|]. destruct (Ht E) as [Hp|Hn]; [by left|right].
    by apply Forall_insert.
Qed.

Lemma domain_ok_packet_ring t e i :
  domain_ok t e -> (t = true -> 1 <= i <= ERPP_RING_SIZE) -> domain_ok t (with_packet_ring e i).
Proof. intros [H1 H2 H3 H4] Hi. split; try done. intros E. left. by apply Hi. Qed.

Lemma domain_ok_counts t e c0 c1 c2 :
  domain_ok t e -> (t = true -> 0 <= c0 /\ 0 <= c1) -> domain_ok t (with_counts e c0 c1 c2).
Proof. intros [H1 H2 H3 H4] Hc. split; try done. intros E. specialize (H3 E). specialize (Hc E). unfold timers_ok in *. cbn. lia. Qed.

Lemma domain_ok_timers t e h f g :
  domain_ok t e -> (t = true -> 1 <= h /\ 1 <= f) -> domain_ok t (with_timers e h f g).
Proof. intros [H1 H2 H3 H4] Hc. split; try done. intros E. specialize (H3 E). specialize (Hc E). unfold timers_ok in *. cbn. lia. Qed.

Lemma domain_ok_flush t e x : domain_ok t e -> domain_ok t (with_flush e x).
Proof. by intros [? ? ? ?]. Qed.

Lemma domain_ok_vlan t e x : domain_ok t e -> domain_ok t (with_vlan e x).
Proof. by intros [? ? ? ?]. Qed.

Lemma domain_ok_instance t e x : domain_ok t e -> domain_ok t (with_instance e x).
Proof. by intros [? ? ? ?]. Qed.

(** Setting a ring and its number for the next packet. *)
Lemma domain_ok_set_tx t e k r i :
  domain_ok t e -> ring_ok t r -> (t = true -> 1 <= i <= ERPP_RING_SIZE) ->
  domain_ok t (with_packet_ring (set_ring e k r) i).
Proof.
  intros He Hr Hi. change (domain_ok t (set_ring (with_packet_ring e i) k r)).
  apply domain_ok_set; [by apply domain_ok_packet_ring|done|]. intros E. left. by apply Hi.
Qed.

Create HintDb erpp.
#[export] Hint Resolve domain_ok_set_tx domain_ok_packet_ring domain_ok_flush domain_ok_vlan domain_ok_instance : erpp.

(** What the operations do to a ring. *)

#[local] Arguments Z.eqb : simpl never.

(** Case analysis on the comparisons of a ring. *)
Ltac ring_cases :=
  repeat match goal with
    | |- context [?a =? ?b] => destruct (Z.eqb_spec a b); cbn in *; try done; try lia
    | H : context [?a =? ?b] |- _ => destruct (Z.eqb_spec a b); cbn in *; try done; try lia
    end.

Ltac ring_open r :=
  destruct r as [ri lv en [ro ns [n0 r0 s0] [n1 r1 s1]]];
  unfold linkup_ring, close_secondary, complete_ring, ring_configure, ring_mode in *;
  unfold ring_ok, loop_free, plain_node, no_packet_due, is_master, ports_are, with_ports, with_node_status, with_node, set_status,
    NODE_MASTER, NODE_TRANSMIT, NODE_EDGE, NODE_ASSISTANT_EDGE, NODE_COMPLETE, NODE_FAIL,
    LINK_UP, PRE_FORWARDING, FORWARDING, BLOCK in *; cbn in *.

Lemma linkup_ring_ok t netif r : ring_ok t r -> ring_ok t (linkup_ring netif r).
Proof. intros H. ring_open r. destruct H as [H1 H2]. ring_cases; intuition lia. Qed.

Lemma linkup_no_packet netif r : no_packet_due r -> no_packet_due (linkup_ring netif r).
Proof. intros H. ring_open r. ring_cases; intuition (try lia; try discriminate). Qed.

Lemma close_secondary_ok t r : ring_ok t r -> ring_ok t (close_secondary (with_node_status r NODE_COMPLETE)).
Proof. intros H. ring_open r. destruct H as [H1 H2]. ring_cases; intuition lia. Qed.

Lemma close_ok t r : ring_ok t r -> ring_ok t (close_secondary r).
Proof. intros H. ring_open r. destruct H as [H1 H2]. ring_cases; intuition lia. Qed.

Lemma complete_ring_ok t r : ring_ok t r -> ring_ok t (complete_ring r).
Proof. intros H. ring_open r. destruct H as [H1 H2]. ring_cases; intuition lia. Qed.

Lemma complete_no_packet r : no_packet_due r -> no_packet_due (complete_ring r).
Proof. intros H. ring_open r. ring_cases; intuition (try lia; try discriminate). Qed.

(** A master that gave up on the ring may forward on both ports. *)
Lemma fail_ok t r a b : ring_ok t r -> ring_ok t (with_node_status (with_ports r a b) NODE_FAIL).
Proof. intros H. ring_open r. destruct H as [H1 H2]. intuition lia. Qed.

(** Nodes that are not the master are free. *)
Lemma other_ok t r r' :
  ring_ok t r -> is_master r = false -> erpp_node_role (node r') = erpp_node_role (node r) -> ring_ok t r'.
Proof.
  unfold ring_ok, loop_free, plain_node, is_master. intros [_ H2] Hm Hr. rewrite Hr, Hm. split; [done|exact H2].
Qed.

(** Ports of a master of which one is not forwarding. *)
Lemma ports_ok t r a b :
  ring_ok t r -> is_master r = true -> (a =? FORWARDING) && (b =? FORWARDING) = false -> ring_ok t (with_ports r a b).
Proof. intros H Hm Hs. ring_open r. destruct H as [H1 H2]. ring_cases; intuition lia. Qed.

Lemma master_no_packet r : is_master r = true -> no_packet_due r.
Proof. intros H H'. congruence. Qed.

Lemma ring_configure_ok t rid mode p s lvl r :
  ring_ok t r -> (t = true -> mode = NODE_MASTER \/ mode = NODE_TRANSMIT) ->
  ring_ok t (ring_configure rid mode p s lvl r).
Proof. intros H Hm. ring_open r. destruct H as [H1 H2]. ring_cases; intuition lia. Qed.

Lemma configure_no_packet rid mode p s lvl r :
  mode = NODE_MASTER \/ mode = NODE_TRANSMIT -> no_packet_due (ring_configure rid mode p s lvl r).
Proof. intros [-> | ->]; ring_open r; done. Qed.

(** ** The operations keep the invariant *)

Section operations.
Context {T G : Type} `{!ArrayStore T erpp_domain_s, !ArrayStoreLaws T erpp_domain_s}.
Context `{!ArrayStore G Z, !ArrayStoreLaws G Z}.
Context (t : bool) (mac : list Z) (mu : bool -> Prop).
Implicit Types (e : erpp_domain_s) (r : erpp_ring_s).

Definition holds {A} (m : M T G A) (Q : A -> Prop) : Prop := keeps (domain_ok t) mac t mu m Q.

Lemma good_intro e e' :
  domain_ok t e' -> good (domain_ok t) e -> domain_id e' = domain_id e ->
  good (domain_ok t) e' /\ domain_id e' = domain_id e.
Proof. intros He' [_ Hr] Hd. split; [split; [done|by rewrite Hd]|done]. Qed.

Lemma rings_length e : domain_ok t e -> zlen (ring e) = ERPP_RING_SIZE.
Proof. intros [H _ _ _]. unfold zlen. by rewrite H. Qed.

Lemma holds_ring_at e k :
  domain_ok t e -> (t = true -> 0 <= k < ERPP_RING_SIZE) -> holds (ring_at e k) (fun r => rd (ring e) k = Some r).
Proof.
  intros He Hk st Hi. unfold ring_at, lift, ends. destruct (rd (ring e) k) as [r|] eqn:E; [done|].
  apply not_true_is_false. intros Et. destruct (rd_lt_Some (ring e) k) as [r Hr]; [|congruence]. rewrite rings_length by done. auto.
Qed.

Lemma holds_tx e type netif :
  domain_ok t e -> (t = true -> 1 <= packet_ring e <= ERPP_RING_SIZE) -> holds (erpp_tx_type_packet e type netif) (fun _ => True).
Proof.
  intros He Hk. eapply keeps_bind; [apply holds_ring_at; [done|]|].
  - intros E. specialize (Hk E). lia.
  - intros r _ st Hi. by destruct Hi.
Qed.

Lemma holds_decr x : (t = true -> 0 <= x) -> holds (decr x) (fun y => y = x - 1).
Proof.
  intros Hx st Hi. unfold decr, lift, ends. destruct (Z.eqb_spec x (- 2 ^ 31)); [|done].
  apply not_true_is_false. intros Et. specialize (Hx Et). lia.
Qed.

Lemma holds_update_result e : good (domain_ok t) e -> holds (update_result e) (fun _ => True).
Proof. intros He. eapply keeps_bind; [by apply keeps_update|]. intros c _. by apply keeps_ret. Qed.

Lemma holds_update_reply e : good (domain_ok t) e -> holds (update_reply e) (fun _ => True).
Proof. intros He. eapply keeps_bind; [by apply keeps_update|]. intros c _. by apply keeps_ret. Qed.

(** Relaying a packet and returning zero. *)
Lemma holds_relay f : holds (erpp_send_packet f;; mret 0) (fun _ => True).
Proof. eapply keeps_bind; [apply keeps_send|]. intros _ _. by apply keeps_ret. Qed.

(** *** Packets *)

Lemma holds_hello buff e :
  good (domain_ok t) e -> (t = true -> 1 <= pkt_ring_id (packet buff) <= ERPP_RING_SIZE) ->
  (forall r, t = true -> rd (ring e) (pkt_ring_id (packet buff) - 1) = Some r -> sys_mac (packet buff) = mac -> is_master r = true) ->
  holds (erpp_packet_hello_process buff e) (fun _ => True).
Proof.
  intros [He Hr] Hk Hm. unfold erpp_packet_hello_process. set (rid := pkt_ring_id (packet buff)) in *.
  eapply keeps_bind; [apply keeps_own|]. intros own Ho.
  eapply keeps_bind; [apply holds_ring_at; [done|intros E; specialize (Hk E); lia]|]. intros r Hrd.
  pose proof (domain_ok_rd _ _ _ _ He Hrd) as Hrok.
  destruct own; cbn [negb]; [|apply holds_relay].
  destruct (erpp_node_status (node r) =? NODE_FAIL).
  - set (e' := with_packet_ring _ _).
    assert (domain_ok t e') as He' by (apply domain_ok_set_tx; [by apply domain_ok_flush|by apply close_secondary_ok|done]).
    eapply keeps_bind; [by apply keeps_update|]. intros c _. destruct (negb (c =? 0)); [by apply keeps_ret|].
    eapply keeps_bind; [by apply holds_tx|]. intros _ _. eapply keeps_bind; [by apply holds_tx|]. intros _ _. by apply keeps_ret.
  - apply holds_update_result. split; [|done]. apply domain_ok_set; [| by apply close_ok|].
    + apply domain_ok_counts; [done|]. intros E. destruct (ok_timers _ _ He E) as (? & ? & ? & ?). lia.
    + intros E. right. apply master_no_packet. symmetry in Ho. apply bool_decide_eq_true in Ho. specialize (Hm r E Hrd Ho).
      unfold close_secondary. by destruct (_ =? _).
Qed.

Lemma holds_complete_flush buff e :
  good (domain_ok t) e -> (t = true -> 1 <= pkt_ring_id (packet buff) <= ERPP_RING_SIZE) ->
  holds (erpp_packet_complete_flush_process buff e) (fun _ => True).
Proof.
  intros [He Hr] Hk. unfold erpp_packet_complete_flush_process. set (rid := pkt_ring_id (packet buff)) in *.
  eapply keeps_bind; [apply keeps_own|]. intros own _.
  eapply (keeps_bind _ _ _ _ _ _ (good (domain_ok t))).
  - destruct own; cbn [negb]; [by apply keeps_ret|].
    eapply keeps_bind; [apply holds_ring_at; [done|intros E; specialize (Hk E); lia]|]. intros r Hrd.
    eapply keeps_bind; [apply keeps_send|]. intros _ _. apply keeps_ret. split; [|done].
    apply domain_ok_set; [done|apply complete_ring_ok; exact (domain_ok_rd _ _ _ _ He Hrd)|].
    intros E. destruct (ok_tx _ _ He E) as [Hp|Hn]; [by left|right]. apply complete_no_packet. exact (rd_Forall _ _ _ _ Hn Hrd).
  - intros e' [He' Hr']. apply holds_update_result. split; [by apply domain_ok_flush|done].
Qed.

Lemma holds_link_down buff e :
  good (domain_ok t) e -> (t = true -> 1 <= pkt_ring_id (packet buff) <= ERPP_RING_SIZE) ->
  holds (erpp_packet_link_down_process buff e) (fun _ => True).
Proof.
  intros [He Hr] Hk. unfold erpp_packet_link_down_process. set (rid := pkt_ring_id (packet buff)) in *.
  eapply keeps_bind; [apply holds_ring_at; [done|intros E; specialize (Hk E); lia]|]. intros r Hrd.
  destruct (negb _); [apply holds_relay|]. set (e' := with_packet_ring _ _).
  assert (domain_ok t e') as He'.
  { change (domain_ok t (with_flush (with_packet_ring (set_ring e (rid - 1)
      (with_node_status (with_ports r FORWARDING (if level r =? 1 then FORWARDING else BLOCK)) NODE_FAIL)) rid) 1)).
    apply domain_ok_flush, domain_ok_set_tx; [done|apply fail_ok; exact (domain_ok_rd _ _ _ _ He Hrd)|done]. }
  eapply keeps_bind; [by apply holds_tx|]. intros _ _. eapply keeps_bind; [by apply holds_tx|]. intros _ _.
  by apply holds_update_result.
Qed.

Lemma holds_edge_hello buff e :
  good (domain_ok t) e -> (t = true -> 1 <= pkt_ring_id (packet buff) < ERPP_RING_SIZE) ->
  holds (erpp_packet_edge_hello_process buff e) (fun _ => True).
Proof.
  intros [He Hr] Hk. unfold erpp_packet_edge_hello_process. set (rid := pkt_ring_id (packet buff)) in *.
  assert (forall c0 c2, (t = true -> 0 <= c0) -> domain_ok t (with_counts e c0 (timer_count_1 e) c2)) as Hc.
  { intros c0 c2 H0. apply domain_ok_counts; [done|]. intros E. destruct (ok_timers _ _ He E) as (? & ? & ? & ?). auto. }
  eapply keeps_bind; [apply keeps_own|]. intros own _. destruct own.
  { apply holds_update_result. split; [|done]. apply Hc. intros E. destruct (ok_timers _ _ He E) as (? & _). lia. }
  eapply keeps_bind; [apply holds_ring_at; [done|intros E; specialize (Hk E); lia]|]. intros r Hrd.
  pose proof (domain_ok_rd _ _ _ _ He Hrd) as Hrok.
  destruct (Z.eqb_spec (erpp_node_role (node r)) NODE_ASSISTANT_EDGE) as [Ha|].
  - assert (is_master r = false) as Hm by (unfold is_master; by rewrite Ha).
    apply holds_update_result. split; [|done]. apply domain_ok_set.
    + apply Hc. intros E. by destruct (ok_timers _ _ He E) as (? & ? & ? & ?).
    + by apply (other_ok t r).
    + intros E. destruct Hrok as [_ H]. destruct (H E) as [Hx|Hx]; rewrite Hx in Ha; discriminate.
  - eapply keeps_bind; [apply holds_ring_at; [done|intros E; specialize (Hk E); lia]|]. intros r' _. apply holds_relay.
Qed.

Lemma holds_fault buff e :
  good (domain_ok t) e -> (t = true -> 1 <= pkt_ring_id (packet buff) <= ERPP_RING_SIZE) ->
  holds (erpp_packet_fault_process buff e) (fun _ => True).
Proof.
  intros [He Hr] Hk. unfold erpp_packet_fault_process. set (rid := pkt_ring_id (packet buff)) in *.
  eapply keeps_bind; [apply holds_ring_at; [done|intros E; specialize (Hk E); lia]|]. intros r Hrd.
  pose proof (domain_ok_rd _ _ _ _ He Hrd) as Hrok.
  destruct (Z.eqb_spec (erpp_node_role (node r)) NODE_EDGE) as [Ha|].
  - assert (is_master r = false) as Hm by (unfold is_master; by rewrite Ha).
    apply holds_update_result. split; [|done]. apply domain_ok_set; [done| |].
    + apply (other_ok t r); [done|done|]. by destruct (_ =? FORWARDING).
    + intros E. destruct Hrok as [_ H]. destruct (H E) as [Hx|Hx]; rewrite Hx in Ha; discriminate.
  - eapply keeps_bind; [apply keeps_own|]. intros own _. destruct own; [by apply keeps_ret|apply holds_relay].
Qed.

(** What the total reading asks of a received packet. *)
Definition packet_ok e (buff : erpp_frame) : Prop :=
  1 <= pkt_ring_id (packet buff) /\
  (erpp_type (packet buff) = EDGE_HELLO_PACKET -> pkt_ring_id (packet buff) < ERPP_RING_SIZE) /\
  (erpp_type (packet buff) = HELLO_PACKET -> sys_mac (packet buff) = mac ->
   forall r, rd (ring e) (pkt_ring_id (packet buff) - 1) = Some r -> is_master r = true).

Lemma holds_rx_hander buff e :
  good (domain_ok t) e -> pkt_ring_id (packet buff) <= ERPP_RING_SIZE -> (t = true -> packet_ok e buff) ->
  holds (erpp_packet_rx_hander buff e (erpp_type (packet buff))) (fun _ => True).
Proof.
  intros He Hmax Hp. assert (t = true -> 1 <= pkt_ring_id (packet buff) <= ERPP_RING_SIZE) as Hk.
  { intros E. destruct (Hp E) as [? _]. lia. }
  unfold erpp_packet_rx_hander.
  destruct (Z.eqb_spec (erpp_type (packet buff)) HELLO_PACKET).
  { apply holds_hello; [done..|]. intros r E Hr Hs. destruct (Hp E) as (_ & _ & H). by apply H. }
  destruct (_ =? COMPLETE_FLUSH_PACKET); [by apply holds_complete_flush|].
  destruct (_ =? COMMON_FLUSH_PACKET).
  { apply holds_update_result. destruct He. split; [by apply domain_ok_flush|done]. }
  destruct (_ =? LINK_DOWN_PACKET); [by apply holds_link_down|].
  destruct (Z.eqb_spec (erpp_type (packet buff)) EDGE_HELLO_PACKET).
  { apply holds_edge_hello; [done|]. intros E. destruct (Hp E) as (? & H & _). auto. }
  destruct (_ =? FAULT_PACKET); [by apply holds_fault|by apply keeps_ret].
Qed.

(** *** Link events *)

(** The entry keeps its number and stays good. *)
Definition keeps_entry e (m : M T G erpp_domain_s) : Prop :=
  holds m (fun e' => good (domain_ok t) e' /\ domain_id e' = domain_id e).

Lemma entry_ret e e' :
  good (domain_ok t) e -> domain_ok t e' -> domain_id e' = domain_id e -> keeps_entry e (mret e').
Proof. intros Hg He' Hd. apply keeps_ret. by apply good_intro. Qed.

Lemma entry_bind e m (f : erpp_domain_s -> M T G erpp_domain_s) :
  keeps_entry e m -> (forall e', good (domain_ok t) e' -> domain_id e' = domain_id e -> keeps_entry e' (f e')) ->
  keeps_entry e (m ≫= f).
Proof.
  intros Hm Hf. eapply keeps_bind; [exact Hm|]. intros e' [Hg Hd]. eapply keeps_weaken; [by apply Hf|].
  intros e2 [Hg2 Hd2]. split; [done|congruence].
Qed.

Lemma entry_tx e e' type netif :
  good (domain_ok t) e -> domain_ok t e' -> domain_id e' = domain_id e ->
  (t = true -> 1 <= packet_ring e' <= ERPP_RING_SIZE) -> keeps_entry e (erpp_tx_type_packet e' type netif;; mret e').
Proof. intros Hg He' Hd Hp. eapply keeps_bind; [by apply holds_tx|]. intros _ _. by apply entry_ret. Qed.

Lemma entry_change_and_tx rid e r type netif :
  good (domain_ok t) e -> ring_ok t r -> 1 <= rid <= ERPP_RING_SIZE -> keeps_entry e (change_and_tx rid e r type netif).
Proof. intros Hg Hr Hi. apply entry_tx; [done| |done..]. destruct Hg. by apply domain_ok_set_tx. Qed.

Lemma entry_linkup netif rid e r :
  good (domain_ok t) e -> rd (ring e) (rid - 1) = Some r -> keeps_entry e (linkup_change netif rid e r).
Proof.
  intros Hg Hrd. destruct (Hg) as [He _]. apply entry_ret; [done| |done].
  apply domain_ok_set; [done|apply linkup_ring_ok; exact (domain_ok_rd _ _ _ _ He Hrd)|].
  intros E. destruct (ok_tx _ _ He E) as [Hp|Hn]; [by left|right]. apply linkup_no_packet. exact (rd_Forall _ _ _ _ Hn Hrd).
Qed.

Lemma entry_linkdown netif rid e r :
  good (domain_ok t) e -> 1 <= rid <= ERPP_RING_SIZE -> rd (ring e) (rid - 1) = Some r ->
  keeps_entry e (linkdown_change netif rid e r).
Proof.
  intros Hg Hi Hrd. destruct (Hg) as [He _]. pose proof (domain_ok_rd _ _ _ _ He Hrd) as Hr.
  assert (keeps_entry e (mret e)) as Hsame by (by apply entry_ret).
  assert (is_master r = false -> forall s0 s1 x, ring_ok t (with_node_status (with_ports r s0 s1) x) /\ ring_ok t (with_ports r s0 s1))
    as Hother by (intros Hm s0 s1 x; split; by apply (other_ok t r)).
  unfold linkdown_change. destruct (ports_are r FORWARDING BLOCK) eqn:E1.
  - destruct (netif =? _); destruct (is_master r) eqn:Hm; cbn [negb]; try done.
    + apply entry_change_and_tx; [done|by apply ports_ok|done].
    + apply entry_change_and_tx; [done|by apply Hother|done].
    + apply entry_tx; try done. intros E. destruct (ok_tx _ _ He E) as [Hp|Hn]; [done|].
      pose proof (rd_Forall _ _ _ _ Hn Hrd Hm). congruence.
  - destruct (ports_are r BLOCK FORWARDING) eqn:E2; [|destruct (ports_are r FORWARDING FORWARDING) eqn:E3; [|done]].
    + destruct (netif =? _); [|done]. apply andb_prop in E2 as [E2%Z.eqb_eq _].
      destruct (is_master r) eqn:Hm; (apply entry_change_and_tx; [done| |done]); [|by apply Hother].
      apply ports_ok; [done..|]. by rewrite <- E2.
    + destruct (netif =? _), (is_master r) eqn:Hm; (apply entry_change_and_tx; [done| |done]);
        try (by apply Hother); by apply ports_ok.
Qed.

Lemma entry_event_ring netif change rid e :
  good (domain_ok t) e -> 1 <= rid <= ERPP_RING_SIZE ->
  (forall r, rd (ring e) (rid - 1) = Some r -> keeps_entry e (change rid e r)) ->
  keeps_entry e (event_ring netif change rid e).
Proof.
  intros Hg Hi Hc. destruct (Hg) as [He _]. eapply keeps_bind; [apply holds_ring_at; [done|intros _; lia]|].
  intros r Hrd. destruct (_ && _); [|by apply entry_ret]. eapply entry_bind; [by apply Hc|].
  intros e' [He' Hr'] Hd. eapply keeps_bind; [by apply keeps_update|]. intros _ _. by apply entry_ret.
Qed.

Lemma holds_link_event netif change :
  (forall rid e r, good (domain_ok t) e -> 1 <= rid <= ERPP_RING_SIZE -> rd (ring e) (rid - 1) = Some r ->
     keeps_entry e (change rid e r)) ->
  holds (for_each_domain (ring_loop event_rings (event_ring netif change))) (fun _ => True).
Proof.
  intros Hc. apply keeps_for_each. intros e Hg. apply keeps_ring_loop; [|done]. intros k e' Hk Hg'.
  apply elem_of_seqZ in Hk. apply entry_event_ring; [done|lia|]. intros r Hr. apply Hc; [done|lia|done].
Qed.

(** *** Timer *)

(** Counting down keeps the entry good when the counters are positive. *)
Lemma entry_countdown e x y z :
  good (domain_ok t) e -> (t = true -> 0 <= x /\ 0 <= y) -> keeps_entry e (mret (with_counts e x y z)).
Proof. intros Hg Hc. apply entry_ret; [done| |done]. destruct Hg. by apply domain_ok_counts. Qed.

Lemma entry_timer_master i e r :
  good (domain_ok t) e -> 1 <= i <= ERPP_RING_SIZE -> rd (ring e) (i - 1) = Some r -> is_master r = true ->
  is_enable r <> 0 -> keeps_entry e (timer_ring i e).
Proof.
  intros Hg Hi Hrd Hm Hen. destruct (Hg) as [He Hrange]. unfold timer_ring.
  eapply keeps_bind; [apply holds_ring_at; [done|intros _; lia]|]. intros r0 Hr0. rewrite Hrd in Hr0. injection Hr0 as <-.
  apply Z.eqb_neq in Hen. rewrite Hen. unfold is_master in Hm. rewrite Hm.
  eapply (keeps_bind _ _ _ _ _ _ (fun e1 => (good (domain_ok t) e1 /\ domain_id e1 = domain_id e) /\ (t = true -> 1 <= timer_count_0 e1))).
  { unfold timer_hello. destruct (Z.eqb_spec (timer_count_0 e) 0).
    - set (e1 := with_packet_ring _ i). assert (domain_ok t e1) as He1.
      { apply domain_ok_packet_ring; [|done]. apply domain_ok_counts; [done|]. intros E.
        destruct (ok_timers _ _ He E) as (? & ? & ? & ?). lia. }
      eapply keeps_bind; [by apply holds_tx|]. intros _ _. apply keeps_ret. split; [by apply good_intro|].
      intros E. by destruct (ok_timers _ _ He E) as (? & _).
    - apply keeps_ret. split; [done|]. intros E. destruct (ok_timers _ _ He E) as (? & ? & ? & ?). lia. }
  intros e1 [[Hg1 Hd1] Hc1]. destruct (Hg1) as [He1 _].
  eapply (keeps_bind _ _ _ _ _ _ (fun e2 => (good (domain_ok t) e2 /\ domain_id e2 = domain_id e) /\
    (t = true -> 1 <= timer_count_0 e2 /\ 1 <= timer_count_1 e2))).
  { unfold timer_fail. destruct (Z.eqb_spec (timer_count_1 e1) 0).
    - set (e2 := with_packet_ring _ i). assert (domain_ok t e2) as He2.
      { apply domain_ok_set_tx; [|apply fail_ok; exact (domain_ok_rd _ _ _ _ He Hrd)|done].
        apply domain_ok_flush, domain_ok_counts; [done|]. intros E.
        destruct (ok_timers _ _ He1 E) as (? & ? & ? & ?). lia. }
      eapply keeps_bind; [by apply holds_tx|]. intros _ _. apply keeps_ret. split; [by apply good_intro|].
      intros E. specialize (Hc1 E). destruct (ok_timers _ _ He1 E) as (? & ? & _). done.
    - apply keeps_ret. split; [done|]. intros E. specialize (Hc1 E). destruct (ok_timers _ _ He1 E) as (? & ? & ? & ?). lia. }
  intros e2 [[Hg2 Hd2] Hc2]. eapply keeps_bind; [apply holds_decr; intros E; specialize (Hc2 E); lia|]. intros c0 ->.
  eapply keeps_bind; [apply holds_decr; intros E; specialize (Hc2 E); lia|]. intros c1 ->.
  eapply keeps_weaken; [apply entry_countdown; [done|intros E; specialize (Hc2 E); lia]|].
  intros e3 [Hg3 Hd3]. split; [done|congruence].
Qed.

(** A node that is not the master; with [t] only transit nodes remain, which
    the timer leaves alone. *)
Lemma entry_timer_other i e r :
  good (domain_ok t) e -> 1 <= i <= ERPP_RING_SIZE -> rd (ring e) (i - 1) = Some r -> is_master r = false ->
  is_enable r <> 0 -> keeps_entry e (timer_ring i e).
Proof.
  intros Hg Hi Hrd Hm Hen. destruct (Hg) as [He Hrange]. unfold timer_ring.
  eapply keeps_bind; [apply holds_ring_at; [done|intros _; lia]|]. intros r0 Hr0. rewrite Hrd in Hr0. injection Hr0 as <-.
  pose proof (domain_ok_rd _ _ _ _ He Hrd) as Hrok. apply Z.eqb_neq in Hen. rewrite Hen. clear Hen.
  pose proof Hm as Hm'. unfold is_master in Hm. rewrite Hm.
  assert (t = true -> erpp_node_role (node r) = NODE_TRANSMIT) as Hplain.
  { intros E. destruct Hrok as [_ H]. destruct (H E) as [Hx|]; [|done]. by rewrite Hx in Hm. }
  destruct (Z.eqb_spec (erpp_node_role (node r)) NODE_EDGE) as [Ha|];
    [|destruct (Z.eqb_spec (erpp_node_role (node r)) NODE_ASSISTANT_EDGE) as [Ha|]; [|by apply entry_ret]].
  all: assert (t <> true) as Hf by (intros E; rewrite (Hplain E) in Ha; discriminate).
  - eapply (entry_bind e).
    + destruct (_ =? 0); [|by apply entry_ret]. set (e1 := with_packet_ring _ _).
      assert (domain_ok t e1) as He1 by (apply domain_ok_packet_ring; [apply domain_ok_counts|]; done).
      eapply keeps_bind; [by apply holds_ring_at|]. intros r1 _.
      eapply keeps_bind; [by apply holds_tx|]. intros _ _. by apply entry_tx.
    + intros e1 Hg1 Hd1. eapply keeps_bind; [by apply holds_decr|]. intros c0 _. by apply entry_countdown.
  - eapply (entry_bind e).
    + destruct (_ =? 0); [|by apply entry_ret]. apply entry_tx; try done.
      apply domain_ok_set_tx; [done|by apply (other_ok t r)|done].
    + intros e1 Hg1 Hd1. eapply keeps_bind; [by apply holds_decr|]. intros c0 _. by apply entry_countdown.
Qed.

Lemma entry_timer_loop e :
  good (domain_ok t) e -> keeps_entry e (ring_loop (seqZ 1 ERPP_RING_SIZE) timer_ring e).
Proof.
  intros Hg. apply keeps_ring_loop; [|done]. intros i e' Hi Hg'. apply elem_of_seqZ in Hi. destruct (Hg') as [He' _].
  destruct (rd_lt_Some (ring e') (i - 1)) as [r Hr]; [rewrite rings_length by done; lia|].
  destruct (decide (is_enable r = 0)) as [Hz|Hen].
  - unfold timer_ring. eapply keeps_bind; [apply holds_ring_at; [done|intros _; lia]|]. intros r0 Hr0.
    rewrite Hr in Hr0. injection Hr0 as <-. rewrite Hz, Z.eqb_refl. by apply entry_ret.
  - destruct (is_master r) eqn:Hm; [eapply entry_timer_master|eapply entry_timer_other]; try done; lia.
Qed.

Lemma holds_timer : holds (for_each_domain erpp_domain_timer_handler) (fun _ => True).
Proof.
  apply keeps_for_each. intros e Hg. eapply (entry_bind e); [by apply entry_timer_loop|].
  intros e' [He' Hr'] _. eapply keeps_bind; [by apply keeps_update|]. intros _ _. by apply entry_ret.
Qed.

End operations.

(** ** Runs of the daemon *)

Section runs.
Context {T G : Type} `{!ArrayStore T erpp_domain_s, !ArrayStoreLaws T erpp_domain_s}.
Context `{!ArrayStore G Z, !ArrayStoreLaws G Z}.
Implicit Types (e : erpp_domain_s) (st : erpp_state T G).

(** What the daemon is asked to do: the commands, a packet of [len] bytes,
    an interface event or switchover, a tick of the timer. *)
Inductive erpp_op :=
  | SetDomain (domain isenable : Z)
  | SetControlVlan (domain vlan_id : Z)
  | SetInstance (domain instance : Z)
  | ConfigureRing (domain rid node_mode primary_port secondary_port lvl : Z)
  | EnableRing (domain rid isenable : Z)
  | EnableGlobal (isenable : Z)
  | SetTimer (domain hello_value fail_value : Z)
  | GetInfo (domain rid : Z)
  | Receive (buff : erpp_frame) (len : Z)
  | Event (active : bool) (netif event : Z)
  | Tick.

Definition erpp_exec (op : erpp_op) : M T G unit :=
  match op with
  | SetDomain d x => erpp_domain_process d x;; mret tt
  | SetControlVlan d v => erpp_domain_control_vlan_set d v;; mret tt
  | SetInstance d i => erpp_domain_instance_set d i;; mret tt
  | ConfigureRing d rid mode p s lvl => erpp_domain_ring_configure_process d rid mode p s lvl;; mret tt
  | EnableRing d rid x => erpp_domain_ring_process d rid x;; mret tt
  | EnableGlobal x => erpp_global_process x;; mret tt
  | SetTimer d h f => erpp_timer_process d h f;; mret tt
  | GetInfo d rid => erpp_dbus_domain_info_get d rid;; mret tt
  | Receive buff len => erpp_packet_rx_callback buff len;; mret tt
  | Event active n ev => erpp_app_event_handler active n ev
  | Tick => erpp_timer_handler;; mret tt
  end.

Fixpoint erpp_run (l : list erpp_op) : M T G unit :=
  match l with [] => mret tt | op :: l => erpp_exec op;; erpp_run l end.

(** The number under which a command looks for a domain. *)
Definition key (domain : Z) : Z := u32 (s32 domain).

(** What the daemon relies on: ring numbers from 1 to 4, no edge nodes, a
    domain to configure, timers of at least one tick; an edge hello not for
    ring 4, and a hello of our own only for a ring of which we are master. *)
Definition op_ok st (op : erpp_op) : Prop :=
  match op with
  | ConfigureRing d rid mode _ _ _ =>
      is_Some (domains st !! key d) /\ 1 <= rid <= ERPP_RING_SIZE /\ (mode = NODE_MASTER \/ mode = NODE_TRANSMIT)
  | EnableRing _ rid _ | GetInfo _ rid => 1 <= rid <= ERPP_RING_SIZE
  | SetTimer _ h f => 1 <= h < 2 ^ 31 /\ 1 <= f < 2 ^ 31
  | Receive buff _ => 1 <= pkt_ring_id (packet buff) /\
      forall e, domains st !! key (pkt_domain_id (packet buff)) = Some e -> packet_ok (SysMac st) e buff
  | _ => True
  end.

Section step.
Context (t : bool) (mac : list Z).

(** Between operations, with [t], nobody holds the mutex. *)
Definition mutex_free (b : bool) : Prop := t = true -> b = false.
Definition idle st : Prop := inv (domain_ok t) mac mutex_free st.
Definition busy st : Prop := inv (domain_ok t) mac (fun _ => True) st.

Lemma idle_busy st : idle st -> busy st.
Proof. by intros [? ? ? ? ? ?]. Qed.

(** [R] says more of the stored domains. *)
Lemma enter_with {A} (R : gmap Z erpp_domain_s -> Prop) (m : M T G A) Q :
  triple t (fun st => busy st /\ R (domains st)) m Q ->
  triple t (fun st => idle st /\ R (domains st)) (pthread_mutex_lock;; m) Q.
Proof.
  intros Hm st [Hi Hr]. unfold mbind, M_bind, pthread_mutex_lock. destruct (semErppMutex st) eqn:E.
  - destruct Hi as [_ _ _ _ _ Hmu]. apply not_true_is_false. intros Et. rewrite E in Hmu. by specialize (Hmu Et).
  - apply Hm. split; [by destruct Hi|done].
Qed.

Lemma enter {A} (m : M T G A) Q : triple t busy m Q -> triple t idle (pthread_mutex_lock;; m) Q.
Proof.
  intros Hm st Hi. apply (enter_with (fun _ => True)); [|done]. intros st' [Hb _]. by apply Hm.
Qed.

Lemma leave {A} (c : A) : triple t busy (pthread_mutex_unlock;; mret c) (fun _ st => idle st).
Proof. by intros st [? ? ? ? ? ?]. Qed.

(** [pthread_mutex_lock; m; pthread_mutex_unlock] around a computation that
    keeps the invariant. *)
Lemma critical {A B} (m : M T G A) (f : A -> B) :
  holds t mac (fun _ => True) m (fun _ => True) ->
  triple t idle (pthread_mutex_lock;; c ← m; pthread_mutex_unlock;; mret (f c)) (fun _ st => idle st).
Proof.
  intros Hm. apply enter. eapply keeps_then; [exact Hm|]. intros a _. apply leave.
Qed.

Lemma key_range d : 0 <= key d <= ERPP_DOMAIN_SIZE -> s32 d = key d.
Proof.
  unfold key, s32, u32, wrap, ERPP_DOMAIN_SIZE. intros H. destruct (_ <? _) eqn:E; Z.div_mod_to_equations; lia.
Qed.

Lemma new_domain_ok d h f : 1 <= h -> 1 <= f -> domain_ok t (with_counts (with_timers (zero_domain d) h f f) h f f).
Proof.
  intros Hh Hf. split; [done| | |].
  - cbn. repeat constructor; done.
  - intros _. unfold timers_ok. cbn. lia.
  - intros _. right. cbn. repeat constructor; done.
Qed.

Lemma insert_idle e :
  domain_ok t e -> (0 <= u32 (domain_id e) <= ERPP_DOMAIN_SIZE -> domain_id e = u32 (domain_id e)) ->
  triple t idle (erpp_domain_insert e) (fun _ st => idle st).
Proof.
  intros He Hd st [H1 H2 H3 H4 H5 H6]. unfold erpp_domain_insert, mbind, M_bind, get_state, lift, ends.
  set (i := u32 (domain_id e)) in *.
  destruct (decide (0 <= i < st_size (erpp_domain_db st) /\ domains st !! i = None)) as [[Hr Hn]|Hn].
  - destruct (st_insert_free _ i e H1 Hr Hn) as (t' & -> & Hok & Hs & Hv). cbn. split; cbn; try done; [by rewrite Hs|].
    unfold domains. cbn. rewrite Hv. intros j x. destruct (decide (i = j)) as [<-|].
    + rewrite lookup_insert_eq. intros [= <-]. split; [apply Hd; lia|done].
    + rewrite lookup_insert_ne by done. apply H4.
  - assert (~ (0 <= i < st_size (erpp_domain_db st)) \/ is_Some (st_view (erpp_domain_db st) !! i)) as Hf.
    { destruct (decide (0 <= i < st_size (erpp_domain_db st))); [right|by left].
      apply not_eq_None_Some. tauto. }
    destruct (st_insert_fail _ i e H1 Hf) as (t' & -> & Hok & Hs & Hv). cbn. split; cbn; try done; [by rewrite Hs|].
    unfold domains. cbn. by rewrite Hv.
Qed.

Lemma delete_idle e : triple t idle (erpp_domain_delete e) (fun _ st => idle st).
Proof.
  intros st [H1 H2 H3 H4 H5 H6]. unfold erpp_domain_delete, mbind, M_bind, get_state, lift, ends.
  destruct (st_delete_any _ (u32 (domain_id e)) H1) as (t' & -> & Hok & Hs & Hv). cbn. split; cbn; try done; [by rewrite Hs|].
  unfold domains. cbn. rewrite Hv. intros j x [_ Hj]%lookup_delete_Some. by apply H4.
Qed.

Lemma domain_process_idle d x : triple t idle (erpp_domain_process d x) (fun _ st => idle st).
Proof.
  eapply keeps_then; [apply keeps_search|]. intros [e|] _.
  - destruct (x =? 0); [apply delete_idle|by apply triple_ret].
  - destruct (negb _); [|by apply triple_ret]. apply insert_idle; [by apply new_domain_ok|]. intros H. by apply key_range.
Qed.

Lemma global_idle x : triple t idle (erpp_global_process x) (fun _ st => idle st).
Proof.
  intros st [H1 H2 H3 H4 H5 H6]. unfold erpp_global_process, mbind, M_bind, get_state, lift, ends.
  destruct (st_get (erpp_global_array st) 0) as [y|] eqn:E; [|done]. destruct (_ =? _); [done|].
  rewrite st_get_view in E by done.
  destruct (st_update_some (erpp_global_array st) 0 (s32 x) H3) as (g & -> & Hok & _); [by exists y|]. done.
Qed.

(** Look a domain up and work on it under the mutex. *)
Lemma edit_idle d (body : option erpp_domain_s -> M T G Z) :
  (forall found, (forall e, found = Some e -> good (domain_ok t) e) -> holds t mac (fun _ => True) (body found) (fun _ => True)) ->
  triple t idle (pthread_mutex_lock;; found ← erpp_domain_search (zero_domain d); c ← body found; pthread_mutex_unlock;; mret c)
    (fun _ st => idle st).
Proof.
  intros Hb. apply enter. eapply keeps_then; [apply keeps_search|]. intros found Hf.
  eapply keeps_then; [apply Hb; intros e He; by apply Hf|]. intros c _. apply leave.
Qed.

Lemma vlan_idle d v : triple t idle (erpp_domain_control_vlan_set d v) (fun _ st => idle st).
Proof.
  apply (edit_idle d (fun found => match found with None => _ | Some e => _ end)). intros [e|] Hf; [|by apply keeps_ret].
  destruct (Hf e eq_refl). apply holds_update_reply. split; [by apply domain_ok_vlan|done].
Qed.

Lemma instance_idle d i : triple t idle (erpp_domain_instance_set d i) (fun _ st => idle st).
Proof.
  apply (edit_idle d (fun found => match found with None => _ | Some e => _ end)). intros [e|] Hf; [|by apply keeps_ret].
  destruct (Hf e eq_refl). apply holds_update_reply. split; [by apply domain_ok_instance|done].
Qed.

Lemma u32_ring rid : 1 <= rid <= ERPP_RING_SIZE -> u32 (rid - 1) = rid - 1.
Proof. intros H. apply u32_small. unfold u32_range, ERPP_RING_SIZE in *. lia. Qed.

Lemma ring_process_idle d rid x :
  (t = true -> 1 <= rid <= ERPP_RING_SIZE) -> triple t idle (erpp_domain_ring_process d rid x) (fun _ st => idle st).
Proof.
  intros Hrid. apply (edit_idle d (fun found => match found with None => _ | Some e => _ end)).
  intros [e|] Hf; [|by apply keeps_ret]. destruct (Hf e eq_refl) as [He Hr].
  eapply keeps_bind; [apply holds_ring_at; [done|]|].
  { intros E. specialize (Hrid E). rewrite u32_ring by done. lia. }
  intros r Hrd. apply holds_update_reply. split; [|done]. apply domain_ok_set; [done| |].
  - exact (domain_ok_rd _ _ _ _ He Hrd).
  - intros E. destruct (ok_tx _ _ He E) as [Hp|Hn]; [by left|right]. exact (rd_Forall _ _ _ _ Hn Hrd).
Qed.

(** A missing domain leaves the mutex locked, so with [t] it must exist. *)
Lemma configure_idle d rid mode p s lvl :
  triple t (fun st => idle st /\ (t = true -> is_Some (domains st !! key d) /\ 1 <= rid <= ERPP_RING_SIZE /\
                                    (mode = NODE_MASTER \/ mode = NODE_TRANSMIT)))
    (erpp_domain_ring_configure_process d rid mode p s lvl) (fun _ st => idle st).
Proof.
  apply (enter_with (fun m => t = true -> is_Some (m !! key d) /\ _)). intros st [Hb Hop]. rewrite search_bind.
  destruct (st_get _ _) as [e|] eqn:Eg; rewrite st_get_view in Eg by (by eapply inv_store).
  - destruct (stored_good _ _ _ _ _ _ Hb Eg) as [He Hr].
    assert (t = true -> 1 <= rid <= ERPP_RING_SIZE /\ (mode = NODE_MASTER \/ mode = NODE_TRANSMIT)) as Hop' by tauto.
    clear Hop Eg. revert st Hb. change (triple t busy (r ← ring_at e (u32 (rid - 1));
      c ← update_reply (set_ring e (u32 (rid - 1)) (ring_configure rid mode p s lvl r));
      pthread_mutex_unlock;; mret c) (fun _ st => idle st)).
    eapply keeps_then; [apply holds_ring_at; [done|]|].
    { intros E. destruct (Hop' E) as (Hrid & _). rewrite u32_ring by done. lia. }
    intros r Hrd. eapply keeps_then; [apply holds_update_reply; split; [|done]|intros c _; apply leave].
    apply domain_ok_set; [done|apply ring_configure_ok; [exact (domain_ok_rd _ _ _ _ He Hrd)|tauto]|].
    intros E. right. apply configure_no_packet. by apply Hop'.
  - destruct Hb. split; try done. intros E. destruct (Hop E) as ([x Hx] & _). unfold domains, key in Hx.
    change (u32 (domain_id (zero_domain d))) with (u32 (s32 d)) in Eg. congruence.
Qed.

Lemma timer_process_idle d h f :
  (t = true -> 1 <= h < 2 ^ 31 /\ 1 <= f < 2 ^ 31) -> triple t idle (erpp_timer_process d h f) (fun _ st => idle st).
Proof.
  intros Ht. apply enter. intros st Hb. rewrite search_bind.
  destruct (st_get _ _) as [e|] eqn:Eg; rewrite st_get_view in Eg by (by eapply inv_store).
  - destruct (stored_good _ _ _ _ _ _ Hb Eg) as [He Hr]. clear Eg. revert st Hb.
    change (triple t busy (c ← update_reply (with_counts (with_timers e (s32 h) (s32 f) (s32 f)) (s32 h) (s32 f) (s32 f));
      pthread_mutex_unlock;; mret c) (fun _ st => idle st)).
    assert (t = true -> 1 <= s32 h /\ 1 <= s32 f) as Hs.
    { intros E. destruct (Ht E). unfold s32, u32, wrap.
      rewrite !Z.mod_small by lia. destruct (Z.ltb_spec h (2 ^ 31)), (Z.ltb_spec f (2 ^ 31)); lia. }
    eapply keeps_then; [apply holds_update_reply|intros c _; apply leave]. split; [|done].
    apply domain_ok_counts; [by apply domain_ok_timers|]. intros E. destruct (Hs E). cbn. lia.
  - set (m := update_reply _ ≫= _). assert (triple t (fun st => busy st /\ domains st !! key d = None) m (fun _ st => idle st)) as H.
    { unfold m, update_reply. eapply triple_bind; [|intros c; apply leave].
      eapply triple_bind; [apply update_triple|intros c; apply triple_ret; intros st' H'; exact H'].
      intros st' _ Hn [x Hx]. unfold key in Hn. cbn in Hx. congruence. }
    apply H. split; [exact Hb|exact Eg].
Qed.

Lemma info_idle d rid :
  (t = true -> 1 <= rid <= ERPP_RING_SIZE) -> triple t idle (erpp_dbus_domain_info_get d rid) (fun _ st => idle st).
Proof.
  intros Hrid. assert (t = true -> 0 <= u32 (rid - 1) < ERPP_RING_SIZE) as Hk.
  { intros E. specialize (Hrid E). rewrite u32_ring by done. lia. }
  eapply keeps_then; [apply keeps_search|]. intros [e|] Hf.
  - destruct (Hf e eq_refl) as [[He _] _].
    eapply keeps_then; [by apply holds_ring_at|]. intros r _. by apply triple_ret.
  - eapply keeps_then; [|intros r _; by apply triple_ret]. intros st Hi. unfold ring_at, lift, ends.
    destruct (rd _ _) eqn:E; [split; [done|exact I]|]. apply not_true_is_false. intros Et.
    destruct (rd_lt_Some (ring (zero_domain d)) (u32 (rid - 1))) as [r Hr]; [by apply Hk|congruence].
Qed.

Lemma receive_idle buff len :
  triple t (fun st => idle st /\ (t = true -> op_ok st (Receive buff len))) (erpp_packet_rx_callback buff len)
    (fun _ st => idle st).
Proof.
  unfold erpp_packet_rx_callback. destruct (len <=? 0); [by apply triple_ret; intros st [? _]|].
  destruct (Z.ltb_spec ERPP_RING_SIZE (pkt_ring_id (packet buff))); [by apply triple_ret; intros st [? _]|].
  intros st0 [Hi0 Hop0]. revert st0 Hi0 Hop0.
  enough (triple t (fun st => idle st /\ (t = true -> 1 <= pkt_ring_id (packet buff) /\
    forall e, domains st !! key (pkt_domain_id (packet buff)) = Some e -> packet_ok mac e buff)) (pthread_mutex_lock;;
    found ← erpp_domain_search (zero_domain (pkt_domain_id (packet buff)));
    match found with
    | None => pthread_mutex_unlock;; mret (-1)
    | Some e =>
        r ← ring_at e (pkt_ring_id (packet buff) - 1);
        if is_enable r =? 0 then pthread_mutex_unlock;; mret (-1)
        else c ← erpp_packet_rx_hander buff e (erpp_type (packet buff)); pthread_mutex_unlock;; mret c
    end) (fun _ st => idle st)) as Hmain.
  { intros st Hi Hop. apply Hmain. split; [done|]. intros E. destruct (Hop E) as [H1 H2]. split; [done|].
    rewrite <- (inv_mac _ _ _ _ Hi). exact H2. }
  apply (enter_with (fun m => t = true -> 1 <= pkt_ring_id (packet buff) /\
    forall e, m !! key (pkt_domain_id (packet buff)) = Some e -> packet_ok mac e buff)).
  intros st [Hb Hop]. rewrite search_bind.
  destruct (st_get _ _) as [e|] eqn:Eg; rewrite st_get_view in Eg by (by eapply inv_store); [|by apply leave].
  pose proof (stored_good _ _ _ _ _ _ Hb Eg) as Hg.
  assert (t = true -> packet_ok mac e buff) as Hp by (intros E; by apply Hop).
  clear Hop Eg. revert st Hb.
  change (triple t busy (r ← ring_at e (pkt_ring_id (packet buff) - 1);
    if is_enable r =? 0 then pthread_mutex_unlock;; mret (-1)
    else c ← erpp_packet_rx_hander buff e (erpp_type (packet buff)); pthread_mutex_unlock;; mret c) (fun _ st => idle st)).
  destruct (Hg) as [He _]. eapply keeps_then; [apply holds_ring_at; [done|]|].
  { intros E. destruct (Hp E) as [? _]. lia. }
  intros r _. destruct (_ =? 0); [apply leave|].
  eapply keeps_then; [by apply holds_rx_hander|]. intros c _. apply leave.
Qed.

Lemma event_idle active netif ev : triple t idle (erpp_app_event_handler active netif ev) (fun _ st => idle st).
Proof.
  unfold erpp_app_event_handler. destruct (ev =? _); [by intros st [? ? ? ? ? ?]|].
  eapply triple_bind with (R := fun _ st => idle st); [|intros c; by apply triple_ret].
  intros st Hi. unfold erpp_netif_event_callback, mbind at 1, M_bind at 1, get_state.
  destruct (st_get _ _) as [x|]; [|done]. destruct (x =? 0); [done|].
  destruct (ev =? PORT_NOTIFIER_LINKUP_E); [|destruct (ev =? PORT_NOTIFIER_LINKDOWN_E); [|done]].
  all: eapply triple_bind with (R := fun _ st => idle st); [|intros c; by apply triple_ret|exact Hi].
  - apply (critical _ (fun _ => 0)), holds_link_event. intros rid e r Hg _ Hr. by apply entry_linkup.
  - apply (critical _ (fun _ => 0)), holds_link_event. intros rid e r Hg Hi' Hr. by apply entry_linkdown.
Qed.

Lemma tick_idle : triple t idle erpp_timer_handler (fun _ st => idle st).
Proof.
  intros st Hi. unfold erpp_timer_handler, mbind at 1, M_bind at 1, get_state.
  destruct (st_get _ _) as [x|]; [|done]. destruct (x =? 0); [done|].
  apply (critical _ (fun _ => 0)); [apply holds_timer|exact Hi].
Qed.

(** One operation. *)
Lemma exec_idle op : triple t (fun st => idle st /\ (t = true -> op_ok st op)) (erpp_exec op) (fun _ st => idle st).
Proof.
  assert (forall A (m : M T G A) (P : erpp_state T G -> Prop),
    triple t P m (fun _ st => idle st) -> triple t P (m;; mret tt) (fun _ st => idle st)) as Hseq.
  { intros A m P Hm. eapply triple_bind; [exact Hm|]. intros c. by apply triple_ret. }
  assert (forall A (m : M T G A) (P : erpp_state T G -> Prop),
    triple t idle m (fun _ st => idle st) -> triple t (fun st => idle st /\ P st) m (fun _ st => idle st)) as Hpre.
  { intros A m P Hm st [Hi _]. by apply Hm. }
  destruct op; cbn [erpp_exec]; try apply Hseq.
  - apply Hpre, domain_process_idle.
  - apply Hpre, vlan_idle.
  - apply Hpre, instance_idle.
  - apply configure_idle.
  - intros st [Hi Hop]. by apply ring_process_idle.
  - apply Hpre, global_idle.
  - intros st [Hi Hop]. by apply timer_process_idle.
  - intros st [Hi Hop]. by apply info_idle.
  - apply receive_idle.
  - apply Hpre, event_idle.
  - apply Hpre, tick_idle.
Qed.

End step.

(** Any run, whatever it does. *)
Lemma run_idle mac l : triple false (idle false mac) (erpp_run l) (fun _ st => idle false mac st).
Proof.
  induction l as [|op l IH]; cbn [erpp_run]; [by apply triple_ret|].
  eapply triple_bind with (R := fun _ st => idle false mac st); [|intros c; exact IH]. intros st Hi. by apply exec_idle.
Qed.

(** A run whose operations keep to what the daemon relies on. *)
Inductive run_ok : list erpp_op -> erpp_state T G -> Prop :=
  | run_ok_nil st : run_ok [] st
  | run_ok_cons op l st :
      op_ok st op -> (forall st', erpp_exec op st = Done (tt, st') -> run_ok l st') -> run_ok (op :: l) st.

Lemma run_ok_step op l st st' : op_ok st op -> erpp_exec op st = Done (tt, st') -> run_ok l st' -> run_ok (op :: l) st.
Proof. intros Hop E Hl. constructor; [done|]. intros st1 E1. rewrite E in E1. by injection E1 as <-. Qed.

Lemma run_returns mac l st :
  idle true mac st -> run_ok l st -> exists st', erpp_run l st = Done (tt, st') /\ idle true mac st'.
Proof.
  intros Hi Hl. revert Hi. induction Hl as [st|op l st Hop _ IH]; intros Hi; cbn [erpp_run]; [by exists st|].
  pose proof (exec_idle true mac op st (conj Hi (fun _ => Hop))) as H. unfold ends in H. unfold mbind, M_bind.
  destruct (erpp_exec op st) as [[[] st1]| | |]; [|done..]. by apply IH.
Qed.

End runs.
