(* ===== verification/ErppProtocol.v ===== *)
(** * ERPP: what a daemon does in a ring

    The loops over the domains visited exactly, and the theorems on the
    daemon of [Erpp]: loop freedom and progress under any operations, the
    fail timer, the recovery of a ring, link events and the error paths. *)

From Stdlib Require Import ZArith Lia Bool.
From stdpp Require Import base decidable list gmap.
From S2P Require Import Prelude Database ArrayStore Erpp ErppRings.

Open Scope Z_scope.

(** ** The loop over the domains visits each once *)

Section visit.
Context {T G : Type} `{!ArrayStore T erpp_domain_s, !ArrayStoreLaws T erpp_domain_s}.
Context `{!ArrayStore G Z, !ArrayStoreLaws G Z}.
Context (P : erpp_domain_s -> Prop) (mac : list Z) (mu : bool -> Prop).
Implicit Types (e : erpp_domain_s) (st : erpp_state T G).

Definition here st : Prop := inv P mac mu st.

(** What the loops leave alone. *)
Definition same_rest st st' : Prop :=
  erpp_global_array st' = erpp_global_array st /\ erpp_master_active st' = erpp_master_active st.

(** [body] maps a stored entry to one related by [R], stores it, keeps the
    rest, and sends the frames that [R] says. *)
Definition visits (body : erpp_domain_s -> M T G erpp_domain_s) (R : erpp_domain_s -> erpp_domain_s -> list erpp_frame -> Prop)
  : Prop :=
  forall e st, here st -> domains st !! domain_id e = Some e -> exists e' sent st',
    body e st = Done (e', st') /\ here st' /\ domain_id e' = domain_id e /\
    domains st' = <[domain_id e := e']> (domains st) /\ frames st' = frames st ++ sent /\ same_rest st st' /\ R e e' sent.

(** Every domain from [k] on went through [R], in ascending order. *)
Fixpoint visited (R : erpp_domain_s -> erpp_domain_s -> list erpp_frame -> Prop) (l : list Z)
    (m m' : gmap Z erpp_domain_s) (sent : list erpp_frame) : Prop :=
  match l with
  | [] => m' = m /\ sent = []
  | i :: l =>
      match m !! i with
      | None => visited R l m m' sent
      | Some e => exists e' s1 s2, R e e' s1 /\ sent = s1 ++ s2 /\ visited R l (<[i := e']> m) m' s2
      end
  end.

Lemma domain_get_next_spec n e st :
  here st -> 0 <= domain_id e <= ERPP_DOMAIN_SIZE -> ERPP_DOMAIN_SIZE - domain_id e < Z.of_nat n ->
  (exists e', get_next_loop n e st = Done (Some e', st) /\ domains st !! domain_id e' = Some e' /\
     domain_id e < domain_id e' <= ERPP_DOMAIN_SIZE /\ forall j, domain_id e < j < domain_id e' -> domains st !! j = None) \/
  (get_next_loop n e st = Done (None, st) /\ forall j, domain_id e < j <= ERPP_DOMAIN_SIZE -> domains st !! j = None).
Proof.
  intros Hi. revert e. induction n as [|n IH]; intros e He Hn; [lia|]. cbn [get_next_loop].
  set (e1 := with_domain_id e _). assert (domain_id e1 = domain_id e + 1) as E1 by done.
  destruct (Z.leb_spec (domain_id e1) ERPP_DOMAIN_SIZE).
  - rewrite search_bind, st_get_view by (by eapply inv_store). fold (domains st). rewrite u32_id by lia.
    destruct (domains st !! domain_id e1) as [e'|] eqn:E.
    + left. exists e'. destruct (inv_domains _ _ _ _ Hi _ _ E) as [Hd _]. rewrite Hd. split_and!; try done; lia.
    + destruct (IH e1) as [(e' & -> & Hl & Hr & Hb)|[-> Hb]]; [lia|lia|left|right].
      * exists e'. split_and!; try done; [lia|lia|]. intros j Hj.
        destruct (decide (j = domain_id e1)) as [->|]; [done|]. apply Hb. lia.
      * split; [done|]. intros j Hj. destruct (decide (j = domain_id e1)) as [->|]; [done|]. apply Hb. lia.
  - right. split; [done|]. intros j Hj. lia.
Qed.

Lemma visited_none R l1 l2 m m' sent :
  (forall i, i ∈ l1 -> m !! i = None) -> visited R l2 m m' sent -> visited R (l1 ++ l2) m m' sent.
Proof.
  induction l1 as [|i l1 IH]; intros Hn Hv; [done|]. cbn [app visited]. rewrite Hn by (by left). apply IH; [|done].
  intros j Hj. apply Hn. by right.
Qed.

Lemma domain_loop_visits n body R e st :
  visits body R -> here st -> 0 <= domain_id e <= ERPP_DOMAIN_SIZE -> ERPP_DOMAIN_SIZE - domain_id e < Z.of_nat n ->
  exists st' sent, domain_loop n body e st = Done (tt, st') /\ here st' /\ frames st' = frames st ++ sent /\ same_rest st st' /\
    visited R (seqZ (domain_id e + 1) (ERPP_DOMAIN_SIZE - domain_id e)) (domains st) (domains st') sent.
Proof.
  intros Hb. revert e st. induction n as [|n IH]; intros e st Hi He Hn; [lia|]. cbn [domain_loop].
  unfold mbind at 1, M_bind at 1, erpp_domain_get_next.
  destruct (domain_get_next_spec (Z.to_nat (ERPP_DOMAIN_SIZE + 2)) e st Hi He) as [(e1 & -> & Hl & Hr & Hno)|[-> Hno]];
    [unfold ERPP_DOMAIN_SIZE in *; lia| |].
  - unfold mbind, M_bind. destruct (Hb e1 st Hi Hl) as (e2 & s1 & st1 & -> & Hi1 & Hd & Hm1 & Hf1 & [Hg1 Ha1] & HR).
    destruct (IH e2 st1 Hi1) as (st2 & s2 & -> & Hi2 & Hf2 & [Hg2 Ha2] & Hv); [lia|lia|].
    exists st2, (s1 ++ s2). split_and!; [done|done|by rewrite Hf2, Hf1, app_assoc|split; congruence|].
    replace (ERPP_DOMAIN_SIZE - domain_id e) with ((domain_id e1 - domain_id e - 1) + Z.succ (ERPP_DOMAIN_SIZE - domain_id e1)) by lia.
    rewrite seqZ_app by lia. apply visited_none; [intros j Hj%elem_of_seqZ; apply Hno; lia|].
    rewrite seqZ_cons by lia. replace (domain_id e + 1 + (domain_id e1 - domain_id e - 1)) with (domain_id e1) by lia.
    cbn [visited]. rewrite Hl. exists e2, s1, s2. split_and!; try done. rewrite <- Hm1, <- Hd.
    replace (Z.pred (Z.succ (ERPP_DOMAIN_SIZE - domain_id e2))) with (ERPP_DOMAIN_SIZE - domain_id e2) by lia. exact Hv.
  - exists st, []. split_and!; [done|done|by rewrite app_nil_r|done|].
    rewrite <- (app_nil_r (seqZ _ _)). apply visited_none; [|done]. intros j Hj%elem_of_seqZ. apply Hno. lia.
Qed.

Lemma for_each_visits body R st :
  visits body R -> here st ->
  exists st' sent, for_each_domain body st = Done (tt, st') /\ here st' /\ frames st' = frames st ++ sent /\ same_rest st st' /\
    visited R (seqZ 1 ERPP_DOMAIN_SIZE) (domains st) (domains st') sent.
Proof. intros Hb Hi. by apply (domain_loop_visits _ body R (zero_domain 0)). Qed.

(** What became of one domain. *)
Lemma visited_lookup R l m m' sent i :
  NoDup l -> visited R l m m' sent ->
  match m !! i with
  | None => m' !! i = None
  | Some e => if bool_decide (i ∈ l) then exists e' s, m' !! i = Some e' /\ R e e' s /\ s ⊆ sent else m' !! i = Some e
  end.
Proof.
  revert m sent. induction l as [|k l IH]; intros m sent Hnd; cbn [visited].
  { intros [-> ->]. by destruct (m !! i). }
  apply NoDup_cons in Hnd as [Hk Hnd]. destruct (m !! k) as [e|] eqn:Ek.
  - intros (e' & s1 & s2 & HR & -> & Hv). specialize (IH _ _ Hnd Hv). destruct (decide (i = k)) as [->|Hne].
    + rewrite lookup_insert_eq, bool_decide_false in IH by done. rewrite Ek, bool_decide_true by (by left).
      exists e', s1. split_and!; [done|done|]. intros x. rewrite elem_of_app. by left.
    + rewrite lookup_insert_ne in IH by done. destruct (m !! i) as [x|]; [|done].
      rewrite (bool_decide_ext (i ∈ k :: l) (i ∈ l)) by (rewrite elem_of_cons; split; [intros [?|?]; done|by right]).
      destruct (bool_decide _); [|done]. destruct IH as (x' & s & ? & ? & Hs). exists x', s. split_and!; try done.
      intros y Hy. rewrite elem_of_app. right. by apply Hs.
  - intros Hv. specialize (IH _ _ Hnd Hv). destruct (m !! i) as [x|] eqn:Ei; [|done].
    rewrite (bool_decide_ext (i ∈ k :: l) (i ∈ l)); [done|]. rewrite elem_of_cons. split; [|by right].
    intros [->|]; [congruence|done].
Qed.

(** Storing an entry of the table. *)
Lemma update_spec e st old :
  here st -> domains st !! domain_id e = Some old -> P e ->
  exists st', erpp_domain_update e st = Done (0, st') /\ here st' /\ domains st' = <[domain_id e := e]> (domains st) /\
    frames st' = frames st /\ to_npd st' = to_npd st ++ erpp_handle_update (erpp_master_active st) e old /\
    same_rest st st'.
Proof.
  intros Hi Ho Hp. assert (u32 (domain_id e) = domain_id e) as Hu by (apply u32_id; by eapply inv_range).
  pose proof (keeps_update P mac true mu e) as Hk. specialize (Hk (conj Hp (inv_range P mac mu st _ _ Hi Ho)) st Hi).
  revert Hk. unfold erpp_domain_update, mbind, M_bind, get_state, lift, ends. rewrite Hu.
  destruct Hi as [H1 H2 H3 H4 H5 H6]. rewrite st_get_view by done. fold (domains st). rewrite Ho.
  destruct (st_update_some (erpp_domain_db st) (domain_id e) e H1) as (t' & -> & Hok & Hs & Hv); [by exists old|].
  cbn. intros [Hi _]. eexists. split; [done|]. split_and!; try done.
Qed.

(** Bodies that leave the entry alone, and one after the other. *)
Definition seq_rel (R1 R2 : erpp_domain_s -> erpp_domain_s -> list erpp_frame -> Prop) e e' (sent : list erpp_frame) : Prop :=
  exists e1 s1 s2, R1 e e1 s1 /\ R2 e1 e' s2 /\ sent = s1 ++ s2.

Lemma visits_ret : visits mret (fun e e' s => e' = e /\ s = []).
Proof.
  intros e st Hi He. exists e, [], st. split_and!; try done; [by rewrite insert_id|by rewrite app_nil_r].
Qed.

Lemma visits_bind b1 b2 R1 R2 :
  visits b1 R1 -> visits b2 R2 -> visits (fun e => e ← b1 e; b2 e) (seq_rel R1 R2).
Proof.
  intros H1 H2 e st Hi He. destruct (H1 e st Hi He) as (e1 & s1 & st1 & E1 & Hi1 & Hd1 & Hm1 & Hf1 & [Hg1 Ha1] & HR1).
  destruct (H2 e1 st1 Hi1) as (e2 & s2 & st2 & E2 & Hi2 & Hd2 & Hm2 & Hf2 & [Hg2 Ha2] & HR2).
  { rewrite Hm1, Hd1. apply lookup_insert_eq. }
  exists e2, (s1 ++ s2), st2. unfold mbind, M_bind. rewrite E1, E2. split_and!; try done; [congruence| | | |].
  - rewrite Hm2, Hm1, Hd1. apply insert_insert_eq.
  - by rewrite Hf2, Hf1, app_assoc.
  - split; congruence.
  - by exists e1, s1, s2.
Qed.

Lemma visits_weaken b R R' : visits b R -> (forall e e' s, R e e' s -> R' e e' s) -> visits b R'.
Proof. intros Hb HR e st Hi He. destruct (Hb e st Hi He) as (e' & s & st' & ? & ? & ? & ? & ? & ? & HS). exists e', s, st'. split_and!; try done. by apply HR. Qed.

End visit.

(** ** Link up *)

Section linkup.
Context {T G : Type} `{!ArrayStore T erpp_domain_s, !ArrayStoreLaws T erpp_domain_s}.
Context `{!ArrayStore G Z, !ArrayStoreLaws G Z}.
Context (t : bool) (mac : list Z) (mu : bool -> Prop).
Implicit Types (e : erpp_domain_s) (st : erpp_state T G).

(** What a link-up does to the ring numbered [rid] and to a domain. *)
Definition linkup_at (netif : Z) e (rid : Z) : erpp_domain_s :=
  match rd (ring e) (rid - 1) with
  | Some r => if negb (is_enable r =? 0) && touches netif r then set_ring e (rid - 1) (linkup_ring netif r) else e
  | None => e
  end.

Definition linkup_domain (netif : Z) e : erpp_domain_s := foldl (linkup_at netif) e event_rings.

Lemma event_ring_visits netif rid :
  1 <= rid <= ERPP_RING_SIZE ->
  visits (T := T) (G := G) (domain_ok t) mac mu (event_ring netif (linkup_change netif) rid)
    (fun e e' s => e' = linkup_at netif e rid /\ s = []).
Proof.
  intros Hrid e st Hi He. pose proof (stored_good _ _ _ _ _ _ Hi He) as Hg. destruct (Hg) as [Hok _].
  destruct (rd_lt_Some (ring e) (rid - 1)) as [r Hr]; [unfold zlen; rewrite (ok_length _ _ Hok); unfold ERPP_RING_SIZE in *; lia|].
  unfold event_ring, ring_at, lift, mbind, M_bind, linkup_at. rewrite Hr. destruct (_ && _).
  - unfold linkup_change, mret, M_ret. set (e1 := set_ring _ _ _).
    destruct (update_spec (domain_ok t) mac mu e1 st e Hi He) as (st' & -> & Hi' & Hm & Hf & _ & Hrest).
    { apply domain_ok_set; [done|apply linkup_ring_ok; exact (domain_ok_rd _ _ _ _ Hok Hr)|].
      intros E. destruct (ok_tx _ _ Hok E) as [Hp|Hn]; [by left|right]. apply linkup_no_packet.
      exact (rd_Forall _ _ _ _ Hn Hr). }
    exists e1, [], st'. split_and!; try done. by rewrite app_nil_r.
  - exists e, [], st. split_and!; try done; [by rewrite insert_id|by rewrite app_nil_r].
Qed.

Lemma ring_loop_visits netif l :
  Forall (fun rid => 1 <= rid <= ERPP_RING_SIZE) l ->
  visits (T := T) (G := G) (domain_ok t) mac mu (ring_loop l (event_ring netif (linkup_change netif)))
    (fun e e' s => e' = foldl (linkup_at netif) e l /\ s = []).
Proof.
  induction 1 as [|rid l Hrid _ IH]; cbn [ring_loop foldl]; [apply visits_ret|].
  eapply visits_weaken; [apply visits_bind; [by apply event_ring_visits|exact IH]|].
  intros e e' s (e1 & s1 & s2 & [-> ->] & [-> ->] & ->). done.
Qed.

Lemma linkup_visits netif st :
  here (domain_ok t) mac mu st ->
  exists st', for_each_domain (ring_loop event_rings (event_ring netif (linkup_change netif))) st = Done (tt, st') /\
    here (domain_ok t) mac mu st' /\ frames st' = frames st /\ same_rest st st' /\
    forall i, domains st' !! i = if 1 <=? i then linkup_domain netif <$> domains st !! i else domains st !! i.
Proof.
  intros Hi. destruct (for_each_visits (domain_ok t) mac mu _ _ st (ring_loop_visits netif event_rings ltac:(repeat constructor; done)) Hi)
    as (st' & sent & E & Hi' & Hf & Hrest & Hv).
  assert (sent = []) as ->.
  { clear - Hv. revert Hv. generalize (seqZ 1 ERPP_DOMAIN_SIZE) as l, (domains st) as m. intros l.
    revert sent. induction l as [|i l IH]; intros sent m; cbn [visited]; [by intros [_ ->]|].
    destruct (m !! i); [|apply IH]. intros (e' & s1 & s2 & [_ ->] & -> & Hv). by rewrite (IH _ _ Hv). }
  exists st'. split_and!; [done|done|by rewrite Hf, app_nil_r|done|]. intros i.
  pose proof (visited_lookup _ _ _ _ _ i (NoDup_seqZ _ _) Hv) as Hl.
  destruct (domains st !! i) as [e|] eqn:Ei; [|by destruct (1 <=? i)].
  pose proof (inv_range _ _ _ _ _ _ Hi Ei). destruct (Z.leb_spec 1 i).
  - rewrite bool_decide_true in Hl by (apply elem_of_seqZ; lia). by destruct Hl as (e' & s & -> & [-> _] & _).
  - rewrite bool_decide_false in Hl by (rewrite elem_of_seqZ; lia). done.
Qed.

End linkup.

(** ** The fail timer of a master *)

Section timer.
Context {T G : Type} `{!ArrayStore T erpp_domain_s, !ArrayStoreLaws T erpp_domain_s}.
Context `{!ArrayStore G Z, !ArrayStoreLaws G Z}.
Implicit Types (e : erpp_domain_s) (r : erpp_ring_s) (st : erpp_state T G).

Definition with_frames st (s : list erpp_frame) : erpp_state T G :=
  ERPP (erpp_domain_db st) (erpp_global_array st) (erpp_master_active st) (semErppMutex st) (frames st ++ s) (to_npd st)
    (SysMac st).

(** Computations that at most send frames. *)
Definition sends {A} (m : M T G A) : Prop := forall st a st', m st = Done (a, st') -> exists s, st' = with_frames st s.

Lemma with_frames_nil st : with_frames st [] = st.
Proof. unfold with_frames. rewrite app_nil_r. by destruct st. Qed.

Lemma sends_ret {A} (a : A) : sends (mret a).
Proof. intros st b st' [= <- <-]. exists []. by rewrite with_frames_nil. Qed.

Lemma sends_bind {A B} (m : M T G A) (f : A -> M T G B) : sends m -> (forall a, sends (f a)) -> sends (m ≫= f).
Proof.
  intros Hm Hf st b st'. unfold mbind, M_bind. destruct (m st) as [[a st1]| | |] eqn:E; [|done..]. intros E'.
  destruct (Hm _ _ _ E) as [s1 ->]. destruct (Hf _ _ _ _ E') as [s2 ->]. exists (s1 ++ s2).
  unfold with_frames. cbn. by rewrite app_assoc.
Qed.

Lemma sends_lift {A} (x : option A) : sends (lift x).
Proof. intros st a st'. unfold lift. destruct x; [|done]. intros [= <- <-]. exists []. by rewrite with_frames_nil. Qed.

Lemma tx_eq e type netif r st :
  rd (ring e) (packet_ring e - 1) = Some r ->
  erpp_tx_type_packet e type netif st = Done (tt, with_frames st [erpp_assembly_packet (SysMac st) e r type netif]).
Proof. intros Hr. unfold erpp_tx_type_packet, ring_at, lift, mbind, M_bind. by rewrite Hr. Qed.

Lemma sends_tx e type netif : sends (erpp_tx_type_packet e type netif).
Proof.
  apply sends_bind; [apply sends_lift|]. intros r st a st'. unfold mbind, M_bind, get_state. intros [= <- <-]. by eexists.
Qed.

Lemma sends_timer_ring i e : sends (timer_ring i e).
Proof.
  unfold timer_ring, timer_hello, timer_fail, ring_at, decr.
  repeat first [ apply sends_ret | apply sends_tx | apply sends_lift | apply sends_bind; [|intros] | case_match ].
Qed.

Lemma sends_timer_loop l e : sends (ring_loop l timer_ring e).
Proof.
  revert e. induction l as [|i l IH]; intros e; cbn [ring_loop]; [apply sends_ret|].
  apply sends_bind; [apply sends_timer_ring|done].
Qed.

(** The ring at [k] is the only enabled one of its domain, and a master's. *)
Definition alone e (k : Z) r : Prop :=
  rd (ring e) k = Some r /\ is_enable r <> 0 /\ is_master r = true /\
  forall j r', j <> k -> rd (ring e) j = Some r' -> is_enable r' = 0.

Definition fail_ring r : erpp_ring_s :=
  with_node_status (with_ports r (erpp_port_status (port0 (node r))) FORWARDING) NODE_FAIL.

(** A flush for ring [r] of domain [e] that leaves through the primary port. *)
Definition flush_frame e r (f : erpp_frame) : Prop :=
  erpp_type (packet f) = COMMON_FLUSH_PACKET /\ ctrl_netif_index (sync_ctrl f) = netif_index (port0 (node r)) /\
  pkt_domain_id (packet f) = u16 (domain_id e) /\ pkt_ring_id (packet f) = u16 (ring_id r).

Definition timer_rel e e' (s : list erpp_frame) : Prop :=
  forall k r, alone e k r ->
    fail_timer e' = fail_timer e /\ domain_id e' = domain_id e /\
    if timer_count_1 e =? 0 then
      ring e' = <[Z.to_nat k := fail_ring r]> (ring e) /\ exists f, f ∈ s /\ flush_frame e r f
    else timer_count_1 e' = timer_count_1 e - 1 /\ ring e' = ring e.

Lemma timer_hello_rel i e r st e1 st1 :
  timer_hello i e r st = Done (e1, st1) ->
  (exists s, st1 = with_frames st s) /\ ring e1 = ring e /\ fail_timer e1 = fail_timer e /\ domain_id e1 = domain_id e /\
  timer_count_1 e1 = timer_count_1 e.
Proof.
  unfold timer_hello. destruct (timer_count_0 e =? 0).
  - intros E. unfold mbind, M_bind in E. set (e0 := with_packet_ring _ _) in E.
    destruct (erpp_tx_type_packet e0 _ _ st) as [[u st2]| | |] eqn:Etx; [|done..]. injection E as <- <-.
    by destruct (sends_tx _ _ _ _ _ _ Etx) as [s ->]; split; [exists s|].
  - intros [= <- <-]. split; [exists []; by rewrite with_frames_nil|done].
Qed.

Lemma timer_fail_rel i e r st e2 st2 :
  rd (ring e) (i - 1) = Some r -> timer_fail i e r st = Done (e2, st2) ->
  exists s, st2 = with_frames st s /\ fail_timer e2 = fail_timer e /\ domain_id e2 = domain_id e /\
  if timer_count_1 e =? 0 then
    ring e2 = <[Z.to_nat (i - 1) := fail_ring r]> (ring e) /\ exists f, f ∈ s /\ flush_frame e r f
  else timer_count_1 e2 = timer_count_1 e /\ ring e2 = ring e.
Proof.
  intros Hr. unfold timer_fail. destruct (timer_count_1 e =? 0).
  - intros E. unfold mbind, M_bind in E. erewrite tx_eq in E.
    2: { cbn. pose proof (rd_Some_lt _ _ _ Hr). rewrite rd_insert by done. by rewrite Z.eqb_refl. }
    injection E as <- <-. eexists. split_and!; try done. eexists. split; [by left|]. by split_and!.
  - intros [= <- <-]. exists []. by rewrite with_frames_nil.
Qed.

Lemma decr_eq x st y st' : decr (T := T) (G := G) x st = Done (y, st') -> y = x - 1 /\ st' = st.
Proof. unfold decr, lift. destruct (x =? _); [done|]. by intros [= <- <-]. Qed.

Lemma bind_Done {A B} (m : M T G A) (f : A -> M T G B) st b st' :
  (m ≫= f) st = Done (b, st') -> exists a st1, m st = Done (a, st1) /\ f a st1 = Done (b, st').
Proof. unfold mbind, M_bind. destruct (m st) as [[a st1]| | |]; [|done..]. eauto. Qed.

Lemma timer_master_rel i e r st e' st' :
  rd (ring e) (i - 1) = Some r -> is_enable r <> 0 -> is_master r = true -> timer_ring i e st = Done (e', st') ->
  exists s, st' = with_frames st s /\ fail_timer e' = fail_timer e /\ domain_id e' = domain_id e /\
  if timer_count_1 e =? 0 then
    ring e' = <[Z.to_nat (i - 1) := fail_ring r]> (ring e) /\ exists f, f ∈ s /\ flush_frame e r f
  else timer_count_1 e' = timer_count_1 e - 1 /\ ring e' = ring e.
Proof.
  intros Hr Hen Hm E. unfold timer_ring, mbind at 1, M_bind at 1, ring_at, lift in E. rewrite Hr in E.
  apply Z.eqb_neq in Hen. rewrite Hen in E. unfold is_master in Hm. rewrite Hm in E.
  apply bind_Done in E as (e1 & st1 & E1 & E). apply timer_hello_rel in E1 as ([s1 ->] & Hrg & Hf1 & Hd1 & Hc1).
  apply bind_Done in E as (e2 & st2 & E2 & E). apply timer_fail_rel in E2 as (s2 & -> & Hf2 & Hd2 & H2); [|by rewrite Hrg].
  apply bind_Done in E as (c0 & st3 & [-> ->]%decr_eq & E). apply bind_Done in E as (c1 & st4 & [-> ->]%decr_eq & E).
  injection E as <- <-. exists (s1 ++ s2). cbn. rewrite Hc1, Hrg in H2.
  split_and!; [unfold with_frames; cbn; by rewrite app_assoc|congruence|congruence|].
  destruct (timer_count_1 e =? 0); destruct H2 as [H2 H3].
  - split; [done|]. destruct H3 as (f & Hin & Hf). exists f. split; [rewrite elem_of_app; by right|].
    unfold flush_frame in *. by rewrite <- Hd1.
  - split; [lia|done].
Qed.

(** Rings that are not enabled are skipped. *)
Lemma timer_disabled l e st :
  Forall (fun i => exists r, rd (ring e) (i - 1) = Some r /\ is_enable r = 0) l -> ring_loop l timer_ring e st = Done (e, st).
Proof.
  induction 1 as [|i l (r & Hr & Hz) _ IH]; cbn [ring_loop]; [done|].
  unfold mbind, M_bind. replace (timer_ring i e st) with (Done (e, st)); [exact IH|].
  unfold timer_ring, mbind, M_bind, ring_at, lift. by rewrite Hr, Hz.
Qed.

Lemma ring_loop_app l1 l2 (body : Z -> erpp_domain_s -> M T G erpp_domain_s) e st :
  ring_loop (l1 ++ l2) body e st = (e ← ring_loop l1 body e; ring_loop l2 body e) st.
Proof.
  revert e st. induction l1 as [|i l1 IH]; intros e st; [done|]. cbn [app ring_loop]. unfold mbind, M_bind.
  destruct (body i e st) as [[e1 st1]| | |]; [apply IH|done..].
Qed.

Lemma timer_loop_rel e st e' st' :
  domain_ok true e -> ring_loop (seqZ 1 ERPP_RING_SIZE) timer_ring e st = Done (e', st') ->
  exists s, st' = with_frames st s /\ timer_rel e e' s.
Proof.
  intros Hok E. destruct (sends_timer_loop _ _ _ _ _ E) as [s ->]. exists s. split; [done|].
  intros k r (Hr & Hen & Hm & Hother). pose proof (rd_Some_lt _ _ _ Hr) as Hk. rewrite (rings_length true) in Hk by done.
  assert (forall i, 1 <= i <= ERPP_RING_SIZE -> i <> k + 1 -> exists r', rd (ring e) (i - 1) = Some r' /\ is_enable r' = 0) as Hdis.
  { intros i Hi Hne. destruct (rd_lt_Some (ring e) (i - 1)) as [r' Hr']; [rewrite (rings_length true) by done; lia|].
    exists r'. split; [done|]. apply (Hother (i - 1) r'); [lia|done]. }
  replace ERPP_RING_SIZE with (k + Z.succ (ERPP_RING_SIZE - 1 - k)) in E by lia.
  rewrite seqZ_app, ring_loop_app in E by lia. unfold mbind, M_bind in E.
  rewrite timer_disabled in E by (apply Forall_forall; intros i Hi%elem_of_seqZ; apply Hdis; lia).
  rewrite seqZ_cons in E by lia. cbn [ring_loop] in E. apply bind_Done in E as (e1 & st1 & E1 & E2).
  replace (1 + k) with (k + 1) in E1 by lia. apply (timer_master_rel _ _ r) in E1 as (s1 & -> & Hf & Hd & H1); [|by replace (k + 1 - 1) with k by lia|done..].
  rewrite timer_disabled in E2.
  - injection E2 as -> E2. apply app_inv_head in E2. subst s1.
    by replace (k + 1 - 1) with k in H1 by lia.
  - apply Forall_forall. intros i Hi%elem_of_seqZ. destruct (Hdis i) as (r' & Hr' & Hz); [lia|lia|]. exists r'. split; [|done].
    replace (k + 1 - 1) with k in H1 by lia. destruct (timer_count_1 e =? 0); destruct H1 as [H1 H2].
    + rewrite H1, rd_insert by (rewrite (rings_length true) by done; lia). destruct (Z.eqb_spec (i - 1) k); [lia|done].
    + by rewrite H2.
Qed.

Lemma timer_visits mac mu : visits (T := T) (G := G) (domain_ok true) mac mu erpp_domain_timer_handler timer_rel.
Proof.
  intros e st Hi He. pose proof (stored_good _ _ _ _ _ _ Hi He) as Hg.
  pose proof (entry_timer_loop true mac mu e Hg st Hi) as Hl. unfold ends in Hl. unfold erpp_domain_timer_handler, mbind at 1, M_bind at 1.
  destruct (ring_loop _ timer_ring e st) as [[e1 st1]| | |] eqn:El; [|done..]. destruct Hl as [Hi1 [[Hok1 _] Hd1]].
  destruct (timer_loop_rel e st e1 st1 (proj1 Hg) El) as (s & -> & HR).
  destruct (update_spec (domain_ok true) mac mu e1 (with_frames st s) e Hi1) as (st2 & E2 & Hi2 & Hm2 & Hf2 & _ & Hrest);
    [by rewrite Hd1|done|].
  unfold mbind, M_bind. rewrite E2. exists e1, s, st2. split_and!; try done. by rewrite Hm2, Hd1.
Qed.

End timer.

(** ** A started daemon *)

Definition demo_mac : list Z := [0; 0x1f; 0x64; 0; 0; 1].

Definition demo_init : erpp_state (db_table_t erpp_domain_s) (db_table_t Z) :=
  match erpp_db_init true demo_mac with
  | Some (_, st) => st
  | None => ERPP (create_dbtable 0 0 0) (create_dbtable 0 0 0) true false [] [] demo_mac
  end.

Lemma demo_init_idle t : idle t demo_mac demo_init.
Proof.
  destruct (create_wf (D := erpp_domain_s) (ERPP_DOMAIN_SIZE + 1) 220 1) as (Hw & Hc & Hn);
    [unfold ERPP_DOMAIN_SIZE; lia|unfold MAX_SEND_SIZE, SYNC_HEADER_SIZE; lia|].
  destruct (create_wf (D := Z) 1 4 1) as (Hw' & Hc' & Hn'); [lia|unfold MAX_SEND_SIZE, SYNC_HEADER_SIZE; lia|].
  set (g0 := dbtable_create_array_index (create_dbtable 1 4 1) : db_table_t Z).
  assert (wf_db g0) as Hg0 by (unfold g0, dbtable_create_array_index; by rewrite core_with_index).
  pose proof (array_step_ok erpp_global_ops 0 0 g0 (Insert 0) Hg0) as Hst.
  unfold demo_init, erpp_db_init. fold g0. cbn [array_exec] in Hst.
  destruct (dbtable_array_insert erpp_global_ops g0 0 0 0) as [[[c i] g]|] eqn:E.
  2: { vm_compute in E. discriminate. }
  destruct (array_spec _ _ _) as [res m]. destruct Hst as (db1 & E1 & _ & Hwf & _). cbn in E1. injection E1 as _ <-.
  cbn [mbind option_bind]. split; try done. cbn. unfold dbtable_create_array_index. by rewrite core_with_index.
Qed.

(** Domain 1 with ring 2, this node its master with ports 10 and 20. *)
Definition demo_ops : list erpp_op :=
  [SetDomain 1 1; EnableGlobal 1; SetInstance 1 3; SetControlVlan 1 100; ConfigureRing 1 2 NODE_MASTER 10 20 1; EnableRing 1 2 1].

Definition demo_after (l : list erpp_op) : erpp_state (db_table_t erpp_domain_s) (db_table_t Z) :=
  match erpp_run l demo_init with Done (_, st) => st | _ => demo_init end.

Definition demo_state := demo_after (take 6 demo_ops).

(** Step through a run of the demonstration, whose next operation is number
    [n] of [l]. *)
Ltac demo_step l n := apply (run_ok_step _ _ _ (demo_after (take n l))); [|vm_compute; reflexivity|].

(** ** Theorems *)

(** C7: No loop at the master: after any sequence of commands, packets,
    interface events, switchovers and timer ticks that the daemon survives,
    a configured ring whose master holds it for complete has at least one
    port that does not forward. *)
Theorem complete_master_blocks_one_port {T G} `{!ArrayStore T erpp_domain_s, !ArrayStoreLaws T erpp_domain_s}
    `{!ArrayStore G Z, !ArrayStoreLaws G Z} (st st' : erpp_state T G) mac l i e r :
  idle false mac st -> erpp_run l st = Done (tt, st') ->
  domains st' !! i = Some e -> r ∈ ring e -> ring_id r <> 0 -> erpp_node_role (node r) = NODE_MASTER ->
  erpp_node_status (node r) = NODE_COMPLETE ->
  erpp_port_status (port0 (node r)) <> FORWARDING \/ erpp_port_status (port1 (node r)) <> FORWARDING.
Proof.
  intros Hi E He Hr Hid Hm Hs. pose proof (run_idle mac l st Hi) as H. rewrite E in H.
  destruct (inv_domains _ _ _ _ H i e He) as [_ [_ Hrings _ _]]. rewrite Forall_forall in Hrings.
  destruct (Hrings r Hr) as [Hf _]. destruct (Hf Hid) as [_ Hp]; [unfold is_master; by rewrite Hm|].
  specialize (Hp Hs). unfold ports_are in Hp. destruct (Z.eqb_spec FORWARDING (erpp_port_status (port0 (node r)))); [|by left].
  destruct (Z.eqb_spec FORWARDING (erpp_port_status (port1 (node r)))); [done|by right].
Qed.

(** The fail timer opens the ring, the hello closes it again. *)
Definition demo_hello : erpp_frame :=
  erpp_assembly_packet demo_mac (zero_domain 1) (Ring 2 1 1 (Node 0 0 zero_port zero_port)) HELLO_PACKET 20.

Lemma complete_master_blocks_one_port_witness :
  exists st' e r, erpp_run (demo_ops ++ replicate 10 Tick ++ [Receive demo_hello 132]) demo_init = Done (tt, st') /\
    domains st' !! 1 = Some e /\ rd (ring e) 1 = Some r /\ erpp_node_status (node r) = NODE_COMPLETE /\
    (erpp_port_status (port0 (node r)) <> FORWARDING \/ erpp_port_status (port1 (node r)) <> FORWARDING).
Proof.
  destruct (erpp_run (demo_ops ++ replicate 10 Tick ++ [Receive demo_hello 132]) demo_init) as [[[] st']| | |] eqn:E;
    [|vm_compute in E; discriminate..].
  assert (exists e r, domains st' !! 1 = Some e /\ rd (ring e) 1 = Some r /\ r ∈ ring e /\ ring_id r <> 0 /\
    erpp_node_role (node r) = NODE_MASTER /\ erpp_node_status (node r) = NODE_COMPLETE) as (e & r & He & Hr & Hin & H1 & H2 & H3).
  { vm_compute in E. injection E as <-. eexists _, _. split; [vm_compute; reflexivity|]. split; [vm_compute; reflexivity|].
    split; [right; left|]. split; [discriminate|]. split; reflexivity. }
  exists st', e, r. split; [reflexivity|]. split; [exact He|]. split; [exact Hr|]. split; [exact H3|].
  exact (complete_master_blocks_one_port demo_init st' demo_mac _ 1 e r (demo_init_idle false) E He Hin H1 H2 H3).
Defined.

(** C8: The daemon keeps running: from a state with a free mutex and good
    domains without edge nodes, every sequence of operations that keep to
    the ranges the code relies on returns, with no index out of bounds, no
    overflow and no endless wait, and leaves the mutex free and every domain
    good. *)
Theorem erpp_runs_return {T G} `{!ArrayStore T erpp_domain_s, !ArrayStoreLaws T erpp_domain_s}
    `{!ArrayStore G Z, !ArrayStoreLaws G Z} (st : erpp_state T G) mac l :
  idle true mac st -> run_ok l st ->
  exists st', erpp_run l st = Done (tt, st') /\ semErppMutex st' = false /\
    forall i e, domains st' !! i = Some e -> domain_id e = i /\ 0 <= i <= ERPP_DOMAIN_SIZE /\ domain_ok true e.
Proof.
  intros Hi Hl. destruct (run_returns mac l st Hi Hl) as (st' & E & H). exists st'. split; [done|].
  split; [by apply (inv_mutex _ _ _ _ H)|]. intros i e He. destruct (inv_domains _ _ _ _ H i e He) as [Hd Hok].
  split_and!; try done; by eapply inv_range.
Qed.

Lemma demo_ops_ok l : run_ok l (demo_after (take 6 demo_ops)) -> run_ok (demo_ops ++ l) demo_init.
Proof.
  intros Hl.
  demo_step demo_ops 1%nat; [exact I|]. demo_step demo_ops 2%nat; [exact I|]. demo_step demo_ops 3%nat; [exact I|].
  demo_step demo_ops 4%nat; [exact I|]. demo_step demo_ops 5%nat.
  { split; [vm_compute; by eexists|]. split; [vm_compute; split; discriminate|by left]. }
  demo_step demo_ops 6%nat; [vm_compute; split; discriminate|].
  exact Hl.
Qed.

(** Ticks, a lost link and a hello of our own. *)
Definition demo_events : list erpp_op :=
  [Tick; Event true 10 PORT_NOTIFIER_LINKDOWN_E; Receive demo_hello 132; Tick].

Lemma demo_events_ok : run_ok demo_events (demo_after (take 6 demo_ops)).
Proof.
  demo_step (demo_ops ++ demo_events) 7%nat; [exact I|]. demo_step (demo_ops ++ demo_events) 8%nat; [exact I|].
  demo_step (demo_ops ++ demo_events) 9%nat; [|demo_step (demo_ops ++ demo_events) 10%nat; [exact I|constructor]].
  split; [vm_compute; discriminate|]. intros e He. vm_compute in He. injection He as <-.
  split; [vm_compute; discriminate|]. split; [intros H; vm_compute in H; discriminate|].
  intros _ _ r Hr. vm_compute in Hr. injection Hr as <-. reflexivity.
Qed.

Lemma erpp_runs_return_witness :
  exists st', erpp_run (demo_ops ++ demo_events) demo_init = Done (tt, st') /\ semErppMutex st' = false.
Proof.
  destruct (erpp_runs_return demo_init demo_mac (demo_ops ++ demo_events) (demo_init_idle true)) as (st' & E & Hm & _).
  - apply demo_ops_ok, demo_events_ok.
  - exists st'. split; [exact E|exact Hm].
Defined.

(** One tick of an enabled daemon visits every domain. *)
Lemma tick_spec {T G} `{!ArrayStore T erpp_domain_s, !ArrayStoreLaws T erpp_domain_s} `{!ArrayStore G Z, !ArrayStoreLaws G Z}
    (st : erpp_state T G) mac x :
  idle true mac st -> st_get (erpp_global_array st) 0 = Some x -> x <> 0 ->
  exists st' sent, erpp_exec Tick st = Done (tt, st') /\ idle true mac st' /\ frames st' = frames st ++ sent /\
    erpp_global_array st' = erpp_global_array st /\
    visited timer_rel (seqZ 1 ERPP_DOMAIN_SIZE) (domains st) (domains st') sent.
Proof.
  intros Hi Hg Hx. set (st0 := ERPP (erpp_domain_db st) (erpp_global_array st) (erpp_master_active st) true (frames st)
    (to_npd st) (SysMac st)).
  assert (here (domain_ok true) mac (fun _ => True) st0) as Hi0 by (by destruct Hi).
  destruct (for_each_visits _ mac _ _ _ st0 (timer_visits mac (fun _ => True)) Hi0) as (st1 & s & E & Hi1 & Hf & [Hg1 _] & Hv).
  eexists _, s. split.
  - cbn [erpp_exec]. unfold erpp_timer_handler, mbind, M_bind, get_state. rewrite Hg. apply Z.eqb_neq in Hx. rewrite Hx.
    unfold pthread_mutex_lock. rewrite (inv_mutex _ _ _ _ Hi eq_refl). fold st0. rewrite E. reflexivity.
  - split; [by destruct Hi1|]. split_and!; done.
Qed.

(** C9: The fail timer opens the ring: when the only enabled ring of a domain
    is one this node is master of and no hello comes back, then after as many
    ticks as the fail counter plus one the node holds the ring for failed,
    its secondary port forwards, and a flush for the ring left through the
    primary port. *)
Theorem fail_timer_opens_secondary {T G} `{!ArrayStore T erpp_domain_s, !ArrayStoreLaws T erpp_domain_s}
    `{!ArrayStore G Z, !ArrayStoreLaws G Z} (st : erpp_state T G) mac x i e k r n :
  idle true mac st -> st_get (erpp_global_array st) 0 = Some x -> x <> 0 ->
  1 <= i -> domains st !! i = Some e -> alone e k r -> timer_count_1 e = Z.of_nat n ->
  exists st' e' r', erpp_run (replicate (S n) Tick) st = Done (tt, st') /\ domains st' !! i = Some e' /\
    rd (ring e') k = Some r' /\ erpp_node_status (node r') = NODE_FAIL /\
    erpp_port_status (port1 (node r')) = FORWARDING /\
    erpp_port_status (port0 (node r')) = erpp_port_status (port0 (node r)) /\
    exists f, f ∈ frames st' /\ flush_frame e r f.
Proof.
  revert st e. induction n as [|n IH]; intros st e Hi Hg Hx Hr He Ha Hc.
  all: destruct (tick_spec st mac x Hi Hg Hx) as (st1 & s & E1 & Hi1 & Hf1 & Hg1 & Hv).
  all: pose proof (visited_lookup _ _ _ _ _ i (NoDup_seqZ _ _) Hv) as Hl; rewrite He in Hl.
  all: pose proof (inv_range _ _ _ _ _ _ Hi He) as Hrange.
  all: rewrite bool_decide_true in Hl by (apply elem_of_seqZ; lia); destruct Hl as (e1 & s1 & He1 & HR & Hs1).
  all: destruct (HR k r Ha) as (Hft & Hd & H1); rewrite Hc in H1.
  - destruct H1 as [Hrings (f & Hin & Hff)]. pose proof (rd_Some_lt _ _ _ (proj1 Ha)).
    exists st1, e1, (fail_ring r). cbn [replicate erpp_run]. unfold mbind, M_bind. rewrite E1.
    split_and!; try done; [by rewrite Hrings, rd_insert, Z.eqb_refl by done|].
    exists f. split; [rewrite Hf1; apply elem_of_app; right; by apply Hs1|done].
  - destruct (Z.eqb_spec (Z.of_nat (S n)) 0); [lia|]. destruct H1 as [Hc1 Hrings].
    assert (alone e1 k r) as Ha1 by (unfold alone; by rewrite Hrings).
    destruct (IH st1 e1) as (st2 & e2 & r2 & E2 & H2); try done; [congruence|lia|].
    exists st2, e2, r2. rewrite replicate_S. cbn [erpp_run]. unfold mbind, M_bind. rewrite E1. split; [exact E2|].
    unfold flush_frame in *. by rewrite <- Hd.
Qed.

Lemma demo_state_idle : idle true demo_mac demo_state.
Proof.
  destruct (run_returns demo_mac demo_ops demo_init (demo_init_idle true)) as (st' & E & H).
  - rewrite <- (app_nil_r demo_ops). apply demo_ops_ok. constructor.
  - unfold demo_state, demo_after. change (take 6 demo_ops) with demo_ops. by rewrite E.
Qed.

(** The only ring of the demonstration domain. *)
Definition demo_ring : erpp_ring_s :=
  Ring 2 1 1 (Node NODE_MASTER NODE_COMPLETE (Port 10 PORT_PRIMARY FORWARDING) (Port 20 PORT_SECONDARY BLOCK)).
Definition demo_domain : erpp_domain_s :=
  Domain 1 100 0 3 3 9 9 3 9 9 0 0 [zero_ring; demo_ring; zero_ring; zero_ring].

Lemma demo_state_domain : domains demo_state !! 1 = Some demo_domain.
Proof. vm_compute. reflexivity. Qed.

Lemma demo_alone : alone demo_domain 1 demo_ring.
Proof.
  split; [done|]. split; [discriminate|]. split; [done|]. intros j r Hj Hr.
  pose proof (rd_Some_lt _ _ _ Hr) as Hk. change (zlen (ring demo_domain)) with 4 in Hk.
  assert (j = 0 \/ j = 2 \/ j = 3) as [-> | [-> | ->]] by lia; vm_compute in Hr; by injection Hr as <-.
Qed.

Lemma fail_timer_opens_secondary_witness :
  exists st' e' r', erpp_run (replicate 10 Tick) demo_state = Done (tt, st') /\ domains st' !! 1 = Some e' /\
    rd (ring e') 1 = Some r' /\ erpp_port_status (port1 (node r')) = FORWARDING.
Proof.
  destruct (fail_timer_opens_secondary demo_state demo_mac 1 1 demo_domain 1 demo_ring 9 demo_state_idle)
    as (st' & e' & r' & E & He & Hr & _ & Hp & _); [vm_compute; reflexivity|discriminate|lia|exact demo_state_domain|
    exact demo_alone|reflexivity|].
  exists st', e', r'. split; [exact E|]. split; [exact He|]. split; [exact Hr|exact Hp].
Defined.

(** ** Packets *)

Section packets.
Context {T G : Type} `{!ArrayStore T erpp_domain_s, !ArrayStoreLaws T erpp_domain_s} `{!ArrayStore G Z, !ArrayStoreLaws G Z}.
Implicit Types (st : erpp_state T G) (e : erpp_domain_s) (r : erpp_ring_s).

Definition with_mutex st (b : bool) : erpp_state T G :=
  ERPP (erpp_domain_db st) (erpp_global_array st) (erpp_master_active st) b (frames st) (to_npd st) (SysMac st).

(** A frame for ring [r] of the stored domain [e]. *)
Definition frame_for st (buff : erpp_frame) e r : Prop :=
  1 <= pkt_ring_id (packet buff) <= ERPP_RING_SIZE /\ 0 <= pkt_domain_id (packet buff) < 2 ^ 16 /\
  domains st !! pkt_domain_id (packet buff) = Some e /\ rd (ring e) (pkt_ring_id (packet buff) - 1) = Some r.

Lemma key_u16 d : 0 <= d < 2 ^ 16 -> key d = d.
Proof. intros H. unfold key, s32, u32, wrap. destruct (_ <? _) eqn:E; dlia. Qed.

Lemma rx_found mac st buff len e r :
  idle true mac st -> 0 < len -> frame_for st buff e r -> is_enable r <> 0 ->
  erpp_packet_rx_callback buff len st =
    (c ← erpp_packet_rx_hander buff e (erpp_type (packet buff)); pthread_mutex_unlock;; mret c) (with_mutex st true).
Proof.
  intros Hi Hl (Hr & Hd & He & Hrd) Hen. unfold erpp_packet_rx_callback.
  destruct (Z.leb_spec len 0); [lia|]. destruct (Z.ltb_spec ERPP_RING_SIZE (pkt_ring_id (packet buff))); [lia|].
  unfold mbind at 1, M_bind at 1, pthread_mutex_lock. rewrite (inv_mutex _ _ _ _ Hi eq_refl). fold (with_mutex st true).
  rewrite search_bind, st_get_view by exact (inv_store _ _ _ _ Hi). cbn [with_mutex erpp_domain_db]. fold (domains st).
  change (u32 (domain_id (zero_domain (pkt_domain_id (packet buff))))) with (key (pkt_domain_id (packet buff))).
  rewrite key_u16, He by done. unfold ring_at, lift, mbind at 1, M_bind at 1. rewrite Hrd.
  apply Z.eqb_neq in Hen. by rewrite Hen.
Qed.

(** A ring that did not change needs no request. *)
Lemma ring_request_same i f r : ring_request i f r r = [].
Proof. unfold ring_request. rewrite !Z.eqb_refl. cbn. by destruct (ring_id r =? 0), (is_enable r =? 0). Qed.

Lemma zip_request_same i f l : concat (zip_with (ring_request i f) l l) = [].
Proof. induction l as [|r l IH]; [done|]. cbn. by rewrite ring_request_same, IH. Qed.

End packets.

(** C10: Recovery of a ring: when a hello of its own comes back to a node that
    holds the ring for failed, the node holds it for complete, blocks the
    secondary port if the primary forwards, sends a complete flush through
    both ports and the requests of the change to npd, and releases the
    mutex. *)
Theorem hello_restores_ring {T G} `{!ArrayStore T erpp_domain_s, !ArrayStoreLaws T erpp_domain_s}
    `{!ArrayStore G Z, !ArrayStoreLaws G Z} (st : erpp_state T G) mac buff len e r :
  idle true mac st -> 0 < len -> frame_for st buff e r -> is_enable r <> 0 ->
  erpp_type (packet buff) = HELLO_PACKET -> sys_mac (packet buff) = mac -> erpp_node_status (node r) = NODE_FAIL ->
  exists st' e' r', erpp_packet_rx_callback buff len st = Done (0, st') /\ semErppMutex st' = false /\
    domains st' = <[domain_id e := e']> (domains st) /\ rd (ring e') (pkt_ring_id (packet buff) - 1) = Some r' /\
    erpp_node_status (node r') = NODE_COMPLETE /\
    erpp_port_status (port0 (node r')) = erpp_port_status (port0 (node r)) /\
    (erpp_port_status (port0 (node r)) = FORWARDING -> erpp_port_status (port1 (node r')) = BLOCK) /\
    frames st' = frames st ++ [erpp_assembly_packet mac e' r' COMPLETE_FLUSH_PACKET (netif_index (port0 (node r)));
                               erpp_assembly_packet mac e' r' COMPLETE_FLUSH_PACKET (netif_index (port1 (node r)))] /\
    to_npd st' = to_npd st ++ erpp_handle_update (erpp_master_active st) e' e.
Proof.
  intros Hi Hl Hf Hen Ht Hown Hs. rewrite (rx_found mac st buff len e r Hi Hl Hf Hen).
  destruct Hf as (Hrid & Hd & He & Hrd). pose proof (stored_good _ _ _ _ _ _ Hi He) as Hg.
  set (r' := close_secondary (with_node_status r NODE_COMPLETE)).
  set (e' := with_packet_ring (set_ring (with_flush e 1) (pkt_ring_id (packet buff) - 1) r') (pkt_ring_id (packet buff))).
  assert (rd (ring e') (pkt_ring_id (packet buff) - 1) = Some r') as Hr'.
  { cbn. rewrite rd_insert by (by eapply rd_Some_lt). by rewrite Z.eqb_refl. }
  assert (domain_ok true e') as Hok.
  { destruct (Hg) as [Hok _]. apply domain_ok_set_tx; [by apply domain_ok_flush|apply close_secondary_ok; exact (domain_ok_rd _ _ _ _ Hok Hrd)|done]. }
  destruct (inv_domains _ _ _ _ Hi _ _ He) as [Hde _].
  destruct (update_spec (domain_ok true) mac (fun _ => True) e' (with_mutex st true) e) as (st1 & E1 & Hi1 & Hm1 & Hf1 & Hn1 & _);
    [by destruct Hi|cbn; by rewrite Hde|done|].
  pose proof (inv_mac _ _ _ _ Hi) as Hmac. pose proof (inv_mac _ _ _ _ Hi1) as Hmac1.
  assert (netif_index (port0 (node r')) = netif_index (port0 (node r)) /\ netif_index (port1 (node r')) = netif_index (port1 (node r)) /\
    erpp_node_status (node r') = NODE_COMPLETE /\ erpp_port_status (port0 (node r')) = erpp_port_status (port0 (node r)) /\
    (erpp_port_status (port0 (node r)) = FORWARDING -> erpp_port_status (port1 (node r')) = BLOCK)) as (N0 & N1 & Hst & Hp0 & Hp1).
  { unfold r', close_secondary. cbn. destruct (Z.eqb_spec (erpp_port_status (port0 (node r))) FORWARDING); by split_and!. }
  eexists _, e', r'. split.
  - rewrite Ht. unfold erpp_packet_rx_hander. rewrite Z.eqb_refl.
    unfold erpp_packet_hello_process, own_packet, ring_at, lift, mbind, M_bind, get_state, mret, M_ret.
    cbn [with_mutex SysMac]. rewrite Hmac, bool_decide_true by done. cbn [negb]. rewrite Hrd, Hs, Z.eqb_refl.
    fold r' e'. rewrite E1. change (negb (0 =? 0)) with false. cbv beta iota.
    rewrite (tx_eq e' _ _ r') by done. cbv beta iota. rewrite (tx_eq e' _ _ r') by done. reflexivity.
  - cbn. rewrite Hf1, Hn1, N0, N1, Hmac1. split_and!; try done. by rewrite <- app_assoc.
Qed.

Lemma run_ok_ticks {T G} `{!ArrayStore T erpp_domain_s} `{!ArrayStore G Z} n (st : erpp_state T G) : run_ok (replicate n Tick) st.
Proof. revert st. induction n as [|n IH]; intros st; constructor; [done|]. intros st' _. apply IH. Qed.

Lemma hello_restores_ring_witness :
  exists st e r st' e' r', erpp_run (replicate 10 Tick) demo_state = Done (tt, st) /\
    rd (ring e) 1 = Some r /\ erpp_port_status (port1 (node r)) = FORWARDING /\
    erpp_packet_rx_callback demo_hello 132 st = Done (0, st') /\ domains st' = <[1 := e']> (domains st) /\
    rd (ring e') 1 = Some r' /\ erpp_node_status (node r') = NODE_COMPLETE /\ erpp_port_status (port1 (node r')) = BLOCK.
Proof.
  destruct (run_returns demo_mac (replicate 10 Tick) demo_state demo_state_idle (run_ok_ticks 10 demo_state)) as (st & E & Hi).
  assert (exists e r, frame_for st demo_hello e r /\ domain_id e = 1 /\ rd (ring e) 1 = Some r /\ is_enable r <> 0 /\
    erpp_node_status (node r) = NODE_FAIL /\ erpp_port_status (port0 (node r)) = FORWARDING /\
    erpp_port_status (port1 (node r)) = FORWARDING) as (e & r & Hf & Hd & Hr & Hen & Hs & Hp0 & Hp1).
  { vm_compute in E. injection E as <-. eexists _, _. split.
    - split; [vm_compute; split; discriminate|]. split; [vm_compute; split; [discriminate|reflexivity]|].
      split; vm_compute; reflexivity.
    - repeat split; discriminate. }
  destruct (hello_restores_ring st demo_mac demo_hello 132 e r Hi) as (st' & e' & r' & E' & _ & Hm & Hr' & Hs' & _ & Hb & _);
    [lia|exact Hf|exact Hen|reflexivity|reflexivity|exact Hs|].
  exists st, e, r, st', e', r'. rewrite Hd in Hm. split_and!; try assumption. apply Hb. exact Hp0.
Defined.

(** A link-up on the rings of a domain. *)
Lemma linkup_at_rd netif e rid k :
  rd (ring (linkup_at netif e rid)) k =
    (fun r => if (k =? rid - 1) && (negb (is_enable r =? 0) && touches netif r) then linkup_ring netif r else r) <$> rd (ring e) k.
Proof.
  assert (forall x : option erpp_ring_s, (fun r => r) <$> x = x) as Hid by (by intros []).
  unfold linkup_at. destruct (rd (ring e) (rid - 1)) as [r|] eqn:Er.
  - destruct (_ && _) eqn:Ec.
    + cbn. rewrite rd_insert by (by eapply rd_Some_lt). destruct (Z.eqb_spec k (rid - 1)) as [->|]; cbn [andb]; [|by rewrite Hid].
      rewrite Er. cbn. by rewrite Ec.
    + destruct (Z.eqb_spec k (rid - 1)) as [->|]; cbn [andb]; [|by rewrite Hid]. rewrite Er. cbn. by rewrite Ec.
  - destruct (Z.eqb_spec k (rid - 1)) as [->|]; cbn [andb]; [by rewrite Er|by rewrite Hid].
Qed.

Lemma linkup_domain_rd netif e k r :
  rd (ring e) k = Some r ->
  rd (ring (linkup_domain netif e)) k =
    Some (if (k <? ERPP_RING_SIZE - 1) && (negb (is_enable r =? 0) && touches netif r) then linkup_ring netif r else r).
Proof.
  intros Hr. pose proof (rd_Some_lt _ _ _ Hr) as Hk. unfold linkup_domain. change event_rings with [1; 2; 3]. cbn [foldl].
  rewrite !linkup_at_rd, Hr. cbn [fmap option_fmap option_map]. f_equal. unfold ERPP_RING_SIZE.
  destruct (Z.eqb_spec k (1 - 1)), (Z.eqb_spec k (2 - 1)), (Z.eqb_spec k (3 - 1)), (Z.ltb_spec k (4 - 1)); try lia; cbn [andb]; done.
Qed.

(** A link-up event visits every domain once and changes exactly the
    enabled rings numbered 1 to 3 that have the interface, as the table of
    port states and roles says; it sends nothing and releases the mutex.
    Ring 4 is never visited. *)
Theorem linkup_event_exact {T G} `{!ArrayStore T erpp_domain_s, !ArrayStoreLaws T erpp_domain_s}
    `{!ArrayStore G Z, !ArrayStoreLaws G Z} (st : erpp_state T G) mac netif :
  idle true mac st ->
  exists st', erpp_app_event_linkup netif st = Done (0, st') /\ idle true mac st' /\ frames st' = frames st /\
    forall i, match domains st !! i with
              | None => domains st' !! i = None
              | Some e => exists e', domains st' !! i = Some e' /\ forall k r, rd (ring e) k = Some r ->
                  rd (ring e') k = Some (if (1 <=? i) && (k <? ERPP_RING_SIZE - 1) && (negb (is_enable r =? 0) && touches netif r)
                                         then linkup_ring netif r else r)
              end.
Proof.
  intros Hi. destruct (linkup_visits true mac (fun _ => True) netif (with_mutex st true)) as (st1 & E & Hi1 & Hf & _ & Hd);
    [by destruct Hi|].
  exists (with_mutex st1 false). split_and!.
  - unfold erpp_app_event_linkup, mbind at 1, M_bind at 1, pthread_mutex_lock. rewrite (inv_mutex _ _ _ _ Hi eq_refl).
    fold (with_mutex st true). unfold mbind, M_bind. by rewrite E.
  - by destruct Hi1.
  - exact Hf.
  - intros i. specialize (Hd i). change (domains (with_mutex st1 false)) with (domains st1).
    change (domains (with_mutex st true)) with (domains st) in Hd. rewrite Hd.
    destruct (domains st !! i) as [e|]; [|by destruct (1 <=? i)]. destruct (1 <=? i); cbn [fmap option_fmap option_map andb].
    + eexists. split; [done|]. intros k r Hr. by apply linkup_domain_rd.
    + exists e. split; [done|]. intros k r Hr. done.
Qed.

Lemma linkup_event_exact_witness :
  exists st', erpp_app_event_linkup 20 demo_state = Done (0, st') /\ frames st' = frames demo_state.
Proof.
  destruct (linkup_event_exact demo_state demo_mac 20 demo_state_idle) as (st' & E & _ & Hf & _).
  exists st'. split; [exact E|exact Hf].
Defined.

(** C38: Let the daemon be between two operations, its tables in order and the
    mutex free.  Configuring a ring of a domain that does not
    exist reports an error and leaves the mutex locked: the commands that set
    the control VLAN, the instance, a ring, the state of a ring or the timers of
    a domain then wait for ever, and so do every packet with a ring number in
    range and, while the protocol is enabled, the timer and every link event.
    (Creating and deleting domains, switching the protocol on and off and the
    queries do not take the mutex.) *)
Theorem missing_domain_blocks_daemon {T G} `{!ArrayStore T erpp_domain_s, !ArrayStoreLaws T erpp_domain_s}
    `{!ArrayStore G Z, !ArrayStoreLaws G Z} (st : erpp_state T G) mac d rid mode p s lvl :
  idle true mac st -> domains st !! key d = None ->
  exists st', erpp_domain_ring_configure_process d rid mode p s lvl st = Done (ERPP_RETURN_CODE_ERROR, st') /\
    (forall d' v, erpp_domain_control_vlan_set d' v st' = Blocked) /\
    (forall d' i, erpp_domain_instance_set d' i st' = Blocked) /\
    (forall d' rid' mode' p' s' lvl', erpp_domain_ring_configure_process d' rid' mode' p' s' lvl' st' = Blocked) /\
    (forall d' rid' x, erpp_domain_ring_process d' rid' x st' = Blocked) /\
    (forall d' h f, erpp_timer_process d' h f st' = Blocked) /\
    (forall buff len, 0 < len -> pkt_ring_id (packet buff) <= ERPP_RING_SIZE -> erpp_packet_rx_callback buff len st' = Blocked) /\
    forall x, st_get (erpp_global_array st) 0 = Some x -> x <> 0 ->
      erpp_timer_handler st' = Blocked /\
      forall netif event, event = PORT_NOTIFIER_LINKUP_E \/ event = PORT_NOTIFIER_LINKDOWN_E -> erpp_netif_event_callback netif event st' = Blocked.
Proof.
  intros Hi Hn. exists (with_mutex st true). split.
  - unfold erpp_domain_ring_configure_process, mbind at 1, M_bind at 1, pthread_mutex_lock.
    rewrite (inv_mutex _ _ _ _ Hi eq_refl). fold (with_mutex st true).
    rewrite search_bind, st_get_view by exact (inv_store _ _ _ _ Hi). cbn [with_mutex erpp_domain_db]. fold (domains st).
    change (u32 (domain_id (zero_domain d))) with (key d). by rewrite Hn.
  - split_and!; try done.
    { intros buff len Hl Hr. unfold erpp_packet_rx_callback. destruct (Z.leb_spec len 0); [lia|]. by destruct (Z.ltb_spec ERPP_RING_SIZE (pkt_ring_id (packet buff))); [lia|]. }
    intros x Hx Hz. apply Z.eqb_neq in Hz.
    split; [unfold erpp_timer_handler|intros netif event [-> | ->]; unfold erpp_netif_event_callback]; unfold mbind at 1, M_bind at 1, get_state;
      cbn [with_mutex erpp_global_array]; by rewrite Hx, Hz.
Qed.

Lemma missing_domain_blocks_daemon_witness :
  exists st', erpp_domain_ring_configure_process 5 1 NODE_MASTER 10 20 1 demo_state = Done (ERPP_RETURN_CODE_ERROR, st') /\
    erpp_domain_ring_process 1 2 0 st' = Blocked /\ erpp_timer_handler st' = Blocked.
Proof.
  destruct (missing_domain_blocks_daemon demo_state demo_mac 5 1 NODE_MASTER 10 20 1 demo_state_idle)
    as (st' & E & _ & _ & _ & H4 & _ & _ & H6); [vm_compute; reflexivity|].
  exists st'. split; [exact E|]. split; [apply H4|]. apply (H6 1); [vm_compute; reflexivity|discriminate].
Defined.

(** A common flush packet never reaches the switch: the daemon stores the
    flush flag of the domain but, no port having changed, sends no request
    to npd, so the addresses learned on the ring are not flushed. *)
Theorem common_flush_not_requested {T G} `{!ArrayStore T erpp_domain_s, !ArrayStoreLaws T erpp_domain_s}
    `{!ArrayStore G Z, !ArrayStoreLaws G Z} (st : erpp_state T G) mac buff len e r :
  idle true mac st -> 0 < len -> frame_for st buff e r -> is_enable r <> 0 ->
  erpp_type (packet buff) = COMMON_FLUSH_PACKET ->
  exists st', erpp_packet_rx_callback buff len st = Done (0, st') /\ idle true mac st' /\
    domains st' = <[domain_id e := with_flush e 1]> (domains st) /\ to_npd st' = to_npd st /\ frames st' = frames st.
Proof.
  intros Hi Hl Hf Hen Ht. rewrite (rx_found mac st buff len e r Hi Hl Hf Hen). destruct Hf as (Hrid & Hd & He & Hrd).
  destruct (stored_good _ _ _ _ _ _ Hi He) as [Hok _]. destruct (inv_domains _ _ _ _ Hi _ _ He) as [Hde _].
  destruct (update_spec (domain_ok true) mac (fun _ => True) (with_flush e 1) (with_mutex st true) e)
    as (st1 & E1 & Hi1 & Hm1 & Hf1 & Hn1 & _); [by destruct Hi|cbn; by rewrite Hde|by apply domain_ok_flush|].
  exists (with_mutex st1 false). split; [|split_and!].
  - rewrite Ht. unfold erpp_packet_rx_hander, erpp_packet_common_flush_process, update_result.
    change (COMMON_FLUSH_PACKET =? HELLO_PACKET) with false. change (COMMON_FLUSH_PACKET =? COMPLETE_FLUSH_PACKET) with false.
    rewrite Z.eqb_refl. unfold mbind, M_bind. by rewrite E1.
  - by destruct Hi1.
  - exact Hm1.
  - cbn [with_mutex to_npd]. rewrite Hn1. unfold erpp_handle_update. cbn.
    by destruct (erpp_master_active st); rewrite ?zip_request_same, app_nil_r.
  - exact Hf1.
Qed.

Lemma common_flush_not_requested_witness :
  exists st', erpp_packet_rx_callback (erpp_assembly_packet [9; 9; 9; 9; 9; 9] (zero_domain 1) demo_ring COMMON_FLUSH_PACKET 20) 132
    demo_state = Done (0, st') /\ to_npd st' = to_npd demo_state.
Proof.
  destruct (common_flush_not_requested demo_state demo_mac
    (erpp_assembly_packet [9; 9; 9; 9; 9; 9] (zero_domain 1) demo_ring COMMON_FLUSH_PACKET 20) 132 demo_domain demo_ring
    demo_state_idle) as (st' & E & _ & _ & Hn & _); [lia| |discriminate|reflexivity|].
  - split; [vm_compute; split; discriminate|]. split; [vm_compute; split; [discriminate|reflexivity]|].
    split; [exact demo_state_domain|reflexivity].
  - exists st'. split; [exact E|exact Hn].
Defined.
