(* ===== verification/NpdStp.v ===== *)
(** * npd: the spanning tree port table

    Model of [src/src/npdsuit/npd/src/app/npd_rstp_common.c]: the table of
    the state of a port in a spanning tree instance ([ports_stp], behind a
    hash index) and of the instance of a VLAN ([vlans_stp], behind a sequence
    index), the callbacks that program the chip, the events of interfaces and
    VLANs, the messages of the bridge process, and the flags by which ring
    protection and smart link take a port over.

    The tables are reached through [KeyStore].  The calls into the chip
    abstraction, the commands to the bridge process and the events are
    recorded in order in the state; what other parts of npd know (the ports
    and links, trunks and VLANs) is the environment of an operation. *)

From Stdlib Require Import ZArith Lia Bool.
From stdpp Require Import base decidable list gmap.
From S2P Require Import Prelude NetifIndex Database Chains DatabaseHash DatabaseSeq KeyStore.

Open Scope Z_scope.

(** [NAM_RSTP_PORT_STATE_E] *)
Definition NAM_STP_PORT_STATE_DISABLE_E : Z := 0.
Definition NAM_STP_PORT_STATE_DISCARD_E : Z := 1.
Definition NAM_STP_PORT_STATE_LEARN_E : Z := 2.
Definition NAM_STP_PORT_STATE_FORWARD_E : Z := 3.

Definition STP_RETURN_CODE_ERR_NONE : Z := 0.
Definition STP_RETURN_CODE_RSTP_NOT_ENABLED : Z := 0xF0002.
Definition STP_RETURN_CODE_MSTP_NOT_ENABLED : Z := 0xF0004.
Definition TRUNK_RETURN_CODE_BADPARAM : Z := 0x100002.
Definition TRUNK_RETURN_CODE_TRUNK_NOTEXISTS : Z := 0x100004.
Definition NPD_FAIL : Z := -1.

(** [enum stp_running_mode] *)
Definition MST_MODE : Z := 1.

Definition MAX_MST_ID : Z := 64.
Definition MSTP_PORT_MST_DB_SIZE (b : board) : Z := MAX_SWITCHPORT_PER_SYSTEM b * MAX_MST_ID / 4.
Definition CHASSIS_VLAN_RANGE_MAX : Z := 4096.

(** [enum PORT_NOTIFIER_ENT] and [enum PORT_RELATE_ENT] *)
Definition PORT_NOTIFIER_LINKUP_E : Z := 0.
Definition PORT_NOTIFIER_LINKDOWN_E : Z := 1.
Definition PORT_NOTIFIER_CREATE : Z := 3.
Definition PORT_NOTIFIER_REMOVE : Z := 5.
Definition PORT_NOTIFIER_DELETE : Z := 6.
Definition PORT_NOTIFIER_L2CREATE : Z := 7.
Definition PORT_NOTIFIER_L2DELETE : Z := 8.
Definition PORT_NOTIFIER_STPTC : Z := 10.
Definition PORT_NOTIFIER_FORWARDING : Z := 11.
Definition PORT_NOTIFIER_DISCARD : Z := 12.
Definition NOTIFIER_SWITCHOVER : Z := 20.
Definition PORT_NOTIFIER_JOIN : Z := 0.
Definition PORT_NOTIFIER_LEAVE : Z := 1.
Definition NPD_GLOBAL_NETIF_INDEX : Z := 0.

(** ** Data *)

Record stp_info_db_s := StpInfo {
  port_index : Z;
  mstid : Z;
  stp_en : Z;
  mode : Z;
  pathcost : Z;
  prio : Z;
  p2p : Z;
  edge : Z;
  nonstp : Z;
  state : Z;
  port_index_count : Z;
  smartlink_flag : Z;
  erpp_flag : Z
}.

Record vlan_stp_s := VlanStp { vid : Z; vlan_mstid : Z }.

(** A zeroed structure with the key fields set. *)
Definition stp_key (port m : Z) : stp_info_db_s := StpInfo port m 0 0 0 0 0 0 0 0 0 0 0.

(** Assignments to fields; the parameters of a port that only commands
    set. *)
Inductive port_param := PATHCOST | PRIO | NONSTP | P2P | EDGE.

Definition with_mode (d : stp_info_db_s) (x : Z) : stp_info_db_s :=
  StpInfo (port_index d) (mstid d) (stp_en d) x (pathcost d) (prio d) (p2p d) (edge d) (nonstp d) (state d)
    (port_index_count d) (smartlink_flag d) (erpp_flag d).
Definition with_param (d : stp_info_db_s) (param : port_param) (x : Z) : stp_info_db_s :=
  let set pathcost prio p2p edge nonstp :=
    StpInfo (port_index d) (mstid d) (stp_en d) (mode d) pathcost prio p2p edge nonstp (state d)
      (port_index_count d) (smartlink_flag d) (erpp_flag d) in
  match param with
  | PATHCOST => set x (prio d) (p2p d) (edge d) (nonstp d)
  | PRIO => set (pathcost d) x (p2p d) (edge d) (nonstp d)
  | P2P => set (pathcost d) (prio d) x (edge d) (nonstp d)
  | EDGE => set (pathcost d) (prio d) (p2p d) x (nonstp d)
  | NONSTP => set (pathcost d) (prio d) (p2p d) (edge d) x
  end.
Definition with_state (d : stp_info_db_s) (x : Z) : stp_info_db_s :=
  StpInfo (port_index d) (mstid d) (stp_en d) (mode d) (pathcost d) (prio d) (p2p d) (edge d) (nonstp d) x
    (port_index_count d) (smartlink_flag d) (erpp_flag d).
Definition with_en (d : stp_info_db_s) (x : Z) : stp_info_db_s :=
  StpInfo (port_index d) (mstid d) x (mode d) (pathcost d) (prio d) (p2p d) (edge d) (nonstp d) (state d)
    (port_index_count d) (smartlink_flag d) (erpp_flag d).
Definition with_port_count (d : stp_info_db_s) (x : Z) : stp_info_db_s :=
  StpInfo (port_index d) (mstid d) (stp_en d) (mode d) (pathcost d) (prio d) (p2p d) (edge d) (nonstp d) (state d)
    x (smartlink_flag d) (erpp_flag d).
Definition with_smartlink (d : stp_info_db_s) (x : Z) : stp_info_db_s :=
  StpInfo (port_index d) (mstid d) (stp_en d) (mode d) (pathcost d) (prio d) (p2p d) (edge d) (nonstp d) (state d)
    (port_index_count d) x (erpp_flag d).
Definition with_erpp (d : stp_info_db_s) (x : Z) : stp_info_db_s :=
  StpInfo (port_index d) (mstid d) (stp_en d) (mode d) (pathcost d) (prio d) (p2p d) (edge d) (nonstp d) (state d)
    (port_index_count d) (smartlink_flag d) x.

(** The bucket of an entry; [common_if.other] is the low 28 bits. *)
Definition npd_stp_hash_key (b : board) (d : stp_info_db_s) : Z :=
  let other := Z.land (port_index d) 0xfffffff in
  let key := Z.shiftl (Z.land (mstid d) 0xf) 6 + Z.shiftl (Z.land (Z.shiftr other 22) 0x3) 4
             + Z.land (Z.shiftr other 14) 0xf in
  key mod (MSTP_PORT_MST_DB_SIZE b / 8).

Definition npd_stp_hash_cmp (d1 d2 : stp_info_db_s) : bool :=
  (port_index d1 =? port_index d2) && (mstid d1 =? mstid d2).

(** [vid] is an [unsigned int]. *)
Definition vlan_stp_index (index : Z) : Z := index.
Definition vlan_stp_key (d : vlan_stp_s) : Z := u32 (vid d).
Definition vlan_stp_cmp (d1 d2 : vlan_stp_s) : bool := u32 (vid d1) =? u32 (vid d2).

(** Calls into the chip abstraction and the tables of learned addresses, and the
    answers to the smart link daemon. *)
Inductive chip_call :=
  | nam_asic_stp_port_enable (port en : Z)
  | nam_stp_state_set (port m st : Z)
  | nam_stp_vlan_bind_stg (v m : Z)
  | nam_stp_vlan_unbind_stg (v m : Z)
  | npd_arp_snooping_del_by_ifindex (port : Z)
  | npd_fdb_dynamic_entry_del_by_port (port : Z)
  | npd_smart_link_send_msg (back_id : Z).

(** Commands to the bridge process. *)
Inductive rstp_cmd :=
  | INTERFACE_ADD_E (v port : Z)
  | INTERFACE_DEL_E (v port : Z)
  | VLAN_ADD_ON_MST_E (v : Z)
  | VLAN_DEL_ON_MST_E (v : Z)
  | LINK_CHANGE_EVENT_E (port speed duplex event : Z)
  | STP_SWITCHOVER.

(** A trunk as its table has it: the interfaces of its ports and its link. *)
Record trunk_s := Trunk { trunk_ports : list Z; linkstate : Z }.

(** What the rest of npd answers: the status of an Ethernet port, the trunks
    by number ([g_trunks]), the ports of a VLAN ([g_vlans]) with the
    interface of each as the two conversions give it, the interfaces of the
    switch ports in order of their number ([switch_ports]), speed and duplex mode,
    whether the socket to the bridge process takes a command, whether this
    board is the active one, and the value that an uninitialised variable
    happens to have. *)
Record npd_env := Env {
  npd_check_eth_port_status : Z -> Z;
  npd_check_vlan_status : Z -> Z;
  g_trunks : Z -> option trunk_s;
  max_trunk : Z;
  g_vlans : Z -> option (list (Z * Z));
  switch_ports : list Z;
  netif_speed : Z -> Z;
  netif_duplex : Z -> Z;
  rstp_ready : bool;
  master_active : bool;
  uninitialised : Z
}.

Record stp_state (T V : Type) := STP {
  ports_stp : T;
  vlans_stp : V;
  chip : list chip_call;
  to_rstp : list rstp_cmd;
  events : list (Z * Z)
}.
Arguments STP {T V}.
Arguments ports_stp {T V}.
Arguments vlans_stp {T V}.
Arguments chip {T V}.
Arguments to_rstp {T V}.
Arguments events {T V}.

(** Computations that may crash. *)
Definition S (T V A : Type) : Type := stp_state T V -> option (A * stp_state T V).

#[export] Instance S_ret {T V} : MRet (S T V) := fun A a st => Some (a, st).
#[export] Instance S_bind {T V} : MBind (S T V) := fun A B f m st =>
  match m st with Some (a, st') => f a st' | None => None end.

(** ** The callbacks of the tables *)

Section callbacks.
Context (env : npd_env).

Definition is_trunk (port : Z) : bool := NPD_NETIF_TRUNK_TYPE =? npd_netif_type_get port.
Definition is_eth (port : Z) : bool := NPD_NETIF_ETH_TYPE =? npd_netif_type_get port.

(** The ports of a trunk interface, when [g_trunks] has it. *)
Definition trunk_members (port : Z) : option (list Z) := trunk_ports <$> g_trunks env (npd_netif_trunk_get_tid port).

Definition npd_stp_info_insert (d : stp_info_db_s) : list chip_call :=
  if is_trunk (port_index d) then
    match trunk_members (port_index d) with
    | None => []
    | Some l => l ≫= fun eth => if mstid d =? 0 then [nam_asic_stp_port_enable eth (stp_en d)] else []
    end
  else if is_eth (port_index d) then
    if mstid d =? 0 then [nam_asic_stp_port_enable (port_index d) (stp_en d)] else []
  else [].

(** The state of a deleted trunk entry is set for the trunk's own index, once
    per port. *)
Definition npd_stp_info_delete (d : stp_info_db_s) : list chip_call :=
  let state_off := nam_stp_state_set (port_index d) (mstid d)
    (if negb (mstid d =? 0) then NAM_STP_PORT_STATE_DISCARD_E else NAM_STP_PORT_STATE_DISABLE_E) in
  let off eth := state_off :: (if mstid d =? 0 then [nam_asic_stp_port_enable eth 0] else []) in
  if is_trunk (port_index d) then
    match trunk_members (port_index d) with
    | None => []
    | Some l => l ≫= off
    end
  else if is_eth (port_index d) then off (port_index d)
  else [].

Definition npd_stp_info_update (new old : stp_info_db_s) : list chip_call :=
  if is_trunk (port_index new) then
    match trunk_members (port_index new) with
    | None => []
    | Some l =>
        (if negb (stp_en new =? stp_en old)
         then l ≫= fun eth => if mstid new =? 0
                              then [nam_asic_stp_port_enable eth (if negb (stp_en new =? 0) then 1 else 0)] else []
         else [])
        ++ (l ≫= fun eth => [nam_stp_state_set eth (mstid new) (state new)])
    end
  else if is_eth (port_index new) then
    (if negb (stp_en new =? stp_en old) then
       if negb (stp_en new =? 0) then
         if (mstid new =? 0) && (smartlink_flag new =? 0) && (erpp_flag new =? 0)
         then [nam_asic_stp_port_enable (port_index new) 1] else []
       else if mstid new =? 0 then [nam_asic_stp_port_enable (port_index new) 0] else []
     else [])
    ++ [nam_stp_state_set (port_index new) (mstid new) (state new)]
  else [].

Definition npd_vlan_stp_insert (d : vlan_stp_s) : list chip_call := [nam_stp_vlan_bind_stg (vid d) (vlan_mstid d)].
Definition npd_vlan_stp_delete (d : vlan_stp_s) : list chip_call := [nam_stp_vlan_unbind_stg (vid d) (vlan_mstid d)].
Definition npd_vlan_stp_update (new old : vlan_stp_s) : list chip_call :=
  [nam_stp_vlan_unbind_stg (vid old) (vlan_mstid old); nam_stp_vlan_bind_stg (vid new) (vlan_mstid new)].

(** ** Links *)

(** [trunkId] is an [unsigned short]. *)
Definition npd_check_trunk_status (trunkId : Z) : Z :=
  let trunkId := u16 trunkId in
  if (trunkId =? 0) || (max_trunk env <=? trunkId) then TRUNK_RETURN_CODE_BADPARAM
  else match g_trunks env trunkId with
       | None => TRUNK_RETURN_CODE_TRUNK_NOTEXISTS
       | Some t => if linkstate t =? 1 then 1 else 0
       end.

(** The link status; the function itself always returns 0. *)
Definition npd_check_netif_status (netif : Z) : Z :=
  if is_eth netif then npd_check_eth_port_status env netif
  else if is_trunk netif then npd_check_trunk_status (npd_netif_trunk_get_tid netif)
  else if NPD_NETIF_VLAN_TYPE =? npd_netif_type_get netif then npd_check_vlan_status env (npd_netif_vlan_get_vid netif)
  else 1.

End callbacks.

(** ** Operations *)

Section operations.
Context {T V : Type} `{!KeyStore T stp_info_db_s, !KeyStore V vlan_stp_s}.
Context (env : npd_env).

(** *** The tables with their callbacks *)

Definition get_state : S T V (stp_state T V) := fun st => Some (st, st).

(** Store a table and record the calls of its callback. *)
Definition set_ports (t : T) (calls : list chip_call) : S T V unit := fun st =>
  Some (tt, STP t (vlans_stp st) (chip st ++ calls) (to_rstp st) (events st)).
Definition set_vlans (v : V) (calls : list chip_call) : S T V unit := fun st =>
  Some (tt, STP (ports_stp st) v (chip st ++ calls) (to_rstp st) (events st)).

Definition lift {A} (x : option A) : S T V A := fun st => match x with Some a => Some (a, st) | None => None end.

Definition stp_search (d : stp_info_db_s) : S T V (option stp_info_db_s) :=
  st ← get_state; mret (ks_search (ports_stp st) d).

(** [dbtable_hash_update]: the entry that is replaced goes to the
    callback. *)
Definition stp_update (d : stp_info_db_s) : S T V Z :=
  st ← get_state;
  '(c, t) ← lift (ks_update (ports_stp st) d);
  set_ports t (match ks_search (ports_stp st) d with Some old => npd_stp_info_update env d old | None => [] end);;
  mret c.

(** [dbtable_hash_insert]: replace an equal entry, or add one. *)
Definition stp_insert (d : stp_info_db_s) : S T V Z :=
  st ← get_state;
  '(c, t) ← lift (ks_insert (ports_stp st) d);
  set_ports t (match ks_search (ports_stp st) d with
               | Some old => npd_stp_info_update env d old
               | None => if c =? 0 then npd_stp_info_insert env d else []
               end);;
  mret c.

Definition stp_delete (d : stp_info_db_s) : S T V Z :=
  st ← get_state;
  '(c, t) ← lift (ks_delete (ports_stp st) d);
  set_ports t (match ks_search (ports_stp st) d with Some old => npd_stp_info_delete env old | None => [] end);;
  mret c.

Definition vlan_search (v : Z) : S T V (option vlan_stp_s) :=
  st ← get_state; mret (ks_search (vlans_stp st) (VlanStp v 0)).

Definition vlan_insert (d : vlan_stp_s) : S T V Z :=
  st ← get_state;
  '(c, v) ← lift (ks_insert (vlans_stp st) d);
  set_vlans v (match ks_search (vlans_stp st) d with
               | Some old => npd_vlan_stp_update d old
               | None => if c =? 0 then npd_vlan_stp_insert d else []
               end);;
  mret c.

Definition vlan_delete (d : vlan_stp_s) : S T V Z :=
  st ← get_state;
  '(c, v) ← lift (ks_delete (vlans_stp st) d);
  set_vlans v (match ks_search (vlans_stp st) d with Some old => npd_vlan_stp_delete old | None => [] end);;
  mret c.

(** *** The bridge process and events *)

(** [npd_cmd_write_ro_rstp]: 0, or -1 when the socket does not take it. *)
Definition npd_cmd_write_ro_rstp (cmd : rstp_cmd) : S T V Z := fun st =>
  if rstp_ready env
  then Some (0, STP (ports_stp st) (vlans_stp st) (chip st) (to_rstp st ++ [cmd]) (events st))
  else Some (-1, st).

Definition netif_notify_event (netif event : Z) : S T V unit := fun st =>
  Some (tt, STP (ports_stp st) (vlans_stp st) (chip st) (to_rstp st) (events st ++ [(netif, event)])).

Definition is_wireless (port : Z) : bool := NPD_NETIF_WIRELESS_TYPE =? npd_netif_type_get port.

Definition npd_mstp_add_port (v port : Z) : S T V Z :=
  if is_wireless port then mret 0 else npd_cmd_write_ro_rstp (INTERFACE_ADD_E v port).
Definition npd_mstp_del_port (v port : Z) : S T V Z :=
  if is_wireless port then mret 0 else npd_cmd_write_ro_rstp (INTERFACE_DEL_E v port).
Definition npd_mstp_add_vlan_on_mst (v : Z) : S T V Z := npd_cmd_write_ro_rstp (VLAN_ADD_ON_MST_E v).
Definition npd_mstp_del_vlan_on_mst (v : Z) : S T V Z := npd_cmd_write_ro_rstp (VLAN_DEL_ON_MST_E v).

(** *** Ports *)

(** [for (i = 1; i < 256; i++)]: change the entries of a port in the
    instances other than 0. *)
Fixpoint for_instances (l : list Z) (netif : Z) (change : stp_info_db_s -> option stp_info_db_s) : S T V unit :=
  match l with
  | [] => mret tt
  | i :: l =>
      found ← stp_search (stp_key netif i);
      (match found with
       | Some d => match change d with Some d' => stp_update d';; mret tt | None => mret tt end
       | None => mret tt
       end);;
      for_instances l netif change
  end.

Definition instances : list Z := seqZ 1 255.

(** What a link change makes of the entry in an instance: nothing when ring
    protection or smart link has it. *)
Definition link_instance (stp_enable : Z) (d : stp_info_db_s) : option stp_info_db_s :=
  if (smartlink_flag d =? 1) || (erpp_flag d =? 1) then None
  else if negb (stp_en d =? stp_enable) then
    let d := with_en d stp_enable in
    Some (if negb (stp_enable =? 0) && negb (state d =? NAM_STP_PORT_STATE_DISABLE_E)
          then with_state d NAM_STP_PORT_STATE_DISCARD_E else d)
  else Some d.

(** The entry of instance 0, whose flags are not looked at. *)
Definition link_common (stp_enable : Z) (d : stp_info_db_s) : stp_info_db_s :=
  let temp_stpen := stp_en d in
  let d := with_en d stp_enable in
  if negb (stp_enable =? 0) && (temp_stpen =? 0) && negb (state d =? NAM_STP_PORT_STATE_DISABLE_E)
  then with_state d NAM_STP_PORT_STATE_DISCARD_E else d.

Definition npd_rstp_link_change (netif event : Z) : S T V Z :=
  if negb (is_eth netif) && negb (is_trunk netif) then mret (-1)
  else if negb ((event =? PORT_NOTIFIER_LINKUP_E) || (event =? PORT_NOTIFIER_LINKDOWN_E) || (event =? PORT_NOTIFIER_REMOVE))
  then mret (-1)
  else
    let stp_enable := if event =? PORT_NOTIFIER_LINKUP_E then 1 else 0 in
    found ← stp_search (stp_key netif 0);
    match found with
    | None => mret (-1)
    | Some d =>
        stp_update (link_common stp_enable d);;
        for_instances instances netif (link_instance stp_enable);;
        npd_cmd_write_ro_rstp (LINK_CHANGE_EVENT_E netif (netif_speed env netif) (netif_duplex env netif) stp_enable)
    end.

Definition npd_netif_config_stp (netif st : Z) : S T V Z :=
  let admin d := with_state d (if st =? 0 then NAM_STP_PORT_STATE_DISABLE_E else NAM_STP_PORT_STATE_DISCARD_E) in
  found ← stp_search (stp_key netif 0);
  match found with
  | None => mret STP_RETURN_CODE_RSTP_NOT_ENABLED
  | Some d =>
      stp_update (admin d);;
      for_instances instances netif (fun d => Some (admin d));;
      (if negb (st =? 0) && negb (npd_check_netif_status env netif =? 0)
       then npd_rstp_link_change netif PORT_NOTIFIER_LINKUP_E;; mret tt else mret tt);;
      mret STP_RETURN_CODE_ERR_NONE
  end.

(** Ring protection ([npd_erpp_stp_flag]) and smart link
    ([npd_smart_link_stp_flag]) take over the entry of their instance and the
    one of instance 0. *)
Definition set_port_flag (set : stp_info_db_s -> stp_info_db_s) (netif m : Z) : S T V unit :=
  found ← stp_search (stp_key netif m);
  (match found with Some d => stp_update (set d);; mret tt | None => mret tt end);;
  found ← stp_search (stp_key netif 0);
  match found with Some d => stp_update (set d);; mret tt | None => mret tt end.

Definition npd_smart_link_stp_flag (netif m is_enable stp_port_status : Z) : S T V unit :=
  set_port_flag (fun d => with_state (with_smartlink d is_enable) stp_port_status) netif m.

Definition npd_erpp_stp_flag (netif m is_enable stp_port_status : Z) : S T V unit :=
  set_port_flag (fun d => with_state (with_erpp d is_enable) stp_port_status) netif m.

(** The loop of [PORT_NOTIFIER_L2DELETE]. *)
Fixpoint delete_instances (l : list Z) (netif : Z) : S T V unit :=
  match l with
  | [] => mret tt
  | i :: l =>
      found ← stp_search (stp_key netif i);
      (match found with Some d => stp_delete d;; mret tt | None => mret tt end);;
      delete_instances l netif
  end.

Definition port_l2create (netif : Z) : S T V unit :=
  st ← get_state;
  if negb (ks_count (ports_stp st) =? 0) then
    let link_status := npd_check_netif_status env netif in
    stp_insert (StpInfo netif 0 link_status 0 0 0 0 0 0 NAM_STP_PORT_STATE_DISCARD_E 1 0 0);;
    npd_mstp_add_port 0 netif;;
    if negb (link_status =? 0) then npd_rstp_link_change netif PORT_NOTIFIER_LINKUP_E;; mret tt else mret tt
  else mret tt.

Definition port_l2delete (netif : Z) : S T V unit :=
  npd_mstp_del_port 0 netif;;
  st ← get_state;
  if negb (ks_count (ports_stp st) =? 0) then
    delete_instances instances netif;;
    stp_delete (stp_key netif 0);; mret tt
  else mret tt.

(** *** VLANs *)

(** The port leaves an instance: one VLAN less, or none left. *)
Definition drop_port_count (port m : Z) : S T V unit :=
  found ← stp_search (stp_key port m);
  match found with
  | None => mret tt
  | Some d =>
      if 1 <? port_index_count d then stp_update (with_port_count d (port_index_count d - 1));; mret tt
      else stp_delete d;; mret tt
  end.

(** The first loop of [npd_mstp_vlan_stpid_bind]. *)
Fixpoint unbind_ports (l : list (Z * Z)) (m : Z) : S T V unit :=
  match l with
  | [] => mret tt
  | (netif, _) :: l => (if is_wireless netif then mret tt else drop_port_count netif m);; unbind_ports l m
  end.

(** The second loop: the link status is the one of an uninitialised
    variable; an entry that exists is counted in a copy that is not stored,
    and a zeroed entry is stored instead. *)
Fixpoint bind_ports (l : list (Z * Z)) (m ret : Z) : S T V Z :=
  match l with
  | [] => mret ret
  | (_, netif) :: l =>
      if is_wireless netif then bind_ports l m ret
      else
        let link_status := npd_check_netif_status env (uninitialised env) in
        found ← stp_search (stp_key netif m);
        ret ← (match found with
               | Some _ => stp_insert (stp_key 0 0)
               | None => stp_insert (StpInfo netif m link_status 0 0 0 0 0 0 NAM_STP_PORT_STATE_DISCARD_E 1 0 0)
               end);
        bind_ports l m ret
  end.

Definition npd_mstp_vlan_stpid_bind (v m : Z) : S T V Z :=
  found ← vlan_search v;
  let ports := default [] (g_vlans env v) in
  (match found with
   | Some old => if negb (vlan_mstid old =? 0) then unbind_ports ports (vlan_mstid old) else mret tt
   | None => mret tt
   end);;
  ret ← vlan_insert (VlanStp v m);
  if negb (m =? 0) then bind_ports ports m ret else mret ret.

(** [while (0 == ret)] over [dbtable_sequence_head] and
    [dbtable_sequence_delete]; a VLAN has one entry, [n] is the fuel. *)
Fixpoint delete_vlan_entries (n : nat) (v : Z) : S T V unit :=
  match n with
  | O => lift None
  | Datatypes.S n =>
      st ← get_state;
      found ← lift (ks_head (vlans_stp st) (VlanStp v 0));
      match found with
      | None => mret tt
      | Some d => vlan_delete d;; delete_vlan_entries n v
      end
  end.

Fixpoint del_vlan_ports (l : list (Z * Z)) (v : Z) : S T V unit :=
  match l with
  | [] => mret tt
  | (netif, _) :: l => npd_mstp_del_port v netif;; del_vlan_ports l v
  end.

Definition npd_rstp_vlan_event (v event : Z) : S T V unit :=
  if event =? PORT_NOTIFIER_CREATE then
    npd_mstp_add_vlan_on_mst v;; npd_mstp_vlan_stpid_bind v 0;; mret tt
  else if event =? PORT_NOTIFIER_DELETE then
    npd_mstp_del_vlan_on_mst v;;
    match g_vlans env v with
    | None => mret tt
    | Some ports => del_vlan_ports ports v;; delete_vlan_entries 2 v
    end
  else mret tt.

(** *** The notifiers *)

Definition npd_rstp_netif_event (netif event : Z) : S T V unit :=
  st ← get_state;
  match ks_first (vlans_stp st) with
  | None => mret tt
  | Some _ =>
      if netif =? NPD_GLOBAL_NETIF_INDEX then
        if event =? NOTIFIER_SWITCHOVER then npd_cmd_write_ro_rstp STP_SWITCHOVER;; mret tt else mret tt
      else if NPD_NETIF_VLAN_TYPE =? npd_netif_type_get netif
      then npd_rstp_vlan_event (npd_netif_vlan_get_vid netif) event
      else if is_eth netif || is_trunk netif then
        if event =? PORT_NOTIFIER_L2CREATE then port_l2create netif
        else if event =? PORT_NOTIFIER_L2DELETE then port_l2delete netif
        else npd_rstp_link_change netif event;; mret tt
      else mret tt
  end.

(** A port joins a VLAN whose instance is not 0. *)
Definition join_port (port m : Z) : S T V unit :=
  let link_status := npd_check_netif_status env port in
  found ← stp_search (stp_key port m);
  let d := match found with
           | Some d => d
           | None => with_state (stp_key port m) NAM_STP_PORT_STATE_DISCARD_E
           end in
  stp_insert (with_port_count (with_en d link_status) (u32 (port_index_count d + 1)));; mret tt.

Definition leave_port (port m : Z) : S T V unit :=
  found ← stp_search (stp_key port m);
  match found with
  | None => mret tt
  | Some d =>
      if port_index_count d =? 1 then stp_delete d;; mret tt
      else stp_update (with_port_count d (u32 (port_index_count d - 1)));; mret tt
  end.

(** The instance of a VLAN, when it is not 0. *)
Definition in_instance (v : Z) (f : Z -> S T V unit) : S T V unit :=
  found ← vlan_search v;
  match found with
  | Some d => if negb (vlan_mstid d =? 0) then f (vlan_mstid d) else mret tt
  | None => mret tt
  end.

Definition npd_rstp_relate_handle (father_index son_index event : Z) : S T V unit :=
  st ← get_state;
  match ks_first (vlans_stp st) with
  | None => mret tt
  | Some _ =>
      if is_trunk father_index then
        let link_status := npd_check_trunk_status env father_index in
        if is_eth son_index then
          npd_rstp_link_change father_index
            (if negb (link_status =? 0) then PORT_NOTIFIER_LINKUP_E else PORT_NOTIFIER_LINKDOWN_E);; mret tt
        else mret tt
      else if negb (NPD_NETIF_VLAN_TYPE =? npd_netif_type_get father_index) then mret tt
      else if negb (is_trunk son_index) && negb (is_eth son_index) then mret tt
      else
        let v := npd_netif_vlan_get_vid father_index in
        if event =? PORT_NOTIFIER_JOIN then
          in_instance v (join_port son_index);; npd_mstp_add_port v son_index;; mret tt
        else if event =? PORT_NOTIFIER_LEAVE then
          npd_mstp_del_port v son_index;; in_instance v (leave_port son_index)
        else mret tt
  end.

(** *** Requests *)

(** Result code and [*state]. *)
Definition npd_mstp_get_port_state (v port : Z) : S T V (Z * Z) :=
  found ← vlan_search v;
  match found with
  | None => mret (STP_RETURN_CODE_MSTP_NOT_ENABLED, NAM_STP_PORT_STATE_DISABLE_E)
  | Some d =>
      found ← stp_search (stp_key port (vlan_mstid d));
      mret (match found with
            | None => (DB_TABLE_RETURN_CODE_ENTRY_NOT_EXIST, NAM_STP_PORT_STATE_DISABLE_E)
            | Some p => (0, state p)
            end)
  end.

(** [STP_STATE_UPDATE_E]: the bridge process decided on a state. *)
Definition state_update (port m portState : Z) : S T V Z :=
  if negb (master_active env) then mret NPD_FAIL
  else
    found ← stp_search (stp_key port m);
    match found with
    | None => mret NPD_FAIL
    | Some d =>
        (if portState =? NAM_STP_PORT_STATE_DISCARD_E then
           stp_update (with_state d portState);;
           if negb (stp_en d =? 0) then netif_notify_event (port_index d) PORT_NOTIFIER_DISCARD else mret tt
         else if portState =? NAM_STP_PORT_STATE_LEARN_E then stp_update (with_state d portState);; mret tt
         else if portState =? NAM_STP_PORT_STATE_FORWARD_E then
           stp_update (with_state d portState);;
           if negb (stp_en d =? 0) then netif_notify_event (port_index d) PORT_NOTIFIER_FORWARDING else mret tt
         else mret tt);;
        mret 0
    end.

(** [STP_RECEIVE_TCN_E] *)
Definition receive_tcn (port m : Z) : S T V Z :=
  if negb (master_active env) then mret NPD_FAIL
  else
    found ← stp_search (stp_key port m);
    match found with
    | None => mret NPD_FAIL
    | Some d => netif_notify_event (port_index d) PORT_NOTIFIER_STPTC;; mret 0
    end.

(** *** Commands *)

(** The five commands that set a parameter of a port.  The code compares the
    result of the search with -1, which it never is: for a port without an
    entry the update of the structure, whose other fields are not
    initialised, fails. *)
Definition set_port_param (param : port_param) (m port value : Z) : S T V Z :=
  found ← stp_search (stp_key port m);
  let d := with_param (default (stp_key port m) found) param value in
  stp_update (if 0 <? m then with_mode d MST_MODE else d).

(** The first loop of [npd_stp_vlan_stpid_bind_init]. *)
Fixpoint init_ports (l : list Z) : S T V unit :=
  match l with
  | [] => mret tt
  | netif :: l =>
      (if is_wireless netif then mret tt
       else
         let link_status := npd_check_netif_status env netif in
         stp_insert (StpInfo netif 0 link_status 0 0 0 0 0 0 NAM_STP_PORT_STATE_DISCARD_E 0 0 0);;
         npd_mstp_add_port 0 netif;;
         if negb (link_status =? 0) then npd_rstp_link_change netif PORT_NOTIFIER_LINKUP_E;; mret tt else mret tt);;
      init_ports l
  end.

Fixpoint add_vlan_ports (l : list (Z * Z)) (v : Z) : S T V unit :=
  match l with
  | [] => mret tt
  | (netif, _) :: l => (if is_wireless netif then mret tt else npd_mstp_add_port v netif;; mret tt);; add_vlan_ports l v
  end.

(** The second loop. *)
Fixpoint init_vlans (l : list Z) : S T V unit :=
  match l with
  | [] => mret tt
  | v :: l =>
      (match g_vlans env v with
       | None => mret tt
       | Some ports => npd_mstp_vlan_stpid_bind v 0;; npd_mstp_add_vlan_on_mst v;; add_vlan_ports ports v
       end);;
      init_vlans l
  end.

(** Spanning tree is switched on. *)
Definition npd_stp_vlan_stpid_bind_init : S T V Z :=
  init_ports (switch_ports env);; init_vlans (seqZ 1 4093);; mret 0.

(** The processors of the traversals delete the entry they are given. *)
Fixpoint netif_travesal_delete (l : list stp_info_db_s) : S T V unit :=
  match l with
  | [] => mret tt
  | d :: l => stp_delete d;; netif_travesal_delete l
  end.

Fixpoint vlan_travesal_delete (l : list vlan_stp_s) : S T V unit :=
  match l with
  | [] => mret tt
  | d :: l => vlan_delete d;; vlan_travesal_delete l
  end.

(** Spanning tree is switched off. *)
Definition npd_stp_struct_init : S T V Z :=
  st ← get_state; netif_travesal_delete (ks_entries (ports_stp st));;
  st ← get_state; vlan_travesal_delete (ks_entries (vlans_stp st));;
  mret 0.

End operations.

(** ** The tables of the daemon *)

#[export] Instance stp_info_eq : EqDecision stp_info_db_s.
Proof. solve_decision. Defined.
#[export] Instance vlan_stp_eq : EqDecision vlan_stp_s.
Proof. solve_decision. Defined.

(** The callbacks as the library sees them: they return 0, and their calls
    are recorded by the operations above. *)
Definition stp_ops {D} `{!EqDecision D} (zero : D) : db_ops D :=
  {| handle_update := Some (fun _ _ => 0); handle_insert := Some (fun _ => 0); handle_delete := Some (fun _ => 0);
     app_handle_update := None; app_handle_delete := None; platform_db_sync := Some (fun _ => 0);
     platform_relay_flag := false; same_sync_part := fun x y => bool_decide (x = y); keep_local := fun new _ => new;
     entry_hton := fun d => d; entry_ntoh := fun d => d; zero_entry := zero; have_sync := true |}.

Section tables.
Context (b : board).

Definition stp_buckets : Z := MSTP_PORT_MST_DB_SIZE b / 8.
Definition vlan_buckets : Z := CHASSIS_VLAN_RANGE_MAX - 2.

Definition ports_store : KeyStore (db_table_t stp_info_db_s) stp_info_db_s :=
  database_hash_store (stp_ops (stp_key 0 0)) (stp_key 0 0) 0 (npd_stp_hash_key b) npd_stp_hash_cmp stp_buckets.

(** [dbtable_sequence_delete] is called with one object for both buffers. *)
Definition vlans_store : KeyStore (db_table_t vlan_stp_s) vlan_stp_s :=
  database_seq_store (stp_ops (VlanStp 0 0)) (VlanStp 0 0) 0 true vlan_stp_index vlan_stp_key vlan_stp_cmp vlan_buckets (fun _ => True).

(** [sizeof(stp_info_db_t)] is 52 and [sizeof(vlan_stp_t)] 8; [DB_SYNC_ALL] is
    1. *)
Definition npd_init_stp : stp_state (db_table_t stp_info_db_s) (db_table_t vlan_stp_s) :=
  STP (dbtable_create_hash_index (create_dbtable (MSTP_PORT_MST_DB_SIZE b) 52 1) stp_buckets
         (Some (npd_stp_hash_key b)) npd_stp_hash_cmp)
      (dbtable_create_sequence_index (create_dbtable vlan_buckets 8 1) vlan_buckets vlan_stp_index vlan_stp_key vlan_stp_cmp)
      [] [] [].

End tables.
