(* ===== verification/NpdRequests.v ===== *)
(** * npd: the requests of the protocol daemons

    Model of [src/src/npdsuit/npd/src/app/npd_erpp.c] and of the message
    handler of [npd_smart_link.c]: npd carries out the requests of the ring
    protection daemon ([Erpp]) and of the smart link daemon ([SmartLink]) on
    the spanning tree port table of [NpdStp].  The operations of the table as
    one type, for the theorems of [NpdChip]. *)

From Stdlib Require Import ZArith Lia Bool.
From stdpp Require Import base decidable list gmap.
From S2P Require Import Prelude NetifIndex KeyStore SmartLink Erpp NpdStp.

Open Scope Z_scope.

(** The marks of a message of the ring protection daemon and the cookies of
    one of the smart link daemon. *)
Definition VALIDATE_BYTE_BEGIN : Z := 0xAAAAAAAA.
Definition VALIDATE_BYTE_END : Z := 0xCCCCCCCC.
Definition SL_MSG_COOKIE_ID : Z := 0xff0f0301.
Definition SL_MSG_COOKIE_ID_END : Z := 0x01030fff.

Section handlers.
Context {T V : Type} `{!KeyStore T stp_info_db_s, !KeyStore V vlan_stp_s}.
Context (env : npd_env).

Definition chip_calls (l : list chip_call) : S T V unit := fun st =>
  Some (tt, STP (ports_stp st) (vlans_stp st) (chip st ++ l) (NpdStp.to_rstp st) (events st)).

(** The flag is always set, also by a request that disables a ring. *)
Definition nam_erpp_stp_set (netif inst flag : Z) : S T V unit := npd_erpp_stp_flag env netif inst 1 flag.

Definition erpp_state_of (status : Z) : Z :=
  if status =? FORWARDING then NAM_STP_PORT_STATE_FORWARD_E else NAM_STP_PORT_STATE_DISCARD_E.

(** The addresses learned on a port are forgotten. *)
Definition flush_port (netif : Z) : list chip_call :=
  [npd_arp_snooping_del_by_ifindex netif; npd_fdb_dynamic_entry_del_by_port netif].

(** A message with its marks. *)
Definition npd_erpp_msg_handler (validate_byte_begin validate_byte_end : Z) (erpp_msg : erpp_msg_to_npd_s) : S T V Z :=
  if negb (VALIDATE_BYTE_BEGIN =? validate_byte_begin) || negb (VALIDATE_BYTE_END =? validate_byte_end) then mret (-1)
  else
    (if msg_is_enable erpp_msg =? 0 then
       nam_erpp_stp_set (msg_netif_0 erpp_msg) (Erpp.msg_instance erpp_msg) NAM_STP_PORT_STATE_FORWARD_E;;
       nam_erpp_stp_set (msg_netif_1 erpp_msg) (Erpp.msg_instance erpp_msg) NAM_STP_PORT_STATE_FORWARD_E
     else
       nam_erpp_stp_set (msg_netif_0 erpp_msg) (Erpp.msg_instance erpp_msg) (erpp_state_of (msg_status_0 erpp_msg));;
       nam_erpp_stp_set (msg_netif_1 erpp_msg) (Erpp.msg_instance erpp_msg) (erpp_state_of (msg_status_1 erpp_msg)));;
    (if negb (msg_flush_flag erpp_msg =? 0)
     then chip_calls (flush_port (msg_netif_0 erpp_msg) ++ flush_port (msg_netif_1 erpp_msg)) else mret tt);;
    mret 0.

(** A message with its cookies; [ulong_max] is [~0UL] of the build.  The waits
    for the link of a port change nothing.  The answer to the daemon goes out
    before the addresses are flushed. *)
Definition npd_smart_link_msg_handler (ulong_max cookie cookie_end : Z) (data : smart_link_msg_s) : S T V Z :=
  if negb (SL_MSG_COOKIE_ID =? cookie) || negb (SL_MSG_COOKIE_ID_END =? cookie_end) then mret (-1)
  else if negb (ulong_max =? back_id data) then
    (if negb (block_port data =? 0) && negb (SmartLink.msg_instance data =? 0)
     then npd_smart_link_stp_flag env (block_port data) (SmartLink.msg_instance data) 1 NAM_STP_PORT_STATE_DISCARD_E
     else mret tt);;
    (if negb (unblock_port data =? 0) && negb (SmartLink.msg_instance data =? 0)
     then npd_smart_link_stp_flag env (unblock_port data) (SmartLink.msg_instance data) 1 NAM_STP_PORT_STATE_FORWARD_E
     else mret tt);;
    (if negb (back_id data =? 0) then chip_calls [npd_smart_link_send_msg (back_id data)] else mret tt);;
    (if negb (block_port data =? 0) then chip_calls (flush_port (block_port data)) else mret tt);;
    mret 0
  else
    npd_smart_link_stp_flag env (block_port data) (SmartLink.msg_instance data) 0 NAM_STP_PORT_STATE_FORWARD_E;;
    npd_smart_link_stp_flag env (unblock_port data) (SmartLink.msg_instance data) 0 NAM_STP_PORT_STATE_FORWARD_E;;
    mret 0.

End handlers.

(** ** The operations on the tables *)

Inductive stp_op :=
  | NetifEvent (netif event : Z)
  | RelateEvent (father son event : Z)
  | ConfigStp (netif st : Z)
  | BindVlan (v m : Z)
  | StateUpdate (port m st : Z)
  | ReceiveTcn (port m : Z)
  | SetParam (param : port_param) (m port value : Z)
  | StpEnable
  | StpDisable
  | ErppRequest (validate_byte_begin validate_byte_end : Z) (msg : erpp_msg_to_npd_s)
  | SmartLinkRequest (ulong_max cookie cookie_end : Z) (msg : smart_link_msg_s).

Section run.
Context {T V : Type} `{!KeyStore T stp_info_db_s, !KeyStore V vlan_stp_s}.

Definition stp_exec (env : npd_env) (op : stp_op) : S T V unit :=
  match op with
  | NetifEvent netif event => npd_rstp_netif_event env netif event
  | RelateEvent father son event => npd_rstp_relate_handle env father son event
  | ConfigStp netif st => npd_netif_config_stp env netif st;; mret tt
  | BindVlan v m => npd_mstp_vlan_stpid_bind env v m;; mret tt
  | StateUpdate port m st => state_update env port m st;; mret tt
  | ReceiveTcn port m => receive_tcn env port m;; mret tt
  | SetParam param m port value => set_port_param env param m port value;; mret tt
  | StpEnable => npd_stp_vlan_stpid_bind_init env;; mret tt
  | StpDisable => npd_stp_struct_init env;; mret tt
  | ErppRequest vb ve msg => npd_erpp_msg_handler env vb ve msg;; mret tt
  | SmartLinkRequest ulong_max c ce msg => npd_smart_link_msg_handler env ulong_max c ce msg;; mret tt
  end.

(** Each operation meets the environment of its time. *)
Fixpoint stp_run (l : list (npd_env * stp_op)) : S T V unit :=
  match l with
  | [] => mret tt
  | (env, op) :: l => stp_exec env op;; stp_run l
  end.

End run.
