(* ===== verification/NpdStpLogic.v ===== *)
(** * npd: a logic for the spanning tree operations

    Total correctness of the computations of [NpdStp] over tables that obey
    [KeyStoreLaws]: what each primitive does to the entry of a port, and, for
    an invariant of the ports table and of the states given to the chip, that
    every operation of [NpdRequests] keeps it when the primitive changes
    do. *)

From Stdlib Require Import ZArith Lia Bool.
From stdpp Require Import base decidable list gmap.
From S2P Require Import Prelude NetifIndex Database Chains DatabaseHash DatabaseSeq KeyStore SmartLink Erpp NpdStp NpdRequests.

Open Scope Z_scope.

(** The stores behave, have the keys of the daemon, and only VLAN numbers
    have no bucket. *)
Class StpStores (T V : Type) `{!KeyStore T stp_info_db_s, !KeyStore V vlan_stp_s} : Prop := {
  ports_laws :: KeyStoreLaws T stp_info_db_s;
  vlans_laws :: KeyStoreLaws V vlan_stp_s;
  ports_total :: KeyStoreTotal T stp_info_db_s;
  vlans_total :: KeyStoreTotal V vlan_stp_s;
  ports_same x y : ks_same (T := T) x y = npd_stp_hash_cmp x y;
  vlans_same x y : ks_same (T := V) x y = vlan_stp_cmp x y;
  ports_fit (t : T) d : ks_fits t d = true;
  vlans_fit (v : V) d : ks_fits v d = (u32 (vid d) <? vlan_buckets)
}.

Lemma cmp_key d d' : npd_stp_hash_cmp d d' = true <-> port_index d = port_index d' /\ mstid d = mstid d'.
Proof. unfold npd_stp_hash_cmp. by rewrite andb_true_iff, !Z.eqb_eq. Qed.

(** ** Total correctness of a computation *)

Section logic.
Context {T V : Type} `{!KeyStore T stp_info_db_s, !KeyStore V vlan_stp_s}.
Implicit Types (st : stp_state T V).

Definition wp {A} (m : S T V A) (Q : A -> stp_state T V -> Prop) st : Prop :=
  exists a st', m st = Some (a, st') /\ Q a st'.

Lemma wp_ret {A} (a : A) (Q : A -> stp_state T V -> Prop) st : Q a st -> wp (mret a) Q st.
Proof. intros H. by exists a, st. Qed.

Lemma wp_bind {A B} (m : S T V A) (f : A -> S T V B) Q st : wp m (fun a => wp (f a) Q) st -> wp (m ≫= f) Q st.
Proof.
  intros (a & st1 & E1 & b & st2 & E2 & H). exists b, st2. split; [|done].
  unfold mbind, S_bind. by rewrite E1.
Qed.

Lemma wp_mono {A} (m : S T V A) (P Q : A -> stp_state T V -> Prop) st :
  wp m P st -> (forall a st', P a st' -> Q a st') -> wp m Q st.
Proof. intros (a & st' & E & H) HPQ. exists a, st'. eauto. Qed.

Lemma wp_get Q st : Q st st -> wp get_state Q st.
Proof. intros H. by exists st, st. Qed.

(** A computation that keeps a property of the state. *)
Definition keeps {A} (I : stp_state T V -> Prop) (m : S T V A) : Prop := forall st, I st -> wp m (fun _ => I) st.

Lemma stays_ret {A} I (a : A) : keeps I (mret a : S T V A).
Proof. intros st H. by apply wp_ret. Qed.

Lemma stays_bind {A B} I (m : S T V A) (f : A -> S T V B) :
  keeps I m -> (forall a, keeps I (f a)) -> keeps I (m ≫= f).
Proof. intros Hm Hf st H. apply wp_bind. eapply wp_mono; [by apply Hm|]. intros a st' H'. by apply Hf. Qed.

Lemma keeps_if {A} I (b : bool) (m n : S T V A) : keeps I m -> keeps I n -> keeps I (if b then m else n).
Proof. by destruct b. Qed.

(** Two properties that are kept are kept together: a computation is a
    function. *)
Lemma keeps_and {A} I J (m : S T V A) : keeps I m -> keeps J m -> keeps (fun st => I st /\ J st) m.
Proof.
  intros Hi Hj st [H1 H2]. destruct (Hi st H1) as (a & st' & E & Hi'), (Hj st H2) as (a' & st'' & E' & Hj').
  exists a, st'. split; [done|]. split; [done|]. congruence.
Qed.

Lemma keeps_get {B} I (f : stp_state T V -> S T V B) : (forall st, keeps I (f st)) -> keeps I (st ← get_state; f st).
Proof. intros H st Hi. apply wp_bind, wp_get. by apply H. Qed.

End logic.

Create HintDb stp.
#[export] Hint Resolve stays_ret keeps_if : stp.
#[export] Hint Extern 2 (keeps _ (mbind _ _)) => apply stays_bind; [|intros ?] : stp.
#[export] Hint Extern 1 (keeps _ (get_state ≫= _)) => apply keeps_get; intros ? : stp.
#[export] Hint Extern 3 (keeps _ (match ?x with _ => _ end)) => destruct x : stp.

(** ** The tables *)

Section tables.
Context {T V : Type} `{!KeyStore T stp_info_db_s, !KeyStore V vlan_stp_s, !StpStores T V}.
Implicit Types (st : stp_state T V) (d : stp_info_db_s).

Definition tables_ok st : Prop := ks_ok (ports_stp st) /\ ks_ok (vlans_stp st).

(** The entry of a port in an instance. *)
Definition port_at st (p m : Z) : option stp_info_db_s := ks_search (ports_stp st) (stp_key p m).

Lemma port_at_key st p m d : tables_ok st -> port_at st p m = Some d -> port_index d = p /\ mstid d = m.
Proof.
  intros [Hp _] Hd. apply ks_search_same in Hd; [|done]. rewrite ports_same in Hd. apply cmp_key in Hd as [H1 H2]. done.
Qed.

Lemma search_port st d : tables_ok st -> ks_search (ports_stp st) d = port_at st (port_index d) (mstid d).
Proof. intros [Hp _]. apply ks_search_ext; [done|]. rewrite ports_same. by apply cmp_key. Qed.

(** The state after the ports table was changed to find [f], with calls to
    the chip. *)
Record ports_step st st' (f : Z -> Z -> option stp_info_db_s) (calls : list chip_call) : Prop := {
  ps_ok : tables_ok st';
  ps_at p m : port_at st' p m = f p m;
  ps_vlans : vlans_stp st' = vlans_stp st;
  ps_chip : chip st' = chip st ++ calls;
  ps_rstp : to_rstp st' = to_rstp st;
  ps_events : events st' = events st
}.

Definition is_key d (p m : Z) : bool := (p =? port_index d) && (m =? mstid d).

Definition put st d (p m : Z) : option stp_info_db_s := if is_key d p m then Some d else port_at st p m.
Definition drop st d (p m : Z) : option stp_info_db_s := if is_key d p m then None else port_at st p m.

Lemma is_key_same d p m : ks_same (T := T) (stp_key p m) d = is_key d p m.
Proof. by rewrite ports_same. Qed.

Lemma wp_set_ports {A} t calls (k : S T V A) Q st :
  wp k Q (STP t (vlans_stp st) (chip st ++ calls) (to_rstp st) (events st)) -> wp (set_ports t calls;; k) Q st.
Proof. intros H. apply wp_bind. by eexists _, _. Qed.

(** The three ways a primitive ends: stored, removed, unchanged. *)
Lemma wp_ports st (x : option (Z * T)) c f n calls Q :
  tables_ok st -> ks_result (ports_stp st) x c f n ->
  (forall st', ports_step st st' (fun p m => f (stp_key p m)) calls -> Q c st') ->
  wp ('(c, t) ← lift x; set_ports t calls;; mret c) Q st.
Proof.
  intros [_ Hv] (t' & -> & Hok & _ & _ & _ & Hf) HQ. apply wp_bind. exists (c, t'), st. split; [done|].
  cbn beta iota. apply wp_set_ports, wp_ret, HQ. split; try done. intros p m. apply Hf.
Qed.

Lemma wp_update env d old Q st :
  tables_ok st -> port_at st (port_index d) (mstid d) = Some old ->
  (forall st', ports_step st st' (put st d) (npd_stp_info_update env d old) -> Q 0 st') -> wp (stp_update env d) Q st.
Proof.
  intros Hok Hd HQ. pose proof (search_port st d Hok) as Hs. rewrite Hd in Hs. unfold stp_update. apply wp_bind, wp_get.
  rewrite Hs. eapply wp_ports; [done|by eapply ks_update_some; [apply Hok|]|]. intros st' Hst. apply HQ. destruct Hst as [H1 H2 H3 H4 H5 H6].
  split; try done. intros p m. rewrite H2. unfold put, ks_put. by rewrite is_key_same.
Qed.

Lemma wp_insert env d Q st :
  tables_ok st ->
  (forall old st', port_at st (port_index d) (mstid d) = Some old ->
     ports_step st st' (put st d) (npd_stp_info_update env d old) -> Q 0 st') ->
  (forall st', port_at st (port_index d) (mstid d) = None -> ks_count (ports_stp st) <> ks_cap (ports_stp st) ->
     ports_step st st' (put st d) (npd_stp_info_insert env d) -> Q 0 st') ->
  (forall st', port_at st (port_index d) (mstid d) = None -> ks_count (ports_stp st) = ks_cap (ports_stp st) ->
     ports_step st st' (port_at st) [] -> Q (-1) st') ->
  wp (stp_insert env d) Q st.
Proof.
  intros Hok H1 H2 H3. pose proof (search_port st d Hok) as Hs. pose proof Hok as [Hp _]. unfold stp_insert.
  assert (forall st' calls, ports_step st st' (fun p m => ks_put (ports_stp st) d (stp_key p m)) calls -> ports_step st st' (put st d) calls) as Hput.
  { intros st' calls [G1 G2 G3 G4 G5 G6]. split; try done. intros p m. rewrite G2. unfold put, ks_put. by rewrite is_key_same. }
  apply wp_bind, wp_get. destruct (port_at st (port_index d) (mstid d)) as [old|] eqn:Eo; rewrite Hs.
  - eapply wp_ports; [done|by eapply ks_insert_some|]. intros st' Hst. apply (H1 old); [done|by apply Hput].
  - destruct (decide (ks_count (ports_stp st) = ks_cap (ports_stp st))) as [Hc|Hc].
    + destruct (ks_insert_full (ports_stp st) d Hp (ks_all_valid d) Hs (or_intror Hc)) as (t' & E & Hok' & _ & _ & _ & Hf). rewrite E.
      apply wp_bind. exists (-1, t'), st. split; [done|]. cbn beta iota. apply wp_set_ports, wp_ret, H3; try done.
      split; try done; [split; [done|apply Hok]|]. intros p m. apply Hf.
    + destruct (ks_insert_new (ports_stp st) d Hp (ks_all_valid d) Hs (ports_fit _ _) Hc) as (t' & E & Hok' & _ & _ & _ & Hf). rewrite E.
      apply wp_bind. exists (0, t'), st. split; [done|]. cbn beta iota. apply wp_set_ports, wp_ret, H2; try done.
      apply Hput. split; try done; [split; [done|apply Hok]|]. intros p m. apply Hf.
Qed.

Lemma wp_delete env d old Q st :
  tables_ok st -> port_at st (port_index d) (mstid d) = Some old ->
  (forall st', ports_step st st' (drop st d) (npd_stp_info_delete env old) -> Q 0 st') -> wp (stp_delete env d) Q st.
Proof.
  intros Hok Hd HQ. pose proof (search_port st d Hok) as Hs. rewrite Hd in Hs. unfold stp_delete. apply wp_bind, wp_get.
  rewrite Hs. eapply wp_ports; [done|by eapply ks_delete_some; [apply Hok|]|]. intros st' Hst. apply HQ. destruct Hst as [H1 H2 H3 H4 H5 H6].
  split; try done. intros p m. rewrite H2. unfold drop, ks_drop. by rewrite is_key_same.
Qed.

Lemma wp_delete_none env d Q st :
  tables_ok st -> port_at st (port_index d) (mstid d) = None ->
  (forall st', ports_step st st' (port_at st) [] -> Q 0 st') -> wp (stp_delete env d) Q st.
Proof.
  intros Hok Hd HQ. pose proof (search_port st d Hok) as Hs. rewrite Hd in Hs. unfold stp_delete. apply wp_bind, wp_get.
  rewrite Hs. pose proof (ks_delete_none (ports_stp st) d (proj1 Hok) (ks_all_valid d) Hs) as Hr. rewrite ports_fit in Hr.
  eapply wp_ports; [done|exact Hr|]. intros st' Hst. by apply HQ.
Qed.

Lemma wp_update_none env d Q st :
  tables_ok st -> port_at st (port_index d) (mstid d) = None ->
  (forall st', ports_step st st' (port_at st) [] -> Q (-1) st') -> wp (stp_update env d) Q st.
Proof.
  intros Hok Hd HQ. pose proof (search_port st d Hok) as Hs. rewrite Hd in Hs. unfold stp_update. apply wp_bind, wp_get.
  rewrite Hs. eapply wp_ports; [done|exact (ks_update_none (ports_stp st) d (proj1 Hok) Hs)|]. intros st' Hst. by apply HQ.
Qed.

Lemma wp_search p m Q st : Q (port_at st p m) st -> wp (stp_search (stp_key p m)) Q st.
Proof. intros H. unfold stp_search. apply wp_bind, wp_get, wp_ret, H. Qed.

End tables.

(** ** What the operations do to an invariant

    An invariant of the ports table and of the states given to the chip, by
    what the primitive changes do to it: [OK new old] says which updates keep
    it, [INS] which insertions, [DEL] which deletions. *)

(** Calls that do not set the state of a port. *)
Definition quiet (c : chip_call) : Prop := match c with nam_stp_state_set _ _ _ => False | _ => True end.

Section rules.
Context {T V : Type} `{!KeyStore T stp_info_db_s, !KeyStore V vlan_stp_s, !StpStores T V}.
Implicit Types (st : stp_state T V) (d : stp_info_db_s).

Record stable (env : npd_env) (I : stp_state T V -> Prop) (OK : stp_info_db_s -> stp_info_db_s -> Prop)
    (INS DEL : stp_info_db_s -> Prop) : Prop := {
  s_tables st : I st -> tables_ok st;
  s_frame st st' l : I st -> ports_stp st' = ports_stp st -> ks_ok (vlans_stp st') -> chip st' = chip st ++ l ->
    Forall quiet l -> I st';
  s_update st st' d old : I st -> port_at st (port_index d) (mstid d) = Some old -> OK d old ->
    ports_step st st' (put st d) (npd_stp_info_update env d old) -> I st';
  s_insert st st' d : I st -> port_at st (port_index d) (mstid d) = None -> INS d ->
    ports_step st st' (put st d) (npd_stp_info_insert env d) -> I st';
  s_same st st' : I st -> ports_step st st' (port_at st) [] -> I st';
  s_delete st st' d old : I st -> port_at st (port_index d) (mstid d) = Some old -> DEL old ->
    ports_step st st' (drop st d) (npd_stp_info_delete env old) -> I st'
}.

Context (env : npd_env) (I : stp_state T V -> Prop) (OK : stp_info_db_s -> stp_info_db_s -> Prop)
  (INS DEL : stp_info_db_s -> Prop) (Hs : stable env I OK INS DEL).

(** An entry that was found. *)
Lemma keeps_found {A} p m (f : stp_info_db_s -> S T V A) (g : S T V A) :
  (forall st d, I st -> port_at st p m = Some d -> port_index d = p -> mstid d = m -> wp (f d) (fun _ => I) st) ->
  (forall st, I st -> port_at st p m = None -> wp g (fun _ => I) st) ->
  keeps I (found ← stp_search (stp_key p m); match found with Some d => f d | None => g end).
Proof.
  intros Hf Hg st Hi. apply wp_bind, wp_search. destruct (port_at st p m) as [d|] eqn:E; [|by apply Hg].
  destruct (port_at_key st p m d (s_tables _ _ _ _ _ Hs st Hi) E). by apply Hf.
Qed.

Lemma wp_change {A} d d' p m (k : S T V A) st :
  I st -> port_at st p m = Some d -> port_index d' = p -> mstid d' = m -> OK d' d -> keeps I k ->
  wp (stp_update env d';; k) (fun _ => I) st.
Proof.
  intros Hi Hd Hp Hm Hok Hk. apply wp_bind. eapply (wp_update env d' d); [by apply (s_tables _ _ _ _ _ Hs)|by subst|].
  intros st' Hst. apply Hk. eapply (s_update _ _ _ _ _ Hs); [done|by subst|done..].
Qed.

Lemma wp_remove {A} d p m (k : S T V A) st :
  I st -> port_at st p m = Some d -> port_index d = p -> mstid d = m -> DEL d -> keeps I k ->
  wp (stp_delete env d;; k) (fun _ => I) st.
Proof.
  intros Hi Hd Hp Hm Hok Hk. apply wp_bind. eapply (wp_delete env d d); [by apply (s_tables _ _ _ _ _ Hs)|by subst|].
  intros st' Hst. apply Hk. eapply (s_delete _ _ _ _ _ Hs); [done|by subst|done..].
Qed.

Lemma wp_put {A} d (k : Z -> S T V A) st :
  I st -> (forall old, port_at st (port_index d) (mstid d) = Some old -> OK d old) ->
  (port_at st (port_index d) (mstid d) = None -> INS d) -> (forall c, keeps I (k c)) ->
  wp (stp_insert env d ≫= k) (fun _ => I) st.
Proof.
  intros Hi Hok Hins Hk. apply wp_bind. apply wp_insert; [by apply (s_tables _ _ _ _ _ Hs)|..].
  - intros old st' Ho Hst. apply Hk. eapply (s_update _ _ _ _ _ Hs); eauto.
  - intros st' Ho _ Hst. apply Hk. eapply (s_insert _ _ _ _ _ Hs); eauto.
  - intros st' _ _ Hst. apply Hk. by eapply (s_same _ _ _ _ _ Hs).
Qed.

Lemma keeps_write cmd : keeps I (npd_cmd_write_ro_rstp env cmd : S T V Z).
Proof.
  intros st Hi. unfold npd_cmd_write_ro_rstp, wp. destruct (rstp_ready env); [|by exists (-1), st].
  eexists _, _. split; [done|]. apply (s_frame _ _ _ _ _ Hs st _ []); try done; [|by rewrite app_nil_r].
  by apply (s_tables _ _ _ _ _ Hs st Hi).
Qed.

Lemma keeps_notify netif event : keeps I (netif_notify_event netif event : S T V unit).
Proof.
  intros st Hi. eexists _, _. split; [done|]. apply (s_frame _ _ _ _ _ Hs st _ []); try done; [|by rewrite app_nil_r].
  by apply (s_tables _ _ _ _ _ Hs st Hi).
Qed.

Lemma keeps_calls l : Forall quiet l -> keeps I (chip_calls l : S T V unit).
Proof.
  intros Hl st Hi. eexists _, _. split; [done|]. apply (s_frame _ _ _ _ _ Hs st _ l); try done.
  by apply (s_tables _ _ _ _ _ Hs st Hi).
Qed.

Lemma keeps_add_port v p : keeps I (npd_mstp_add_port env v p : S T V Z).
Proof. unfold npd_mstp_add_port. apply keeps_if; [apply stays_ret|apply keeps_write]. Qed.
Lemma keeps_del_port v p : keeps I (npd_mstp_del_port env v p : S T V Z).
Proof. unfold npd_mstp_del_port. apply keeps_if; [apply stays_ret|apply keeps_write]. Qed.

#[local] Hint Resolve keeps_write keeps_notify keeps_add_port keeps_del_port : stp.

(** A change of the entries of a port in the instances [l]. *)
Lemma keeps_instances l netif change :
  (forall d d', port_index d = netif -> mstid d ∈ l -> change d = Some d' ->
     port_index d' = netif /\ mstid d' = mstid d /\ OK d' d) ->
  keeps I (for_instances env l netif change).
Proof.
  intros Hc. induction l as [|i l IH]; cbn [for_instances]; [apply stays_ret|].
  intros st Hi. apply wp_bind, wp_search, wp_bind. assert (keeps I (for_instances env l netif change)) as IH'.
  { apply IH. intros d d' Hp Hm. apply Hc; [done|by right]. }
  destruct (port_at st netif i) as [d|] eqn:E; [|by apply wp_ret, IH'].
  destruct (port_at_key st netif i d (s_tables _ _ _ _ _ Hs st Hi) E) as [Hp Hm].
  destruct (change d) as [d'|] eqn:Ed; [|by apply wp_ret, IH'].
  destruct (Hc d d' Hp) as (Hp' & Hm' & Hok); [rewrite Hm; by left|done|].
  eapply wp_mono; [eapply (wp_change d d' netif i); [done|done|done|congruence|done|apply stays_ret]|].
  intros a st' Hi'. by apply IH'.
Qed.

Lemma keeps_link_change netif event :
  (forall e d, port_index d = netif -> mstid d = 0 -> OK (link_common e d) d) ->
  (forall e d d', port_index d = netif -> mstid d ∈ instances -> link_instance e d = Some d' -> OK d' d) ->
  keeps I (npd_rstp_link_change env netif event).
Proof.
  intros H0 Hm. unfold npd_rstp_link_change. apply keeps_if; [apply stays_ret|]. apply keeps_if; [apply stays_ret|].
  cbv zeta. apply keeps_found; [|by intros; apply wp_ret].
  intros st d Hi Hd Hp Hz. eapply wp_change; [done|exact Hd|..].
  - unfold link_common. cbv zeta. by destruct (_ && _).
  - unfold link_common. cbv zeta. by destruct (_ && _).
  - by apply H0.
  - apply stays_bind; [|intros _; apply keeps_write]. apply keeps_instances. intros d1 d2 Hp1 Hm1 E.
    assert (port_index d2 = port_index d1 /\ mstid d2 = mstid d1) as [-> ->].
    { unfold link_instance in E. destruct (_ || _); [done|]. destruct (negb _); [|by injection E as <-].
      cbv zeta in E. by destruct (_ && _); injection E as <-. }
    split_and!; [done|done|by eapply Hm].
Qed.

(** The two updates of a request of a protocol daemon. *)
Lemma keeps_flag set netif m :
  (forall d, port_index (set d) = port_index d /\ mstid (set d) = mstid d) ->
  (forall d, port_index d = netif -> mstid d = m \/ mstid d = 0 -> OK (set d) d) ->
  keeps I (set_port_flag env set netif m).
Proof.
  intros Hk Hok. unfold set_port_flag.
  assert (forall i, i = m \/ i = 0 -> keeps I (found ← stp_search (stp_key netif i);
    match found with Some d => stp_update env (set d);; mret tt | None => mret tt end)) as H1.
  { intros i Hi. apply keeps_found; [|by intros; apply wp_ret]. intros st d Hst Hd Hp Hm. destruct (Hk d) as [K1 K2].
    eapply (wp_change d (set d) netif i); [done|done|congruence|congruence| |apply stays_ret]. apply Hok; [done|].
    destruct Hi as [->| ->]; [by left|by right]. }
  intros st Hi. destruct (H1 m (or_introl eq_refl) st Hi) as ([] & st1 & E1 & Hi1).
  destruct (H1 0 (or_intror eq_refl) st1 Hi1) as ([] & st2 & E2 & Hi2). exists tt, st2. split; [|done].
  revert E1 E2. unfold mbind, S_bind. destruct (stp_search (stp_key netif m) st) as [[found st0]|]; [|done].
  intros E1. rewrite E1. done.
Qed.

Lemma keeps_config netif s :
  (forall x d, port_index d = netif -> OK (with_state d x) d) ->
  (forall e d, port_index d = netif -> mstid d = 0 -> OK (link_common e d) d) ->
  (forall e d d', port_index d = netif -> mstid d ∈ instances -> link_instance e d = Some d' -> OK d' d) ->
  keeps I (npd_netif_config_stp env netif s).
Proof.
  intros H1 H2 H3. unfold npd_netif_config_stp. cbv zeta. apply keeps_found; [|by intros; apply wp_ret].
  intros st d Hi Hd Hp Hm. eapply wp_change; [done|exact Hd|done|done|by apply H1|].
  apply stays_bind; [apply keeps_instances; intros d1 d2 Hp1 Hm1 [= <-]; split_and!; [done|done|by apply H1]|].
  intros _. apply stays_bind; [|intros _; apply stays_ret]. apply keeps_if; [|apply stays_ret].
  apply stays_bind; [by apply keeps_link_change|intros _; apply stays_ret].
Qed.

Lemma keeps_state_update p m s :
  (forall x d, port_index d = p -> mstid d = m -> OK (with_state d x) d) -> keeps I (state_update env p m s).
Proof.
  intros H1. unfold state_update. apply keeps_if; [apply stays_ret|]. apply keeps_found; [|by intros; apply wp_ret].
  intros st d Hi Hd Hp Hm. assert (forall k : S T V unit, keeps I k -> wp (stp_update env (with_state d s);; k) (fun _ => I) st) as Hw.
  { intros k Hk. eapply wp_change; [done|exact Hd|done|done|by apply H1|done]. }
  apply wp_bind. assert (keeps I (mret 0 : S T V Z)) as Hr by apply stays_ret.
  apply (wp_mono _ (fun _ => I)); [|intros a st' H'; by apply Hr].
  repeat (destruct (s =? _); [try apply Hw; auto with stp|]). by apply wp_ret.
Qed.

Lemma keeps_tcn p m : keeps I (receive_tcn env p m).
Proof.
  unfold receive_tcn. apply keeps_if; [apply stays_ret|]. apply keeps_found; [|by intros; apply wp_ret].
  intros st d Hi _ _ _. apply (stays_bind I); auto with stp.
Qed.

(** *** VLANs *)

Lemma keeps_vlans (x : V -> option (Z * V)) (calls : V -> Z -> list chip_call) :
  (forall v, ks_ok v -> exists c v', x v = Some (c, v') /\ ks_ok v') -> (forall v c, Forall quiet (calls v c)) ->
  keeps I (st ← get_state; '(c, v) ← lift (x (vlans_stp st)); set_vlans v (calls (vlans_stp st) c);; mret c).
Proof.
  intros Hx Hq st Hi. pose proof (s_tables _ _ _ _ _ Hs st Hi) as [_ Hv].
  destruct (Hx _ Hv) as (c & v' & E & Hv'). apply wp_bind, wp_get, wp_bind. rewrite E. exists (c, v'), st. split; [done|].
  cbn beta iota. apply wp_bind. eexists _, _. split; [done|]. apply wp_ret.
  by eapply (s_frame _ _ _ _ _ Hs st _ (calls (vlans_stp st) c)).
Qed.

Lemma keeps_vlan_insert (d : vlan_stp_s) : keeps I (vlan_insert d : S T V Z).
Proof.
  apply (keeps_vlans (fun v => ks_insert v d) (fun v c => match ks_search v d with
    | Some old => npd_vlan_stp_update d old | None => if c =? 0 then npd_vlan_stp_insert d else [] end)).
  - intros v Hv. destruct (ks_search v d) as [old|] eqn:E; [destruct (ks_insert_some v d old Hv E) as (v' & -> & Hv' & _); by exists 0, v'|].
    destruct (ks_fits v d) eqn:Ef;
      [|destruct (ks_insert_full v d Hv (ks_all_valid d) E (or_introl Ef)) as (v' & -> & Hv' & _); by exists (-1), v'].
    destruct (decide (ks_count v = ks_cap v)) as [Hc|Hc].
    + destruct (ks_insert_full v d Hv (ks_all_valid d) E (or_intror Hc)) as (v' & -> & Hv' & _). by exists (-1), v'.
    + destruct (ks_insert_new v d Hv (ks_all_valid d) E Ef Hc) as (v' & -> & Hv' & _). by exists 0, v'.
  - intros v c. destruct (ks_search v d); [by repeat constructor|]. destruct (c =? 0); by repeat constructor.
Qed.

Lemma keeps_vlan_delete (d : vlan_stp_s) : keeps I (vlan_delete d : S T V Z).
Proof.
  apply (keeps_vlans (fun v => ks_delete v d) (fun v c => match ks_search v d with
    | Some old => npd_vlan_stp_delete old | None => [] end)).
  - intros v Hv. destruct (ks_search v d) as [old|] eqn:E.
    + destruct (ks_delete_some v d old Hv E) as (v' & -> & Hv' & _). by exists 0, v'.
    + destruct (ks_delete_none v d Hv (ks_all_valid d) E) as (v' & -> & Hv' & _). by eexists _, v'.
  - intros v c. destruct (ks_search v d); by repeat constructor.
Qed.

(** The loop over the entries of a VLAN ends: the VLAN has one at most. *)
Lemma keeps_delete_vlan v : u32 v < vlan_buckets -> keeps I (delete_vlan_entries 2 v).
Proof.
  intros Hfit. assert (forall st', I st' -> ks_search (vlans_stp st') (VlanStp v 0) = None ->
    wp (delete_vlan_entries 1 v) (fun _ => I) st') as Hend.
  { intros st' Hi' Hn. pose proof (s_tables _ _ _ _ _ Hs st' Hi') as [_ Hv']. cbn [delete_vlan_entries].
    apply wp_bind, wp_get, wp_bind. exists None, st'. split; [|by apply wp_ret].
    unfold lift. rewrite ks_head_fits, Hn; [done|done|]. rewrite vlans_fit. cbn [vid]. by apply Z.ltb_lt. }
  intros st Hi. pose proof (s_tables _ _ _ _ _ Hs st Hi) as [_ Hv]. cbn [delete_vlan_entries].
  apply wp_bind, wp_get, wp_bind. exists (ks_search (vlans_stp st) (VlanStp v 0)), st.
  split; [unfold lift; rewrite ks_head_fits; [done|done|]; rewrite vlans_fit; cbn [vid]; by apply Z.ltb_lt|].
  destruct (ks_search (vlans_stp st) (VlanStp v 0)) as [d|] eqn:E; [|by apply wp_ret].
  assert (ks_search (vlans_stp st) d = Some d) as Hd.
  { etransitivity; [|exact E]. apply ks_search_ext; [done|]. pose proof (ks_search_same _ _ _ Hv E) as Hsame.
    rewrite vlans_same in Hsame |- *. unfold vlan_stp_cmp in *. lia. }
  destruct (ks_delete_some (vlans_stp st) d d Hv Hd) as (v' & Ev & Hv' & _ & _ & _ & Hf).
  destruct (keeps_vlan_delete d st Hi) as (c & st1 & E1 & Hi1). apply wp_bind. exists c, st1. split; [done|].
  apply Hend; [done|]. revert E1. unfold vlan_delete, mbind, S_bind, get_state, lift, set_vlans. rewrite Ev. intros [= <- <-].
  cbn [vlans_stp]. rewrite Hf. unfold ks_drop. pose proof (ks_search_same _ _ _ Hv E) as Hsame. by rewrite Hsame.
Qed.

Lemma keeps_del_vlan_ports l v : keeps I (del_vlan_ports env l v : S T V unit).
Proof. induction l as [|[netif x] l IH]; cbn [del_vlan_ports]; auto with stp. Qed.

(** *** Ports join and leave *)

Lemma keeps_in_instance v (f : Z -> S T V unit) : (forall m, m <> 0 -> keeps I (f m)) -> keeps I (in_instance v f).
Proof.
  intros Hf. unfold in_instance, vlan_search. apply stays_bind; [apply keeps_get; intros; apply stays_ret|].
  intros [d|]; [|apply stays_ret]. destruct (Z.eqb_spec (vlan_mstid d) 0); [apply stays_ret|by apply Hf].
Qed.

Definition joined (d : stp_info_db_s) (e : Z) : stp_info_db_s := with_port_count (with_en d e) (u32 (port_index_count d + 1)).

Lemma keeps_join p m :
  (forall e d, port_index d = p -> mstid d = m -> OK (joined d e) d) ->
  (forall e, INS (joined (with_state (stp_key p m) NAM_STP_PORT_STATE_DISCARD_E) e)) -> keeps I (join_port env p m).
Proof.
  intros Hok Hins st Hi. unfold join_port. cbv zeta. apply wp_bind, wp_search.
  destruct (port_at st p m) as [d|] eqn:E.
  - destruct (port_at_key st p m d (s_tables _ _ _ _ _ Hs st Hi) E) as [Hp Hm].
    apply (wp_put (joined d _)); [done|..].
    + intros old Ho. cbn [port_index mstid joined with_port_count with_en] in Ho. rewrite Hp, Hm, E in Ho.
      injection Ho as <-. by apply Hok.
    + intros Hn. cbn [port_index mstid joined with_port_count with_en] in Hn. rewrite Hp, Hm in Hn. congruence.
    + intros c. apply stays_ret.
  - apply (wp_put (joined (with_state (stp_key p m) _) _)); [done|..].
    + intros old Ho. cbn in Ho. congruence.
    + intros _. apply Hins.
    + intros c. apply stays_ret.
Qed.

Lemma keeps_leave p m :
  (forall x d, port_index d = p -> mstid d = m -> OK (with_port_count d x) d) ->
  (forall d, port_index d = p -> mstid d = m -> DEL d) -> keeps I (leave_port env p m).
Proof.
  intros Hok Hdel. unfold leave_port. apply keeps_found; [|by intros; apply wp_ret]. intros st d Hi Hd Hp Hm.
  destruct (port_index_count d =? 1).
  - eapply wp_remove; [done|exact Hd|done|done|by apply Hdel|apply stays_ret].
  - eapply wp_change; [done|exact Hd|done|done|by apply Hok|apply stays_ret].
Qed.

Lemma keeps_drop_count p m :
  (forall x d, port_index d = p -> mstid d = m -> OK (with_port_count d x) d) ->
  (forall d, port_index d = p -> mstid d = m -> DEL d) -> keeps I (drop_port_count env p m).
Proof.
  intros Hok Hdel. unfold drop_port_count. apply keeps_found; [|by intros; apply wp_ret]. intros st d Hi Hd Hp Hm.
  destruct (1 <? port_index_count d).
  - eapply wp_change; [done|exact Hd|done|done|by apply Hok|apply stays_ret].
  - eapply wp_remove; [done|exact Hd|done|done|by apply Hdel|apply stays_ret].
Qed.

Lemma keeps_delete_instances l netif : (forall d, port_index d = netif -> DEL d) -> keeps I (delete_instances env l netif).
Proof.
  intros Hdel. induction l as [|i l IH]; cbn [delete_instances]; [apply stays_ret|].
  intros st Hi. apply wp_bind, wp_search, wp_bind. destruct (port_at st netif i) as [d|] eqn:E; [|by apply wp_ret, IH].
  destruct (port_at_key st netif i d (s_tables _ _ _ _ _ Hs st Hi) E) as [Hp Hm].
  eapply wp_mono; [eapply wp_remove; [done|exact E|done|done|by apply Hdel|apply stays_ret]|]. intros a st' Hi'. by apply IH.
Qed.

(** *** Every operation

    What the changes that the operations make on their own may do, and what
    an operation needs to be allowed to do to the ports it names. *)

Definition may_set p m : Prop := forall d d', port_index d = p -> mstid d = m -> OK d' d.
Definition may_leave p : Prop := forall d, port_index d = p -> DEL d.

Definition op_ok (op : stp_op) : Prop :=
  match op with
  | NetifEvent netif event =>
      (NPD_NETIF_VLAN_TYPE = npd_netif_type_get netif -> event = PORT_NOTIFIER_DELETE ->
         u32 (npd_netif_vlan_get_vid netif) < vlan_buckets) /\
      (NPD_NETIF_VLAN_TYPE = npd_netif_type_get netif -> event = PORT_NOTIFIER_CREATE ->
         forall x, x ∈ default [] (g_vlans env (npd_netif_vlan_get_vid netif)) -> may_leave x.1) /\
      (event = PORT_NOTIFIER_L2DELETE -> may_leave netif)
  | RelateEvent _ son event => event = PORT_NOTIFIER_LEAVE -> may_leave son
  | ConfigStp netif _ => forall m, may_set netif m
  | BindVlan v _ => forall x, x ∈ default [] (g_vlans env v) -> may_leave x.1
  | StateUpdate port m _ => may_set port m
  | ReceiveTcn _ _ | SetParam _ _ _ _ => True
  | StpEnable => forall v l x, g_vlans env v = Some l -> x ∈ l -> may_leave x.1
  | StpDisable => forall p, may_leave p
  | ErppRequest _ _ msg =>
      may_set (msg_netif_0 msg) (Erpp.msg_instance msg) /\ may_set (msg_netif_1 msg) (Erpp.msg_instance msg)
  | SmartLinkRequest _ _ _ msg =>
      may_set (block_port msg) (SmartLink.msg_instance msg) /\ may_set (unblock_port msg) (SmartLink.msg_instance msg)
  end.

Context (H0 : forall d d', mstid d = 0 -> OK d' d)
  (Hkeep : forall d d', state d' = state d -> smartlink_flag d' = smartlink_flag d -> erpp_flag d' = erpp_flag d -> OK d' d)
  (Hlink : forall e d d', link_instance e d = Some d' -> OK d' d)
  (Hins : forall d, mstid d = 0 \/ state d = NAM_STP_PORT_STATE_DISCARD_E -> INS d).

Lemma keeps_change_link netif event : keeps I (npd_rstp_link_change env netif event).
Proof. apply keeps_link_change; [intros e d _ Hm; by apply H0|intros e d d' _ _; by apply Hlink]. Qed.

#[local] Hint Resolve keeps_change_link : stp.

Lemma keeps_unbind l m : (forall x, x ∈ l -> may_leave x.1) -> keeps I (unbind_ports env l m).
Proof.
  induction l as [|[netif x] l IH]; intros Hl; cbn [unbind_ports]; [apply stays_ret|].
  apply stays_bind; [|intros _; apply IH; intros y Hy; apply Hl; by right]. apply keeps_if; [apply stays_ret|].
  apply keeps_drop_count; [intros; by apply Hkeep|]. intros d Hp _. apply (Hl (netif, x)); [by left|done].
Qed.

Lemma keeps_insert {A} d (k : Z -> S T V A) :
  mstid d = 0 -> (forall c, keeps I (k c)) -> keeps I (stp_insert env d ≫= k).
Proof.
  intros Hm Hk st Hi. apply wp_put; [done| |intros _; apply Hins; by left|done].
  intros old Ho. apply H0. destruct (port_at_key _ _ _ _ (s_tables _ _ _ _ _ Hs st Hi) Ho) as [_ ->]. done.
Qed.

Lemma keeps_bind_ports l m ret : keeps I (bind_ports env l m ret).
Proof.
  revert ret. induction l as [|[x netif] l IH]; intros ret; cbn [bind_ports]; [apply stays_ret|].
  apply keeps_if; [done|]. cbv zeta. intros st Hi. apply wp_bind, wp_search.
  destruct (port_at st netif m) as [d|] eqn:E; [by apply keeps_insert|].
  apply wp_put; [done| |intros _; apply Hins; by right|done]. intros old Ho. cbn [port_index mstid] in Ho. congruence.
Qed.

Lemma keeps_bind_vlan v m :
  (forall x, x ∈ default [] (g_vlans env v) -> may_leave x.1) -> keeps I (npd_mstp_vlan_stpid_bind env v m).
Proof.
  intros Hl. unfold npd_mstp_vlan_stpid_bind, vlan_search.
  apply stays_bind; [apply keeps_get; intros; apply stays_ret|]. intros found. cbv zeta.
  apply stays_bind; [destruct found as [old|]; [apply keeps_if; [by apply keeps_unbind|]|]; apply stays_ret|].
  intros _. apply stays_bind; [apply keeps_vlan_insert|]. intros ret.
  apply keeps_if; [apply keeps_bind_ports|apply stays_ret].
Qed.

Lemma keeps_create netif link_status c :
  keeps I (stp_insert env (StpInfo netif 0 link_status 0 0 0 0 0 0 NAM_STP_PORT_STATE_DISCARD_E c 0 0);;
    npd_mstp_add_port env 0 netif;;
    if negb (link_status =? 0) then npd_rstp_link_change env netif PORT_NOTIFIER_LINKUP_E;; mret tt else mret tt).
Proof. apply keeps_insert; [done|]. auto 10 with stp. Qed.

Lemma keeps_l2create netif : keeps I (port_l2create env netif).
Proof. unfold port_l2create. apply keeps_get. intros st0. apply keeps_if; [apply keeps_create|apply stays_ret]. Qed.

(** An entry is deleted, or there is none. *)
Lemma keeps_delete d : may_leave (port_index d) -> keeps I (stp_delete env d).
Proof.
  intros Hdel st Hi. pose proof (s_tables _ _ _ _ _ Hs st Hi) as Hok.
  destruct (port_at st (port_index d) (mstid d)) as [old|] eqn:E.
  - apply (wp_delete env _ old); [done|done|]. intros st' Hst. apply (s_delete _ _ _ _ _ Hs st st' d old); [done|exact E| |done].
    apply Hdel. by eapply port_at_key.
  - apply wp_delete_none; [done|done|]. intros st' Hst. by eapply (s_same _ _ _ _ _ Hs).
Qed.

Lemma keeps_l2delete netif : may_leave netif -> keeps I (port_l2delete env netif).
Proof.
  intros Hdel. unfold port_l2delete. apply stays_bind; [apply keeps_del_port|]. intros _. apply keeps_get. intros st0.
  apply keeps_if; [|apply stays_ret]. apply stays_bind; [by apply keeps_delete_instances|]. intros _.
  apply stays_bind; [by apply keeps_delete|intros _; apply stays_ret].
Qed.

Lemma keeps_netif_event netif event : op_ok (NetifEvent netif event) -> keeps I (npd_rstp_netif_event env netif event).
Proof.
  intros (Hd & Hc & Hl). unfold npd_rstp_netif_event. apply keeps_get. intros st0.
  destruct (ks_first _); [|apply stays_ret]. apply keeps_if; [auto with stp|].
  destruct (Z.eqb_spec NPD_NETIF_VLAN_TYPE (npd_netif_type_get netif)) as [Hv|Hv].
  - unfold npd_rstp_vlan_event, npd_mstp_add_vlan_on_mst, npd_mstp_del_vlan_on_mst.
    destruct (Z.eqb_spec event PORT_NOTIFIER_CREATE).
    + apply stays_bind; [apply keeps_write|]. intros _.
      apply stays_bind; [apply keeps_bind_vlan; by apply Hc|intros _; apply stays_ret].
    + destruct (Z.eqb_spec event PORT_NOTIFIER_DELETE); [|apply stays_ret].
      apply stays_bind; [apply keeps_write|]. intros _. destruct (g_vlans env _); [|apply stays_ret].
      apply stays_bind; [apply keeps_del_vlan_ports|]. intros _. apply keeps_delete_vlan. by apply Hd.
  - apply keeps_if; [|apply stays_ret]. apply keeps_if; [apply keeps_l2create|].
    destruct (Z.eqb_spec event PORT_NOTIFIER_L2DELETE); [apply keeps_l2delete; by apply Hl|auto with stp].
Qed.

Lemma keeps_relate f son event : (event = PORT_NOTIFIER_LEAVE -> may_leave son) -> keeps I (npd_rstp_relate_handle env f son event).
Proof.
  intros Hl. unfold npd_rstp_relate_handle. apply keeps_get. intros st0. destruct (ks_first _); [|apply stays_ret].
  cbv zeta. apply keeps_if; [apply keeps_if; auto with stp|]. do 2 (apply keeps_if; [apply stays_ret|]).
  apply keeps_if.
  - apply stays_bind; [|auto with stp]. apply keeps_in_instance. intros m Hm. apply keeps_join; [intros; by apply Hkeep|].
    intros e. apply Hins. by right.
  - destruct (Z.eqb_spec event PORT_NOTIFIER_LEAVE); [|apply stays_ret].
    apply stays_bind; [apply keeps_del_port|]. intros _. apply keeps_in_instance. intros m Hm.
    apply keeps_leave; [intros; by apply Hkeep|]. intros d Hp _. by apply Hl.
Qed.

Lemma keeps_add_vlan_ports l v : keeps I (add_vlan_ports env l v : S T V unit).
Proof.
  induction l as [|[netif x] l IH]; cbn [add_vlan_ports]; [apply stays_ret|]. apply stays_bind; [|done].
  apply keeps_if; auto with stp.
Qed.

Lemma keeps_init : (forall v l x, g_vlans env v = Some l -> x ∈ l -> may_leave x.1) ->
  keeps I (npd_stp_vlan_stpid_bind_init env).
Proof.
  intros Hl. unfold npd_stp_vlan_stpid_bind_init. apply stays_bind.
  - induction (switch_ports env) as [|netif l IH]; cbn [init_ports]; [apply stays_ret|].
    apply stays_bind; [|done]. apply keeps_if; [apply stays_ret|apply keeps_create].
  - intros _. apply stays_bind; [|intros _; apply stays_ret].
    induction (seqZ 1 4093) as [|v vs IH]; cbn [init_vlans]; [apply stays_ret|]. apply stays_bind; [|done].
    destruct (g_vlans env v) as [ports|] eqn:Ev; [|apply stays_ret].
    apply stays_bind; [apply keeps_bind_vlan; rewrite Ev; intros x; by apply (Hl v)|]. intros _.
    apply stays_bind; [apply keeps_write|]. intros _. apply keeps_add_vlan_ports.
Qed.

Lemma keeps_struct_init : (forall p, may_leave p) -> keeps I (npd_stp_struct_init env).
Proof.
  intros Hdel. unfold npd_stp_struct_init. apply keeps_get. intros st0. apply stays_bind.
  - induction (ks_entries _) as [|d l IH]; cbn [netif_travesal_delete]; [apply stays_ret|].
    apply stays_bind; [by apply keeps_delete|done].
  - intros _. apply keeps_get. intros st1. apply stays_bind; [|intros _; apply stays_ret].
    induction (ks_entries _) as [|d l IH]; cbn [vlan_travesal_delete]; [apply stays_ret|].
    apply stays_bind; [apply keeps_vlan_delete|done].
Qed.

Lemma keeps_set_param param m p x : keeps I (set_port_param env param m p x).
Proof.
  intros st Hi. unfold set_port_param. apply wp_bind, wp_search. pose proof (s_tables _ _ _ _ _ Hs st Hi) as Hok.
  set (d' := if 0 <? m then _ else _).
  assert (forall d, default (stp_key p m) (port_at st p m) = d -> port_index d' = port_index d /\ mstid d' = mstid d /\
    (state d' = state d /\ smartlink_flag d' = smartlink_flag d /\ erpp_flag d' = erpp_flag d)) as Hd'.
  { intros d <-. subst d'. by destruct (0 <? m), param. }
  destruct (port_at st p m) as [d|] eqn:E.
  - destruct (Hd' d eq_refl) as (H1 & H2 & H3 & H4 & H5). destruct (port_at_key st p m d Hok E) as [K1 K2]. assert (port_at st (port_index d') (mstid d') = Some d) as Hd by (by rewrite H1, H2, K1, K2).
    apply (wp_update env d' d); [done|done|]. intros st' Hst. apply (s_update _ _ _ _ _ Hs st st' d' d); [done|done|by apply Hkeep|done].
  - destruct (Hd' (stp_key p m) eq_refl) as (H1 & H2 & _). apply wp_update_none; [done|by rewrite H1, H2|]. intros st' Hst. by eapply (s_same _ _ _ _ _ Hs).
Qed.

Lemma keeps_take set p m :
  (forall d, port_index (set d) = port_index d /\ mstid (set d) = mstid d) -> may_set p m ->
  keeps I (set_port_flag env set p m).
Proof. intros Hk Hset. apply keeps_flag; [done|]. intros d Hp [Hm|Hm]; [by apply Hset|by apply H0]. Qed.

Lemma keeps_exec op : op_ok op -> keeps I (stp_exec env op).
Proof.
  assert (forall {A} (m : S T V A), keeps I m -> keeps I (m;; mret tt)) as Hr.
  { intros A m Hm. apply stays_bind; [done|intros _; apply stays_ret]. }
  assert (forall n, Forall quiet (flush_port n)) as Hq by (intros; by repeat constructor).
  destruct op as [netif event|f son event|netif s|v m|port m s|port m|param m port x| | |vb ve msg|u c ce msg]; cbn [stp_exec op_ok]; intros Hop.
  - by apply keeps_netif_event.
  - by apply keeps_relate.
  - apply Hr, keeps_config; [intros x d Hp; by eapply Hop|intros e d _ Hm; by apply H0|intros e d d' _ _; by apply Hlink].
  - by apply Hr, keeps_bind_vlan.
  - apply Hr, keeps_state_update. intros x d. apply Hop.
  - apply Hr, keeps_tcn.
  - apply Hr, keeps_set_param.
  - by apply Hr, keeps_init.
  - by apply Hr, keeps_struct_init.
  - destruct Hop as [Ha Hb]. apply Hr. unfold npd_erpp_msg_handler. apply keeps_if; [apply stays_ret|]. apply stays_bind.
    + apply keeps_if; (apply stays_bind; [|intros _]); by apply keeps_take.
    + intros _. apply stays_bind; [|intros _; apply stays_ret]. apply keeps_if; [apply keeps_calls, Forall_app; split; apply Hq|apply stays_ret].
  - destruct Hop as [Ha Hb]. apply Hr. unfold npd_smart_link_msg_handler. apply keeps_if; [apply stays_ret|]. apply keeps_if.
    + repeat (apply stays_bind; [|intros _]); try (apply keeps_if; [|apply stays_ret]); try apply stays_ret;
        first [by apply keeps_take|apply keeps_calls, Hq|apply keeps_calls; by repeat constructor].
    + repeat (apply stays_bind; [|intros _]); try apply stays_ret; by apply keeps_take.
Qed.

End rules.
