(* ===== verification/NpdChip.v ===== *)
(** * npd: the chip follows the spanning tree tables

    What the operations of [NpdStp] and [NpdRequests] guarantee on the tables
    of the daemon: the state that the chip was last given for a port is the
    one in the table, the requests of ring protection reach the chip and are
    not undone by links and VLANs that change, and the state of a port can be
    read back. *)

From Stdlib Require Import ZArith Lia Bool.
From stdpp Require Import base decidable list gmap.
From S2P Require Import Prelude NetifIndex Database Chains DatabaseHash DatabaseSeq KeyStore SmartLink Erpp NpdStp NpdRequests NpdStpLogic.

Open Scope Z_scope.

(** ** The states given to the chip *)

(** The state of port [p] in instance [m] after more calls. *)
Definition chip_set (p m : Z) (acc : option Z) (c : chip_call) : option Z :=
  match c with
  | nam_stp_state_set port i s => if (port =? p) && (i =? m) then Some s else acc
  | _ => acc
  end.

Definition chip_after (p m : Z) (acc : option Z) (l : list chip_call) : option Z := foldl (chip_set p m) acc l.

(** The state that the calls [l] left: none if they never set it. *)
Definition chip_state (p m : Z) (l : list chip_call) : option Z := chip_after p m None l.

Lemma chip_after_app p m acc l l' : chip_after p m acc (l ++ l') = chip_after p m (chip_after p m acc l) l'.
Proof. apply foldl_app. Qed.

Lemma chip_after_quiet p m acc l : Forall quiet l -> chip_after p m acc l = acc.
Proof.
  intros H. revert acc. induction H as [|c l Hc _ IH]; intros acc; [done|]. unfold chip_after in *. cbn [foldl].
  rewrite IH. by destruct c.
Qed.

(** A port that no trunk has as a member. *)
Definition plain (env : npd_env) (p : Z) : Prop :=
  is_eth p = true /\ forall t x, g_trunks env t = Some x -> p ∉ trunk_ports x.

Lemma chip_after_members p m acc (l : list Z) (f : Z -> list chip_call) :
  (forall eth acc, eth ∈ l -> chip_after p m acc (f eth) = acc) -> chip_after p m acc (l ≫= f) = acc.
Proof.
  intros Hf. revert acc. induction l as [|eth l IH]; intros acc; [done|]. cbn [mbind list_bind].
  rewrite chip_after_app, Hf by left.
  apply IH. intros e a He. apply Hf. by right.
Qed.

Lemma eth_not_trunk p : is_eth p = true -> is_trunk p = false.
Proof. unfold is_eth, is_trunk. rewrite Z.eqb_eq. intros <-. done. Qed.

Section calls.
Context (env : npd_env) (p m : Z) (Hp : plain env p).
Implicit Types (d : stp_info_db_s).

Lemma member_other d l eth : trunk_members env (port_index d) = Some l -> eth ∈ l -> eth <> p.
Proof.
  unfold trunk_members. intros Hl He ->. destruct (g_trunks env _) as [x|] eqn:E; [|done]. injection Hl as <-.
  by apply (proj2 Hp _ _ E).
Qed.

Lemma insert_calls d acc : chip_after p m acc (npd_stp_info_insert env d) = acc.
Proof.
  unfold npd_stp_info_insert. destruct (is_trunk _).
  - destruct (trunk_members _ _); [|done]. apply chip_after_members. intros eth a _. by destruct (mstid d =? 0).
  - destruct (is_eth _); [|done]. by destruct (mstid d =? 0).
Qed.

Lemma key_not_trunk d : is_trunk (port_index d) = true -> is_key d p m = false.
Proof.
  intros Ht. unfold is_key. destruct (Z.eqb_spec p (port_index d)) as [E|]; [|done].
  pose proof (eth_not_trunk p (proj1 Hp)) as H. congruence.
Qed.

Lemma key_eth d : is_eth (port_index d) = false -> is_key d p m = false.
Proof.
  intros He. unfold is_key. destruct (Z.eqb_spec p (port_index d)) as [E|]; [|done].
  pose proof (proj1 Hp) as H. congruence.
Qed.

Lemma chip_after_set d s acc :
  chip_after p m acc [nam_stp_state_set (port_index d) (mstid d) s] = if is_key d p m then Some s else acc.
Proof. unfold chip_after, is_key. cbn [foldl chip_set]. by rewrite (Z.eqb_sym p), (Z.eqb_sym m). Qed.

Lemma update_calls d old acc :
  chip_after p m acc (npd_stp_info_update env d old) = if is_key d p m then Some (state d) else acc.
Proof.
  unfold npd_stp_info_update. destruct (is_trunk (port_index d)) eqn:Et.
  - rewrite key_not_trunk by done. destruct (trunk_members env (port_index d)) as [l|] eqn:El; [|done].
    rewrite chip_after_app. rewrite (chip_after_members _ _ _ l (fun eth => [nam_stp_state_set _ _ _])).
    + destruct (negb _); [|done]. apply chip_after_members. intros eth a _. by destruct (mstid d =? 0).
    + intros eth a He. pose proof (member_other d l eth El He). unfold chip_after. cbn [foldl chip_set].
      by destruct (Z.eqb_spec eth p).
  - destruct (is_eth (port_index d)) eqn:Ee; [|by rewrite key_eth]. rewrite chip_after_app, chip_after_set.
    rewrite chip_after_quiet; [done|]. repeat (case_match; try by repeat constructor).
Qed.

(** The state that a deleted entry leaves on the chip. *)
Definition off_state d : Z :=
  if negb (mstid d =? 0) then NAM_STP_PORT_STATE_DISCARD_E else NAM_STP_PORT_STATE_DISABLE_E.

Lemma delete_calls d acc : chip_after p m acc (npd_stp_info_delete env d) = if is_key d p m then Some (off_state d) else acc.
Proof.
  assert (forall eth a, chip_after p m a (nam_stp_state_set (port_index d) (mstid d) (off_state d)
    :: (if mstid d =? 0 then [nam_asic_stp_port_enable eth 0] else [])) = if is_key d p m then Some (off_state d) else a) as Hoff.
  { intros eth a. rewrite <- chip_after_set. by destruct (mstid d =? 0). }
  unfold npd_stp_info_delete. cbv zeta. fold (off_state d). destruct (is_trunk (port_index d)) eqn:Et.
  - destruct (trunk_members env (port_index d)) as [l|]; [|by rewrite key_not_trunk].
    rewrite key_not_trunk by done. apply chip_after_members. intros eth a _. rewrite Hoff. by rewrite key_not_trunk.
  - destruct (is_eth (port_index d)) eqn:Ee; [apply Hoff|by rewrite key_eth].
Qed.

End calls.

(** ** Invariants *)

(** Ring protection or smart link has the port. *)
Definition flagged (d : stp_info_db_s) : bool := (smartlink_flag d =? 1) || (erpp_flag d =? 1).

(** VLAN 4094 and 4095 have no bucket: they cannot be deleted. *)
Definition vlan_bounded (op : stp_op) : Prop :=
  match op with
  | NetifEvent netif event =>
      NPD_NETIF_VLAN_TYPE = npd_netif_type_get netif -> event = PORT_NOTIFIER_DELETE ->
      u32 (npd_netif_vlan_get_vid netif) < vlan_buckets
  | _ => True
  end.

(** Operations that do not take a port out of an instance and do not decide
    on its state: links, VLANs and other ports may change. *)
Definition leaves_alone (env : npd_env) (p m : Z) (op : stp_op) : Prop :=
  vlan_bounded op /\
  match op with
  | NetifEvent netif event =>
      (NPD_NETIF_VLAN_TYPE = npd_netif_type_get netif -> event = PORT_NOTIFIER_CREATE ->
         forall x, x ∈ default [] (g_vlans env (npd_netif_vlan_get_vid netif)) -> x.1 <> p) /\
      (event = PORT_NOTIFIER_L2DELETE -> netif <> p)
  | RelateEvent _ son event => event = PORT_NOTIFIER_LEAVE -> son <> p
  | ConfigStp netif _ => netif <> p
  | BindVlan v _ => forall x, x ∈ default [] (g_vlans env v) -> x.1 <> p
  | StateUpdate port i _ => ~ (port = p /\ i = m)
  | ReceiveTcn _ _ | SetParam _ _ _ _ => True
  | StpEnable => forall v l x, g_vlans env v = Some l -> x ∈ l -> x.1 <> p
  | StpDisable => False
  | ErppRequest _ _ msg => msg_netif_0 msg <> p /\ msg_netif_1 msg <> p
  | SmartLinkRequest _ _ _ msg => block_port msg <> p /\ unblock_port msg <> p
  end.

Section invariants.
Context {T V : Type} `{!KeyStore T stp_info_db_s, !KeyStore V vlan_stp_s, !StpStores T V}.
Context (p m : Z) (Hm : m <> 0).
Implicit Types (st : stp_state T V) (d : stp_info_db_s).

(** The chip has the state of the table, where an instance discards on a port
    by default. *)
Definition agrees st : Prop :=
  tables_ok st /\
  default NAM_STP_PORT_STATE_DISCARD_E (chip_state p m (chip st)) =
  from_option state NAM_STP_PORT_STATE_DISCARD_E (port_at st p m).

(** The port was taken over with state [s]. *)
Definition owned (s : Z) st : Prop :=
  tables_ok st /\ chip_state p m (chip st) = Some s /\
  exists d, port_at st p m = Some d /\ state d = s /\ flagged d = true.

Lemma is_key_eq d : is_key d p m = true <-> port_index d = p /\ mstid d = m.
Proof. unfold is_key. rewrite andb_true_iff, !Z.eqb_eq. by split; intros [H1 H2]. Qed.

Lemma step_chip st st' f calls : ports_step st st' f calls ->
  chip_state p m (chip st') = chip_after p m (chip_state p m (chip st)) calls.
Proof. intros H. rewrite (ps_chip _ _ _ _ H). apply chip_after_app. Qed.

(** The entry that an update or a deletion finds has the key of its
    argument. *)
Lemma found_key st d old : tables_ok st -> port_at st (port_index d) (mstid d) = Some old -> is_key old p m = is_key d p m.
Proof. intros Hok Ho. destruct (port_at_key _ _ _ _ Hok Ho) as [H1 H2]. unfold is_key. by rewrite H1, H2. Qed.

Lemma agrees_stable env : plain env p ->
  stable env agrees (fun _ _ => True) (fun d => mstid d = 0 \/ state d = NAM_STP_PORT_STATE_DISCARD_E) (fun _ => True).
Proof.
  intros Hp. split.
  - by intros st [Hok _].
  - intros st st' l [[Hok Hv] Ha] Hps Hv' Hc Hl. split; [by rewrite <- Hps in Hok|].
    unfold port_at in *. rewrite Hps, Hc. unfold chip_state in *. by rewrite chip_after_app, chip_after_quiet.
  - intros st st' d old [Hok Ha] Ho _ Hst. split; [by apply Hst|]. rewrite (step_chip _ _ _ _ Hst), (update_calls env) by done.
    rewrite (ps_at _ _ _ _ Hst). unfold put. by destruct (is_key d p m).
  - intros st st' d [Hok Ha] Ho Hi Hst. split; [by apply Hst|]. rewrite (step_chip _ _ _ _ Hst), (insert_calls env).
    rewrite (ps_at _ _ _ _ Hst), Ha. unfold put. destruct (is_key d p m) eqn:E; [|done].
    apply is_key_eq in E as [<- <-]. rewrite Ho. by destruct Hi as [Hi|Hi].
  - intros st st' [Hok Ha] Hst. split; [by apply Hst|]. by rewrite (step_chip _ _ _ _ Hst), (ps_at _ _ _ _ Hst).
  - intros st st' d old [Hok Ha] Ho _ Hst. split; [by apply Hst|]. rewrite (step_chip _ _ _ _ Hst), (delete_calls env) by done.
    rewrite (ps_at _ _ _ _ Hst). unfold drop. rewrite <- (found_key st d old Hok Ho). destruct (is_key old p m) eqn:E; [|done].
    apply is_key_eq in E as [_ E]. unfold off_state. rewrite E. by destruct (Z.eqb_spec m 0).
Qed.

Lemma owned_stable env s : plain env p ->
  stable env (owned s)
    (fun d' d => port_index d = p -> mstid d = m -> flagged d = true -> state d' = state d /\ flagged d' = true)
    (fun _ => True) (fun d => is_key d p m = false).
Proof.
  intros Hp. split.
  - by intros st [Hok _].
  - intros st st' l ([Hok Hv] & Ha & Hd) Hps Hv' Hc Hl. split; [by rewrite <- Hps in Hok|].
    unfold port_at in *. rewrite Hps, Hc. unfold chip_state in *. by rewrite chip_after_app, chip_after_quiet.
  - intros st st' d old (Hok & Ha & x & Hx & Hs & Hf) Ho Hset Hst. split; [by apply Hst|].
    rewrite (step_chip _ _ _ _ Hst), (update_calls env) by done. rewrite (ps_at _ _ _ _ Hst). unfold put.
    destruct (is_key d p m) eqn:E; [|by eauto]. apply is_key_eq in E as [E1 E2]. rewrite E1, E2 in Ho.
    assert (x = old) as -> by congruence. destruct (port_at_key _ _ _ _ Hok Ho).
    destruct Hset as [Hs' Hf']; [done..|]. split; [congruence|]. exists d. split_and!; [done|congruence|done].
  - intros st st' d (Hok & Ha & x & Hx & Hs & Hf) Ho _ Hst. split; [by apply Hst|].
    rewrite (step_chip _ _ _ _ Hst), (insert_calls env). split; [done|]. rewrite (ps_at _ _ _ _ Hst). unfold put.
    destruct (is_key d p m) eqn:E; [|by eauto]. apply is_key_eq in E as [E1 E2]. congruence.
  - intros st st' (Hok & Ha & Hd) Hst. split; [by apply Hst|]. by rewrite (step_chip _ _ _ _ Hst), (ps_at _ _ _ _ Hst).
  - intros st st' d old (Hok & Ha & Hd) Ho Hk Hst. split; [by apply Hst|].
    rewrite (step_chip _ _ _ _ Hst), (delete_calls env), (ps_at _ _ _ _ Hst) by done. unfold drop.
    rewrite <- (found_key st d old Hok Ho), Hk. done.
Qed.

Lemma agrees_exec env op : plain env p -> vlan_bounded op -> keeps agrees (stp_exec env op).
Proof.
  intros Hp Hv. apply (keeps_exec env agrees _ _ _ (agrees_stable env Hp)); try done.
  destruct op; cbn [op_ok vlan_bounded] in *; unfold may_set, may_leave; naive_solver.
Qed.

Lemma owned_exec env s op : plain env p -> leaves_alone env p m op -> keeps (owned s) (stp_exec env op).
Proof.
  intros Hp [Hv Hl].
  assert (forall q d, port_index d = q -> q <> p -> is_key d p m = false) as Hdel.
  { intros q d <- Hq. unfold is_key. by destruct (Z.eqb_spec p (port_index d)) as [E|E]; [subst p|]. }
  apply (keeps_exec env (owned s) _ _ _ (owned_stable env s Hp)); try done.
  - intros d d' H0 _ H1. congruence.
  - intros d d' E1 E2 E3 _ _ Hf. unfold flagged. by rewrite E2, E3.
  - intros e d d' E _ _ Hf. unfold link_instance in E. unfold flagged in Hf. by rewrite Hf in E.
  - destruct op; cbn [op_ok leaves_alone] in *; unfold may_set, may_leave; naive_solver.
Qed.

Lemma keeps_run I (l : list (npd_env * stp_op)) :
  Forall (fun x => keeps I (stp_exec (T := T) (V := V) x.1 x.2)) l -> keeps I (stp_run l).
Proof.
  induction 1 as [|[env op] l Hx _ IH]; cbn [stp_run]; [apply stays_ret|]. by apply stays_bind.
Qed.

End invariants.

(** ** Requests *)

Section requests.
Context {T V : Type} `{!KeyStore T stp_info_db_s, !KeyStore V vlan_stp_s, !StpStores T V}.
Implicit Types (st : stp_state T V) (d : stp_info_db_s).

(** The tables and the chip where they are not at [p] in [m], in the
    instances other than 0. *)
Record elsewhere env p m st st' : Prop := {
  ew_ok : tables_ok st';
  ew_at q i : i <> 0 -> ~ (q = p /\ i = m) -> port_at st' q i = port_at st q i;
  ew_chip q i : plain env q -> i <> 0 -> ~ (q = p /\ i = m) -> chip_state q i (chip st') = chip_state q i (chip st)
}.

Lemma elsewhere_update env d old st st' :
  ports_step st st' (put st d) (npd_stp_info_update env d old) -> elsewhere env (port_index d) (mstid d) st st'.
Proof.
  intros Hst. assert (forall q i, ~ (q = port_index d /\ i = mstid d) -> is_key d q i = false) as Hk.
  { intros q i Hn. destruct (is_key d q i) eqn:E; [|done]. apply is_key_eq in E as [<- <-]. by destruct Hn. }
  split; [by apply Hst|..].
  - intros q i _ Hn. rewrite (ps_at _ _ _ _ Hst). unfold put. by rewrite Hk.
  - intros q i Hq _ Hn. rewrite (step_chip _ _ _ _ _ _ Hst), (update_calls env), Hk; done.
Qed.

(** A request takes over the entry of its instance; the one of instance 0 is
    changed as well. *)
Lemma wp_flag env set p m d st :
  (forall d, port_index (set d) = port_index d /\ mstid (set d) = mstid d) -> m <> 0 -> plain env p ->
  tables_ok st -> port_at st p m = Some d ->
  wp (set_port_flag env set p m) (fun _ st' => elsewhere env p m st st' /\ port_at st' p m = Some (set d) /\
    chip_state p m (chip st') = Some (state (set d))) st.
Proof.
  intros Hset Hm Hp Hok Hd. destruct (port_at_key _ _ _ _ Hok Hd) as [Hi Hj]. destruct (Hset d) as [Si Sj].
  unfold set_port_flag. apply wp_bind, wp_search. rewrite Hd. apply wp_bind, wp_bind.
  apply (wp_update env (set d) d); [done|by rewrite Si, Sj, Hi, Hj|]. intros st1 Hst.
  assert (is_key (set d) p m = true) as Hk by (apply is_key_eq; by rewrite Si, Sj).
  pose proof (elsewhere_update env (set d) d st st1 Hst) as He. rewrite Si, Sj, Hi, Hj in He.
  assert (port_at st1 p m = Some (set d)) as H1 by (rewrite (ps_at _ _ _ _ Hst); unfold put; by rewrite Hk).
  assert (chip_state p m (chip st1) = Some (state (set d))) as H2.
  { rewrite (step_chip _ _ _ _ _ _ Hst), (update_calls env), Hk; done. }
  apply wp_ret. apply wp_bind, wp_search. destruct (port_at st1 p 0) as [d0|] eqn:E0; [|by apply wp_ret].
  pose proof (ew_ok _ _ _ _ _ He) as Hok1.
  destruct (port_at_key _ _ _ _ Hok1 E0) as [Hi0 Hj0]. destruct (Hset d0) as [Si0 Sj0].
  apply wp_bind. apply (wp_update env (set d0) d0); [done|by rewrite Si0, Sj0, Hi0, Hj0|]. intros st2 Hst2. apply wp_ret.
  pose proof (elsewhere_update env (set d0) d0 st1 st2 Hst2) as He2. rewrite Si0, Sj0, Hi0, Hj0 in He2.
  split_and!.
  - split; [by apply Hst2|..].
    + intros q i Hq Hn. rewrite (ew_at _ _ _ _ _ He2), (ew_at _ _ _ _ _ He); try done. by intros [_ ->].
    + intros q i Hpl Hq Hn. rewrite (ew_chip _ _ _ _ _ He2), (ew_chip _ _ _ _ _ He); try done. by intros [_ ->].
  - rewrite (ew_at _ _ _ _ _ He2); [done|done|by intros [_ ->]].
  - rewrite (ew_chip _ _ _ _ _ He2); [done..|]. by intros [_ ->].
Qed.

(** What a request of ring protection leaves of a port. *)
Definition taken (d : stp_info_db_s) (s : Z) : stp_info_db_s := with_state (with_erpp d 1) s.

Lemma taken_flagged d s : flagged (taken d s) = true.
Proof. apply orb_true_r. Qed.

Definition port_taken p m d s st : Prop := port_at st p m = Some (taken d s) /\ chip_state p m (chip st) = Some s.

Lemma wp_erpp_set env p m s d st :
  m <> 0 -> plain env p -> tables_ok st -> port_at st p m = Some d ->
  wp (nam_erpp_stp_set env p m s) (fun _ st' => elsewhere env p m st st' /\ port_taken p m d s st') st.
Proof. intros. eapply (wp_flag env (fun d => with_state (with_erpp d 1) s)); done. Qed.

(** The state that a request asks for on a port: a ring that is disabled
    forwards. *)
Definition requested (enable status : Z) : Z :=
  if enable =? 0 then NAM_STP_PORT_STATE_FORWARD_E else erpp_state_of status.

Lemma erpp_request_ok env msg a b m da db st :
  msg_netif_0 msg = a -> msg_netif_1 msg = b -> Erpp.msg_instance msg = m ->
  m <> 0 -> a <> b -> plain env a -> plain env b -> tables_ok st -> port_at st a m = Some da -> port_at st b m = Some db ->
  wp (npd_erpp_msg_handler env VALIDATE_BYTE_BEGIN VALIDATE_BYTE_END msg) (fun r st' => r = 0 /\ tables_ok st' /\
    port_taken a m da (requested (msg_is_enable msg) (msg_status_0 msg)) st' /\
    port_taken b m db (requested (msg_is_enable msg) (msg_status_1 msg)) st') st.
Proof.
  intros <- <- <- Hm Hab Hpa Hpb Hok Ha Hb. unfold npd_erpp_msg_handler. rewrite !Z.eqb_refl. cbn [negb orb].
  set (a := msg_netif_0 msg) in *. set (b := msg_netif_1 msg) in *. set (m := Erpp.msg_instance msg) in *.
  set (s0 := requested _ (msg_status_0 msg)). set (s1 := requested _ (msg_status_1 msg)).
  apply wp_bind. apply (wp_mono _ (fun _ st' => tables_ok st' /\ port_taken a m da s0 st' /\ port_taken b m db s1 st')).
  - assert (wp (nam_erpp_stp_set env a m s0;; nam_erpp_stp_set env b m s1)
      (fun _ st' => tables_ok st' /\ port_taken a m da s0 st' /\ port_taken b m db s1 st') st) as Hw;
      [|subst s0 s1; unfold requested in *; by destruct (msg_is_enable msg =? 0)].
    apply wp_bind. eapply wp_mono; [by apply (wp_erpp_set env a m s0 da)|]. intros [] st1 (He1 & T1 & T2).
    assert (port_at st1 b m = Some db) as Hb1 by (rewrite (ew_at _ _ _ _ _ He1); [done|done|by intros [-> _]]).
    eapply wp_mono; [apply (wp_erpp_set env b m s1 db); [done|done|by apply He1|done]|]. intros [] st2 (He2 & Ht2).
    split_and!; [by apply He2| |done]. split; [rewrite (ew_at _ _ _ _ _ He2)|rewrite (ew_chip _ _ _ _ _ He2)]; try done; by intros [-> _].
  - intros [] st2 (Hok2 & Ht1 & Ht2). apply wp_bind.
    destruct (negb (msg_flush_flag msg =? 0)); [|by apply wp_ret, wp_ret].
    eexists _, _. split; [done|]. apply wp_ret. split_and!; [done|done|..]; (split; [by destruct Ht1, Ht2|]);
      cbn [chip]; unfold chip_state; rewrite chip_after_app, (chip_after_quiet _ _ _ (_ ++ _)); (apply Ht1 || apply Ht2 || by repeat constructor).
Qed.

(** The bridge process decides on a state. *)
Lemma state_update_ok env p m s d st :
  master_active env = true -> s = NAM_STP_PORT_STATE_DISCARD_E \/ s = NAM_STP_PORT_STATE_LEARN_E \/ s = NAM_STP_PORT_STATE_FORWARD_E ->
  plain env p -> tables_ok st -> port_at st p m = Some d ->
  wp (state_update env p m s) (fun r st' => r = 0 /\ tables_ok st' /\ port_at st' p m = Some (with_state d s) /\
    vlans_stp st' = vlans_stp st /\ chip_state p m (chip st') = Some s) st.
Proof.
  intros Hact Hs Hp Hok Hd. unfold state_update. rewrite Hact. cbn [negb]. apply wp_bind, wp_search. rewrite Hd.
  destruct (port_at_key _ _ _ _ Hok Hd) as [Hi Hj].
  set (Q := fun st' : stp_state T V => tables_ok st' /\ port_at st' p m = Some (with_state d s) /\
    vlans_stp st' = vlans_stp st /\ chip_state p m (chip st') = Some s).
  assert (forall k : S T V unit, keeps Q k -> wp (stp_update env (with_state d s);; k) (fun _ => Q) st) as Hw.
  { intros k Hk. apply wp_bind. apply (wp_update env (with_state d s) d); [done|cbn [port_index mstid with_state]; by rewrite Hi, Hj|].
    intros st' Hst. apply Hk. assert (is_key (with_state d s) p m = true) as Hkey by (by apply is_key_eq).
    split_and!; [by apply Hst| |by apply Hst|].
    - rewrite (ps_at _ _ _ _ Hst). unfold put. by rewrite Hkey.
    - rewrite (step_chip _ _ _ _ _ _ Hst), (update_calls env), Hkey; done. }
  assert (forall x, keeps Q (netif_notify_event (port_index d) x)) as Hn by (intros x st1 H1; by eexists _, _).
  apply wp_bind. apply (wp_mono _ (fun _ => Q)); [|intros [] st' H'; by apply wp_ret].
  destruct Hs as [->|[->| ->]]; cbn [Z.eqb NAM_STP_PORT_STATE_DISCARD_E NAM_STP_PORT_STATE_LEARN_E NAM_STP_PORT_STATE_FORWARD_E Pos.eqb];
    apply Hw; auto using stays_ret, keeps_if.
Qed.

(** The state that is read for a VLAN. *)
Lemma get_state_ok v p m d st :
  ks_search (vlans_stp st) (VlanStp v 0) = Some (VlanStp v m) -> port_at st p m = Some d ->
  npd_mstp_get_port_state v p st = Some ((0, state d), st).
Proof.
  intros Hv Hd. unfold npd_mstp_get_port_state, vlan_search, stp_search, mbind, S_bind, get_state, mret, S_ret.
  rewrite Hv. cbn [vlan_mstid]. unfold port_at in Hd. by rewrite Hd.
Qed.

(** *** Spanning tree is switched off *)

Lemma wp_delete_all env l st :
  tables_ok st -> (forall p m d, port_at st p m = Some d -> d ∈ l) ->
  wp (netif_travesal_delete env l) (fun _ st' => tables_ok st' /\ forall p m, port_at st' p m = None) st.
Proof.
  revert st. induction l as [|x l IH]; intros st Hok Hl; cbn [netif_travesal_delete].
  - apply wp_ret. split; [done|]. intros p m. destruct (port_at st p m) as [d|] eqn:E; [|done].
    by destruct (not_elem_of_nil d); eapply Hl.
  - apply wp_bind. destruct (port_at st (port_index x) (mstid x)) as [old|] eqn:Eo.
    + apply (wp_delete env x old); [done|done|]. intros st' Hst. apply IH; [by apply Hst|]. intros p m d.
      rewrite (ps_at _ _ _ _ Hst). unfold drop. destruct (is_key x p m) eqn:E; [done|]. intros Hd.
      apply Hl in Hd as Hd'. apply elem_of_cons in Hd' as [->|]; [|done].
      destruct (port_at_key _ _ _ _ Hok Hd) as [<- <-]. by rewrite (proj2 (is_key_eq _ _ x)) in E.
    + apply wp_delete_none; [done|done|]. intros st' Hst. apply IH; [by apply Hst|]. intros p m d.
      rewrite (ps_at _ _ _ _ Hst). intros Hd. apply Hl in Hd as Hd'. apply elem_of_cons in Hd' as [->|]; [|done].
      destruct (port_at_key _ _ _ _ Hok Hd) as [<- <-]. congruence.
Qed.

(** A VLAN is deleted, with the ports table as it was. *)
Lemma wp_vlan_delete (x : vlan_stp_s) Q st :
  tables_ok st ->
  (forall c st', tables_ok st' -> (forall p m, port_at st' p m = port_at st p m) ->
     (forall k, ks_search (vlans_stp st') k = ks_drop (vlans_stp st) x k) -> Q c st') ->
  wp (vlan_delete x) Q st.
Proof.
  intros [Hp Hv] HQ. unfold vlan_delete. apply wp_bind, wp_get, wp_bind.
  assert (exists c v, ks_delete (vlans_stp st) x = Some (c, v) /\ ks_ok v /\ forall k, ks_search v k = ks_drop (vlans_stp st) x k)
    as (c & v & E & Hv' & Hf).
  { destruct (ks_search (vlans_stp st) x) as [old|] eqn:Ex.
    - destruct (ks_delete_some _ _ _ Hv Ex) as (v & -> & Hv' & _ & _ & _ & Hf). by eauto.
    - destruct (ks_delete_none _ _ Hv (ks_all_valid _) Ex) as (v & -> & Hv' & _ & _ & _ & Hf). exists (if ks_fits (vlans_stp st) x then 0 else -1), v.
      split_and!; [done|done|]. intros d. rewrite Hf. unfold ks_drop. destruct (ks_same d x) eqn:Es; [|done].
      by rewrite (ks_search_ext _ d x Hv Es). }
  exists (c, v), st. split; [by rewrite E|]. cbn beta iota. apply wp_bind. eexists _, _. split; [done|]. apply wp_ret. by apply HQ.
Qed.

Lemma wp_delete_vlans l st :
  tables_ok st -> (forall k x, ks_search (vlans_stp st) k = Some x -> x ∈ l) ->
  wp (vlan_travesal_delete l) (fun _ st' => tables_ok st' /\ (forall p m, port_at st' p m = port_at st p m) /\
    forall k, ks_search (vlans_stp st') k = None) st.
Proof.
  revert st. induction l as [|x l IH]; intros st Hok Hl; cbn [vlan_travesal_delete].
  - apply wp_ret. split_and!; [done|done|]. intros d. destruct (ks_search _ d) as [y|] eqn:E; [|done].
    by destruct (not_elem_of_nil y); eapply Hl.
  - apply wp_bind, wp_vlan_delete; [done|]. intros c st' Hok' Hp Hf. eapply wp_mono; [apply IH; [done|]|].
    + intros d y. rewrite Hf. unfold ks_drop. destruct (ks_same d x) eqn:Es; [done|]. intros Hd.
      apply Hl in Hd as Hd'. apply elem_of_cons in Hd' as [->|]; [|done].
      apply ks_search_same in Hd; [congruence|apply Hok].
    + intros a st2 (H1 & H2 & H3). split_and!; [done|intros p m; by rewrite H2|done].
Qed.

Lemma entries_all {E D} `{!KeyStore E D, !KeyStoreLaws E D} (t : E) (k x : D) : ks_ok t -> ks_search t k = Some x -> x ∈ ks_entries t.
Proof. intros Hok Hx. apply ks_entries_found; [done|]. by rewrite <- (ks_search_ext t k x Hok (ks_search_same t k x Hok Hx)). Qed.

Lemma struct_init_ok env st :
  tables_ok st ->
  wp (npd_stp_struct_init env) (fun r st' => r = 0 /\ (forall p m, port_at st' p m = None) /\
    (forall k, ks_search (vlans_stp st') k = None) /\ ks_first (vlans_stp st') = None) st.
Proof.
  intros Hok. unfold npd_stp_struct_init. apply wp_bind, wp_get, wp_bind. eapply wp_mono; [apply wp_delete_all; [done|]|].
  { intros p m d. by apply entries_all, Hok. }
  intros [] st1 (Hok1 & Hp1). apply wp_bind, wp_get, wp_bind. eapply wp_mono; [apply wp_delete_vlans; [done|]|].
  { intros d x. by apply entries_all, Hok1. }
  intros [] st2 ([_ Hv2] & Hp2 & Hf2). apply wp_ret. split_and!; [done|intros p m; by rewrite Hp2|done|].
  rewrite ks_first_head by done. destruct (ks_entries (vlans_stp st2)) as [|x l] eqn:E; [done|].
  assert (x ∈ ks_entries (vlans_stp st2)) as Hx by (rewrite E; left). apply ks_entries_found in Hx; [|done]. by rewrite Hf2 in Hx.
Qed.

End requests.

(** ** The tables of the daemon *)

Section daemon.
Context (b : board) (Hb : b ∈ boards).

#[local] Instance daemon_ports : KeyStore (db_table_t stp_info_db_s) stp_info_db_s := ports_store b.
#[local] Instance daemon_vlans : KeyStore (db_table_t vlan_stp_s) vlan_stp_s := vlans_store.

Lemma stp_buckets_pos : 0 < stp_buckets b.
Proof. repeat (apply elem_of_cons in Hb as [->|Hb]; [done|]). by apply elem_of_nil in Hb. Qed.

#[local] Instance ports_hash_laws : HashLaws (npd_stp_hash_key b) npd_stp_hash_cmp (stp_buckets b).
Proof.
  split; [split|].
  - split.
    + intros x. by apply cmp_key.
    + intros x y. rewrite !cmp_key. intuition congruence.
    + intros x y z. rewrite !cmp_key. intuition congruence.
  - intros x y H. apply cmp_key in H as [H1 H2]. unfold npd_stp_hash_key. by rewrite H1, H2.
  - intros x. apply Z.mod_pos_bound, stp_buckets_pos.
Qed.

#[local] Instance vlans_seq_laws : SeqLaws vlan_stp_index vlan_stp_key vlan_stp_cmp.
Proof.
  unfold vlan_stp_index, vlan_stp_key, vlan_stp_cmp. split; [split; [split|]|].
  - intros x. apply Z.eqb_refl.
  - intros x y. rewrite !Z.eqb_eq. congruence.
  - intros x y z. rewrite !Z.eqb_eq. congruence.
  - intros x y. apply Z.eqb_eq.
  - intros d. apply u32_in_range.
Qed.

Lemma daemon_stores : StpStores (db_table_t stp_info_db_s) (db_table_t vlan_stp_s).
Proof.
  split; try done.
  - apply (database_hash_store_laws (stp_ops (stp_key 0 0)) (stp_key 0 0) 0 (npd_stp_hash_key b) npd_stp_hash_cmp (stp_buckets b)).
  - apply (database_seq_store_laws (stp_ops (VlanStp 0 0)) (VlanStp 0 0) 0 true vlan_stp_index vlan_stp_key vlan_stp_cmp vlan_buckets (fun _ => True)); [done|done|].
    intros x y. apply Z.eqb_eq.
Qed.

#[local] Existing Instance daemon_stores.

Lemma init_tables : tables_ok (npd_init_stp b).
Proof.
  split.
  - apply (create_models (stp_key 0 0) (npd_stp_hash_key b) npd_stp_hash_cmp (stp_buckets b)); [|done|].
    + repeat (apply elem_of_cons in Hb as [->|Hb]; [done|]). by apply elem_of_nil in Hb.
    + pose proof stp_buckets_pos. lia.
  - split; [|intros i d _; exact I]. by apply (seq_create_models (VlanStp 0 0) vlan_stp_index vlan_stp_key vlan_stp_cmp vlan_buckets).
Qed.

Lemma init_no_port p m : port_at (npd_init_stp b) p m = None.
Proof.
  unfold port_at, npd_init_stp. cbn [ports_stp].
  apply (create_models (stp_key 0 0) (npd_stp_hash_key b) npd_stp_hash_cmp (stp_buckets b)); [|done|].
  - repeat (apply elem_of_cons in Hb as [->|Hb]; [done|]). by apply elem_of_nil in Hb.
  - pose proof stp_buckets_pos. lia.
Qed.

Lemma tables_exec env op : vlan_bounded op -> keeps tables_ok (stp_exec env op).
Proof.
  intros Hv. assert (stable env tables_ok (fun _ _ => True) (fun _ => True) (fun _ => True)) as Hs.
  { split; try done; try (intros; by eapply ps_ok). intros st st' l [H1 _] E H2 _ _. split; [by rewrite E|done]. }
  apply (keeps_exec env tables_ok _ _ _ Hs); try done.
  destruct op; cbn [op_ok vlan_bounded] in *; unfold may_set, may_leave; naive_solver.
Qed.

(** A state that the daemon can be in. *)
Definition reached st : Prop :=
  exists l, Forall (fun x => vlan_bounded x.2) l /\ stp_run l (npd_init_stp b) = Some (tt, st).

Lemma stp_run_returns l : Forall (fun x => vlan_bounded x.2) l ->
  exists st, stp_run l (npd_init_stp b) = Some (tt, st) /\ tables_ok st.
Proof.
  intros Hl. assert (keeps tables_ok (stp_run l)) as Hk.
  { apply keeps_run. eapply Forall_impl; [exact Hl|]. intros x Hx. by apply tables_exec. }
  destruct (Hk _ init_tables) as ([] & st' & E' & H). by exists st'.
Qed.

Lemma reached_tables st : reached st -> tables_ok st.
Proof. intros (l & Hl & E). destruct (stp_run_returns l Hl) as (st' & E' & H). congruence. Qed.

(** ** Properties *)

(** C11: Start from the empty tables and let npd handle any sequence of the
    modelled operations ([stp_op]: interface and relation events, configuration
    of ports and VLANs, decisions of the bridge process, requests of the ring
    protection and smart link daemons, spanning tree switched on and off), with
    ports, links and trunks changing under it, in which no VLAN from 4094 on is
    deleted ([vlan_bounded]; such a deletion reads past the buckets of the VLAN
    table) and an Ethernet port [p] is in no trunk.  Every operation returns,
    and the state that the chip was last given for [p] in an instance other
    than 0 is the state in the table, where an instance without an entry
    discards.  The requests of device link detection, which set the chip past
    the table, are not among the operations. *)
Theorem chip_follows_table p m l :
  m <> 0 -> Forall (fun x => plain x.1 p /\ vlan_bounded x.2) l ->
  exists st, stp_run l (npd_init_stp b) = Some (tt, st) /\
    default NAM_STP_PORT_STATE_DISCARD_E (chip_state p m (chip st)) =
    from_option state NAM_STP_PORT_STATE_DISCARD_E (port_at st p m).
Proof.
  intros Hm Hl. assert (keeps (agrees p m) (stp_run l)) as Hk.
  { apply keeps_run. eapply Forall_impl; [exact Hl|]. intros x [Hp Hv]. by apply agrees_exec. }
  destruct (Hk (npd_init_stp b)) as ([] & st & E & _ & H); [|by exists st].
  split; [apply init_tables|]. by rewrite init_no_port.
Qed.

(** C12: A request of the ring protection daemon reaches the chip and holds.
    In a state reached without deleting a VLAN from 4094 on, let the two ports
    of a ring be different Ethernet ports, in no trunk, that both have an entry
    in the instance [m] of the domain, 0 < m < 256 (a port without an entry is
    passed over by [npd_erpp_stp_flag]).  The request gives both ports the
    requested states in that instance, in the table and on the chip, and they
    keep them through every later sequence of operations that leaves the ports
    alone ([leaves_alone]): in which the ports enter no trunk, no VLAN from 4094
    on is deleted, no port is taken out of the instance or put into it again,
    nothing decides on its state in [m], spanning tree is not switched off and
    no other request names it; link changes are allowed.  This is also so for a
    request that disables the ring: the ports forward and stay taken. *)
Theorem ring_ports_held st env (r : erpp_ring_s) m flush enable da db l :
  let p0 := netif_index (port0 (node r)) in
  let p1 := netif_index (port1 (node r)) in
  let s0 := requested (u32 enable) (erpp_port_status (port0 (node r))) in
  let s1 := requested (u32 enable) (erpp_port_status (port1 (node r))) in
  reached st -> 0 < m < 256 -> p0 <> p1 -> plain env p0 -> plain env p1 ->
  port_at st p0 m = Some da -> port_at st p1 m = Some db ->
  Forall (fun x => plain x.1 p0 /\ plain x.1 p1 /\ leaves_alone x.1 p0 m x.2 /\ leaves_alone x.1 p1 m x.2) l ->
  exists st1 st2, npd_erpp_msg_handler env VALIDATE_BYTE_BEGIN VALIDATE_BYTE_END (erpp_send_msg_to_npd r m flush enable) st = Some (0, st1) /\
    port_at st1 p0 m = Some (taken da s0) /\ port_at st1 p1 m = Some (taken db s1) /\
    stp_run l st1 = Some (tt, st2) /\
    chip_state p0 m (chip st2) = Some s0 /\ state <$> port_at st2 p0 m = Some s0 /\
    chip_state p1 m (chip st2) = Some s1 /\ state <$> port_at st2 p1 m = Some s1.
Proof.
  intros p0 p1 s0 s1 Hst Hm Hne H0 H1 Ha Hb' Hl.
  destruct (erpp_request_ok env (erpp_send_msg_to_npd r m flush enable) p0 p1 m da db st) as (c & st1 & E1 & -> & Hok & [A1 A2] & [B1 B2]);
    [done|done|cbn; unfold u8; rewrite wrap_small by lia; done|lia|done|done|done|by apply reached_tables|done|done|].
  assert (keeps (fun st => owned p0 m s0 st /\ owned p1 m s1 st) (stp_run l)) as Hk.
  { apply keeps_run. eapply Forall_impl; [exact Hl|]. intros [e op] (P0 & P1 & L0 & L1). apply keeps_and; apply owned_exec; (lia || done). }
  destruct (Hk st1) as ([] & st2 & E2 & (_ & C0 & d0 & D0 & S0 & _) & (_ & C1 & d1 & D1 & S1 & _)).
  { split; (split; [done|]); (split; [done|]); eexists; (split; [done|]); (split; [done|apply taken_flagged]). }
  exists st1, st2. rewrite D0, D1. cbn. by rewrite S0, S1.
Qed.

(** The state that the bridge process decides on for a port of an instance
    is given to the chip and is what npd answers for every VLAN of the
    instance. *)
Theorem bridge_state_read_back st env p m s d v :
  reached st -> master_active env = true ->
  s = NAM_STP_PORT_STATE_DISCARD_E \/ s = NAM_STP_PORT_STATE_LEARN_E \/ s = NAM_STP_PORT_STATE_FORWARD_E ->
  plain env p -> port_at st p m = Some d -> ks_search (vlans_stp st) (VlanStp v 0) = Some (VlanStp v m) ->
  exists st', state_update env p m s st = Some (0, st') /\ chip_state p m (chip st') = Some s /\
    npd_mstp_get_port_state v p st' = Some ((0, s), st').
Proof.
  intros Hst Hact Hs Hp Hd Hv.
  destruct (state_update_ok env p m s d st Hact Hs Hp (reached_tables st Hst) Hd) as (c & st' & E & -> & _ & Hd' & Hv' & Hc).
  exists st'. split_and!; [done|done|]. rewrite (get_state_ok v p m (with_state d s)); [done|by rewrite Hv'|done].
Qed.

(** Switching spanning tree off returns, leaves no port and no VLAN in the
    tables, and from then on npd ignores every event of an interface and of
    its relations, until spanning tree is switched on again. *)
Theorem stp_off_empties_tables st env :
  reached st ->
  exists st', npd_stp_struct_init env st = Some (0, st') /\ (forall p m, port_at st' p m = None) /\
    (forall v p, npd_mstp_get_port_state v p st' = Some ((STP_RETURN_CODE_MSTP_NOT_ENABLED, NAM_STP_PORT_STATE_DISABLE_E), st')) /\
    (forall env netif event, npd_rstp_netif_event env netif event st' = Some (tt, st')) /\
    (forall env father son event, npd_rstp_relate_handle env father son event st' = Some (tt, st')).
Proof.
  intros Hst. destruct (struct_init_ok env st (reached_tables st Hst)) as (c & st' & E & -> & Hp & Hv & Hf).
  exists st'. split_and!; [done|done|..].
  - intros v p. unfold npd_mstp_get_port_state, vlan_search, mbind, S_bind, get_state, mret, S_ret. by rewrite Hv.
  - intros. unfold npd_rstp_netif_event, mbind, S_bind, get_state. by rewrite Hf.
  - intros. unfold npd_rstp_relate_handle, mbind, S_bind, get_state. by rewrite Hf.
Qed.

End daemon.

(** ** Witnesses: a VLAN with two ports, bound to an instance *)

Definition demo_p0 : Z := npd_netif_eth_index 0 1 2 3.
Definition demo_p1 : Z := npd_netif_eth_index 0 1 2 4.

Definition demo_env : npd_env := {|
  npd_check_eth_port_status := fun _ => 1; npd_check_vlan_status := fun _ => 1; g_trunks := fun _ => None; max_trunk := 128;
  g_vlans := fun v => if v =? 10 then Some [(demo_p0, demo_p0); (demo_p1, demo_p1)] else None;
  switch_ports := [demo_p0; demo_p1]; netif_speed := fun _ => 1000; netif_duplex := fun _ => 1; rstp_ready := true; master_active := true; uninitialised := 0 |}.

Lemma demo_plain p : is_eth p = true -> plain demo_env p.
Proof. by split. Qed.

(** VLAN 10 is bound to instance 1, and port 3 to be forwarding. *)
Definition demo_script : list (npd_env * stp_op) :=
  [(demo_env, BindVlan 10 1); (demo_env, StateUpdate demo_p0 1 NAM_STP_PORT_STATE_FORWARD_E)].

Definition demo_stp : stp_state (db_table_t stp_info_db_s) (db_table_t vlan_stp_s) :=
  match stp_run (KeyStore0 := ports_store memory_short) (KeyStore1 := vlans_store) demo_script (npd_init_stp memory_short) with
  | Some (_, st) => st
  | None => npd_init_stp memory_short
  end.

Lemma demo_reached : reached memory_short demo_stp.
Proof.
  exists demo_script. split; [by repeat constructor|]. unfold demo_stp.
  destruct (stp_run_returns memory_short ltac:(by left) demo_script) as (st & E & _); [by repeat constructor|].
  unfold daemon_ports, daemon_vlans in *. by rewrite E.
Qed.

Definition demo_entry (p s : Z) : stp_info_db_s := StpInfo p 1 1 0 0 0 0 0 0 s 1 0 0.
Lemma demo_ports_at :
  port_at (KeyStore0 := ports_store memory_short) demo_stp demo_p0 1 = Some (demo_entry demo_p0 3) /\
  port_at (KeyStore0 := ports_store memory_short) demo_stp demo_p1 1 = Some (demo_entry demo_p1 1).
Proof. vm_compute. split; reflexivity. Qed.

#[local] Instance demo_ports : KeyStore (db_table_t stp_info_db_s) stp_info_db_s := daemon_ports memory_short.
#[local] Instance demo_vlans : KeyStore (db_table_t vlan_stp_s) vlan_stp_s := daemon_vlans.

Lemma chip_follows_table_witness :
  exists st, stp_run demo_script (npd_init_stp memory_short) = Some (tt, st) /\
    default NAM_STP_PORT_STATE_DISCARD_E (chip_state demo_p0 1 (chip st)) =
    from_option state NAM_STP_PORT_STATE_DISCARD_E (port_at st demo_p0 1).
Proof.
  apply (chip_follows_table memory_short ltac:(by left) demo_p0 1 demo_script); [lia|].
  repeat constructor; by intros ? ?.
Defined.

(** A ring whose second port is blocked, and links that go down and up. *)
Definition held_ring : erpp_ring_s :=
  Ring 2 1 1 (Node NODE_MASTER NODE_COMPLETE (Port demo_p0 PORT_PRIMARY FORWARDING) (Port demo_p1 PORT_SECONDARY BLOCK)).
Definition held_script : list (npd_env * stp_op) :=
  [(demo_env, NetifEvent demo_p1 PORT_NOTIFIER_LINKDOWN_E); (demo_env, NetifEvent demo_p1 PORT_NOTIFIER_LINKUP_E);
   (demo_env, RelateEvent (npd_netif_vlan_index 10) demo_p1 PORT_NOTIFIER_JOIN)].

Lemma ring_ports_held_witness :
  exists st1 st2, npd_erpp_msg_handler demo_env VALIDATE_BYTE_BEGIN VALIDATE_BYTE_END (erpp_send_msg_to_npd held_ring 1 1 1) demo_stp = Some (0, st1) /\
    stp_run held_script st1 = Some (tt, st2) /\ chip_state demo_p1 1 (chip st2) = Some NAM_STP_PORT_STATE_DISCARD_E.
Proof.
  destruct (ring_ports_held memory_short ltac:(by left) demo_stp demo_env held_ring 1 1 1 (demo_entry demo_p0 3) (demo_entry demo_p1 1)
    held_script) as (st1 & st2 & E1 & _ & _ & E2 & _ & _ & C1 & _).
  - exact demo_reached.
  - lia.
  - vm_compute. discriminate.
  - by apply demo_plain.
  - by apply demo_plain.
  - apply demo_ports_at.
  - apply demo_ports_at.
  - repeat constructor; try by intros ? ?; cbn; try discriminate.
  - exists st1, st2. split; [exact E1|]. split; [exact E2|exact C1].
Defined.

Lemma bridge_state_read_back_witness :
  exists st', state_update demo_env demo_p1 1 NAM_STP_PORT_STATE_LEARN_E demo_stp = Some (0, st') /\
    npd_mstp_get_port_state 10 demo_p1 st' = Some ((0, NAM_STP_PORT_STATE_LEARN_E), st').
Proof.
  destruct (bridge_state_read_back memory_short ltac:(by left) demo_stp demo_env demo_p1 1 NAM_STP_PORT_STATE_LEARN_E
    (demo_entry demo_p1 1) 10) as (st' & E & _ & H).
  - exact demo_reached.
  - reflexivity.
  - right. left. reflexivity.
  - by apply demo_plain.
  - apply demo_ports_at.
  - vm_compute. reflexivity.
  - exists st'. split; [exact E|exact H].
Defined.

Lemma stp_off_empties_tables_witness :
  exists st', npd_stp_struct_init demo_env demo_stp = Some (0, st') /\ port_at st' demo_p0 1 = None /\
    npd_rstp_netif_event demo_env demo_p0 PORT_NOTIFIER_LINKUP_E st' = Some (tt, st').
Proof.
  destruct (stp_off_empties_tables memory_short ltac:(by left) demo_stp demo_env demo_reached) as (st' & E & H1 & _ & H2 & _).
  exists st'. split; [exact E|]. split; [apply H1|apply H2].
Defined.
