(* ===== verification/Lacp.v ===== *)
(** * npd: link aggregation control (802.3ad)

    Model of the protocol machines of
    [src/src/npdsuit/npd/src/app/npd_lacp.c]: what a port records of the
    packets of its partner, the receive, periodic and transmit machines, and
    the packets they send.  The machines of one port are functions on its
    three structures ([lacp_port]); the machines as the daemon runs them read
    and write those structures in four tables, reached through [KeyStore]. *)

From Stdlib Require Import ZArith Lia Bool.
From stdpp Require Import base decidable list gmap.
From S2P Require Import Prelude NetifIndex Database Chains DatabaseHash DatabaseSeq KeyStore.

Open Scope Z_scope.

(** ** Constants *)

Definition AD_STATE_LACP_ACTIVITY : Z := 0x1.
Definition AD_STATE_LACP_TIMEOUT : Z := 0x2.
Definition AD_STATE_AGGREGATION : Z := 0x4.
Definition AD_STATE_SYNCHRONIZATION : Z := 0x8.
Definition AD_STATE_COLLECTING : Z := 0x10.
Definition AD_STATE_DISTRIBUTING : Z := 0x20.
Definition AD_STATE_DEFAULTED : Z := 0x40.
Definition AD_STATE_EXPIRED : Z := 0x80.

Definition AD_PORT_BEGIN : Z := 0x1.
Definition AD_PORT_LACP_ENABLED : Z := 0x2.
Definition AD_PORT_MATCHED : Z := 0x40.
Definition AD_PORT_SELECTED : Z := 0x100.
Definition AD_PORT_MOVED : Z := 0x200.

Definition MANUAL_MODE : Z := 0.
Definition STATIC_MODE : Z := 1.
Definition DYNAMIC_MODE : Z := 2.
Definition AD_TYPE_LACPDU : Z := 1.
Definition ETH_ATTR_DUPLEX_FULL : Z := 0.
Definition ETH_ATTR_LINKUP : Z := 1.
Definition TRUNK_RETURN_CODE_ERR_GENERAL : Z := 0x100001.

Definition AD_DUPLEX_KEY_BITS : Z := 0x1.
Definition AD_SPEED_KEY_BITS : Z := 0x3E.

Definition AD_SHORT_TIMEOUT : Z := 1.
Definition AD_MAX_TX_IN_SECOND : Z := 1.
Definition AD_COLLECTOR_MAX_DELAY : Z := 0.
Definition AD_FAST_PERIODIC_TIME : Z := 1.
Definition AD_SLOW_PERIODIC_TIME : Z := 30.
Definition AD_SHORT_TIMEOUT_TIME : Z := 3 * AD_FAST_PERIODIC_TIME.
Definition AD_LONG_TIMEOUT_TIME : Z := 3 * AD_SLOW_PERIODIC_TIME.
Definition AD_CHURN_DETECTION_TIME : Z := 60.
Definition AD_AGGREGATE_WAIT_TIME : Z := 2.
Definition dot3ad_ticks_per_sec : Z := 1.

(** ** Data *)

Inductive rx_states_t :=
  | AD_RX_DUMMY | AD_RX_INITIALIZE | AD_RX_PORT_DISABLED | AD_RX_LACP_DISABLED
  | AD_RX_EXPIRED | AD_RX_DEFAULTED | AD_RX_CURRENT.

Inductive periodic_states_t :=
  | AD_PERIODIC_DUMMY | AD_NO_PERIODIC | AD_FAST_PERIODIC | AD_SLOW_PERIODIC | AD_PERIODIC_TX.

#[export] Instance rx_states_eq : EqDecision rx_states_t.
Proof. solve_decision. Defined.
#[export] Instance periodic_states_eq : EqDecision periodic_states_t.
Proof. solve_decision. Defined.

Inductive dot3ad_timers_t :=
  | AD_CURRENT_WHILE_TIMER | AD_ACTOR_CHURN_TIMER | AD_PERIODIC_TIMER | AD_PARTNER_CHURN_TIMER | AD_WAIT_WHILE_TIMER.

(** A packet, its reserved bytes left out; the 16-bit fields are in the byte
    order of the wire. *)
Record lacpdu_t := Lacpdu {
  pdu_subtype : Z;
  pdu_actor_system_priority : Z;
  pdu_actor_system : list Z;
  pdu_actor_key : Z;
  pdu_actor_port_priority : Z;
  pdu_actor_port : Z;
  pdu_actor_state : Z;
  pdu_partner_system_priority : Z;
  pdu_partner_system : list Z;
  pdu_partner_key : Z;
  pdu_partner_port_priority : Z;
  pdu_partner_port : Z;
  pdu_partner_state : Z;
  pdu_collector_max_delay : Z
}.

Record lacpport_actor := Actor {
  actor_netif_index : Z;
  actor_port_number : Z;
  actor_port_priority : Z;
  actor_system : list Z;
  actor_system_priority : Z;
  actor_port_aggregator_identifier : Z;
  actor_admin_port_key : Z;
  actor_oper_port_key : Z;
  actor_admin_port_state : Z;
  actor_oper_port_state : Z;
  is_enabled : Z;
  is_lacp_enable : Z;
  lacp_mode : Z;
  trunk_netif_index : Z
}.

(** What is known of a partner: its system, system priority, key, port
    number, port priority and state. *)
Record partner_info := Info {
  info_system : list Z;
  info_system_priority : Z;
  info_key : Z;
  info_port_number : Z;
  info_port_priority : Z;
  info_port_state : Z
}.

(** The fields [partner_admin_*] and [partner_oper_*]. *)
Record lacpport_partner := Partner { partner_netif_index : Z; partner_admin : partner_info; partner_oper : partner_info }.

(** The mux machine is not compiled in; its fields are left out. *)
Record lacpport_sm := Sm {
  sm_netif_index : Z;
  ntt : bool;
  sm_vars : Z;
  sm_rx_state : rx_states_t;
  sm_rx_timer_counter : Z;
  sm_periodic_state : periodic_states_t;
  sm_periodic_timer_counter : Z;
  sm_tx_timer_counter : Z
}.

Record lacp_port := LPort { actor : lacpport_actor; partner : lacpport_partner; sm : lacpport_sm }.

(** An aggregator, without the fields that only say how it is shown. *)
Record aggregator := Aggregator {
  agg_netif_index : Z;
  aggregator_identifier : Z;
  is_individual : Z;
  actor_oper_aggregator_key : Z;
  agg_partner_system : list Z;
  agg_partner_system_priority : Z;
  partner_oper_aggregator_key : Z;
  aggregator_mode : Z;
  num_of_ports : Z
}.

(** Bits of a variable: [x & m], [x |= m], [x &= ~m]. *)
Definition on (x m : Z) : bool := negb (Z.land x m =? 0).
Definition set (x m : Z) : Z := Z.lor x m.
Definition clr (x m : Z) : Z := Z.ldiff x m.

(** Assignments to fields. *)
Definition with_oper_state (a : lacpport_actor) (x : Z) : lacpport_actor :=
  Actor (actor_netif_index a) (actor_port_number a) (actor_port_priority a) (actor_system a) (actor_system_priority a)
    (actor_port_aggregator_identifier a) (actor_admin_port_key a) (actor_oper_port_key a) (actor_admin_port_state a) x
    (is_enabled a) (is_lacp_enable a) (lacp_mode a) (trunk_netif_index a).
Definition with_keys (a : lacpport_actor) (admin oper : Z) : lacpport_actor :=
  Actor (actor_netif_index a) (actor_port_number a) (actor_port_priority a) (actor_system a) (actor_system_priority a)
    (actor_port_aggregator_identifier a) admin oper (actor_admin_port_state a) (actor_oper_port_state a)
    (is_enabled a) (is_lacp_enable a) (lacp_mode a) (trunk_netif_index a).
Definition with_link (a : lacpport_actor) (enabled key state : Z) : lacpport_actor :=
  Actor (actor_netif_index a) (actor_port_number a) (actor_port_priority a) (actor_system a) (actor_system_priority a)
    (actor_port_aggregator_identifier a) key key (actor_admin_port_state a) state enabled (is_lacp_enable a) (lacp_mode a)
    (trunk_netif_index a).
Definition with_info_state (i : partner_info) (x : Z) : partner_info :=
  Info (info_system i) (info_system_priority i) (info_key i) (info_port_number i) (info_port_priority i) x.
Definition with_oper (p : lacpport_partner) (i : partner_info) : lacpport_partner :=
  Partner (partner_netif_index p) (partner_admin p) i.
Definition with_vars (s : lacpport_sm) (x : Z) : lacpport_sm :=
  Sm (sm_netif_index s) (ntt s) x (sm_rx_state s) (sm_rx_timer_counter s) (sm_periodic_state s) (sm_periodic_timer_counter s)
    (sm_tx_timer_counter s).
Definition with_ntt (s : lacpport_sm) (x : bool) : lacpport_sm :=
  Sm (sm_netif_index s) x (sm_vars s) (sm_rx_state s) (sm_rx_timer_counter s) (sm_periodic_state s) (sm_periodic_timer_counter s)
    (sm_tx_timer_counter s).
Definition with_rx (s : lacpport_sm) (x : rx_states_t) (c : Z) : lacpport_sm :=
  Sm (sm_netif_index s) (ntt s) (sm_vars s) x c (sm_periodic_state s) (sm_periodic_timer_counter s) (sm_tx_timer_counter s).
Definition with_periodic (s : lacpport_sm) (x : periodic_states_t) (c : Z) : lacpport_sm :=
  Sm (sm_netif_index s) (ntt s) (sm_vars s) (sm_rx_state s) (sm_rx_timer_counter s) x c (sm_tx_timer_counter s).
Definition with_tx_timer (s : lacpport_sm) (c : Z) : lacpport_sm :=
  Sm (sm_netif_index s) (ntt s) (sm_vars s) (sm_rx_state s) (sm_rx_timer_counter s) (sm_periodic_state s)
    (sm_periodic_timer_counter s) c.
Definition with_agg_partner (g : aggregator) (i : partner_info) : aggregator :=
  Aggregator (agg_netif_index g) (aggregator_identifier g) (is_individual g) (actor_oper_aggregator_key g) (info_system i)
    (info_system_priority i) (info_key i) (aggregator_mode g) (num_of_ports g).

Definition with_agg_actor (g : aggregator) (individual key : Z) : aggregator :=
  Aggregator (agg_netif_index g) (aggregator_identifier g) individual key (agg_partner_system g)
    (agg_partner_system_priority g) (partner_oper_aggregator_key g) (aggregator_mode g) (num_of_ports g).

(** [htons] and [ntohs] on a machine of either byte order. *)
Definition bswap16 (x : Z) : Z := Z.lor (Z.shiftl (Z.land x 0xff) 8) (Z.land (Z.shiftr x 8) 0xff).
Definition htons (little_endian : bool) (x : Z) : Z := if little_endian then bswap16 x else x.
Definition ntohs (little_endian : bool) (x : Z) : Z := htons little_endian x.

Definition __dot3ad_timer_to_ticks (timer_type : dot3ad_timers_t) (par : Z) : Z :=
  u16 (match timer_type with
       | AD_CURRENT_WHILE_TIMER =>
           if negb (par =? 0) then AD_SHORT_TIMEOUT_TIME * dot3ad_ticks_per_sec else AD_LONG_TIMEOUT_TIME * dot3ad_ticks_per_sec
       | AD_ACTOR_CHURN_TIMER | AD_PARTNER_CHURN_TIMER => AD_CHURN_DETECTION_TIME * dot3ad_ticks_per_sec
       | AD_PERIODIC_TIMER => par * dot3ad_ticks_per_sec
       | AD_WAIT_WHILE_TIMER => AD_AGGREGATE_WAIT_TIME * dot3ad_ticks_per_sec
       end).

(** ** The machines of one port *)

Section port.
Context (le : bool).

(** [MAC_ADDRESS_COMPARE] is 0. *)
Definition same_mac (x y : list Z) : bool := bool_decide (x = y).

(** [__update_lacpdu_from_port] with [dot3ad_initialize_lacpdu] and
    [__htons_lacpdu]. *)
Definition __update_lacpdu_from_port (p : lacp_port) : lacpdu_t :=
  let a := actor p in
  let i := partner_oper (partner p) in
  Lacpdu 0x01 (htons le (actor_system_priority a)) (actor_system a) (htons le (actor_oper_port_key a))
    (htons le (actor_port_priority a)) (htons le (actor_port_number a)) (actor_oper_port_state a)
    (htons le (info_system_priority i)) (info_system i) (htons le (info_key i)) (htons le (info_port_priority i))
    (htons le (info_port_number i)) (info_port_state i) (htons le AD_COLLECTOR_MAX_DELAY).

(** The actor's part of a packet as the partner of the receiver. *)
Definition pdu_info (lacpdu : lacpdu_t) : partner_info :=
  Info (pdu_actor_system lacpdu) (ntohs le (pdu_actor_system_priority lacpdu)) (ntohs le (pdu_actor_key lacpdu))
    (ntohs le (pdu_actor_port lacpdu)) (ntohs le (pdu_actor_port_priority lacpdu)) (pdu_actor_state lacpdu).

(** The bits of [actor_state] are copied one by one, and synchronisation is
    kept only of a partner that the port is matched with. *)
Definition __record_pdu (lacpdu : lacpdu_t) (p : lacp_port) : lacp_port :=
  let st := Z.land (pdu_actor_state lacpdu) 0xff in
  let st := if on (sm_vars (sm p)) AD_PORT_MATCHED && on (pdu_actor_state lacpdu) AD_STATE_SYNCHRONIZATION
            then set st AD_STATE_SYNCHRONIZATION else clr st AD_STATE_SYNCHRONIZATION in
  LPort (with_oper_state (actor p) (clr (actor_oper_port_state (actor p)) AD_STATE_DEFAULTED))
    (with_oper (partner p) (with_info_state (pdu_info lacpdu) st)) (sm p).

(** Sets [AD_STATE_DEFAULTED] of the actor as its callers do. *)
Definition __record_default (p : lacp_port) : lacp_port :=
  LPort (with_oper_state (actor p) (set (actor_oper_port_state (actor p)) AD_STATE_DEFAULTED))
    (with_oper (partner p) (partner_admin (partner p))) (sm p).

(** Two descriptions of a partner agree but for the state, of which only the
    aggregation bit counts. *)
Definition same_partner (i j : partner_info) : bool :=
  (info_port_number i =? info_port_number j) && (info_port_priority i =? info_port_priority j)
  && same_mac (info_system i) (info_system j) && (info_system_priority i =? info_system_priority j)
  && (info_key i =? info_key j)
  && (Z.land (info_port_state i) AD_STATE_AGGREGATION =? Z.land (info_port_state j) AD_STATE_AGGREGATION).

Definition unselect (s : lacpport_sm) : lacpport_sm := with_vars s (clr (sm_vars s) AD_PORT_SELECTED).

Definition __update_selected (lacpdu : lacpdu_t) (p : lacp_port) : lacp_port :=
  if same_partner (pdu_info lacpdu) (partner_oper (partner p)) then p
  else LPort (actor p) (partner p) (unselect (sm p)).

(** With the reset of [AD_PORT_SELECTED] by its caller. *)
Definition __update_default_selected (p : lacp_port) : lacp_port :=
  if same_partner (partner_admin (partner p)) (partner_oper (partner p)) then p
  else LPort (actor p) (partner p) (unselect (sm p)).

(** The partner's part of a packet says who the sender thinks we are. *)
Definition knows_us (lacpdu : lacpdu_t) (a : lacpport_actor) : bool :=
  (ntohs le (pdu_partner_port lacpdu) =? actor_port_number a)
  && (ntohs le (pdu_partner_port_priority lacpdu) =? actor_port_priority a)
  && same_mac (pdu_partner_system lacpdu) (actor_system a)
  && (ntohs le (pdu_partner_system_priority lacpdu) =? actor_system_priority a)
  && (ntohs le (pdu_partner_key lacpdu) =? actor_oper_port_key a).

Definition same_bit (x y m : Z) : bool := Z.land x m =? Z.land y m.

(** Nothing clears [AD_PORT_MATCHED] here. *)
Definition __choose_matched (lacpdu : lacpdu_t) (p : lacp_port) : lacp_port :=
  if (knows_us lacpdu (actor p)
      && same_bit (pdu_partner_state lacpdu) (actor_oper_port_state (actor p)) AD_STATE_AGGREGATION)
     || (Z.land (pdu_actor_state lacpdu) AD_STATE_AGGREGATION =? 0)
  then LPort (actor p) (partner p) (with_vars (sm p) (set (sm_vars (sm p)) AD_PORT_MATCHED))
  else p.

Definition __update_ntt (lacpdu : lacpdu_t) (p : lacp_port) : lacp_port :=
  let differs m := negb (same_bit (pdu_partner_state lacpdu) (actor_oper_port_state (actor p)) m) in
  if negb (knows_us lacpdu (actor p)) || differs AD_STATE_LACP_ACTIVITY || differs AD_STATE_LACP_TIMEOUT
     || differs AD_STATE_SYNCHRONIZATION || differs AD_STATE_AGGREGATION
  then LPort (actor p) (partner p) (with_ntt (sm p) true)
  else p.

(** *** The receive machine *)

(** The next state and the timer, before the actions of the state. *)
Definition rx_next (lacpdu : option lacpdu_t) (p : lacp_port) : lacpport_sm :=
  let s := sm p in
  let v := sm_vars s in
  let c := sm_rx_timer_counter s in
  let st := sm_rx_state s in
  let enabled := negb (is_enabled (actor p) =? 0) in
  if on v AD_PORT_BEGIN then with_rx s AD_RX_INITIALIZE c
  else if negb enabled && negb (on v AD_PORT_MOVED) then with_rx s AD_RX_PORT_DISABLED c
  else if bool_decide (is_Some lacpdu) && bool_decide (st ∈ [AD_RX_EXPIRED; AD_RX_DEFAULTED; AD_RX_CURRENT])
  then with_rx s AD_RX_CURRENT 0
  else if c =? 1 then
    with_rx s (match st with AD_RX_EXPIRED => AD_RX_DEFAULTED | AD_RX_CURRENT => AD_RX_EXPIRED | x => x end) 0
  else
    with_rx s
      (match st with
       | AD_RX_PORT_DISABLED =>
           if on v AD_PORT_MOVED then AD_RX_INITIALIZE
           else if enabled && on v AD_PORT_LACP_ENABLED then AD_RX_EXPIRED
           else if enabled && negb (on v AD_PORT_LACP_ENABLED) then AD_RX_LACP_DISABLED
           else AD_RX_PORT_DISABLED
       | x => x
       end)
      (if c =? 0 then c else c - 1).

(** A packet that carries the own system is dropped, and nothing is stored. *)
Inductive rx_result := Loopback | Stored (p : lacp_port).

Definition rx_disabled (p : lacp_port) : lacp_port :=
  LPort (actor p) (partner p) (with_vars (sm p) (clr (sm_vars (sm p)) AD_PORT_MATCHED)).

Definition without_expired (p : lacp_port) : lacp_port :=
  LPort (with_oper_state (actor p) (clr (actor_oper_port_state (actor p)) AD_STATE_EXPIRED)) (partner p) (sm p).

Definition matched (p : lacp_port) : lacp_port :=
  LPort (actor p) (partner p) (with_vars (sm p) (set (sm_vars (sm p)) AD_PORT_MATCHED)).

(** The actions of the new state; [None] is a null pointer. *)
Definition rx_enter (lacpdu : option lacpdu_t) (p : lacp_port) : option rx_result :=
  match sm_rx_state (sm p) with
  | AD_RX_INITIALIZE =>
      let v := sm_vars (sm p) in
      let v := if on (actor_oper_port_key (actor p)) AD_DUPLEX_KEY_BITS
               then set v AD_PORT_LACP_ENABLED else clr v AD_PORT_LACP_ENABLED in
      let p := without_expired (__record_default p) in
      let v := clr (clr v AD_PORT_SELECTED) AD_PORT_MOVED in
      Some (Stored (rx_disabled (LPort (actor p) (partner p)
        (with_rx (with_vars (sm p) v) AD_RX_PORT_DISABLED (sm_rx_timer_counter (sm p))))))
  | AD_RX_PORT_DISABLED => Some (Stored (rx_disabled p))
  | AD_RX_LACP_DISABLED =>
      let p := __record_default (LPort (actor p) (partner p) (unselect (sm p))) in
      let i := partner_oper (partner p) in
      let p := LPort (actor p)
        (with_oper (partner p) (with_info_state i (clr (info_port_state i) AD_STATE_AGGREGATION))) (sm p) in
      Some (Stored (without_expired (matched p)))
  | AD_RX_EXPIRED =>
      let i := partner_oper (partner p) in
      let st := set (clr (info_port_state i) AD_STATE_SYNCHRONIZATION) AD_STATE_LACP_TIMEOUT in
      let s := with_vars (sm p) (clr (sm_vars (sm p)) AD_PORT_MATCHED) in
      Some (Stored (LPort
        (with_oper_state (actor p) (set (actor_oper_port_state (actor p)) AD_STATE_EXPIRED))
        (with_oper (partner p) (with_info_state i st))
        (with_rx s AD_RX_EXPIRED (__dot3ad_timer_to_ticks AD_CURRENT_WHILE_TIMER AD_SHORT_TIMEOUT))))
  | AD_RX_DEFAULTED => Some (Stored (without_expired (matched (__record_default (__update_default_selected p)))))
  | AD_RX_CURRENT =>
      lacpdu ← lacpdu;
      if same_mac (pdu_actor_system lacpdu) (actor_system (actor p)) then Some Loopback
      else
        let p := __choose_matched lacpdu (__record_pdu lacpdu (__update_ntt lacpdu (__update_selected lacpdu p))) in
        let c := __dot3ad_timer_to_ticks AD_CURRENT_WHILE_TIMER
                   (Z.land (actor_oper_port_state (actor p)) AD_STATE_LACP_TIMEOUT) in
        Some (Stored (without_expired (LPort (actor p) (partner p) (with_rx (sm p) AD_RX_CURRENT c))))
  | AD_RX_DUMMY => Some (Stored p)
  end.

(** Whether the actions are done: the state changed or a packet came. *)
Definition rx_acts (lacpdu : option lacpdu_t) (p : lacp_port) : bool :=
  negb (bool_decide (sm_rx_state (rx_next lacpdu p) = sm_rx_state (sm p))) || bool_decide (is_Some lacpdu).

Definition rx_port (lacpdu : option lacpdu_t) (p : lacp_port) : option rx_result :=
  let p' := LPort (actor p) (partner p) (rx_next lacpdu p) in
  if rx_acts lacpdu p then rx_enter lacpdu p' else Some (Stored p').

(** *** The periodic machine *)

Definition slow_ticks : Z := __dot3ad_timer_to_ticks AD_PERIODIC_TIMER (AD_SLOW_PERIODIC_TIME - 3).
Definition fast_ticks : Z := __dot3ad_timer_to_ticks AD_PERIODIC_TIMER AD_FAST_PERIODIC_TIME.

(** The partner asks for fast packets. *)
Definition wants_fast (p : lacp_port) : bool := on (info_port_state (partner_oper (partner p))) AD_STATE_LACP_TIMEOUT.

Definition periodic_next (p : lacp_port) : lacpport_sm :=
  let s := sm p in
  let v := sm_vars s in
  let c := sm_periodic_timer_counter s in
  let st := sm_periodic_state s in
  if on v AD_PORT_BEGIN || negb (on v AD_PORT_LACP_ENABLED) || (is_enabled (actor p) =? 0)
     || (negb (on (actor_oper_port_state (actor p)) AD_STATE_LACP_ACTIVITY)
         && negb (on (info_port_state (partner_oper (partner p))) AD_STATE_LACP_ACTIVITY))
  then with_periodic s AD_NO_PERIODIC c
  else if negb (c =? 0) then
    let '(st', c) := match st with
                     | AD_FAST_PERIODIC => (if wants_fast p then st else AD_SLOW_PERIODIC, c)
                     | AD_SLOW_PERIODIC => if wants_fast p then (AD_PERIODIC_TX, 0) else (st, c)
                     | x => (x, c)
                     end in
    if bool_decide (st' = st) then
      if c - 1 =? 0 then with_periodic s AD_PERIODIC_TX (c - 1) else with_periodic s st' (c - 1)
    else with_periodic s st' c
  else with_periodic s (match st with
                        | AD_NO_PERIODIC => AD_FAST_PERIODIC
                        | AD_PERIODIC_TX => if wants_fast p then AD_FAST_PERIODIC else AD_SLOW_PERIODIC
                        | x => x
                        end) c.

Definition periodic_port (p : lacp_port) : lacp_port :=
  let s := periodic_next p in
  let s :=
    if bool_decide (sm_periodic_state s = sm_periodic_state (sm p)) then s
    else match sm_periodic_state s with
         | AD_NO_PERIODIC => with_periodic s AD_NO_PERIODIC 0
         | AD_FAST_PERIODIC => with_periodic s AD_FAST_PERIODIC fast_ticks
         | AD_SLOW_PERIODIC => with_periodic s AD_SLOW_PERIODIC slow_ticks
         | AD_PERIODIC_TX =>
             if wants_fast p then with_periodic (with_ntt s true) AD_FAST_PERIODIC fast_ticks
             else with_periodic (with_ntt s true) AD_SLOW_PERIODIC slow_ticks
         | AD_PERIODIC_DUMMY => s
         end in
  LPort (actor p) (partner p) s.

(** *** The transmit machine *)

(** A packet is due; [sent] says whether it could be sent. *)
Definition tx_due (p : lacp_port) : bool := ntt (sm p) && on (sm_vars (sm p)) AD_PORT_LACP_ENABLED.

Definition tx_port (sent : bool) (p : lacp_port) : lacp_port :=
  let s := if tx_due p && sent then with_ntt (sm p) false else sm p in
  LPort (actor p) (partner p) (with_tx_timer s (dot3ad_ticks_per_sec / AD_MAX_TX_IN_SECOND)).

End port.

(** ** The machines on the tables *)

(** What other parts of npd know: the VLAN of the untagged frames of a port
    and the trunk it is in, its speed, duplex mode and link, the first port of
    a trunk, the number of a port, the address of the switch, and whether
    link aggregation is on. *)
Record lacp_env := LacpEnv {
  little_endian : bool;
  npd_vlan_port_pvid_get : Z -> option Z;
  eth_port_trunkid : Z -> option Z;
  eth_port_sw_speed_get : Z -> Z;
  eth_port_sw_duplex_get : Z -> Z;
  eth_port_link : Z -> option Z;
  npd_trunk_master_port_get : Z -> option Z;
  eth_port_array_index_from_ifindex : Z -> Z;
  npd_system_get_basemac : list Z;
  npd_lacp_cfg : option Z
}.

Record lacp_state (TA TP TM TG : Type) := LS {
  actors : TA;
  partners : TP;
  sms : TM;
  aggs : TG;
  lacp_sent : list (Z * Z * lacpdu_t)
}.
Arguments LS {TA TP TM TG}.
Arguments actors {TA TP TM TG}.
Arguments partners {TA TP TM TG}.
Arguments sms {TA TP TM TG}.
Arguments aggs {TA TP TM TG}.
Arguments lacp_sent {TA TP TM TG}.

(** Structures with only the key set. *)
Definition actor_key (n : Z) : lacpport_actor := Actor n 0 0 [] 0 0 0 0 0 0 0 0 0 0.
Definition no_info : partner_info := Info [] 0 0 0 0 0.
Definition partner_key (n : Z) : lacpport_partner := Partner n no_info no_info.
Definition sm_key (n : Z) : lacpport_sm := Sm n false 0 AD_RX_DUMMY 0 AD_PERIODIC_DUMMY 0 0.
Definition agg_key (n : Z) : aggregator := Aggregator n 0 0 0 [] 0 0 0 0.

Section tables.
Context {TA TP TM TG : Type} `{!KeyStore TA lacpport_actor, !KeyStore TP lacpport_partner, !KeyStore TM lacpport_sm, !KeyStore TG aggregator}.
Context (env : lacp_env).
Implicit Types (st : lacp_state TA TP TM TG).

Definition find_actor st (n : Z) : option lacpport_actor := ks_search (actors st) (actor_key n).
Definition find_partner st (n : Z) : option lacpport_partner := ks_search (partners st) (partner_key n).
Definition find_sm st (n : Z) : option lacpport_sm := ks_search (sms st) (sm_key n).
Definition find_agg st (n : Z) : option aggregator := ks_search (aggs st) (agg_key n).

(** [dbtable_sequence_update] and [dbtable_hash_update]; the callers ignore
    the result. *)
Definition put_actor st (a : lacpport_actor) : option (lacp_state TA TP TM TG) :=
  '(_, t) ← ks_update (actors st) a; Some (LS t (partners st) (sms st) (aggs st) (lacp_sent st)).
Definition put_partner st (p : lacpport_partner) : option (lacp_state TA TP TM TG) :=
  '(_, t) ← ks_update (partners st) p; Some (LS (actors st) t (sms st) (aggs st) (lacp_sent st)).
Definition put_sm st (s : lacpport_sm) : option (lacp_state TA TP TM TG) :=
  '(_, t) ← ks_update (sms st) s; Some (LS (actors st) (partners st) t (aggs st) (lacp_sent st)).
Definition put_agg st (g : aggregator) : option (lacp_state TA TP TM TG) :=
  '(_, t) ← ks_update (aggs st) g; Some (LS (actors st) (partners st) (sms st) t (lacp_sent st)).

Definition dot3ad_rx_machine (lacpdu : option lacpdu_t) (n : Z) st : option (Z * lacp_state TA TP TM TG) :=
  match find_sm st n, find_actor st n, find_partner st n with
  | Some s, Some a, Some p =>
      let agg := find_agg st n in
      let ret := match agg with Some _ => 0 | None => DB_TABLE_RETURN_CODE_ENTRY_NOT_EXIST end in
      let port := LPort a p s in
      r ← rx_port (little_endian env) lacpdu port;
      match r with
      | Loopback => Some (ret, st)
      | Stored p' =>
          st ← (if rx_acts lacpdu port then
                  st ← match agg with
                       | Some g => put_agg st (with_agg_partner g (partner_oper (partner p')))
                       | None => Some st
                       end;
                  st ← put_actor st (actor p');
                  put_partner st (partner p')
                else Some st);
          st ← put_sm st (sm p');
          Some (ret, st)
      end
  | _, _, _ => Some (-1, st)
  end.

Definition dot3ad_periodic_machine (n : Z) st : option (Z * lacp_state TA TP TM TG) :=
  match find_sm st n, find_actor st n, find_partner st n with
  | Some s, Some a, Some p => st ← put_sm st (sm (periodic_port (LPort a p s))); Some (0, st)
  | _, _, _ => Some (-1, st)
  end.

(** The VLAN of the frame: the port's own, or the one of its trunk. *)
Definition tx_vid (n : Z) : option Z :=
  if NPD_NETIF_ETH_TYPE =? npd_netif_type_get n then
    match npd_vlan_port_pvid_get env n with
    | Some vid => Some vid
    | None =>
        trunkId ← eth_port_trunkid env n;
        let trunk_index := Z.lor (Z.shiftl 1 30) (Z.shiftl trunkId 16) in
        if npd_netif_type_get trunk_index =? NPD_NETIF_TRUNK_TYPE then npd_vlan_port_pvid_get env trunk_index else None
    end
  else None.

Definition nam_packet_tx_lacp (n : Z) st : Z * lacp_state TA TP TM TG :=
  match find_actor st n, find_partner st n with
  | Some a, Some p =>
      let lacpdu := __update_lacpdu_from_port (little_endian env) (LPort a p (sm_key n)) in
      match tx_vid n with
      | Some vid => (0, LS (actors st) (partners st) (sms st) (aggs st) (lacp_sent st ++ [(n, vid, lacpdu)]))
      | None => (-1, st)
      end
  | _, _ => (-1, st)
  end.

Definition dot3ad_tx_machine (n : Z) st : option (Z * lacp_state TA TP TM TG) :=
  match find_sm st n with
  | None => Some (-1, st)
  | Some s =>
      let '(rc, st) := if ntt s && on (sm_vars s) AD_PORT_LACP_ENABLED then nam_packet_tx_lacp n st else (-1, st) in
      let s := if rc =? 0 then with_ntt s false else s in
      '(r, t) ← ks_update (sms st) (with_tx_timer s (dot3ad_ticks_per_sec / AD_MAX_TX_IN_SECOND));
      Some (r, LS (actors st) (partners st) t (aggs st) (lacp_sent st))
  end.

(** The end of a turn of [dot3ad_state_machine_handler]: [AD_PORT_BEGIN] was
    handled. *)
Definition begin_handled (n : Z) st : option (lacp_state TA TP TM TG) :=
  match find_sm st n with
  | Some s => if on (sm_vars s) AD_PORT_BEGIN then put_sm st (with_vars s (clr (sm_vars s) AD_PORT_BEGIN)) else Some st
  | None => Some st
  end.

(** *** Events of a port *)

Definition __get_link_speed (n : Z) : Z :=
  let ulBaud := eth_port_sw_speed_get env n in
  if ulBaud =? 10 then 0x2 else if ulBaud =? 100 then 0x4 else if ulBaud =? 1000 then 0x8
  else if ulBaud =? 10000 then 0x10 else 0.

Definition __get_duplex (n : Z) : Z := if eth_port_sw_duplex_get env n =? ETH_ATTR_DUPLEX_FULL then 1 else 0.

(** Speed and duplex mode changed: the port starts again. *)
Definition restart_port (change : lacpport_actor -> lacpport_actor) (n : Z) st : option (Z * lacp_state TA TP TM TG) :=
  match find_sm st n, find_actor st n with
  | Some s, Some a =>
      st ← put_sm st (with_vars s (set (sm_vars s) AD_PORT_BEGIN));
      st ← put_actor st (change a);
      Some (0, st)
  | _, _ => Some (-1, st)
  end.

(** The keys are [unsigned short]. *)
Definition new_speed (n : Z) (a : lacpport_actor) : lacpport_actor :=
  let key := u16 (set (clr (actor_admin_port_key a) AD_SPEED_KEY_BITS) (Z.shiftl (__get_link_speed n) 1)) in with_keys a key key.
Definition new_duplex (n : Z) (a : lacpport_actor) : lacpport_actor :=
  let key := u16 (set (clr (actor_admin_port_key a) AD_DUPLEX_KEY_BITS) (__get_duplex n)) in with_keys a key key.

Definition dot3ad_adapter_speed_changed (n : Z) st : option (Z * lacp_state TA TP TM TG) := restart_port (new_speed n) n st.
Definition dot3ad_adapter_duplex_changed (n : Z) st : option (Z * lacp_state TA TP TM TG) := restart_port (new_duplex n) n st.

(** The key of a port whose link changed. *)
Definition link_key (n : Z) : Z := set (__get_duplex n) (Z.shiftl (__get_link_speed n) 1).

Definition null_mac_addr : list Z := [0; 0; 0; 0; 0; 0].

(** What is assumed of a partner that did not speak. *)
Definition default_admin : partner_info := Info null_mac_addr 0xffff 1 1 0xff 0.
Definition default_oper : partner_info := Info null_mac_addr 0xffff 0 1 0xff 0.

(** The port after its link came up or went down; it starts again. *)
Definition link_changed (up : bool) (key : Z) (p : lacp_port) : lacp_port :=
  let a := actor p in
  let begin s := with_vars s (set (sm_vars s) AD_PORT_BEGIN) in
  if up then LPort (with_link a 1 key (clr (actor_oper_port_state a) AD_STATE_LACP_TIMEOUT)) (partner p) (begin (sm p))
  else LPort (with_link a 0 key (clr (set AD_STATE_AGGREGATION AD_STATE_LACP_ACTIVITY) AD_STATE_LACP_TIMEOUT))
         (Partner (partner_netif_index (partner p)) default_admin default_oper) (begin (unselect (sm p))).

(** The aggregator of the port's own, as the change of its link leaves it;
    the system of the partner stays when the link goes down. *)
Definition link_agg (up : bool) (key : Z) (g : aggregator) : aggregator :=
  let individual := if on key AD_DUPLEX_KEY_BITS then 0 else 1 in
  if up then with_agg_actor g individual key
  else with_agg_actor (with_agg_partner g
         (Info (agg_partner_system g) (info_system_priority default_oper) (info_key default_oper) 0 0 0)) individual key.

Definition same_agg (g h : aggregator) : bool :=
  (agg_partner_system_priority g =? agg_partner_system_priority h) && (actor_oper_aggregator_key g =? actor_oper_aggregator_key h)
  && (partner_oper_aggregator_key g =? partner_oper_aggregator_key h)
  && same_mac (agg_partner_system g) (agg_partner_system h).

(** The aggregator of a trunk follows its first port. *)
Definition static_aggregator_update (trunk : Z) st : option (Z * lacp_state TA TP TM TG) :=
  match find_agg st trunk with
  | None => Some (TRUNK_RETURN_CODE_ERR_GENERAL, st)
  | Some g =>
      if negb (aggregator_mode g =? STATIC_MODE) then Some (TRUNK_RETURN_CODE_ERR_GENERAL, st)
      else match npd_trunk_master_port_get env (npd_netif_trunk_get_tid trunk) with
           | None => Some (TRUNK_RETURN_CODE_ERR_GENERAL, st)
           | Some m =>
               match find_actor st m, find_partner st m with
               | Some a, Some p =>
                   let g' := with_agg_actor (with_agg_partner g (partner_oper p)) (is_individual g) (actor_oper_port_key a) in
                   if same_agg g g' then Some (0, st) else st ← put_agg st g'; Some (0, st)
               | _, _ => Some (TRUNK_RETURN_CODE_ERR_GENERAL, st)
               end
           end
  end.

(** The part of a port in a trunk; [None] in the result sends the caller to
    its end.  The actor is stored before the aggregator is brought up to
    date. *)
Definition link_trunk (a : lacpport_actor) st : option (Z * option bool * lacp_state TA TP TM TG) :=
  match find_agg st (trunk_netif_index a) with
  | None => Some (DB_TABLE_RETURN_CODE_ENTRY_NOT_EXIST, None, st)
  | Some g =>
      if aggregator_mode g =? STATIC_MODE then
        st ← put_actor st (with_oper_state a (set (actor_oper_port_state a) (set AD_STATE_COLLECTING AD_STATE_DISTRIBUTING)));
        '(rc, st) ← static_aggregator_update (trunk_netif_index a) st;
        if rc =? TRUNK_RETURN_CODE_ERR_GENERAL then Some (-1, None, st) else Some (0, Some true, st)
      else Some (0, Some false, st)
  end.

(** The port is stored, the actor only if it was not before. *)
Definition link_store (p : lacp_port) (actor_update_flag : bool) st : option (lacp_state TA TP TM TG) :=
  st ← put_sm st (sm p);
  st ← (if actor_update_flag then Some st else put_actor st (actor p));
  put_partner st (partner p).

(** The heap record of a failed search is only passed to an update that
    finds nothing. *)
Definition dot3ad_handle_link_change (up : bool) (n : Z) st : option (Z * lacp_state TA TP TM TG) :=
  match find_sm st n, find_actor st n, find_partner st n with
  | Some s, Some a, Some p =>
      let own := find_agg st n in
      let ret := match own with Some _ => 0 | None => DB_TABLE_RETURN_CODE_ENTRY_NOT_EXIST end in
      let eth_agg := match own with Some _ => true | None => negb (npd_netif_type_get (trunk_netif_index a) =? NPD_NETIF_TRUNK_TYPE) end in
      let p' := link_changed up (link_key n) (LPort a p s) in
      '(ret, stored, st) ← (if eth_agg
                            then st ← put_agg st (link_agg up (link_key n) (default (agg_key n) own)); Some (ret, Some false, st)
                            else link_trunk (actor p') st);
      match stored with
      | None => Some (ret, st)
      | Some actor_update_flag => st ← link_store p' actor_update_flag st; Some (ret, st)
      end
  | _, _, _ => Some (-1, st)
  end.

(** [PORT_NOTIFIER_REMOVE] is handled as a link that goes down; other events
    do nothing. *)
Inductive lacp_event := PORT_NOTIFIER_LINKUP_E | PORT_NOTIFIER_LINKDOWN_E | PORT_NOTIFIER_REMOVE | PORT_NOTIFIER_OTHER.

Definition npd_lacp_handle_port_event (event : lacp_event) (n : Z) st : option (lacp_state TA TP TM TG) :=
  if negb (NPD_NETIF_ETH_TYPE =? npd_netif_type_get n) then Some st
  else match find_actor st n with
       | None => Some st
       | Some _ =>
           match event with
           | PORT_NOTIFIER_LINKUP_E => snd <$> dot3ad_handle_link_change true n st
           | PORT_NOTIFIER_LINKDOWN_E | PORT_NOTIFIER_REMOVE => snd <$> dot3ad_handle_link_change false n st
           | PORT_NOTIFIER_OTHER => Some st
           end
       end.

(** *** Packets *)

Definition sizeof_lacpdu : Z := 110.

(** A packet that came in on a port, or on a trunk through [son]. *)
Definition dot3ad_rx_indication (n son : Z) (lacpdu : lacpdu_t) (length : Z) st : option (Z * lacp_state TA TP TM TG) :=
  match npd_lacp_cfg env with
  | None => Some (-1, st)
  | Some enable =>
      if enable =? 0 then Some (0, st)
      else
        let trunk := npd_netif_type_get n =? NPD_NETIF_TRUNK_TYPE in
        if trunk && negb (npd_netif_type_get son =? NPD_NETIF_ETH_TYPE) then Some (0, st)
        else
          let eth_g_index := if npd_netif_type_get n =? NPD_NETIF_ETH_TYPE then n else if trunk then son else 0 in
          match find_actor st eth_g_index with
          | None => Some (-1, st)
          | Some a =>
              if (is_lacp_enable a =? 0) || negb (sizeof_lacpdu <=? u16 length) || negb (pdu_subtype lacpdu =? AD_TYPE_LACPDU)
              then Some (0, st)
              else '(_, st) ← dot3ad_rx_machine (Some lacpdu) eth_g_index st; Some (0, st)
          end
  end.

(** *** A port starts and stops *)

Definition actor_system_priority_default : Z := 32768.

(** The structures of a new port. *)
Definition initial_port (lacp_fast : bool) (mode : Z) (enabled : bool) (link n : Z) : lacp_port :=
  let number := u16 (eth_port_array_index_from_ifindex env n) in
  let state := if enabled then set AD_STATE_AGGREGATION AD_STATE_LACP_ACTIVITY else AD_STATE_AGGREGATION in
  LPort (Actor n number number (npd_system_get_basemac env) actor_system_priority_default 0 1 (link_key n) state
           (if lacp_fast then set state AD_STATE_LACP_TIMEOUT else state) (if link =? ETH_ATTR_LINKUP then 1 else 0)
           (if enabled then 1 else 0) mode 0)
    (Partner n default_admin default_oper)
    (Sm n false (if enabled then set AD_PORT_BEGIN AD_PORT_LACP_ENABLED else AD_PORT_BEGIN) AD_RX_DUMMY 0 AD_PERIODIC_DUMMY 0 0).

(** The results of the insertions are not used. *)
Definition dot3ad_initialize_port (lacp_fast : bool) (mode : Z) (enabled : bool) (n : Z) st : option (Z * lacp_state TA TP TM TG) :=
  if npd_netif_type_get n =? NPD_NETIF_ETH_TYPE then
    match eth_port_link env n with
    | None => Some (-1, st)
    | Some link =>
        let p := initial_port lacp_fast mode enabled link n in
        '(_, ts) ← ks_insert (sms st) (sm p);
        '(_, ta) ← ks_insert (actors st) (actor p);
        '(_, tp) ← ks_insert (partners st) (partner p);
        Some (0, LS ta tp ts (aggs st) (lacp_sent st))
    end
  else Some (-1, st).

Definition npd_lacp_aggregator_delete (n : Z) st : option (Z * lacp_state TA TP TM TG) :=
  '(rc, t) ← ks_delete (aggs st) (agg_key n); Some (rc, LS (actors st) (partners st) (sms st) t (lacp_sent st)).

(** The tables are left one after the other, until one refuses. *)
Definition npd_port_aggregator_delete (n : Z) st : option (Z * lacp_state TA TP TM TG) :=
  '(rc, ta) ← ks_delete (actors st) (actor_key n);
  let st := LS ta (partners st) (sms st) (aggs st) (lacp_sent st) in
  if negb (rc =? 0) then Some (rc, st) else
  '(rc, tp) ← ks_delete (partners st) (partner_key n);
  let st := LS (actors st) tp (sms st) (aggs st) (lacp_sent st) in
  if negb (rc =? 0) then Some (rc, st) else
  '(rc, ts) ← ks_delete (sms st) (sm_key n);
  let st := LS (actors st) (partners st) ts (aggs st) (lacp_sent st) in
  if negb (rc =? 0) then Some (rc, st) else npd_lacp_aggregator_delete n st.

End tables.

(** ** The tables of the daemon *)

#[export] Instance partner_info_eq : EqDecision partner_info.
Proof. solve_decision. Defined.
#[export] Instance lacpport_actor_eq : EqDecision lacpport_actor.
Proof. solve_decision. Defined.
#[export] Instance lacpport_partner_eq : EqDecision lacpport_partner.
Proof. solve_decision. Defined.
#[export] Instance lacpport_sm_eq : EqDecision lacpport_sm.
Proof. solve_decision. Defined.
#[export] Instance aggregator_eq : EqDecision aggregator.
Proof. solve_decision. Defined.

(** The tables have no callbacks. *)
Definition lacp_ops {D} `{!EqDecision D} (zero : D) : db_ops D :=
  {| handle_update := None; handle_insert := None; handle_delete := None; app_handle_update := None; app_handle_delete := None;
     platform_db_sync := Some (fun _ => 0); platform_relay_flag := false; same_sync_part := fun x y => bool_decide (x = y);
     keep_local := fun new _ => new; entry_hton := fun d => d; entry_ntoh := fun d => d; zero_entry := zero; have_sync := true |}.

Definition npd_lacpport_actor_netif_index_cmp (x y : lacpport_actor) : bool := actor_netif_index x =? actor_netif_index y.
Definition npd_lacpport_partner_netif_index_cmp (x y : lacpport_partner) : bool := partner_netif_index x =? partner_netif_index y.
Definition npd_lacpport_sm_netif_index_cmp (x y : lacpport_sm) : bool := sm_netif_index x =? sm_netif_index y.
Definition npd_aggregator_cmp_netif_index (x y : aggregator) : bool := agg_netif_index x =? agg_netif_index y.

Definition npd_aggregator_id_key (g : aggregator) : Z := aggregator_identifier g.
Definition npd_aggregator_id_cmp (x y : aggregator) : bool := aggregator_identifier x =? aggregator_identifier y.
Definition npd_aggregator_id_index (agg_id : Z) : Z := agg_id.

(** What is used of the second index of the aggregators: whether it finds an
    identifier. *)
Class AggregatorIds (TG : Type) := id_found : TG -> Z -> bool.

Section daemon.
Context (b : board).

Definition MAX_ETH_GLOBAL_INDEX : Z := MAX_ETHPORT_PER_SYSTEM b.

(** The number of a port on the switch; the ports of the board have numbers of
    their own. *)
Definition npd_lacpport_netif_index (index : Z) : Z := u32 (NetifIndex.eth_port_array_index_from_ifindex b index).

(** [netif_index] is 32 bits wide. *)
Definition npd_aggregator_netif_index (g : aggregator) : Z :=
  let n := u32 (agg_netif_index g) in
  (Z.shiftl (Z.shiftr n 28) 6 + Z.shiftr (Z.land n 0xFFFFFFF) 14) mod MAX_ETH_GLOBAL_INDEX.

Definition actors_store : KeyStore (db_table_t lacpport_actor) lacpport_actor :=
  database_seq_store (lacp_ops (actor_key 0)) (actor_key 0) 0 true npd_lacpport_netif_index actor_netif_index
    npd_lacpport_actor_netif_index_cmp MAX_ETH_GLOBAL_INDEX (eth_canonical b).
Definition partners_store : KeyStore (db_table_t lacpport_partner) lacpport_partner :=
  database_seq_store (lacp_ops (partner_key 0)) (partner_key 0) 0 true npd_lacpport_netif_index partner_netif_index
    npd_lacpport_partner_netif_index_cmp MAX_ETH_GLOBAL_INDEX (eth_canonical b).
Definition sms_store : KeyStore (db_table_t lacpport_sm) lacpport_sm :=
  database_seq_store (lacp_ops (sm_key 0)) (sm_key 0) 0 true npd_lacpport_netif_index sm_netif_index
    npd_lacpport_sm_netif_index_cmp MAX_ETH_GLOBAL_INDEX (eth_canonical b).

(** The aggregators have two indexes; the one made last is the first of the
    list.  A search by identifier sets only the identifier of its record. *)
Definition aggs_store : KeyStore (db_table_t aggregator) aggregator :=
  database_hash_store (lacp_ops (agg_key 0)) (agg_key 0) 1 npd_aggregator_netif_index npd_aggregator_cmp_netif_index MAX_ETH_GLOBAL_INDEX.
Definition with_id (id : Z) : aggregator := Aggregator 0 id 0 0 null_mac_addr 0 0 0 0.
Definition aggs_ids : AggregatorIds (db_table_t aggregator) :=
  fun db id => (dbtable_sequence_search db 0 id (with_id id)).1.1 =? 0.

(** The records are 40, 36, 40 and, with 64-bit longs, 48 bytes long;
    [DB_SYNC_ALL] is 1 and [DB_SYNC_NONE] 8. *)
Definition npd_lacp_init : lacp_state (db_table_t lacpport_actor) (db_table_t lacpport_partner) (db_table_t lacpport_sm) (db_table_t aggregator) :=
  LS (dbtable_create_sequence_index (create_dbtable MAX_ETH_GLOBAL_INDEX 40 1) MAX_ETH_GLOBAL_INDEX npd_lacpport_netif_index
        actor_netif_index npd_lacpport_actor_netif_index_cmp)
     (dbtable_create_sequence_index (create_dbtable MAX_ETH_GLOBAL_INDEX 36 8) MAX_ETH_GLOBAL_INDEX npd_lacpport_netif_index
        partner_netif_index npd_lacpport_partner_netif_index_cmp)
     (dbtable_create_sequence_index (create_dbtable MAX_ETH_GLOBAL_INDEX 40 8) MAX_ETH_GLOBAL_INDEX npd_lacpport_netif_index
        sm_netif_index npd_lacpport_sm_netif_index_cmp)
     (dbtable_create_sequence_index
        (dbtable_create_hash_index (create_dbtable MAX_ETH_GLOBAL_INDEX 48 8) MAX_ETH_GLOBAL_INDEX (Some npd_aggregator_netif_index)
           npd_aggregator_cmp_netif_index)
        MAX_ETH_GLOBAL_INDEX npd_aggregator_id_index npd_aggregator_id_key npd_aggregator_id_cmp)
     [].

End daemon.
