(* ===== verification/LacpPorts.v ===== *)
(** * Link aggregation: what the machines of a port guarantee

    The machines of [Lacp] on the tables refine one state machine per port;
    what a port says of itself in its packets is true, a silent partner is
    noticed, packets are sent at the agreed rate, and two ports that talk to
    each other come to know each other. *)

From Stdlib Require Import ZArith Lia Bool.
From stdpp Require Import base decidable list gmap.
From S2P Require Import Prelude NetifIndex Database Chains DatabaseHash DatabaseSeq KeyStore Lacp.

Open Scope Z_scope.

(** ** Bits *)

Lemma on_set x a m : on (set x a) m = on x m || on a m.
Proof.
  unfold on, set. rewrite Z.land_lor_distr_l. destruct (Z.eqb_spec (Z.lor (Z.land x m) (Z.land a m)) 0) as [E|E].
  - apply Z.lor_eq_0_iff in E as [-> ->]. done.
  - destruct (Z.eqb_spec (Z.land x m) 0) as [E1|]; [|done]. destruct (Z.eqb_spec (Z.land a m) 0) as [E2|]; [|done].
    by rewrite E1, E2 in E.
Qed.

Lemma on_clr_out x a m : Z.land a m = 0 -> on (clr x a) m = on x m.
Proof.
  intros H. unfold on, clr. f_equal. f_equal. apply Z.bits_inj'. intros j Hj. rewrite !Z.land_spec, Z.ldiff_spec.
  assert (Z.testbit (Z.land a m) j = false) as Hb by (rewrite H; apply Z.bits_0). rewrite Z.land_spec in Hb.
  destruct (Z.testbit x j), (Z.testbit a j), (Z.testbit m j); done.
Qed.

Lemma on_clr_in x a m : Z.ldiff m a = 0 -> on (clr x a) m = false.
Proof.
  intros H. unfold on, clr. apply negb_false_iff, Z.eqb_eq, Z.bits_inj'. intros j Hj. rewrite Z.land_spec, Z.ldiff_spec, Z.bits_0.
  assert (Z.testbit (Z.ldiff m a) j = false) as Hb by (rewrite H; apply Z.bits_0). rewrite Z.ldiff_spec in Hb.
  destruct (Z.testbit x j), (Z.testbit a j), (Z.testbit m j); done.
Qed.

(** Bits of variables after assignments, for the constants of the code. *)
Ltac flags :=
  repeat first
    [ rewrite on_set | rewrite on_clr_in by reflexivity | rewrite on_clr_out by reflexivity ];
  repeat match goal with |- context [on ?a ?b] => is_const a; is_const b;
    let v := eval vm_compute in (on a b) in change (on a b) with v end;
  rewrite ?orb_true_r, ?orb_false_r.

(** ** The receive machine *)

Section rx.
Context (le : bool).
Implicit Types (p : lacp_port) (pdu : lacpdu_t).

Definition begins p : bool := on (sm_vars (sm p)) AD_PORT_BEGIN.
Definition expired p : bool := on (actor_oper_port_state (actor p)) AD_STATE_EXPIRED.
Definition defaulted p : bool := on (actor_oper_port_state (actor p)) AD_STATE_DEFAULTED.

(** What a port knows of its partner is what a packet of another system said,
    but for the bit of synchronisation. *)
Definition said (heard : list lacpdu_t) p : Prop :=
  exists pdu st, pdu ∈ heard /\ pdu_actor_system pdu <> actor_system (actor p) /\
    partner_oper (partner p) = with_info_state (pdu_info le pdu) st /\
    clr st AD_STATE_SYNCHRONIZATION = clr (Z.land (pdu_actor_state pdu) 0xff) AD_STATE_SYNCHRONIZATION.

(** What holds of a port in each state of the receive machine, after it heard
    some packets; its timer runs, below a bound. *)
Definition rx_truth (bound : Z) (heard : list lacpdu_t) p : Prop :=
  match sm_rx_state (sm p) with
  | AD_RX_CURRENT => expired p = false /\ defaulted p = false /\ 1 <= sm_rx_timer_counter (sm p) <= bound /\ said heard p
  | AD_RX_EXPIRED =>
      expired p = true /\ on (info_port_state (partner_oper (partner p))) AD_STATE_SYNCHRONIZATION = false /\
      on (sm_vars (sm p)) AD_PORT_MATCHED = false /\ 1 <= sm_rx_timer_counter (sm p) <= bound
  | AD_RX_DEFAULTED => expired p = false /\ defaulted p = true /\ partner_oper (partner p) = partner_admin (partner p)
  | AD_RX_LACP_DISABLED =>
      expired p = false /\ defaulted p = true /\ on (info_port_state (partner_oper (partner p))) AD_STATE_AGGREGATION = false
  | AD_RX_PORT_DISABLED => on (sm_vars (sm p)) AD_PORT_MATCHED = false
  | _ => True
  end.

(** The longest timeout, with the tick that joining a trunk adds. *)
Definition timer_max : Z := AD_LONG_TIMEOUT_TIME + 1.

(** A port that starts again has nothing to say yet. *)
Definition rx_inv (heard : list lacpdu_t) p : Prop := begins p = true \/ rx_truth timer_max heard p.

Lemma rx_truth_weaken b b' heard p : b <= b' -> rx_truth b heard p -> rx_truth b' heard p.
Proof. intros Hb. unfold rx_truth. destruct (sm_rx_state (sm p)); intuition lia. Qed.

Lemma long_ticks x : 1 <= __dot3ad_timer_to_ticks AD_CURRENT_WHILE_TIMER x <= AD_LONG_TIMEOUT_TIME.
Proof. unfold __dot3ad_timer_to_ticks. destruct (negb (x =? 0)); vm_compute; intuition discriminate. Qed.

(** The keys of the three structures of a port. *)
Definition port_keys p (n : Z) : Prop :=
  actor_netif_index (actor p) = n /\ partner_netif_index (partner p) = n /\ sm_netif_index (sm p) = n.

(** What an action may do to a port that it stores. *)
Record rx_keeps p p' : Prop := {
  rk_begin : begins p' = begins p;
  rk_keys n : port_keys p n -> port_keys p' n;
  rk_system : actor_system (actor p') = actor_system (actor p);
  rk_enabled : is_enabled (actor p') = is_enabled (actor p);
  rk_periodic : sm_periodic_state (sm p') = sm_periodic_state (sm p) /\
    sm_periodic_timer_counter (sm p') = sm_periodic_timer_counter (sm p);
  rk_admin : partner_admin (partner p') = partner_admin (partner p)
}.

Lemma rx_keeps_trans p1 p2 p3 : rx_keeps p1 p2 -> rx_keeps p2 p3 -> rx_keeps p1 p3.
Proof. intros [A1 A2 A3 A4 [A5 A6] A7] [B1 B2 B3 B4 [B5 B6] B7]. split; [congruence|auto|congruence|congruence|split; congruence|congruence]. Qed.

Lemma rx_keeps_vars p v : on v AD_PORT_BEGIN = begins p -> rx_keeps p (LPort (actor p) (partner p) (with_vars (sm p) v)).
Proof. by intros H. Qed.

Ltac keeps_fields := split; unfold begins; cbn; flags; rewrite ?orb_false_r; done.

Lemma selected_keeps pdu p : rx_keeps p (__update_selected le pdu p).
Proof. unfold __update_selected. destruct (same_partner _ _); keeps_fields. Qed.
Lemma default_selected_keeps p : rx_keeps p (__update_default_selected p).
Proof. unfold __update_default_selected. destruct (same_partner _ _); keeps_fields. Qed.
Lemma ntt_keeps pdu p : rx_keeps p (__update_ntt le pdu p).
Proof. unfold __update_ntt. cbv zeta. destruct (_ || _); keeps_fields. Qed.
Lemma matched_keeps pdu p : rx_keeps p (__choose_matched le pdu p).
Proof. unfold __choose_matched. destruct (_ || _); keeps_fields. Qed.

(** A packet that is recorded, up to the timer. *)
Definition recorded pdu p : lacp_port :=
  __choose_matched le pdu (__record_pdu le pdu (__update_ntt le pdu (__update_selected le pdu p))).

Lemma recorded_actor pdu p :
  actor (recorded pdu p) = with_oper_state (actor p) (clr (actor_oper_port_state (actor p)) AD_STATE_DEFAULTED).
Proof.
  unfold recorded, __choose_matched, __record_pdu, __update_ntt, __update_selected. cbv zeta.
  by repeat (case_match; cbn [actor]).
Qed.

Lemma recorded_keeps pdu p : rx_keeps p (recorded pdu p).
Proof.
  eapply rx_keeps_trans; [|apply matched_keeps]. eapply rx_keeps_trans; [|keeps_fields].
  eapply rx_keeps_trans; [apply selected_keeps|apply ntt_keeps].
Qed.

Lemma clr_set_same x m : clr (set x m) m = clr x m.
Proof. apply Z.bits_inj'. intros j Hj. unfold clr, set. rewrite !Z.ldiff_spec, Z.lor_spec. by destruct (Z.testbit x j), (Z.testbit m j). Qed.
Lemma clr_clr_same x m : clr (clr x m) m = clr x m.
Proof. apply Z.bits_inj'. intros j Hj. unfold clr. rewrite !Z.ldiff_spec. by destruct (Z.testbit x j), (Z.testbit m j). Qed.

(** What is recorded is what the packet says. *)
Lemma recorded_partner pdu p :
  exists st, partner (recorded pdu p) = with_oper (partner p) (with_info_state (pdu_info le pdu) st) /\
    clr st AD_STATE_SYNCHRONIZATION = clr (Z.land (pdu_actor_state pdu) 0xff) AD_STATE_SYNCHRONIZATION.
Proof.
  assert (partner (__update_ntt le pdu (__update_selected le pdu p)) = partner p) as E.
  { unfold __update_ntt, __update_selected. cbv zeta. by repeat (case_match; cbn [partner]). }
  unfold recorded, __choose_matched. destruct (_ || _); cbn [partner __record_pdu]; rewrite E; eexists;
    (split; [reflexivity|]); case_match; (apply clr_set_same || apply clr_clr_same).
Qed.

(** The packets heard, with the one that just came. *)
Definition hear (lacpdu : option lacpdu_t) (heard : list lacpdu_t) : list lacpdu_t :=
  match lacpdu with Some pdu => pdu :: heard | None => heard end.

Lemma said_more pdu heard p : said heard p -> said (pdu :: heard) p.
Proof. intros (d & st & Hd & H). exists d, st. split; [by right|done]. Qed.

Lemma rx_inv_more pdu heard p : rx_inv heard p -> rx_inv (pdu :: heard) p.
Proof.
  intros [H|H]; [by left|right]. revert H. unfold rx_truth. destruct (sm_rx_state (sm p)); try done.
  intros (? & ? & [? ?] & Hs). split_and!; try done. by apply said_more.
Qed.

(** The actions of the state of a packet that is accepted. *)
Lemma rx_current_ok heard pdu p :
  same_mac (pdu_actor_system pdu) (actor_system (actor p)) = false ->
  let p' := without_expired (LPort (actor (recorded pdu p)) (partner (recorded pdu p))
    (with_rx (sm (recorded pdu p)) AD_RX_CURRENT (__dot3ad_timer_to_ticks AD_CURRENT_WHILE_TIMER
       (Z.land (actor_oper_port_state (actor (recorded pdu p))) AD_STATE_LACP_TIMEOUT)))) in
  rx_keeps p p' /\ rx_truth AD_LONG_TIMEOUT_TIME (pdu :: heard) p'.
Proof.
  intros Hm p'. split.
  - eapply rx_keeps_trans; [apply (recorded_keeps pdu)|]. unfold p'. keeps_fields.
  - unfold p', rx_truth, expired, defaulted, said. cbn. rewrite recorded_actor. cbn. flags. split_and!; [done|done|apply long_ticks|apply long_ticks|].
    destruct (recorded_partner pdu p) as (st & -> & Hst). exists pdu, st. split_and!; [by left| |done|done].
    unfold same_mac in Hm. by apply bool_decide_eq_false in Hm.
Qed.

Lemma rx_enter_ok heard (lacpdu : option lacpdu_t) p :
  (sm_rx_state (sm p) = AD_RX_CURRENT -> is_Some lacpdu) ->
  exists r, rx_enter le lacpdu p = Some r /\
    match r with
    | Loopback => sm_rx_state (sm p) = AD_RX_CURRENT
    | Stored p' => rx_keeps p p' /\ rx_truth AD_LONG_TIMEOUT_TIME (hear lacpdu heard) p'
    end.
Proof.
  intros Hc. unfold rx_enter. destruct (sm_rx_state (sm p)) eqn:E.
  - eexists. split; [done|]. split; [done|]. by unfold rx_truth; rewrite E.
  - eexists. split; [done|]. split; [destruct (on (actor_oper_port_key _) _); keeps_fields|].
    unfold rx_truth. cbn. destruct (on (actor_oper_port_key _) _); by flags.
  - eexists. split; [done|]. split; [keeps_fields|]. unfold rx_truth. cbn. rewrite E. by flags.
  - eexists. split; [done|]. split; [keeps_fields|]. unfold rx_truth, expired, defaulted. cbn. rewrite E. by flags.
  - eexists. split; [done|]. split; [keeps_fields|]. unfold rx_truth, expired. cbn. flags. done.
  - eexists. split; [done|]. pose proof (default_selected_keeps p) as Hk.
    assert (sm_rx_state (sm (__update_default_selected p)) = AD_RX_DEFAULTED) as Hs.
    { unfold __update_default_selected. by destruct (same_partner _ _). }
    split; [eapply rx_keeps_trans; [exact Hk|keeps_fields]|].
    unfold rx_truth, expired, defaulted. cbn. rewrite Hs. by flags.
  - destruct (Hc eq_refl) as [pdu ->]. cbn [mbind option_bind]. fold (recorded pdu p).
    destruct (same_mac _ _) eqn:Em; [by exists Loopback|]. eexists. split; [done|]. by apply rx_current_ok.
Qed.

Definition rx_moved (lacpdu : option lacpdu_t) p : lacp_port := LPort (actor p) (partner p) (rx_next lacpdu p).

Lemma rx_next_keeps lacpdu p : rx_keeps p (rx_moved lacpdu p).
Proof. unfold rx_moved, rx_next. cbv zeta. repeat case_match; keeps_fields. Qed.

Lemma no_packet : bool_decide (is_Some (@None lacpdu_t)) = false.
Proof. apply bool_decide_eq_false. by intros [? ?]. Qed.

(** Without a packet a port does not become current. *)
Lemma rx_next_current p : sm_rx_state (rx_next None p) = AD_RX_CURRENT -> sm_rx_state (sm p) = AD_RX_CURRENT.
Proof.
  unfold rx_next. cbv zeta. destruct (on _ AD_PORT_BEGIN); [done|]. destruct (negb _ && _); [done|].
  rewrite no_packet, andb_false_l. destruct (_ =? 1); cbn; destruct (sm_rx_state (sm p)); try done. by repeat case_match.
Qed.

Lemma acts_packet lacpdu p : rx_acts lacpdu p = true -> sm_rx_state (sm (rx_moved lacpdu p)) = AD_RX_CURRENT -> is_Some lacpdu.
Proof.
  cbn [rx_moved sm]. unfold rx_acts. intros Ha Hc. destruct lacpdu; [by eexists|]. apply rx_next_current in Hc as Hp.
  by rewrite Hc, Hp, no_packet in Ha.
Qed.

(** The machine always returns. *)
Lemma rx_port_total lacpdu p : is_Some (rx_port le lacpdu p).
Proof.
  unfold rx_port. fold (rx_moved lacpdu p). destruct (rx_acts lacpdu p) eqn:Ea; [|by eexists].
  destruct (rx_enter_ok [] lacpdu (rx_moved lacpdu p) (acts_packet lacpdu p Ea)) as (r & -> & _). by eexists.
Qed.

(** A turn without a change of state lets the timer run. *)
Lemma rx_idle_truth heard p :
  rx_inv heard p -> sm_rx_state (rx_next None p) = sm_rx_state (sm p) -> rx_truth AD_LONG_TIMEOUT_TIME heard (rx_moved None p).
Proof.
  intros Hi Hs. unfold rx_truth, expired, defaulted, said, rx_moved. cbn [actor partner sm]. revert Hs. unfold rx_next. cbv zeta.
  unfold rx_inv, begins in Hi. destruct (on (sm_vars (sm p)) AD_PORT_BEGIN); [by cbn; intros _|].
  destruct Hi as [|Hi]; [done|]. unfold rx_truth, expired, defaulted, said, timer_max in Hi.
  destruct (negb _ && _); [cbn; intros Hs; by rewrite <- Hs in Hi|]. rewrite no_packet, andb_false_l.
  destruct (Z.eqb_spec (sm_rx_timer_counter (sm p)) 1) as [E1|E1]; cbn; intros Hs.
  - destruct (sm_rx_state (sm p)); done.
  - rewrite Hs. destruct (sm_rx_state (sm p)); try done.
    + destruct Hi as (H1 & H2 & H3 & H4). destruct (Z.eqb_spec (sm_rx_timer_counter (sm p)) 0); [lia|]. split_and!; (done || lia).
    + destruct Hi as (H1 & H2 & H3 & H4). destruct (Z.eqb_spec (sm_rx_timer_counter (sm p)) 0); [lia|]. split_and!; (done || lia).
Qed.

(** The port as the machine leaves it. *)
Definition rx_stored (lacpdu : option lacpdu_t) p : lacp_port :=
  match rx_port le lacpdu p with Some (Stored p') => p' | _ => p end.

(** Without actions only the machine's own structure changes. *)
Lemma idle_port lacpdu p p' :
  rx_acts lacpdu p = false -> rx_port le lacpdu p = Some (Stored p') -> actor p' = actor p /\ partner p' = partner p.
Proof. unfold rx_port. intros ->. by intros [= <-]. Qed.

(** The machine keeps what it does not own, and the port it leaves tells the
    truth. *)
Lemma rx_stored_ok heard lacpdu p :
  rx_inv heard p ->
  rx_keeps p (rx_stored lacpdu p) /\
  rx_inv (hear lacpdu heard) (rx_stored lacpdu p) /\ (lacpdu = None -> rx_truth AD_LONG_TIMEOUT_TIME heard (rx_stored lacpdu p)).
Proof.
  intros Hi. unfold rx_stored, rx_port. fold (rx_moved lacpdu p). destruct (rx_acts lacpdu p) eqn:Ea.
  - destruct (rx_enter_ok heard lacpdu (rx_moved lacpdu p) (acts_packet lacpdu p Ea)) as (r & -> & Hr). destruct r as [|p'].
    + destruct (acts_packet lacpdu p Ea Hr) as [pdu ->]. split_and!; [done|by apply rx_inv_more|done].
    + destruct Hr as (Hk & Ht). split_and!; [eapply rx_keeps_trans; [apply rx_next_keeps|exact Hk]|right; by eapply rx_truth_weaken; [|exact Ht]|by intros ->].
  - unfold rx_acts in Ea. apply orb_false_iff in Ea as [Ea En]. destruct lacpdu; [by rewrite bool_decide_eq_true_2 in En by by eexists|].
    apply negb_false_iff, bool_decide_eq_true in Ea. pose proof (rx_idle_truth heard p Hi Ea) as Ht.
    split_and!; [apply rx_next_keeps|right; by eapply rx_truth_weaken; [|exact Ht]|done].
Qed.

Lemma rx_stored_keeps lacpdu p : rx_keeps p (rx_stored lacpdu p).
Proof.
  unfold rx_stored, rx_port. fold (rx_moved lacpdu p). destruct (rx_acts lacpdu p) eqn:Ea; [|apply rx_next_keeps].
  destruct (rx_enter_ok [] lacpdu (rx_moved lacpdu p) (acts_packet lacpdu p Ea)) as ([|p'] & -> & H); [done|].
  eapply rx_keeps_trans; [apply rx_next_keeps|apply H].
Qed.

End rx.

(** ** Runs of a port *)

(** The end of a turn: the bit that starts the machines is off. *)
Definition begin_off (p : lacp_port) : lacp_port :=
  if begins p then LPort (actor p) (partner p) (with_vars (sm p) (clr (sm_vars (sm p)) AD_PORT_BEGIN)) else p.

(** The machines start again, with another actor. *)
Definition restarted (change : lacpport_actor -> lacpport_actor) (p : lacp_port) : lacp_port :=
  LPort (change (actor p)) (partner p) (with_vars (sm p) (set (sm_vars (sm p)) AD_PORT_BEGIN)).

(** What the choice of an aggregator may write: other bits of the actor's
    state, its aggregator and trunk, [SELECTED] and the request to send; a
    port that joins a trunk may get one more tick. *)
Record selection_writes (p q : lacp_port) : Prop := {
  sw_keys n : port_keys p n -> port_keys q n;
  sw_rx : sm_rx_state (sm q) = sm_rx_state (sm p);
  sw_timer : sm_rx_timer_counter (sm q) = sm_rx_timer_counter (sm p) \/
    sm_rx_timer_counter (sm q) = u16 (sm_rx_timer_counter (sm p) + 1);
  sw_expired : expired q = expired p;
  sw_defaulted : defaulted q = defaulted p;
  sw_system : actor_system (actor q) = actor_system (actor p);
  sw_enabled : is_enabled (actor q) = is_enabled (actor p);
  sw_partner : partner q = partner p;
  sw_matched : on (sm_vars (sm q)) AD_PORT_MATCHED = on (sm_vars (sm p)) AD_PORT_MATCHED;
  sw_begin : begins q = begins p
}.

(** On a port other than its own, and by the other machines, not even that. *)
Definition other_writes (p q : lacp_port) : Prop :=
  selection_writes p q /\ sm_rx_timer_counter (sm q) = sm_rx_timer_counter (sm p).

Section runs.
Context (le : bool).
Implicit Types (p q : lacp_port) (heard : list lacpdu_t).

(** A turn of [dot3ad_state_machine_handler] on a port: the receive and the
    periodic machine, the choice of an aggregator, the transmit machine. *)
Definition before_selection p : lacp_port := periodic_port (rx_stored le None p).
Definition after_selection (sent : bool) p : lacp_port := begin_off (tx_port sent p).

(** What happens to a port, with the packets it heard. *)
Inductive port_run (p0 : lacp_port) : list lacpdu_t -> lacp_port -> Prop :=
  | run_start : port_run p0 [] p0
  | run_packet heard p pdu : port_run p0 heard p -> port_run p0 (pdu :: heard) (rx_stored le (Some pdu) p)
  | run_turn heard p q sent :
      port_run p0 heard p -> selection_writes (before_selection p) q -> port_run p0 heard (after_selection sent q)
  | run_selection heard p q : port_run p0 heard p -> other_writes p q -> port_run p0 heard q
  | run_restart heard p change : port_run p0 heard p -> port_run p0 heard (restarted change p)
  | run_link heard p up key : port_run p0 heard p -> port_run p0 heard (link_changed up key p).

Lemma other_truth b heard p q : other_writes p q -> rx_truth le b heard p -> rx_truth le b heard q.
Proof.
  intros [[_ E1 _ E3 E4 E5 E6 E7 E8 E9] E2]. unfold rx_truth, said. by rewrite E1, E2, E3, E4, E5, E7, E8.
Qed.

Lemma selection_truth heard p q :
  selection_writes p q -> rx_truth le AD_LONG_TIMEOUT_TIME heard p -> rx_truth le timer_max heard q.
Proof.
  intros [_ E1 E2 E3 E4 E5 E6 E7 E8 E9]. unfold rx_truth, said. rewrite E1, E3, E4, E5, E7, E8.
  assert (forall c, 1 <= c <= AD_LONG_TIMEOUT_TIME -> u16 (c + 1) = c + 1) as Hu.
  { intros c Hc. apply wrap_small. change AD_LONG_TIMEOUT_TIME with 90 in Hc. lia. }
  unfold timer_max. destruct (sm_rx_state (sm p)); try done.
  - intros (? & ? & ? & Hc). specialize (Hu _ Hc). split_and!; (done || lia).
  - intros (? & ? & Hc & ?). specialize (Hu _ Hc). split_and!; (done || lia).
Qed.

Lemma other_inv heard p q : other_writes p q -> rx_inv le heard p -> rx_inv le heard q.
Proof. intros Hs [H|H]; [left; by rewrite (sw_begin _ _ (proj1 Hs))|right; by eapply other_truth]. Qed.

(** The other machines do not touch what the receive machine says. *)
Lemma periodic_writes p : other_writes p (periodic_port p).
Proof.
  assert (sm_rx_timer_counter (sm (periodic_port p)) = sm_rx_timer_counter (sm p)) as E
    by (unfold periodic_port, periodic_next; cbv zeta; cbn; by repeat case_match).
  split; [|done]. split; [| |by left|..]; unfold periodic_port, periodic_next, port_keys, expired, defaulted, begins; cbv zeta; cbn;
    by repeat case_match.
Qed.
Lemma tx_writes sent p : other_writes p (tx_port sent p).
Proof.
  assert (sm_rx_timer_counter (sm (tx_port sent p)) = sm_rx_timer_counter (sm p)) as E by (unfold tx_port; cbn; by repeat case_match).
  split; [|done]. split; [| |by left|..]; unfold tx_port, port_keys, expired, defaulted, begins; cbn; by repeat case_match.
Qed.

Lemma begin_off_truth b heard p : rx_truth le b heard p -> rx_truth le b heard (begin_off p).
Proof.
  unfold begin_off. destruct (begins p); [|done]. unfold rx_truth, expired, defaulted, said. cbn.
  destruct (sm_rx_state (sm p)); by flags.
Qed.

Lemma begin_off_off p : begins (begin_off p) = false.
Proof. unfold begin_off. destruct (begins p) eqn:E; [|done]. unfold begins. cbn. by flags. Qed.

Lemma run_inv p0 heard p : begins p0 = true -> port_run p0 heard p -> rx_inv le heard p.
Proof.
  intros H0. induction 1 as [|heard p pdu _ IH|heard p q sent _ IH Hs|heard p q _ IH Hs|heard p change _ IH|heard p up key _ IH].
  - by left.
  - by apply (rx_stored_ok le heard (Some pdu)).
  - right. apply begin_off_truth. eapply other_truth; [apply tx_writes|]. eapply selection_truth; [exact Hs|].
    eapply other_truth; [apply periodic_writes|]. by apply rx_stored_ok.
  - by eapply other_inv.
  - left. unfold begins, restarted. cbn. by flags.
  - left. unfold begins, link_changed. destruct up; cbn; by flags.
Qed.

End runs.

(** C21: what a port says of itself is true.  Start a port with
    [dot3ad_initialize_port] and let packets, turns of the daemon, choices of an
    aggregator that write what [selection_writes] allows, restarts and changes
    of the link that are stored whole follow each other in any order (a change
    of the link that the code refuses on a static trunk stores the actor only
    and is left out).  A port that is not about to start again ([begins], which
    a change of the link sets until the next turn) and whose receive machine is
    current is neither expired nor defaulted and knows of its partner exactly
    what some packet of another system said; an expired one shows it and trusts
    neither the match nor the synchronisation of the partner; a defaulted one
    shows it and uses the administrative values. *)
Theorem port_reports_truth env fast mode enabled link n heard p :
  port_run (little_endian env) (initial_port env fast mode enabled link n) heard p ->
  begins p = false -> rx_truth (little_endian env) timer_max heard p.
Proof.
  intros Hr Hb. apply run_inv in Hr as [H|H]; [by rewrite H in Hb|done|].
  unfold begins, initial_port. cbn. by destruct enabled.
Qed.

(** ** A partner that falls silent *)

Section silence.
Context (le : bool) (sel : nat -> lacp_port -> lacp_port) (sent : nat -> bool).
Implicit Types (p : lacp_port).

Definition turn (k : nat) p : lacp_port := after_selection (sent k) (sel k (before_selection le p)).

(** Turns without a packet, the last one first. *)
Fixpoint silent_turns (k : nat) p : lacp_port :=
  match k with O => p | S k => turn k (silent_turns k p) end.

(** The tick that the choice of an aggregator adds to the timer of a port that
    joins or makes a trunk, in one turn and in the first [k] turns. *)
Definition tick_given (k : nat) p : Z :=
  let q := before_selection le p in
  if sm_rx_timer_counter (sm (sel k q)) =? sm_rx_timer_counter (sm q) then 0 else 1.
Fixpoint ticks_given (k : nat) p : Z :=
  match k with O => 0 | S k => ticks_given k p + tick_given k (silent_turns k p) end.

(** The state of the receive machine and its timer, of a port that is up. *)
Record up_at p (st : rx_states_t) (c : Z) : Prop := {
  up_begin : begins p = false;
  up_enabled : is_enabled (actor p) <> 0;
  up_state : sm_rx_state (sm p) = st;
  up_timer : sm_rx_timer_counter (sm p) = c
}.

(** What the timer does in a turn. *)
Definition tick (st : rx_states_t) (c : Z) : rx_states_t * Z :=
  match st with
  | AD_RX_CURRENT => if c =? 1 then (AD_RX_EXPIRED, AD_SHORT_TIMEOUT_TIME) else (st, c - 1)
  | AD_RX_EXPIRED => if c =? 1 then (AD_RX_DEFAULTED, 0) else (st, c - 1)
  | _ => (st, if c =? 0 then 0 else c - 1)
  end.

Definition timed (st : rx_states_t) (c : Z) : Prop :=
  match st with AD_RX_CURRENT | AD_RX_EXPIRED => 1 <= c | AD_RX_DEFAULTED => True | _ => False end.

Lemma rx_tick p st c : timed st c -> up_at p st c -> up_at (rx_stored le None p) (tick st c).1 (tick st c).2.
Proof.
  intros Ht [Hb He Hs Hc]. unfold begins in Hb. unfold rx_stored, rx_port, rx_acts, rx_next. cbv zeta.
  rewrite Hb, Hs, Hc, no_packet, andb_false_l, orb_false_r. destruct (Z.eqb_spec (is_enabled (actor p)) 0) as [|_]; [done|].
  cbn [negb andb].
  destruct st; try done; cbn [timed tick] in *; destruct (Z.eqb_spec c 1) as [E|E]; try lia;
    first [rewrite bool_decide_eq_true_2 by done | rewrite bool_decide_eq_false_2 by done]; cbn [negb];
    destruct (Z.eqb_spec c 0); try lia; unfold rx_enter, __update_default_selected; cbn;
    try (destruct (same_partner _ _)); (split; unfold begins; cbn; flags; done || lia).
Qed.

Lemma writes_up p q st c : other_writes p q -> up_at p st c -> up_at q st c.
Proof. intros [[] Ht] []. split; congruence. Qed.

Lemma begin_off_up p st c : up_at p st c -> up_at (begin_off p) st c.
Proof. intros H. unfold begin_off. by rewrite (up_begin _ _ _ H). Qed.

Context (Hsel : forall k p, selection_writes p (sel k p)).

Lemma turn_truth k heard p : rx_inv le heard p -> rx_truth le timer_max heard (turn k p).
Proof.
  intros Hi. apply begin_off_truth. eapply other_truth; [apply tx_writes|]. eapply selection_truth; [apply Hsel|].
  eapply other_truth; [apply periodic_writes|]. by apply rx_stored_ok.
Qed.

(** A turn is a tick of the timer, and one back when the choice gives it. *)
Lemma turn_tick k p heard st c : rx_truth le timer_max heard p -> timed st c -> up_at p st c ->
  exists c', up_at (turn k p) (tick st c).1 c' /\
    ((tick st c).1 = AD_RX_CURRENT \/ (tick st c).1 = AD_RX_EXPIRED -> c' = (tick st c).2 + tick_given k p).
Proof.
  intros Hi Ht Hu. pose proof (rx_tick p st c Ht Hu) as H1. eapply writes_up in H1; [|apply periodic_writes].
  fold (before_selection le p) in H1. assert (rx_truth le AD_LONG_TIMEOUT_TIME heard (before_selection le p)) as Hb.
  { eapply other_truth; [apply periodic_writes|]. apply (rx_stored_ok le heard None); [by right|done]. }
  pose proof (Hsel k (before_selection le p)) as Hw. eexists. split.
  - apply begin_off_up. eapply writes_up; [apply tx_writes|]. destruct H1, Hw. split; [congruence..|reflexivity].
  - intros Hst. unfold tick_given. destruct H1 as [_ _ H2 H3], (sw_timer _ _ Hw) as [E|E]; rewrite E, H3.
    + rewrite Z.eqb_refl. lia.
    + assert (u16 ((tick st c).2 + 1) = (tick st c).2 + 1) as ->.
      { apply wrap_small. revert Hb. unfold rx_truth. rewrite H2, H3. change AD_LONG_TIMEOUT_TIME with 90.
        destruct Hst as [-> | ->]; intuition lia. }
      destruct (Z.eqb_spec ((tick st c).2 + 1) (tick st c).2); lia.
Qed.

(** What the port is after [k] turns: current, or expired since the turn [a],
    or expired from [a] and defaulted from [b] on. *)
Definition silent_phase (c : Z) p (k : nat) : Prop :=
  let st j := sm_rx_state (sm (silent_turns j p)) in
  let g := ticks_given k p in
  let n := Z.of_nat k in
  (up_at (silent_turns k p) AD_RX_CURRENT (c + g - n) /\ 1 <= c + g - n /\ forall j, (j <= k)%nat -> st j = AD_RX_CURRENT) \/
  (exists a, up_at (silent_turns k p) AD_RX_EXPIRED (c + 3 + g - n) /\ 1 <= c + 3 + g - n /\ c <= a <= n /\ a <= c + g /\
     forall j, (j <= k)%nat -> st j = if Z.of_nat j <? a then AD_RX_CURRENT else AD_RX_EXPIRED) \/
  (exists a b x, up_at (silent_turns k p) AD_RX_DEFAULTED x /\ c <= a /\ a + 3 <= b <= c + 3 + g /\ b <= n /\
     forall j, (j <= k)%nat -> st j = if Z.of_nat j <? a then AD_RX_CURRENT else if Z.of_nat j <? b then AD_RX_EXPIRED else AD_RX_DEFAULTED).

Lemma ticks_grow k p : 0 <= ticks_given k p.
Proof. induction k as [|k IH]; [done|]. cbn [ticks_given]. unfold tick_given. destruct (_ =? _); lia. Qed.

(** A state of all turns up to the next one. *)
Lemma states_next (st : nat -> rx_states_t) (f : Z -> rx_states_t) k :
  (forall j, (j <= k)%nat -> st j = f (Z.of_nat j)) -> st (S k) = f (Z.of_nat (S k)) -> forall j, (j <= S k)%nat -> st j = f (Z.of_nat j).
Proof. intros H1 H2 j Hj. destruct (decide (j = S k)) as [->|]; [done|]. apply H1. lia. Qed.

Lemma silent_phase_next heard c p k : 1 <= c -> rx_truth le timer_max heard (silent_turns k p) ->
  silent_phase c p k -> silent_phase c p (S k).
Proof.
  intros Hc Ht. unfold silent_phase. cbv zeta. set (n := Z.of_nat k). set (g := ticks_given k p). pose proof (ticks_grow k p) as Hg. fold g in Hg.
  set (st := fun j => sm_rx_state (sm (silent_turns j p))).
  assert (0 <= tick_given k (silent_turns k p)) as Hd by (unfold tick_given; destruct (_ =? _); lia).
  assert (Z.of_nat (S k) = n + 1) as En by lia. rewrite En. cbn [ticks_given]. fold g.
  set (d := tick_given k (silent_turns k p)) in *.
  intros [(Hu & H1 & Hj)|[(a & Hu & H1 & Ha & Hag & Hj)|(a & b & x & Hu & Ha & Hb & Hbn & Hj)]].
  - destruct (turn_tick k _ heard AD_RX_CURRENT _ Ht H1 Hu) as (c' & Hu' & Hc'). cbn [tick] in Hu', Hc'.
    destruct (Z.eqb_spec (c + g - n) 1) as [E|E]; cbn [fst snd] in Hu', Hc'; rewrite (Hc' ltac:(auto)) in Hu'.
    + right; left. exists (n + 1). change AD_SHORT_TIMEOUT_TIME with 3 in Hu'. split; [|split; [lia|split; [lia|split; [lia|]]]].
      { by replace (c + 3 + (g + d) - (n + 1)) with (3 + d) by lia. }
      apply (states_next st (fun j => if j <? n + 1 then _ else _)).
      { intros j Hle. destruct (Z.ltb_spec (Z.of_nat j) (n + 1)); [|lia]. by apply Hj. }
      rewrite En, Z.ltb_irrefl. apply (up_state _ _ _ Hu').
    + left. split; [|split; [lia|]]; [by replace (c + (g + d) - (n + 1)) with (c + g - n - 1 + d) by lia|].
      apply (states_next st (fun _ => _)); [done|]. apply (up_state _ _ _ Hu').
  - destruct (turn_tick k _ heard AD_RX_EXPIRED _ Ht H1 Hu) as (c' & Hu' & Hc'). cbn [tick] in Hu', Hc'.
    destruct (Z.eqb_spec (c + 3 + g - n) 1) as [E|E]; cbn [fst snd] in Hu', Hc'; right.
    + right. exists a, (n + 1), c'. split; [done|]. split; [lia|]. split; [lia|]. split; [lia|].
      apply (states_next st (fun j => if j <? a then _ else if j <? n + 1 then _ else _)).
      { intros j Hle. unfold st. rewrite Hj by done. destruct (Z.ltb_spec (Z.of_nat j) (n + 1)); [|lia]. done. }
      rewrite En, Z.ltb_irrefl. destruct (Z.ltb_spec (n + 1) a); [lia|]. apply (up_state _ _ _ Hu').
    + rewrite (Hc' ltac:(auto)) in Hu'. left. exists a. split; [|split; [lia|split; [lia|split; [lia|]]]].
      { by replace (c + 3 + (g + d) - (n + 1)) with (c + 3 + g - n - 1 + d) by lia. }
      apply (states_next st (fun j => if j <? a then _ else _)); [done|].
      rewrite En. destruct (Z.ltb_spec (n + 1) a); [lia|]. apply (up_state _ _ _ Hu').
  - destruct (turn_tick k _ heard AD_RX_DEFAULTED _ Ht I Hu) as (c' & Hu' & _). right; right. exists a, b, c'.
    split; [done|]. split; [lia|]. split; [lia|]. split; [lia|].
    apply (states_next st (fun j => if j <? a then _ else if j <? b then _ else _)); [done|].
    rewrite En. destruct (Z.ltb_spec (n + 1) a), (Z.ltb_spec (n + 1) b); try lia. apply (up_state _ _ _ Hu').
Qed.

Lemma silent_turns_ok heard p c k :
  1 <= c -> up_at p AD_RX_CURRENT c -> rx_truth le timer_max heard p ->
  silent_phase c p k /\ rx_truth le timer_max heard (silent_turns k p).
Proof.
  intros Hc Hu Ht. induction k as [|k [IH1 IH2]].
  - split; [|done]. left. cbn [silent_turns ticks_given]. replace (c + 0 - Z.of_nat 0) with c by lia. split_and!; [done|lia|].
    intros j Hj. replace j with O by lia. apply (up_state _ _ _ Hu).
  - split; [by eapply silent_phase_next|]. cbn [silent_turns]. apply turn_truth. by right.
Qed.

(** Once the ticks are used up the port is defaulted, and has been what it was. *)
Lemma silent_states heard p c extra :
  1 <= c -> up_at p AD_RX_CURRENT c -> rx_truth le timer_max heard p -> (forall k, ticks_given k p <= extra) ->
  exists a b, c <= a /\ a + 3 <= b <= c + 3 + extra /\ forall k,
    sm_rx_state (sm (silent_turns k p)) =
    if Z.of_nat k <? a then AD_RX_CURRENT else if Z.of_nat k <? b then AD_RX_EXPIRED else AD_RX_DEFAULTED.
Proof.
  intros Hc Hu Ht He. pose proof (He O) as H0. cbn in H0.
  assert (forall k, c + 3 + extra <= Z.of_nat k -> exists a b, c <= a /\ a + 3 <= b <= c + 3 + extra /\ forall j, (j <= k)%nat ->
    sm_rx_state (sm (silent_turns j p)) = if Z.of_nat j <? a then AD_RX_CURRENT else if Z.of_nat j <? b then AD_RX_EXPIRED else AD_RX_DEFAULTED) as Hend.
  { intros k Hk. pose proof (He k). destruct (silent_turns_ok heard p c k Hc Hu Ht) as [[(_ & ? & _)|[(a & _ & ? & _)|(a & b & x & _ & Ha & Hb & _ & Hj)]] _];
      [lia..|]. exists a, b. split; [lia|]. split; [lia|done]. }
  destruct (Hend (Z.to_nat (c + 3 + extra)) ltac:(lia)) as (a & b & Ha & Hb & Hj). exists a, b. split; [done|]. split; [done|].
  intros k. destruct (Nat.le_gt_cases k (Z.to_nat (c + 3 + extra))) as [Hk|Hk]; [by apply Hj|].
  destruct (Hend k ltac:(lia)) as (a' & b' & Ha' & Hb' & Hj'). rewrite Hj' by lia.
  destruct (Z.ltb_spec (Z.of_nat k) a), (Z.ltb_spec (Z.of_nat k) a'), (Z.ltb_spec (Z.of_nat k) b), (Z.ltb_spec (Z.of_nat k) b'); lia || done.
Qed.

(** C23: a partner that falls silent is noticed.  Let a port be up and current
    with [c] ticks left, its bits agreeing with its receive machine, and let the
    choice of an aggregator in each turn of the daemon write what
    [selection_writes] allows, which includes one more tick for a port that
    joins or makes a trunk, [extra] of them at most in all.  Then there are
    turns [a] and [b] with [c <= a] and [a + 3 <= b <= c + 3 + extra]: before
    [a] the port is current; from [a] until [b] it shows itself expired, without
    a match and without trust in the synchronisation of the partner; from [b] on
    it is defaulted and uses the administrative values for good.  When the
    choice gives no tick, [a] is [c] and [b] is [c + 3]. *)
Theorem silent_partner_noticed heard p c extra :
  1 <= c -> up_at p AD_RX_CURRENT c -> rx_truth le timer_max heard p -> (forall k, ticks_given k p <= extra) ->
  exists a b, c <= a /\ a + 3 <= b <= c + 3 + extra /\ forall k, let q := silent_turns k p in
  (Z.of_nat k < a -> sm_rx_state (sm q) = AD_RX_CURRENT /\ expired q = false) /\
  (a <= Z.of_nat k < b ->
     sm_rx_state (sm q) = AD_RX_EXPIRED /\ expired q = true /\ on (sm_vars (sm q)) AD_PORT_MATCHED = false /\
     on (info_port_state (partner_oper (partner q))) AD_STATE_SYNCHRONIZATION = false) /\
  (b <= Z.of_nat k ->
     sm_rx_state (sm q) = AD_RX_DEFAULTED /\ defaulted q = true /\ expired q = false /\
     partner_oper (partner q) = partner_admin (partner q)).
Proof.
  intros Hc Hu Ht He. destruct (silent_states heard p c extra Hc Hu Ht He) as (a & b & Ha & Hb & Hs). exists a, b.
  split; [done|]. split; [done|]. intros k q. destruct (silent_turns_ok heard p c k Hc Hu Ht) as [_ Hq]. fold q in Hq.
  specialize (Hs k). fold q in Hs. revert Hs Hq. unfold rx_truth.
  destruct (Z.ltb_spec (Z.of_nat k) a); [|destruct (Z.ltb_spec (Z.of_nat k) b)]; intros ->; intuition (lia || congruence).
Qed.

End silence.

(** ** The rate of the packets *)

Section rate.
Implicit Types (p : lacp_port).

(** Turns of the periodic and the transmit machine, and the packets sent. *)
Definition periodic_turn p : lacp_port := tx_port true (periodic_port p).
Fixpoint packets_sent (k : nat) p : Z :=
  match k with
  | O => 0
  | S k => (if tx_due (periodic_port p) then 1 else 0) + packets_sent k (periodic_turn p)
  end.

(** One of the two sides is active. *)
Definition active p : bool :=
  on (actor_oper_port_state (actor p)) AD_STATE_LACP_ACTIVITY || on (info_port_state (partner_oper (partner p))) AD_STATE_LACP_ACTIVITY.

(** The protocol runs on the port. *)
Definition speaking p : bool :=
  negb (begins p) && on (sm_vars (sm p)) AD_PORT_LACP_ENABLED && negb (is_enabled (actor p) =? 0) && active p.

(** Ticks between two packets that the partner asks for, and the state of the
    periodic machine that goes with it. *)
Definition rate p : Z := if wants_fast p then fast_ticks else slow_ticks.
Definition rate_state p : periodic_states_t := if wants_fast p then AD_FAST_PERIODIC else AD_SLOW_PERIODIC.

(** The machine is in step with the partner, [c] ticks before the next
    packet. *)
Definition in_step p (c : Z) : Prop :=
  sm_periodic_state (sm p) = rate_state p /\ sm_periodic_timer_counter (sm p) = c /\ 1 <= c <= rate p /\ ntt (sm p) = false.

(** A turn changes only the machines' own variables. *)
Lemma periodic_turn_port p :
  actor (periodic_turn p) = actor p /\ partner (periodic_turn p) = partner p /\ sm_vars (sm (periodic_turn p)) = sm_vars (sm p).
Proof.
  unfold periodic_turn, tx_port, periodic_port, periodic_next. cbv zeta. cbn. split_and!; [done|done|]. by repeat case_match.
Qed.

Lemma turn_same p :
  speaking (periodic_turn p) = speaking p /\ rate (periodic_turn p) = rate p /\ rate_state (periodic_turn p) = rate_state p.
Proof.
  destruct (periodic_turn_port p) as (E1 & E2 & E3). unfold speaking, begins, active, rate, rate_state, wants_fast.
  by rewrite E1, E2, E3.
Qed.

Lemma speaking_guard p : speaking p = true ->
  on (sm_vars (sm p)) AD_PORT_LACP_ENABLED = true /\
  on (sm_vars (sm p)) AD_PORT_BEGIN || negb (on (sm_vars (sm p)) AD_PORT_LACP_ENABLED) || (is_enabled (actor p) =? 0)
     || (negb (on (actor_oper_port_state (actor p)) AD_STATE_LACP_ACTIVITY)
         && negb (on (info_port_state (partner_oper (partner p))) AD_STATE_LACP_ACTIVITY)) = false.
Proof.
  unfold speaking, begins, active. destruct (on (sm_vars (sm p)) AD_PORT_BEGIN), (on (sm_vars (sm p)) AD_PORT_LACP_ENABLED),
    (is_enabled (actor p) =? 0), (on (actor_oper_port_state _) _), (on (info_port_state _) _); done.
Qed.

(** A turn in step: the counter runs, or a packet is sent and it starts
    again. *)
Lemma in_step_turn p c : speaking p = true -> in_step p c ->
  tx_due (periodic_port p) = (c =? 1) /\ in_step (periodic_turn p) (if c =? 1 then rate p else c - 1).
Proof.
  intros Hs (H1 & H2 & H3 & H4). destruct (speaking_guard p Hs) as [Hl Hg]. destruct (turn_same p) as (_ & Er & Es).
  assert (sm (periodic_port p) = with_periodic (with_ntt (sm p) (c =? 1)) (rate_state p) (if c =? 1 then rate p else c - 1)) as E.
  { unfold periodic_port, periodic_next. cbv zeta. rewrite Hg, H2. destruct (Z.eqb_spec c 0); [lia|]. cbn [negb sm].
    unfold rate_state, rate in *. rewrite H1. destruct (wants_fast p).
    - change fast_ticks with 1 in *. assert (c = 1) as -> by lia. cbn. by destruct (sm p).
    - cbn. destruct (Z.eqb_spec (c - 1) 0), (Z.eqb_spec c 1); try lia; cbn; destruct (sm p); cbn in *; by subst. }
  assert (tx_due (periodic_port p) = (c =? 1)) as Ed.
  { unfold tx_due. rewrite E. cbn. rewrite Hl. by rewrite andb_true_r. }
  split; [done|]. unfold in_step. rewrite Er, Es. unfold periodic_turn, tx_port. rewrite Ed, E.
  destruct (Z.eqb_spec c 1); cbn; split_and!; try done; unfold rate, slow_ticks, fast_ticks in *; lia.
Qed.

(** Where the protocol does not run nothing is sent. *)
Lemma quiet_turn p : speaking p = false -> ntt (sm p) = false ->
  tx_due (periodic_port p) = false /\ ntt (sm (periodic_turn p)) = false.
Proof.
  intros Hs Hn. assert (ntt (sm (periodic_port p)) = false) as E.
  { unfold periodic_port, periodic_next. cbv zeta. rewrite <- Hn. unfold speaking, begins, active in Hs.
    destruct (on (sm_vars (sm p)) AD_PORT_BEGIN), (on (sm_vars (sm p)) AD_PORT_LACP_ENABLED), (is_enabled (actor p) =? 0),
      (on (actor_oper_port_state _) _), (on (info_port_state _) _); try done; cbn; by case_match. }
  unfold tx_due, periodic_turn, tx_port. unfold tx_due. rewrite E. by split.
Qed.

(** packets are sent at the rate that the partner asks for. On a port where
    the protocol runs, in step with its partner and [c] ticks before the next
    packet, [k] turns send [(k + rate - c) / rate] packets: one per turn when
    the partner asks for fast packets, else one in 27 turns. Where the
    protocol does not run none are sent. *)
Theorem packets_at_rate k p :
  (forall c, speaking p = true -> in_step p c -> packets_sent k p = (Z.of_nat k + rate p - c) / rate p) /\
  (speaking p = false -> ntt (sm p) = false -> packets_sent k p = 0) /\
  rate p = (if wants_fast p then 1 else 27).
Proof.
  split_and!; [| |by unfold rate; destruct (wants_fast p)].
  - revert p. induction k as [|k IH]; intros p c Hs Hc.
    + destruct Hc as (_ & _ & Hc & _). cbn [packets_sent]. rewrite Z.div_small; lia.
    + destruct (in_step_turn p c Hs Hc) as [Hd Hc']. destruct (turn_same p) as (Es & Er & _). cbn [packets_sent].
      rewrite (IH _ _ (eq_trans Es Hs) Hc'), Er, Hd. destruct Hc as (_ & _ & Hc & _). destruct (Z.eqb_spec c 1) as [->|].
      * replace (Z.of_nat (S k) + rate p - 1) with (Z.of_nat k + 1 * rate p) by lia.
        replace (Z.of_nat k + rate p - rate p) with (Z.of_nat k) by lia. rewrite Z.div_add by lia. lia.
      * rewrite Z.add_0_l. f_equal. lia.
  - revert p. induction k as [|k IH]; intros p Hs Hn; [done|]. cbn [packets_sent].
    destruct (quiet_turn p Hs Hn) as [-> Hn']. destruct (turn_same p) as (Es & _ & _). by rewrite IH; [|rewrite Es|].
Qed.

End rate.

(** ** Witnesses: a port that starts, waits, and hears a partner *)

Definition demo_lacp_port : Z := npd_netif_eth_index 0 0 0 3.

Definition demo_lacp_env : lacp_env := {|
  little_endian := true; npd_vlan_port_pvid_get := fun _ => Some 1; eth_port_trunkid := fun _ => None;
  eth_port_sw_speed_get := fun _ => 1000; eth_port_sw_duplex_get := fun _ => ETH_ATTR_DUPLEX_FULL;
  eth_port_link := fun _ => Some ETH_ATTR_LINKUP; npd_trunk_master_port_get := fun _ => None;
  eth_port_array_index_from_ifindex := fun n => Z.land (Z.shiftr n 14) 0xff; npd_system_get_basemac := [0; 1; 2; 3; 4; 5]; npd_lacp_cfg := Some 1 |}.

Definition demo_pdu : lacpdu_t := Lacpdu 1 0x80 [9; 8; 7; 6; 5; 4] 0x1100 0x100 0x100 0x5 0xffff [0; 0; 0; 0; 0; 0] 0 0xff00 0x100 0 0.

Lemma selection_idle p : selection_writes p p.
Proof. split; try done. by left. Qed.

Definition demo_idle : nat -> lacp_port -> lacp_port := fun _ p => p.

(** The choice in the sixth turn makes the port join a trunk. *)
Definition joined_late (p : lacp_port) : lacp_port :=
  LPort (actor p) (partner p) (with_rx (sm p) (sm_rx_state (sm p)) (u16 (sm_rx_timer_counter (sm p) + 1))).
Definition demo_joining (k : nat) (p : lacp_port) : lacp_port := if Nat.eqb k 5 then joined_late p else p.
Lemma demo_joining_writes k p : selection_writes p (demo_joining k p).
Proof.
  unfold demo_joining. destruct (Nat.eqb k 5); [|apply selection_idle].
  split; unfold port_keys, expired, defaulted, begins; cbn; first [done|by right].
Qed.
Lemma demo_one_tick k p : ticks_given true demo_joining (fun _ => true) k p <= 1.
Proof.
  assert (ticks_given true demo_joining (fun _ => true) k p <= if Nat.ltb 5 k then 1 else 0) as H;
    [|destruct (Nat.ltb 5 k); lia].
  induction k as [|k IH]; [done|]. cbn [ticks_given]. unfold tick_given, demo_joining at 2.
  destruct (Nat.eqb_spec k 5) as [->|]; cbv zeta.
  - cbn [Nat.ltb Nat.leb] in IH |- *. destruct (_ =? _); lia.
  - rewrite Z.eqb_refl. destruct (Nat.ltb_spec 5 k), (Nat.ltb_spec 5 (S k)); lia.
Qed.

Definition demo_first : lacp_port := initial_port demo_lacp_env false 1 true ETH_ATTR_LINKUP demo_lacp_port.
Definition demo_waiting : lacp_port := silent_turns true demo_idle (fun _ => true) 3 demo_first.
Definition demo_current : lacp_port := rx_stored true (Some demo_pdu) demo_waiting.

Lemma demo_ran : port_run true demo_first [demo_pdu] demo_current.
Proof.
  apply run_packet. unfold demo_waiting. cbn [silent_turns].
  do 3 (eapply run_turn; [|apply selection_idle]). apply run_start.
Qed.

Lemma demo_truth : rx_truth true timer_max [demo_pdu] demo_current.
Proof. destruct (run_inv true demo_first [demo_pdu] demo_current eq_refl demo_ran) as [H|H]; [|exact H].
  assert (begins demo_current = false) as E by (vm_compute; reflexivity). rewrite E in H. discriminate H.
Qed.

Lemma port_reports_truth_witness :
  begins demo_current = false /\ sm_rx_state (sm demo_current) = AD_RX_CURRENT /\ rx_truth true timer_max [demo_pdu] demo_current.
Proof.
  split_and!; [vm_compute; reflexivity|vm_compute; reflexivity|].
  apply (port_reports_truth demo_lacp_env false 1 true ETH_ATTR_LINKUP demo_lacp_port); [exact demo_ran|vm_compute; reflexivity].
Defined.

Lemma silent_partner_noticed_witness :
  up_at demo_current AD_RX_CURRENT 90 /\
  sm_rx_state (sm (silent_turns true demo_joining (fun _ => true) 89 demo_current)) = AD_RX_CURRENT /\
  sm_rx_state (sm (silent_turns true demo_joining (fun _ => true) 94 demo_current)) = AD_RX_DEFAULTED.
Proof.
  assert (up_at demo_current AD_RX_CURRENT 90) as Hu by (split; vm_compute; (reflexivity || discriminate)).
  destruct (silent_partner_noticed true demo_joining (fun _ => true) demo_joining_writes [demo_pdu] demo_current 90 1 ltac:(lia) Hu demo_truth
    (fun k => demo_one_tick k demo_current)) as (a & b & Ha & Hb & H).
  split_and!; [exact Hu| |].
  - apply (H 89%nat). lia.
  - apply (H 94%nat). lia.
Defined.

Lemma packets_at_rate_witness :
  let p := turn true demo_idle (fun _ => true) 0 demo_current in
  speaking p = true /\ in_step p 27 /\ packets_sent 54 p = 2.
Proof.
  assert (in_step (turn true demo_idle (fun _ => true) 0 demo_current) 27) as Hs
    by (split_and!; vm_compute; (reflexivity || discriminate)).
  split_and!; [vm_compute; reflexivity|exact Hs|].
  rewrite (proj1 (packets_at_rate 54 (turn true demo_idle (fun _ => true) 0 demo_current)) 27); [|vm_compute; reflexivity|exact Hs].
  vm_compute. reflexivity.
Defined.
