(* ===== verification/LacpExchange.v ===== *)
(** * Link aggregation: two ports that talk to each other

    A packet built by one port ([__update_lacpdu_from_port]) is received by
    another ([dot3ad_rx_machine]): what the receiver knows afterwards, how
    two ports come to agree, and what a match is worth. *)

From Stdlib Require Import ZArith Lia Bool.
From stdpp Require Import base decidable list gmap.
From S2P Require Import Prelude NetifIndex Database Chains DatabaseHash DatabaseSeq KeyStore Lacp LacpPorts.

Open Scope Z_scope.

(** ** Byte order *)

Lemma bswap16_bit x j : 0 <= j ->
  Z.testbit (bswap16 x) j = if j <? 8 then Z.testbit x (j + 8) else (j <? 16) && Z.testbit x (j - 8).
Proof.
  intros Hj. unfold bswap16. change 0xff with (Z.ones 8).
  rewrite Z.lor_spec, Z.shiftl_spec, !Z.land_spec, Z.shiftr_spec, !Z.testbit_ones by lia.
  destruct (Z.ltb_spec j 8); [rewrite (Z.testbit_neg_r x (j - 8)) by lia|]; bit_cases; by rewrite ?andb_true_r, ?andb_false_r, ?orb_false_r.
Qed.

Lemma bswap16_bswap16 x : 0 <= x < 65536 -> bswap16 (bswap16 x) = x.
Proof.
  intros Hx. apply Z.bits_inj'. intros j Hj. rewrite bswap16_bit by lia. destruct (Z.ltb_spec j 8).
  - rewrite bswap16_bit by lia. destruct (Z.ltb_spec (j + 8) 8); [lia|]. destruct (Z.ltb_spec (j + 8) 16); [|lia]. cbn.
    f_equal. lia.
  - destruct (Z.ltb_spec j 16).
    + rewrite bswap16_bit by lia. destruct (Z.ltb_spec (j - 8) 8); [|lia]. cbn. f_equal. lia.
    + symmetry. apply (testbit_high 16); lia.
Qed.

Lemma ntohs_htons le x : 0 <= x < 65536 -> ntohs le (htons le x) = x.
Proof. intros H. destruct le; [|done]. by apply bswap16_bswap16. Qed.

(** ** What a packet tells *)

Section exchange.
Context (le : bool).
Implicit Types (p q : lacp_port).

(** The packet a port sends now. *)
Definition wire p : lacpdu_t := __update_lacpdu_from_port le p.

(** The port after it heard another one. *)
Definition hears p q : lacp_port := rx_stored le (Some (wire q)) p.

(** The receive machine takes packets. *)
Definition listening p : Prop :=
  begins p = false /\ is_enabled (actor p) <> 0 /\ sm_rx_state (sm p) ∈ [AD_RX_EXPIRED; AD_RX_DEFAULTED; AD_RX_CURRENT].

(** The fields of the actor have their widths. *)
Definition actor_widths (a : lacpport_actor) : Prop :=
  (0 <= actor_system_priority a < 65536 /\ 0 <= actor_oper_port_key a < 65536 /\ 0 <= actor_port_number a < 65536 /\
   0 <= actor_port_priority a < 65536) /\ 0 <= actor_oper_port_state a < 256.

#[export] Instance actor_widths_dec a : Decision (actor_widths a).
Proof. unfold actor_widths. apply _. Defined.

(** Who the actor is: the fields that a partner compares. *)
Definition identity (a : lacpport_actor) : list Z * Z * Z * Z * Z :=
  (actor_system a, actor_system_priority a, actor_oper_port_key a, actor_port_number a, actor_port_priority a).
Definition info_identity (i : partner_info) : list Z * Z * Z * Z * Z :=
  (info_system i, info_system_priority i, info_key i, info_port_number i, info_port_priority i).

(** The bits that are compared: activity, timeout and aggregation; and
    synchronisation. *)
Definition bits_told : Z := Z.lor AD_STATE_LACP_ACTIVITY (Z.lor AD_STATE_LACP_TIMEOUT AD_STATE_AGGREGATION).

Definition matches p : bool := on (sm_vars (sm p)) AD_PORT_MATCHED.

(** [p] knows who [q] is and how it speaks, and whether it is synchronised. *)
Definition knows p q : Prop :=
  info_identity (partner_oper (partner p)) = identity (actor q) /\
  Z.land (info_port_state (partner_oper (partner p))) bits_told = Z.land (actor_oper_port_state (actor q)) bits_told.
Definition knows_sync p q : Prop :=
  Z.land (info_port_state (partner_oper (partner p))) AD_STATE_SYNCHRONIZATION
  = Z.land (actor_oper_port_state (actor q)) AD_STATE_SYNCHRONIZATION.

(** The same actor, but for what it says of the receive machine. *)
Definition same_actor p q : Prop :=
  identity (actor p) = identity (actor q) /\
  Z.land (actor_oper_port_state (actor p)) (Z.lor bits_told AD_STATE_SYNCHRONIZATION)
  = Z.land (actor_oper_port_state (actor q)) (Z.lor bits_told AD_STATE_SYNCHRONIZATION).

(** A smaller mask agrees too. *)
Lemma land_sub x y m m' : Z.land m m' = m' -> Z.land x m = Z.land y m -> Z.land x m' = Z.land y m'.
Proof. intros Hm H. by rewrite <- Hm, !Z.land_assoc, H. Qed.

Lemma knows_same p q q' : same_actor q q' -> knows p q -> knows p q'.
Proof. intros [E1 E2] [H1 H2]. split; [congruence|]. rewrite H2. by apply (land_sub _ _ _ bits_told) in E2. Qed.
Lemma knows_sync_same p q q' : same_actor q q' -> knows_sync p q -> knows_sync p q'.
Proof. intros [E1 E2] H. unfold knows_sync. rewrite H. by apply (land_sub _ _ _ AD_STATE_SYNCHRONIZATION) in E2. Qed.

(** The receiver reads the identity that the sender wrote. *)
Lemma wire_info q : actor_widths (actor q) ->
  info_identity (pdu_info le (wire q)) = identity (actor q) /\ info_port_state (pdu_info le (wire q)) = actor_oper_port_state (actor q).
Proof.
  intros [(H1 & H2 & H3 & H4) H5]. unfold info_identity, identity, pdu_info, wire, __update_lacpdu_from_port. cbn.
  by rewrite !ntohs_htons.
Qed.

(** A packet that is accepted. *)
Definition accepted pdu p : lacp_port :=
  let p := recorded le pdu (LPort (actor p) (partner p) (with_rx (sm p) AD_RX_CURRENT 0)) in
  without_expired (LPort (actor p) (partner p) (with_rx (sm p) AD_RX_CURRENT
    (__dot3ad_timer_to_ticks AD_CURRENT_WHILE_TIMER (Z.land (actor_oper_port_state (actor p)) AD_STATE_LACP_TIMEOUT)))).

Lemma rx_accepted pdu p :
  listening p -> pdu_actor_system pdu <> actor_system (actor p) -> rx_stored le (Some pdu) p = accepted pdu p.
Proof.
  intros (Hb & He & Hs) Hne. unfold rx_stored, rx_port, rx_acts. unfold begins in Hb.
  assert (rx_next (Some pdu) p = with_rx (sm p) AD_RX_CURRENT 0) as ->.
  { unfold rx_next. cbv zeta. rewrite Hb. destruct (Z.eqb_spec (is_enabled (actor p)) 0); [done|]. cbn [negb andb].
    rewrite bool_decide_eq_true_2 by by eexists. by rewrite bool_decide_eq_true_2. }
  rewrite (bool_decide_eq_true_2 (is_Some _)) by by eexists. rewrite orb_true_r. unfold rx_enter. cbn [sm with_rx sm_rx_state mbind option_bind].
  unfold same_mac. rewrite bool_decide_eq_false_2; [done|]. by cbn.
Qed.

(** *** The state that is recorded *)

Definition record_state (state : Z) (is_matched : bool) : Z :=
  let st := Z.land state 0xff in
  if is_matched && on state AD_STATE_SYNCHRONIZATION then set st AD_STATE_SYNCHRONIZATION else clr st AD_STATE_SYNCHRONIZATION.

Lemma land_set x a m : Z.land a m = 0 -> Z.land (set x a) m = Z.land x m.
Proof. intros H. unfold set. by rewrite Z.land_lor_distr_l, H, Z.lor_0_r. Qed.
Lemma land_clr x a m : Z.land a m = 0 -> Z.land (clr x a) m = Z.land x m.
Proof.
  intros H. unfold clr. apply Z.bits_inj'. intros j Hj. rewrite !Z.land_spec, Z.ldiff_spec.
  assert (Z.testbit (Z.land a m) j = false) as Hb by (rewrite H; apply Z.bits_0). rewrite Z.land_spec in Hb.
  by destruct (Z.testbit x j), (Z.testbit a j), (Z.testbit m j).
Qed.
Lemma land_low x m : Z.land 0xff m = m -> Z.land (Z.land x 0xff) m = Z.land x m.
Proof. intros H. by rewrite <- Z.land_assoc, H. Qed.

Lemma sync_bit x : Z.land x AD_STATE_SYNCHRONIZATION = if on x AD_STATE_SYNCHRONIZATION then AD_STATE_SYNCHRONIZATION else 0.
Proof.
  unfold on. destruct (Z.eqb_spec (Z.land x AD_STATE_SYNCHRONIZATION) 0) as [E|E]; [done|]. cbn [negb].
  change AD_STATE_SYNCHRONIZATION with (2 ^ 3) in *. apply Z.bits_inj'. intros j Hj. rewrite Z.land_spec, Z.pow2_bits_eqb by lia.
  pose proof (land_bit x 3 ltac:(lia)) as Hb. destruct (Z.eqb_spec (Z.land x (2 ^ 3)) 0); [done|].
  destruct (Z.eqb_spec 3 j) as [<-|]; [|by rewrite andb_false_r]. rewrite andb_true_r. by destruct (Z.testbit x 3).
Qed.

Lemma record_state_told state m : Z.land (record_state state m) bits_told = Z.land state bits_told.
Proof.
  unfold record_state. cbv zeta. destruct (m && _); [rewrite land_set by done|rewrite land_clr by done]; by apply land_low.
Qed.

Lemma record_state_sync state :
  Z.land (record_state state true) AD_STATE_SYNCHRONIZATION = Z.land state AD_STATE_SYNCHRONIZATION.
Proof.
  rewrite !sync_bit. unfold record_state. cbn [andb]. destruct (on state AD_STATE_SYNCHRONIZATION) eqn:E.
  - by rewrite on_set, orb_true_r.
  - by rewrite on_clr_in.
Qed.

Lemma recorded_fields pdu p :
  partner (recorded le pdu p) = with_oper (partner p)
    (with_info_state (pdu_info le pdu) (record_state (pdu_actor_state pdu) (matches p))) /\
  (matches p = true -> on (sm_vars (sm (recorded le pdu p))) AD_PORT_MATCHED = true) /\
  (knows_us le pdu (actor p) && same_bit (pdu_partner_state pdu) (actor_oper_port_state (actor p)) AD_STATE_AGGREGATION = true ->
   on (sm_vars (sm (recorded le pdu p))) AD_PORT_MATCHED = true) /\
  begins (recorded le pdu p) = begins p.
Proof.
  set (p1 := __update_ntt le pdu (__update_selected le pdu p)).
  assert (partner p1 = partner p /\ actor p1 = actor p /\ matches p1 = matches p) as (Ep & Ea & Em).
  { unfold p1, __update_ntt, __update_selected, matches. cbv zeta. repeat (case_match; cbn [partner actor sm]); cbn; by flags. }
  pose proof (rk_begin _ _ (recorded_keeps le pdu p)) as Hb. split_and!; [| | |exact Hb]; unfold recorded; fold p1.
  - unfold __choose_matched. destruct (_ || _); cbn [partner __record_pdu]; unfold record_state; cbv zeta; rewrite Ep; fold (matches p1);
      by rewrite Em.
  - intros Hm. rewrite <- Em in Hm. unfold __choose_matched. destruct (_ || _); cbn; flags; [done|exact Hm].
  - intros Hk. unfold __choose_matched. cbn [__record_pdu actor]. rewrite Ea.
    replace (knows_us le pdu (with_oper_state (actor p) (clr (actor_oper_port_state (actor p)) AD_STATE_DEFAULTED)))
      with (knows_us le pdu (actor p)) by done.
    unfold same_bit in *. cbn [with_oper_state actor_oper_port_state]. rewrite land_clr by done. rewrite Hk. cbn. by flags.
Qed.

(** *** One packet *)

(** Who the sender thinks the receiver is, read by the receiver. *)
Lemma wire_knows_us p q : actor_widths (actor p) -> knows q p -> knows_us le (wire q) (actor p) = true.
Proof.
  intros [(H1 & H2 & H3 & H4) _] [Hi _]. unfold info_identity, identity in Hi. injection Hi as E1 E2 E3 E4 E5.
  unfold knows_us, wire, __update_lacpdu_from_port, same_mac. cbn. rewrite E1, E2, E3, E4, E5, !ntohs_htons by done.
  by rewrite !Z.eqb_refl, bool_decide_eq_true_2.
Qed.

Lemma knows_agg p q : knows q p ->
  same_bit (pdu_partner_state (wire q)) (actor_oper_port_state (actor p)) AD_STATE_AGGREGATION = true.
Proof. intros [_ H]. apply Z.eqb_eq. cbn. by apply (land_sub _ _ bits_told AD_STATE_AGGREGATION). Qed.

Record heard_from p q p' : Prop := {
  hf_listening : listening p';
  hf_current : sm_rx_state (sm p') = AD_RX_CURRENT;
  hf_actor : same_actor p p';
  hf_widths : actor_widths (actor p) -> actor_widths (actor p');
  hf_system : actor_system (actor p') = actor_system (actor p);
  hf_knows : knows p' q;
  hf_sync : matches p = true -> knows_sync p' q;
  hf_kept : matches p = true -> matches p' = true;
  hf_matched : actor_widths (actor p) -> knows q p -> matches p' = true
}.

Lemma clr_range x m : 0 <= x < 256 -> 0 <= clr x m < 256.
Proof.
  intros H. change 256 with (2 ^ 8) in *. apply range_of_testbit; [lia|apply Z.ldiff_nonneg; lia|].
  intros i Hi. unfold clr. rewrite Z.ldiff_spec, (testbit_high 8) by lia. done.
Qed.

Lemma hears_ok p q :
  listening p -> actor_widths (actor q) -> actor_system (actor q) <> actor_system (actor p) -> heard_from p q (hears p q).
Proof.
  intros Hl Hw Hne. unfold hears. rewrite (rx_accepted (wire q) p Hl Hne). destruct Hl as (Hb & He & Hs). unfold accepted. cbv zeta.
  set (p0 := LPort (actor p) (partner p) (with_rx (sm p) AD_RX_CURRENT 0)).
  destruct (recorded_fields (wire q) p0) as (Ep & Hm & Hk & Eb). pose proof (recorded_actor le (wire q) p0) as Ea.
  destruct (wire_info q Hw) as [Ei Es].
  split; unfold listening, begins, matches, knows, knows_sync in *; cbn; rewrite ?Ea, ?Ep; cbn.
  - split_and!; [by rewrite Eb|done|by repeat constructor].
  - done.
  - split; [done|]. cbn. by rewrite !land_clr.
  - intros [H1 H2]. split; [done|]. cbn. by apply clr_range, clr_range.
  - done.
  - split; [exact Ei|]. apply record_state_told.
  - intros ->. apply record_state_sync.
  - exact Hm.
  - intros Hwp Hkn. apply Hk. cbn [p0 actor]. by rewrite (wire_knows_us p q Hwp Hkn), (knows_agg p q Hkn).
Qed.

(** *** An exchange *)

(** Each in turn hears the other. *)
Fixpoint exchange (k : nat) p q : lacp_port * lacp_port :=
  match k with O => (p, q) | S k => let q' := hears q p in exchange k (hears p q') q' end.

(** Two ports of different systems that take packets. *)
Definition linked p q : Prop :=
  (listening p /\ actor_widths (actor p)) /\ (listening q /\ actor_widths (actor q)) /\ actor_system (actor p) <> actor_system (actor q).

(** Both know all of each other and are matched. *)
Definition agreed p q : Prop :=
  (knows p q /\ knows_sync p q /\ matches p = true /\ sm_rx_state (sm p) = AD_RX_CURRENT) /\
  (knows q p /\ knows_sync q p /\ matches q = true /\ sm_rx_state (sm q) = AD_RX_CURRENT).

Lemma linked_hears p q : linked p q -> linked (hears p q) q /\ heard_from p q (hears p q).
Proof.
  intros ((Hp & Wp) & (Hq & Wq) & Hne). pose proof (hears_ok p q Hp Wq (not_eq_sym Hne)) as H. split; [|done].
  destruct H. split_and!; [done|by auto|done|done|congruence].
Qed.

Lemma linked_sym p q : linked p q -> linked q p.
Proof. intros (? & ? & ?). split_and!; [apply H0|apply H0|apply H|apply H|done]. Qed.

(** The packet of a partner that knows the receiver asks for no answer. *)
Lemma no_reply p q : actor_widths (actor p) -> knows q p -> knows_sync q p -> __update_ntt le (wire q) p = p.
Proof.
  intros Hw Hk Hs. unfold __update_ntt. cbv zeta. rewrite (wire_knows_us p q Hw Hk). destruct Hk as [_ Hb].
  unfold same_bit. cbn [negb orb wire __update_lacpdu_from_port pdu_partner_state].
  rewrite !(land_sub _ _ bits_told _ eq_refl Hb), Hs, !Z.eqb_refl. done.
Qed.

Lemma agreed_sym p q : agreed p q -> agreed q p.
Proof. by intros [? ?]. Qed.

(** An agreement lasts. *)
Lemma agreed_hears p q : linked p q -> agreed p q -> agreed (hears p q) q.
Proof.
  intros Hl [(K1 & S1 & M1 & C1) (K2 & S2 & M2 & C2)]. destruct (linked_hears p q Hl) as [_ []].
  split; (split_and!; auto); [by eapply knows_same|by eapply knows_sync_same].
Qed.

Lemma exchange_settled k p q : linked p q -> agreed p q -> linked (exchange k p q).1 (exchange k p q).2 /\ agreed (exchange k p q).1 (exchange k p q).2.
Proof.
  revert p q. induction k as [|k IH]; intros p q Hl Ha; [by split|]. cbn [exchange].
  apply linked_sym in Hl. pose proof (agreed_hears q p Hl (agreed_sym _ _ Ha)) as Ha'. destruct (linked_hears q p Hl) as [Hl' _].
  apply linked_sym in Hl'. apply agreed_sym in Ha'. pose proof (agreed_hears _ _ Hl' Ha') as Ha''.
  destruct (linked_hears _ _ Hl') as [Hl'' _]. by apply IH.
Qed.

Lemma exchange_add j k p q : exchange (j + k) p q = exchange k (exchange j p q).1 (exchange j p q).2.
Proof. revert p q. induction j as [|j IH]; intros p q; [done|]. cbn [exchange Nat.add]. apply IH. Qed.

(** Three rounds lead to an agreement. *)
Lemma three_rounds p q : linked p q ->
  linked (exchange 3 p q).1 (exchange 3 p q).2 /\ agreed (exchange 3 p q).1 (exchange 3 p q).2.
Proof.
  intros L0. cbn [exchange fst snd].
  destruct (linked_hears q p (linked_sym _ _ L0)) as [L1 H1]. set (q1 := hears q p) in *. apply linked_sym in L1.
  destruct (linked_hears p q1 L1) as [L2 H2]. set (p1 := hears p q1) in *.
  destruct (linked_hears q1 p1 (linked_sym _ _ L2)) as [L3 H3]. set (q2 := hears q1 p1) in *. apply linked_sym in L3.
  destruct (linked_hears p1 q2 L3) as [L4 H4]. set (p2 := hears p1 q2) in *.
  destruct (linked_hears q2 p2 (linked_sym _ _ L4)) as [L5 H5]. set (q3 := hears q2 p2) in *. apply linked_sym in L5.
  destruct (linked_hears p2 q3 L5) as [L6 H6]. set (p3 := hears p2 q3) in *. split; [done|].
  assert (matches p1 = true) as M1 by (apply (hf_matched _ _ _ H2); [apply L0|apply (hf_knows _ _ _ H1)]).
  assert (matches q2 = true) as M2 by (apply (hf_matched _ _ _ H3); [apply L1|apply (hf_knows _ _ _ H2)]).
  pose proof (hf_kept _ _ _ H4 M1) as M3. pose proof (hf_kept _ _ _ H5 M2) as M4.
  split; split_and!.
  - apply (hf_knows _ _ _ H6).
  - by apply (hf_sync _ _ _ H6).
  - by apply (hf_kept _ _ _ H6).
  - apply (hf_current _ _ _ H6).
  - eapply knows_same; [apply (hf_actor _ _ _ H6)|apply (hf_knows _ _ _ H5)].
  - eapply knows_sync_same; [apply (hf_actor _ _ _ H6)|by apply (hf_sync _ _ _ H5)].
  - done.
  - apply (hf_current _ _ _ H5).
Qed.

(** C22: two ports come to agree.  Let two ports of different systems, both
    taking packets ([linked]: enabled, not about to start again, expired,
    defaulted or current, fields within their widths), send each other what
    [__update_lacpdu_from_port] builds, without any loss.  After three rounds,
    and after every later one, both are current and matched, each has recorded
    exactly who the other is, how it speaks and whether it is synchronised, and
    the packet of either asks the other for no answer: the exchange settles.
    This is so whether or not one of the two is active: [__choose_matched] does
    not look at the activity, although its comment says that matched is false
    unless LACP actively maintains the link. *)
Theorem exchange_settles k p q :
  linked p q -> (3 <= k)%nat ->
  let '(p', q') := exchange k p q in
  agreed p' q' /\ __update_ntt le (wire q') p' = p' /\ __update_ntt le (wire p') q' = q'.
Proof.
  intros Hl Hk. destruct (three_rounds p q Hl) as [L3 A3].
  assert (exchange k p q = exchange (k - 3) (exchange 3 p q).1 (exchange 3 p q).2) as ->.
  { rewrite <- exchange_add. f_equal. lia. }
  destruct (exchange_settled (k - 3) _ _ L3 A3) as [L A].
  destruct (exchange (k - 3) (exchange 3 p q).1 (exchange 3 p q).2) as [p' q']. cbn [fst snd] in L, A.
  split; [done|]. destruct A as [(K1 & S1 & _ & _) (K2 & S2 & _ & _)]. split; apply no_reply; by try apply L.
Qed.

(** ** What a match is worth *)

(** a match outlives the partner it was made with. A matched port that
    takes a packet of any other system stays matched, whoever the sender says
    its partner is, and believes the sender's synchronisation at once; the
    comment of [__choose_matched] says that matched becomes false unless the
    packet names this port. *)
Theorem match_outlives_partner pdu p :
  listening p -> matches p = true -> pdu_actor_system pdu <> actor_system (actor p) ->
  let p' := rx_stored le (Some pdu) p in
  matches p' = true /\ info_system (partner_oper (partner p')) = pdu_actor_system pdu /\
  on (info_port_state (partner_oper (partner p'))) AD_STATE_SYNCHRONIZATION = on (pdu_actor_state pdu) AD_STATE_SYNCHRONIZATION.
Proof.
  intros Hl Hm Hne p'. unfold p'. rewrite (rx_accepted pdu p Hl Hne). unfold accepted. cbv zeta.
  set (p0 := LPort (actor p) (partner p) (with_rx (sm p) AD_RX_CURRENT 0)).
  destruct (recorded_fields pdu p0) as (Ep & Hk & _ & _). unfold matches in *. cbn. rewrite Ep. cbn.
  split_and!; [by apply Hk|done|]. rewrite Hm. unfold on. by rewrite record_state_sync.
Qed.

End exchange.

(** ** Witnesses: two switches *)

Definition demo_other_env : lacp_env := {|
  little_endian := true; npd_vlan_port_pvid_get := fun _ => Some 1; eth_port_trunkid := fun _ => None;
  eth_port_sw_speed_get := fun _ => 100; eth_port_sw_duplex_get := fun _ => ETH_ATTR_DUPLEX_FULL;
  eth_port_link := fun _ => Some ETH_ATTR_LINKUP; npd_trunk_master_port_get := fun _ => None;
  eth_port_array_index_from_ifindex := fun n => Z.land (Z.shiftr n 14) 0xff; npd_system_get_basemac := [9; 8; 7; 6; 5; 4]; npd_lacp_cfg := Some 1 |}.

Definition demo_other : lacp_port :=
  silent_turns true demo_idle (fun _ => true) 3 (initial_port demo_other_env true 1 true ETH_ATTR_LINKUP demo_lacp_port).

Lemma demo_listening p :
  begins p = false -> is_enabled (actor p) = 1 -> sm_rx_state (sm p) = AD_RX_EXPIRED \/ sm_rx_state (sm p) = AD_RX_CURRENT -> listening p.
Proof. intros H1 H2 [H3|H3]; (split_and!; [exact H1|by rewrite H2|rewrite H3; by repeat constructor]). Qed.

Lemma demo_linked : linked demo_waiting demo_other.
Proof.
  assert (forall a, bool_decide (actor_widths a) = true -> actor_widths a) as Hw by (intros a; apply bool_decide_eq_true).
  split; [split|split; [split|]].
  - apply demo_listening; [vm_compute; reflexivity..|left; vm_compute; reflexivity].
  - apply Hw. vm_compute. reflexivity.
  - apply demo_listening; [vm_compute; reflexivity..|left; vm_compute; reflexivity].
  - apply Hw. vm_compute. reflexivity.
  - vm_compute. discriminate.
Qed.

Lemma exchange_settles_witness :
  let '(p, q) := exchange true 4 demo_waiting demo_other in matches p = true /\ matches q = true /\ knows p q /\ knows q p.
Proof.
  pose proof (exchange_settles true 4 demo_waiting demo_other demo_linked ltac:(lia)) as H.
  destruct (exchange true 4 demo_waiting demo_other) as [p q]. destruct H as ([(K1 & _ & M1 & _) (K2 & _ & M2 & _)] & _).
  split_and!; assumption.
Defined.

(** A stranger that takes this port for another one. *)
Definition demo_stranger : lacpdu_t := Lacpdu 1 0x80 [3; 3; 3; 3; 3; 3] 0x1100 0x100 0x100 0xd 0x80 [1; 1; 1; 1; 1; 1] 0x700 0x900 0x900 0xd 0.
Definition demo_matched : lacp_port := (exchange true 2 demo_waiting demo_other).1.

Lemma match_outlives_partner_witness :
  knows_us true demo_stranger (actor demo_matched) = false /\
  matches (rx_stored true (Some demo_stranger) demo_matched) = true /\
  on (info_port_state (partner_oper (partner (rx_stored true (Some demo_stranger) demo_matched)))) AD_STATE_SYNCHRONIZATION = true.
Proof.
  assert (listening demo_matched) as Hl by (apply demo_listening; [vm_compute; reflexivity..|right; vm_compute; reflexivity]).
  destruct (match_outlives_partner true demo_stranger demo_matched Hl) as (H1 & _ & H2); [vm_compute; reflexivity|vm_compute; discriminate|].
  split_and!; [vm_compute; reflexivity|exact H1|rewrite H2; vm_compute; reflexivity].
Defined.
