(* ===== verification/LacpTables.v ===== *)
(** * Link aggregation: the tables refine one state machine per port

    [npd_lacp.c] keeps each port in three tables and its aggregator in a
    fourth, and every machine reads, changes and writes them separately.
    Here the calls of [Lacp] on tables that keep the promises of [KeyStore]
    are shown to act as the pure machines on a map from ports to their
    structures. *)

From Stdlib Require Import ZArith Lia Bool.
From stdpp Require Import base decidable list gmap.
From S2P Require Import Prelude NetifIndex Database Chains DatabaseHash DatabaseSeq KeyStore Lacp LacpPorts.

Open Scope Z_scope.

(** What the four tables promise: each has one record per port. *)
Class LacpStores (TA TP TM TG : Type)
  `{!KeyStore TA lacpport_actor, !KeyStore TP lacpport_partner, !KeyStore TM lacpport_sm, !KeyStore TG aggregator} : Prop := {
  actor_laws :: KeyStoreLaws TA lacpport_actor;
  partner_laws :: KeyStoreLaws TP lacpport_partner;
  sm_laws :: KeyStoreLaws TM lacpport_sm;
  agg_laws :: KeyStoreLaws TG aggregator;
  agg_total :: KeyStoreTotal TG aggregator;
  actor_same : forall x y, ks_same x y = (actor_netif_index x =? actor_netif_index y);
  partner_same : forall x y, ks_same x y = (partner_netif_index x =? partner_netif_index y);
  sm_same : forall x y, ks_same x y = (sm_netif_index x =? sm_netif_index y);
  agg_same : forall x y, ks_same x y = (agg_netif_index x =? agg_netif_index y)
}.

(** ** The machine of every port *)

(** The ports, their aggregators and the packets sent. *)
Record lacp_spec := Spec {
  port_at : Z -> option lacp_port;
  agg_at : Z -> option aggregator;
  frames : list (Z * Z * lacpdu_t)
}.

Definition set_port (n : Z) (p : lacp_port) (w : lacp_spec) : lacp_spec :=
  Spec (fun m => if m =? n then Some p else port_at w m) (agg_at w) (frames w).
Definition set_agg (n : Z) (g : aggregator) (w : lacp_spec) : lacp_spec :=
  Spec (port_at w) (fun m => if m =? n then Some g else agg_at w m) (frames w).
Definition send (f : Z * Z * lacpdu_t) (w : lacp_spec) : lacp_spec := Spec (port_at w) (agg_at w) (frames w ++ [f]).

(** The calls that other threads and timers make. *)
Inductive lacp_call :=
  | CReceive (lacpdu : option lacpdu_t) (n : Z)
  | CPeriodic (n : Z)
  | CTransmit (n : Z)
  | CBeginHandled (n : Z)
  | CSpeed (n : Z)
  | CDuplex (n : Z)
  | CLink (up : bool) (n : Z)
  | CEvent (event : lacp_event) (n : Z)
  | CPacket (n son : Z) (lacpdu : lacpdu_t) (length : Z).

Section spec.
Context (env : lacp_env).
Implicit Types (w : lacp_spec).


Definition agg_code w (n : Z) : Z := match agg_at w n with Some _ => 0 | None => DB_TABLE_RETURN_CODE_ENTRY_NOT_EXIST end.

Definition spec_receive (lacpdu : option lacpdu_t) (n : Z) w : Z * lacp_spec :=
  match port_at w n with
  | None => (-1, w)
  | Some p =>
      (agg_code w n,
       match rx_port (little_endian env) lacpdu p with
       | Some (Stored p') =>
           set_port n p' (match agg_at w n with
                          | Some g => if rx_acts lacpdu p then set_agg n (with_agg_partner g (partner_oper (partner p'))) w else w
                          | None => w
                          end)
       | _ => w
       end)
  end.

Definition spec_transmit (n : Z) w : Z * lacp_spec :=
  match port_at w n with
  | None => (-1, w)
  | Some p =>
      match tx_vid env n with
      | Some vid =>
          (0, set_port n (tx_port true p) (if tx_due p then send (n, vid, __update_lacpdu_from_port (little_endian env) p) w else w))
      | None => (0, set_port n (tx_port false p) w)
      end
  end.

Definition spec_change (f : lacp_port -> lacp_port) (n : Z) w : Z * lacp_spec :=
  match port_at w n with Some p => (0, set_port n (f p) w) | None => (-1, w) end.

(** The aggregator of a static trunk and its first port. *)
Definition spec_static (trunk : Z) w : Z * lacp_spec :=
  match agg_at w trunk, npd_trunk_master_port_get env (npd_netif_trunk_get_tid trunk) ≫= port_at w with
  | Some g, Some m =>
      if aggregator_mode g =? STATIC_MODE
      then (0, set_agg trunk (with_agg_actor (with_agg_partner g (partner_oper (partner m))) (is_individual g)
                                (actor_oper_port_key (actor m))) w)
      else (TRUNK_RETURN_CODE_ERR_GENERAL, w)
  | _, _ => (TRUNK_RETURN_CODE_ERR_GENERAL, w)
  end.

Definition carrying (a : lacpport_actor) : lacpport_actor :=
  with_oper_state a (set (actor_oper_port_state a) (set AD_STATE_COLLECTING AD_STATE_DISTRIBUTING)).

(** A port of a static trunk whose first port is not known keeps its machine
    and its partner: only the actor was stored. *)
Definition spec_link (up : bool) (n : Z) w : Z * lacp_spec :=
  match port_at w n with
  | None => (-1, w)
  | Some p =>
      let p' := link_changed up (link_key env n) p in
      let trunk := trunk_netif_index (actor p) in
      match agg_at w n with
      | Some g => (0, set_port n p' (set_agg n (link_agg up (link_key env n) g) w))
      | None =>
          if negb (npd_netif_type_get trunk =? NPD_NETIF_TRUNK_TYPE) then (DB_TABLE_RETURN_CODE_ENTRY_NOT_EXIST, set_port n p' w)
          else match agg_at w trunk with
               | None => (DB_TABLE_RETURN_CODE_ENTRY_NOT_EXIST, w)
               | Some g =>
                   if aggregator_mode g =? STATIC_MODE then
                     let '(rc, w) := spec_static trunk (set_port n (LPort (carrying (actor p')) (partner p) (sm p)) w) in
                     if rc =? TRUNK_RETURN_CODE_ERR_GENERAL then (-1, w)
                     else (0, set_port n (LPort (carrying (actor p')) (partner p') (sm p')) w)
                   else (0, set_port n p' w)
               end
      end
  end.

Definition spec_event (event : lacp_event) (n : Z) w : lacp_spec :=
  if negb (NPD_NETIF_ETH_TYPE =? npd_netif_type_get n) then w
  else match event with
       | PORT_NOTIFIER_LINKUP_E => (spec_link true n w).2
       | PORT_NOTIFIER_LINKDOWN_E | PORT_NOTIFIER_REMOVE => (spec_link false n w).2
       | PORT_NOTIFIER_OTHER => w
       end.

(** The port that a packet is for. *)
Definition packet_port (n son : Z) : option Z :=
  if npd_netif_type_get n =? NPD_NETIF_ETH_TYPE then Some n
  else if npd_netif_type_get n =? NPD_NETIF_TRUNK_TYPE then (if npd_netif_type_get son =? NPD_NETIF_ETH_TYPE then Some son else None)
  else Some 0.

Definition spec_packet (n son : Z) (lacpdu : lacpdu_t) (length : Z) w : Z * lacp_spec :=
  match npd_lacp_cfg env with
  | None => (-1, w)
  | Some enable =>
      match (if enable =? 0 then None else packet_port n son) with
      | None => (0, w)
      | Some m =>
          match port_at w m with
          | None => (-1, w)
          | Some p =>
              (0, if negb (is_lacp_enable (actor p) =? 0) && (sizeof_lacpdu <=? u16 length) && (pdu_subtype lacpdu =? AD_TYPE_LACPDU)
                  then (spec_receive (Some lacpdu) m w).2 else w)
          end
      end
  end.

Definition spec_call (c : lacp_call) w : Z * lacp_spec :=
  match c with
  | CReceive lacpdu n => spec_receive lacpdu n w
  | CPeriodic n => spec_change periodic_port n w
  | CTransmit n => spec_transmit n w
  | CBeginHandled n => (0, (spec_change begin_off n w).2)
  | CSpeed n => spec_change (restarted (new_speed env n)) n w
  | CDuplex n => spec_change (restarted (new_duplex env n)) n w
  | CLink up n => spec_link up n w
  | CEvent event n => (0, spec_event event n w)
  | CPacket n son lacpdu length => spec_packet n son lacpdu length w
  end.

End spec.

(** ** The calls on the tables *)

Section tables.
Context {TA TP TM TG : Type} `{!KeyStore TA lacpport_actor, !KeyStore TP lacpport_partner, !KeyStore TM lacpport_sm, !KeyStore TG aggregator}.
Context `{!LacpStores TA TP TM TG}.
Implicit Types (st : lacp_state TA TP TM TG) (w : lacp_spec).

Definition with_code (x : option (lacp_state TA TP TM TG)) : option (Z * lacp_state TA TP TM TG) := st ← x; Some (0, st).

Definition lacp_exec (env : lacp_env) (c : lacp_call) st : option (Z * lacp_state TA TP TM TG) :=
  match c with
  | CReceive lacpdu n => dot3ad_rx_machine env lacpdu n st
  | CPeriodic n => dot3ad_periodic_machine n st
  | CTransmit n => dot3ad_tx_machine env n st
  | CBeginHandled n => with_code (begin_handled n st)
  | CSpeed n => dot3ad_adapter_speed_changed env n st
  | CDuplex n => dot3ad_adapter_duplex_changed env n st
  | CLink up n => dot3ad_handle_link_change env up n st
  | CEvent event n => with_code (npd_lacp_handle_port_event env event n st)
  | CPacket n son lacpdu length => dot3ad_rx_indication env n son lacpdu length st
  end.

(** The tables hold the ports of the specification. *)
Record tables_ok st : Prop := {
  ok_actors : ks_ok (actors st);
  ok_partners : ks_ok (partners st);
  ok_sms : ks_ok (sms st);
  ok_aggs : ks_ok (aggs st)
}.
Record holds st w : Prop := {
  holds_ok : tables_ok st;
  holds_actor n : find_actor st n = actor <$> port_at w n;
  holds_partner n : find_partner st n = partner <$> port_at w n;
  holds_sm n : find_sm st n = sm <$> port_at w n;
  holds_agg n : find_agg st n = agg_at w n;
  holds_sent : lacp_sent st = frames w
}.

(** Specifications with the same lookups. *)
Definition same_spec (w w' : lacp_spec) : Prop :=
  (forall n, port_at w n = port_at w' n) /\ (forall n, agg_at w n = agg_at w' n) /\ frames w = frames w'.

Lemma holds_same st w w' : same_spec w w' -> holds st w -> holds st w'.
Proof. intros (E1 & E2 & E3) [H1 H2 H3 H4 H5 H6]. split; [done|intros n..|]; by rewrite <- ?E1, <- ?E2, <- ?E3. Qed.

(** The keys of what is held. *)
Lemma holds_keys st w n p : holds st w -> port_at w n = Some p -> port_keys p n.
Proof.
  intros [[] Ha Hp Hs _ _] Hn. specialize (Ha n). specialize (Hp n). specialize (Hs n). rewrite Hn in Ha, Hp, Hs. split_and!.
  - by eapply (search_key actor_netif_index actor_key (fun _ => eq_refl) actor_same) in Ha.
  - by eapply (search_key partner_netif_index partner_key (fun _ => eq_refl) partner_same) in Hp.
  - by eapply (search_key sm_netif_index sm_key (fun _ => eq_refl) sm_same) in Hs.
Qed.
Lemma holds_agg_key st w n g : holds st w -> agg_at w n = Some g -> agg_netif_index g = n.
Proof.
  intros [[] _ _ _ Hg _] Hn. specialize (Hg n). rewrite Hn in Hg.
  by eapply (search_key agg_netif_index agg_key (fun _ => eq_refl) agg_same) in Hg.
Qed.

(** *** One write *)

Lemma put_actor_ok st w n p a : holds st w -> port_at w n = Some p -> actor_netif_index a = n ->
  exists st', put_actor st a = Some st' /\ holds st' (set_port n (LPort a (partner p) (sm p)) w).
Proof.
  intros [[] Ha Hp Hs Hg Hf] Hn Hk.
  destruct (update_at actor_netif_index actor_key (fun _ => eq_refl) actor_same (actors st) a) as (t & E & Hok & Hl); [done| |].
  { rewrite Hk. fold (find_actor st n). rewrite Ha, Hn. by eexists. }
  eexists. unfold put_actor. rewrite E. split; [done|].
  split; [by split|intros m..|done]; cbn; unfold find_actor, find_partner, find_sm, find_agg in *; cbn.
  - rewrite Hl, Hk. by destruct (Z.eqb_spec m n).
  - rewrite Hp. by destruct (Z.eqb_spec m n) as [->|]; [rewrite Hn|].
  - rewrite Hs. by destruct (Z.eqb_spec m n) as [->|]; [rewrite Hn|].
  - apply Hg.
Qed.

Lemma put_partner_ok st w n p x : holds st w -> port_at w n = Some p -> partner_netif_index x = n ->
  exists st', put_partner st x = Some st' /\ holds st' (set_port n (LPort (actor p) x (sm p)) w).
Proof.
  intros [[] Ha Hp Hs Hg Hf] Hn Hk.
  destruct (update_at partner_netif_index partner_key (fun _ => eq_refl) partner_same (partners st) x) as (t & E & Hok & Hl); [done| |].
  { rewrite Hk. fold (find_partner st n). rewrite Hp, Hn. by eexists. }
  eexists. unfold put_partner. rewrite E. split; [done|].
  split; [by split|intros m..|done]; cbn; unfold find_actor, find_partner, find_sm, find_agg in *; cbn.
  - rewrite Ha. by destruct (Z.eqb_spec m n) as [->|]; [rewrite Hn|].
  - rewrite Hl, Hk. by destruct (Z.eqb_spec m n).
  - rewrite Hs. by destruct (Z.eqb_spec m n) as [->|]; [rewrite Hn|].
  - apply Hg.
Qed.

Lemma put_sm_ok st w n p x : holds st w -> port_at w n = Some p -> sm_netif_index x = n ->
  exists t, ks_update (sms st) x = Some (0, t) /\
    holds (LS (actors st) (partners st) t (aggs st) (lacp_sent st)) (set_port n (LPort (actor p) (partner p) x) w).
Proof.
  intros [[] Ha Hp Hs Hg Hf] Hn Hk.
  destruct (update_at sm_netif_index sm_key (fun _ => eq_refl) sm_same (sms st) x) as (t & E & Hok & Hl); [done| |].
  { rewrite Hk. fold (find_sm st n). rewrite Hs, Hn. by eexists. }
  exists t. split; [done|].
  split; [by split|intros m..|done]; cbn; unfold find_actor, find_partner, find_sm, find_agg in *; cbn.
  - rewrite Ha. by destruct (Z.eqb_spec m n) as [->|]; [rewrite Hn|].
  - rewrite Hp. by destruct (Z.eqb_spec m n) as [->|]; [rewrite Hn|].
  - rewrite Hl, Hk. by destruct (Z.eqb_spec m n).
  - apply Hg.
Qed.

(** An aggregator that is not there stays away. *)
Lemma put_agg_ok st w g : holds st w ->
  exists st', put_agg st g = Some st' /\
    holds st' (match agg_at w (agg_netif_index g) with Some _ => set_agg (agg_netif_index g) g w | None => w end).
Proof.
  intros [[] Ha Hp Hs Hg Hf]. destruct (agg_at w (agg_netif_index g)) as [x|] eqn:Hx.
  - destruct (update_at agg_netif_index agg_key (fun _ => eq_refl) agg_same (aggs st) g) as (t & E & Hok & Hl); [done| |].
    { fold (find_agg st (agg_netif_index g)). rewrite Hg, Hx. by eexists. }
    eexists. unfold put_agg. rewrite E. split; [done|]. split; [by split|done..| |done]. intros m. unfold find_agg in *. cbn.
    rewrite Hl. by rewrite Hg.
  - destruct (update_missing agg_netif_index agg_key (fun _ => eq_refl) agg_same (aggs st) g) as (t & E & Hok & Hl); [done| |].
    { fold (find_agg st (agg_netif_index g)). by rewrite Hg. }
    eexists. unfold put_agg. rewrite E. split; [done|]. split; [by split|done..| |done]. intros m. unfold find_agg in *. cbn.
    by rewrite Hl.
Qed.

(** *** The calls *)

(** The call returned as the specification says. *)
Definition refines (x : option (Z * lacp_state TA TP TM TG)) (y : Z * lacp_spec) : Prop :=
  exists st', x = Some (y.1, st') /\ holds st' y.2.

Lemma port_at_set n p w : port_at (set_port n p w) n = Some p.
Proof. cbn. by rewrite Z.eqb_refl. Qed.

Lemma set_port_again n p q w : same_spec (set_port n q (set_port n p w)) (set_port n q w).
Proof. split_and!; try done. intros m. cbn. by destruct (m =? n). Qed.

(** A port is found in its three tables, or in none. *)
Ltac found n p :=
  match goal with H : holds ?st ?w |- _ =>
    rewrite ?(holds_sm st w H n), ?(holds_actor st w H n), ?(holds_partner st w H n);
    destruct (port_at w n) as [p|] eqn:Hn; cbn [fmap option_fmap option_map] end.

(** The whole port in three writes, in the order of the receive machine. *)
Lemma put_port_ok st w n p p' : holds st w -> port_at w n = Some p -> port_keys p' n ->
  exists st1 st2 t, put_actor st (actor p') = Some st1 /\ put_partner st1 (partner p') = Some st2 /\
    ks_update (sms st2) (sm p') = Some (0, t) /\
    holds (LS (actors st2) (partners st2) t (aggs st2) (lacp_sent st2)) (set_port n p' w).
Proof.
  intros Hh Hn (K1 & K2 & K3). destruct (put_actor_ok st w n p (actor p') Hh Hn K1) as (st1 & E1 & H1).
  destruct (put_partner_ok st1 _ n _ (partner p') H1 (port_at_set _ _ _) K2) as (st2 & E2 & H2).
  destruct (put_sm_ok st2 _ n _ (sm p') H2 (port_at_set _ _ _) K3) as (t & E3 & H3).
  exists st1, st2, t. split_and!; try done. eapply holds_same; [|exact H3]. destruct p' as [a x s].
  split_and!; try done. intros m. cbn. by destruct (m =? n).
Qed.

Lemma receive_ok env lacpdu st w n : holds st w -> refines (dot3ad_rx_machine env lacpdu n st) (spec_receive env lacpdu n w).
Proof.
  intros Hh. unfold dot3ad_rx_machine, spec_receive. found n p; [|by exists st].
  destruct p as [a x s] eqn:Ep. cbn [actor partner sm]. rewrite <- Ep in *. rewrite (holds_agg st w Hh n).
  pose proof (holds_keys st w n p Hh Hn) as Hk.
  destruct (rx_port_total (little_endian env) lacpdu p) as [r Er]. rewrite Er. cbn [mbind option_bind].
  destruct r as [|p']; [by exists st|].
  assert (rx_keeps p p') as Hkeep.
  { pose proof (rx_stored_keeps (little_endian env) lacpdu p) as H. unfold rx_stored in H. by rewrite Er in H. }
  pose proof (rk_keys _ _ Hkeep n Hk) as Hk'. unfold agg_code. destruct (rx_acts lacpdu p) eqn:Ea.
  - destruct (agg_at w n) as [g|] eqn:Hg; cbn [mbind option_bind].
    + destruct (put_agg_ok st w (with_agg_partner g (partner_oper (partner p'))) Hh) as (st0 & E0 & H0).
      cbn [agg_netif_index with_agg_partner] in H0. rewrite (holds_agg_key st w n g Hh Hg), Hg in H0.
      destruct (put_port_ok st0 _ n p p' H0 Hn Hk') as (st1 & st2 & t & E1 & E2 & E3 & H3).
      unfold put_sm. rewrite E0. cbn. rewrite E1. cbn. rewrite E2. cbn. rewrite E3. cbn. by eexists.
    + destruct (put_port_ok st _ n p p' Hh Hn Hk') as (st1 & st2 & t & E1 & E2 & E3 & H3).
      unfold put_sm. rewrite E1. cbn. rewrite E2. cbn. rewrite E3. cbn. by eexists.
  - cbn [mbind option_bind]. destruct Hk' as (_ & _ & K3). destruct (put_sm_ok st w n p (sm p') Hh Hn K3) as (t & E & H).
    unfold put_sm. rewrite E. cbn. eexists. split; [done|]. destruct (idle_port (little_endian env) lacpdu p p' Ea Er) as [E1 E2].
    rewrite <- E1, <- E2 in H. destruct (agg_at w n); by destruct p'.
Qed.

(** The machine's own structure is written. *)
Lemma write_sm_ok st w n p x : holds st w -> port_at w n = Some p -> sm_netif_index x = n ->
  exists st', put_sm st x = Some st' /\ holds st' (set_port n (LPort (actor p) (partner p) x) w).
Proof.
  intros Hh Hn Hk. destruct (put_sm_ok st w n p x Hh Hn Hk) as (t & E & H). unfold put_sm. rewrite E. by eexists.
Qed.

Lemma periodic_ok st w n : holds st w -> refines (dot3ad_periodic_machine n st) (spec_change periodic_port n w).
Proof.
  intros Hh. unfold dot3ad_periodic_machine, spec_change. found n p; [|by exists st].
  destruct (holds_keys st w n p Hh Hn) as (_ & _ & K).
  destruct (write_sm_ok st w n p (sm (periodic_port p)) Hh Hn) as (st' & E & H).
  { rewrite <- K. unfold periodic_port, periodic_next. cbv zeta. cbn. by repeat case_match. }
  destruct p as [a x s]. cbn [actor partner sm] in *. rewrite E. by eexists.
Qed.

Lemma transmit_ok env st w n : holds st w -> refines (dot3ad_tx_machine env n st) (spec_transmit env n w).
Proof.
  intros Hh. unfold dot3ad_tx_machine, spec_transmit. rewrite (holds_sm st w Hh n). destruct (port_at w n) as [p|] eqn:Hn; [|by exists st].
  cbn [fmap option_fmap option_map]. fold (tx_due p). destruct (holds_keys st w n p Hh Hn) as (_ & _ & K).
  unfold nam_packet_tx_lacp. rewrite (holds_actor st w Hh n), (holds_partner st w Hh n), Hn. cbn [fmap option_fmap option_map].
  change (__update_lacpdu_from_port (little_endian env) (LPort (actor p) (partner p) (sm_key n)))
    with (__update_lacpdu_from_port (little_endian env) p).
  destruct (put_sm_ok st w n p (with_tx_timer (sm p) (dot3ad_ticks_per_sec / AD_MAX_TX_IN_SECOND)) Hh Hn K) as (t & E & H).
  unfold tx_port. destruct (tx_vid env n) as [vid|], (tx_due p); cbn [andb Z.eqb]; [|by rewrite E; eexists..].
  clear t E H. set (d := __update_lacpdu_from_port (little_endian env) p).
  assert (holds (LS (actors st) (partners st) (sms st) (aggs st) (lacp_sent st ++ [(n, vid, d)])) (send (n, vid, d) w)) as Hh'.
  { destruct Hh as [[] Ha Hp Hs Hg Hf]. split; [by split|done..|]. cbn. by rewrite Hf. }
  destruct (put_sm_ok _ _ n p (with_tx_timer (with_ntt (sm p) false) (dot3ad_ticks_per_sec / AD_MAX_TX_IN_SECOND)) Hh' Hn K) as (t & E & H).
  cbn [sms] in E. cbn [sms]. rewrite E. by eexists.
Qed.

Lemma set_port_same n p w : port_at w n = Some p -> same_spec w (set_port n p w).
Proof. intros Hn. split_and!; try done. intros m. cbn. by destruct (Z.eqb_spec m n) as [->|]. Qed.

Lemma begin_ok st w n : holds st w -> refines (with_code (begin_handled n st)) (0, (spec_change begin_off n w).2).
Proof.
  intros Hh. unfold begin_handled, spec_change. rewrite (holds_sm st w Hh n). destruct (port_at w n) as [p|] eqn:Hn; [|by exists st].
  cbn [fmap option_fmap option_map]. fold (begins p). unfold begin_off. destruct (holds_keys st w n p Hh Hn) as (_ & _ & K).
  destruct (begins p).
  - destruct (write_sm_ok st w n p (with_vars (sm p) (clr (sm_vars (sm p)) AD_PORT_BEGIN)) Hh Hn K) as (st' & E & H).
    rewrite E. by eexists.
  - exists st. split; [done|]. cbn [snd]. eapply holds_same; [|exact Hh]. by apply set_port_same.
Qed.

Lemma restart_ok change st w n :
  (forall a, actor_netif_index (change a) = actor_netif_index a) -> holds st w ->
  refines (restart_port change n st) (spec_change (restarted change) n w).
Proof.
  intros Hc Hh. unfold restart_port, spec_change. found n p; [|by exists st]. destruct (holds_keys st w n p Hh Hn) as (K1 & _ & K3).
  destruct (write_sm_ok st w n p (with_vars (sm p) (set (sm_vars (sm p)) AD_PORT_BEGIN)) Hh Hn K3) as (st1 & E1 & H1).
  destruct (put_actor_ok st1 _ n _ (change (actor p)) H1 (port_at_set _ _ _)) as (st2 & E2 & H2); [by rewrite Hc|].
  rewrite E1. cbn. rewrite E2. cbn. eexists. split; [done|]. eapply holds_same; [apply set_port_again|exact H2].
Qed.

Lemma static_ok env st w trunk : holds st w -> refines (static_aggregator_update env trunk st) (spec_static env trunk w).
Proof.
  intros Hh. unfold static_aggregator_update, spec_static. rewrite (holds_agg st w Hh trunk).
  destruct (agg_at w trunk) as [g|] eqn:Hg; [|by exists st].
  destruct (npd_trunk_master_port_get env _) as [m|]; cbn [mbind option_bind]; [|destruct (aggregator_mode g =? STATIC_MODE); by exists st].
  found m p; [|destruct (aggregator_mode g =? STATIC_MODE); by exists st].
  destruct (aggregator_mode g =? STATIC_MODE); [|by exists st]. cbn [negb].
  set (g' := with_agg_actor _ _ _). pose proof (holds_agg_key st w trunk g Hh Hg) as Hk. destruct (same_agg g g') eqn:Es.
  - exists st. split; [done|]. eapply holds_same; [|exact Hh]. split_and!; try done. intros k. cbn.
    destruct (Z.eqb_spec k trunk) as [->|]; [|done]. rewrite Hg. f_equal. unfold same_agg, same_mac in Es.
    repeat (apply andb_true_iff in Es as [Es ?]). rewrite ?Z.eqb_eq, ?bool_decide_eq_true in *. unfold g' in *. cbn in *.
    destruct g; cbn in *; by subst.
  - destruct (put_agg_ok st w g' Hh) as (st' & E & H). rewrite E. cbn. eexists. split; [done|].
    replace (agg_netif_index g') with trunk in H by done. by rewrite Hg in H.
Qed.

(** *** Changes of the link *)

Lemma link_keys up key p n : port_keys p n -> port_keys (link_changed up key p) n.
Proof. unfold link_changed, port_keys. by destruct up. Qed.

(** The port is written in the order of a change of the link; the actor may
    have been stored before. *)
Lemma link_writes_ok st w n q p' (stored : bool) :
  holds st w -> port_at w n = Some q -> port_keys p' n -> (stored = true -> actor q = actor p') ->
  exists st', link_store p' stored st = Some st' /\ holds st' (set_port n p' w).
Proof.
  unfold link_store. intros Hh Hn (K1 & K2 & K3) Ha. destruct (write_sm_ok st w n q (sm p') Hh Hn K3) as (st1 & -> & H1). cbn [mbind option_bind].
  assert (exists st2, (if stored then Some st1 else put_actor st1 (actor p')) = Some st2 /\
    holds st2 (set_port n (LPort (actor p') (partner q) (sm p')) w)) as (st2 & -> & H2).
  { destruct stored; [exists st1; by rewrite <- Ha|].
    destruct (put_actor_ok st1 _ n _ (actor p') H1 (port_at_set _ _ _) K1) as (st2 & E & H2).
    exists st2. split; [done|]. eapply holds_same; [apply set_port_again|exact H2]. }
  cbn [mbind option_bind]. destruct (put_partner_ok st2 _ n _ (partner p') H2 (port_at_set _ _ _) K2) as (st3 & E & H3).
  exists st3. split; [done|]. eapply holds_same; [|exact H3]. destruct p'. apply set_port_again.
Qed.

(** Its first part, for a port in a trunk. *)
Lemma link_trunk_ok env st w n p a :
  holds st w -> port_at w n = Some p -> actor_netif_index a = n ->
  match agg_at w (trunk_netif_index a) with
  | None => link_trunk env a st = Some (DB_TABLE_RETURN_CODE_ENTRY_NOT_EXIST, None, st)
  | Some g =>
      if aggregator_mode g =? STATIC_MODE then
        let '(rc, w') := spec_static env (trunk_netif_index a) (set_port n (LPort (carrying a) (partner p) (sm p)) w) in
        exists st', holds st' w' /\
          link_trunk env a st = Some (if rc =? TRUNK_RETURN_CODE_ERR_GENERAL then (-1, None, st') else (0, Some true, st'))
      else link_trunk env a st = Some (0, Some false, st)
  end.
Proof.
  intros Hh Hn Hk. unfold link_trunk. rewrite (holds_agg st w Hh). destruct (agg_at w (trunk_netif_index a)) as [g|]; [|done].
  destruct (aggregator_mode g =? STATIC_MODE); [|done]. fold (carrying a).
  destruct (put_actor_ok st w n p (carrying a) Hh Hn Hk) as (st1 & -> & H1). cbn [mbind option_bind].
  destruct (static_ok env st1 _ (trunk_netif_index a) H1) as (st2 & E & H2). rewrite E. cbn [mbind option_bind].
  destruct (spec_static _ _ _) as [rc w']. cbn [fst snd] in *. exists st2. split; [done|]. by destruct (rc =? _).
Qed.

(** A static trunk's first port leaves the ports as they are. *)
Lemma spec_static_ports env trunk w : port_at (spec_static env trunk w).2 = port_at w.
Proof. unfold spec_static. by repeat case_match. Qed.

Lemma link_ok env up st w n : holds st w -> refines (dot3ad_handle_link_change env up n st) (spec_link env up n w).
Proof.
  intros Hh. unfold dot3ad_handle_link_change, spec_link. found n p; [|by exists st]. rewrite (holds_agg st w Hh n).
  pose proof (holds_keys st w n p Hh Hn) as Hk.  assert (LPort (actor p) (partner p) (sm p) = p) as -> by by destruct p.
  set (p' := link_changed up (link_key env n) p). pose proof (link_keys up (link_key env n) p n Hk) as Hk'. fold p' in Hk'.
  assert (trunk_netif_index (actor p') = trunk_netif_index (actor p)) as Et by (unfold p', link_changed; by destruct up).
  destruct (agg_at w n) as [g|] eqn:Hg.
  - destruct (put_agg_ok st w (link_agg up (link_key env n) g) Hh) as (st1 & E1 & H1).
    assert (agg_netif_index (link_agg up (link_key env n) g) = n) as Ek.
    { rewrite <- (holds_agg_key st w n g Hh Hg). by destruct up. }
    rewrite Ek, Hg in H1. cbn [from_option id]. rewrite E1. cbn [mbind option_bind].
    destruct (link_writes_ok st1 _ n p p' false H1 Hn Hk') as (st' & E & H); [done|]. rewrite E. by eexists.
  - destruct (npd_netif_type_get (trunk_netif_index (actor p)) =? NPD_NETIF_TRUNK_TYPE) eqn:Ety; cbn [negb].
    + pose proof (link_trunk_ok env st w n p (actor p') Hh Hn (proj1 Hk')) as Hl. rewrite Et in Hl.
      destruct (agg_at w (trunk_netif_index (actor p))) as [g|]; [|rewrite Hl; by exists st].
      destruct (aggregator_mode g =? STATIC_MODE).
      * pose proof (spec_static_ports env (trunk_netif_index (actor p)) (set_port n (LPort (carrying (actor p')) (partner p) (sm p)) w)) as Hq.
        destruct (spec_static _ _ _) as [rc w']. cbn [snd] in Hq. destruct Hl as (st1 & H1 & ->).
        destruct (rc =? _); cbn [mbind option_bind]; [by exists st1|].
        destruct (link_writes_ok st1 w' n (LPort (carrying (actor p')) (partner p) (sm p))
          (LPort (carrying (actor p')) (partner p') (sm p')) true H1) as (st' & E & H); [by rewrite Hq, port_at_set|done|done|].
        unfold link_store in *. cbn [actor partner sm] in E. rewrite E. by eexists.
      * rewrite Hl. cbn [mbind option_bind]. destruct (link_writes_ok st w n p p' false Hh Hn Hk') as (st' & E & H); [done|].
        rewrite E. by eexists.
    + destruct (put_agg_ok st w (link_agg up (link_key env n) (agg_key n)) Hh) as (st1 & E1 & H1).
      assert (agg_netif_index (link_agg up (link_key env n) (agg_key n)) = n) as Ek by by destruct up.
      rewrite Ek, Hg in H1. cbn [from_option id]. rewrite E1. cbn [mbind option_bind].
      destruct (link_writes_ok st1 w n p p' false H1 Hn Hk') as (st' & E & H); [done|]. rewrite E. by eexists.
Qed.

Lemma event_ok env event st w n :
  holds st w -> refines (with_code (npd_lacp_handle_port_event env event n st)) (0, spec_event env event n w).
Proof.
  intros Hh. unfold npd_lacp_handle_port_event, spec_event. destruct (negb _); [by exists st|]. rewrite (holds_actor st w Hh n).
  assert (forall up, exists st', snd <$> dot3ad_handle_link_change env up n st = Some st' /\ holds st' (spec_link env up n w).2) as Hl.
  { intros up. destruct (link_ok env up st w n Hh) as (st' & E & H). rewrite E. by eexists. }
  destruct (port_at w n) as [p|] eqn:Hn; cbn [fmap option_fmap option_map].
  - destruct event; try (by exists st).
    + destruct (Hl true) as (st' & E & H). unfold with_code. rewrite E. by eexists.
    + destruct (Hl false) as (st' & E & H). unfold with_code. rewrite E. by eexists.
    + destruct (Hl false) as (st' & E & H). unfold with_code. rewrite E. by eexists.
  - exists st. split; [done|]. unfold spec_link. rewrite Hn. by destruct event.
Qed.

Lemma packet_ok env st w n son lacpdu length :
  holds st w -> refines (dot3ad_rx_indication env n son lacpdu length st) (spec_packet env n son lacpdu length w).
Proof.
  intros Hh. unfold dot3ad_rx_indication, spec_packet, packet_port. destruct (npd_lacp_cfg env) as [enable|]; [|by exists st].
  destruct (enable =? 0); [by exists st|].
  assert (forall m, refines
    match find_actor st m with
    | None => Some (-1, st)
    | Some a => if (is_lacp_enable a =? 0) || negb (sizeof_lacpdu <=? u16 length) || negb (pdu_subtype lacpdu =? AD_TYPE_LACPDU)
                then Some (0, st) else '(_, st) ← dot3ad_rx_machine env (Some lacpdu) m st; Some (0, st)
    end
    match port_at w m with
    | None => (-1, w)
    | Some p => (0, if negb (is_lacp_enable (actor p) =? 0) && (sizeof_lacpdu <=? u16 length) && (pdu_subtype lacpdu =? AD_TYPE_LACPDU)
                    then (spec_receive env (Some lacpdu) m w).2 else w)
    end) as Hm.
  { intros m. rewrite (holds_actor st w Hh m). destruct (port_at w m) as [p|]; cbn [fmap option_fmap option_map]; [|by exists st].
    destruct (receive_ok env (Some lacpdu) st w m Hh) as (st' & E & H). rewrite E. cbn [mbind option_bind].
    destruct (is_lacp_enable (actor p) =? 0), (sizeof_lacpdu <=? u16 length), (pdu_subtype lacpdu =? AD_TYPE_LACPDU);
      (by exists st) || by exists st'. }
  destruct (Z.eqb_spec (npd_netif_type_get n) NPD_NETIF_ETH_TYPE) as [E|_].
  - rewrite E. change (NPD_NETIF_ETH_TYPE =? NPD_NETIF_TRUNK_TYPE) with false. apply Hm.
  - destruct (npd_netif_type_get n =? NPD_NETIF_TRUNK_TYPE); cbn [andb]; [|apply Hm].
    destruct (npd_netif_type_get son =? NPD_NETIF_ETH_TYPE); cbn [negb]; [apply Hm|by exists st].
Qed.

Lemma call_ok env c st w : holds st w -> refines (lacp_exec env c st) (spec_call env c w).
Proof.
  intros Hh. destruct c; cbn [lacp_exec spec_call].
  - by apply receive_ok.
  - by apply periodic_ok.
  - by apply transmit_ok.
  - by apply begin_ok.
  - by apply restart_ok.
  - by apply restart_ok.
  - by apply link_ok.
  - by apply event_ok.
  - by apply packet_ok.
Qed.

(** Calls one after the other, each with what the rest of npd says then. *)
Fixpoint lacp_run (cs : list (lacp_env * lacp_call)) st : option (list Z * lacp_state TA TP TM TG) :=
  match cs with
  | [] => Some ([], st)
  | (env, c) :: cs => '(r, st) ← lacp_exec env c st; '(rs, st) ← lacp_run cs st; Some (r :: rs, st)
  end.

(** A new port: none of its structures was there, its number is its own, and
    the three tables have room for it. *)
Lemma initialize_ok env fast mode enabled link st w n :
  holds st w -> port_at w n = None -> npd_netif_type_get n = NPD_NETIF_ETH_TYPE -> eth_port_link env n = Some link ->
  let p := initial_port env fast mode enabled link n in
  (ks_valid (actor p) /\ ks_fits (actors st) (actor p) = true /\ ks_count (actors st) <> ks_cap (actors st)) ->
  (ks_valid (partner p) /\ ks_fits (partners st) (partner p) = true /\ ks_count (partners st) <> ks_cap (partners st)) ->
  (ks_valid (sm p) /\ ks_fits (sms st) (sm p) = true /\ ks_count (sms st) <> ks_cap (sms st)) ->
  refines (dot3ad_initialize_port env fast mode enabled n st) (0, set_port n p w).
Proof.
  intros [[] Ha Hp Hs Hg Hf] Hn Ht Hl p (Va & Fa & Ca) (Vp & Fp & Cp) (Vs & Fs & Cs). unfold dot3ad_initialize_port. rewrite Ht, Hl. cbn [Z.eqb]. fold p.
  destruct (insert_at sm_netif_index sm_key (fun _ => eq_refl) sm_same (sms st) (sm p)) as (ts & Es & Ks & Ls); try done.
  { change (sm_netif_index (sm p)) with n. fold (find_sm st n). by rewrite Hs, Hn. }
  destruct (insert_at actor_netif_index actor_key (fun _ => eq_refl) actor_same (actors st) (actor p)) as (ta & Ea & Ka & La); try done.
  { change (actor_netif_index (actor p)) with n. fold (find_actor st n). by rewrite Ha, Hn. }
  destruct (insert_at partner_netif_index partner_key (fun _ => eq_refl) partner_same (partners st) (partner p)) as (tp & Ep & Kp & Lp); try done.
  { change (partner_netif_index (partner p)) with n. fold (find_partner st n). by rewrite Hp, Hn. }
  change (NPD_NETIF_ETH_TYPE =? NPD_NETIF_ETH_TYPE) with true. rewrite Es. cbn [mbind option_bind]. rewrite Ea. cbn [mbind option_bind].
  rewrite Ep. cbn [mbind option_bind]. eexists. split; [done|]. cbn [snd].
  split; [by split|intros m..|done]; unfold find_actor, find_partner, find_sm, find_agg in *; cbn [actors partners sms aggs].
  - rewrite La, Ha. change (actor_netif_index (actor p)) with n. cbn. by destruct (m =? n).
  - rewrite Lp, Hp. change (partner_netif_index (partner p)) with n. cbn. by destruct (m =? n).
  - rewrite Ls, Hs. change (sm_netif_index (sm p)) with n. cbn. by destruct (m =? n).
  - apply Hg.
Qed.

End tables.

Fixpoint spec_run (cs : list (lacp_env * lacp_call)) (w : lacp_spec) : list Z * lacp_spec :=
  match cs with
  | [] => ([], w)
  | (env, c) :: cs => let '(r, w) := spec_call env c w in let '(rs, w) := spec_run cs w in (r :: rs, w)
  end.

(** C20: the tables refine one state machine per port. On tables that keep the
    promises of [KeyStore] and hold each port in all three tables or in none,
    any sequence of calls of the machines, of link events and of received
    packets, for any ports, returns without a crash, with the results of the
    specification; afterwards the three tables still hold whole ports, each
    the one its own machine computed, the aggregators follow their ports, and
    the packets sent are those of the machines, in order. *)
Theorem lacp_tables_refine_ports {TA TP TM TG}
  `{!KeyStore TA lacpport_actor, !KeyStore TP lacpport_partner, !KeyStore TM lacpport_sm, !KeyStore TG aggregator}
  `{!LacpStores TA TP TM TG} cs (st : lacp_state TA TP TM TG) w :
  holds st w -> exists st', lacp_run cs st = Some ((spec_run cs w).1, st') /\ holds st' (spec_run cs w).2.
Proof.
  revert st w. induction cs as [|[env c] cs IH]; intros st w Hh; [by exists st|]. cbn [lacp_run spec_run].
  destruct (call_ok env c st w Hh) as (st1 & -> & H1). destruct (spec_call env c w) as [r w1]. cbn [fst snd mbind option_bind] in *.
  destruct (IH st1 w1 H1) as (st2 & -> & H2). destruct (spec_run cs w1) as [rs w2]. cbn [fst snd mbind option_bind] in *.
  by exists st2.
Qed.

(** ** The tables of the daemon *)

(** A new table with a hash index and then a sequence index, searched through
    the first. *)
Lemma second_index_created {D} (junk : D) key cmp sz `{!HashLaws key cmp sz} sindex skey cmp2 sz2 num esize mode :
  0 <= num < 2 ^ 32 -> 0 < esize <= MAX_SEND_SIZE - SYNC_HEADER_SIZE -> 0 <= sz ->
  let db := dbtable_create_sequence_index (dbtable_create_hash_index (create_dbtable num esize mode) sz (Some key) cmp) sz2 sindex skey cmp2 in
  hash_ok 1 key cmp sz db /\ (forall d, hash_find junk 1 db d = None) /\ contents db = ∅.
Proof.
  intros Hn He Hs db. destruct (create_models junk key cmp sz num esize mode Hn He Hs) as [(Hw & h & Hg & Hc) _ _].
  destruct (create_wf (D := D) num esize mode Hn He) as (_ & H0 & _).
  assert (core_eq db (dbtable_create_hash_index (create_dbtable num esize mode) sz (Some key) cmp)) as Hi by apply core_with_index.
  assert (contents db = ∅) as Hcd by (rewrite Hi; exact H0).
  assert (hash_ok 1 key cmp sz db) as Hok by (split; [by rewrite Hi|by exists h]).
  split_and!; [done| |done]. intros d. apply (hash_find_none junk 1 key cmp sz db d Hok). intros i x [Hx _]. by rewrite Hcd in Hx.
Qed.

Section daemon.
Context (b : board) (Hb : b ∈ boards).

#[local] Instance daemon_actors : KeyStore (db_table_t lacpport_actor) lacpport_actor := actors_store b.
#[local] Instance daemon_partners : KeyStore (db_table_t lacpport_partner) lacpport_partner := partners_store b.
#[local] Instance daemon_sms : KeyStore (db_table_t lacpport_sm) lacpport_sm := sms_store b.
#[local] Instance daemon_aggs : KeyStore (db_table_t aggregator) aggregator := aggs_store b.

Lemma max_eth_range : 0 < MAX_ETH_GLOBAL_INDEX b < 2 ^ 32.
Proof. revert b Hb. apply list.Forall_forall. repeat constructor. Qed.

(** The ports of the board have numbers of their own. *)
Lemma netif_index_pos n : 0 <= npd_lacpport_netif_index b n.
Proof. apply u32_in_range. Qed.
Lemma netif_index_inj m n : eth_canonical b m -> eth_canonical b n -> npd_lacpport_netif_index b m = npd_lacpport_netif_index b n -> m = n.
Proof.
  intros Hm Hn. unfold npd_lacpport_netif_index, NetifIndex.eth_port_array_index_from_ifindex.
  destruct (eth_canonical_roundtrip b m Hb Hm) as [Rm Em], (eth_canonical_roundtrip b n Hb Hn) as [Rn En].
  pose proof max_eth_range as Hmax. unfold MAX_ETH_GLOBAL_INDEX in Hmax.
  rewrite !u32_small by (unfold u32_range; lia). congruence.
Qed.

#[local] Instance aggs_hash_laws : HashLaws (npd_aggregator_netif_index b) npd_aggregator_cmp_netif_index (MAX_ETH_GLOBAL_INDEX b).
Proof.
  unfold npd_aggregator_cmp_netif_index. split; [split; [split|]|].
  - intros x. apply Z.eqb_refl.
  - intros x y. rewrite !Z.eqb_eq. congruence.
  - intros x y z. rewrite !Z.eqb_eq. congruence.
  - intros x y H. apply Z.eqb_eq in H. unfold npd_aggregator_netif_index. by rewrite H.
  - intros x. apply Z.mod_pos_bound, max_eth_range.
Qed.

Lemma lacp_stores : LacpStores (db_table_t lacpport_actor) (db_table_t lacpport_partner) (db_table_t lacpport_sm) (db_table_t aggregator).
Proof.
  pose proof (fun D => number_seq_store (D := D) _ _ _ netif_index_pos netif_index_inj (proj1 max_eth_range)) as Hseq. split; try done.
  - apply (Hseq _ (lacp_ops (actor_key 0)) (actor_key 0) actor_netif_index).
  - apply (Hseq _ (lacp_ops (partner_key 0)) (partner_key 0) partner_netif_index).
  - apply (Hseq _ (lacp_ops (sm_key 0)) (sm_key 0) sm_netif_index).
  - apply (database_hash_store_laws (lacp_ops (agg_key 0)) (agg_key 0) 1 (npd_aggregator_netif_index b) npd_aggregator_cmp_netif_index (MAX_ETH_GLOBAL_INDEX b)).
Qed.

#[local] Existing Instance lacp_stores.

Definition no_ports : lacp_spec := Spec (fun _ => None) (fun _ => None) [].

(** The daemon starts without ports. *)
Lemma init_holds : holds (npd_lacp_init b) no_ports.
Proof.
  pose proof max_eth_range as Hm. assert (0 <= MAX_ETH_GLOBAL_INDEX b < 2 ^ 32) as Hn by lia.
  assert (48 <= MAX_SEND_SIZE - SYNC_HEADER_SIZE) as He by (vm_compute; discriminate).
  pose proof (fun D => number_seq_created (D := D) _ (eth_canonical b) _ netif_index_pos (proj1 Hm)) as Hseq.
  destruct (Hseq _ (actor_key 0) actor_netif_index (MAX_ETH_GLOBAL_INDEX b) 40 1) as [A1 A2]; [done|lia|].
  destruct (Hseq _ (partner_key 0) partner_netif_index (MAX_ETH_GLOBAL_INDEX b) 36 8) as [B1 B2]; [done|lia|].
  destruct (Hseq _ (sm_key 0) sm_netif_index (MAX_ETH_GLOBAL_INDEX b) 40 8) as [C1 C2]; [done|lia|].
  destruct (second_index_created (agg_key 0) (npd_aggregator_netif_index b) npd_aggregator_cmp_netif_index (MAX_ETH_GLOBAL_INDEX b)
    npd_aggregator_id_index npd_aggregator_id_key npd_aggregator_id_cmp (MAX_ETH_GLOBAL_INDEX b) (MAX_ETH_GLOBAL_INDEX b) 48 8)
    as (D1 & D2 & _); [done|lia|lia|].
  split; [by split|intros n..|done]; [apply A2|apply B2|apply C2|apply D2].
Qed.

End daemon.

(** ** Witness: a port that starts, waits, and hears a partner *)

(** The smallest of the boards. *)
Lemma demo_board : memory_short ∈ boards.
Proof. by left. Qed.

#[local] Instance demo_actors : KeyStore (db_table_t lacpport_actor) lacpport_actor := actors_store memory_short.
#[local] Instance demo_partners : KeyStore (db_table_t lacpport_partner) lacpport_partner := partners_store memory_short.
#[local] Instance demo_sms : KeyStore (db_table_t lacpport_sm) lacpport_sm := sms_store memory_short.
#[local] Instance demo_aggs : KeyStore (db_table_t aggregator) aggregator := aggs_store memory_short.

Lemma demo_stores : LacpStores (db_table_t lacpport_actor) (db_table_t lacpport_partner) (db_table_t lacpport_sm) (db_table_t aggregator).
Proof. apply (lacp_stores memory_short), demo_board. Qed.
#[local] Existing Instance demo_stores.

(** A port of the base board. *)
Lemma demo_canonical p : 0 <= p < 52 -> eth_canonical memory_short (npd_netif_eth_index 0 0 0 p).
Proof.
  intros Hp. assert (p ∈ seqZ 0 52) as Hin by (apply elem_of_seqZ; lia). clear Hp. revert p Hin. apply list.Forall_forall.
  let l := eval vm_compute in (seqZ 0 52) in change (seqZ 0 52) with l.
  repeat (constructor; [split; try (vm_compute; (reflexivity || (split; congruence))); left; vm_compute; (split; congruence)|]). constructor.
Qed.

Definition demo_new_port : lacp_port := initial_port demo_lacp_env false 1 true ETH_ATTR_LINKUP demo_lacp_port.
Definition demo_tables : lacp_state (db_table_t lacpport_actor) (db_table_t lacpport_partner) (db_table_t lacpport_sm) (db_table_t aggregator) :=
  match dot3ad_initialize_port demo_lacp_env false 1 true demo_lacp_port (npd_lacp_init memory_short) with
  | Some (_, st) => st
  | None => npd_lacp_init memory_short
  end.

Lemma demo_holds : holds demo_tables (set_port demo_lacp_port demo_new_port no_ports).
Proof.
  destruct (initialize_ok demo_lacp_env false 1 true ETH_ATTR_LINKUP (npd_lacp_init memory_short) no_ports demo_lacp_port)
    as (st & E & H); [apply (init_holds memory_short), demo_board|reflexivity..| | | |].
  1-3: (split_and!; [by apply (demo_canonical 3)|vm_compute; reflexivity|vm_compute; discriminate]).
  unfold demo_tables. rewrite E. exact H.
Qed.

(** Three turns of the daemon, and a packet of a partner. *)
Definition demo_turn : list (lacp_env * lacp_call) :=
  (fun c => (demo_lacp_env, c)) <$> [CReceive None demo_lacp_port; CPeriodic demo_lacp_port; CTransmit demo_lacp_port; CBeginHandled demo_lacp_port].
Definition demo_calls : list (lacp_env * lacp_call) :=
  demo_turn ++ demo_turn ++ demo_turn ++ [(demo_lacp_env, CPacket demo_lacp_port 0 demo_pdu 124)].

Lemma lacp_tables_refine_ports_witness :
  exists rs st', lacp_run demo_calls demo_tables = Some (rs, st') /\ sm_rx_state <$> find_sm st' demo_lacp_port = Some AD_RX_CURRENT.
Proof.
  destruct (lacp_tables_refine_ports demo_calls demo_tables _ demo_holds) as (st' & E & H).
  eexists. exists st'. split; [exact E|]. rewrite (holds_sm _ _ H). vm_compute. reflexivity.
Defined.
