(* ===== verification/LacpIds.v ===== *)
(** * The second index of the aggregators

    [npd_lacp.c] files the aggregators by identifier too, in a sequence index
    with a slot for each port of the switch.  Here its promises: while the
    identifiers of the aggregators differ, it finds exactly those that have a
    slot, through every insertion, update and deletion of the table. *)

From Stdlib Require Import ZArith Lia Bool.
From stdpp Require Import base decidable list gmap.
From S2P Require Import Prelude NetifIndex Database Chains DatabaseHash DatabaseSeq KeyStore Lacp LacpTables.

Open Scope Z_scope.

(** What the index promises to the choice of an identifier: [ids_ok] says that
    the identifiers differ and are filed. *)
Class AggregatorIdLaws (TG : Type) `{!KeyStore TG aggregator, !AggregatorIds TG} := {
  ids_ok : TG -> Prop;
  ids_found (t : TG) id : ks_ok t -> ids_ok t ->
    id_found t id = true <-> 0 <= id < ks_cap t /\ exists g, g ∈ ks_entries t /\ aggregator_identifier g = id;
  ids_distinct (t : TG) x y : ks_ok t -> ids_ok t -> x ∈ ks_entries t -> y ∈ ks_entries t ->
    aggregator_identifier x = aggregator_identifier y -> x = y;
  ids_insert (t : TG) g r t' : ks_ok t -> ids_ok t -> 0 <= aggregator_identifier g ->
    (forall x, x ∈ ks_entries t -> aggregator_identifier x = aggregator_identifier g -> ks_same g x = true) ->
    ks_insert t g = Some (r, t') -> ids_ok t';
  ids_delete (t : TG) g r t' : ks_ok t -> ids_ok t -> ks_delete t g = Some (r, t') -> ids_ok t'
}.

(** ** An index that another index of the table keeps up to date *)

Section other.
Context {D : Type} (ops : db_ops D) (junk : D) (k j : nat) (Hjk : j <> k).
Implicit Types (db : db_table_t D).

Lemma map_others_other f (l : list (db_index D)) : map_others k f l !! j = f <$> l !! j.
Proof.
  unfold map_others. rewrite list_lookup_imap. destruct (l !! j); [|done]. cbn. by rewrite decide_False.
Qed.

Lemma other_alter_hash db f : index_list (alter_hash db k f) !! j = index_list db !! j.
Proof. unfold alter_hash. destruct (get_hash db k); [|done]. cbn. by rewrite list_lookup_insert_ne. Qed.

Lemma other_insert_entry db i d r db' : in_table db i = true ->
  db_table_insert_entry ops db junk i d k true = Some (r, db') ->
  exists db1, index_list db' !! j = index_insert db1 junk d i <$> index_list db !! j.
Proof.
  intros Hi. unfold db_table_insert_entry. rewrite Hi. cbn [negb]. cbv zeta. set (db1 := alter_entry db i _). set (db2 := insert_others _ _ _ _ _).
  assert (index_list db2 !! j = index_insert db1 junk d i <$> index_list db !! j) as H2 by apply map_others_other.
  intros H. exists db1. rewrite <- H2. destruct (sync_wanted ops db2 true); [|by injection H as _ <-].
  destruct (dbtable_sync_data_insert ops db2 i 1) as [db3|] eqn:E; [|done]. injection H as _ <-. by rewrite (index_sync_insert _ _ _ _ _ E).
Qed.

Lemma other_update_entry db i d x : contents db !! i = Some x ->
  exists db1, index_list (db_table_update_entry ops db junk i d k true).2 !! j =
    index_insert db1 junk d i <$> (index_delete db junk (Some x) <$> index_list db !! j).
Proof.
  intros Hx. rewrite contents_lookup in Hx. unfold db_table_update_entry.
  assert (rd (entries db) i ≫= real_data = Some x) as ->.
  { unfold db_table_get_entry in Hx. destruct (rd (entries db) i) as [e|]; [|done]. cbn [mbind option_bind] in *. by destruct (negb _). }
  cbv zeta. cbn [snd]. set (db1 := alter_entry _ i _). set (db2 := insert_others _ _ _ _ _). exists db1.
  assert (index_list db2 !! j = index_insert db1 junk d i <$> (index_delete db junk (Some x) <$> index_list db !! j)) as H2.
  { unfold db2, insert_others. cbn [index_list with_index_list]. rewrite map_others_other. f_equal. apply map_others_other. }
  destruct (_ && _); [|done]. unfold dbtable_sync_data_update. by rewrite index_sync_piece.
Qed.

Lemma other_free_entry db i x : contents db !! i = Some x ->
  index_list (db_table_free_entry_index db junk i k).2 !! j = index_delete db junk (Some x) <$> index_list db !! j.
Proof.
  intros Hx. rewrite contents_lookup in Hx. unfold db_table_free_entry_index, db_table_get_entry in *.
  destruct (rd (entries db) i) as [e|] eqn:He; [|done]. cbn [mbind option_bind] in Hx.
  assert (in_table db i = true) as ->.
  { apply in_table_spec. by apply rd_Some_lt in He. }
  destruct (Z.land (flags e) DB_ENTRY_EXIST =? 0); [done|]. cbn [negb] in *. rewrite Hx. apply map_others_other.
Qed.

(** *** The other index through the operations of a hash index *)

Context (key : D -> Z) (cmp : D -> D -> bool) (sz : Z) `{!HashLaws key cmp sz}.

(** What an insertion does to the contents and to the other index [x]: a
    record is replaced, added, or nothing happens. *)
Definition other_insert db (d : D) (db' : db_table_t D) : Prop :=
  (exists i x db0 db1, contents db !! i = Some x /\ contents db0 = contents db /\ cmp d x = true /\ contents db' = <[i := d]> (contents db) /\
     index_list db' !! j = index_insert db1 junk d i <$> (index_delete db0 junk (Some x) <$> index_list db !! j)) \/
  (exists i db1, contents db !! i = None /\ (forall l x, ~ is_entry cmp (contents db) d l x) /\ contents db' = <[i := d]> (contents db) /\
     index_list db' !! j = index_insert db1 junk d i <$> index_list db !! j) \/
  (contents db' = contents db /\ index_list db' !! j = index_list db !! j).

Lemma other_hash_insert db d r db' : hash_ok k key cmp sz db -> dbtable_hash_insert ops junk db k d = Some (r, db') -> other_insert db d db'.
Proof.
  intros Hh E. destruct (hash_insert_ok ops junk k key cmp sz db d Hh) as (r0 & db0 & E0 & Hpost). rewrite E in E0. injection E0 as <- <-.
  pose proof Hh as [Hw (h & Hg & Hok)]. unfold dbtable_hash_insert, hash_insert in E. rewrite Hg, (ch_key _ _ _ _ _ Hok) in E. cbv zeta in E.
  destruct (hash_key_ok key cmp sz _ h d Hok) as [Hk _]. rewrite Hk in E. set (dbc := add_count (db_table_lock db) k 1) in *.
  assert (core_eq dbc (db_table_lock db)) as Hc by apply core_alter_hash.
  assert (contents dbc = contents db) as Hcc by (by rewrite Hc).
  assert (index_list dbc !! j = index_list db !! j) as Hj by exact (other_alter_hash (db_table_lock db) _).
  rewrite scan_place_scan in E. change (chain_of h (key d)) with (chain_at (index h) (key d)) in E at 1.
  destruct (scan_bucket dbc (index h) d junk (hash_cmp h d)) as [(i & x & He & Hs)|[Hno (buf & Hs)]];
    [rewrite Hcc; apply Hok|by rewrite (ch_cmp _ _ _ _ _ Hok)| |]; rewrite Hs in E; clear Hs; rewrite Hcc in *.
  - destruct (other_update_entry dbc i d x) as (db1 & H1); [by rewrite Hcc; apply He|].
    destruct (db_table_update_entry ops dbc junk i d k true) as [r2 db2]. cbn [snd] in H1. injection E as _ <-.
    left. exists i, x, dbc, db1. destruct Hpost as [(i' & x' & He' & _ & Hr)|[Hno _]]; [|by destruct (Hno i x)].
    destruct (is_entry_unique _ _ _ _ _ _ _ (ch_buckets _ _ _ _ _ Hok) He He') as [<- <-].
    split_and!; [apply He|done|apply He|apply Hr|]. rewrite <- Hj, <- H1.
    set (db3 := add_count db2 k (-1)). trans (index_list db3 !! j); [|apply other_alter_hash].
    by destruct (_ =? 0); cbn; rewrite ?index_synced, ?index_unsynced.
  - destruct Hpost as [(i & x & He & _)|[_ Hpost]]; [by destruct (Hno i x)|]. rewrite <- (alloc_list_free_ids db Hw) in Hpost.
    assert (entry_alloc_list dbc = entry_alloc_list db) as Ha by (by rewrite (core_alloc _ _ Hc)).
    destruct (entry_alloc_list db) as [|i l] eqn:El.
    + right. right. unfold osal_table_entry_id_alloc in E. rewrite Ha in E. injection E as _ <-. split; [apply Hpost|].
      rewrite <- Hj. exact (other_alter_hash (db_table_unlock dbc) _).
    + right. left. destruct (alloc_head dbc i l) as [Ea Hi]; [rewrite Hc; by apply wf_lock|by rewrite Ha|]. rewrite Ea in E.
      destruct (Z.eqb_spec i (-1)); [lia|]. set (db1 := alter_hash _ _ _) in E.
      destruct (db_table_insert_entry ops db1 junk i d k true) as [[r2 db2]|] eqn:E2; [|done]. cbn [mbind option_bind] in E. injection E as _ <-.
      destruct (other_insert_entry db1 i d r2 db2) as (db3 & H3); [|done|].
      { apply in_table_spec. unfold db1. rewrite core_alter_hash.
        change (0 <= i < entry_num dbc). rewrite Hc. apply (wf_free _ Hw i). rewrite El. by left. }
      exists i, db3. split_and!; [|done|apply Hpost|].
      * apply contents_exist; [done|]. apply (wf_free _ Hw i). rewrite El. by left.
      * trans (index_list db2 !! j); [by destruct (_ =? 0); cbn; rewrite ?index_synced|]. rewrite H3. f_equal. rewrite <- Hj.
        unfold db1. by rewrite other_alter_hash.
Qed.

Lemma other_hash_delete db d r db' : hash_ok k key cmp sz db -> dbtable_hash_delete ops junk db k d = (r, db') ->
  (exists i x db0, contents db !! i = Some x /\ contents db0 = contents db /\ contents db' = delete i (contents db) /\
     index_list db' !! j = index_delete db0 junk (Some x) <$> index_list db !! j) \/ db' = db.
Proof.
  intros Hh E. destruct (hash_delete_ok ops junk k key cmp sz db d Hh) as (r0 & db0 & E0 & Hpost). rewrite E in E0. injection E0 as <- <-.
  destruct Hpost as [(i & x & He & _ & Hr)|(_ & _ & ->)]; [|by right]. left.
  pose proof Hh as [Hw (h & Hg & Hok)]. unfold dbtable_hash_delete in E. rewrite Hg, (ch_key _ _ _ _ _ Hok) in E. cbv zeta in E.
  destruct (hash_key_ok key cmp sz _ h d Hok) as [Hk _]. rewrite Hk in E.
  destruct (scan_bucket (db_table_lock db) (index h) d junk (fun x => hash_cmp h x d)) as [(i' & x' & He' & Hs)|[Hno _]];
    [apply Hok|intros y; by rewrite (ch_cmp _ _ _ _ _ Hok), (cmp_sym (key := key))| |by destruct (Hno i x)].
  unfold chain_at in Hs. unfold chain_of at 1 in E. rewrite Hs in E. clear Hs.
  destruct (is_entry_unique _ _ _ _ _ _ _ (ch_buckets _ _ _ _ _ Hok) He He') as [<- <-].
  set (db1 := alter_hash (db_table_lock db) k _) in E.
  assert (contents db1 = contents db) as Hc1 by (unfold db1; by rewrite core_alter_hash).
  pose proof (other_free_entry db1 i x) as H2. rewrite Hc1 in H2. specialize (H2 (proj1 He)).
  destruct (db_table_free_entry_index db1 junk i k) as [r2 db2]. cbn [snd] in H2.
  pose proof (index_delete_entry ops db2 i true) as H3. destruct (db_table_delete_entry ops db2 i true) as [r3 db3]. cbn [snd] in H3.
  injection E as _ <-. exists i, x, db1. split_and!; [apply He|done|apply Hr|].
  trans (index_list (add_count db3 k (-1)) !! j); [done|]. unfold add_count. rewrite other_alter_hash, H3, H2. f_equal.
  exact (other_alter_hash (db_table_lock db) _).
Qed.

End other.

(** ** Aggregators by identifier *)

Section filed.
Context (b : board) (Hb : b ∈ boards).
Abbreviation slots := (MAX_ETH_GLOBAL_INDEX b).
Implicit Types (m : gmap Z aggregator) (s : dbsequence_t aggregator) (db : db_table_t aggregator).

(** The identifiers of the aggregators differ, and [s] has each one that has a
    slot there, and nothing else. *)
Record files m s : Prop := {
  fi_size : seq_size s = slots;
  fi_len : zlen (seq_index s) = slots;
  fi_index : sequence_index s = npd_aggregator_id_index;
  fi_key : sequence_key s = npd_aggregator_id_key;
  fi_cmp : sequence_cmp s = npd_aggregator_id_cmp;
  fi_pos i g : m !! i = Some g -> 0 <= aggregator_identifier g;
  fi_distinct i j g g' : m !! i = Some g -> m !! j = Some g' -> aggregator_identifier g = aggregator_identifier g' -> i = j;
  fi_there i g : m !! i = Some g -> aggregator_identifier g < slots -> chain_at (seq_index s) (aggregator_identifier g) = [i];
  fi_free id : 0 <= id < slots -> (forall i g, m !! i = Some g -> aggregator_identifier g <> id) -> chain_at (seq_index s) id = []
}.

Lemma files_chain s id l id' : zlen (seq_index s) = slots -> 0 <= id < slots ->
  chain_at (seq_index (with_seq_chain s id l)) id' = if decide (id' = id) then l else chain_at (seq_index s) id'.
Proof.
  intros Hl H. change (chain_at (set_chain (seq_index s) id l) id' = if decide (id' = id) then l else chain_at (seq_index s) id').
  rewrite chain_set_chain by lia. by destruct (Z.eqb_spec id' id), (decide (id' = id)).
Qed.

(** A new aggregator with a new identifier is filed. *)
Lemma files_insert m s db1 i g : files m s -> m !! i = None -> 0 <= aggregator_identifier g ->
  (forall j x, m !! j = Some x -> aggregator_identifier x <> aggregator_identifier g) ->
  files (<[i := g]> m) (dbtable_sequence_internal_insert db1 (agg_key 0) s g i).
Proof.
  intros [F1 F2 F3 F4 F5 F6 F7 F8 F9] Hi Hg Hnew. unfold dbtable_sequence_internal_insert. rewrite F3, F4, F1. cbv zeta.
  unfold npd_aggregator_id_index, npd_aggregator_id_key.
  assert (forall j x, <[i := g]> m !! j = Some x -> j = i /\ x = g \/ j <> i /\ m !! j = Some x) as Hcase.
  { intros j x. rewrite lookup_insert_Some. intros [[-> ->]|[Hn Hx]]; [by left|by right]. }
  assert (forall j x, <[i := g]> m !! j = Some x -> 0 <= aggregator_identifier x) as Hpos by (intros j x [[_ ->]|[_ Hx]]%Hcase; [done|by eapply F6]).
  assert (forall j k x y, <[i := g]> m !! j = Some x -> <[i := g]> m !! k = Some y -> aggregator_identifier x = aggregator_identifier y -> j = k) as Hdist.
  { intros j k x y [[-> ->]|[_ Hx]]%Hcase [[-> ->]|[_ Hy]]%Hcase E; [done| | |by eapply F7]; exfalso; [by apply (Hnew k y)|by apply (Hnew j x)]. }
  destruct (Z.leb_spec slots (aggregator_identifier g)) as [Hge|Hlt].
  - split; try done.
    + intros j x [[-> ->]|[_ Hx]]%Hcase Hs; [lia|by apply F8].
    + intros id Hid Hno. apply F9; [done|]. intros j x Hx. apply (Hno j). apply lookup_insert_Some. right. split; [congruence|done].
  - assert (chain_at (seq_index s) (aggregator_identifier g) = []) as Hnil by (apply F9; [lia|]; intros j x Hx; by apply (Hnew j)).
    change (seq_chain s (aggregator_identifier g)) with (chain_at (seq_index s) (aggregator_identifier g)). rewrite Hnil. cbn [scan_chain fst app].
    split; try done; [by unfold with_seq_chain; cbn [seq_index]; rewrite zlen_insert|intros j x [[-> ->]|[Hn Hx]]%Hcase Hs|intros id Hid Hno];
      rewrite files_chain by (done || lia).
    + by rewrite decide_True.
    + rewrite decide_False by (by apply (Hnew j)). by apply F8.
    + rewrite decide_False by (intros ->; apply (Hno i g); [apply lookup_insert_Some; by left|done]). apply F9; [done|]. intros j x Hx.
      apply (Hno j). apply lookup_insert_Some. right. split; [congruence|done].
Qed.

(** One that goes is taken out. *)
Lemma files_delete m s db i g : files m s -> contents db = m -> m !! i = Some g ->
  files (delete i m) (dbtable_sequence_internal_delete db (agg_key 0) s g).
Proof.
  intros [F1 F2 F3 F4 F5 F6 F7 F8 F9] Hm Hi. unfold dbtable_sequence_internal_delete. rewrite F3, F4, F5, F1. cbv zeta.
  unfold npd_aggregator_id_index, npd_aggregator_id_key.
  assert (forall j x, delete i m !! j = Some x -> j <> i /\ m !! j = Some x) as Hcase by (intros j x; rewrite lookup_delete_Some; by intros [? ?]).
  assert (forall j x, delete i m !! j = Some x -> 0 <= aggregator_identifier x) as Hpos by (intros j x [_ Hx]%Hcase; by eapply F6).
  assert (forall j k x y, delete i m !! j = Some x -> delete i m !! k = Some y -> aggregator_identifier x = aggregator_identifier y -> j = k) as Hdist
    by (intros j k x y [_ Hx]%Hcase [_ Hy]%Hcase; by eapply F7).
  pose proof (F6 i g Hi) as Hg. destruct (Z.leb_spec slots (aggregator_identifier g)) as [Hge|Hlt].
  - split; try done; [intros j x [_ Hx]%Hcase; by apply F8|]. intros id Hid Hno. apply F9; [done|]. intros j x Hx He.
    destruct (decide (j = i)) as [->|Hn]; [assert (x = g) as -> by congruence; lia|]. apply (Hno j x); [by apply lookup_delete_Some|done].
  - change (seq_chain s (aggregator_identifier g)) with (chain_at (seq_index s) (aggregator_identifier g)). rewrite (F8 i g Hi Hlt).
    assert (db_table_get_entry db i = Some g) as He by (by rewrite <- contents_lookup, Hm). cbn [scan_chain]. rewrite He.
    cbn [default]. unfold id at 1. unfold npd_aggregator_id_cmp at 1. rewrite Z.eqb_refl. cbn [fst unlink]. rewrite Z.eqb_refl.
    split; try done; [by unfold with_seq_chain; cbn [seq_index]; rewrite zlen_insert|intros j x [Hn Hx]%Hcase Hs|intros id Hid Hno];
      rewrite files_chain by (done || lia).
    + rewrite decide_False by (intros E; apply Hn; by eapply F7). by apply F8.
    + destruct (decide (id = aggregator_identifier g)) as [|Hne]; [done|]. apply F9; [done|]. intros j x Hx E.
      destruct (decide (j = i)) as [->|Hn]; [assert (x = g) as -> by congruence; by apply Hne|]. apply (Hno j x); [by apply lookup_delete_Some|done].
Qed.

#[local] Instance filed_aggs : KeyStore (db_table_t aggregator) aggregator := aggs_store b.
#[local] Instance filed_ids : AggregatorIds (db_table_t aggregator) := aggs_ids.
#[local] Instance filed_laws : HashLaws (npd_aggregator_netif_index b) npd_aggregator_cmp_netif_index slots := aggs_hash_laws b Hb.

Definition filed db : Prop := entry_num db = slots /\ exists s, index_list db !! 0%nat = Some (SeqIndex s) /\ files (contents db) s.

Lemma entries_contents db g : ks_ok db -> g ∈ ks_entries db <-> exists i, contents db !! i = Some g.
Proof.
  intros Hok. pose proof Hok as [_ (h & Hg & Hc)]. unfold ks_entries. cbn [filed_aggs aggs_store database_hash_store]. rewrite Hg.
  apply (elem_of_walk (key := npd_aggregator_netif_index b) (cmp := npd_aggregator_cmp_netif_index)), Hc.
Qed.

Lemma filed_found db id : ks_ok db -> filed db ->
  id_found db id = true <-> 0 <= id < ks_cap db /\ exists g, g ∈ ks_entries db /\ aggregator_identifier g = id.
Proof.
  intros Hok (Hn & s & Hs & [F1 F2 F3 F4 F5 F6 F7 F8 F9]). setoid_rewrite (entries_contents db _ Hok).
  unfold id_found, filed_ids, aggs_ids, dbtable_sequence_search, get_seq. rewrite Hs, F3, F1, F5. cbv zeta. unfold npd_aggregator_id_index.
  change (ks_cap db) with (entry_num db). rewrite Hn. destruct (Z.leb_spec slots id) as [Hge|Hlt]; [split; [done|lia]|].
  change (seq_chain s id) with (chain_at (seq_index s) id).
  destruct (Z.ltb_spec id 0) as [Hneg|Hpos].
  { assert (chain_at (seq_index s) id = []) as -> by (unfold chain_at, rd; destruct (Z.leb_spec 0 id); [lia|done]). split; [done|lia]. }
  split.
  - intros H. split; [lia|]. destruct (chain_at (seq_index s) id) as [|i l] eqn:Ec; [done|].
    destruct (map_choose_or_empty (filter (fun x => aggregator_identifier x.2 = id) (contents db))) as [(i' & g & Hg)|Hno].
    + apply map_lookup_filter_Some in Hg as [Hg He]. exists g. split; [by exists i'|exact He].
    + exfalso. rewrite F9 in Ec; [done|lia|]. intros j g Hg He.
      assert (filter (fun x => aggregator_identifier x.2 = id) (contents db) !! j = Some g) as Hj by (by apply map_lookup_filter_Some).
      by rewrite Hno, lookup_empty in Hj.
  - intros (_ & g & (i & Hi) & He). rewrite <- He in Hlt |- *. rewrite (F8 i g Hi Hlt). cbn [scan_present].
    rewrite contents_lookup in Hi. change (db_table_get_entry (db_table_read_lock db) i) with (db_table_get_entry db i). rewrite Hi.
    unfold npd_aggregator_id_cmp. cbn [with_id aggregator_identifier]. rewrite Z.eqb_refl.
    change (db_table_get_entry (db_table_read_lock db) i) with (db_table_get_entry db i). by rewrite Hi.
Qed.

Lemma filed_insert db g r db' : ks_ok db -> filed db -> 0 <= aggregator_identifier g ->
  (forall x, x ∈ ks_entries db -> aggregator_identifier x = aggregator_identifier g -> ks_same g x = true) ->
  ks_insert db g = Some (r, db') -> filed db'.
Proof.
  intros Hok (Hn & s & Hs & Hf) Hg Hsame E. change (ks_insert db g) with (dbtable_hash_insert (lacp_ops (agg_key 0)) (agg_key 0) db 1 g) in E.
  pose proof Hok as [_ (h & _ & Hc)]. pose proof (ch_buckets _ _ _ _ _ Hc) as Hbk.
  split.
  { destruct (hash_insert_ok (lacp_ops (agg_key 0)) (agg_key 0) 1 (npd_aggregator_netif_index b) npd_aggregator_cmp_netif_index slots db g Hok)
      as (r0 & db0 & E0 & Hp). rewrite E in E0. injection E0 as <- <-. rewrite <- Hn.
    destruct Hp as [(i & x & _ & _ & Hr)|[_ Hp]]; [apply Hr|]. destruct (free_ids _ _); apply Hp. }
  destruct (other_hash_insert (lacp_ops (agg_key 0)) (agg_key 0) 1 0 ltac:(done) _ _ _ db g r db' Hok E)
    as [(i & x & db0 & db1 & Hi & H0 & Hx & Hc' & Hj)|[(i & db1 & Hi & Hno & Hc' & Hj)|[Hc' Hj]]]; rewrite Hs in Hj; cbn in Hj; rewrite Hj, Hc'.
  - eexists. split; [done|]. rewrite <- insert_delete_eq. apply files_insert; [by apply files_delete|by rewrite lookup_delete_eq|done|].
    intros j y [Hn' Hy]%lookup_delete_Some He. apply Hn'.
    assert (ks_same g y = true) as Hgy by (apply Hsame; [|done]; apply entries_contents; [done|by exists j]).
    destruct (is_entry_unique _ _ g i j x y Hbk) as [-> _]; [by split|by split|done].
  - eexists. split; [done|]. apply files_insert; [done|done|done|]. intros j y Hy He.
    assert (ks_same g y = true) as Hgy by (apply Hsame; [|done]; apply entries_contents; [done|by exists j]).
    by apply (Hno j y).
  - by exists s.
Qed.

Lemma filed_delete db g r db' : ks_ok db -> filed db -> ks_delete db g = Some (r, db') -> filed db'.
Proof.
  intros Hok (Hn & s & Hs & Hf). unfold ks_delete. cbn [filed_aggs aggs_store database_hash_store].
  destruct (dbtable_hash_delete (lacp_ops (agg_key 0)) (agg_key 0) db 1 g) as [[r0 o] db0] eqn:E. intros [= <- <-].
  destruct (hash_delete_ok (lacp_ops (agg_key 0)) (agg_key 0) 1 (npd_aggregator_netif_index b) npd_aggregator_cmp_netif_index slots db g Hok)
    as (r1 & db1 & E1 & Hp). rewrite E in E1. injection E1 as <- <-.
  destruct (other_hash_delete (lacp_ops (agg_key 0)) (agg_key 0) 1 0 ltac:(done) _ _ _ db g (r0, o) db0 Hok E)
    as [(i & x & db1 & Hi & H1 & Hc' & Hj)| ->]; [|split; [done|by exists s]].
  split; [rewrite <- Hn; destruct Hp as [(? & ? & _ & _ & Hr)|(_ & _ & ->)]; [apply Hr|done]|].
  rewrite Hs in Hj. cbn in Hj. rewrite Hj, Hc'. eexists. split; [done|]. by apply files_delete.
Qed.

Definition aggregator_id_laws : AggregatorIdLaws (db_table_t aggregator).
Proof.
  refine {| ids_ok := filed; ids_found := filed_found; ids_insert := filed_insert; ids_delete := filed_delete |}.
  intros db x y Hok (_ & s & _ & Hf). rewrite !(entries_contents db _ Hok). intros (i & Hi) (j & Hj) E.
  assert (i = j) as <- by exact (fi_distinct _ _ Hf i j x y Hi Hj E). congruence.
Defined.

(** The daemon starts with the index empty. *)
Lemma init_filed : filed (aggs (npd_lacp_init b)).
Proof.
  pose proof (max_eth_range b Hb) as Hm. assert (48 <= MAX_SEND_SIZE - SYNC_HEADER_SIZE) as He by (vm_compute; discriminate).
  destruct (second_index_created (agg_key 0) (npd_aggregator_netif_index b) npd_aggregator_cmp_netif_index slots
    npd_aggregator_id_index npd_aggregator_id_key npd_aggregator_id_cmp slots slots 48 8) as (_ & _ & Hc); [lia|lia|lia|].
  destruct (create_wf (D := aggregator) slots 48 8) as (_ & _ & Hn); [lia|lia|].
  split; [exact Hn|]. eexists. split; [done|]. unfold npd_lacp_init. cbn [aggs]. rewrite Hc.
  split; try done; [unfold zlen; cbn [seq_index]; rewrite length_replicate; lia|].
  intros id Hid _. unfold chain_at, rd. destruct (0 <=? id); [|done]. cbn [seq_index]. rewrite lookup_replicate_2 by lia. done.
Qed.

End filed.
