(* ===== verification/LacpSelect.v ===== *)
(** * npd: the choice of an aggregator (802.3ad)

    Model of the second half of [src/src/npdsuit/npd/src/app/npd_lacp.c]:
    aggregators and their identifiers, [dot3ad_port_selection_logic] with the
    dynamic trunks it joins, leaves and makes, the turn of
    [dot3ad_state_machine_handler] for each aggregator, and the protocol
    turned on and off on a port.  The table of trunks belongs to
    [npd_trunk.c]; what is used of it is the class [Trunks]. *)

From Stdlib Require Import ZArith Lia Bool Ascii String.
From stdpp Require Import base decidable list gmap.
From S2P Require Import Prelude Cstring NetifIndex Database Chains DatabaseHash DatabaseSeq KeyStore Lacp.

Open Scope Z_scope.

Definition AGGREGATOR_ID : Z := 4096.
Definition AD_ACTIVE : Z := 1.
Definition TRUNK_RETURN_CODE_PORT_EXISTS : Z := 0x100006.

(** What is used of [struct trunk_s]; the ports are array numbers. *)
Record trunk_s := Trunk { trunk_ports : list Z; trunk_g_index : Z; trunk_mode : Z; trunk_name : cstr; master_port_index : Z }.

(** The table of trunks: searches, the update whose result is not used, and
    the calls that change trunks and the switch.  On a dynamic trunk none of
    them comes back to the tables of this module: the events they raise are
    ignored by [npd_lacp_handle_port_event] and
    [npd_lacp_handle_port_relate_event]. *)
Class Trunks (W : Type) := {
  npd_find_trunk : W -> Z -> option trunk_s;
  npd_find_trunk_by_name : W -> cstr -> bool;
  update_trunk : Z -> trunk_s -> W -> W;
  npd_trunk_activate : Z -> cstr -> W -> Z * W;
  npd_trunk_port_add : Z -> Z -> W -> Z * W;
  npd_trunk_port_del : Z -> Z -> W -> Z * W;
  npd_trunk_destroy_node : Z -> W -> Z * W
}.

(** What the choice needs besides [lacp_env]: the number of trunks, the
    interface of an array port, and what uninitialised heap records hold. *)
Record sel_env := SelEnv {
  lacp_of : lacp_env;
  max_trunk : Z;
  eth_port_array_index_to_ifindex : Z -> Z;
  heap_id : Z;
  heap_ports : list Z
}.

(** The state: the tables, the trunks, the static [aggregator_identifier]. *)
Record sel_state (TA TP TM TG W : Type) := SelState { lacp : lacp_state TA TP TM TG; world : W; last_id : Z }.
Arguments SelState {TA TP TM TG W}.
Arguments lacp {TA TP TM TG W}.
Arguments world {TA TP TM TG W}.
Arguments last_id {TA TP TM TG W}.

(** Computations on the state; [None] is a crash. *)
Definition SM (TA TP TM TG W A : Type) : Type := sel_state TA TP TM TG W -> option (A * sel_state TA TP TM TG W).
#[export] Instance SM_ret {TA TP TM TG W} : MRet (SM TA TP TM TG W) := fun A a s => Some (a, s).
#[export] Instance SM_bind {TA TP TM TG W} : MBind (SM TA TP TM TG W) := fun A B f m s =>
  match m s with Some (a, s) => f a s | None => None end.

(** Assignments. *)
Definition with_agg_id (a : lacpport_actor) (id : Z) : lacpport_actor :=
  Actor (actor_netif_index a) (actor_port_number a) (actor_port_priority a) (actor_system a) (actor_system_priority a)
    id (actor_admin_port_key a) (actor_oper_port_key a) (actor_admin_port_state a) (actor_oper_port_state a)
    (is_enabled a) (is_lacp_enable a) (lacp_mode a) (trunk_netif_index a).
Definition with_trunk (a : lacpport_actor) (trunk : Z) : lacpport_actor :=
  Actor (actor_netif_index a) (actor_port_number a) (actor_port_priority a) (actor_system a) (actor_system_priority a)
    (actor_port_aggregator_identifier a) (actor_admin_port_key a) (actor_oper_port_key a) (actor_admin_port_state a)
    (actor_oper_port_state a) (is_enabled a) 1 (lacp_mode a) trunk.
Definition with_num (g : aggregator) (num : Z) : aggregator :=
  Aggregator (agg_netif_index g) (aggregator_identifier g) (is_individual g) (actor_oper_aggregator_key g) (agg_partner_system g)
    (agg_partner_system_priority g) (partner_oper_aggregator_key g) (aggregator_mode g) num.
Definition with_individual (g : aggregator) (x : Z) : aggregator := with_agg_actor g x (actor_oper_aggregator_key g).

Section select.
Context {TA TP TM TG W : Type} `{!KeyStore TA lacpport_actor, !KeyStore TP lacpport_partner, !KeyStore TM lacpport_sm, !KeyStore TG aggregator, !AggregatorIds TG, !Trunks W}.
Context (env : sel_env).
Abbreviation M := (SM TA TP TM TG W).

(** *** Access to the state *)

Definition get_actor (n : Z) : M (option lacpport_actor) := fun s => Some (find_actor (lacp s) n, s).
Definition get_partner (n : Z) : M (option lacpport_partner) := fun s => Some (find_partner (lacp s) n, s).
Definition get_sm (n : Z) : M (option lacpport_sm) := fun s => Some (find_sm (lacp s) n, s).
Definition get_agg (n : Z) : M (option aggregator) := fun s => Some (find_agg (lacp s) n, s).
Definition get_ids : M (Z -> bool) := fun s => Some (id_found (aggs (lacp s)), s).
Definition get_aggs : M (list aggregator) := fun s => Some (ks_entries (aggs (lacp s)), s).
Definition get_world : M W := fun s => Some (world s, s).
Definition get_last_id : M Z := fun s => Some (last_id s, s).
Definition set_last_id (id : Z) : M unit := fun s => Some (tt, SelState (lacp s) (world s) id).

(** An operation of [Lacp]. *)
Definition on_tables (f : lacp_state TA TP TM TG -> option (Z * lacp_state TA TP TM TG)) : M Z := fun s =>
  match f (lacp s) with Some (r, st) => Some (r, SelState st (world s) (last_id s)) | None => None end.
Definition store (f : lacp_state TA TP TM TG -> option (lacp_state TA TP TM TG)) : M unit := fun s =>
  match f (lacp s) with Some st => Some (tt, SelState st (world s) (last_id s)) | None => None end.
Definition set_actor (a : lacpport_actor) : M unit := store (fun st => put_actor st a).
Definition set_sm (x : lacpport_sm) : M unit := store (fun st => put_sm st x).
Definition set_agg (g : aggregator) : M unit := store (fun st => put_agg st g).
Definition insert_agg (g : aggregator) : M Z := on_tables (fun st =>
  '(rc, t) ← ks_insert (aggs st) g; Some (rc, LS (actors st) (partners st) (sms st) t (lacp_sent st))).

(** An operation on the trunks. *)
Definition on_trunks (f : W -> Z * W) : M Z := fun s => let '(r, w) := f (world s) in Some (r, SelState (lacp s) w (last_id s)).

(** *** Identifiers and aggregators *)

(** The loop over the identifiers ends at the first one that the second index
    of the aggregators does not find; 0 if there is none. *)
Definition npd_aggregator_id_get : M Z :=
  found ← get_ids;
  last ← get_last_id;
  match find (fun id => negb (found id)) (seqZ 1 (AGGREGATOR_ID - 1)) with
  | Some id => if id <=? last then mret id else (set_last_id (u16 (last + 1));; mret (u16 (last + 1)))
  | None => mret 0
  end.

Definition npd_aggregator_get_max_id : M Z :=
  found ← get_ids;
  id ← get_last_id;
  if negb (found id) && negb (id =? 0) then mret id else (set_last_id (u16 (id + 1));; mret (u16 (id + 1))).

(** [dot3ad_clear_agg] and the identifier; the record was zeroed before. *)
Definition dot3ad_initialize_agg (n : Z) : M aggregator :=
  id ← (if NPD_NETIF_ETH_TYPE =? npd_netif_type_get n then npd_aggregator_id_get else npd_aggregator_get_max_id);
  mret (Aggregator n id 0 0 null_mac_addr 0 0 0 0).

Definition with_mode (g : aggregator) (mode : Z) : aggregator :=
  Aggregator (agg_netif_index g) (aggregator_identifier g) (is_individual g) (actor_oper_aggregator_key g) (agg_partner_system g)
    (agg_partner_system_priority g) (partner_oper_aggregator_key g) mode (num_of_ports g).

Definition npd_lacp_aggregator_init (n mode : Z) : M Z :=
  g ← dot3ad_initialize_agg n;
  let g := with_mode g mode in
  if NPD_NETIF_ETH_TYPE =? npd_netif_type_get n then
    a ← get_actor n;
    match a with
    | None => mret (-1)
    | Some a =>
        p ← get_partner n;
        match p with
        | None => mret (-1)
        | Some p =>
            set_actor (with_agg_id a (aggregator_identifier g));;
            insert_agg (with_num (with_agg_actor (with_agg_partner g (partner_oper p))
              (if on (actor_oper_port_key a) AD_DUPLEX_KEY_BITS then 0 else 1) (actor_oper_port_key a)) 1)
        end
    end
  else insert_agg g.

(** *** Dynamic trunks *)

(** The state of an actor that carries frames, and of one that left. *)
Definition joined_state (x : Z) : Z :=
  set x (set (set (set (set AD_STATE_COLLECTING AD_STATE_DISTRIBUTING) AD_STATE_AGGREGATION) AD_STATE_SYNCHRONIZATION) AD_STATE_LACP_ACTIVITY).
Definition left_state (x : Z) : Z :=
  set (clr (clr (clr x AD_STATE_SYNCHRONIZATION) AD_STATE_COLLECTING) AD_STATE_DISTRIBUTING)
    (set AD_STATE_AGGREGATION AD_STATE_LACP_ACTIVITY).

Definition tx_restart (s : lacpport_sm) : lacpport_sm := with_tx_timer s (dot3ad_ticks_per_sec / AD_MAX_TX_IN_SECOND).
Definition one_more_tick (s : lacpport_sm) : lacpport_sm := with_rx s (sm_rx_state s) (u16 (sm_rx_timer_counter s + 1)).
Definition selected_on (s : lacpport_sm) : lacpport_sm := with_vars s (set (sm_vars s) (set AD_PORT_LACP_ENABLED AD_PORT_SELECTED)).

(** An actor that joined an aggregator of a trunk, and one that left. *)
Definition joined_actor (a : lacpport_actor) (g : aggregator) (trunk : Z) : lacpport_actor :=
  with_trunk (with_agg_id (with_oper_state a (joined_state (actor_oper_port_state a))) (aggregator_identifier g)) trunk.
Definition left_actor (a : lacpport_actor) : lacpport_actor := with_trunk (with_oper_state a (left_state (actor_oper_port_state a))) 0.

(** The port's own aggregator is removed if it has one. *)
Definition delete_own (own : option aggregator) (n : Z) : M Z :=
  match own with Some _ => on_tables (npd_lacp_aggregator_delete n) | None => mret 0 end.

Definition dynamic_aggregator_join (trunk n : Z) : M Z :=
  a ← get_actor n;
  p ← get_partner n;
  match a, p with
  | Some _, Some _ =>
      own ← get_agg n;
      ret ← delete_own own n;
      if negb (ret =? 0) then mret ret else
      w ← get_world;
      match npd_find_trunk w (npd_netif_trunk_get_tid trunk) with
      | None => mret (-1)
      | Some _ =>
          ret ← on_trunks (npd_trunk_port_add (npd_netif_trunk_get_tid trunk) n);
          if negb (ret =? 0) then mret ret else
          g ← get_agg trunk;
          s ← get_sm n;
          match g, s with
          | Some g, Some s =>
              let s := if from_option aggregator_identifier (heap_id env) own <? aggregator_identifier g then one_more_tick s else s in
              a ← get_actor n;
              match a with
              | None => mret (-1)
              | Some a =>
                  set_agg (with_num g (u16 (num_of_ports g + 1)));;
                  set_sm (selected_on (tx_restart s));;
                  set_actor (joined_actor a g trunk);;
                  mret 0
              end
          | None, _ => mret DB_TABLE_RETURN_CODE_ENTRY_NOT_EXIST
          | Some _, None => mret (-1)
          end
      end
  | _, _ => mret (-1)
  end.

(** The interface of a member of a trunk. *)
Definition member_ifindex (array_port : Z) : Z := Z.land (eth_port_array_index_to_ifindex env array_port) 0xFFFFC000.

(** The other members of a trunk that has one port left get aggregators of
    their own, and the trunk goes; after the first of them the trunk and its
    aggregator are gone, and the loop ends with the first failure. *)
Fixpoint release_members (trunk n : Z) (members : list Z) (ret : Z) : M Z :=
  match members with
  | [] => mret ret
  | array_port :: members =>
      let m := member_ifindex array_port in
      if n =? m then release_members trunk n members ret else
      ret ← npd_lacp_aggregator_init m DYNAMIC_MODE;
      if negb (ret =? 0) then mret ret else
      ret ← on_trunks (npd_trunk_destroy_node (npd_netif_trunk_get_tid trunk));
      if negb (ret =? 0) then mret ret else
      ret ← on_tables (npd_lacp_aggregator_delete trunk);
      if negb (ret =? 0) then mret ret else
      a ← get_actor m;
      match a with
      | None => mret (-1)
      | Some a =>
          s ← get_sm m;
          match s with
          | None => mret (-1)
          | Some s =>
              set_actor (left_actor a);;
              set_sm (with_ntt s true);;
              release_members trunk n members 0
          end
      end
  end.

(** A trunk that is not found is only logged, and the members of an
    uninitialised record are used. *)
Definition dynamic_aggregator_leave (trunk n : Z) : M Z :=
  s ← get_sm n;
  match s with
  | None => mret (-1)
  | Some s =>
      g ← get_agg trunk;
      match g with
      | None => mret DB_TABLE_RETURN_CODE_ENTRY_NOT_EXIST
      | Some g =>
          if negb (aggregator_mode g =? DYNAMIC_MODE) then mret 0 else
          w ← get_world;
          let members := from_option trunk_ports (heap_ports env) (npd_find_trunk w (npd_netif_trunk_get_tid trunk)) in
          _ ← on_trunks (npd_trunk_port_del (npd_netif_trunk_get_tid trunk) n);
          a ← get_actor n;
          match a with
          | None => mret (-1)
          | Some a =>
              let g := with_num g (u16 (num_of_ports g - 1)) in
              set_agg g;;
              set_actor (left_actor a);;
              set_sm (with_ntt s true);;
              ret ← npd_lacp_aggregator_init n DYNAMIC_MODE;
              if negb (ret =? 0) then mret ret
              else if num_of_ports g =? 1 then release_members trunk n members 0
              else mret 0
          end
      end
  end.

(** [sprintf] with ["port_channel%.3d"]. *)
Definition channel_name (id : Z) : cstr := lit "port_channel" ++ fmt_prec 3 id.

Definition npd_get_valid_trunk_id (w : W) : Z :=
  default 0 (find (fun i => bool_decide (npd_find_trunk w i = None)) (seqZ 1 (max_trunk env - 1))).

(** When the name is taken: the loop stops at a trunk with a name of its own,
    and its name is the last one that was tried; [None] when the last trunk
    has the name of its number. *)
Fixpoint other_name (w : W) (last : cstr) (ids : list Z) : option cstr :=
  match ids with
  | [] => Some last
  | iter :: ids =>
      match npd_find_trunk w iter with
      | None => other_name w (channel_name iter) ids
      | Some t =>
          if negb (bool_decide (channel_name iter = trunk_name t)) then Some (channel_name iter)
          else if iter =? max_trunk env - 1 then None
          else other_name w (channel_name iter) ids
      end
  end.

Definition new_name (w : W) (trunkId : Z) : option cstr :=
  if npd_find_trunk_by_name w (channel_name trunkId) then other_name w (channel_name trunkId) (seqZ 1 (max_trunk env - 1))
  else Some (channel_name trunkId).

(** The trunk of two ports, once it exists: its aggregator replaces those of
    the ports. *)
Definition band_aggregators (g_index na nb : Z) : M Z :=
  ret ← on_tables (npd_lacp_aggregator_delete nb);
  if negb (ret =? 0) then mret ret else
  ret ← on_tables (npd_lacp_aggregator_delete na);
  if negb (ret =? 0) then mret ret else
  a ← get_actor na;
  b ← get_actor nb;
  p ← get_partner na;
  sa ← get_sm na;
  sb ← get_sm nb;
  g ← get_agg g_index;
  match a, b, p, sa, sb, g with
  | Some a, Some b, Some p, Some sa, Some sb, Some g =>
      let g := with_num (with_agg_actor (with_agg_partner g (partner_oper p)) (is_individual g) (actor_oper_port_key a))
                 (u16 (u16 (num_of_ports g + 1) + 1)) in
      set_agg g;;
      set_actor (joined_actor a g g_index);;
      set_actor (joined_actor b g g_index);;
      set_sm (selected_on (tx_restart sa));;
      set_sm (one_more_tick (selected_on (tx_restart sb)));;
      mret 0
  | Some _, Some _, Some _, Some _, Some _, None => mret DB_TABLE_RETURN_CODE_ENTRY_NOT_EXIST
  | _, _, _, _, _, _ => mret (-1)
  end.

(** Two aggregators of ports become a trunk.  [npd_find_trunk_by_name] leaves
    its result in [ret], which the loop overwrites with the one of its last
    search; an exit before the trunk is made returns that. *)
Definition dot3a_band_aggregator_to_trunk (na nb : Z) : M Z :=
  a ← get_actor na;
  b ← get_actor nb;
  match a, b with
  | Some _, Some _ =>
      w ← get_world;
      let trunkId := npd_get_valid_trunk_id w in
      match new_name w trunkId with
      | None => mret 0
      | Some name =>
          ret ← on_trunks (npd_trunk_activate trunkId name);
          if negb (ret =? 0) then mret ret else
          w ← get_world;
          match npd_find_trunk w trunkId with
          | None => mret (-1)
          | Some t =>
              _ ← on_trunks (fun w => (0, update_trunk trunkId (Trunk (trunk_ports t) (trunk_g_index t) DYNAMIC_MODE (trunk_name t) (master_port_index t)) w));
              ret ← on_trunks (npd_trunk_port_add trunkId nb);
              if negb (ret =? 0) then mret ret else
              ret ← on_trunks (npd_trunk_port_add trunkId na);
              if negb (ret =? 0) then mret ret else
              _ ← npd_lacp_aggregator_init (trunk_g_index t) DYNAMIC_MODE;
              g ← get_agg (trunk_g_index t);
              match g with
              | None => mret DB_TABLE_RETURN_CODE_ENTRY_NOT_EXIST
              | Some _ =>
                  w ← get_world;
                  match npd_find_trunk w trunkId with
                  | None => mret (-1)
                  | Some t => band_aggregators (trunk_g_index t) na nb
                  end
              end
          end
      end
  | _, _ => mret (-1)
  end.

(** *** The choice *)

(** What the walk over the aggregators found: the trunk with the most ports,
    whether there is one, a port to make a trunk with, and the partner that is
    compared with, which is the one of that port once it was found. *)
Record scan := Scan { best_num : Z; best_index : Z; join_agg : bool; bind_agg : bool; compared : partner_info }.

(** An aggregator fits: the same key, the same partner, which answers, and
    not an individual link. *)
Definition suitable (key : Z) (i : partner_info) (g : aggregator) : bool :=
  (actor_oper_aggregator_key g =? key) && same_mac (agg_partner_system g) (info_system i)
  && (agg_partner_system_priority g =? info_system_priority i) && (partner_oper_aggregator_key g =? info_key i)
  && negb (same_mac (info_system i) null_mac_addr) && (is_individual g =? 0).

(** One aggregator of the walk; a result of [inr] ends it. *)
Definition scan_agg (own_id key : Z) (c : scan) (g : aggregator) : M (scan + Z) :=
  if aggregator_identifier g =? own_id then mret (inl c)
  else if negb (suitable key (compared c) g) then mret (inl c)
  else if NPD_NETIF_TRUNK_TYPE =? npd_netif_type_get (agg_netif_index g) then
    mret (inl (if best_num c <? num_of_ports g
               then Scan (num_of_ports g) (agg_netif_index g) true (bind_agg c) (compared c) else c))
  else if NPD_NETIF_ETH_TYPE =? npd_netif_type_get (agg_netif_index g) then
    s ← get_sm (agg_netif_index g);
    match s with
    | None => mret (inr (-1))
    | Some s =>
        p ← get_partner (agg_netif_index g);
        match p with
        | None => mret (inr (-1))
        | Some p =>
            mret (inl (if on (sm_vars s) AD_PORT_SELECTED && on (info_port_state (partner_oper p)) AD_STATE_SYNCHRONIZATION
                       then Scan (best_num c) (agg_netif_index g) (join_agg c) true (partner_oper p)
                       else Scan (best_num c) (best_index c) (join_agg c) (bind_agg c) (partner_oper p)))
        end
    end
  else mret (inl c).

Fixpoint scan_aggs (own_id key : Z) (c : scan) (gs : list aggregator) : M (scan + Z) :=
  match gs with
  | [] => mret (inl c)
  | g :: gs => r ← scan_agg own_id key c g; match r with inl c => scan_aggs own_id key c gs | inr ret => mret (inr ret) end
  end.

(** Not found anything: the port is its own aggregator, and selected. *)
Definition select_alone (n : Z) : M Z :=
  a ← get_actor n;
  match a with
  | None => mret (-1)
  | Some a =>
      s ← get_sm n;
      match s with
      | None => mret (-1)
      | Some s =>
          set_sm (with_vars (with_ntt s true) (set (sm_vars s) AD_PORT_SELECTED));;
          set_actor (with_oper_state a (clr (clr (set (actor_oper_port_state a) AD_STATE_SYNCHRONIZATION) AD_STATE_DISTRIBUTING) AD_STATE_COLLECTING));;
          mret 0
      end
  end.

(** The walk of [dbtable_hash_next] ends with the code of a missing entry. *)
Definition find_aggregator (n own_id key : Z) (i : partner_info) (select : bool) (ret : Z) : M Z :=
  let alone ret := if select then mret ret else select_alone n in
  if on (info_port_state i) AD_STATE_SYNCHRONIZATION then
    gs ← get_aggs;
    r ← scan_aggs own_id key (Scan 0 0 false false i) gs;
    match r with
    | inr ret => mret ret
    | inl c =>
        if join_agg c then dynamic_aggregator_join (best_index c) n
        else if bind_agg c then dot3a_band_aggregator_to_trunk (best_index c) n
        else alone DB_TABLE_RETURN_CODE_ENTRY_NOT_EXIST
    end
  else alone ret.

(** A port of a static trunk is selected when its partner speaks the
    protocol. *)
Definition select_static (n : Z) (s : lacpport_sm) (a : lacpport_actor) (select partner_active : bool) : M Z :=
  if select && negb partner_active then
    set_sm (with_vars (with_ntt s true) (clr (sm_vars s) AD_PORT_SELECTED));; mret (-1)
  else if negb select && partner_active then
    set_sm (with_vars (with_ntt s true) (set (sm_vars s) AD_PORT_SELECTED));;
    (if on (actor_oper_port_state a) AD_STATE_SYNCHRONIZATION then mret tt
     else set_actor (with_oper_state a (set (actor_oper_port_state a) AD_STATE_SYNCHRONIZATION)));;
    mret (-1)
  else mret (-1).

(** A defaulted port carries no frames. *)
Definition default_off (a : lacpport_actor) : M unit :=
  let x := actor_oper_port_state a in
  if on x AD_STATE_SYNCHRONIZATION || on x AD_STATE_DISTRIBUTING || on x AD_STATE_COLLECTING then
    set_actor (with_oper_state a (clr (clr (clr x AD_STATE_SYNCHRONIZATION) AD_STATE_DISTRIBUTING) AD_STATE_COLLECTING))
  else mret tt.

(** After the trunk was looked at: [left] says that the port left it. *)
Definition choose (n : Z) (a : lacpport_actor) (p : lacpport_partner) (own_id : Z) (select defaulted in_trunk left : bool) (ret : Z) : M Z :=
  if defaulted then default_off a;; mret ret
  else if negb left && in_trunk then mret ret
  else find_aggregator n own_id (actor_oper_port_key a) (partner_oper p) select ret.

Definition dot3ad_port_selection_logic (n : Z) : M Z :=
  s ← get_sm n;
  match s with
  | None => mret (-1)
  | Some s =>
      if negb (on (sm_vars s) AD_PORT_LACP_ENABLED) then mret 0 else
      a ← get_actor n;
      p ← get_partner n;
      match a, p with
      | Some a, Some p =>
          own ← get_agg n;
          if from_option (fun g => negb (aggregator_mode g =? DYNAMIC_MODE)) false own then mret 0 else
          let ret := match own with Some _ => 0 | None => DB_TABLE_RETURN_CODE_ENTRY_NOT_EXIST end in
          let own_id := from_option aggregator_identifier (heap_id env) own in
          let defaulted := on (actor_oper_port_state a) AD_STATE_DEFAULTED in
          let select := on (sm_vars s) AD_PORT_SELECTED in
          a ← (if select && negb (on (actor_oper_port_state a) AD_STATE_SYNCHRONIZATION) then
                 let a := with_oper_state a (set (actor_oper_port_state a) AD_STATE_SYNCHRONIZATION) in
                 set_actor a;; mret a
               else mret a);
          let trunk := trunk_netif_index a in
          if NPD_NETIF_TRUNK_TYPE =? npd_netif_type_get trunk then
            g ← get_agg trunk;
            match g with
            | None => mret DB_TABLE_RETURN_CODE_ENTRY_NOT_EXIST
            | Some g =>
                if aggregator_mode g =? STATIC_MODE then
                  select_static n s a select (on (info_port_state (partner_oper p)) AD_STATE_LACP_ACTIVITY)
                else if on (info_port_state (partner_oper p)) AD_STATE_SYNCHRONIZATION then
                  choose n a p own_id select defaulted true false 0
                else
                  ret ← dynamic_aggregator_leave trunk n;
                  if negb (ret =? 0) then mret ret else
                  a ← get_actor n;
                  match a with
                  | None => mret (-1)
                  | Some a => choose n a p own_id select defaulted true true 0
                  end
            end
          else choose n a p own_id select defaulted false false ret
      | _, _ => mret (-1)
      end
  end.

(** *** The turn of the daemon *)

(** The machines of a port take their turn; -1 ends the walk. *)
Definition port_turn (n : Z) : M Z :=
  _ ← on_tables (dot3ad_rx_machine (lacp_of env) None n);
  _ ← on_tables (dot3ad_periodic_machine n);
  _ ← dot3ad_port_selection_logic n;
  _ ← on_tables (dot3ad_tx_machine (lacp_of env) n);
  s ← get_sm n;
  match s with
  | None => mret (-1)
  | Some _ => store (begin_handled n);; mret 0
  end.

(** The ports of a trunk take their turns. *)
Fixpoint member_turns (members : list Z) : M Z :=
  match members with
  | [] => mret 0
  | array_port :: members =>
      let n := member_ifindex array_port in
      a ← get_actor n;
      match a with
      | None => mret (-1)
      | Some _ => ret ← port_turn n; if negb (ret =? 0) then mret ret else member_turns members
      end
  end.

(** [dot3ad_state_machine_handler] for one aggregator of its walk; another
    result than 0 ends the walk. *)
Definition handle_aggregator (g : aggregator) : M Z :=
  let n := agg_netif_index g in
  if NPD_NETIF_TRUNK_TYPE =? npd_netif_type_get n then
    w ← get_world;
    match npd_find_trunk w (npd_netif_trunk_get_tid n) with
    | None => mret 0
    | Some t => if trunk_mode t =? MANUAL_MODE then mret 0 else member_turns (trunk_ports t)
    end
  else if NPD_NETIF_ETH_TYPE =? npd_netif_type_get n then
    a ← get_actor n;
    match a with
    | None => mret (-1)
    | Some a => if is_lacp_enable a =? 1 then port_turn n else mret 0
    end
  else mret 0.

(** *** The protocol on a port, on and off *)

(** Where the port is not known [npd_get_port_by_index] is NULL, and read. *)
Definition dot3ad_enable_lacp_port (n : Z) : M Z :=
  match eth_port_trunkid (lacp_of env) n with
  | None => fun _ => None
  | Some trunkid =>
      if 0 <? trunkid then mret TRUNK_RETURN_CODE_PORT_EXISTS else
      a ← get_actor n;
      match a with
      | Some _ => mret 0
      | None =>
          _ ← on_tables (dot3ad_initialize_port (lacp_of env) false AD_ACTIVE true n);
          _ ← npd_lacp_aggregator_init n DYNAMIC_MODE;
          mret 0
      end
  end.

Definition dot3ad_disable_lacp_port (n : Z) : M Z :=
  a ← get_actor n;
  match a with
  | None => mret 0
  | Some a =>
      let trunk := trunk_netif_index a in
      if NPD_NETIF_TRUNK_TYPE =? npd_netif_type_get trunk then
        g ← get_agg trunk;
        match g with
        | None => mret DB_TABLE_RETURN_CODE_ENTRY_NOT_EXIST
        | Some g =>
            if (aggregator_mode g =? MANUAL_MODE) || (aggregator_mode g =? STATIC_MODE) then mret TRUNK_RETURN_CODE_PORT_EXISTS else
            _ ← dynamic_aggregator_leave trunk n;
            on_tables (npd_port_aggregator_delete n)
        end
      else on_tables (npd_port_aggregator_delete n)
  end.

End select.
