(* ===== verification/LacpDaemon.v ===== *)
(** * Link aggregation: what the whole daemon guarantees

    The choice of an aggregator and the trunks it makes and leaves
    ([LacpSelect]) write only what [selection_writes] allows, so that the
    ports of the daemon tell the truth through every run: the guarantee of
    [LacpPorts] for the machines as they run on the tables. *)

From Stdlib Require Import ZArith Lia Bool.
From stdpp Require Import base decidable list gmap.
From S2P Require Import Prelude Cstring NetifIndex Database Chains DatabaseHash DatabaseSeq KeyStore Lacp LacpPorts LacpTables LacpSelect.

Open Scope Z_scope.

(** ** Writes of the choice *)

Lemma other_refl p : other_writes p p.
Proof. split; [|done]. split; try done. by left. Qed.

Lemma other_trans p q r : other_writes p q -> other_writes q r -> other_writes p r.
Proof. intros [[A0 A1 _ A3 A4 A5 A6 A7 A8 A9] A2] [[B0 B1 _ B3 B4 B5 B6 B7 B8 B9] B2]. split; [split|]; try congruence; auto; left; congruence. Qed.

Lemma other_selection p q r : other_writes p q -> selection_writes q r -> selection_writes p r.
Proof.
  intros [[A0 A1 _ A3 A4 A5 A6 A7 A8 A9] A2] [B0 B1 B2 B3 B4 B5 B6 B7 B8 B9]. split; try congruence; auto.
Qed.

Lemma selection_other p q r : selection_writes p q -> other_writes q r -> selection_writes p r.
Proof.
  intros [A0 A1 A2 A3 A4 A5 A6 A7 A8 A9] [[B0 B1 _ B3 B4 B5 B6 B7 B8 B9] B2]. split; try congruence; auto.
Qed.

(** The writes themselves. *)
Ltac small_write := split; [split|]; unfold port_keys, expired, defaulted, begins; cbn; flags; first [done|by left].

Lemma agg_id_write p id : other_writes p (LPort (with_agg_id (actor p) id) (partner p) (sm p)).
Proof. small_write. Qed.
Lemma joined_write p g trunk : other_writes p (LPort (joined_actor (actor p) g trunk) (partner p) (sm p)).
Proof. unfold joined_actor, joined_state. small_write. Qed.
Lemma left_write p : other_writes p (LPort (left_actor (actor p)) (partner p) (sm p)).
Proof. unfold left_actor, left_state. small_write. Qed.
Lemma ntt_write p b : other_writes p (LPort (actor p) (partner p) (with_ntt (sm p) b)).
Proof. small_write. Qed.
Lemma sync_write p : other_writes p (LPort (with_oper_state (actor p) (set (actor_oper_port_state (actor p)) AD_STATE_SYNCHRONIZATION)) (partner p) (sm p)).
Proof. small_write. Qed.
Lemma off_write p (x := actor_oper_port_state (actor p)) :
  other_writes p (LPort (with_oper_state (actor p) (clr (clr (clr x AD_STATE_SYNCHRONIZATION) AD_STATE_DISTRIBUTING) AD_STATE_COLLECTING)) (partner p) (sm p)).
Proof. subst x. small_write. Qed.
Lemma alone_write p (x := actor_oper_port_state (actor p)) :
  other_writes p (LPort (with_oper_state (actor p) (clr (clr (set x AD_STATE_SYNCHRONIZATION) AD_STATE_DISTRIBUTING) AD_STATE_COLLECTING)) (partner p) (sm p)).
Proof. subst x. small_write. Qed.
Lemma select_write p : other_writes p (LPort (actor p) (partner p) (with_vars (with_ntt (sm p) true) (set (sm_vars (sm p)) AD_PORT_SELECTED))).
Proof. small_write. Qed.
Lemma unselect_write p : other_writes p (LPort (actor p) (partner p) (with_vars (with_ntt (sm p) true) (clr (sm_vars (sm p)) AD_PORT_SELECTED))).
Proof. small_write. Qed.
Lemma trunk_write p : other_writes p (LPort (actor p) (partner p) (selected_on (tx_restart (sm p)))).
Proof. unfold selected_on, tx_restart. small_write. Qed.
Lemma tick_write p : selection_writes p (LPort (actor p) (partner p) (one_more_tick (sm p))).
Proof. unfold one_more_tick. split; unfold port_keys, expired, defaulted, begins; cbn; flags; first [done|by right]. Qed.

(** Every port changed at most as on a port other than the chooser's own; and
    that, but for port [n]. *)
Definition pointwise (R : Z -> lacp_port -> lacp_port -> Prop) (w w' : lacp_spec) : Prop :=
  forall m, match port_at w m, port_at w' m with
            | Some p, Some q => R m p q
            | None, None => True
            | _, _ => False
            end.
Definition others : lacp_spec -> lacp_spec -> Prop := pointwise (fun _ => other_writes).
Definition chosen (n : Z) : lacp_spec -> lacp_spec -> Prop :=
  pointwise (fun m p q => if m =? n then selection_writes p q else other_writes p q).

Lemma pointwise_refl (R : Z -> lacp_port -> lacp_port -> Prop) w : (forall m p, R m p p) -> pointwise R w w.
Proof. intros H m. by destruct (port_at w m). Qed.

Lemma pointwise_trans (R S T : Z -> lacp_port -> lacp_port -> Prop) w1 w2 w3 :
  (forall m p q r, R m p q -> S m q r -> T m p r) -> pointwise R w1 w2 -> pointwise S w2 w3 -> pointwise T w1 w3.
Proof. intros H H1 H2 m. specialize (H1 m). specialize (H2 m). destruct (port_at w1 m), (port_at w2 m), (port_at w3 m); try done. by eapply H. Qed.

Lemma pointwise_set (R : Z -> lacp_port -> lacp_port -> Prop) w n p q :
  port_at w n = Some p -> R n p q -> (forall m x, m <> n -> R m x x) -> pointwise R w (set_port n q w).
Proof.
  intros Hn Hr Hx m. cbn. destruct (Z.eqb_spec m n) as [->|Hm]; [by rewrite Hn|]. destruct (port_at w m); [by apply Hx|done].
Qed.

Lemma others_refl w : others w w.
Proof. apply pointwise_refl. intros. apply other_refl. Qed.
Lemma others_trans w1 w2 w3 : others w1 w2 -> others w2 w3 -> others w1 w3.
Proof. apply pointwise_trans. intros m p q r. apply other_trans. Qed.
Lemma others_chosen n w1 w2 w3 : others w1 w2 -> chosen n w2 w3 -> chosen n w1 w3.
Proof. apply pointwise_trans. intros m p q r H. destruct (m =? n); [by apply other_selection|by apply other_trans]. Qed.
Lemma chosen_others n w1 w2 w3 : chosen n w1 w2 -> others w2 w3 -> chosen n w1 w3.
Proof. apply pointwise_trans. intros m p q r H. destruct (m =? n); [by apply selection_other|by apply other_trans]. Qed.
Lemma others_some n w w' : others w w' -> chosen n w w'.
Proof. intros H m. specialize (H m). destruct (port_at w m), (port_at w' m); try done. destruct (m =? n); [apply H|done]. Qed.
Lemma others_set w n p q : port_at w n = Some p -> other_writes p q -> others w (set_port n q w).
Proof. intros Hn H. by apply (pointwise_set _ _ _ p); [..|intros; apply other_refl]. Qed.
Lemma chosen_set w n p q : port_at w n = Some p -> selection_writes p q -> chosen n w (set_port n q w).
Proof.
  intros Hn H. apply (pointwise_set _ _ _ p); [done|by rewrite Z.eqb_refl|]. intros m x Hm.
  destruct (Z.eqb_spec m n); [done|]. apply other_refl.
Qed.

(** The same ports, with other aggregators. *)
Definition same_ports (w w' : lacp_spec) : Prop := forall m, port_at w' m = port_at w m.
Lemma same_ports_others w w' : same_ports w w' -> others w w'.
Proof. intros H m. rewrite H. destruct (port_at w m); [apply other_refl|done]. Qed.

Create HintDb lacp.
#[export] Hint Resolve others_refl other_refl others_some : lacp.

(** ** Rules for the operations *)

Section rules.
Context {TA TP TM TG W : Type} `{!KeyStore TA lacpport_actor, !KeyStore TP lacpport_partner, !KeyStore TM lacpport_sm, !KeyStore TG aggregator, !AggregatorIds TG, !Trunks W}.
Context `{!LacpStores TA TP TM TG}.
Implicit Types (w : lacp_spec) (st : lacp_state TA TP TM TG) (s : sel_state TA TP TM TG W).
Abbreviation M := (SM TA TP TM TG W).

(** The operation returns, on tables that hold the ports of [w], and leaves
    tables that hold ports with [Q]. *)
Definition lwp {A} (m : M A) (Q : A -> lacp_spec -> Prop) w : Prop :=
  forall s, holds (lacp s) w -> exists a s' w', m s = Some (a, s') /\ holds (lacp s') w' /\ Q a w'.

Lemma lwp_ret {A} (a : A) Q w : Q a w -> lwp (mret a) Q w.
Proof. intros H s Hs. by exists a, s, w. Qed.

Lemma lwp_bind {A B} (m : M A) (f : A -> M B) Q w : lwp m (fun a w' => lwp (f a) Q w') w -> lwp (m ≫= f) Q w.
Proof.
  intros H s Hs. destruct (H s Hs) as (a & s1 & w1 & E & H1 & Hf). destruct (Hf s1 H1) as (b & s2 & w2 & E2 & H2 & HQ).
  exists b, s2, w2. split_and!; try done. unfold mbind, SM_bind. by rewrite E.
Qed.

Lemma lwp_mono {A} (m : M A) (Q Q' : A -> lacp_spec -> Prop) w : lwp m Q w -> (forall a w', Q a w' -> Q' a w') -> lwp m Q' w.
Proof. intros H HQ s Hs. destruct (H s Hs) as (a & s' & w' & E & H' & Ha). exists a, s', w'. by auto. Qed.

Lemma lwp_get_actor n Q w : Q (actor <$> port_at w n) w -> lwp (get_actor n) Q w.
Proof. intros H s Hs. eexists _, s, w. split_and!; [done|done|]. by rewrite (holds_actor _ _ Hs). Qed.
Lemma lwp_get_partner n Q w : Q (partner <$> port_at w n) w -> lwp (get_partner n) Q w.
Proof. intros H s Hs. eexists _, s, w. split_and!; [done|done|]. by rewrite (holds_partner _ _ Hs). Qed.
Lemma lwp_get_sm n Q w : Q (sm <$> port_at w n) w -> lwp (get_sm n) Q w.
Proof. intros H s Hs. eexists _, s, w. split_and!; [done|done|]. by rewrite (holds_sm _ _ Hs). Qed.
Lemma lwp_get_agg n (Q : option aggregator -> lacp_spec -> Prop) w : (forall g, Q g w) -> lwp (get_agg n) Q w.
Proof. intros H s Hs. by eexists _, s, w. Qed.
Lemma lwp_get_aggs (Q : list aggregator -> lacp_spec -> Prop) w : (forall gs, Q gs w) -> lwp get_aggs Q w.
Proof. intros H s Hs. by eexists _, s, w. Qed.
Lemma lwp_get_ids (Q : (Z -> bool) -> lacp_spec -> Prop) w : (forall f, Q f w) -> lwp get_ids Q w.
Proof. intros H s Hs. by eexists _, s, w. Qed.
Lemma lwp_get_world (Q : W -> lacp_spec -> Prop) w : (forall x, Q x w) -> lwp get_world Q w.
Proof. intros H s Hs. by eexists _, s, w. Qed.
Lemma lwp_get_last_id (Q : Z -> lacp_spec -> Prop) w : (forall x, Q x w) -> lwp get_last_id Q w.
Proof. intros H s Hs. by eexists _, s, w. Qed.
Lemma lwp_set_last_id id (Q : unit -> lacp_spec -> Prop) w : Q tt w -> lwp (set_last_id id) Q w.
Proof. intros H s Hs. by eexists _, _, w. Qed.
Lemma lwp_on_trunks f (Q : Z -> lacp_spec -> Prop) w : (forall r, Q r w) -> lwp (on_trunks f) Q w.
Proof. intros H s Hs. unfold on_trunks. destruct (f (world s)) as [r x]. by eexists r, _, w. Qed.

Lemma lwp_set_actor a n p (Q : unit -> lacp_spec -> Prop) w :
  port_at w n = Some p -> actor_netif_index a = actor_netif_index (actor p) ->
  Q tt (set_port n (LPort a (partner p) (sm p)) w) -> lwp (set_actor a) Q w.
Proof.
  intros Hn Hk H s Hs. destruct (holds_keys (lacp s) w n p Hs Hn) as (K & _ & _).
  destruct (put_actor_ok (lacp s) w n p a Hs Hn) as (st & E & H1); [congruence|]. unfold set_actor, store. rewrite E.
  by eexists _, _, _.
Qed.
Lemma lwp_set_sm x n p (Q : unit -> lacp_spec -> Prop) w :
  port_at w n = Some p -> sm_netif_index x = sm_netif_index (sm p) ->
  Q tt (set_port n (LPort (actor p) (partner p) x) w) -> lwp (set_sm x) Q w.
Proof.
  intros Hn Hk H s Hs. destruct (holds_keys (lacp s) w n p Hs Hn) as (_ & _ & K).
  destruct (write_sm_ok (lacp s) w n p x Hs Hn) as (st & E & H1); [congruence|]. unfold set_sm, store. rewrite E.
  by eexists _, _, _.
Qed.

(** Writes to the aggregators leave the ports. *)
Lemma holds_aggs st w t : holds st w -> ks_ok t ->
  holds (LS (actors st) (partners st) (sms st) t (lacp_sent st))
    (Spec (port_at w) (fun n => ks_search t (agg_key n)) (frames w)).
Proof. intros [[] Ha Hp Hs Hg Hf] Hok. by split. Qed.

Lemma lwp_set_agg g (Q : unit -> lacp_spec -> Prop) w : (forall w', same_ports w w' -> Q tt w') -> lwp (LacpSelect.set_agg g) Q w.
Proof.
  intros H s Hs. destruct (put_agg_ok (lacp s) w g Hs) as (st & E & H1). unfold LacpSelect.set_agg, store. rewrite E.
  eexists _, _, _. split_and!; [done|exact H1|]. apply H. intros m. by destruct (agg_at w _).
Qed.
Lemma lwp_insert_agg g (Q : Z -> lacp_spec -> Prop) w : (forall r w', same_ports w w' -> Q r w') -> lwp (insert_agg g) Q w.
Proof.
  intros H s Hs. unfold insert_agg, on_tables. pose proof (ok_aggs _ (holds_ok _ _ Hs)) as Hok.
  destruct (insert_total (aggs (lacp s)) g Hok (ks_all_valid g)) as (r & t & E & Ht). rewrite E. cbn.
  eexists _, _, _. split_and!; [done|by apply holds_aggs|]. by apply H.
Qed.
Lemma lwp_delete_agg n (Q : Z -> lacp_spec -> Prop) w :
  (forall r w', same_ports w w' -> Q r w') -> lwp (on_tables (npd_lacp_aggregator_delete n)) Q w.
Proof.
  intros H s Hs. unfold on_tables, npd_lacp_aggregator_delete. pose proof (ok_aggs _ (holds_ok _ _ Hs)) as Hok.
  destruct (delete_total (aggs (lacp s)) (agg_key n) Hok (ks_all_valid _)) as (r & t & E & Ht). rewrite E. cbn.
  eexists _, _, _. split_and!; [done|by apply holds_aggs|]. by apply H.
Qed.

(** The rest of a computation after one that only wrote as on other ports. *)
Lemma lwp_others {A B} (m : M A) (f : A -> M B) (Q : B -> lacp_spec -> Prop) w0 w :
  others w0 w -> lwp m (fun _ => others w) w -> (forall a w', others w0 w' -> lwp (f a) Q w') -> lwp (m ≫= f) Q w.
Proof. intros H Hm Hf. apply lwp_bind. eapply lwp_mono; [exact Hm|]. intros a w' Hw. apply Hf. by eapply others_trans. Qed.

(** *** Aggregators *)

Lemma initialize_agg_ok n w : lwp (dot3ad_initialize_agg n) (fun _ w' => w' = w) w.
Proof.
  unfold dot3ad_initialize_agg, npd_aggregator_id_get, npd_aggregator_get_max_id. apply lwp_bind.
  destruct (NPD_NETIF_ETH_TYPE =? npd_netif_type_get n); apply lwp_bind, lwp_get_ids; intros found; apply lwp_bind, lwp_get_last_id; intros last.
  - destruct (find _ _) as [id|]; [|by apply lwp_ret, lwp_ret]. destruct (id <=? last); [by apply lwp_ret, lwp_ret|].
    by apply lwp_bind, lwp_set_last_id, lwp_ret, lwp_ret.
  - destruct (_ && _); [by apply lwp_ret, lwp_ret|]. by apply lwp_bind, lwp_set_last_id, lwp_ret, lwp_ret.
Qed.

Lemma aggregator_init_ok n mode w : lwp (npd_lacp_aggregator_init n mode) (fun _ => others w) w.
Proof.
  unfold npd_lacp_aggregator_init. apply lwp_bind. eapply lwp_mono; [apply initialize_agg_ok|]. intros g w1 ->.
  destruct (NPD_NETIF_ETH_TYPE =? _); [|by apply lwp_insert_agg; intros; apply same_ports_others]. apply lwp_bind, lwp_get_actor.
  destruct (port_at w n) as [p|] eqn:Hn; cbn [fmap option_fmap option_map]; [|apply lwp_ret, others_refl].
  apply lwp_bind, lwp_get_partner. rewrite Hn. cbn [fmap option_fmap option_map].
  apply lwp_bind. eapply lwp_set_actor; [exact Hn|done|]. apply lwp_insert_agg. intros _ w' H.
  eapply others_trans; [|by apply same_ports_others]. by apply (others_set _ _ _ _ Hn), agg_id_write.
Qed.

(** A read of a port's own records, when the port is there. *)
Ltac here H := rewrite H; cbn [fmap option_fmap option_map].

(** *** Trunks *)

(** A port that joins: its actor and its machine are written. *)
Lemma joined_ok a x g trunk n p (Q : Z -> lacp_spec -> Prop) w0 w :
  others w0 w -> port_at w n = Some p -> a = actor p -> x = sm p \/ x = one_more_tick (sm p) ->
  (forall w', chosen n w0 w' -> Q 0 w') ->
  lwp (set_sm (selected_on (tx_restart x));; set_actor (joined_actor a g trunk);; mret 0) Q w.
Proof.
  intros H Hn -> Hx HQ. set (q := LPort (actor p) (partner p) x).
  assert (selection_writes p q) as Hq by (destruct Hx as [->| ->]; [by destruct p; apply other_refl|apply tick_write]).
  assert (selection_writes p (LPort (actor p) (partner p) (selected_on (tx_restart x)))) as H1
    by (eapply selection_other; [exact Hq|apply (trunk_write q)]).
  apply lwp_bind. eapply lwp_set_sm; [exact Hn|by destruct Hx as [->| ->]|].
  apply lwp_bind. eapply lwp_set_actor; [apply port_at_set|done|]. apply lwp_ret, HQ.
  eapply others_chosen; [exact H|]. eapply chosen_others; [by apply (chosen_set _ _ _ _ Hn H1)|].
  eapply others_set; [apply port_at_set|]. apply (joined_write (LPort _ _ _)).
Qed.

Lemma join_ok env trunk n w : lwp (dynamic_aggregator_join env trunk n) (fun _ => chosen n w) w.
Proof.
  assert (chosen n w w) as Hw by by apply others_some, others_refl.
  unfold dynamic_aggregator_join. apply lwp_bind, lwp_get_actor, lwp_bind, lwp_get_partner.
  destruct (port_at w n) as [p|] eqn:Hn; cbn [fmap option_fmap option_map]; [|by apply lwp_ret]. apply lwp_bind, lwp_get_agg. intros own.
  assert (forall (Q : Z -> lacp_spec -> Prop), (forall r w', same_ports w w' -> Q r w') -> lwp (delete_own own n) Q w) as Hd.
  { intros Q HQ. destruct own; [by apply lwp_delete_agg|by apply lwp_ret, HQ]. }
  apply lwp_bind, Hd. intros ret w1 H1. pose proof (same_ports_others _ _ H1) as Ho. rewrite <- H1 in Hn.
  assert (chosen n w w1) as Hc by by apply others_some.
  destruct (negb _); [by apply lwp_ret|]. apply lwp_bind, lwp_get_world. intros x. destruct (npd_find_trunk _ _); [|by apply lwp_ret].
  apply lwp_bind, lwp_on_trunks. intros r. destruct (negb _); [by apply lwp_ret|].
  apply lwp_bind, lwp_get_agg. intros g. apply lwp_bind, lwp_get_sm. here Hn. destruct g as [g|]; [|by apply lwp_ret].
  apply lwp_bind, lwp_get_actor. here Hn. apply lwp_bind, lwp_set_agg. intros w2 H2. rewrite <- H2 in Hn.
  eapply joined_ok; [eapply others_trans; [exact Ho|by apply same_ports_others]|exact Hn|done| |done]. destruct (_ <? _); auto.
Qed.

(** A port that left: its actor, and the request to send. *)
Lemma left_ok {A} (f : M A) a x n p (Q : A -> lacp_spec -> Prop) w0 w :
  others w0 w -> port_at w n = Some p -> a = actor p -> x = sm p ->
  (forall w', others w0 w' -> lwp f Q w') -> lwp (set_actor (left_actor a);; set_sm (with_ntt x true);; f) Q w.
Proof.
  intros H Hn -> -> HQ. apply lwp_bind. eapply lwp_set_actor; [exact Hn|done|].
  apply lwp_bind. eapply lwp_set_sm; [apply port_at_set|done|]. apply HQ.
  eapply others_trans; [exact H|]. eapply others_trans; [apply (others_set _ _ _ (LPort (left_actor (actor p)) (partner p) (sm p)) Hn), left_write|].
  eapply others_set; [apply port_at_set|]. apply (ntt_write (LPort _ _ _)).
Qed.

Lemma release_ok env trunk n members ret w0 w :
  others w0 w -> lwp (release_members env trunk n members ret) (fun _ => others w0) w.
Proof.
  revert ret w. induction members as [|m members IH]; intros ret w H; cbn [release_members]; [by apply lwp_ret|]. cbv zeta.
  destruct (n =? _); [by apply IH|]. eapply lwp_others; [exact H|apply aggregator_init_ok|]. clear w H. intros r w H.
  destruct (negb _); [by apply lwp_ret|]. apply lwp_bind, lwp_on_trunks. intros r'. destruct (negb _); [by apply lwp_ret|].
  apply lwp_bind, lwp_delete_agg. intros r2 w2 H2. apply same_ports_others in H2. pose proof (others_trans _ _ _ H H2) as H3.
  destruct (negb _); [by apply lwp_ret|]. apply lwp_bind, lwp_get_actor.
  destruct (port_at w2 _) as [p|] eqn:Hn; cbn [fmap option_fmap option_map]; [|by apply lwp_ret].
  apply lwp_bind, lwp_get_sm. here Hn. eapply left_ok; [exact H3|exact Hn|done|done|]. intros w' Hw'. by apply IH.
Qed.

Lemma leave_ok env trunk n w : lwp (dynamic_aggregator_leave env trunk n) (fun _ => others w) w.
Proof.
  pose proof (others_refl w) as Hw. unfold dynamic_aggregator_leave. apply lwp_bind, lwp_get_sm.
  destruct (port_at w n) as [p|] eqn:Hn; cbn [fmap option_fmap option_map]; [|by apply lwp_ret].
  apply lwp_bind, lwp_get_agg. intros [g|]; [|by apply lwp_ret]. destruct (negb _); [by apply lwp_ret|].
  apply lwp_bind, lwp_get_world. intros x. apply lwp_bind, lwp_on_trunks. intros r. apply lwp_bind, lwp_get_actor. here Hn.
  apply lwp_bind, lwp_set_agg. intros w1 H1. rewrite <- H1 in Hn.
  eapply left_ok; [by apply same_ports_others|exact Hn|done|done|]. intros w2 H2.
  eapply lwp_others; [exact H2|apply aggregator_init_ok|]. intros r2 w3 H3.
  destruct (negb _); [by apply lwp_ret|]. destruct (_ =? 1); [by apply release_ok|by apply lwp_ret].
Qed.

(** Two ports that make a trunk; the second gets a tick more.  They may be
    the same. *)
Lemma port_at_other n m p w : m <> n -> port_at (set_port n p w) m = port_at w m.
Proof. intros H. cbn. by destruct (Z.eqb_spec m n). Qed.

Lemma banded_ok g trunk na nb p q w0 w :
  others w0 w -> port_at w na = Some p -> port_at w nb = Some q ->
  lwp (set_actor (joined_actor (actor p) g trunk);; set_actor (joined_actor (actor q) g trunk);;
      set_sm (selected_on (tx_restart (sm p)));; set_sm (one_more_tick (selected_on (tx_restart (sm q))));; mret 0)
    (fun _ => chosen nb w0) w.
Proof.
  intros H Ha Hb. pose proof (joined_write p g trunk) as W1. pose proof (joined_write q g trunk) as W2.
  set (p1 := LPort (joined_actor (actor p) g trunk) (partner p) (sm p)) in *.
  set (q1 := LPort (joined_actor (actor q) g trunk) (partner q) (sm q)) in *.
  pose proof (trunk_write p1) as W3. pose proof (trunk_write q1) as W4.
  set (p2 := LPort (actor p1) (partner p1) (selected_on (tx_restart (sm p1)))) in *.
  set (q2 := LPort (actor q1) (partner q1) (selected_on (tx_restart (sm q1)))) in *. pose proof (tick_write q2) as W5.
  apply lwp_bind. apply (lwp_set_actor _ na p); [exact Ha|done|]. apply lwp_bind. destruct (decide (nb = na)) as [->|Hne].
  - assert (q = p) as -> by congruence. apply (lwp_set_actor _ na p1); [apply port_at_set|done|].
    apply lwp_bind. apply (lwp_set_sm _ na p1); [apply port_at_set|done|].
    apply lwp_bind. apply (lwp_set_sm _ na p2); [apply port_at_set|done|]. apply lwp_ret.
    eapply others_chosen; [|by eapply chosen_set; [apply port_at_set|exact W5]].
    eapply others_trans; [exact H|]. eapply others_trans; [by apply (others_set _ _ _ p1 Ha)|].
    eapply others_trans; [by eapply others_set; [apply port_at_set|apply (other_refl p1)]|].
    eapply others_set; [apply port_at_set|exact W3].
  - apply (lwp_set_actor _ nb q); [by rewrite port_at_other|done|]. fold p1.
    apply lwp_bind. apply (lwp_set_sm _ na p1); [rewrite port_at_other by congruence; apply port_at_set|done|]. fold q1 p2.
    apply lwp_bind. apply (lwp_set_sm _ nb q1); [rewrite port_at_other by done; apply port_at_set|done|]. apply lwp_ret.
    eapply others_chosen; [|eapply chosen_set; [rewrite port_at_other by done; apply port_at_set|by eapply other_selection; [exact W4|]]].
    eapply others_trans; [exact H|]. eapply others_trans; [by apply (others_set _ _ _ p1 Ha)|].
    eapply others_trans; [eapply others_set; [by rewrite port_at_other|exact W2]|].
    eapply others_set; [rewrite port_at_other by congruence; apply port_at_set|exact W3].
Qed.

Lemma band_aggregators_ok g_index na nb w : lwp (band_aggregators g_index na nb) (fun _ => chosen nb w) w.
Proof.
  assert (chosen nb w w) as Hw by by apply others_some, others_refl.
  unfold band_aggregators. apply lwp_bind, lwp_delete_agg. intros r1 w1 H1. apply same_ports_others in H1.
  destruct (negb _); [by apply lwp_ret, others_some|]. apply lwp_bind, lwp_delete_agg. intros r2 w2 H2.
  apply same_ports_others in H2. pose proof (others_trans _ _ _ H1 H2) as H. clear H1 H2. pose proof (others_some nb _ _ H) as Hc.
  destruct (negb _); [by apply lwp_ret|].
  apply lwp_bind, lwp_get_actor, lwp_bind, lwp_get_actor, lwp_bind, lwp_get_partner, lwp_bind, lwp_get_sm, lwp_bind, lwp_get_sm, lwp_bind, lwp_get_agg.
  intros g. destruct (port_at w2 na) as [p|] eqn:Ha, (port_at w2 nb) as [q|] eqn:Hb; cbn [fmap option_fmap option_map]; try by apply lwp_ret.
  destruct g as [g|]; [|by apply lwp_ret]. cbv zeta. apply lwp_bind, lwp_set_agg. intros w3 H3. rewrite <- H3 in Ha, Hb.
  apply same_ports_others in H3. pose proof (others_trans _ _ _ H H3) as H4. by eapply banded_ok.
Qed.

Lemma lwp_chosen {A} (m : M A) n w0 w : others w0 w -> lwp m (fun _ => chosen n w) w -> lwp m (fun _ => chosen n w0) w.
Proof. intros H Hm. eapply lwp_mono; [exact Hm|]. intros a w' Hw. by eapply others_chosen. Qed.

Lemma band_ok env na nb w : lwp (dot3a_band_aggregator_to_trunk env na nb) (fun _ => chosen nb w) w.
Proof.
  pose proof (others_refl w) as Hw. pose proof (others_some nb w w Hw) as Hc.
  unfold dot3a_band_aggregator_to_trunk. apply lwp_bind, lwp_get_actor, lwp_bind, lwp_get_actor.
  destruct (port_at w na), (port_at w nb); cbn [fmap option_fmap option_map]; try by apply lwp_ret.
  apply lwp_bind, lwp_get_world. intros x. cbv zeta. destruct (new_name _ _ _) as [name|]; [|by apply lwp_ret].
  apply lwp_bind, lwp_on_trunks. intros r1. destruct (negb _); [by apply lwp_ret|].
  apply lwp_bind, lwp_get_world. intros x1. destruct (npd_find_trunk x1 _) as [t|]; [|by apply lwp_ret].
  apply lwp_bind, lwp_on_trunks. intros _. apply lwp_bind, lwp_on_trunks. intros r2. destruct (negb _); [by apply lwp_ret|].
  apply lwp_bind, lwp_on_trunks. intros r3. destruct (negb _); [by apply lwp_ret|].
  eapply lwp_others; [exact Hw|apply aggregator_init_ok|]. intros r4 w1 H1. pose proof (others_some nb w w1 H1).
  apply lwp_bind, lwp_get_agg. intros [g|]; [|by apply lwp_ret]. apply lwp_bind, lwp_get_world. intros x'.
  destruct (npd_find_trunk x' _); [|by apply lwp_ret]. eapply lwp_chosen; [exact H1|apply band_aggregators_ok].
Qed.

(** *** The choice *)

Lemma scan_ok own_id key gs c w : lwp (scan_aggs own_id key c gs) (fun _ w' => w' = w) w.
Proof.
  revert c. induction gs as [|g gs IH]; intros c; cbn [scan_aggs]; [by apply lwp_ret|]. apply lwp_bind.
  set (rest := fun r : scan + Z => match r return M (scan + Z) with inl c => scan_aggs own_id key c gs | inr ret => mret (inr ret) end).
  assert (forall r, lwp (mret r) (fun a w' => lwp (rest a) (fun _ w' => w' = w) w') w) as Hr
    by (intros [c'|r]; apply lwp_ret; [apply IH|by apply lwp_ret]).
  unfold scan_agg. destruct (aggregator_identifier g =? own_id); [apply Hr|]. destruct (negb _); [apply Hr|].
  destruct (NPD_NETIF_TRUNK_TYPE =? _); [apply Hr|]. destruct (NPD_NETIF_ETH_TYPE =? _); [|apply Hr]. apply lwp_bind, lwp_get_sm.
  destruct (port_at w _) as [p|] eqn:Hn; cbn [fmap option_fmap option_map]; [|apply Hr].
  apply lwp_bind, lwp_get_partner. here Hn. apply Hr.
Qed.

Lemma select_alone_ok n w0 w : others w0 w -> lwp (select_alone n) (fun _ => others w0) w.
Proof.
  intros H. unfold select_alone. apply lwp_bind, lwp_get_actor.
  destruct (port_at w n) as [p|] eqn:Hn; cbn [fmap option_fmap option_map]; [|by apply lwp_ret].
  apply lwp_bind, lwp_get_sm. here Hn. apply lwp_bind. eapply lwp_set_sm; [exact Hn|done|].
  apply lwp_bind. eapply lwp_set_actor; [apply port_at_set|done|]. apply lwp_ret.
  eapply others_trans; [exact H|]. eapply others_trans; [eapply (others_set _ _ _ _ Hn), select_write|].
  eapply others_set; [apply port_at_set|]. apply (alone_write (LPort _ _ _)).
Qed.

Lemma find_aggregator_ok env n own_id key i sel ret w0 w :
  others w0 w -> lwp (find_aggregator env n own_id key i sel ret) (fun _ => chosen n w0) w.
Proof.
  intros H. unfold find_aggregator. cbv zeta. pose proof (others_some n _ _ H) as Hc.
  assert (forall r, lwp (if sel then mret r else select_alone n) (fun _ => chosen n w0) w) as Ha.
  { intros r. destruct sel; [by apply lwp_ret|]. eapply lwp_mono; [by apply select_alone_ok|]. intros a w'. apply others_some. }
  destruct (on _ _); [|apply Ha]. apply lwp_bind, lwp_get_aggs. intros gs. apply lwp_bind. eapply lwp_mono; [apply scan_ok|].
  intros [c|r] w' ->; [|by apply lwp_ret]. destruct (join_agg c); [eapply lwp_chosen; [exact H|apply join_ok]|].
  destruct (bind_agg c); [eapply lwp_chosen; [exact H|apply band_ok]|apply Ha].
Qed.

Lemma select_static_ok n p select active w0 w :
  others w0 w -> port_at w n = Some p -> lwp (select_static n (sm p) (actor p) select active) (fun _ => others w0) w.
Proof.
  intros H Hn. unfold select_static. destruct (select && negb active).
  - apply lwp_bind. eapply lwp_set_sm; [exact Hn|done|]. apply lwp_ret. eapply others_trans; [exact H|].
    eapply others_set; [exact Hn|apply unselect_write].
  - destruct (negb select && active); [|by apply lwp_ret]. apply lwp_bind. eapply lwp_set_sm; [exact Hn|done|].
    assert (others w0 (set_port n (LPort (actor p) (partner p) (with_vars (with_ntt (sm p) true) (set (sm_vars (sm p)) AD_PORT_SELECTED))) w))
      as H1 by (eapply others_trans; [exact H|]; eapply others_set; [exact Hn|apply select_write]).
    apply lwp_bind. destruct (on _ _); [by apply lwp_ret, lwp_ret|]. eapply lwp_set_actor; [apply port_at_set|done|]. apply lwp_ret.
    eapply others_trans; [exact H1|]. eapply others_set; [apply port_at_set|]. apply (sync_write (LPort _ _ _)).
Qed.

Lemma choose_ok env n p x own_id select defaulted in_trunk left ret w0 w :
  others w0 w -> port_at w n = Some p -> lwp (choose env n (actor p) x own_id select defaulted in_trunk left ret) (fun _ => chosen n w0) w.
Proof.
  intros H Hn. pose proof (others_some n _ _ H) as Hc. unfold choose. destruct defaulted.
  - apply lwp_bind. unfold default_off. cbv zeta. destruct (_ || _); [|by apply lwp_ret, lwp_ret].
    eapply lwp_set_actor; [exact Hn|done|]. apply lwp_ret, others_some. eapply others_trans; [exact H|].
    eapply others_set; [exact Hn|apply off_write].
  - destruct (_ && _); [by apply lwp_ret|by apply find_aggregator_ok].
Qed.

(** The choice for a port leaves the others to their machines, and of the
    port itself keeps what the receive machine says. *)
Lemma selection_ok env n w : lwp (dot3ad_port_selection_logic env n) (fun _ => chosen n w) w.
Proof.
  pose proof (others_refl w) as Hw. pose proof (others_some n w w Hw) as Hc. unfold dot3ad_port_selection_logic.
  apply lwp_bind, lwp_get_sm. destruct (port_at w n) as [p|] eqn:Hn; cbn [fmap option_fmap option_map]; [|by apply lwp_ret].
  destruct (negb _); [by apply lwp_ret|]. apply lwp_bind, lwp_get_actor. here Hn. apply lwp_bind, lwp_get_partner. here Hn.
  apply lwp_bind, lwp_get_agg. intros own. destruct (from_option _ _ own); [by apply lwp_ret|]. cbv zeta. apply lwp_bind.
  set (synced := (_ && _ : bool)). set (sync := with_oper_state _ _).
  assert (forall (Q : lacpport_actor -> lacp_spec -> Prop),
    (forall q w', others w w' -> port_at w' n = Some q -> sm q = sm p -> Q (actor q) w') ->
    lwp (if synced then set_actor sync;; mret sync else mret (actor p)) Q w) as Hs.
  { intros Q HQ. destruct synced; [|by apply lwp_ret, HQ]. apply lwp_bind. eapply lwp_set_actor; [exact Hn|done|].
    apply lwp_ret. eapply (HQ (LPort sync (partner p) (sm p))); [|apply port_at_set|done].
    eapply others_set; [exact Hn|apply sync_write]. }
  apply Hs. clear Hs synced. intros q w1 H1 Hq Esm. pose proof (others_some n _ _ H1) as H1c.
  destruct (_ =? _); [|by apply choose_ok]. apply lwp_bind, lwp_get_agg. intros [g|]; [|by apply lwp_ret].
  destruct (_ =? _). { rewrite <- Esm. eapply lwp_mono; [by apply select_static_ok|]. intros a w'. apply others_some. }
  destruct (on (info_port_state _) AD_STATE_SYNCHRONIZATION); [by apply choose_ok|]. eapply lwp_others; [exact H1|apply leave_ok|]. intros r w2 H2.
  pose proof (others_some n _ _ H2). destruct (negb _); [by apply lwp_ret|]. apply lwp_bind, lwp_get_actor.
  destruct (port_at w2 n) as [q2|] eqn:Hq2; cbn [fmap option_fmap option_map]; [by apply choose_ok|by apply lwp_ret].
Qed.

(** *** The turn of the daemon *)

(** The operations of [Lacp], by their specification. *)
Lemma lwp_tables f y (Q : Z -> lacp_spec -> Prop) w : (forall st, holds st w -> refines (f st) y) -> Q y.1 y.2 -> lwp (on_tables f) Q w.
Proof.
  intros Hf HQ s Hs. destruct (Hf (lacp s) Hs) as (st & E & H). unfold on_tables. rewrite E. by eexists _, _, _.
Qed.
Lemma lwp_begin n (Q : unit -> lacp_spec -> Prop) w : Q tt (spec_change begin_off n w).2 -> lwp (store (begin_handled n)) Q w.
Proof.
  intros HQ s Hs. destruct (begin_ok (lacp s) w n Hs) as (st & E & H). unfold with_code in E. unfold store.
  destruct (begin_handled n (lacp s)) as [st'|]; [|done]. cbn in E. injection E as <-. by eexists _, _, _.
Qed.

Section truth.
Context (le : bool).
Implicit Types (heard : Z -> list lacpdu_t).

(** Every port tells the truth of what it heard; and that, but for port [n]. *)
Definition truth_at (n : Z) (R : lacp_port -> Prop) heard w : Prop :=
  forall m p, port_at w m = Some p -> if m =? n then R p else rx_inv le (heard m) p.
Definition truthful heard w : Prop := forall m p, port_at w m = Some p -> rx_inv le (heard m) p.

Lemma truthful_at n heard w : truthful heard w <-> truth_at n (rx_inv le (heard n)) heard w.
Proof.
  split; intros H m p Hm; specialize (H m p Hm); revert H; destruct (Z.eqb_spec m n) as [E|]; try done; by rewrite E.
Qed.

Lemma truth_weaken n (R R' : lacp_port -> Prop) heard w : (forall p, R p -> R' p) -> truth_at n R heard w -> truth_at n R' heard w.
Proof. intros HR H m p Hm. specialize (H m p Hm). destruct (m =? n); auto. Qed.

Lemma truth_change (f : lacp_port -> lacp_port) n (R R' : lacp_port -> Prop) heard w w' :
  (forall p, R p -> R' (f p)) -> (forall m, port_at w' m = if m =? n then f <$> port_at w n else port_at w m) ->
  truth_at n R heard w -> truth_at n R' heard w'.
Proof.
  intros Hf Hp H m p Hm. rewrite Hp in Hm. specialize (H m). destruct (Z.eqb_spec m n) as [E|]; [|by apply H].
  rewrite E in H. destruct (port_at w n) as [q|]; [|done]. cbn in Hm. injection Hm as <-. by apply Hf, H.
Qed.

Lemma truth_others heard w w' : others w w' -> truthful heard w -> truthful heard w'.
Proof.
  intros Hw H m p Hm. specialize (Hw m). rewrite Hm in Hw. destruct (port_at w m) as [q|] eqn:Hq; [|done].
  eapply other_inv; [exact Hw|]. by apply H.
Qed.
Lemma truth_chosen n heard w w' :
  chosen n w w' -> truth_at n (rx_truth le AD_LONG_TIMEOUT_TIME (heard n)) heard w -> truth_at n (rx_truth le timer_max (heard n)) heard w'.
Proof.
  intros Hw H m p Hm. specialize (Hw m). rewrite Hm in Hw. destruct (port_at w m) as [q|] eqn:Hq; [|done]. specialize (H m q Hq).
  destruct (m =? n); [by eapply selection_truth|by eapply other_inv].
Qed.

(** The ports after the calls of the machines. *)
Lemma receive_ports env lacpdu n w m :
  port_at (spec_receive env lacpdu n w).2 m = if m =? n then rx_stored (little_endian env) lacpdu <$> port_at w n else port_at w m.
Proof.
  unfold spec_receive, rx_stored. destruct (port_at w n) as [p|] eqn:Hn; cbn [snd fmap option_fmap option_map].
  - destruct (rx_port _ _ _) as [[|q]|]; cbn [port_at set_port]; try by destruct (Z.eqb_spec m n) as [->|].
    destruct (m =? n); [done|]. destruct (agg_at w n); [|done]. by destruct (rx_acts _ _).
  - by destruct (Z.eqb_spec m n) as [->|].
Qed.
Lemma change_ports f n w m : port_at (spec_change f n w).2 m = if m =? n then f <$> port_at w n else port_at w m.
Proof. unfold spec_change. destruct (port_at w n) as [p|] eqn:Hn; cbn; by destruct (Z.eqb_spec m n) as [->|]. Qed.
Lemma transmit_ports env n w m :
  port_at (spec_transmit env n w).2 m = if m =? n then tx_port (bool_decide (is_Some (tx_vid env n))) <$> port_at w n else port_at w m.
Proof.
  unfold spec_transmit. destruct (port_at w n) as [p|] eqn:Hn; [|by destruct (Z.eqb_spec m n) as [->|]].
  destruct (tx_vid env n); cbn [snd].
  - rewrite bool_decide_eq_true_2 by by eexists. cbn. destruct (m =? n); [done|]. by destruct (tx_due p).
  - rewrite bool_decide_eq_false_2 by by intros [? ?]. cbn. by destruct (m =? n).
Qed.

Lemma port_turn_ok env n heard w :
  little_endian (lacp_of env) = le -> truthful heard w -> lwp (port_turn env n) (fun _ => truthful heard) w.
Proof.
  intros Hle H. rewrite (truthful_at n) in H. unfold port_turn.
  apply lwp_bind. eapply lwp_tables; [intros; by apply receive_ok|].
  eapply truth_change in H; [|intros p Hp; by apply (rx_stored_ok le (heard n) None p Hp)|intros m; rewrite <- Hle; apply receive_ports].
  apply lwp_bind. eapply lwp_tables; [intros; by apply periodic_ok|].
  eapply truth_change in H; [|intros p Hp; by eapply other_truth; [apply periodic_writes|]|intros m; apply change_ports].
  apply lwp_bind. eapply lwp_mono; [apply selection_ok|]. intros r w3 Hc. eapply truth_chosen in H; [|exact Hc].
  apply lwp_bind. eapply lwp_tables; [intros; by apply transmit_ok|].
  eapply truth_change in H; [|intros p Hp; by eapply other_truth; [apply tx_writes|]|intros m; apply transmit_ports].
  apply lwp_bind, lwp_get_sm. destruct (port_at _ n) as [p|] eqn:Hn; cbn [fmap option_fmap option_map].
  - apply lwp_bind, lwp_begin, lwp_ret. apply (truthful_at n). eapply truth_change; [|intros m; apply change_ports|exact H].
    intros q Hq. right. by apply begin_off_truth.
  - apply lwp_ret. apply (truthful_at n). eapply truth_weaken; [|exact H]. intros q Hq. by right.
Qed.

Lemma handle_ok env g heard w :
  little_endian (lacp_of env) = le -> truthful heard w -> lwp (handle_aggregator env g) (fun _ => truthful heard) w.
Proof.
  intros Hle H. unfold handle_aggregator. cbv zeta. destruct (NPD_NETIF_TRUNK_TYPE =? _).
  - apply lwp_bind, lwp_get_world. intros x. destruct (npd_find_trunk _ _) as [t|]; [|by apply lwp_ret].
    destruct (_ =? _); [by apply lwp_ret|]. revert w H. induction (trunk_ports t) as [|m ms IH]; intros w H; cbn [member_turns];
      [by apply lwp_ret|]. cbv zeta. apply lwp_bind, lwp_get_actor.
    destruct (port_at w _); cbn [fmap option_fmap option_map]; [|by apply lwp_ret].
    apply lwp_bind. eapply lwp_mono; [by apply port_turn_ok|]. intros r w' H'. destruct (negb _); [by apply lwp_ret|by apply IH].
  - destruct (NPD_NETIF_ETH_TYPE =? _); [|by apply lwp_ret]. apply lwp_bind, lwp_get_actor.
    destruct (port_at w _); cbn [fmap option_fmap option_map]; [|by apply lwp_ret].
    destruct (_ =? 1); [by apply port_turn_ok|by apply lwp_ret].
Qed.

(** *** The other calls *)

(** A packet that is heard, or was for nobody. *)
Definition heard_at (n : Z) (lacpdu : lacpdu_t) heard : Z -> list lacpdu_t := fun m => if m =? n then lacpdu :: heard m else heard m.

Lemma packet_truth env n son lacpdu length heard w :
  little_endian env = le -> truthful heard w ->
  truthful (from_option (fun m => heard_at m lacpdu heard) heard (packet_port n son)) (spec_packet env n son lacpdu length w).2.
Proof.
  intros Hle H. destruct (packet_port n son) as [m|] eqn:Em; cbn [from_option].
  - assert (truthful (heard_at m lacpdu heard) w) as Hmore.
    { intros k p Hk. unfold heard_at. destruct (k =? m); [by apply rx_inv_more, H|by apply H]. }
    unfold spec_packet. rewrite Em. destruct (npd_lacp_cfg env) as [enable|]; [|done]. destruct (enable =? 0); [done|].
    destruct (port_at w m); [|done]. destruct (_ && _ && _); [|done]. intros k p Hk. cbn [snd] in Hk.
    rewrite receive_ports, Hle in Hk. unfold heard_at. specialize (H k). destruct (Z.eqb_spec k m) as [E|]; [|by apply H].
    rewrite E in *. destruct (port_at w m) as [q|]; [|done]. injection Hk as <-. by apply (rx_stored_ok le (heard m) (Some lacpdu)), H.
  - unfold spec_packet. rewrite Em. destruct (npd_lacp_cfg env) as [enable|]; [|done]. by destruct (enable =? 0).
Qed.

(** A port that starts again. *)
Lemma begins_truth n p heard w : begins p = true -> truthful heard w -> truthful heard (set_port n p w).
Proof. intros Hp H m q Hm. cbn in Hm. destruct (m =? n); [injection Hm as <-; by left|by apply H]. Qed.

Lemma restart_truth change n heard w : truthful heard w -> truthful heard (spec_change (restarted change) n w).2.
Proof.
  intros H. unfold spec_change. destruct (port_at w n); [|done]. apply begins_truth; [|done]. unfold begins, restarted. cbn. by flags.
Qed.

Lemma link_begins up key p : begins (link_changed up key p) = true.
Proof. unfold begins, link_changed. destruct up; cbn; by flags. Qed.

Lemma link_truth env up n heard w : truthful heard w -> (spec_link env up n w).1 <> -1 -> truthful heard (spec_link env up n w).2.
Proof.
  intros H. unfold spec_link. destruct (port_at w n) as [p|]; [|done]. cbv zeta. set (p' := link_changed _ _ _).
  pose proof (link_begins up (link_key env n) p) as Hb. fold p' in Hb.
  destruct (agg_at w n) as [g|]; [intros _; by apply begins_truth|]. destruct (negb _); [intros _; by apply begins_truth|].
  destruct (agg_at w _) as [g|]; [|done]. destruct (_ =? _); [|intros _; by apply begins_truth].
  pose proof (spec_static_ports env (trunk_netif_index (actor p)) (set_port n (LPort (carrying (actor p')) (partner p) (sm p)) w)) as Hq.
  destruct (spec_static _ _ _) as [rc w']. cbn [snd] in Hq. destruct (rc =? _); [done|]. intros _ m q Hm. cbn in Hm. rewrite Hq in Hm. cbn in Hm.
  specialize (H m q). destruct (m =? n); [|by apply H]. injection Hm as <-. by left.
Qed.

End truth.

(** A port that goes. *)
Definition unset_port (n : Z) w : lacp_spec := Spec (fun m => if m =? n then None else port_at w m) (agg_at w) (frames w).

Lemma port_delete_ok n p w st : holds st w -> port_at w n = Some p ->
  exists r st' w', npd_port_aggregator_delete n st = Some (r, st') /\ holds st' w' /\ same_ports (unset_port n w) w'.
Proof.
  intros [[] Ha Hp Hs Hg Hf] Hn. unfold npd_port_aggregator_delete, npd_lacp_aggregator_delete.
  destruct (delete_at actor_netif_index actor_key (fun _ => eq_refl) actor_same (actors st) n) as (ta & -> & Ka & La); [done| |].
  { fold (find_actor st n). rewrite Ha, Hn. by eexists. }
  destruct (delete_at partner_netif_index partner_key (fun _ => eq_refl) partner_same (partners st) n) as (tp & Ep & Kp & Lp); [done| |].
  { fold (find_partner st n). rewrite Hp, Hn. by eexists. }
  destruct (delete_at sm_netif_index sm_key (fun _ => eq_refl) sm_same (sms st) n) as (ts & Es & Ks & Ls); [done| |].
  { fold (find_sm st n). rewrite Hs, Hn. by eexists. }
  destruct (delete_total (aggs st) (agg_key n)) as (r & tg & Eg & Kg); [done|apply ks_all_valid|].
  cbn [mbind option_bind negb Z.eqb partners sms aggs]. rewrite Ep. cbn [mbind option_bind negb Z.eqb partners sms aggs].
  rewrite Es. cbn [mbind option_bind negb Z.eqb partners sms aggs]. rewrite Eg. cbn [mbind option_bind].
  eexists r, _, (Spec (port_at (unset_port n w)) (fun m => ks_search tg (agg_key m)) (frames w)). split_and!; [done| |done].
  split; [by split|intros m..|done]; unfold find_actor, find_partner, find_sm, find_agg in *; cbn [actors partners sms aggs port_at unset_port agg_at].
  - rewrite La, Ha. by destruct (m =? n).
  - rewrite Lp, Hp. by destruct (m =? n).
  - rewrite Ls, Hs. by destruct (m =? n).
  - done.
Qed.


(** *** The protocol on and off *)

Lemma disable_ok le heard env n w : truthful le heard w -> lwp (dot3ad_disable_lacp_port env n) (fun _ => truthful le heard) w.
Proof.
  intros H. assert (forall w' p, others w w' -> port_at w' n = Some p -> lwp (on_tables (npd_port_aggregator_delete n)) (fun _ => truthful le heard) w') as Hd.
  { intros w' p Ho Hn s Hs. destruct (port_delete_ok n p w' (lacp s) Hs Hn) as (r & st & w2 & E & H2 & Hp). unfold on_tables. rewrite E.
    eexists _, _, w2. split_and!; [done|done|]. intros m q Hm. rewrite Hp in Hm. cbn in Hm. destruct (m =? n); [done|].
    by eapply (truth_others le heard w w'). }
  unfold dot3ad_disable_lacp_port. apply lwp_bind, lwp_get_actor.
  destruct (port_at w n) as [p|] eqn:Hn; cbn [fmap option_fmap option_map]; [|by apply lwp_ret]. cbv zeta.
  destruct (_ =? _); [|by eapply Hd; [apply others_refl|]]. apply lwp_bind, lwp_get_agg. intros [g|]; [|by apply lwp_ret].
  destruct (_ || _); [by apply lwp_ret|]. apply lwp_bind. eapply lwp_mono; [apply leave_ok|]. intros r w' Ho.
  pose proof (Ho n) as Hq. rewrite Hn in Hq. destruct (port_at w' n) as [q|] eqn:Hq'; [|done]. by eapply Hd.
Qed.

(** The tables have room for a port that is new, and it has a number of its
    own. *)
Definition room (env : lacp_env) (n : Z) st : Prop := forall link, eth_port_link env n = Some link ->
  let p := initial_port env false AD_ACTIVE true link n in
  (ks_valid (actor p) /\ ks_fits (actors st) (actor p) = true /\ ks_count (actors st) <> ks_cap (actors st)) /\
  (ks_valid (partner p) /\ ks_fits (partners st) (partner p) = true /\ ks_count (partners st) <> ks_cap (partners st)) /\
  (ks_valid (sm p) /\ ks_fits (sms st) (sm p) = true /\ ks_count (sms st) <> ks_cap (sms st)).

Lemma initialize_truth le heard env n st w :
  holds st w -> truthful le heard w -> port_at w n = None -> room env n st ->
  exists r st' w', dot3ad_initialize_port env false AD_ACTIVE true n st = Some (r, st') /\ holds st' w' /\ truthful le heard w'.
Proof.
  intros Hs H Hn Hr. destruct (Z.eqb_spec (npd_netif_type_get n) NPD_NETIF_ETH_TYPE) as [Ht|Ht].
  - destruct (eth_port_link env n) as [link|] eqn:Hl.
    + destruct (Hr link Hl) as (R1 & R2 & R3). destruct (initialize_ok env false AD_ACTIVE true link st w n Hs Hn Ht Hl R1 R2 R3) as (st' & E & H').
      eexists _, st', _. split_and!; [exact E|exact H'|]. by apply begins_truth.
    + exists (-1), st, w. unfold dot3ad_initialize_port. by rewrite Hl; destruct (_ =? _).
  - exists (-1), st, w. unfold dot3ad_initialize_port. apply Z.eqb_neq in Ht. by rewrite Ht.
Qed.

Lemma enable_ok le heard env n s w :
  holds (lacp s) w -> truthful le heard w -> is_Some (eth_port_trunkid (lacp_of env) n) -> room (lacp_of env) n (lacp s) ->
  exists r s' w', dot3ad_enable_lacp_port env n s = Some (r, s') /\ holds (lacp s') w' /\ truthful le heard w'.
Proof.
  intros Hs H [t Ht] Hr. unfold dot3ad_enable_lacp_port. rewrite Ht. destruct (0 <? t); [by eexists _, s, w|].
  unfold mbind at 1, SM_bind at 1, get_actor. cbn [fst snd]. rewrite (holds_actor _ _ Hs n).
  destruct (port_at w n) as [p|] eqn:Hn; cbn [fmap option_fmap option_map]; [by eexists _, s, w|].
  destruct (initialize_truth le heard (lacp_of env) n (lacp s) w Hs H Hn Hr) as (r & st & w1 & E & H1 & T1).
  unfold mbind at 1, SM_bind at 1, on_tables. rewrite E.
  destruct (lwp_others (npd_lacp_aggregator_init n DYNAMIC_MODE) (fun _ => mret 0) (fun _ => others w1) w1 w1) with (s := SelState st (world s) (last_id s))
    as (r2 & s2 & w2 & E2 & H2 & O2); [apply others_refl|apply aggregator_init_ok|intros; by apply lwp_ret|exact H1|].
  eexists r2, s2, w2. split_and!; [exact E2|exact H2|by eapply truth_others].
Qed.

End rules.

(** ** Runs of the daemon *)

(** The turn of an aggregator, a packet, events of the switch, and the
    commands that turn the protocol on and off on a port. *)
Inductive daemon_call :=
  | DHandle (g : aggregator)
  | DPacket (n son : Z) (lacpdu : lacpdu_t) (length : Z)
  | DLink (up : bool) (n : Z)
  | DSpeed (n : Z)
  | DDuplex (n : Z)
  | DEnable (n : Z)
  | DDisable (n : Z).

Definition heard_by (c : daemon_call) (heard : Z -> list lacpdu_t) : Z -> list lacpdu_t :=
  match c with
  | DPacket n son lacpdu _ => from_option (fun m => heard_at m lacpdu heard) heard (packet_port n son)
  | _ => heard
  end.

(** A change of the link that was refused is left out: on a static trunk whose
    first port is not known it stores half of the port. *)
Definition completed (c : daemon_call) (r : Z) : Prop := match c with DLink _ _ => r <> -1 | _ => True end.

Section daemon_runs.
Context {TA TP TM TG W : Type} `{!KeyStore TA lacpport_actor, !KeyStore TP lacpport_partner, !KeyStore TM lacpport_sm, !KeyStore TG aggregator, !AggregatorIds TG, !Trunks W}.
Implicit Types (s : sel_state TA TP TM TG W).

Definition daemon_exec (env : sel_env) (c : daemon_call) : SM TA TP TM TG W Z :=
  match c with
  | DHandle g => handle_aggregator env g
  | DPacket n son lacpdu length => on_tables (dot3ad_rx_indication (lacp_of env) n son lacpdu length)
  | DLink up n => on_tables (dot3ad_handle_link_change (lacp_of env) up n)
  | DSpeed n => on_tables (dot3ad_adapter_speed_changed (lacp_of env) n)
  | DDuplex n => on_tables (dot3ad_adapter_duplex_changed (lacp_of env) n)
  | DEnable n => dot3ad_enable_lacp_port env n
  | DDisable n => dot3ad_disable_lacp_port env n
  end.

(** A port that the protocol is turned on for is one of the switch, and there
    is room for it. *)
Definition possible (env : sel_env) (c : daemon_call) s : Prop :=
  match c with DEnable n => is_Some (eth_port_trunkid (lacp_of env) n) /\ room (lacp_of env) n (lacp s) | _ => True end.

(** The daemon starts without ports; every call comes with what the rest of
    npd says then. *)
Inductive daemon_run (le : bool) : (Z -> list lacpdu_t) -> sel_state TA TP TM TG W -> Prop :=
  | daemon_start s : holds (lacp s) no_ports -> daemon_run le (fun _ => []) s
  | daemon_calls heard s env c r s' :
      daemon_run le heard s -> little_endian (lacp_of env) = le -> possible env c s ->
      daemon_exec env c s = Some (r, s') -> completed c r -> daemon_run le (heard_by c heard) s'.

Context `{!LacpStores TA TP TM TG}.

Lemma lwp_result {A} (m : SM TA TP TM TG W A) (P : A -> Prop) (T : lacp_spec -> Prop) s w :
  lwp m (fun r w' => P r -> T w') w -> holds (lacp s) w ->
  exists r s', m s = Some (r, s') /\ (P r -> exists w', holds (lacp s') w' /\ T w').
Proof. intros H Hs. destruct (H s Hs) as (r & s' & w' & E & H' & Q). exists r, s'. split; [done|]. intros HP. exists w'. auto. Qed.

Lemma daemon_call_ok le env c heard s w :
  holds (lacp s) w -> truthful le heard w -> little_endian (lacp_of env) = le -> possible env c s ->
  exists r s', daemon_exec env c s = Some (r, s') /\
    (completed c r -> exists w', holds (lacp s') w' /\ truthful le (heard_by c heard) w').
Proof.
  intros Hs H Hle Hp. destruct c as [g|n son lacpdu length|up n|n|n|n|n]; cbn [daemon_exec heard_by completed possible] in *.
  - eapply lwp_result; [|exact Hs]. eapply lwp_mono; [by apply handle_ok|]. done.
  - eapply lwp_result; [|exact Hs]. eapply lwp_tables; [intros; by apply packet_ok|]. intros _. by apply packet_truth.
  - eapply lwp_result; [|exact Hs]. eapply lwp_tables; [intros; by apply link_ok|]. intros Hr. by apply link_truth.
  - eapply lwp_result; [|exact Hs]. eapply lwp_tables; [intros; by apply restart_ok|]. intros _. by apply restart_truth.
  - eapply lwp_result; [|exact Hs]. eapply lwp_tables; [intros; by apply restart_ok|]. intros _. by apply restart_truth.
  - destruct Hp as [Ht Hr]. destruct (enable_ok le heard env n s w Hs H Ht Hr) as (r & s' & w' & E & H' & T). exists r, s'.
    split; [done|]. intros _. by exists w'.
  - eapply lwp_result; [|exact Hs]. eapply lwp_mono; [by apply disable_ok|]. done.
Qed.

Lemma daemon_inv le heard s : daemon_run le heard s -> exists w, holds (lacp s) w /\ truthful le heard w.
Proof.
  induction 1 as [s Hs|heard s env c r s' _ (w & Hs & H) Hle Hp E Hc]; [by exists no_ports|].
  destruct (daemon_call_ok le env c heard s w Hs H Hle Hp) as (r' & s2 & E' & Hw). rewrite E in E'. injection E' as <- <-. by apply Hw.
Qed.

(** C19: the daemon keeps its ports truthful.  Start the daemon without ports
    and let turns of aggregators of any kind, packets, changes of link, speed
    and duplex mode, and the protocol turned on and off on ports follow each
    other, with any table of trunks and with the choice of an aggregator and the
    trunks it joins, leaves and makes.  The protocol is turned on only for ports
    that the switch knows (for others the code follows a null pointer), that
    have a number of their own and that the tables have room for ([possible]);
    changes of the link that were refused are not part of the past
    ([completed]: on a static trunk they can store half of a port); changes of
    the mode and ports that enter or leave static trunks are not among the
    calls.  Then every call returns, each port is in its three tables or in
    none, and a port that is not about to start again says of itself and of its
    partner only what the packets it heard allow. *)
Theorem daemon_reports_truth le heard s :
  daemon_run le heard s ->
  (exists w, holds (lacp s) w /\ forall n p, port_at w n = Some p -> begins p = false -> rx_truth le timer_max (heard n) p) /\
  (forall env c, little_endian (lacp_of env) = le -> possible env c s -> is_Some (daemon_exec env c s)).
Proof.
  intros Hr. destruct (daemon_inv le heard s Hr) as (w & Hs & H). split.
  - exists w. split; [done|]. intros n p Hn Hb. destruct (H n p Hn) as [Ht|Ht]; [congruence|done].
  - intros env c Hle Hp. destruct (daemon_call_ok le env c heard s w Hs H Hle Hp) as (r & s' & E & _). rewrite E. by eexists.
Qed.

End daemon_runs.

(** ** Witness: two ports with one partner become a trunk *)

Definition demo_second_port : Z := npd_netif_eth_index 0 0 0 4.
Definition demo_third_port : Z := npd_netif_eth_index 0 0 0 5.
Definition demo_fourth_port : Z := npd_netif_eth_index 0 0 0 8.

#[local] Instance pair_actors : KeyStore (db_table_t lacpport_actor) lacpport_actor := actors_store memory_short.
#[local] Instance pair_partners : KeyStore (db_table_t lacpport_partner) lacpport_partner := partners_store memory_short.
#[local] Instance pair_sms : KeyStore (db_table_t lacpport_sm) lacpport_sm := sms_store memory_short.
#[local] Instance pair_aggs : KeyStore (db_table_t aggregator) aggregator := aggs_store memory_short.
#[local] Instance pair_ids : AggregatorIds (db_table_t aggregator) := aggs_ids.

Lemma pair_stores : LacpStores (db_table_t lacpport_actor) (db_table_t lacpport_partner) (db_table_t lacpport_sm) (db_table_t aggregator).
Proof. apply (lacp_stores memory_short), demo_board. Qed.
#[local] Existing Instance pair_stores.

(** Trunks as a list, on a switch that does what it is told. *)
Definition demo_array_port (n : Z) : Z := NetifIndex.eth_port_array_index_from_ifindex memory_short n.
Definition change_trunk (id : Z) (f : trunk_s -> trunk_s) (w : list (Z * trunk_s)) : list (Z * trunk_s) :=
  map (fun e => if e.1 =? id then (e.1, f e.2) else e) w.
Definition with_ports (f : list Z -> list Z) (t : trunk_s) : trunk_s :=
  Trunk (f (trunk_ports t)) (trunk_g_index t) (trunk_mode t) (trunk_name t) (master_port_index t).

#[local] Instance demo_trunks : Trunks (list (Z * trunk_s)) := {|
  npd_find_trunk w id := snd <$> find (fun e => e.1 =? id) w;
  npd_find_trunk_by_name w name := existsb (fun e => bool_decide (trunk_name e.2 = name)) w;
  update_trunk id t := change_trunk id (fun _ => t);
  npd_trunk_activate id name w := (0, (id, Trunk [] (npd_netif_trunk_index id) MANUAL_MODE name 0) :: w);
  npd_trunk_port_add id n w := (0, change_trunk id (with_ports (fun ps => ps ++ [demo_array_port n])) w);
  npd_trunk_port_del id n w := (0, change_trunk id (with_ports (List.filter (fun x => negb (x =? demo_array_port n)))) w);
  npd_trunk_destroy_node id w := (0, List.filter (fun e => negb (e.1 =? id)) w)
|}.

Definition pair_lacp_env : lacp_env := {|
  little_endian := true; npd_vlan_port_pvid_get := fun _ => Some 1; eth_port_trunkid := fun _ => Some 0;
  eth_port_sw_speed_get := fun _ => 1000; eth_port_sw_duplex_get := fun _ => ETH_ATTR_DUPLEX_FULL;
  eth_port_link := fun _ => Some ETH_ATTR_LINKUP; npd_trunk_master_port_get := fun _ => None;
  eth_port_array_index_from_ifindex := NetifIndex.eth_port_array_index_from_ifindex memory_short; npd_system_get_basemac := [0; 1; 2; 3; 4; 5]; npd_lacp_cfg := Some 1 |}.
Definition pair_env : sel_env := SelEnv pair_lacp_env 8 (fun k => u32 (NetifIndex.eth_port_array_index_to_ifindex memory_short 0 k)) 0 [].

(** A packet of port [k] of the partner, which knows the port [n]. *)
Definition pair_pdu (k n : Z) : lacpdu_t :=
  let a := actor (initial_port pair_lacp_env false AD_ACTIVE true ETH_ATTR_LINKUP n) in
  Lacpdu 1 0x80 [9; 8; 7; 6; 5; 4] 0x1100 0x100 (bswap16 k) 0xd (bswap16 (actor_system_priority a)) (actor_system a)
    (bswap16 (actor_oper_port_key a)) (bswap16 (actor_port_priority a)) (bswap16 (actor_port_number a)) 0xd 0.

Definition pair_turn : list daemon_call := [DHandle (agg_key demo_lacp_port); DHandle (agg_key demo_second_port)].
Definition pair_packets : list daemon_call :=
  [DPacket demo_lacp_port 0 (pair_pdu 1 demo_lacp_port) 124; DPacket demo_second_port 0 (pair_pdu 2 demo_second_port) 124].
Definition pair_calls : list daemon_call :=
  [DEnable demo_lacp_port; DEnable demo_second_port] ++ pair_turn ++ pair_turn ++ pair_turn ++ pair_packets ++ pair_turn ++ pair_packets ++ pair_turn.

Definition pair_start : sel_state (db_table_t lacpport_actor) (db_table_t lacpport_partner) (db_table_t lacpport_sm) (db_table_t aggregator) (list (Z * trunk_s)) :=
  SelState (npd_lacp_init memory_short) [] 0.

(** The calls in a row, where they are possible. *)
Abbreviation pair_state := (sel_state (db_table_t lacpport_actor) (db_table_t lacpport_partner) (db_table_t lacpport_sm) (db_table_t aggregator) (list (Z * trunk_s))).
Definition demo_ports : list Z := [demo_lacp_port; demo_second_port; demo_third_port; demo_fourth_port].
Lemma demo_ports_ok n : n ∈ demo_ports -> eth_canonical memory_short n.
Proof. unfold demo_ports. rewrite !elem_of_cons, elem_of_nil. intros [->|[->|[->|[->|[]]]]]; by apply demo_canonical. Qed.
Definition has_room (n : Z) (s : pair_state) : bool :=
  let p := initial_port pair_lacp_env false AD_ACTIVE true ETH_ATTR_LINKUP n in
  let st := lacp s in
  (ks_fits (actors st) (actor p) && negb (ks_count (actors st) =? ks_cap (actors st)))
  && (ks_fits (partners st) (partner p) && negb (ks_count (partners st) =? ks_cap (partners st)))
  && (ks_fits (sms st) (sm p) && negb (ks_count (sms st) =? ks_cap (sms st))).
Fixpoint pair_run (cs : list daemon_call) (heard : Z -> list lacpdu_t) (s : pair_state) : option ((Z -> list lacpdu_t) * pair_state) :=
  match cs with
  | [] => Some (heard, s)
  | c :: cs =>
      if match c with DEnable n => bool_decide (n ∈ demo_ports) && has_room n s | DLink _ _ => false | _ => true end
      then '(_, s) ← daemon_exec pair_env c s; pair_run cs (heard_by c heard) s else None
  end.

Lemma pair_run_ok cs heard s heard' s' : daemon_run true heard s -> pair_run cs heard s = Some (heard', s') -> daemon_run true heard' s'.
Proof.
  revert heard s. induction cs as [|c cs IH]; intros heard s Hr; cbn [pair_run]; [by intros [= <- <-]|].
  destruct (match c with DEnable n => _ | DLink _ _ => _ | _ => _ end) eqn:Hc; [|done].
  destruct (daemon_exec pair_env c s) as [[r s1]|] eqn:E; [|done]. cbn [mbind option_bind]. apply IH.
  eapply (daemon_calls true heard s pair_env c r s1); [exact Hr|reflexivity| |exact E|by destruct c]. destruct c; try done. split; [by eexists|].
  intros link [= <-]. apply andb_true_iff in Hc as [Hd%bool_decide_eq_true%demo_ports_ok Hc]. unfold has_room in Hc. cbv zeta in Hc. apply andb_true_iff in Hc as [Hc H3]. apply andb_true_iff in Hc as [H1 H2].
  apply andb_true_iff in H1 as [? H1], H2 as [? H2], H3 as [? H3]. apply negb_true_iff, Z.eqb_neq in H1, H2, H3. done.
Qed.

Lemma pair_started : daemon_run true (fun _ => []) pair_start.
Proof. apply daemon_start, (init_holds memory_short), demo_board. Qed.

(** What the run leaves of the trunk, and of a port: its trunk, and whether it
    is about to start again. *)
Definition seen (n : Z) (s : pair_state) : option (list Z) * option Z * option bool :=
  (trunk_ports <$> npd_find_trunk (world s) 1, trunk_netif_index <$> find_actor (lacp s) n,
   (fun x => on (sm_vars x) AD_PORT_BEGIN) <$> find_sm (lacp s) n).

Lemma pair_seen : exists heard s, pair_run pair_calls (fun _ => []) pair_start = Some (heard, s) /\
  seen demo_lacp_port s = (Some [3; 4], Some (npd_netif_trunk_index 1), Some false) /\
  seen demo_second_port s = (Some [3; 4], Some (npd_netif_trunk_index 1), Some false).
Proof.
  assert (from_option (fun x => Some (seen demo_lacp_port x.2, seen demo_second_port x.2)) None (pair_run pair_calls (fun _ => []) pair_start) =
    Some ((Some [3; 4], Some (npd_netif_trunk_index 1), Some false), (Some [3; 4], Some (npd_netif_trunk_index 1), Some false))) as E
    by (vm_compute; reflexivity).
  destruct (pair_run pair_calls (fun _ => []) pair_start) as [[heard s]|]; [|discriminate E]. exists heard, s.
  cbn [from_option snd] in E. apply (inj Some), pair_eq in E as [E1 E2]. done.
Qed.

(** After the run both ports are members of one trunk, and truthful. *)
Lemma daemon_reports_truth_witness :
  exists heard s w, daemon_run true heard s /\ holds (lacp s) w /\ (trunk_ports <$> npd_find_trunk (world s) 1) = Some [3; 4] /\
    (forall n, n = demo_lacp_port \/ n = demo_second_port ->
       exists p, port_at w n = Some p /\ trunk_netif_index (actor p) = npd_netif_trunk_index 1 /\ rx_truth true timer_max (heard n) p).
Proof.
  destruct pair_seen as (heard & s & E & H1 & H2). pose proof (pair_run_ok _ _ _ _ _ pair_started E) as Hr. clear E.
  destruct (daemon_reports_truth true heard s Hr) as [(w & Hs & H) _]. exists heard, s, w.
  split; [exact Hr|]. split; [exact Hs|]. split; [exact (f_equal (fun x => x.1.1) H1)|]. intros n Hn.
  assert (seen n s = (Some [3; 4], Some (npd_netif_trunk_index 1), Some false)) as E by (destruct Hn as [->| ->]; assumption).
  unfold seen in E. rewrite (holds_actor _ _ Hs n), (holds_sm _ _ Hs n) in E. specialize (H n).
  destruct (port_at w n) as [p|]; [|discriminate E]. cbn [fmap option_fmap option_map] in E. injection E as _ E2 E3.
  exists p. split; [reflexivity|]. split; [exact E2|]. by apply H.
Defined.
