(* ===== verification/LacpChoice.v ===== *)
(** * Link aggregation: what the choice of an aggregator does

    Identifiers of aggregators are fresh while those given out have a slot in the
    index of identifiers; and where the choice of [LacpSelect] goes wrong: an
    identifier given again, a port of the switch taken for a trunk. *)

From Stdlib Require Import ZArith Lia Bool.
From stdpp Require Import base decidable list gmap.
From S2P Require Import Prelude Cstring NetifIndex Database Chains DatabaseHash DatabaseSeq KeyStore Lacp LacpPorts LacpTables LacpIds LacpSelect LacpDaemon.

Open Scope Z_scope.

Section choice.
Context {TA TP TM TG W : Type} `{!KeyStore TA lacpport_actor, !KeyStore TP lacpport_partner, !KeyStore TM lacpport_sm, !KeyStore TG aggregator, !AggregatorIds TG, !AggregatorIdLaws TG, !Trunks W}.
Implicit Types (s : sel_state TA TP TM TG W) (w : lacp_spec).
Abbreviation M := (SM TA TP TM TG W).

(** A computation goes on with the result of its first part. *)
Lemma run_bind {A B} (m : M A) (f : A -> M B) s a s1 : m s = Some (a, s1) -> (m ≫= f) s = f a s1.
Proof. intros E. unfold mbind, SM_bind. by rewrite E. Qed.

(** *** Identifiers *)

(** The identifiers in use are counted from 1 to the last one given out. *)
Definition counted s : Prop := forall g, g ∈ ks_entries (aggs (lacp s)) -> 1 <= aggregator_identifier g <= last_id s.

Definition fresh s (id : Z) : Prop := forall g, g ∈ ks_entries (aggs (lacp s)) -> aggregator_identifier g <> id.

(** The identifiers of the aggregators differ, are filed, and are counted. *)
Record ids_state s : Prop := {
  is_table : ks_ok (aggs (lacp s));
  is_filed : ids_ok (aggs (lacp s));
  is_counted : counted s
}.

(** The second index has an identifier that is in use, if it has a slot. *)
Lemma not_found_fresh s id : ids_state s -> 0 <= id < ks_cap (aggs (lacp s)) -> id_found (aggs (lacp s)) id = false <-> fresh s id.
Proof.
  intros [Hok Hf _] Hid. rewrite <- not_true_iff_false, (ids_found _ id Hok Hf). split.
  - intros H g Hg He. apply H. split; [done|]. by exists g.
  - intros H (_ & g & Hg & He). by apply (H g).
Qed.
Lemma no_slot_not_found s id : ids_state s -> ks_cap (aggs (lacp s)) <= id -> id_found (aggs (lacp s)) id = false.
Proof. intros [Hok Hf _] Hid. apply not_true_iff_false. rewrite (ids_found _ id Hok Hf). lia. Qed.
Lemma next_fresh s : counted s -> fresh s (last_id s + 1).
Proof. intros Hc g Hg. specialize (Hc g Hg). lia. Qed.

(** The first free identifier. *)
Lemma find_first (f : Z -> bool) a n id : find f (seqZ a n) = Some id ->
  a <= id < a + n /\ f id = true /\ forall k, a <= k < id -> f k = false.
Proof.
  remember (Z.to_nat n) as m eqn:Em. revert a n Em. induction m as [|m IH]; intros a n Em.
  - rewrite seqZ_nil by lia. done.
  - rewrite seqZ_cons by lia. cbn [find]. destruct (f a) eqn:Ef.
    + intros [= <-]. split_and!; [lia|lia|done|]. intros k Hk. lia.
    + intros H. apply IH in H as (H1 & H2 & H3); [|lia]. split_and!; [lia|lia|done|]. intros k Hk.
      destruct (decide (k = a)) as [->|]; [done|]. apply H3. lia.
Qed.

Lemma find_free s : ids_state s -> 0 <= last_id s < AGGREGATOR_ID - 1 -> last_id s < ks_cap (aggs (lacp s)) ->
  exists id, find (fun id => negb (id_found (aggs (lacp s)) id)) (seqZ 1 (AGGREGATOR_ID - 1)) = Some id /\ id <= last_id s + 1.
Proof.
  intros Hs Hl Hcap. assert (id_found (aggs (lacp s)) (last_id s + 1) = false) as Hnext.
  { destruct (Z.ltb_spec (last_id s + 1) (ks_cap (aggs (lacp s)))); [|by apply no_slot_not_found; [|lia]].
    apply not_found_fresh; [done|lia|apply next_fresh, Hs]. }
  destruct (find _ _) as [id|] eqn:E.
  - exists id. split; [done|]. destruct (Z.le_gt_cases id (last_id s + 1)) as [|Hid]; [done|]. apply find_first in E as (_ & _ & H).
    specialize (H (last_id s + 1) ltac:(lia)). cbn beta in H. by rewrite Hnext in H.
  - exfalso. assert (last_id s + 1 ∈ seqZ 1 (AGGREGATOR_ID - 1)) as Hin by (apply elem_of_seqZ; lia).
    apply list_elem_of_In in Hin. apply (find_none _ _ E) in Hin. cbn beta in Hin. by rewrite Hnext in Hin.
Qed.

(** What a new aggregator gets. *)
Definition fresh_agg n s (g : aggregator) s' : Prop :=
  lacp s' = lacp s /\ world s' = world s /\ agg_netif_index g = n /\
  fresh s (aggregator_identifier g) /\ 1 <= aggregator_identifier g <= last_id s' /\ last_id s <= last_id s' <= last_id s + 1 /\
  (npd_netif_type_get n = NPD_NETIF_ETH_TYPE -> forall k, 1 <= k < aggregator_identifier g -> ~ fresh s k).

Lemma initialize_agg_fresh n s : ids_state s -> 0 <= last_id s < AGGREGATOR_ID - 1 -> last_id s < ks_cap (aggs (lacp s)) ->
  exists g s', dot3ad_initialize_agg n s = Some (g, s') /\ fresh_agg n s g s'.
Proof.
  intros Hs Hl Hcap. assert (u16 (last_id s + 1) = last_id s + 1) as Hu by (apply wrap_small; change AGGREGATOR_ID with 4096 in Hl; lia).
  pose proof (next_fresh s (is_counted s Hs)) as Hnext.
  unfold fresh_agg, dot3ad_initialize_agg. destruct (Z.eqb_spec NPD_NETIF_ETH_TYPE (npd_netif_type_get n)) as [Ht|Ht].
  - unfold npd_aggregator_id_get, get_ids, get_last_id, set_last_id, mbind, SM_bind, mret, SM_ret.
    destruct (find_free s Hs Hl Hcap) as (id & E & Hle). rewrite E. apply find_first in E as (Hr & Hf & Hmin). apply negb_true_iff in Hf.
    assert (forall k, 1 <= k < id -> ~ fresh s k) as Hleast.
    { intros k Hk H. apply not_found_fresh in H; [|done|lia]. specialize (Hmin k Hk). cbn beta in Hmin. by rewrite H in Hmin. }
    destruct (Z.leb_spec id (last_id s)); (eexists _, _; split; [done|]; cbn [lacp world agg_netif_index aggregator_identifier last_id]).
    + split_and!; try done; try lia. apply not_found_fresh; [done|lia|done].
    + rewrite Hu. assert (last_id s + 1 = id) as Heq by lia. rewrite Heq in *. split_and!; (done || lia).
  - unfold npd_aggregator_get_max_id, get_ids, get_last_id, set_last_id, mbind, SM_bind, mret, SM_ret.
    destruct (id_found (aggs (lacp s)) (last_id s)) eqn:Ei; [|destruct (Z.eqb_spec (last_id s) 0)]; cbn [negb andb];
      (eexists _, _; split; [done|]; cbn [lacp world agg_netif_index aggregator_identifier last_id]); rewrite ?Hu; split_and!;
      try done; try lia; try congruence. apply not_found_fresh; [done|lia|done].
Qed.

Context `{!LacpStores TA TP TM TG}.

(** Entries after an insertion, and after a deletion. *)
Lemma insert_entries (t : TG) g r t' x : ks_ok t -> ks_insert t g = Some (r, t') -> ks_ok t' /\ (x ∈ ks_entries t' -> x = g \/ x ∈ ks_entries t).
Proof.
  intros Hok E. destruct (insert_any t g Hok (ks_all_valid g)) as (r0 & t0 & E0 & Hok' & Hf). rewrite E in E0. injection E0 as <- <-.
  split; [done|]. rewrite !ks_entries_found by done. apply Hf.
Qed.
Lemma delete_entries (t : TG) g r t' x : ks_ok t -> ks_delete t g = Some (r, t') -> ks_ok t' /\ (x ∈ ks_entries t' -> x ∈ ks_entries t).
Proof.
  intros Hok E. destruct (delete_any t g Hok (ks_all_valid g)) as (r0 & t0 & E0 & Hok' & Hf). rewrite E in E0. injection E0 as <- <-.
  split; [done|]. rewrite !ks_entries_found by done. apply Hf.
Qed.

(** An aggregator that goes leaves the others filed. *)
Lemma delete_keeps_ids n s r s' : ids_state s -> on_tables (npd_lacp_aggregator_delete n) s = Some (r, s') -> ids_state s'.
Proof.
  intros [Hok Hf Hc]. unfold on_tables, npd_lacp_aggregator_delete. destruct (ks_delete (aggs (lacp s)) (agg_key n)) as [[rc t]|] eqn:E; [|done].
  cbn. intros [= _ <-]. split; cbn.
  - by apply (delete_entries _ _ _ _ (agg_key n) Hok E).
  - by eapply ids_delete.
  - intros g Hg. apply Hc. by apply (delete_entries _ _ _ _ g Hok E).
Qed.

(** C24: identifiers of aggregators are fresh. While the identifiers in use differ
    and are among those given out, and those given out are fewer than 4095
    and than the slots of the second index of the aggregators
    ([MAX_ETH_GLOBAL_INDEX]), a new aggregator of a port gets the least free
    identifier and one of a trunk the greatest given out, if it is free; in
    both cases nobody has it; and when an aggregator with it is inserted, the
    identifiers in use again differ, are filed and are counted. *)
Theorem identifiers_fresh n s :
  ids_state s -> 0 <= last_id s < AGGREGATOR_ID - 1 -> last_id s < ks_cap (aggs (lacp s)) ->
  exists g s', dot3ad_initialize_agg n s = Some (g, s') /\ fresh_agg n s g s' /\
    forall g', aggregator_identifier g' = aggregator_identifier g -> exists r s2, insert_agg g' s' = Some (r, s2) /\ ids_state s2.
Proof.
  intros Hs Hl Hcap. destruct (initialize_agg_fresh n s Hs Hl Hcap) as (g & s' & E & Hg). exists g, s'. split_and!; [done|done|].
  intros g' Hid. destruct Hg as (Hl' & _ & _ & Hfr & Hr & Hlast & _), Hs as [Hok Hf Hc]. unfold insert_agg, on_tables. rewrite Hl'.
  destruct (insert_total (aggs (lacp s)) g' Hok (ks_all_valid g')) as (r & t & Ei & _). rewrite Ei. cbn. eexists _, _. split; [done|]. split; cbn.
  - by apply (insert_entries _ _ _ _ g' Hok Ei).
  - eapply (ids_insert _ g'); [exact Hok|done|lia| |exact Ei]. intros x Hx He. exfalso. apply (Hfr x Hx). congruence.
  - intros x Hx. cbn in Hx. destruct (proj2 (insert_entries _ _ _ _ x Hok Ei) Hx) as [->|Hx']; [by rewrite Hid|]. cbn. specialize (Hc x Hx'). lia.
Qed.

(** Beyond the slots of the second index an identifier is never found: a trunk
    gets the last one again, whoever has it. *)
Theorem identifier_given_again n s :
  ids_state s -> npd_netif_type_get n <> NPD_NETIF_ETH_TYPE -> ks_cap (aggs (lacp s)) <= last_id s -> last_id s <> 0 ->
  dot3ad_initialize_agg n s = Some (Aggregator n (last_id s) 0 0 null_mac_addr 0 0 0 0, s).
Proof.
  intros Hs Ht Hcap H0. unfold dot3ad_initialize_agg. destruct (Z.eqb_spec NPD_NETIF_ETH_TYPE (npd_netif_type_get n)) as [He|_]; [by rewrite He in Ht|].
  unfold npd_aggregator_get_max_id, get_ids, get_last_id, mbind, SM_bind, mret, SM_ret. rewrite no_slot_not_found by done.
  destruct (Z.eqb_spec (last_id s) 0); [done|]. done.
Qed.

(** *** A port taken for a trunk *)

(** The walk passes over the port's own aggregator. *)
Definition not_own (own_id : Z) (g : aggregator) : bool := negb (aggregator_identifier g =? own_id).

Lemma scan_skips own_id key c gs s : scan_aggs own_id key c gs s = scan_aggs own_id key c (List.filter (not_own own_id) gs) s.
Proof.
  revert c s. induction gs as [|g gs IH]; intros c s; [done|]. cbn [List.filter]. unfold not_own at 1.
  destruct (aggregator_identifier g =? own_id) eqn:E; cbn [negb scan_aggs].
  - rewrite (run_bind _ _ s (inl c) s); [apply IH|]. unfold scan_agg. by rewrite E.
  - unfold mbind, SM_bind. destruct (scan_agg own_id key c g s) as [[[c'|r] s']|]; [apply IH|done|done].
Qed.

(** An aggregator of a trunk, and after it the one of a port that could be
    bound: the trunk is found, but its index is lost to the port's. *)
Lemma scan_mixes own_id key i t e q s w :
  holds (lacp s) w -> aggregator_identifier t <> own_id -> aggregator_identifier e <> own_id ->
  suitable key i t = true -> suitable key i e = true ->
  npd_netif_type_get (agg_netif_index t) = NPD_NETIF_TRUNK_TYPE -> npd_netif_type_get (agg_netif_index e) = NPD_NETIF_ETH_TYPE ->
  0 < num_of_ports t -> port_at w (agg_netif_index e) = Some q ->
  on (sm_vars (sm q)) AD_PORT_SELECTED = true -> on (info_port_state (partner_oper (partner q))) AD_STATE_SYNCHRONIZATION = true ->
  scan_aggs own_id key (Scan 0 0 false false i) [t; e] s =
    Some (inl (Scan (num_of_ports t) (agg_netif_index e) true true (partner_oper (partner q))), s).
Proof.
  intros Hs It Ie St Se Tt Te Hn Hq Hsel Hsync. apply Z.eqb_neq in It, Ie. apply Z.ltb_lt in Hn. cbn [scan_aggs].
  rewrite (run_bind _ _ s (inl (Scan (num_of_ports t) (agg_netif_index t) true false i)) s).
  2: { unfold scan_agg. cbn [compared best_num]. rewrite It, St, Tt. cbn [negb]. rewrite Hn. done. }
  rewrite (run_bind _ _ s (inl (Scan (num_of_ports t) (agg_netif_index e) true true (partner_oper (partner q)))) s); [done|].
  unfold scan_agg. rewrite Ie. cbn [compared]. rewrite Se, Te. change (NPD_NETIF_TRUNK_TYPE =? NPD_NETIF_ETH_TYPE) with false.
  change (NPD_NETIF_ETH_TYPE =? NPD_NETIF_ETH_TYPE) with true. cbn [negb].
  unfold mbind, SM_bind, get_sm, get_partner. rewrite (holds_sm _ _ Hs), Hq. cbn [fmap option_fmap option_map].
  rewrite (holds_partner _ _ Hs), Hq. cbn [fmap option_fmap option_map]. by rewrite Hsel, Hsync.
Qed.

(** A trunk that is not there: the port's aggregator is gone all the same. *)
Lemma join_missing env trunk n p o s w :
  holds (lacp s) w -> port_at w n = Some p -> agg_at w n = Some o -> npd_find_trunk (world s) (npd_netif_trunk_get_tid trunk) = None ->
  exists s' w', dynamic_aggregator_join env trunk n s = Some (-1, s') /\ holds (lacp s') w' /\ agg_at w' n = None /\ port_at w' n = Some p.
Proof.
  intros Hs Hn Ho Ht. unfold dynamic_aggregator_join, mbind, SM_bind, get_actor, get_partner, get_agg, get_world.
  rewrite (holds_actor _ _ Hs), (holds_partner _ _ Hs), Hn. cbn [fmap option_fmap option_map].
  rewrite (holds_agg _ _ Hs), Ho. cbn [delete_own].
  unfold on_tables, npd_lacp_aggregator_delete.
  destruct (delete_at agg_netif_index agg_key (fun _ => eq_refl) agg_same (aggs (lacp s)) n) as (tg & -> & Kg & Lg).
  { apply (ok_aggs _ (holds_ok _ _ Hs)). }
  { fold (find_agg (lacp s) n). rewrite (holds_agg _ _ Hs), Ho. by eexists. }
  cbn [mbind option_bind negb Z.eqb world]. rewrite Ht. eexists _, _. split; [done|]. split; [by apply holds_aggs; [exact Hs|]|].
  cbn [agg_at port_at]. rewrite Lg, Z.eqb_refl. done.
Qed.

(** a port can be taken for a trunk, and be lost. A port whose partner is in
    step, in no trunk, finds a trunk that suits it and after it the
    aggregator of another port that suits it too: the choice then joins the
    trunk that has the number in the other port's index. Where there is no
    such trunk the choice fails, and the port is left with neither an
    aggregator nor a trunk: [dot3ad_state_machine_handler], which walks
    aggregators and the ports of trunks, gives it no turn any more. *)
Theorem port_taken_for_trunk env n p o t e q s w :
  holds (lacp s) w -> port_at w n = Some p -> agg_at w n = Some o -> port_at w (agg_netif_index e) = Some q ->
  on (sm_vars (sm p)) AD_PORT_LACP_ENABLED = true -> aggregator_mode o = DYNAMIC_MODE ->
  on (actor_oper_port_state (actor p)) AD_STATE_DEFAULTED = false ->
  on (actor_oper_port_state (actor p)) AD_STATE_SYNCHRONIZATION = true ->
  npd_netif_type_get (trunk_netif_index (actor p)) <> NPD_NETIF_TRUNK_TYPE ->
  on (info_port_state (partner_oper (partner p))) AD_STATE_SYNCHRONIZATION = true ->
  List.filter (not_own (aggregator_identifier o)) (ks_entries (aggs (lacp s))) = [t; e] ->
  suitable (actor_oper_port_key (actor p)) (partner_oper (partner p)) t = true ->
  suitable (actor_oper_port_key (actor p)) (partner_oper (partner p)) e = true ->
  npd_netif_type_get (agg_netif_index t) = NPD_NETIF_TRUNK_TYPE -> npd_netif_type_get (agg_netif_index e) = NPD_NETIF_ETH_TYPE ->
  0 < num_of_ports t ->
  on (sm_vars (sm q)) AD_PORT_SELECTED = true -> on (info_port_state (partner_oper (partner q))) AD_STATE_SYNCHRONIZATION = true ->
  npd_find_trunk (world s) (npd_netif_trunk_get_tid (agg_netif_index e)) = None ->
  exists s' w', dot3ad_port_selection_logic env n s = Some (-1, s') /\ holds (lacp s') w' /\ agg_at w' n = None /\ port_at w' n = Some p.
Proof.
  intros Hs Hn Ho Hq Hen Hm Hd Hsy Ht Hps Hgs St Se Tt Te Hnum Hsel Hsync Hft.
  assert (forall g, g ∈ [t; e] -> aggregator_identifier g <> aggregator_identifier o) as Hid.
  { intros g Hg. rewrite <- Hgs, list_elem_of_In, filter_In in Hg. destruct Hg as [_ Hg]. unfold not_own in Hg.
    by apply negb_true_iff, Z.eqb_neq in Hg. }
  unfold dot3ad_port_selection_logic, mbind at 1 2 3 4, SM_bind at 1 2 3 4, get_sm, get_actor, get_partner, get_agg.
  rewrite (holds_sm _ _ Hs), Hn. cbn [fmap option_fmap option_map]. rewrite Hen. cbn [negb].
  rewrite (holds_actor _ _ Hs), (holds_partner _ _ Hs), Hn. cbn [fmap option_fmap option_map].
  rewrite (holds_agg _ _ Hs), Ho. cbn [from_option]. rewrite Hm, Hsy, Hd. change (DYNAMIC_MODE =? DYNAMIC_MODE) with true.
  cbn [negb]. rewrite andb_false_r. erewrite run_bind by done. cbv zeta.
  apply Z.eqb_neq in Ht. rewrite Z.eqb_sym, Ht. unfold choose. cbn [negb andb]. unfold find_aggregator. rewrite Hps. cbv zeta.
  erewrite run_bind by done. erewrite run_bind.
  2: { rewrite scan_skips, Hgs. eapply scan_mixes; [exact Hs|apply Hid; by left|apply Hid; right; by left|done..]. }
  cbn [join_agg best_index]. by eapply join_missing.
Qed.

End choice.

(** ** Witnesses *)

#[local] Existing Instances pair_actors pair_partners pair_sms pair_aggs pair_ids pair_stores demo_trunks.
#[local] Instance pair_id_laws : AggregatorIdLaws (db_table_t aggregator) := aggregator_id_laws memory_short demo_board.

(** Two ports make a trunk, between the start of a third and of a fourth port;
    these are chosen alone, and then their partner comes in step. *)
Definition late_turn : list daemon_call := [DHandle (agg_key demo_third_port); DHandle (agg_key demo_fourth_port)].
Definition late_packets : list daemon_call :=
  [DPacket demo_third_port 0 (pair_pdu 5 demo_third_port) 124; DPacket demo_fourth_port 0 (pair_pdu 6 demo_fourth_port) 124].
Definition late_calls : list daemon_call :=
  [DEnable demo_third_port] ++ pair_calls ++ [DEnable demo_fourth_port] ++ late_turn ++ late_turn ++ late_turn ++ late_packets ++ late_turn ++ late_packets.

(** What is seen of the third and fourth port, and of the aggregators. *)
Definition late_seen (s : pair_state) :=
  ((find_actor (lacp s) demo_third_port, find_partner (lacp s) demo_third_port, find_sm (lacp s) demo_third_port, find_agg (lacp s) demo_third_port),
   (find_partner (lacp s) demo_fourth_port, find_sm (lacp s) demo_fourth_port),
   from_option (fun o => List.filter (not_own (aggregator_identifier o)) (ks_entries (aggs (lacp s)))) [] (find_agg (lacp s) demo_third_port),
   npd_find_trunk (world s) (npd_netif_trunk_get_tid demo_fourth_port)).

Definition late_check (a : lacpport_actor) (x : lacpport_partner) (m : lacpport_sm) (o : aggregator) (y : lacpport_partner) (k : lacpport_sm)
    (t e : aggregator) : bool :=
  on (sm_vars m) AD_PORT_LACP_ENABLED && (aggregator_mode o =? DYNAMIC_MODE) && negb (on (actor_oper_port_state a) AD_STATE_DEFAULTED)
  && on (actor_oper_port_state a) AD_STATE_SYNCHRONIZATION && negb (npd_netif_type_get (trunk_netif_index a) =? NPD_NETIF_TRUNK_TYPE)
  && on (info_port_state (partner_oper x)) AD_STATE_SYNCHRONIZATION
  && suitable (actor_oper_port_key a) (partner_oper x) t && suitable (actor_oper_port_key a) (partner_oper x) e
  && (npd_netif_type_get (agg_netif_index t) =? NPD_NETIF_TRUNK_TYPE) && (npd_netif_type_get (agg_netif_index e) =? NPD_NETIF_ETH_TYPE)
  && (0 <? num_of_ports t) && on (sm_vars k) AD_PORT_SELECTED && on (info_port_state (partner_oper y)) AD_STATE_SYNCHRONIZATION
  && (agg_netif_index e =? demo_fourth_port).

Lemma late_facts : exists heard s a x m o y k t e, pair_run late_calls (fun _ => []) pair_start = Some (heard, s) /\
  late_seen s = ((Some a, Some x, Some m, Some o), (Some y, Some k), [t; e], None) /\ late_check a x m o y k t e = true.
Proof.
  assert (exists a x m o y k t e, from_option (fun r => Some (late_seen r.2)) None (pair_run late_calls (fun _ => []) pair_start) =
    Some ((Some a, Some x, Some m, Some o), (Some y, Some k), [t; e], None) /\ late_check a x m o y k t e = true)
    as (a & x & m & o & y & k & t & e & E & H).
  { eexists _, _, _, _, _, _, _, _. split; [vm_compute; reflexivity|vm_compute; reflexivity]. }
  destruct (pair_run late_calls (fun _ => []) pair_start) as [[heard s]|]; [|discriminate E].
  exists heard, s, a, x, m, o, y, k, t, e. cbn [from_option snd] in E. apply (inj Some) in E. done.
Qed.

Lemma port_taken_for_trunk_witness :
  exists heard s s' w', daemon_run true heard s /\ dot3ad_port_selection_logic pair_env demo_third_port s = Some (-1, s') /\
    holds (lacp s') w' /\ agg_at w' demo_third_port = None.
Proof.
  destruct late_facts as (heard & s & a & x & m & o & y & k & t & e & E & Hv & Hc).
  pose proof (pair_run_ok _ _ _ _ _ pair_started E) as Hr. clear E. destruct (daemon_inv true heard s Hr) as (w & Hs & _).
  unfold late_seen in Hv. rewrite (holds_actor _ _ Hs), (holds_agg _ _ Hs), !(holds_partner _ _ Hs), !(holds_sm _ _ Hs) in Hv.
  destruct (port_at w demo_third_port) as [p|] eqn:Hp; [|discriminate Hv]. destruct (port_at w demo_fourth_port) as [q|] eqn:Hq; [|discriminate Hv].
  cbn [fmap option_fmap option_map] in Hv. injection Hv as Ea Ex Em Eo Ey Ek Eg Et. rewrite Eo in Eg. cbn [from_option] in Eg.
  unfold late_check in Hc. subst a x m y k. repeat (apply andb_true_iff in Hc as [Hc ?]).
  repeat match goal with H : _ && _ = true |- _ => apply andb_true_iff in H as [? ?] | H : negb _ = true |- _ => apply negb_true_iff in H
    | H : (_ =? _) = true |- _ => apply Z.eqb_eq in H | H : (_ =? _) = false |- _ => apply Z.eqb_neq in H | H : (_ <? _) = true |- _ => apply Z.ltb_lt in H end.
  destruct (port_taken_for_trunk pair_env demo_third_port p o t e q s w) as (s' & w' & G1 & G2 & G3 & _); try assumption.
  - match goal with H : agg_netif_index e = _ |- _ => rewrite H end. exact Hq.
  - match goal with H : agg_netif_index e = _ |- _ => rewrite H end. exact Et.
  - exists heard, s, s', w'. split_and!; assumption.
Defined.

Lemma pair_start_ids : ids_state pair_start.
Proof.
  split.
  - apply (ok_aggs _ (holds_ok _ _ (init_holds memory_short demo_board))).
  - exact (init_filed memory_short demo_board).
  - intros g Hg. exfalso. revert Hg. assert (ks_entries (aggs (lacp pair_start)) = []) as -> by (vm_compute; reflexivity). by rewrite elem_of_nil.
Qed.

Lemma identifiers_fresh_witness :
  exists g s', dot3ad_initialize_agg demo_lacp_port pair_start = Some (g, s') /\ aggregator_identifier g = 1 /\
    exists r s2, insert_agg g s' = Some (r, s2) /\ ids_state s2.
Proof.
  destruct (identifiers_fresh demo_lacp_port pair_start) as (g & s' & E & (_ & _ & _ & _ & H1 & H2 & _) & H).
  - exact pair_start_ids.
  - vm_compute. intuition discriminate.
  - vm_compute. reflexivity.
  - exists g, s'. split; [exact E|]. split; [change (last_id pair_start) with 0 in H2; lia|]. apply H. reflexivity.
Defined.

(** After as many identifiers as the smallest board has slots, two trunks get
    the same one. *)
Definition late_ids : pair_state := SelState (lacp pair_start) (world pair_start) 64.
Definition two_trunks : option (Z * Z) :=
  match npd_lacp_aggregator_init (npd_netif_trunk_index 1) DYNAMIC_MODE late_ids with
  | Some (_, s) =>
      match npd_lacp_aggregator_init (npd_netif_trunk_index 2) DYNAMIC_MODE s with
      | Some (_, s) =>
          g ← find_agg (lacp s) (npd_netif_trunk_index 1); h ← find_agg (lacp s) (npd_netif_trunk_index 2);
          Some (aggregator_identifier g, aggregator_identifier h)
      | None => None
      end
  | None => None
  end.
Lemma identifier_given_again_witness :
  dot3ad_initialize_agg (npd_netif_trunk_index 1) late_ids = Some (Aggregator (npd_netif_trunk_index 1) 64 0 0 null_mac_addr 0 0 0 0, late_ids) /\
  two_trunks = Some (64, 64).
Proof.
  split; [|vm_compute; reflexivity]. apply (identifier_given_again (npd_netif_trunk_index 1) late_ids).
  - destruct pair_start_ids as [H1 H2 H3]. split; [exact H1|exact H2|]. intros g Hg. specialize (H3 g Hg). change (last_id late_ids) with 64.
    change (last_id pair_start) with 0 in H3. lia.
  - vm_compute. discriminate.
  - vm_compute. discriminate.
  - vm_compute. discriminate.
Defined.
