(* ===== verification/NpdTrunk.v ===== *)
(** * npd: trunks and their ports

    Model of the table of trunks of [src/src/npdsuit/npd/src/app/npd_trunk.c]:
    its searches, the creation and removal of trunks, ports that enter and
    leave, the choice of a trunk's master port and the link state of a trunk,
    with the part of [npd_eth_port.c] that keeps the ports' own records.
    Ports of a trunk are the bit arrays of [Bitarray]; the tables are
    [KeyStore]s.  What the callbacks of the table tell the chip, and what
    other modules do at the events, is not modelled. *)

From Stdlib Require Import ZArith Lia Bool Ascii String.
From stdpp Require Import base decidable list gmap.
From S2P Require Import Prelude Bitarray Cstring NetifIndex Database Chains DatabaseHash DatabaseSeq KeyStore.

Open Scope Z_scope.

Definition TRUNK_RETURN_CODE_ERR_NONE : Z := 0.
Definition TRUNK_RETURN_CODE_ERR_GENERAL : Z := 0x100001.
Definition TRUNK_RETURN_CODE_BADPARAM : Z := 0x100002.
Definition TRUNK_RETURN_CODE_TRUNK_EXISTS : Z := 0x100003.
Definition TRUNK_RETURN_CODE_TRUNK_NOTEXISTS : Z := 0x100004.
Definition TRUNK_RETURN_CODE_PORT_EXISTS : Z := 0x100006.
Definition TRUNK_RETURN_CODE_PORT_NOTEXISTS : Z := 0x100007.
Definition TRUNK_RETURN_CODE_NAME_CONFLICT : Z := 0x100008.
Definition TRUNK_RETURN_CODE_MEMBERSHIP_CONFICT : Z := 0x100009.
Definition TRUNK_RETURN_CODE_UNSUPPORT : Z := 0x100019.
Definition TRUNK_RETURN_CODE_PORT_L3_INTFG : Z := 0x10001A.
Definition TRUNK_RETURN_CODE_PORT_MBRS_FULL : Z := 0x10001B.

Definition NPD_FAIL : Z := -1.
Definition NPD_FALSE : Z := 0.
Definition NPD_TRUE : Z := 1.
Definition TRUNK_STATE_DOWN_E : Z := 0.
Definition TRUNK_STATE_UP_E : Z := 1.
Definition PORT_SWITCH_PORT : Z := 0.
Definition PORT_IP_INTF : Z := 1.
Definition MANUAL_MODE : Z := 0.
Definition MAX_PORT_PER_TRUNK : Z := 8.
Definition ETH_ATTR_LINKUP : Z := 1.
Definition ETH_ATTR_LINKDOWN : Z := 0.
Definition ETH_ATTR_DUPLEX_FULL : Z := 0.
Definition ETH_ATTR_LINK_STATUS : Z := 0x2.
Definition ETH_LINK_STATUS_BIT : Z := 1.
Definition ETH_ATTR_DUPLEX : Z := 0x8.
Definition ETH_ATTR_SPEED_MASK : Z := 0xF000.
Definition ETH_SPEED_BIT : Z := 0xC.
Definition ETH_ADMIN_STATUS_BIT : Z := 0x0.
Definition ETH_AUTONEG_BIT : Z := 0x2.
Definition ETH_DUPLEX_BIT : Z := 0x3.
Definition ETH_FLOWCTRL_BIT : Z := 0x4.
Definition ETH_BACKPRESSURE_BIT : Z := 0x5.
Definition ETH_PREFERRED_COPPER_MEDIA_BIT : Z := 0x1c.

Record trunk_s := Trunk {
  trunk_id : Z;
  name : cstr;
  g_index : Z;
  mtu : Z;
  linkstate : Z;
  ports : list Z;
  master_port_index : Z;
  switch_port_index : Z;
  load_balance_mode : Z;
  forward_mode : Z;
  aggregator_mode : Z
}.

(** What trunks use of a port's record. *)
Record eth_port_s := EthPort {
  eth_port_ifindex : Z;
  attr_bitmap : Z;
  eth_switch_port_index : Z;
  trunkid : Z;
  eth_forward_mode : Z
}.

Inductive port_event :=
  | PORT_NOTIFIER_LINKUP_E | PORT_NOTIFIER_LINKDOWN_E | PORT_NOTIFIER_CREATE | PORT_NOTIFIER_INSERT | PORT_NOTIFIER_REMOVE
  | PORT_NOTIFIER_DELETE | PORT_NOTIFIER_L2CREATE | PORT_NOTIFIER_L2DELETE.
Inductive relate_event := PORT_NOTIFIER_JOIN | PORT_NOTIFIER_LEAVE.

(** What the modules of npd are told, in order. *)
Inductive notification :=
  | Notify (netif_index : Z) (event : port_event)
  | NotifyRelate (father son : Z) (event : relate_event).

(** The defaults of a port of some type, as far as they are in its bitmap. *)
Record NPD_ETHPORT_ATTRIBUTE_S := PortDefaults {
  admin_state : Z; speed : Z; autoNego : Z; duplex : Z; fc : Z; bp : Z; mediaPrefer : Z
}.

(** How ports are numbered, and how many trunks there can be. *)
Record port_numbers := PortNumbers {
  eth_port_array_index_from_ifindex : Z -> Z;
  eth_port_array_index_to_ifindex : Z -> Z;
  netif_array_index_to_ifindex : Z -> Z;
  netif_array_index_from_ifindex : Z -> Z;
  eth_slot : Z -> Z;
  NPD_TRUNK_NUMBER_MAX : Z;
  pbmp_words : nat
}.

(** What the rest of npd says when an operation runs: the boards and their
    types, how new trunks balance their load, the switch port that is made for
    an interface, what lies on the stack where a pointer is taken for a record,
    the bit that is read half a gigabyte beyond an array, if there is memory,
    the defaults of a port, whether npd has started, and what the chip says of
    a link. *)
Record trunk_around := TrunkAround {
  MODULE_TYPE_ON_SLOT_INDEX : Z -> Z;
  SYS_MODULE_SDK_DIFFERENT : Z -> Z -> bool;
  SYS_MODULE_SUPPORT_CROSSBOARD_TRUNK : Z -> bool;
  g_loadBalanc : Z;
  new_switch_port : Z -> Z;
  stray_pointer : Z;
  beyond_array : option bool;
  ethport_attr_default : Z -> NPD_ETHPORT_ATTRIBUTE_S;
  npd_startup_end : bool;
  npd_get_port_link_status : Z -> option bool
}.
Record trunk_env := TrunkEnv { numbers :> port_numbers; around :> trunk_around }.

Record trunk_state (TT TE : Type) := TrunkState { g_trunks : TT; g_eth_ports : TE; notified : list notification }.
Arguments TrunkState {TT TE}.
Arguments g_trunks {TT TE}.
Arguments g_eth_ports {TT TE}.
Arguments notified {TT TE}.

(** Computations on the tables; [None] is a crash. *)
Definition TM (TT TE A : Type) : Type := trunk_state TT TE -> option (A * trunk_state TT TE).
#[export] Instance TM_ret {TT TE} : MRet (TM TT TE) := fun A a s => Some (a, s).
#[export] Instance TM_bind {TT TE} : MBind (TM TT TE) := fun A B f m s =>
  match m s with Some (a, s) => f a s | None => None end.

(** Keys, and assignments. *)
Definition trunk_key (id : Z) : trunk_s := Trunk id [] 0 0 0 [] 0 0 0 0 0.
Definition eth_port_key (n : Z) : eth_port_s := EthPort n 0 0 0 0.
Definition trunk_cmp (x y : trunk_s) : bool := trunk_id x =? trunk_id y.
Definition npd_port_cmp (x y : eth_port_s) : bool := eth_port_ifindex x =? eth_port_ifindex y.

Definition with_linkstate (t : trunk_s) (x : Z) : trunk_s :=
  Trunk (trunk_id t) (name t) (g_index t) (mtu t) x (ports t) (master_port_index t) (switch_port_index t) (load_balance_mode t)
    (forward_mode t) (aggregator_mode t).
Definition with_members (t : trunk_s) (x : list Z) : trunk_s :=
  Trunk (trunk_id t) (name t) (g_index t) (mtu t) (linkstate t) x (master_port_index t) (switch_port_index t) (load_balance_mode t)
    (forward_mode t) (aggregator_mode t).
Definition with_master_port (t : trunk_s) (x : Z) : trunk_s :=
  Trunk (trunk_id t) (name t) (g_index t) (mtu t) (linkstate t) (ports t) x (switch_port_index t) (load_balance_mode t)
    (forward_mode t) (aggregator_mode t).
Definition with_balance (t : trunk_s) (x : Z) : trunk_s :=
  Trunk (trunk_id t) (name t) (g_index t) (mtu t) (linkstate t) (ports t) (master_port_index t) (switch_port_index t) x
    (forward_mode t) (aggregator_mode t).
Definition with_switch_port (t : trunk_s) (x : Z) : trunk_s :=
  Trunk (trunk_id t) (name t) (g_index t) (mtu t) (linkstate t) (ports t) (master_port_index t) x (load_balance_mode t)
    (forward_mode t) (aggregator_mode t).
Definition with_trunkid (p : eth_port_s) (switch_port id : Z) : eth_port_s :=
  EthPort (eth_port_ifindex p) (attr_bitmap p) switch_port id (eth_forward_mode p).
Definition with_attr (p : eth_port_s) (x : Z) : eth_port_s :=
  EthPort (eth_port_ifindex p) x (eth_switch_port_index p) (trunkid p) (eth_forward_mode p).

Section trunks.
Context {TT TE : Type} `{!KeyStore TT trunk_s, !KeyStore TE eth_port_s}.
Context (env : trunk_env).
Abbreviation M := (TM TT TE).

(** *** Access to the tables *)

Definition crash {A} : M A := fun _ => None.
Definition lift {A} (x : option A) : M A := match x with Some a => mret a | None => crash end.
Definition npd_find_trunk (id : Z) : M (option trunk_s) := fun s => Some (ks_search (g_trunks s) (trunk_key (u16 id)), s).
Definition find_port (n : Z) : M (option eth_port_s) := fun s => Some (ks_search (g_eth_ports s) (eth_port_key n), s).

Definition on_trunk_table (f : TT -> option (Z * TT)) : M Z := fun s =>
  match f (g_trunks s) with Some (r, t) => Some (r, TrunkState t (g_eth_ports s) (notified s)) | None => None end.
Definition on_port_table (f : TE -> option (Z * TE)) : M Z := fun s =>
  match f (g_eth_ports s) with Some (r, t) => Some (r, TrunkState (g_trunks s) t (notified s)) | None => None end.
Definition update_trunk (t : trunk_s) : M Z := on_trunk_table (fun tt => ks_update tt t).
Definition update_port (p : eth_port_s) : M Z := on_port_table (fun te => ks_update te p).
Definition tell (x : notification) : M unit := fun s => Some (tt, TrunkState (g_trunks s) (g_eth_ports s) (notified s ++ [x])).

(** The members of an array, as [NPD_PBMP_ITER] visits them, and a test.  What
    is no port has the number -1, which is a bit far beyond the array. *)
Definition iter_ports (ps : list Z) : M (list Z) := lift (npd_for_each_bit ps (32 * zlen ps)).
Definition member (ps : list Z) (n : Z) : M bool :=
  if eth_port_array_index_from_ifindex env n <? 0 then lift (beyond_array env)
  else r ← lift (npd_bitarray_test_bit ps (eth_port_array_index_from_ifindex env n)); mret (negb (r =? 0)).

(** *** Searches *)

Definition npd_check_trunk_exist (id : Z) : M Z :=
  if (id =? 0) || (NPD_TRUNK_NUMBER_MAX env <=? id) then mret TRUNK_RETURN_CODE_BADPARAM else
  t ← npd_find_trunk id;
  mret (match t with None => TRUNK_RETURN_CODE_TRUNK_NOTEXISTS | Some _ => TRUNK_RETURN_CODE_TRUNK_EXISTS end).

(** The first of some numbers whose trunk has the name. *)
Fixpoint named (nm : cstr) (ids : list Z) : M (option trunk_s) :=
  match ids with
  | [] => mret None
  | iter :: ids =>
      t ← npd_find_trunk iter;
      match t with
      | None => named nm ids
      | Some t => if bool_decide (nm = name t) then mret (Some t) else named nm ids
      end
  end.
Definition npd_find_trunk_by_name (nm : cstr) : M (option trunk_s) := named nm (seqZ 0 (NPD_TRUNK_NUMBER_MAX env)).

Definition npd_check_trunk_status (id : Z) : M Z :=
  if (id =? 0) || (NPD_TRUNK_NUMBER_MAX env <=? id) then mret TRUNK_RETURN_CODE_BADPARAM else
  t ← npd_find_trunk id;
  mret (match t with
        | None => TRUNK_RETURN_CODE_TRUNK_NOTEXISTS
        | Some t => if TRUNK_STATE_UP_E =? linkstate t then TRUNK_STATE_UP_E else TRUNK_STATE_DOWN_E
        end).

Definition npd_check_trunk_member_exist (id : Z) : M Z :=
  if (id =? 0) || (NPD_TRUNK_NUMBER_MAX env <=? id) then mret TRUNK_RETURN_CODE_BADPARAM else
  t ← npd_find_trunk id;
  match t with
  | None => mret TRUNK_RETURN_CODE_TRUNK_NOTEXISTS
  | Some t =>
      r ← lift (npd_bitarray_empty (ports t) (32 * zlen (ports t)));
      mret (if negb (r =? 0) then TRUNK_RETURN_CODE_PORT_NOTEXISTS else TRUNK_RETURN_CODE_PORT_EXISTS)
  end.

(** The number is left in the variable as an [unsigned short]. *)
Definition npd_eth_port_get_ptrunkid (n : Z) : M (Z * option Z) :=
  p ← find_port n;
  mret (match p with
        | None => (-1, None)
        | Some p => if trunkid p =? -1 then (-1, Some (u16 (-1))) else (0, Some (u16 (trunkid p)))
        end).

Definition npd_trunk_check_port_membership (id n : Z) : M bool :=
  t ← npd_find_trunk id;
  match t with None => mret false | Some t => member (ports t) n end.

Definition npd_trunk_member_port_index_get_all (id : Z) : M (Z * list Z) :=
  t ← npd_find_trunk id;
  match t with
  | None => mret (NPD_FALSE, [])
  | Some t =>
      ms ← iter_ports (ports t);
      mret (if 0 <? zlen ms then NPD_TRUE else 0, eth_port_array_index_to_ifindex env <$> ms)
  end.

Definition npd_trunk_master_port_get (id : Z) : M (option Z) :=
  t ← npd_find_trunk id;
  mret (match t with Some t => if master_port_index t =? 0 then None else Some (master_port_index t) | None => None end).

Definition npd_trunk_status_get (id : Z) : M (option Z) := t ← npd_find_trunk id; mret (linkstate <$> t).

(** [npd_check_eth_port_status], and [eth_port_sw_attr_bitmap_get]. *)
Definition npd_check_eth_port_status (n : Z) : M Z :=
  p ← find_port n;
  mret (match p with
        | Some p => if negb (Z.land (attr_bitmap p) ETH_ATTR_LINK_STATUS =? 0) then ETH_ATTR_LINKUP else ETH_ATTR_LINKDOWN
        | None => NPD_FAIL
        end).
Definition eth_port_sw_attr_bitmap_get (n : Z) : M Z := p ← find_port n; mret (from_option attr_bitmap 0 p).

(** *** The master port *)

Definition npd_trunk_master_port_config (id n : Z) : M bool :=
  t ← npd_find_trunk id;
  match t with
  | None => mret false
  | Some t =>
      m ← member (ports t) n;
      if negb m then mret false else (update_trunk (with_master_port t n);; mret true)
  end.

(** A port with link comes before one without, full duplex before half, then
    the speeds in the order of their numbers, then the lower port. *)
Definition speed_priority (speed : Z) : Z :=
  if (0 <=? speed) && (speed <=? 8) then Z.shiftl (speed + 1) 15 else 0.
Definition check_priority (attr array_port : Z) : Z :=
  let link := Z.shiftr (Z.land attr ETH_ATTR_LINK_STATUS) ETH_LINK_STATUS_BIT in
  let prio := if link =? ETH_ATTR_LINKUP then Z.shiftl 1 30 else 0 in
  let prio := if Z.land attr ETH_ATTR_DUPLEX =? ETH_ATTR_DUPLEX_FULL then Z.lor prio (Z.shiftl 1 29) else prio in
  let prio := Z.lor prio (speed_priority (Z.shiftr (Z.land attr ETH_ATTR_SPEED_MASK) ETH_SPEED_BIT)) in
  prio + (4096 - array_port).

(** The best member: its priority and its interface. *)
Fixpoint best_port (members : list Z) (prio master : Z) : M Z :=
  match members with
  | [] => mret master
  | port :: members =>
      let n := eth_port_array_index_to_ifindex env port in
      attr ← eth_port_sw_attr_bitmap_get n;
      let current := check_priority attr (eth_port_array_index_from_ifindex env n) in
      if prio <? current then best_port members current n else best_port members prio master
  end.

Definition npd_trunk_master_check (id : Z) : M Z :=
  t ← npd_find_trunk id;
  match t with
  | None => mret (-1)
  | Some t =>
      ms ← iter_ports (ports t);
      master ← best_port ms 0 0;
      if master_port_index t =? master then mret 0 else
      ok ← npd_trunk_master_port_config id master;
      mret (if (ok : bool) then TRUNK_RETURN_CODE_ERR_NONE else TRUNK_RETURN_CODE_TRUNK_NOTEXISTS)
  end.

(** *** Events of ports and of their trunk *)

(** Another member has link. *)
Fixpoint other_up (members : list Z) (n : Z) : M bool :=
  match members with
  | [] => mret false
  | port :: members =>
      let m := eth_port_array_index_to_ifindex env port in
      if m =? n then other_up members n else
      flag ← npd_check_eth_port_status m;
      if flag =? ETH_ATTR_LINKUP then mret true else other_up members n
  end.

Definition npd_trunk_handle_port_relate_event (trunk_index n : Z) (event : relate_event) : M unit :=
  if negb (NPD_NETIF_TRUNK_TYPE =? npd_netif_type_get trunk_index) || negb (NPD_NETIF_ETH_TYPE =? npd_netif_type_get n) then mret tt else
  p ← find_port n;
  match p with
  | None => mret tt
  | Some _ =>
      let id := npd_netif_trunk_get_tid trunk_index in
      t ← npd_find_trunk id;
      match t with
      | None => mret tt
      | Some t0 =>
          npd_trunk_master_check id;;
          t ← npd_find_trunk id;
          let t := default t0 t in
          match event with
          | PORT_NOTIFIER_JOIN =>
              if TRUNK_STATE_DOWN_E =? linkstate t then
                flag ← npd_check_eth_port_status n;
                if flag =? ETH_ATTR_LINKUP
                then update_trunk (with_linkstate t TRUNK_STATE_UP_E);; tell (Notify (g_index t) PORT_NOTIFIER_LINKUP_E)
                else mret tt
              else mret tt
          | PORT_NOTIFIER_LEAVE =>
              if TRUNK_STATE_UP_E =? linkstate t then
                ms ← iter_ports (ports t);
                up ← other_up ms n;
                if (up : bool) then mret tt
                else update_trunk (with_linkstate t TRUNK_STATE_DOWN_E);; tell (Notify (g_index t) PORT_NOTIFIER_LINKDOWN_E)
              else mret tt
          end
      end
  end.

(** Events of a relation reach the modules at once, this one included. *)
Definition netif_notify_relate_event (father son : Z) (event : relate_event) : M unit :=
  tell (NotifyRelate father son event);; npd_trunk_handle_port_relate_event father son event.

(** [npd_create_switch_port] and [npd_delete_switch_port] belong to another
    module; only the number that is given out is used. *)
Definition npd_trunk_port_del (trunkId n : Z) : M Z :=
  p ← find_port n;
  match p with
  | None => mret TRUNK_RETURN_CODE_PORT_NOTEXISTS
  | Some p =>
      t ← npd_find_trunk trunkId;
      match t with
      | None => mret TRUNK_RETURN_CODE_TRUNK_NOTEXISTS
      | Some t =>
          m ← member (ports t) n;
          if negb m then mret TRUNK_RETURN_CODE_PORT_NOTEXISTS else
          ps ← lift (npd_bitarray_clear_bit (ports t) (eth_port_array_index_from_ifindex env n));
          update_trunk (with_members t ps);;
          netif_notify_relate_event (npd_netif_trunk_index (u16 trunkId)) n PORT_NOTIFIER_LEAVE;;
          (* [&eth_port] is searched for: a match would overwrite the stack *)
          if stray_pointer env =? n then crash else
          update_port (with_trunkid p (new_switch_port env n) (-1));;
          tell (Notify n PORT_NOTIFIER_L2CREATE);;
          mret TRUNK_RETURN_CODE_ERR_NONE
      end
  end.

Definition npd_trunk_handle_port_event (n : Z) (event : port_event) : M unit :=
  if negb (NPD_NETIF_ETH_TYPE =? npd_netif_type_get n) then mret tt else
  p ← find_port n;
  match p with
  | None => mret tt
  | Some p =>
      let id := u32 (trunkid p) in
      t ← npd_find_trunk id;
      match t with
      | None => mret tt
      | Some t =>
          match event with
          | PORT_NOTIFIER_DELETE => npd_trunk_port_del id n;; mret tt
          | PORT_NOTIFIER_REMOVE | PORT_NOTIFIER_LINKDOWN_E =>
              if TRUNK_STATE_UP_E =? linkstate t then
                ms ← iter_ports (ports t);
                up ← other_up ms n;
                if (up : bool) then (if master_port_index t =? n then npd_trunk_master_check id;; mret tt else mret tt)
                else
                  t' ← npd_find_trunk id;
                  let t := default t t' in
                  update_trunk (with_linkstate t TRUNK_STATE_DOWN_E);; tell (Notify (g_index t) PORT_NOTIFIER_LINKDOWN_E)
              else mret tt
          | PORT_NOTIFIER_LINKUP_E =>
              npd_trunk_master_check id;;
              t' ← npd_find_trunk id;
              let t := default t t' in
              if TRUNK_STATE_DOWN_E =? linkstate t
              then update_trunk (with_linkstate t TRUNK_STATE_UP_E);; tell (Notify (g_index t) PORT_NOTIFIER_LINKUP_E)
              else mret tt
          | _ => mret tt
          end
      end
  end.

(** *** Trunks and their ports *)

(** The boards of the members so far: their types, and the slots in use;
    [None] is an index out of the arrays. *)
Fixpoint member_boards (members : list Z) (count : Z) (board_type trunk_slot : list Z) : M (Z + list Z * list Z) :=
  match members with
  | [] => mret (inr (board_type, trunk_slot))
  | array_port :: members =>
      let slot := eth_slot env (netif_array_index_to_ifindex env array_port) in
      if MAX_PORT_PER_TRUNK - 1 <? count + 1 then mret (inl TRUNK_RETURN_CODE_PORT_MBRS_FULL) else
      board_type ← lift (wr board_type slot (MODULE_TYPE_ON_SLOT_INDEX env slot));
      trunk_slot ← lift (wr trunk_slot slot 1);
      member_boards members (count + 1) board_type trunk_slot
  end.

(** The boards do not go together in one trunk. *)
Definition boards_differ (slot : Z) (board_type trunk_slot : list Z) : bool :=
  let type := nth (Z.to_nat slot) board_type 0 in
  existsb (fun ty => negb (ty =? 0) && SYS_MODULE_SDK_DIFFERENT env type ty) board_type
  || negb (SYS_MODULE_SUPPORT_CROSSBOARD_TRUNK env type)
     && existsb (fun '(i, used) => negb (i =? slot) && negb (used =? 0)) (zip (seqZ 0 16) trunk_slot).

(** The port goes in: its record first, then the trunk's. *)
Definition port_joins (trunkId n : Z) (p0 : eth_port_s) : M Z :=
  tell (Notify n PORT_NOTIFIER_L2DELETE);;
  t ← npd_find_trunk trunkId;
  match t with
  | None => mret TRUNK_RETURN_CODE_TRUNK_NOTEXISTS
  | Some t =>
      p ← find_port n;
      let ret := match p with Some _ => 0 | None => -1 end in
      update_port (with_trunkid (default p0 p) (-1) trunkId);;
      ps ← lift (npd_bitarray_set_bit (ports t) (eth_port_array_index_from_ifindex env n));
      update_trunk (with_members t ps);;
      netif_notify_relate_event (npd_netif_trunk_get_index trunkId) n PORT_NOTIFIER_JOIN;;
      mret ret
  end.

Definition npd_trunk_port_add (trunkId n : Z) : M Z :=
  t ← npd_find_trunk trunkId;
  match t with
  | None => mret TRUNK_RETURN_CODE_TRUNK_NOTEXISTS
  | Some t =>
      p ← find_port n;
      match p with
      | None => mret TRUNK_RETURN_CODE_PORT_NOTEXISTS
      | Some p =>
          m ← member (ports t) n;
          if (m : bool) then mret TRUNK_RETURN_CODE_PORT_EXISTS
          else if negb (trunkid p =? -1) && negb (trunkid p =? trunkId) then mret TRUNK_RETURN_CODE_MEMBERSHIP_CONFICT
          else if eth_forward_mode p =? PORT_IP_INTF then mret TRUNK_RETURN_CODE_PORT_L3_INTFG else
          ms ← iter_ports (ports t);
          boards ← member_boards ms 0 (replicate 16 0) (replicate 16 0);
          match boards with
          | inl ret => mret ret
          | inr (board_type, trunk_slot) =>
              let slot := eth_slot env n in
              board_type ← lift (wr board_type slot (MODULE_TYPE_ON_SLOT_INDEX env slot));
              if boards_differ slot board_type trunk_slot then mret TRUNK_RETURN_CODE_UNSUPPORT
              else port_joins trunkId n p
          end
      end
  end.

(** A new trunk; the name is cut to the 30 characters that fit. *)
Definition new_trunk (trunkId : Z) (nm : cstr) : trunk_s :=
  Trunk trunkId (take 30 nm) (npd_netif_trunk_index trunkId) 1522 TRUNK_STATE_DOWN_E (replicate (pbmp_words env) 0) 0 0
    (g_loadBalanc env) PORT_SWITCH_PORT MANUAL_MODE.

Definition npd_trunk_activate (trunkId : Z) (nm : cstr) : M Z :=
  ret ← npd_check_trunk_exist trunkId;
  if ret =? TRUNK_RETURN_CODE_TRUNK_EXISTS then
    t ← npd_find_trunk trunkId;
    mret (match t with
          | None => TRUNK_RETURN_CODE_TRUNK_NOTEXISTS
          | Some t => if bool_decide (nm = name t) then TRUNK_RETURN_CODE_ERR_NONE else TRUNK_RETURN_CODE_TRUNK_EXISTS
          end)
  else if ret =? TRUNK_RETURN_CODE_BADPARAM then mret ret else
  t ← npd_find_trunk_by_name nm;
  match t with
  | Some _ => mret TRUNK_RETURN_CODE_NAME_CONFLICT
  | None =>
      ret ← on_trunk_table (fun tt => ks_insert tt (new_trunk trunkId nm));
      if ret =? -1 then mret TRUNK_RETURN_CODE_ERR_GENERAL else
      ret ← update_trunk (with_switch_port (new_trunk trunkId nm) (new_switch_port env (npd_netif_trunk_index trunkId)));
      if negb (ret =? 0) then mret TRUNK_RETURN_CODE_ERR_GENERAL
      else (tell (Notify (npd_netif_trunk_index trunkId) PORT_NOTIFIER_L2CREATE);; mret ret)
  end.

Definition npd_trunk_master_port_set (trunkId n : Z) : M Z :=
  ret ← npd_check_trunk_exist trunkId;
  if negb (ret =? TRUNK_RETURN_CODE_TRUNK_EXISTS) then mret TRUNK_RETURN_CODE_TRUNK_NOTEXISTS else
  m ← npd_trunk_check_port_membership trunkId n;
  if negb m then mret TRUNK_RETURN_CODE_PORT_NOTEXISTS else
  orgl ← npd_trunk_master_port_get trunkId;
  if n =? default 0 orgl then mret TRUNK_RETURN_CODE_ERR_NONE else
  ok ← npd_trunk_master_port_config trunkId n;
  mret (if (ok : bool) then TRUNK_RETURN_CODE_ERR_NONE else TRUNK_RETURN_CODE_TRUNK_NOTEXISTS).

Definition npd_trunk_load_balanc_set (trunkId lbMode : Z) : M Z :=
  t ← npd_find_trunk trunkId;
  match t with None => mret NPD_FAIL | Some t => update_trunk (with_balance t lbMode);; mret 0 end.

(** The ports leave one by one, until one is refused. *)
Fixpoint release_ports (trunkId : Z) (members : list Z) : M (option Z) :=
  match members with
  | [] => mret None
  | port :: members =>
      ret ← npd_trunk_port_del trunkId (eth_port_array_index_to_ifindex env port);
      if (ret =? TRUNK_RETURN_CODE_TRUNK_NOTEXISTS) || (ret =? TRUNK_RETURN_CODE_PORT_NOTEXISTS) || (ret =? TRUNK_RETURN_CODE_BADPARAM)
      then mret (Some ret) else release_ports trunkId members
  end.

(** The ports of a trunk go, then the trunk. *)
Definition destroy (trunkId : Z) (t : trunk_s) (last : M unit) : M Z :=
  ms ← iter_ports (ports t);
  stopped ← release_ports trunkId ms;
  match stopped with
  | Some ret => mret ret
  | None =>
      tell (Notify (npd_netif_trunk_index trunkId) PORT_NOTIFIER_L2DELETE);;
      last;;
      on_trunk_table (fun tt => ks_delete tt (trunk_key trunkId))
  end.

Definition npd_trunk_destroy_node (trunkId : Z) : M Z :=
  tell (Notify (npd_netif_trunk_index trunkId) PORT_NOTIFIER_DELETE);;
  t ← npd_find_trunk trunkId;
  match t with None => mret TRUNK_RETURN_CODE_TRUNK_NOTEXISTS | Some t => destroy trunkId t (mret tt) end.

Definition npd_trunk_destroy_node_by_name (nm : cstr) : M Z :=
  t ← npd_find_trunk_by_name nm;
  match t with
  | None => mret TRUNK_RETURN_CODE_TRUNK_NOTEXISTS
  | Some t => destroy (u16 (trunk_id t)) t (tell (Notify (npd_netif_trunk_index (u16 (trunk_id t))) PORT_NOTIFIER_DELETE))
  end.

(** The record of the trunk only. *)
Definition npd_delete_trunk (trunkId : Z) : M Z :=
  t ← npd_find_trunk trunkId;
  match t with None => mret TRUNK_RETURN_CODE_TRUNK_NOTEXISTS | Some _ => on_trunk_table (fun tt => ks_delete tt (trunk_key trunkId));; mret 0 end.

(** *** The records of ports *)

(** What a new port is like: its defaults, and the record made of them. *)
Definition default_attr (d : NPD_ETHPORT_ATTRIBUTE_S) : Z :=
  Z.lor (Z.lor (Z.lor (Z.lor (Z.lor (Z.lor (Z.lor 0 (Z.shiftl (admin_state d) ETH_ADMIN_STATUS_BIT)) (Z.shiftl (speed d) ETH_SPEED_BIT))
    (Z.shiftl (autoNego d) ETH_AUTONEG_BIT)) (Z.shiftl (duplex d) ETH_DUPLEX_BIT)) (Z.shiftl (fc d) ETH_FLOWCTRL_BIT))
    (Z.shiftl (bp d) ETH_BACKPRESSURE_BIT)) (Z.shiftl (mediaPrefer d) ETH_PREFERRED_COPPER_MEDIA_BIT).
Definition new_port (n : Z) : eth_port_s :=
  EthPort n (default_attr (ethport_attr_default env n)) (netif_array_index_from_ifindex env n) (-1) PORT_SWITCH_PORT.

(** What the chip says of the link is told, and not recorded. *)
Definition report_link (n : Z) : M unit :=
  match npd_get_port_link_status env n with
  | None => mret tt
  | Some up =>
      let event := if (up : bool) then PORT_NOTIFIER_LINKUP_E else PORT_NOTIFIER_LINKDOWN_E in
      tell (Notify n event);; npd_trunk_handle_port_event n event
  end.

Definition npd_create_eth_port (n : Z) (removed : bool) : M unit :=
  on_port_table (fun te => ks_insert te (new_port n));;
  tell (Notify n PORT_NOTIFIER_CREATE);; npd_trunk_handle_port_event n PORT_NOTIFIER_CREATE;;
  tell (Notify n PORT_NOTIFIER_L2CREATE);; npd_trunk_handle_port_event n PORT_NOTIFIER_L2CREATE;;
  if removed then tell (Notify n PORT_NOTIFIER_REMOVE);; npd_trunk_handle_port_event n PORT_NOTIFIER_REMOVE
  else if npd_startup_end env then report_link n else mret tt.

(** A change of the link is recorded, then told. *)
Definition linked_attr (attr : Z) (event : port_event) : option Z :=
  match event with
  | PORT_NOTIFIER_LINKUP_E => Some (Z.lor attr (Z.land (Z.shiftl ETH_ATTR_LINKUP ETH_LINK_STATUS_BIT) ETH_ATTR_LINK_STATUS))
  | PORT_NOTIFIER_LINKDOWN_E | PORT_NOTIFIER_REMOVE =>
      Some (Z.land attr (Z.lnot (Z.land (Z.shiftl ETH_ATTR_LINKUP ETH_LINK_STATUS_BIT) ETH_ATTR_LINK_STATUS)))
  | _ => None
  end.
Definition port_link_change (n : Z) (event : port_event) : M unit :=
  p ← find_port n;
  match p with
  | None => mret tt
  | Some p =>
      match linked_attr (attr_bitmap p) event with Some attr => update_port (with_attr p attr);; mret tt | None => mret tt end;;
      tell (Notify n event);;
      npd_trunk_handle_port_event n event
  end.

(** The board of a port is pulled out, and put back. *)
Definition npd_remove_eth_port (n : Z) : M unit := port_link_change n PORT_NOTIFIER_REMOVE.
Definition npd_insert_eth_port (n : Z) : M unit :=
  p ← find_port n;
  match p with
  | None => mret tt
  | Some p =>
      update_port p;;
      tell (Notify n PORT_NOTIFIER_INSERT);; npd_trunk_handle_port_event n PORT_NOTIFIER_INSERT;;
      report_link n
  end.

Definition npd_delete_eth_port (n : Z) : M unit :=
  tell (Notify n PORT_NOTIFIER_DELETE);;
  npd_trunk_handle_port_event n PORT_NOTIFIER_DELETE;;
  p ← find_port n;
  match p with
  | None => mret tt
  | Some _ => tell (Notify n PORT_NOTIFIER_L2DELETE);; on_port_table (fun te => ks_delete te (eth_port_key n));; mret tt
  end.

End trunks.

(** *** The tables of npd *)

#[export] Instance trunk_s_eq : EqDecision trunk_s.
Proof. solve_decision. Defined.
#[export] Instance eth_port_s_eq : EqDecision eth_port_s.
Proof. solve_decision. Defined.

Definition trunk_index (index : Z) : Z := u32 index.
Definition npd_port_db_index (env : port_numbers) (index : Z) : Z := u32 (eth_port_array_index_from_ifindex env index).

(** A port has a number of its own. *)
Definition numbered_port (env : port_numbers) (n : Z) : Prop :=
  u32_range (eth_port_array_index_from_ifindex env n) /\ eth_port_array_index_to_ifindex env (eth_port_array_index_from_ifindex env n) = n.

(** [max_ports] is [MAX_ETH_GLOBAL_INDEX]; the callbacks of the tables are
    those of [tops] and [pops]. *)
Section tables.
Context (env : port_numbers) (max_ports : Z) (tops : db_ops trunk_s) (pops : db_ops eth_port_s).

Definition trunks_store : KeyStore (db_table_t trunk_s) trunk_s :=
  database_seq_store tops (trunk_key 0) 0 true trunk_index trunk_id trunk_cmp (NPD_TRUNK_NUMBER_MAX env) u32_range.
Definition eth_ports_store : KeyStore (db_table_t eth_port_s) eth_port_s :=
  database_seq_store pops (eth_port_key 0) 0 true (npd_port_db_index env) eth_port_ifindex npd_port_cmp max_ports (numbered_port env).

(** [npd_init_trunks], and the table of ports of [npd_init_eth_ports], with the
    sizes of their records. *)
Definition npd_init_trunks (trunk_size port_size : Z) : trunk_state (db_table_t trunk_s) (db_table_t eth_port_s) :=
  TrunkState
    (dbtable_create_sequence_index (create_dbtable (NPD_TRUNK_NUMBER_MAX env) trunk_size 1) (NPD_TRUNK_NUMBER_MAX env) trunk_index trunk_id trunk_cmp)
    (dbtable_create_sequence_index (create_dbtable max_ports port_size 1) max_ports (npd_port_db_index env) eth_port_ifindex npd_port_cmp) [].

End tables.

(** The numbers of the ports of a board, as [netif_index.c] gives them; [box]
    is what it asks the system. *)
Definition npd_numbers (b : board) (box max_trunk : Z) : port_numbers := {|
  eth_port_array_index_from_ifindex := NetifIndex.eth_port_array_index_from_ifindex b;
  eth_port_array_index_to_ifindex := fun k => u32 (NetifIndex.eth_port_array_index_to_ifindex b 0 k);
  netif_array_index_to_ifindex := fun k => u32 (NetifIndex.netif_array_index_to_ifindex b 0 k);
  netif_array_index_from_ifindex := NetifIndex.netif_array_index_from_ifindex b;
  eth_slot := npd_netif_eth_get_slot box;
  NPD_TRUNK_NUMBER_MAX := max_trunk;
  pbmp_words := Z.to_nat ((MAX_SWITCHPORT_PER_SYSTEM b + 31) / 32)
|}.
