(* ===== verification/NpdTrunkLinks.v ===== *)
(** * Trunks: members, master port and link state

    The operations of [NpdTrunk] on tables that keep the promises of
    [KeyStore] are followed by rules on the maps that the tables hold; the
    records of ports and trunks agree, a trunk is up when one of its ports is,
    and its master is one of its ports. *)

From Stdlib Require Import ZArith Lia Bool.
From stdpp Require Import base decidable list gmap.
From S2P Require Import Prelude Bitarray Cstring NetifIndex Database Chains DatabaseHash DatabaseSeq KeyStore NpdTrunk.

Open Scope Z_scope.

(** Both tables have one record per key. *)
Class TrunkStores (TT TE : Type) `{!KeyStore TT trunk_s, !KeyStore TE eth_port_s} : Prop := {
  trunk_laws :: KeyStoreLaws TT trunk_s;
  eth_port_laws :: KeyStoreLaws TE eth_port_s;
  trunk_same : forall x y, ks_same x y = (trunk_id x =? trunk_id y);
  eth_port_same : forall x y, ks_same x y = (eth_port_ifindex x =? eth_port_ifindex y);
  trunk_valid : forall t, u32_range (trunk_id t) -> ks_valid t
}.
(** The table of ports tells the ports apart that have numbers of their own. *)
Class NumberedPorts (env : port_numbers) (TE : Type) `{!KeyStore TE eth_port_s} : Prop :=
  eth_port_valid : forall p, numbered_port env (eth_port_ifindex p) -> ks_valid p.

(** What the tables hold. *)
Record trunk_spec := TSpec { tr : Z -> option trunk_s; pt : Z -> option eth_port_s }.

Definition set_trunk (id : Z) (t : option trunk_s) (w : trunk_spec) : trunk_spec :=
  TSpec (fun k => if k =? id then t else tr w k) (pt w).
Definition set_eth (n : Z) (p : option eth_port_s) (w : trunk_spec) : trunk_spec :=
  TSpec (tr w) (fun k => if k =? n then p else pt w k).

(** ** Rules for the operations *)

Section rules.
Context {TT TE : Type} `{!KeyStore TT trunk_s, !KeyStore TE eth_port_s, !TrunkStores TT TE}.
Implicit Types (s : trunk_state TT TE) (w : trunk_spec).
Abbreviation M := (TM TT TE).

Record tholds s w : Prop := {
  th_trunks : ks_ok (g_trunks s);
  th_ports : ks_ok (g_eth_ports s);
  th_tr id : ks_search (g_trunks s) (trunk_key id) = tr w id;
  th_pt n : ks_search (g_eth_ports s) (eth_port_key n) = pt w n
}.

(** Records are found under their keys. *)
Lemma trunk_at s w id t : tholds s w -> tr w id = Some t -> trunk_id t = id.
Proof. intros [H1 _ H2 _] Ht. rewrite <- H2 in Ht. by eapply (search_key trunk_id trunk_key (fun _ => eq_refl) trunk_same) in Ht. Qed.
Lemma eth_port_at s w n p : tholds s w -> pt w n = Some p -> eth_port_ifindex p = n.
Proof. intros [_ H1 _ H2] Hp. rewrite <- H2 in Hp. by eapply (search_key eth_port_ifindex eth_port_key (fun _ => eq_refl) eth_port_same) in Hp. Qed.

(** The operation returns, and leaves tables with [Q]. *)
Definition twp {A} (m : M A) (Q : A -> trunk_spec -> Prop) w : Prop :=
  forall s, tholds s w -> exists a s' w', m s = Some (a, s') /\ tholds s' w' /\ Q a w'.

Lemma twp_ret {A} (a : A) Q w : Q a w -> twp (mret a) Q w.
Proof. intros H s Hs. by exists a, s, w. Qed.
Lemma twp_bind {A B} (m : M A) (f : A -> M B) Q w : twp m (fun a w' => twp (f a) Q w') w -> twp (m ≫= f) Q w.
Proof.
  intros H s Hs. destruct (H s Hs) as (a & s1 & w1 & E & H1 & Hf). destruct (Hf s1 H1) as (b & s2 & w2 & E2 & H2 & HQ).
  exists b, s2, w2. split_and!; try done. unfold mbind, TM_bind. by rewrite E.
Qed.
Lemma twp_mono {A} (m : M A) (Q Q' : A -> trunk_spec -> Prop) w : twp m Q w -> (forall a w', Q a w' -> Q' a w') -> twp m Q' w.
Proof. intros H HQ s Hs. destruct (H s Hs) as (a & s' & w' & E & H' & Ha). exists a, s', w'. by auto. Qed.

Lemma twp_find_trunk id Q w : Q (tr w (u16 id)) w -> twp (npd_find_trunk id) Q w.
Proof. intros H s Hs. eexists _, s, w. split_and!; [done|done|]. by rewrite (th_tr _ _ Hs). Qed.
Lemma twp_find_port n Q w : Q (pt w n) w -> twp (find_port n) Q w.
Proof. intros H s Hs. eexists _, s, w. split_and!; [done|done|]. by rewrite (th_pt _ _ Hs). Qed.
Lemma twp_tell x Q w : Q tt w -> twp (tell x) Q w.
Proof. intros H s [H1 H2 H3 H4]. by eexists _, _, w. Qed.
Lemma twp_lift {A} (x : option A) a Q w : x = Some a -> Q a w -> twp (lift x) Q w.
Proof. intros -> H. by apply twp_ret. Qed.

Lemma twp_update_trunk t x id Q w : tr w id = Some x -> trunk_id t = trunk_id x -> Q 0 (set_trunk id (Some t) w) -> twp (update_trunk t) Q w.
Proof.
  intros Hx Hk H s Hs. pose proof (trunk_at s w id x Hs Hx) as Hid. destruct Hs as [H1 H2 H3 H4].
  destruct (update_at trunk_id trunk_key (fun _ => eq_refl) trunk_same (g_trunks s) t H1) as (t' & E & K & L).
  { rewrite Hk, Hid, H3, Hx. by eexists. }
  unfold update_trunk, on_trunk_table. rewrite E. eexists _, _, _. split_and!; [done| |exact H]. split; cbn; try done.
  intros k. rewrite L, Hk, Hid, H3. done.
Qed.
Lemma twp_update_port p x n Q w :
  pt w n = Some x -> eth_port_ifindex p = eth_port_ifindex x -> Q 0 (set_eth n (Some p) w) -> twp (update_port p) Q w.
Proof.
  intros Hx Hk H s Hs. pose proof (eth_port_at s w n x Hs Hx) as Hid. destruct Hs as [H1 H2 H3 H4].
  destruct (update_at eth_port_ifindex eth_port_key (fun _ => eq_refl) eth_port_same (g_eth_ports s) p H2) as (t' & E & K & L).
  { rewrite Hk, Hid, H4, Hx. by eexists. }
  unfold update_port, on_port_table. rewrite E. eexists _, _, _. split_and!; [done| |exact H]. split; cbn; try done.
  intros k. rewrite L, Hk, Hid, H4. done.
Qed.

(** A record that is new goes in, or the table refuses it. *)
Lemma twp_insert_trunk t Q w :
  u32_range (trunk_id t) -> tr w (trunk_id t) = None -> Q 0 (set_trunk (trunk_id t) (Some t) w) -> Q (-1) w -> twp (on_trunk_table (fun tt => ks_insert tt t)) Q w.
Proof.
  intros Hv Hx H0 H1 s [K1 K2 K3 K4].
  destruct (insert_try trunk_id trunk_key (fun _ => eq_refl) trunk_same (g_trunks s) t K1) as (r & t' & E & K & [[-> L]|[-> L]]);
    [by apply trunk_valid|by rewrite K3|..];
    unfold on_trunk_table; rewrite E; eexists _, _, _; (split_and!; [done| |first [exact H0|exact H1]]); split; cbn; try done; intros k; by rewrite L, K3.
Qed.
Lemma twp_insert_port env `{!NumberedPorts env TE} p Q w :
  numbered_port env (eth_port_ifindex p) -> pt w (eth_port_ifindex p) = None -> Q 0 (set_eth (eth_port_ifindex p) (Some p) w) -> Q (-1) w -> twp (on_port_table (fun te => ks_insert te p)) Q w.
Proof.
  intros Hv Hx H0 H1 s [K1 K2 K3 K4].
  destruct (insert_try eth_port_ifindex eth_port_key (fun _ => eq_refl) eth_port_same (g_eth_ports s) p K2) as (r & t' & E & K & [[-> L]|[-> L]]);
    [by apply eth_port_valid|by rewrite K4|..];
    unfold on_port_table; rewrite E; eexists _, _, _; (split_and!; [done| |first [exact H0|exact H1]]); split; cbn; try done; intros k; by rewrite L, K4.
Qed.
Lemma twp_delete_trunk id x Q w : tr w id = Some x -> Q 0 (set_trunk id None w) -> twp (on_trunk_table (fun tt => ks_delete tt (trunk_key id))) Q w.
Proof.
  intros Hx H s [K1 K2 K3 K4].
  destruct (delete_at trunk_id trunk_key (fun _ => eq_refl) trunk_same (g_trunks s) id K1) as (t' & E & K & L); [rewrite K3, Hx; by eexists|].
  unfold on_trunk_table. rewrite E. eexists _, _, _. split_and!; [done| |exact H]. split; cbn; try done. intros k. by rewrite L, K3.
Qed.
Lemma twp_delete_port n x Q w : pt w n = Some x -> Q 0 (set_eth n None w) -> twp (on_port_table (fun te => ks_delete te (eth_port_key n))) Q w.
Proof.
  intros Hx H s [K1 K2 K3 K4].
  destruct (delete_at eth_port_ifindex eth_port_key (fun _ => eq_refl) eth_port_same (g_eth_ports s) n K2) as (t' & E & K & L);
    [rewrite K4, Hx; by eexists|].
  unfold on_port_table. rewrite E. eexists _, _, _. split_and!; [done| |exact H]. split; cbn; try done. intros k. by rewrite L, K4.
Qed.

End rules.

(** ** Priorities *)

Lemma link_bit attr : Z.land attr ETH_ATTR_LINK_STATUS = if Z.testbit attr 1 then 2 else 0.
Proof.
  apply Z.bits_inj'. intros i Hi. rewrite Z.land_spec. change ETH_ATTR_LINK_STATUS with (2 ^ 1). rewrite Z.pow2_bits_eqb by done.
  destruct (Z.eqb_spec 1 i) as [<-|Hn]; [by destruct (Z.testbit attr 1)|].
  rewrite andb_false_r. destruct (Z.testbit attr 1); [|by rewrite Z.bits_0]. change 2 with (2 ^ 1). by rewrite Z.pow2_bits_false by lia.
Qed.

Lemma speed_priority_cases x : exists k, 0 <= k < 10 /\ speed_priority x = Z.shiftl k 15.
Proof.
  unfold speed_priority. destruct (Z.leb_spec 0 x), (Z.leb_spec x 8); cbn [andb]; [exists (x + 1); by split; [lia|]|..]; by exists 0.
Qed.

(** A port with link comes before every port without. *)
Lemma check_priority_link attr ap : 0 <= ap < 4096 ->
  0 < check_priority attr ap /\ (2 ^ 30 <= check_priority attr ap <-> Z.testbit attr 1 = true).
Proof.
  intros Ha. unfold check_priority. rewrite link_bit.
  destruct (speed_priority_cases (Z.shiftr (Z.land attr ETH_ATTR_SPEED_MASK) ETH_SPEED_BIT)) as (k & Hk & ->).
  assert (k = 0 \/ k = 1 \/ k = 2 \/ k = 3 \/ k = 4 \/ k = 5 \/ k = 6 \/ k = 7 \/ k = 8 \/ k = 9) as Hin by lia. clear Hk.
  destruct (Z.testbit attr 1), (Z.land attr ETH_ATTR_DUPLEX =? ETH_ATTR_DUPLEX_FULL); destruct_or! Hin; subst k;
    match goal with |- context [?x + (4096 - ap)] => let v := eval vm_compute in x in change x with v end;
    (split; [lia|split; [done || lia|done || lia]]).
Qed.

(** ** What holds of the records *)

Section invariant.
Context (env : port_numbers).
Implicit Types (w : trunk_spec).

Abbreviation from := (eth_port_array_index_from_ifindex env).
Abbreviation to := (eth_port_array_index_to_ifindex env).
Definition nbits : Z := 32 * Z.of_nat (pbmp_words env).

(** What is relied on: arrays and numbers of trunks of a usual size; and that
    0 is no port, and a port has a number of its own in the arrays and a slot of
    the chassis. *)
Record env_ok : Prop := {
  eo_bits : nbits < 2 ^ 32;
  eo_max : NPD_TRUNK_NUMBER_MAX env <= 4096;
  eo_zero : from 0 < 0
}.
Record port_ok (n : Z) : Prop := {
  po_type : npd_netif_type_get n = NPD_NETIF_ETH_TYPE;
  po_range : 0 <= from n < nbits /\ from n < 4096;
  po_back : to (from n) = n /\ netif_array_index_to_ifindex env (from n) = n;
  po_slot : 0 <= eth_slot env n < 16;
  po_some : n <> 0
}.

Record trunk_wf (id : Z) (t : trunk_s) : Prop := {
  tw_id : trunk_id t = id;
  tw_range : 0 < id < NPD_TRUNK_NUMBER_MAX env;
  tw_index : g_index t = npd_netif_trunk_index id;
  tw_bits : wf_bits (ports t) nbits;
  tw_len : 32 * zlen (ports t) = nbits;
  tw_state : linkstate t = TRUNK_STATE_DOWN_E \/ linkstate t = TRUNK_STATE_UP_E
}.

(** A port with link, and a port in the array of a trunk. *)
Definition has_link (p : eth_port_s) : bool := negb (Z.land (attr_bitmap p) ETH_ATTR_LINK_STATUS =? 0).
Definition in_trunk (t : trunk_s) (n : Z) : bool := bit_at (ports t) (from n).

(** Records are well formed, and members of trunks are ports. *)
Record core w : Prop := {
  c_trunk id t : tr w id = Some t -> trunk_wf id t;
  c_port n p : pt w n = Some p -> port_ok n;
  c_member id t a : tr w id = Some t -> bit_at (ports t) a = true -> is_Some (pt w (to a)) /\ from (to a) = a
}.

(** The records of ports say which trunk they are in. *)
Definition ids_agree w : Prop := forall n p, pt w n = Some p ->
  (trunkid p = -1 \/ is_Some (tr w (trunkid p))) /\ forall id t, tr w id = Some t -> (in_trunk t n = true <-> trunkid p = id).

(** A trunk is up when one of its ports is. *)
Definition link_ok (id : Z) w : Prop := forall t, tr w id = Some t ->
  (linkstate t = TRUNK_STATE_UP_E <-> exists n p, pt w n = Some p /\ in_trunk t n = true /\ has_link p = true).

(** The master of a trunk with ports is one of them. *)
Definition master_ok (id : Z) w : Prop := forall t n p, tr w id = Some t -> pt w n = Some p -> in_trunk t n = true ->
  exists q, pt w (master_port_index t) = Some q /\ in_trunk t (master_port_index t) = true.

(** The master of a trunk that is up has link. *)
Definition live_ok (id : Z) w : Prop := forall t, tr w id = Some t -> linkstate t = TRUNK_STATE_UP_E ->
  exists q, pt w (master_port_index t) = Some q /\ in_trunk t (master_port_index t) = true /\ has_link q = true.

Context (Henv : env_ok).

Lemma elem_of_members f lo hi a : a ∈ members f lo hi <-> lo <= a < hi /\ f a = true.
Proof. unfold members. rewrite list_elem_of_filter, elem_of_seqZ. intuition lia. Qed.

Lemma bit_range id t a w : core w -> tr w id = Some t -> bit_at (ports t) a = true -> 0 <= a < nbits.
Proof.
  intros Hc Ht Ha. destruct (c_member _ Hc _ _ _ Ht Ha) as [[p Hp] E]. rewrite <- E. apply (c_port _ Hc _ _ Hp).
Qed.

Lemma trunk_u16 id t w : core w -> tr w id = Some t -> u16 id = id.
Proof. intros Hc Ht. apply wrap_small. pose proof (tw_range _ _ (c_trunk _ Hc _ _ Ht)). pose proof (eo_max Henv). lia. Qed.

(** Only one trunk is written. *)
Record rewritten (id : Z) (x : option trunk_s) w w' : Prop := {
  rw_at : tr w' id = x;
  rw_other k : k <> id -> tr w' k = tr w k;
  rw_ports n : pt w' n = pt w n
}.
Lemma rewritten_refl id w : rewritten id (tr w id) w w.
Proof. by split. Qed.
Lemma rewritten_set id x w : rewritten id x w (set_trunk id x w).
Proof. split; cbn; [by rewrite Z.eqb_refl| |done]. intros k Hk. by destruct (Z.eqb_spec k id). Qed.
Lemma rewritten_trans id x y w w1 w2 : rewritten id x w w1 -> rewritten id y w1 w2 -> rewritten id y w w2.
Proof. intros [_ H1 H2] [H3 H4 H5]. split; [done| |]; [intros k Hk; by rewrite H4, H1|intros n; by rewrite H5]. Qed.
Hint Resolve rewritten_set rewritten_refl : core.

(** Trunks that differ in what is not about their ports. *)
Definition same_ports (t t' : trunk_s) : Prop := trunk_id t' = trunk_id t /\ g_index t' = g_index t /\ ports t' = ports t.

Lemma core_same id t t' w w' : core w -> tr w id = Some t -> rewritten id (Some t') w w' -> same_ports t t' ->
  (linkstate t' = TRUNK_STATE_DOWN_E \/ linkstate t' = TRUNK_STATE_UP_E) -> core w'.
Proof.
  intros Hc Ht [R1 R2 R3] (E1 & E2 & E3) Hl. split.
  - intros k x. destruct (decide (k = id)) as [->|]; [|rewrite R2 by done; apply (c_trunk _ Hc)]. rewrite R1. intros [= <-].
    destruct (c_trunk _ Hc _ _ Ht). split; try rewrite E1; try rewrite E2; try rewrite E3; done.
  - intros n p. rewrite R3. apply (c_port _ Hc).
  - intros k x a. rewrite R3. destruct (decide (k = id)) as [->|]; [|rewrite R2 by done; apply (c_member _ Hc)].
    rewrite R1. intros [= <-]. rewrite E3. by apply (c_member _ Hc _ _ _ Ht).
Qed.

Lemma ids_same id t t' w w' : ids_agree w -> tr w id = Some t -> rewritten id (Some t') w w' -> same_ports t t' -> ids_agree w'.
Proof.
  intros Hi Ht [R1 R2 R3] (_ & _ & E) n p Hp. rewrite R3 in Hp. destruct (Hi n p Hp) as [H1 H2]. split.
  - destruct H1 as [H1|H1]; [by left|right]. destruct (decide (trunkid p = id)) as [->|]; [by rewrite R1; eexists|by rewrite R2].
  - intros k x. destruct (decide (k = id)) as [->|]; [|rewrite R2 by done; apply H2].
    rewrite R1. intros [= <-]. unfold in_trunk. rewrite E. by apply H2.
Qed.

Lemma link_other id k x w w' : rewritten id x w w' -> k <> id -> link_ok k w -> link_ok k w'.
Proof. intros [_ R2 R3] Hk H t. rewrite R2 by done. intros Ht. rewrite (H t Ht). by setoid_rewrite R3. Qed.
Lemma master_other id k x w w' : rewritten id x w w' -> k <> id -> master_ok k w -> master_ok k w'.
Proof. intros [_ R2 R3] Hk H t n p. rewrite R2, !R3 by done. apply H. Qed.
Lemma live_other id k x w w' : rewritten id x w w' -> k <> id -> live_ok k w -> live_ok k w'.
Proof. intros [_ R2 R3] Hk H t. rewrite R2, !R3 by done. apply H. Qed.

Section store_rules.
Context (rest : trunk_around) (Hbeyond : is_Some (beyond_array rest)).
Abbreviation full := (TrunkEnv env rest).
Context {TT TE : Type} `{!KeyStore TT trunk_s, !KeyStore TE eth_port_s, !TrunkStores TT TE}.

Lemma twp_iter id t (Q : list Z -> trunk_spec -> Prop) w : core w -> tr w id = Some t -> Q (members (bit_at (ports t)) 0 nbits) w ->
  twp (TT := TT) (TE := TE) (iter_ports (ports t)) Q w.
Proof.
  intros Hc Ht H. destruct (c_trunk _ Hc _ _ Ht) as [_ _ _ Hw Hl _]. unfold iter_ports. rewrite Hl. eapply twp_lift; [|exact H].
  apply for_each_bit_spec; [done|apply Henv].
Qed.
Lemma twp_member id t n (Q : bool -> trunk_spec -> Prop) w : core w -> tr w id = Some t -> 0 <= from n < nbits -> Q (in_trunk t n) w ->
  twp (TT := TT) (TE := TE) (member full (ports t) n) Q w.
Proof.
  intros Hc Ht Hn H. destruct (c_trunk _ Hc _ _ Ht) as [_ _ _ Hw Hl _]. unfold member. cbn [numbers].
  destruct (Z.ltb_spec (from n) 0); [lia|]. apply twp_bind. eapply twp_lift.
  - by apply (test_bit_spec (ports t) nbits).
  - apply twp_ret. unfold in_trunk in H. cbn [numbers]. by destruct (bit_at (ports t) (from n)).
Qed.

(** *** The choice of a master *)

Definition pri w (a : Z) : Z := check_priority (from_option attr_bitmap 0 (pt w (to a))) (from (to a)).

(** What is chosen of some ports, when there was a master already. *)
Definition chosen w (ms : list Z) (prio master r : Z) : Prop :=
  (r = master /\ forall a, a ∈ ms -> pri w a <= prio) \/
  (exists a, a ∈ ms /\ r = to a /\ prio < pri w a /\ forall b, b ∈ ms -> pri w b <= pri w a).

Lemma twp_best ms : forall prio master (Q : Z -> trunk_spec -> Prop) w, (forall r, chosen w ms prio master r -> Q r w) ->
  twp (TT := TT) (TE := TE) (best_port full ms prio master) Q w.
Proof.
  induction ms as [|port ms IH]; intros prio master Q w H; cbn [best_port numbers].
  - apply twp_ret, H. left. split; [done|]. intros a []%elem_of_nil.
  - apply twp_bind. unfold eth_port_sw_attr_bitmap_get. apply twp_bind, twp_find_port, twp_ret. fold (pri w port).
    destruct (Z.ltb_spec prio (pri w port)) as [Hlt|Hge]; apply IH; intros r [[-> Ha]|(a & Ha & -> & Hp & Hb)]; apply H.
    + right. exists port. split_and!; [by left|done|lia|]. intros b [->|Hb]%elem_of_cons; [lia|auto].
    + right. exists a. split_and!; [by right|done|lia|]. intros b [->|Hb']%elem_of_cons; [lia|auto].
    + left. split; [done|]. intros b [->|Hb]%elem_of_cons; auto.
    + right. exists a. split_and!; [by right|done|lia|]. intros b [->|Hb']%elem_of_cons; [lia|auto].
Qed.

(** The master is a port, and has link when some port has. *)
Definition best_ok (id : Z) w : Prop := forall t n p, tr w id = Some t -> pt w n = Some p -> in_trunk t n = true ->
  exists q, pt w (master_port_index t) = Some q /\ in_trunk t (master_port_index t) = true /\ (has_link p = true -> has_link q = true).

Lemma has_link_bit p : has_link p = Z.testbit (attr_bitmap p) 1.
Proof. unfold has_link. rewrite link_bit. by destruct (Z.testbit (attr_bitmap p) 1). Qed.

Lemma best_chosen w id t r : core w -> tr w id = Some t -> chosen w (members (bit_at (ports t)) 0 nbits) 0 0 r ->
  (forall n p, pt w n = Some p -> in_trunk t n = false) \/
  exists q, pt w r = Some q /\ in_trunk t r = true /\
    forall n p, pt w n = Some p -> in_trunk t n = true -> has_link p = true -> has_link q = true.
Proof.
  intros Hc Ht H. assert (forall n p, pt w n = Some p -> in_trunk t n = true -> from n ∈ members (bit_at (ports t)) 0 nbits /\
    pri w (from n) = check_priority (attr_bitmap p) (from n) /\ 0 <= from n < 4096) as Hm.
  { intros n p Hp Hn. destruct (c_port _ Hc _ _ Hp) as [_ [? ?] [E _] _ _]. rewrite elem_of_members. unfold pri. rewrite E, Hp.
    repeat split; done || lia. }
  destruct H as [[-> Ha]|(a & Ha & -> & Hp & Hb)].
  - left. intros n p Hp. destruct (in_trunk t n) eqn:Hn; [|done]. destruct (Hm n p Hp Hn) as (H1 & H2 & H3).
    specialize (Ha _ H1). rewrite H2 in Ha. pose proof (check_priority_link (attr_bitmap p) _ H3) as [? _]. lia.
  - right. apply elem_of_members in Ha as [_ Ha]. destruct (c_member _ Hc _ _ _ Ht Ha) as [[q Hq] E].
    assert (in_trunk t (to a) = true) as Hin by (unfold in_trunk; by rewrite E). exists q. split_and!; [done|done|].
    intros n p Hn Hin' Hl. destruct (Hm n p Hn Hin') as (H1 & H2 & H3), (Hm _ q Hq Hin) as (_ & H5 & H6). specialize (Hb _ H1).
    rewrite H2, <- E, H5 in Hb. rewrite has_link_bit in *.
    apply (check_priority_link _ _ H6), (Z.le_trans _ (check_priority (attr_bitmap p) (from n))); [by apply check_priority_link|done].
Qed.

Lemma same_master t : with_master_port t (master_port_index t) = t.
Proof. by destruct t. Qed.

Lemma twp_master_check id t (Q : Z -> trunk_spec -> Prop) w : core w -> tr w id = Some t ->
  (forall m r w', rewritten id (Some (with_master_port t m)) w w' -> best_ok id w' -> Q r w') ->
  twp (TT := TT) (TE := TE) (npd_trunk_master_check full id) Q w.
Proof.
  intros Hc Ht H. unfold npd_trunk_master_check. apply twp_bind, twp_find_trunk. rewrite (trunk_u16 _ _ _ Hc Ht), Ht.
  assert (forall r, (forall n p, pt w n = Some p -> in_trunk t n = false) \/ (exists q, pt w (master_port_index t) = Some q /\
    in_trunk t (master_port_index t) = true /\ forall n p, pt w n = Some p -> in_trunk t n = true -> has_link p = true -> has_link q = true) -> Q r w) as Hsame.
  { intros r Hr. apply (H (master_port_index t)); [rewrite same_master, <- Ht; apply rewritten_refl|].
    intros x n p Hx Hp Hn. rewrite Ht in Hx. injection Hx as <-. destruct Hr as [Hr|(q & H1 & H2 & H3)]; [by rewrite (Hr _ _ Hp) in Hn|eauto]. }
  apply twp_bind. eapply twp_iter; [done|done|]. apply twp_bind, twp_best. intros r Hr. pose proof (best_chosen _ _ _ _ Hc Ht Hr) as Hbest.
  destruct (Z.eqb_spec (master_port_index t) r) as [<-|Hne]; [apply twp_ret; auto|].
  apply twp_bind. unfold npd_trunk_master_port_config. apply twp_bind, twp_find_trunk. rewrite (trunk_u16 _ _ _ Hc Ht), Ht.
  apply twp_bind. destruct Hr as [[-> _]|(a & Ha & -> & _)].
  - (* no port is left, and 0 is taken for one *)
    destruct Hbest as [Hnone|(q & Hq & _)]; [|pose proof (proj1 (proj1 (po_range _ (c_port _ Hc _ _ Hq)))); pose proof (eo_zero Henv); lia].
    unfold member. cbn [numbers around]. destruct (Z.ltb_spec (from 0) 0) as [_|Hge]; [|pose proof (eo_zero Henv); lia].
    destruct Hbeyond as [bit Hbit]. eapply twp_lift; [exact Hbit|]. destruct bit; cbn [negb]; [|apply twp_ret, twp_ret; auto].
    apply twp_bind. eapply twp_update_trunk; [exact Ht|done|]. apply twp_ret, twp_ret.
    eapply (H 0); [apply rewritten_set|]. intros x n p. cbn. rewrite Z.eqb_refl. intros [= <-] Hp Hn.
    change (in_trunk (with_master_port t 0) n) with (in_trunk t n) in Hn. by rewrite (Hnone n p Hp) in Hn.
  - apply elem_of_members in Ha as [Hra Ha]. pose proof (c_member _ Hc _ _ _ Ht Ha) as [[p0 Hp0] Ea].
    eapply twp_member; [done|done|by rewrite Ea|]. destruct Hbest as [Hnone|(q & Hq & Hin & Hl)].
    { exfalso. specialize (Hnone _ _ Hp0). unfold in_trunk in Hnone. rewrite Ea in Hnone. congruence. }
    rewrite Hin. cbn [negb]. apply twp_bind. eapply twp_update_trunk; [exact Ht|done|]. apply twp_ret, twp_ret.
    eapply (H (to a)); [apply rewritten_set|]. intros x n p. cbn. rewrite Z.eqb_refl. intros [= <-] Hp Hn. eauto.
Qed.

(** *** Link events *)

Definition up_port w (t : trunk_s) : Prop := exists n p, pt w n = Some p /\ in_trunk t n = true /\ has_link p = true.

Lemma twp_other_up n ms : forall (Q : bool -> trunk_spec -> Prop) w, (forall a, a ∈ ms -> is_Some (pt w (to a))) ->
  (forall up, (up = true <-> exists a p, a ∈ ms /\ to a <> n /\ pt w (to a) = Some p /\ has_link p = true) -> Q up w) ->
  twp (TT := TT) (TE := TE) (other_up full ms n) Q w.
Proof.
  induction ms as [|port ms IH]; intros Q w Hms H; cbn [other_up numbers].
  { apply twp_ret, H. split; [done|]. by intros (a & p & []%elem_of_nil & _). }
  assert (forall Q' : bool -> trunk_spec -> Prop, (forall up, (up = true <-> exists a p, a ∈ ms /\ to a <> n /\ pt w (to a) = Some p /\ has_link p = true) -> Q' up w) ->
    twp (TT := TT) (TE := TE) (other_up full ms n) Q' w) as IH' by (intros; apply IH; [intros; apply Hms; by right|done]).
  destruct (Hms port) as [p Hp]; [by left|]. destruct (Z.eqb_spec (to port) n) as [He|Hne].
  - apply IH'. intros up Hup. apply H. rewrite Hup. split; intros (a & q & Ha & Hx); exists a, q; [by split; [right|]|].
    apply elem_of_cons in Ha as [->|Ha]; [by destruct Hx|done].
  - apply twp_bind. unfold npd_check_eth_port_status. apply twp_bind, twp_find_port, twp_ret. rewrite Hp. fold (has_link p).
    destruct (has_link p) eqn:Hl; cbn.
    + apply twp_ret, H. split; [|done]. intros _. exists port, p. split_and!; [by left|done..].
    + apply IH'. intros up Hup. apply H. rewrite Hup. split; intros (a & q & Ha & Hx); exists a, q; [by split; [right|]|].
      apply elem_of_cons in Ha as [->|Ha]; [|done]. destruct Hx as (_ & Hq & Hlq). congruence.
Qed.

(** The search sees the ports of the trunk but one. *)
Lemma twp_others_up {A} id t n (k : bool -> TM TT TE A) (Q : A -> trunk_spec -> Prop) w : core w -> tr w id = Some t ->
  (forall up, (up = true <-> exists m p, m <> n /\ pt w m = Some p /\ in_trunk t m = true /\ has_link p = true) -> twp (k up) Q w) ->
  twp (ms ← iter_ports (ports t); up ← other_up full ms n; k up) Q w.
Proof.
  intros Hc Ht H. apply twp_bind. eapply twp_iter; [done|done|]. apply twp_bind, twp_other_up.
  - intros a [_ Ha]%elem_of_members. apply (c_member _ Hc _ _ _ Ht Ha).
  - intros up Hup. apply H. rewrite Hup. split.
    + intros (a & p & [_ Ha]%elem_of_members & Hx & Hp & Hl). exists (to a), p. split_and!; try done.
      unfold in_trunk. by rewrite (proj2 (c_member _ Hc _ _ _ Ht Ha)).
    + intros (m & p & Hm & Hp & Hin & Hl). destruct (c_port _ Hc _ _ Hp) as [_ [? _] [E _] _ _].
      exists (from m), p. rewrite E, elem_of_members. unfold in_trunk in Hin. split_and!; done || lia.
Qed.

Definition trunk_inv (b : bool) (id : Z) w : Prop := link_ok id w /\ master_ok id w /\ (b = true -> live_ok id w).

(** What a handler leaves of the trunk it works on. *)
Record settled (b : bool) (id : Z) (t t' : trunk_s) w w' : Prop := {
  se_write : rewritten id (Some t') w w';
  se_ports : same_ports t t';
  se_state : linkstate t' = TRUNK_STATE_DOWN_E \/ linkstate t' = TRUNK_STATE_UP_E;
  se_inv : trunk_inv b id w'
}.

Lemma settled_best b id t t' w w' : rewritten id (Some t') w w' -> same_ports t t' ->
  (linkstate t' = TRUNK_STATE_DOWN_E \/ linkstate t' = TRUNK_STATE_UP_E) -> (linkstate t' = TRUNK_STATE_UP_E <-> up_port w t) ->
  best_ok id w' -> settled b id t t' w w'.
Proof.
  intros Hr Hs Hl Hup Hb. assert (link_ok id w') as Hlink.
  { intros x. rewrite (rw_at _ _ _ _ Hr). intros [= <-]. rewrite Hup. setoid_rewrite (rw_ports _ _ _ _ Hr).
    unfold up_port, in_trunk. by rewrite (proj2 (proj2 Hs)). }
  split; try done. split_and!; [done| |].
  - intros x n p Hx Hp Hn. destruct (Hb x n p Hx Hp Hn) as (q & ? & ? & _). by exists q.
  - intros _ x Hx Hu. apply (Hlink x Hx) in Hu as (n & p & Hp & Hn & Hpl). destruct (Hb x n p Hx Hp Hn) as (q & ? & ? & ?). exists q. auto.
Qed.

Lemma best_link id t x w w' : best_ok id w -> tr w id = Some t -> rewritten id (Some (with_linkstate t x)) w w' -> best_ok id w'.
Proof. intros Hb Ht [R1 _ R3] y n p. rewrite R1, R3. intros [= <-] Hp Hn. setoid_rewrite R3. apply (Hb t n p Ht Hp Hn). Qed.

Lemma trunk_index_facts id t w : core w -> tr w id = Some t ->
  npd_netif_type_get (npd_netif_trunk_index id) = NPD_NETIF_TRUNK_TYPE /\ npd_netif_trunk_get_tid (npd_netif_trunk_index id) = id.
Proof.
  intros Hc Ht. pose proof (tw_range _ _ (c_trunk _ Hc _ _ Ht)). pose proof (eo_max Henv).
  unfold npd_netif_type_get, npd_netif_trunk_get_tid, npd_netif_trunk_index. fields. split; [reflexivity|]. rewrite Z.mod_small; [done|cbn; lia].
Qed.

(** The link state is written, and told. *)
Lemma twp_set_link b id t t1 x ev w w1 (Q : unit -> trunk_spec -> Prop) :
  tr w id = Some t -> rewritten id (Some t1) w w1 -> same_ports t t1 -> best_ok id w1 ->
  (x = TRUNK_STATE_DOWN_E /\ ~ up_port w t) \/ (x = TRUNK_STATE_UP_E /\ up_port w t) ->
  (forall t' w', settled b id t t' w w' -> Q tt w') ->
  twp (TT := TT) (TE := TE) (update_trunk (with_linkstate t1 x);; tell (Notify (g_index t1) ev)) Q w1.
Proof.
  intros Ht Hr Hs Hb Hx H. pose proof (rw_at _ _ _ _ Hr) as R1. apply twp_bind. eapply twp_update_trunk; [exact R1|done|].
  apply twp_tell. apply (H (with_linkstate t1 x)), settled_best.
  - eapply rewritten_trans; [exact Hr|apply rewritten_set].
  - destruct Hs as (? & ? & ?). by split_and!.
  - cbn. by destruct Hx as [[-> _]|[-> _]]; [left|right].
  - cbn. destruct Hx as [[-> Hn]|[-> Hy]]; split; try done.
  - eapply best_link; [exact Hb|exact R1|apply rewritten_set].
Qed.

(** The head of the handler: the port and the trunk are found, and the master
    is chosen anew. *)
Lemma twp_relate b id t n p ev (Q : unit -> trunk_spec -> Prop) w : core w -> tr w id = Some t -> pt w n = Some p ->
  (forall m w1, rewritten id (Some (with_master_port t m)) w w1 -> core w1 -> best_ok id w1 ->
    ((linkstate t = TRUNK_STATE_UP_E <-> up_port w t) -> settled b id t (with_master_port t m) w w1) ->
    twp (TT := TT) (TE := TE)
      (let t := with_master_port t m in
       match ev with
       | PORT_NOTIFIER_JOIN =>
           if TRUNK_STATE_DOWN_E =? linkstate t then
             flag ← npd_check_eth_port_status n;
             if flag =? ETH_ATTR_LINKUP
             then update_trunk (with_linkstate t TRUNK_STATE_UP_E);; tell (Notify (g_index t) PORT_NOTIFIER_LINKUP_E)
             else mret tt
           else mret tt
       | PORT_NOTIFIER_LEAVE =>
           if TRUNK_STATE_UP_E =? linkstate t then
             ms ← iter_ports (ports t);
             up ← other_up full ms n;
             if (up : bool) then mret tt
             else update_trunk (with_linkstate t TRUNK_STATE_DOWN_E);; tell (Notify (g_index t) PORT_NOTIFIER_LINKDOWN_E)
           else mret tt
       end) Q w1) ->
  twp (TT := TT) (TE := TE) (npd_trunk_handle_port_relate_event full (npd_netif_trunk_index id) n ev) Q w.
Proof.
  intros Hc Ht Hp H. unfold npd_trunk_handle_port_relate_event. destruct (trunk_index_facts id t w Hc Ht) as [-> Htid].
  rewrite (po_type _ (c_port _ Hc _ _ Hp)), !Z.eqb_refl. cbn [negb orb].
  apply twp_bind, twp_find_port. rewrite Hp, Htid. apply twp_bind, twp_find_trunk. rewrite (trunk_u16 _ _ _ Hc Ht), Ht.
  apply twp_bind. eapply twp_master_check; [done|done|]. intros m _ w1 Hr Hb. pose proof (rw_at _ _ _ _ Hr) as R1.
  pose proof (tw_state _ _ (c_trunk _ Hc _ _ Ht)) as Hst. assert (same_ports t (with_master_port t m)) as Hs by done.
  apply twp_bind, twp_find_trunk. rewrite (trunk_u16 _ _ _ Hc Ht), R1. apply (H m w1); try done; [by eapply core_same|].
  intros Hiff. by apply settled_best.
Qed.

(** A port that is no longer in the array leaves. *)
Lemma twp_leave b id t n p (Q : unit -> trunk_spec -> Prop) w : core w -> tr w id = Some t -> pt w n = Some p -> in_trunk t n = false ->
  (up_port w t -> linkstate t = TRUNK_STATE_UP_E) -> (forall t' w', settled b id t t' w w' -> Q tt w') ->
  twp (TT := TT) (TE := TE) (npd_trunk_handle_port_relate_event full (npd_netif_trunk_index id) n PORT_NOTIFIER_LEAVE) Q w.
Proof.
  intros Hc Ht Hp Hin Hup H. eapply (twp_relate b); try done. intros m w1 Hr Hc1 Hb Hsame. cbn zeta. cbn [linkstate with_master_port].
  destruct (Z.eqb_spec TRUNK_STATE_UP_E (linkstate t)) as [Hu|Hu].
  - eapply twp_others_up; [exact Hc1|exact (rw_at _ _ _ _ Hr)|]. intros up Hiff.
    assert (up = true <-> up_port w t) as Hiff'.
    { rewrite Hiff. setoid_rewrite (rw_ports _ _ _ _ Hr). split; [intros (k & q & _ & ?); by exists k, q|].
      intros (k & q & Hk & Hkin & Hl). exists k, q. split_and!; try done. intros ->. congruence. }
    destruct up.
    + apply twp_ret. eapply H, Hsame. split; [|done]. intros _. by apply Hiff'.
    + eapply (twp_set_link b id t); try done. left. split; [done|]. by intros ?%Hiff'.
  - apply twp_ret. eapply H, Hsame. split; [intros E; by symmetry in E|done].
Qed.

(** A port that is now in the array joins. *)
Lemma twp_join b id t n p (Q : unit -> trunk_spec -> Prop) w : core w -> tr w id = Some t -> pt w n = Some p -> in_trunk t n = true ->
  (linkstate t = TRUNK_STATE_UP_E -> up_port w t) -> (up_port w t -> linkstate t = TRUNK_STATE_UP_E \/ has_link p = true) ->
  (forall t' w', settled b id t t' w w' -> Q tt w') ->
  twp (TT := TT) (TE := TE) (npd_trunk_handle_port_relate_event full (npd_netif_trunk_index id) n PORT_NOTIFIER_JOIN) Q w.
Proof.
  intros Hc Ht Hp Hin Hdown Hup H. eapply (twp_relate b); try done. intros m w1 Hr Hc1 Hb Hsame. cbn zeta. cbn [linkstate with_master_port].
  destruct (Z.eqb_spec TRUNK_STATE_DOWN_E (linkstate t)) as [Hd|Hd].
  - unfold npd_check_eth_port_status. apply twp_bind, twp_bind, twp_find_port, twp_ret. rewrite (rw_ports _ _ _ _ Hr), Hp. fold (has_link p).
    destruct (has_link p) eqn:Hl; cbn [Z.eqb Pos.eqb ETH_ATTR_LINKUP ETH_ATTR_LINKDOWN].
    + eapply (twp_set_link b id t); try done. right. split; [done|]. by exists n, p.
    + apply twp_ret. eapply H, Hsame. split; [done|]. intros [?|?]%Hup; done.
  - apply twp_ret. eapply H, Hsame. split; [done|]. intros _. pose proof (tw_state _ _ (c_trunk _ Hc _ _ Ht)) as [E|E]; [by rewrite E in Hd|done].
Qed.

(** The master stays; a trunk that stays up has a master with link. *)
Lemma settled_keep b id t x w w' : tr w id = Some t -> rewritten id (Some (with_linkstate t x)) w w' -> master_ok id w ->
  (x = TRUNK_STATE_DOWN_E /\ ~ up_port w t) \/ (x = TRUNK_STATE_UP_E /\ up_port w t) ->
  (b = true -> x = TRUNK_STATE_UP_E ->
    exists q, pt w (master_port_index t) = Some q /\ in_trunk t (master_port_index t) = true /\ has_link q = true) ->
  settled b id t (with_linkstate t x) w w'.
Proof.
  intros Ht Hr Hm Hx Hb. pose proof Hr as [R1 R2 R3].
  split; [done|done|by destruct Hx as [[-> _]|[-> _]]; [left|right]|]. unfold trunk_inv, link_ok, master_ok, live_ok.
  split_and!.
  - intros y. rewrite R1. intros [= <-]. setoid_rewrite R3. cbn. by destruct Hx as [[-> Hn]|[-> Hy]].
  - intros y k p. rewrite R1, R3. intros [= <-] Hp Hn. setoid_rewrite R3. exact (Hm t k p Ht Hp Hn).
  - intros Hbt y. rewrite R1. intros [= <-] Hl. setoid_rewrite R3. by apply Hb.
Qed.

(** A port of the trunk has its link now. *)
Lemma twp_event_up b id t n p (Q : unit -> trunk_spec -> Prop) w : core w -> tr w id = Some t -> pt w n = Some p -> trunkid p = id ->
  in_trunk t n = true -> has_link p = true -> (forall t' w', settled b id t t' w w' -> Q tt w') ->
  twp (TT := TT) (TE := TE) (npd_trunk_handle_port_event full n PORT_NOTIFIER_LINKUP_E) Q w.
Proof.
  intros Hc Ht Hp Hid Hin Hl H. unfold npd_trunk_handle_port_event. rewrite (po_type _ (c_port _ Hc _ _ Hp)), Z.eqb_refl. cbn [negb].
  pose proof (tw_range _ _ (c_trunk _ Hc _ _ Ht)) as Hrange. pose proof (eo_max Henv) as Hmax. pose proof (trunk_u16 _ _ _ Hc Ht) as Hu16.
  apply twp_bind, twp_find_port. rewrite Hp, Hid. assert (u32 id = id) as -> by (apply wrap_small; lia).
  apply twp_bind, twp_find_trunk. rewrite Hu16, Ht. apply twp_bind. eapply twp_master_check; [done|done|]. intros m _ w1 Hr Hb.
  assert (up_port w t) as Hup by by exists n, p. pose proof (tw_state _ _ (c_trunk _ Hc _ _ Ht)) as Hst.
  apply twp_bind, twp_find_trunk. rewrite Hu16, (rw_at _ _ _ _ Hr).
  change (default t (Some (with_master_port t m))) with (with_master_port t m). cbn [linkstate with_master_port].
  destruct (Z.eqb_spec TRUNK_STATE_DOWN_E (linkstate t)) as [Hd|Hd].
  - eapply (twp_set_link b id t); try done. by right.
  - apply twp_ret. apply (H (with_master_port t m)), settled_best; try done. split; [done|]. intros _. by destruct Hst as [E|E]; [rewrite E in Hd|].
Qed.

(** A port of the trunk has no link any more. *)
Lemma twp_event_down b id t n p ev (Q : unit -> trunk_spec -> Prop) w : core w -> tr w id = Some t -> pt w n = Some p -> trunkid p = id ->
  in_trunk t n = true -> has_link p = false -> (up_port w t -> linkstate t = TRUNK_STATE_UP_E) -> master_ok id w ->
  (b = true -> linkstate t = TRUNK_STATE_UP_E -> master_port_index t = n \/
    exists q, pt w (master_port_index t) = Some q /\ in_trunk t (master_port_index t) = true /\ has_link q = true) ->
  ev = PORT_NOTIFIER_LINKDOWN_E \/ ev = PORT_NOTIFIER_REMOVE -> (forall t' w', settled b id t t' w w' -> Q tt w') ->
  twp (TT := TT) (TE := TE) (npd_trunk_handle_port_event full n ev) Q w.
Proof.
  intros Hc Ht Hp Hid Hin Hl Hup Hm Hlive Hev H. unfold npd_trunk_handle_port_event.
  rewrite (po_type _ (c_port _ Hc _ _ Hp)), Z.eqb_refl. cbn [negb].
  pose proof (tw_range _ _ (c_trunk _ Hc _ _ Ht)) as Hrange. pose proof (eo_max Henv) as Hmax. pose proof (trunk_u16 _ _ _ Hc Ht) as Hu16.
  apply twp_bind, twp_find_port. rewrite Hp, Hid. assert (u32 id = id) as -> by (apply wrap_small; lia).
  apply twp_bind, twp_find_trunk. rewrite Hu16, Ht. pose proof (tw_state _ _ (c_trunk _ Hc _ _ Ht)) as Hst.
  assert (with_linkstate t (linkstate t) = t) as Heta by by destruct t.
  assert (~ up_port w t -> linkstate t <> TRUNK_STATE_UP_E -> settled b id t t w w) as Hoff.
  { intros Hn Hd. assert (linkstate t = TRUNK_STATE_DOWN_E) as Hd' by tauto. rewrite <- Heta at 2. apply settled_keep; try done; rewrite ?Heta.
    - rewrite <- Ht. apply rewritten_refl.
    - by left. }
  assert (twp (TT := TT) (TE := TE)
   (if TRUNK_STATE_UP_E =? linkstate t then
      ms ← iter_ports (ports t);
      up ← other_up full ms n;
      if (up : bool) then (if master_port_index t =? n then npd_trunk_master_check full id;; mret tt else mret tt)
      else
        t' ← npd_find_trunk id;
        let t := default t t' in
        update_trunk (with_linkstate t TRUNK_STATE_DOWN_E);; tell (Notify (g_index t) PORT_NOTIFIER_LINKDOWN_E)
    else mret tt) Q w) as Hgoal; [|destruct Hev as [-> | ->]; exact Hgoal].
  destruct (Z.eqb_spec TRUNK_STATE_UP_E (linkstate t)) as [Hu|Hu].
  2: { apply twp_ret. eapply H, Hoff; [|congruence]. intros Hy. by apply Hup in Hy. }
  eapply twp_others_up; [done|done|]. intros up Hiff. assert (up = true <-> up_port w t) as Hiff'.
  { rewrite Hiff. split; [intros (k & q & _ & ?); by exists k, q|]. intros (k & q & Hk & Hkin & Hkl). exists k, q. split_and!; try done.
    intros ->. congruence. }
  destruct up.
  - destruct (Z.eqb_spec (master_port_index t) n) as [Hmn|Hmn].
    + apply twp_bind. eapply twp_master_check; [done|done|]. intros m _ w1 Hr Hb. apply twp_ret.
      apply (H (with_master_port t m)), settled_best; try done. split; [intros _; by apply Hiff'|done].
    + apply twp_ret. apply (H t). rewrite <- Heta at 2. apply settled_keep; try done; rewrite ?Heta.
      * rewrite <- Ht. apply rewritten_refl.
      * right. split; [done|by apply Hiff'].
      * intros Hbt Hlu. by destruct (Hlive Hbt Hlu).
  - apply twp_bind, twp_find_trunk. rewrite Hu16, Ht. change (default t (Some t)) with t. cbn zeta. apply twp_bind.
    eapply twp_update_trunk; [exact Ht|done|]. apply twp_tell. eapply H, settled_keep; try done.
    left. split; [done|]. by intros ?%Hiff'.
Qed.


End store_rules.

End invariant.
