(* ===== verification/NpdTrunkRuns.v ===== *)
(** * Runs of the trunk table

    Every operation on trunks and ports returns, and keeps what
    [NpdTrunkLinks] says of the records. *)

From Stdlib Require Import ZArith Lia Bool Ascii.
From stdpp Require Import base decidable list gmap.
From S2P Require Import Prelude Bitarray Cstring NetifIndex Database Chains DatabaseHash DatabaseSeq KeyStore NpdTrunk NpdTrunkLinks.

Open Scope Z_scope.

Lemma update_bit_len f a nr a' : update_bit f a nr = Some a' -> zlen a' = zlen a.
Proof. unfold update_bit. destruct (rd a _); [|done]. cbn. apply wr_len. Qed.

Section operations.
Context (env : port_numbers) (Henv : env_ok env) (rest : trunk_around).
Implicit Types (w : trunk_spec).
Abbreviation full := (TrunkEnv env rest).
Abbreviation from := (eth_port_array_index_from_ifindex env).
Abbreviation to := (eth_port_array_index_to_ifindex env).

(** What holds between operations; [b] when no master was set by hand. *)
Record trunks_inv (b : bool) w : Prop := {
  i_core : core env w;
  i_ids : ids_agree env w;
  i_trunk id : trunk_inv env b id w
}.

(** What lies on the stack is not the number of a port, and there is memory
    where the master of an empty trunk is looked for. *)
Record rest_ok : Prop := {
  ro_stray n : port_ok env n -> stray_pointer rest <> n;
  ro_beyond : is_Some (beyond_array rest)
}.
Context (Hrest : rest_ok).

(** One trunk is left by a handler, the others are as they were. *)
Lemma inv_settled b id t t' w w' : core env w -> tr w id = Some t -> (forall k, k <> id -> trunk_inv env b k w) -> settled env b id t t' w w' ->
  core env w' /\ forall k, trunk_inv env b k w'.
Proof.
  intros Hc Ht Hk [Hr Hs Hst Hinv]. split; [by eapply core_same|]. intros k. destruct (decide (k = id)) as [->|Hne]; [done|].
  destruct (Hk k Hne) as (H1 & H2 & H3). split_and!; [by eapply link_other|by eapply master_other|intros Hb; by eapply live_other, H3].
Qed.

(** A port's record is written with the link as it was. *)
Lemma core_port n p p' w : core env w -> pt w n = Some p -> core env (set_eth n (Some p') w).
Proof.
  intros Hc Hp. split; cbn; [apply (c_trunk _ _ Hc)| |].
  - intros m q. destruct (Z.eqb_spec m n) as [->|]; [|apply (c_port _ _ Hc)]. intros _. by eapply c_port.
  - intros id t a Ht Ha. destruct (c_member _ _ Hc _ _ _ Ht Ha) as [Hi E]. split; [|done]. by destruct (to a =? n); [eexists|].
Qed.
Lemma trunk_inv_port b id n p p' w : pt w n = Some p -> has_link p' = has_link p -> trunk_inv env b id w ->
  trunk_inv env b id (set_eth n (Some p') w).
Proof.
  intros Hp Hl (H1 & H2 & H3).
  assert (forall m q, pt w m = Some q -> exists q', pt (set_eth n (Some p') w) m = Some q' /\ has_link q' = has_link q) as Hto.
  { intros m q Hq. cbn. destruct (Z.eqb_spec m n) as [->|]; [|by exists q]. exists p'. split; [done|]. congruence. }
  assert (forall m q', pt (set_eth n (Some p') w) m = Some q' -> exists q, pt w m = Some q /\ has_link q' = has_link q) as Hfrom.
  { intros m q'. cbn. destruct (Z.eqb_spec m n) as [->|]; [|by exists q']. intros [= <-]. by exists p. }
  split_and!.
  - intros t Ht. rewrite (H1 t Ht). split; intros (m & q & Hq & Hin & Hql).
    + destruct (Hto m q Hq) as (q' & ? & E). exists m, q'. by rewrite E.
    + destruct (Hfrom m q Hq) as (q' & ? & E). exists m, q'. by rewrite <- E.
  - intros t m q Ht Hq Hin. destruct (Hfrom m q Hq) as (q' & Hq' & _), (H2 t m q' Ht Hq' Hin) as (x & Hx & ?).
    destruct (Hto _ x Hx) as (x' & ? & _). by exists x'.
  - intros Hb t Ht Hu. destruct (H3 Hb t Ht Hu) as (x & Hx & ? & ?), (Hto _ x Hx) as (x' & ? & E). exists x'. by rewrite E.
Qed.

(** Ports have places of their own in the arrays. *)
Lemma from_inj m n p q w : core env w -> pt w m = Some p -> pt w n = Some q -> from m = from n -> m = n.
Proof.
  intros Hc Hp Hq E. rewrite <- (proj1 (po_back _ _ (c_port _ _ Hc _ _ Hp))), <- (proj1 (po_back _ _ (c_port _ _ Hc _ _ Hq))). by rewrite E.
Qed.

(** The array of one trunk is written; the places are those of ports. *)
Lemma core_members id t ps w : core env w -> tr w id = Some t -> wf_bits ps (nbits env) -> zlen ps = zlen (ports t) ->
  (forall a, bit_at ps a = true -> is_Some (pt w (to a)) /\ from (to a) = a) -> core env (set_trunk id (Some (with_members t ps)) w).
Proof.
  intros Hc Ht Hw Hl Hm. split; cbn; [|apply (c_port _ _ Hc)|].
  - intros k x. destruct (Z.eqb_spec k id) as [->|]; [|apply (c_trunk _ _ Hc)]. intros [= <-].
    destruct (c_trunk _ _ Hc _ _ Ht) as [? ? ? ? ? ?]. split; try done. cbn. by rewrite Hl.
  - intros k x a. destruct (Z.eqb_spec k id) as [->|]; [|apply (c_member _ _ Hc)]. intros [= <-]. apply Hm.
Qed.

(** A port is in no trunk now, and no longer in the array of the one it left. *)
Lemma ids_left id n p p' t t' w w' : core env w -> ids_agree env w -> pt w n = Some p -> tr w id = Some t -> in_trunk env t n = true ->
  tr w' id = Some t' -> (forall a, bit_at (ports t') a = negb (a =? from n) && bit_at (ports t) a) -> (forall k, k <> id -> tr w' k = tr w k) ->
  (forall m, m <> n -> pt w' m = pt w m) -> pt w' n = Some p' -> trunkid p' = -1 -> ids_agree env w'.
Proof.
  intros Hc Hi Hp Ht Hin Ht' Hb Hk Hm Hp' Hid m q Hq. destruct (decide (m = n)) as [->|Hne].
  - rewrite Hp' in Hq. injection Hq as <-. split; [by left|]. intros k x Hx. rewrite Hid.
    destruct (decide (k = id)) as [->|Hki].
    + rewrite Ht' in Hx. injection Hx as <-. unfold in_trunk. rewrite Hb, Z.eqb_refl. cbn. split; [done|].
      intros <-. pose proof (tw_range _ _ _ (c_trunk _ _ Hc _ _ Ht)). lia.
    + rewrite Hk in Hx by done. destruct (Hi n p Hp) as [_ H]. apply (H id t Ht) in Hin. rewrite (H k x Hx), Hin. split; [done|].
      intros <-. pose proof (tw_range _ _ _ (c_trunk _ _ Hc _ _ Hx)). lia.
  - rewrite Hm in Hq by done. destruct (Hi m q Hq) as [H1 H2]. split.
    + destruct H1 as [H1|H1]; [by left|right]. destruct (decide (trunkid q = id)) as [->|]; [rewrite Ht'; by eexists|by rewrite Hk].
    + intros k x Hx. destruct (decide (k = id)) as [->|Hki]; [|rewrite Hk in Hx by done; by apply H2].
      rewrite Ht' in Hx. injection Hx as <-. unfold in_trunk. rewrite Hb. rewrite <- (H2 id t Ht). unfold in_trunk.
      destruct (Z.eqb_spec (from m) (from n)) as [E|]; [|done]. by apply (from_inj m n q p w Hc Hq Hp) in E.
Qed.

(** A port that was in no trunk is in the array of one, and says so. *)
Lemma ids_joined id n p p' t t' w w' : core env w -> ids_agree env w -> pt w n = Some p -> tr w id = Some t -> trunkid p = -1 ->
  tr w' id = Some t' -> (forall a, bit_at (ports t') a = (a =? from n) || bit_at (ports t) a) -> (forall k, k <> id -> tr w' k = tr w k) ->
  (forall m, m <> n -> pt w' m = pt w m) -> pt w' n = Some p' -> trunkid p' = id -> ids_agree env w'.
Proof.
  intros Hc Hi Hp Ht Hfree Ht' Hb Hk Hm Hp' Hid m q Hq. destruct (decide (m = n)) as [->|Hne].
  - rewrite Hp' in Hq. injection Hq as <-. rewrite Hid. split; [right; rewrite Ht'; by eexists|]. intros k x Hx.
    destruct (decide (k = id)) as [->|Hki].
    + rewrite Ht' in Hx. injection Hx as <-. unfold in_trunk. by rewrite Hb, Z.eqb_refl.
    + rewrite Hk in Hx by done. rewrite (proj2 (Hi n p Hp) k x Hx), Hfree. split; [|by intros ->].
      intros <-. pose proof (tw_range _ _ _ (c_trunk _ _ Hc _ _ Hx)). lia.
  - rewrite Hm in Hq by done. destruct (Hi m q Hq) as [H1 H2]. split.
    + destruct H1 as [H1|H1]; [by left|right]. destruct (decide (trunkid q = id)) as [->|]; [rewrite Ht'; by eexists|by rewrite Hk].
    + intros k x Hx. destruct (decide (k = id)) as [->|Hki]; [|rewrite Hk in Hx by done; by apply H2].
      rewrite Ht' in Hx. injection Hx as <-. unfold in_trunk. rewrite Hb. rewrite <- (H2 id t Ht). unfold in_trunk.
      destruct (Z.eqb_spec (from m) (from n)) as [E|]; [|done]. by apply (from_inj m n q p w Hc Hq Hp) in E.
Qed.

(** A port that says it is in no trunk is in none. *)
Lemma in_no_trunk n p id t w : core env w -> ids_agree env w -> pt w n = Some p -> trunkid p = -1 -> tr w id = Some t -> in_trunk env t n = false.
Proof.
  intros Hc Hi Hp Hid Ht. destruct (in_trunk env t n) eqn:Hin; [|done]. apply (proj2 (Hi n p Hp) id t Ht) in Hin.
  pose proof (tw_range _ _ _ (c_trunk _ _ Hc _ _ Ht)). lia.
Qed.

(** A trunk is not told apart by ports that are not in it. *)
Lemma trunk_inv_outside b id n x w : (forall t, tr w id = Some t -> in_trunk env t n = false) -> trunk_inv env b id w ->
  trunk_inv env b id (set_eth n x w).
Proof.
  intros Hout (H1 & H2 & H3). assert (forall t m, tr w id = Some t -> in_trunk env t m = true -> pt (set_eth n x w) m = pt w m) as Hsame.
  { intros t m Ht Hm. cbn. destruct (Z.eqb_spec m n) as [->|]; [|done]. by rewrite (Hout t Ht) in Hm. }
  split_and!.
  - intros t Ht. rewrite (H1 t Ht). split; intros (m & q & Hq & Hin & Hql); exists m, q; [by rewrite (Hsame t m Ht Hin)|].
    by rewrite (Hsame t m Ht Hin) in Hq.
  - intros t m q Ht Hq Hin. rewrite (Hsame t m Ht Hin) in Hq. destruct (H2 t m q Ht Hq Hin) as (y & Hy & Hyin). exists y.
    by rewrite (Hsame t _ Ht Hyin).
  - intros Hb t Ht Hu. destruct (H3 Hb t Ht Hu) as (y & Hy & Hyin & ?). exists y. by rewrite (Hsame t _ Ht Hyin).
Qed.

(** A port that is in no trunk goes away. *)
Lemma inv_delete_port b n p w : trunks_inv b w -> pt w n = Some p -> trunkid p = -1 -> trunks_inv b (set_eth n None w).
Proof.
  intros [Hc Hi Hk] Hp Hid. split.
  - split; cbn; [apply (c_trunk _ _ Hc)|intros m q; destruct (m =? n); [done|apply (c_port _ _ Hc)]|].
    intros id t a Ht Ha. destruct (c_member _ _ Hc _ _ _ Ht Ha) as [Hs E]. split; [|done].
    destruct (Z.eqb_spec (to a) n) as [He|]; [|done]. pose proof (in_no_trunk n p id t w Hc Hi Hp Hid Ht) as Hno.
    unfold in_trunk in Hno. rewrite <- He, E in Hno. congruence.
  - intros m q. cbn. destruct (m =? n); [done|]. apply Hi.
  - intros id. apply trunk_inv_outside; [|done]. intros t Ht. by eapply in_no_trunk.
Qed.

(** A port of the chassis has a number of its own. *)
Lemma port_numbered n : port_ok env n -> numbered_port env n.
Proof. intros [_ [H _] [H2 _] _ _]. split; [|done]. pose proof (eo_bits _ Henv). unfold u32_range. lia. Qed.

(** A port comes, in no trunk yet. *)
Lemma inv_new_port b n p w : trunks_inv b w -> pt w n = None -> port_ok env n -> trunkid p = -1 -> trunks_inv b (set_eth n (Some p) w).
Proof.
  intros [Hc Hi Hk] Hn Hok Hid. assert (forall id t, tr w id = Some t -> in_trunk env t n = false) as Hout.
  { intros id t Ht. destruct (in_trunk env t n) eqn:Hin; [|done]. destruct (c_member _ _ Hc _ _ _ Ht Hin) as [[q Hq] _].
    rewrite (proj1 (po_back _ _ Hok)) in Hq. congruence. }
  split.
  - split; cbn; [apply (c_trunk _ _ Hc)|intros m q; destruct (Z.eqb_spec m n) as [->|]; [done|apply (c_port _ _ Hc)]|].
    intros id t a Ht Ha. destruct (c_member _ _ Hc _ _ _ Ht Ha) as [Hs E]. split; [|done]. by destruct (to a =? n); [eexists|].
  - intros m q. cbn. destruct (Z.eqb_spec m n) as [->|]; [|apply Hi]. intros [= <-]. split; [by left|]. intros id t Ht. rewrite (Hout id t Ht), Hid.
    split; [done|]. intros <-. pose proof (tw_range _ _ _ (c_trunk _ _ Hc _ _ Ht)). lia.
  - intros id. apply trunk_inv_outside; [apply Hout|done].
Qed.

Lemma inv_after b id t t' w w' : core env w -> ids_agree env w -> tr w id = Some t -> (forall k, k <> id -> trunk_inv env b k w) ->
  settled env b id t t' w w' -> trunks_inv b w'.
Proof.
  intros Hc Hi Ht Hk Hse. destruct (inv_settled _ _ _ _ _ _ Hc Ht Hk Hse) as [Hc' Hk']. destruct Hse as [Hr Hs _ _]. split; [done| |done]. by eapply ids_same.
Qed.

(** A port's link is recorded; the trunks it is not in do not notice. *)
Lemma ids_attr n p x w : ids_agree env w -> pt w n = Some p -> ids_agree env (set_eth n (Some (with_attr p x)) w).
Proof. intros Hi Hp m q. cbn. destruct (Z.eqb_spec m n) as [->|]; [|apply Hi]. intros [= <-]. apply (Hi n p Hp). Qed.
Lemma others_attr b n p x k w : ids_agree env w -> pt w n = Some p -> k <> trunkid p -> trunk_inv env b k w -> trunk_inv env b k (set_eth n x w).
Proof.
  intros Hi Hp Hk Hinv. apply trunk_inv_outside; [|done]. intros t Ht. destruct (in_trunk env t n) eqn:Hin; [|done].
  by apply (proj2 (Hi n p Hp) k t Ht) in Hin.
Qed.

Lemma linked_up attr p x : linked_attr attr PORT_NOTIFIER_LINKUP_E = Some x -> has_link (with_attr p x) = true.
Proof. intros [= <-]. rewrite has_link_bit. cbn [attr_bitmap with_attr]. rewrite Z.lor_spec. apply orb_true_r. Qed.
Lemma linked_down attr ev p x : ev = PORT_NOTIFIER_LINKDOWN_E \/ ev = PORT_NOTIFIER_REMOVE -> linked_attr attr ev = Some x ->
  has_link (with_attr p x) = false.
Proof.
  intros Hev Hx. assert (x = Z.land attr (Z.lnot 2)) as -> by (destruct Hev as [-> | ->]; by injection Hx as <-).
  rewrite has_link_bit. cbn [attr_bitmap with_attr]. rewrite Z.land_spec. apply andb_false_r.
Qed.

(** A trunk is written with its ports, link state and master as they were. *)
Lemma inv_same b id t t' w w' : trunks_inv b w -> tr w id = Some t -> rewritten id (Some t') w w' -> same_ports t t' ->
  linkstate t' = linkstate t -> master_port_index t' = master_port_index t -> trunks_inv b w'.
Proof.
  intros [Hc Hi Hk] Ht Hr Hs Hl Hm. eapply (inv_after b id t t' w w' Hc Hi Ht); [done|]. pose proof Hr as [R1 R2 R3]. pose proof Hs as (_ & _ & S3).
  split; [done|done|rewrite Hl; by eapply tw_state, c_trunk|]. destruct (Hk id) as (H1 & H2 & H3).
  split_and!; unfold link_ok, master_ok, live_ok; setoid_rewrite R1; setoid_rewrite R3.
  - intros x [= <-]. rewrite Hl. unfold in_trunk. rewrite S3. apply (H1 t Ht).
  - intros x n p [= <-]. unfold in_trunk. rewrite Hm, S3. apply (H2 t n p Ht).
  - intros Hb x [= <-]. unfold in_trunk. rewrite Hl, Hm, S3. apply (H3 Hb t Ht).
Qed.

Lemma bit_at_zeros k a : bit_at (replicate k 0) a = false.
Proof.
  unfold bit_at. destruct (rd (replicate k 0) (a / 32)) as [x|] eqn:E; [|done]. unfold rd in E. destruct (_ <=? _); [|done].
  apply lookup_replicate in E as [-> _]. apply Z.bits_0.
Qed.

(** A trunk without ports comes. *)
Lemma inv_new_trunk b id nm w : trunks_inv b w -> tr w id = None -> 0 < id < NPD_TRUNK_NUMBER_MAX env ->
  trunks_inv b (set_trunk id (Some (new_trunk full id nm)) w).
Proof.
  intros [Hc Hi Hk] Hn Hid. assert (forall n, in_trunk env (new_trunk full id nm) n = false) as Hout by (intros n; apply bit_at_zeros).
  split.
  - split; cbn; [|apply (c_port _ _ Hc)|].
    + intros k x. destruct (Z.eqb_spec k id) as [->|]; [|apply (c_trunk _ _ Hc)]. intros [= <-]. split; cbn; try done; [|unfold nbits, zlen; by rewrite length_replicate|by left].
      split; [by apply Forall_replicate|]. unfold zlen, nbits. rewrite length_replicate. lia.
    + intros k x a. destruct (Z.eqb_spec k id) as [->|]; [|apply (c_member _ _ Hc)]. intros [= <-]. cbn. by rewrite bit_at_zeros.
  - intros n p Hp. cbn in Hp. destruct (Hi n p Hp) as [H1 H2]. cbn. split; [destruct H1; [by left|right; by destruct (_ =? id); [eexists|]]|].
    intros k x. destruct (Z.eqb_spec k id) as [->|]; [|apply H2]. intros [= <-]. rewrite Hout. split; [done|]. intros He.
    destruct H1 as [H1|[y Hy]]; [lia|]. congruence.
  - intros k. destruct (decide (k = id)) as [->|Hne].
    + split_and!; unfold link_ok, master_ok, live_ok; cbn; rewrite Z.eqb_refl.
      * intros t [= <-]. split; [done|]. intros (n & p & _ & Hin & _). by rewrite Hout in Hin.
      * intros t n p [= <-]. by rewrite Hout.
      * by intros _ t [= <-].
    + destruct (Hk k) as (? & ? & ?). pose proof (rewritten_set id (Some (new_trunk full id nm)) w).
      split_and!; [by eapply link_other|by eapply master_other|intros; by eapply live_other; auto].
Qed.

(** A trunk without ports goes away. *)
Lemma inv_delete_trunk b id t w : trunks_inv b w -> tr w id = Some t -> (forall a, bit_at (ports t) a = false) -> trunks_inv b (set_trunk id None w).
Proof.
  intros [Hc Hi Hk] Ht Hempty. split.
  - split; cbn; [|apply (c_port _ _ Hc)|]; intros k x; destruct (k =? id); try done; [apply (c_trunk _ _ Hc)|apply (c_member _ _ Hc)].
  - intros n p Hp. destruct (Hi n p Hp) as [H1 H2]. cbn. split.
    + destruct H1 as [H1|H1]; [by left|right]. destruct (Z.eqb_spec (trunkid p) id) as [He|]; [|done].
      apply (H2 id t Ht) in He. unfold in_trunk in He. by rewrite Hempty in He.
    + intros k x. destruct (Z.eqb_spec k id) as [->|]; [done|apply H2].
  - intros k. destruct (decide (k = id)) as [->|Hne]; [by unfold trunk_inv, link_ok, master_ok, live_ok; cbn; rewrite Z.eqb_refl|].
    destruct (Hk k) as (? & ? & ?). pose proof (rewritten_set id None w).
    split_and!; [by eapply link_other|by eapply master_other|intros; by eapply live_other; auto].
Qed.

(** Only ports of one trunk are freed, and no other trunk is written. *)
Record freed (id : Z) w w' : Prop := {
  fr_trunks k : k <> id -> tr w' k = tr w k;
  fr_port n p : pt w n = Some p ->
    exists p', pt w' n = Some p' /\ (p' = p \/ trunkid p = id /\ trunkid p' = -1 /\ attr_bitmap p' = attr_bitmap p)
}.
Lemma freed_refl id w : freed id w w.
Proof. split; [done|]. intros n p Hp. exists p. by split; [|left]. Qed.
Lemma freed_trans id w w1 w2 : id <> -1 -> freed id w w1 -> freed id w1 w2 -> freed id w w2.
Proof.
  intros Hid [H1 H2] [H3 H4]. split; [intros k Hk; by rewrite H3, H1|]. intros n p Hp. destruct (H2 n p Hp) as (p1 & Hp1 & Hc1), (H4 n p1 Hp1) as (p2 & Hp2 & Hc2).
  exists p2. split; [done|]. destruct Hc1 as [->|(? & ? & ?)], Hc2 as [->|(? & ? & ?)]; [by left|by right|by right|congruence].
Qed.

Section stores.
Context {TT TE : Type} `{!KeyStore TT trunk_s, !KeyStore TE eth_port_s, !TrunkStores TT TE}.

(** A port leaves its trunk. *)
Lemma twp_port_del_member b id n p t (Q : Z -> trunk_spec -> Prop) w : trunks_inv b w -> pt w n = Some p -> tr w id = Some t -> in_trunk env t n = true ->
  (forall t' w', trunks_inv b w' -> tr w' id = Some t' -> (forall a, bit_at (ports t') a = negb (a =? from n) && bit_at (ports t) a) ->
    (forall k, k <> id -> tr w' k = tr w k) -> (forall m, m <> n -> pt w' m = pt w m) -> pt w' n = Some (with_trunkid p (new_switch_port rest n) (-1)) ->
    Q TRUNK_RETURN_CODE_ERR_NONE w') ->
  twp (TT := TT) (TE := TE) (npd_trunk_port_del full id n) Q w.
Proof.
  intros [Hc Hi Hk] Hp Ht Hin H. pose proof (trunk_u16 env Henv _ _ _ Hc Ht) as Hu. destruct (c_port _ _ Hc _ _ Hp) as [? [Hfn ?] ? ? ?].
  unfold npd_trunk_port_del. apply twp_bind, twp_find_port. rewrite Hp. apply twp_bind, twp_find_trunk. rewrite Hu, Ht.
  apply twp_bind. eapply (twp_member env rest); [exact Hc|exact Ht|done|]. rewrite Hin. cbn [negb numbers].
  destruct (c_trunk _ _ Hc _ _ Ht) as [? ? ? Hw Hl Hst].
  destruct (clear_bit_spec (ports t) (nbits env) (from n) Hw Hfn) as (ps & E & Hw' & Hb). apply twp_bind. eapply twp_lift; [exact E|].
  apply twp_bind. eapply twp_update_trunk; [exact Ht|done|]. set (t1 := with_members t ps). set (w1 := set_trunk id (Some t1) w).
  assert (core env w1) as Hc1.
  { apply core_members; try done; [by eapply update_bit_len|]. intros a. rewrite Hb. intros [_ Ha]%andb_true_iff. by apply (c_member _ _ Hc _ _ _ Ht). }
  assert (tr w1 id = Some t1) as Ht1 by (cbn; by rewrite Z.eqb_refl).
  assert (in_trunk env t1 n = false) as Hout by (unfold in_trunk; cbn; by rewrite Hb, Z.eqb_refl).
  assert (forall k, k <> id -> trunk_inv env b k w1) as Hk1.
  { intros k Hne. destruct (Hk k) as (? & ? & ?). pose proof (rewritten_set id (Some t1) w).
    split_and!; [by eapply link_other|by eapply master_other|intros; by eapply live_other; auto]. }
  unfold netif_notify_relate_event. apply twp_bind, twp_bind, twp_tell. eapply (twp_leave env Henv rest (ro_beyond Hrest) b id t1 n p); try done.
  { intros (m & q & Hq & Hqin & Hql). apply (proj1 (Hk id) t Ht). exists m, q. split_and!; try done. unfold in_trunk in *. cbn in Hqin.
    rewrite Hb in Hqin. by apply andb_true_iff in Hqin as [_ ?]. }
  intros t' w2 Hse. destruct (inv_settled b id t1 t' w1 w2 Hc1 Ht1 Hk1 Hse) as [Hc2 Hk2]. destruct Hse as [[R1 R2 R3] (S1 & S2 & S3) _ _].
  pose proof (ro_stray Hrest n (c_port _ _ Hc _ _ Hp)) as Hstray. apply Z.eqb_neq in Hstray. cbn [around]. rewrite Hstray. apply twp_bind.
  assert (pt w2 n = Some p) as Hp2 by by rewrite R3.
  eapply twp_update_port; [exact Hp2|done|]. apply twp_bind, twp_tell, twp_ret.
  set (p' := with_trunkid p (new_switch_port rest n) (-1)). set (w3 := set_eth n (Some p') w2).
  assert (forall a, bit_at (ports t') a = negb (a =? from n) && bit_at (ports t) a) as F1 by (intros a; rewrite S3; apply Hb).
  assert (forall k, k <> id -> tr w3 k = tr w k) as F2 by (intros k Hne; cbn; rewrite R2 by done; cbn; by destruct (Z.eqb_spec k id)).
  assert (forall m, m <> n -> pt w3 m = pt w m) as F3 by (intros m Hne; cbn; rewrite R3; by destruct (Z.eqb_spec m n)).
  assert (pt w3 n = Some p') as F4 by (cbn; by rewrite Z.eqb_refl).
  apply (H t'); try done. split; [by eapply core_port|by eapply (ids_left id n p p' t t' w)|]. intros k. by eapply trunk_inv_port.
Qed.


Lemma twp_port_del b id n (Q : Z -> trunk_spec -> Prop) w : trunks_inv b w -> 0 <= id < 2 ^ 16 -> (forall r w', trunks_inv b w' -> Q r w') ->
  twp (TT := TT) (TE := TE) (npd_trunk_port_del full id n) Q w.
Proof.
  intros Hinv Hid H. pose proof Hinv as [Hc _ _].
  destruct (pt w n) as [p|] eqn:Hp; [|unfold npd_trunk_port_del; apply twp_bind, twp_find_port; rewrite Hp; apply twp_ret; auto].
  destruct (tr w id) as [t|] eqn:Ht; [destruct (in_trunk env t n) eqn:Hin; [eapply twp_port_del_member; eauto|]|]; unfold npd_trunk_port_del;
    apply twp_bind, twp_find_port; rewrite Hp; apply twp_bind, twp_find_trunk; (replace (u16 id) with id by (symmetry; apply wrap_small; lia)); rewrite Ht.
  - apply twp_bind. eapply (twp_member env rest); [exact Hc|exact Ht|apply (c_port _ _ Hc _ _ Hp)|]. rewrite Hin. apply twp_ret. auto.
  - apply twp_ret. auto.
Qed.

(** A port joins a trunk. *)
Lemma twp_port_joins b id n p t p0 (Q : Z -> trunk_spec -> Prop) w : trunks_inv b w -> pt w n = Some p -> tr w id = Some t -> trunkid p = -1 ->
  (forall t' w', trunks_inv b w' -> tr w' id = Some t' -> in_trunk env t' n = true -> Q 0 w') ->
  twp (TT := TT) (TE := TE) (port_joins full id n p0) Q w.
Proof.
  intros [Hc Hi Hk] Hp Ht Hfree H. pose proof (trunk_u16 env Henv _ _ _ Hc Ht) as Hu. pose proof (c_port _ _ Hc _ _ Hp) as Hok.
  pose proof (in_no_trunk n p id t w Hc Hi Hp Hfree Ht) as Hout. destruct (c_trunk _ _ Hc _ _ Ht) as [? ? ? Hw Hl Hst].
  unfold port_joins. apply twp_bind, twp_tell, twp_bind, twp_find_trunk. rewrite Hu, Ht. apply twp_bind, twp_find_port. rewrite Hp.
  change (default p0 (Some p)) with p. cbn zeta. apply twp_bind. eapply twp_update_port; [exact Hp|done|].
  set (p1 := with_trunkid p (-1) id). set (w1 := set_eth n (Some p1) w). assert (core env w1) as Hc1 by by eapply core_port.
  assert (pt w1 n = Some p1) as Hp1 by (cbn; by rewrite Z.eqb_refl). assert (tr w1 id = Some t) as Ht1 by done.
  assert (forall k, trunk_inv env b k w1) as Hk1 by (intros k; by eapply trunk_inv_port).
  destruct (set_bit_spec (ports t) (nbits env) (from n) Hw) as (ps & E & Hw' & Hb); [apply Hok|]. apply twp_bind. eapply twp_lift; [exact E|].
  apply twp_bind. eapply twp_update_trunk; [exact Ht1|done|]. set (t2 := with_members t ps). set (w2 := set_trunk id (Some t2) w1).
  assert (core env w2) as Hc2.
  { apply core_members; try done; [by eapply update_bit_len|]. intros a. rewrite Hb. intros [->%Z.eqb_eq|Ha]%orb_true_iff; [|by apply (c_member _ _ Hc1 _ _ _ Ht1)].
    rewrite (proj1 (po_back _ _ Hok)). by split; [eexists|]. }
  assert (tr w2 id = Some t2) as Ht2 by (cbn; by rewrite Z.eqb_refl).
  assert (in_trunk env t2 n = true) as Hin by (unfold in_trunk; cbn; by rewrite Hb, Z.eqb_refl).
  assert (ids_agree env w2) as Hi2.
  { eapply (ids_joined id n p p1 t t2 w); try done; cbn; intros k Hne; apply Z.eqb_neq in Hne; by rewrite Hne. }
  unfold netif_notify_relate_event. apply twp_bind, twp_bind, twp_tell. destruct (Hk1 id) as (Hlink & _ & _).
  eapply (twp_join env Henv rest (ro_beyond Hrest) b id t2 n p1); try done.
  - intros (m & q & Hq & Hqin & Hql)%(Hlink t Ht1). exists m, q. split_and!; try done. unfold in_trunk in *. cbn. by rewrite Hb, Hqin, orb_true_r.
  - intros (m & q & Hq & Hqin & Hql). unfold in_trunk in Hqin. cbn in Hqin. rewrite Hb in Hqin. apply orb_true_iff in Hqin as [Hmn%Z.eqb_eq|Hqin].
    + right. apply (from_inj m n q p1 w1 Hc1 Hq Hp1) in Hmn as ->. change (pt w2 n) with (pt w1 n) in Hq. congruence.
    + left. apply (Hlink t Ht1). by exists m, q.
  - intros t' w' Hse. apply twp_ret, (H t').
    + eapply inv_after; try done. intros k Hne. destruct (Hk1 k) as (? & ? & ?). pose proof (rewritten_set id (Some t2) w1).
      split_and!; [by eapply link_other|by eapply master_other|intros; by eapply live_other; auto].
    + apply Hse.
    + destruct Hse as [_ (_ & _ & S3) _ _]. unfold in_trunk. by rewrite S3.
Qed.

(** The boards of the members are read within the arrays. *)
Lemma twp_member_boards ms : forall count bt ts (Q : Z + list Z * list Z -> trunk_spec -> Prop) w,
  (forall a, a ∈ ms -> 0 <= eth_slot env (netif_array_index_to_ifindex env a) < 16) -> zlen bt = 16 -> zlen ts = 16 ->
  (forall r, match r with inl _ => True | inr (bt, ts) => zlen bt = 16 /\ zlen ts = 16 end -> Q r w) ->
  twp (TT := TT) (TE := TE) (member_boards full ms count bt ts) Q w.
Proof.
  induction ms as [|a ms IH]; intros count bt ts Q w Hs Hbt Hts H; cbn [member_boards numbers]; [by apply twp_ret, H|].
  destruct (_ <? _); [by apply twp_ret, H|]. specialize (Hs a ltac:(by left)) as Ha.
  apply twp_bind. eapply twp_lift; [apply wr_Some; lia|]. apply twp_bind. eapply twp_lift; [apply wr_Some; lia|].
  apply IH; [intros; apply Hs; by right|unfold zlen in *; by rewrite length_insert..|done].
Qed.

Lemma twp_port_add b id n (Q : Z -> trunk_spec -> Prop) w : trunks_inv b w -> 0 <= id < 2 ^ 16 -> (forall r w', trunks_inv b w' -> Q r w') ->
  twp (TT := TT) (TE := TE) (npd_trunk_port_add full id n) Q w.
Proof.
  intros Hinv Hid H. pose proof Hinv as [Hc Hi _]. unfold npd_trunk_port_add. apply twp_bind, twp_find_trunk.
  replace (u16 id) with id by (symmetry; apply wrap_small; lia). destruct (tr w id) as [t|] eqn:Ht; [|apply twp_ret; auto].
  apply twp_bind, twp_find_port. destruct (pt w n) as [p|] eqn:Hp; [|apply twp_ret; auto]. pose proof (c_port _ _ Hc _ _ Hp) as Hok.
  apply twp_bind. eapply (twp_member env rest); [exact Hc|exact Ht|apply Hok|]. destruct (in_trunk env t n) eqn:Hin; [apply twp_ret; auto|].
  destruct (negb (trunkid p =? -1) && negb (trunkid p =? id)) eqn:Hconf; [apply twp_ret; auto|].
  destruct (eth_forward_mode p =? PORT_IP_INTF); [apply twp_ret; auto|].
  apply twp_bind. eapply (twp_iter env Henv); [exact Hc|exact Ht|]. apply twp_bind, twp_member_boards; [|done|done|].
  { intros a [_ Ha]%elem_of_members. destruct (c_member _ _ Hc _ _ _ Ht Ha) as [[q Hq] E]. destruct (c_port _ _ Hc _ _ Hq) as [_ _ [_ Hback] Hslot _].
    rewrite E in Hback. by rewrite Hback. }
  intros [r|[bt ts]] Hr; [apply twp_ret; auto|]. destruct Hr as [Hbt Hts]. cbn [numbers around].
  apply twp_bind. eapply twp_lift; [apply wr_Some; rewrite Hbt; apply Hok|]. destruct (boards_differ _ _ _ _); [apply twp_ret; auto|].
  eapply twp_port_joins; try done; [|eauto]. destruct (Z.eqb_spec (trunkid p) (-1)) as [|Hne]; [done|].
  destruct (Z.eqb_spec (trunkid p) id) as [He|]; [|done]. apply (proj2 (Hi n p Hp) id t Ht) in He. congruence.
Qed.

Lemma twp_named nm ids : forall (Q : option trunk_s -> trunk_spec -> Prop) w,
  (forall r, (forall t, r = Some t -> exists id, tr w id = Some t) -> Q r w) -> twp (TT := TT) (TE := TE) (named nm ids) Q w.
Proof.
  induction ids as [|iter ids IH]; intros Q w H; cbn [named]; [by apply twp_ret, H|].
  apply twp_bind, twp_find_trunk. destruct (tr w (u16 iter)) as [t|] eqn:Ht; [|by apply IH].
  destruct (bool_decide _); [|by apply IH]. apply twp_ret, H. intros x [= <-]. by exists (u16 iter).
Qed.

(** The ports of a trunk leave it one after the other. *)
Lemma twp_release b id ms : forall t (Q : option Z -> trunk_spec -> Prop) w, trunks_inv b w -> tr w id = Some t -> NoDup ms ->
  (forall a, a ∈ ms -> bit_at (ports t) a = true) ->
  (forall t' w', trunks_inv b w' -> tr w' id = Some t' -> freed id w w' ->
    (forall a, bit_at (ports t') a = true -> bit_at (ports t) a = true /\ a ∉ ms) -> Q None w') ->
  twp (TT := TT) (TE := TE) (release_ports full id ms) Q w.
Proof.
  induction ms as [|a ms IH]; intros t Q w Hinv Ht Hnd Hms H; cbn [release_ports numbers].
  { apply twp_ret, (H t); [done|done|apply freed_refl|]. intros a Ha. split; [done|]. apply not_elem_of_nil. }
  apply NoDup_cons in Hnd as [Ha Hnd]. specialize (Hms a ltac:(by left)) as Hbit. pose proof Hinv as [Hc Hi _].
  destruct (c_member _ _ Hc _ _ _ Ht Hbit) as [[p Hp] E]. assert (in_trunk env t (to a) = true) as Hin by (unfold in_trunk; by rewrite E).
  apply twp_bind. eapply (twp_port_del_member b id (to a) p t); try done. rewrite E. intros t' w' Hinv' Ht' Hb Hk Hm Hp'.
  cbn [Z.eqb Pos.eqb orb]. apply (IH t'); try done.
  - intros c Hcin. rewrite Hb, (Hms c ltac:(by right)). destruct (Z.eqb_spec c a) as [->|]; done.
  - intros t'' w'' Hinv'' Ht'' Hf Hb''. apply (H t''); [done|done| |].
    + pose proof (tw_range _ _ _ (c_trunk _ _ Hc _ _ Ht)). apply (freed_trans id w w' w''); [lia| |done]. split; [done|]. intros n q Hq.
      destruct (decide (n = to a)) as [->|Hne]; [|exists q; rewrite Hm by done; by split; [|left]]. assert (q = p) as -> by congruence.
      eexists. split; [exact Hp'|right]. split_and!; try done. by apply (proj2 (Hi _ p Hp) id t Ht).
    + intros c Hcb. apply Hb'' in Hcb as [Hcb Hcn]. rewrite Hb in Hcb. apply andb_true_iff in Hcb as [Hca Hcb]. split; [done|].
      apply not_elem_of_cons. split; [|done]. intros ->. by rewrite Z.eqb_refl in Hca.
Qed.

Lemma members_nodup f lo hi : NoDup (members f lo hi).
Proof. unfold members. apply NoDup_filter, NoDup_seqZ. Qed.

(** The trunk is gone, and its ports are free. *)
Definition gone (b : bool) (id : Z) w w' : Prop := trunks_inv b w' /\ freed id w w' /\ tr w' id = None.

Lemma twp_destroy b id t (last : TM TT TE unit) w : trunks_inv b w -> tr w id = Some t ->
  (forall (Q : unit -> trunk_spec -> Prop) w', Q tt w' -> twp last Q w') ->
  twp (TT := TT) (TE := TE) (destroy full id t last) (fun r w' => r = 0 /\ gone b id w w') w.
Proof.
  intros Hinv Ht Hlast. pose proof (i_core _ _ Hinv) as Hc. unfold destroy. apply twp_bind. eapply (twp_iter env Henv); [exact Hc|exact Ht|].
  apply twp_bind. eapply (twp_release b id _ t); [done|done|apply members_nodup|by intros a [_ Ha]%elem_of_members|]. intros t' w' Hinv' Ht' Hf Hb.
  apply twp_bind, twp_tell, twp_bind, Hlast. eapply twp_delete_trunk; [exact Ht'|]. split; [done|]. split_and!.
  - eapply inv_delete_trunk; [done|exact Ht'|]. intros a. destruct (bit_at (ports t') a) eqn:Ha; [|done].
    destruct (Hb a Ha) as [H1 H2]. exfalso. apply H2, elem_of_members. split; [|done]. by eapply (bit_range env).
  - destruct Hf as [H1 H2]. split; cbn; [|done]. intros k Hk. rewrite <- H1 by done. by destruct (Z.eqb_spec k id).
  - cbn. by rewrite Z.eqb_refl.
Qed.

Lemma twp_destroy_node b id t w : trunks_inv b w -> tr w id = Some t ->
  twp (TT := TT) (TE := TE) (npd_trunk_destroy_node full id) (fun r w' => r = 0 /\ gone b id w w') w.
Proof.
  intros Hinv Ht. unfold npd_trunk_destroy_node. apply twp_bind, twp_tell, twp_bind, twp_find_trunk.
  rewrite (trunk_u16 env Henv _ _ _ (i_core _ _ Hinv) Ht), Ht. apply twp_destroy; [done|done|]. intros Q w' H. by apply twp_ret.
Qed.
Lemma twp_destroy_keeps b id w : trunks_inv b w -> 0 <= id < 2 ^ 16 ->
  twp (TT := TT) (TE := TE) (npd_trunk_destroy_node full id) (fun _ => trunks_inv b) w.
Proof.
  intros Hinv Hid. destruct (tr w id) as [t|] eqn:Ht.
  { eapply twp_mono; [by eapply twp_destroy_node|]. by intros r w' (_ & ? & _). }
  unfold npd_trunk_destroy_node. apply twp_bind, twp_tell, twp_bind, twp_find_trunk.
  replace (u16 id) with id by (symmetry; apply wrap_small; lia). rewrite Ht. by apply twp_ret.
Qed.
Lemma twp_destroy_by_name b nm w : trunks_inv b w -> twp (TT := TT) (TE := TE) (npd_trunk_destroy_node_by_name full nm) (fun _ => trunks_inv b) w.
Proof.
  intros Hinv. unfold npd_trunk_destroy_node_by_name, npd_find_trunk_by_name. apply twp_bind, twp_named. intros [t|] Hr; [|by apply twp_ret].
  destruct (Hr t eq_refl) as [id Ht]. pose proof (i_core _ _ Hinv) as Hc. rewrite (tw_id _ _ _ (c_trunk _ _ Hc _ _ Ht)), (trunk_u16 env Henv _ _ _ Hc Ht).
  eapply twp_mono; [apply twp_destroy; [done|done|]|]; [intros Q w' H; by apply twp_tell|]. by intros r w' (_ & ? & _).
Qed.

(** Trunks come, and are configured. *)
Lemma twp_check_exist id (Q : Z -> trunk_spec -> Prop) w : 0 <= id < 2 ^ 16 ->
  (forall r, (r = TRUNK_RETURN_CODE_BADPARAM \/ r = TRUNK_RETURN_CODE_TRUNK_EXISTS /\ is_Some (tr w id) \/
    r = TRUNK_RETURN_CODE_TRUNK_NOTEXISTS /\ tr w id = None /\ 0 < id < NPD_TRUNK_NUMBER_MAX env) -> Q r w) ->
  twp (TT := TT) (TE := TE) (npd_check_trunk_exist full id) Q w.
Proof.
  intros Hid H. unfold npd_check_trunk_exist. cbn [numbers]. destruct (Z.eqb_spec id 0), (Z.leb_spec (NPD_TRUNK_NUMBER_MAX env) id); cbn [orb];
    try (apply twp_ret, H; by left). apply twp_bind, twp_find_trunk, twp_ret. replace (u16 id) with id by (symmetry; apply wrap_small; lia).
  apply H. right. destruct (tr w id); [left; by split; [|eexists]|right]. split_and!; done || lia.
Qed.

Lemma twp_activate b id nm w : trunks_inv b w -> 0 <= id < 2 ^ 16 ->
  twp (TT := TT) (TE := TE) (npd_trunk_activate full id nm) (fun _ => trunks_inv b) w.
Proof.
  intros Hinv Hid. unfold npd_trunk_activate. apply twp_bind, twp_check_exist; [done|].
  intros r [-> |[[-> _]|(-> & Hn & Hr)]]; cbn [Z.eqb Pos.eqb TRUNK_RETURN_CODE_BADPARAM TRUNK_RETURN_CODE_TRUNK_EXISTS TRUNK_RETURN_CODE_TRUNK_NOTEXISTS].
  { by apply twp_ret. }
  { apply twp_bind, twp_find_trunk. by apply twp_ret. }
  unfold npd_find_trunk_by_name. apply twp_bind, twp_named. intros [t|] _; [by apply twp_ret|].
  apply twp_bind. apply twp_insert_trunk; cbn [trunk_id new_trunk]; [unfold u32_range; lia|done| |by apply twp_ret]. cbn [Z.eqb Pos.eqb].
  apply twp_bind. eapply (twp_update_trunk _ (new_trunk full id nm) id); [cbn; by rewrite Z.eqb_refl|done|]. cbn [Z.eqb negb].
  apply twp_bind, twp_tell, twp_ret. eapply inv_same; [by apply (inv_new_trunk b id nm)|cbn; by rewrite Z.eqb_refl|apply rewritten_set|done..].
Qed.

Lemma twp_load_balanc_set b id x w : trunks_inv b w -> 0 <= id < 2 ^ 16 ->
  twp (TT := TT) (TE := TE) (npd_trunk_load_balanc_set id x) (fun _ => trunks_inv b) w.
Proof.
  intros Hinv Hid. unfold npd_trunk_load_balanc_set. apply twp_bind, twp_find_trunk. replace (u16 id) with id by (symmetry; apply wrap_small; lia).
  destruct (tr w id) as [t|] eqn:Ht; [|by apply twp_ret]. apply twp_bind. eapply twp_update_trunk; [exact Ht|done|]. apply twp_ret.
  eapply inv_same; [done|exact Ht|apply rewritten_set|done..].
Qed.

(** A master that is set by hand is a port of the trunk; it may have no link. *)
Lemma twp_master_port_set id n w : trunks_inv false w -> 0 <= id < 2 ^ 16 -> port_ok env n ->
  twp (TT := TT) (TE := TE) (npd_trunk_master_port_set full id n) (fun _ => trunks_inv false) w.
Proof.
  intros Hinv Hid Hok. pose proof Hinv as [Hc Hi Hk]. unfold npd_trunk_master_port_set. apply twp_bind, twp_check_exist; [done|].
  assert (u16 id = id) as Hu by (apply wrap_small; lia).
  intros r [-> |[[-> [t Ht]]|(-> & Hn & Hr)]]; cbn; try (by apply twp_ret).
  unfold npd_trunk_check_port_membership. apply twp_bind, twp_bind, twp_find_trunk. rewrite Hu, Ht. eapply (twp_member env rest); [exact Hc|exact Ht|apply Hok|].
  destruct (in_trunk env t n) eqn:Hin; cbn [negb]; [|by apply twp_ret]. unfold npd_trunk_master_port_get. apply twp_bind, twp_bind, twp_find_trunk.
  rewrite Hu, Ht. apply twp_ret. destruct (_ =? _); [by apply twp_ret|]. unfold npd_trunk_master_port_config.
  apply twp_bind, twp_bind, twp_find_trunk. rewrite Hu, Ht. apply twp_bind. eapply (twp_member env rest); [exact Hc|exact Ht|apply Hok|]. rewrite Hin. cbn [negb].
  apply twp_bind. eapply twp_update_trunk; [exact Ht|done|]. apply twp_ret, twp_ret.
  eapply (inv_after false id t (with_master_port t n) w _ Hc Hi Ht); [done|]. split; [apply rewritten_set|done|exact (tw_state _ _ _ (c_trunk _ _ Hc _ _ Ht))|].
  destruct (Hk id) as (H1 & _). split_and!; [..|done]; unfold link_ok, master_ok; cbn; rewrite Z.eqb_refl.
  - intros x [= <-]. apply (H1 t Ht).
  - intros x m p [= <-] _ _. cbn. destruct (c_member _ _ Hc _ _ _ Ht Hin) as [[q Hq] _]. rewrite (proj1 (po_back _ _ Hok)) in Hq. by exists q.
Qed.

(** An event of a port that is in no trunk, and of one that is not known. *)
Lemma twp_event_outside n ev (Q : unit -> trunk_spec -> Prop) w : core env w -> (forall p, pt w n = Some p -> trunkid p = -1) -> Q tt w ->
  twp (TT := TT) (TE := TE) (npd_trunk_handle_port_event full n ev) Q w.
Proof.
  intros Hc Hn H. unfold npd_trunk_handle_port_event. destruct (negb _); [by apply twp_ret|].
  apply twp_bind, twp_find_port. destruct (pt w n) as [p|] eqn:Hp; [|by apply twp_ret]. rewrite (Hn p eq_refl).
  apply twp_bind, twp_find_trunk. change (u16 (u32 (-1))) with 65535. destruct (tr w 65535) as [t|] eqn:Ht; [|by apply twp_ret].
  pose proof (tw_range _ _ _ (c_trunk _ _ Hc _ _ Ht)). pose proof (eo_max _ Henv). lia.
Qed.

Lemma twp_event_delete b n (Q : unit -> trunk_spec -> Prop) w : trunks_inv b w ->
  (forall w', trunks_inv b w' -> (forall p, pt w' n = Some p -> trunkid p = -1) -> Q tt w') ->
  twp (TT := TT) (TE := TE) (npd_trunk_handle_port_event full n PORT_NOTIFIER_DELETE) Q w.
Proof.
  intros Hinv H. pose proof Hinv as [Hc Hi Hk]. destruct (pt w n) as [p|] eqn:Hp.
  2: { assert (forall p, pt w n = Some p -> trunkid p = -1) by (by rewrite Hp). apply twp_event_outside; auto. }
  destruct (Hi n p Hp) as [[Hid|[t Ht]] Hin].
  { assert (forall p, pt w n = Some p -> trunkid p = -1) by (rewrite Hp; congruence). apply twp_event_outside; auto. }
  unfold npd_trunk_handle_port_event. rewrite (po_type _ _ (c_port _ _ Hc _ _ Hp)), Z.eqb_refl. cbn [negb].
  apply twp_bind, twp_find_port. rewrite Hp. pose proof (tw_range _ _ _ (c_trunk _ _ Hc _ _ Ht)). pose proof (eo_max _ Henv).
  replace (u32 (trunkid p)) with (trunkid p) by (symmetry; apply wrap_small; lia).
  apply twp_bind, twp_find_trunk. rewrite (trunk_u16 env Henv _ _ _ Hc Ht), Ht. apply twp_bind.
  eapply twp_port_del_member; try done; [by apply (Hin _ t Ht)|]. intros t' w' Hinv' _ _ _ _ Hp'. apply twp_ret, H; [done|].
  intros q. rewrite Hp'. by intros [= <-].
Qed.

Lemma twp_delete_eth_port b n w : trunks_inv b w -> twp (TT := TT) (TE := TE) (npd_delete_eth_port full n) (fun _ => trunks_inv b) w.
Proof.
  intros Hinv. unfold npd_delete_eth_port. apply twp_bind, twp_tell, twp_bind. eapply twp_event_delete; [done|]. intros w1 Hinv1 Hid.
  apply twp_bind, twp_find_port. destruct (pt w1 n) as [p|] eqn:Hp; [|by apply twp_ret].
  apply twp_bind, twp_tell, twp_bind. eapply twp_delete_port; [exact Hp|]. apply twp_ret. eapply inv_delete_port; [done|done|auto].
Qed.

(** The record of the link is written, and its event follows; what the handler
    does for the trunk of the port is left to show. *)
Lemma twp_link_event b n p x ev (Q : unit -> trunk_spec -> Prop) w : trunks_inv b w -> pt w n = Some p -> (forall w', trunks_inv b w' -> Q tt w') ->
  (let w1 := set_eth n (Some (with_attr p x)) w in
   forall t, tr w (trunkid p) = Some t -> in_trunk env t n = true -> core env w1 -> pt w1 n = Some (with_attr p x) ->
     forall Q' : unit -> trunk_spec -> Prop, (forall t' w', settled env b (trunkid p) t t' w1 w' -> Q' tt w') ->
     twp (TT := TT) (TE := TE) (npd_trunk_handle_port_event full n ev) Q' w1) ->
  twp (TT := TT) (TE := TE) (npd_trunk_handle_port_event full n ev) Q (set_eth n (Some (with_attr p x)) w).
Proof.
  intros [Hc Hi Hk] Hp H Hev. set (p1 := with_attr p x) in *. set (w1 := set_eth n (Some p1) w) in *.
  assert (core env w1) as Hc1 by by eapply core_port. assert (ids_agree env w1) as Hi1 by by apply ids_attr.
  assert (pt w1 n = Some p1) as Hp1 by (cbn; by rewrite Z.eqb_refl).
  assert (forall k, k <> trunkid p -> trunk_inv env b k w1) as Hk1 by (intros k Hne; by eapply others_attr).
  destruct (Hi n p Hp) as [[Hid|[t Ht]] Hin].
  - apply twp_event_outside; [done|by rewrite Hp1; intros ? [= <-]|]. apply H. split; try done. intros k.
    destruct (decide (k = -1)) as [->|]; [|apply Hk1; congruence].
    assert (tr w1 (-1) = None) as Hn. { destruct (tr w1 (-1)) as [t|] eqn:Ht; [|done]. pose proof (tw_range _ _ _ (c_trunk _ _ Hc _ _ Ht)). lia. }
    unfold trunk_inv, link_ok, master_ok, live_ok. split_and!; intros *; rewrite Hn; done.
  - apply (Hev t); try done; [by apply (Hin _ t Ht)|]. intros t' w' Hse. by eapply H, inv_after.
Qed.

Lemma twp_link_up b n p x (Q : unit -> trunk_spec -> Prop) w : trunks_inv b w -> pt w n = Some p -> has_link (with_attr p x) = true ->
  (forall w', trunks_inv b w' -> Q tt w') ->
  twp (TT := TT) (TE := TE) (npd_trunk_handle_port_event full n PORT_NOTIFIER_LINKUP_E) Q (set_eth n (Some (with_attr p x)) w).
Proof.
  intros Hinv Hp Hl H. apply (twp_link_event b); [done..|]. intros w1 t Ht Hin Hc1 Hp1 Q' HQ.
  by eapply (twp_event_up env Henv rest (ro_beyond Hrest) b (trunkid p) t n (with_attr p x)).
Qed.
Lemma twp_link_down b n p x ev (Q : unit -> trunk_spec -> Prop) w : trunks_inv b w -> pt w n = Some p -> has_link (with_attr p x) = false ->
  ev = PORT_NOTIFIER_LINKDOWN_E \/ ev = PORT_NOTIFIER_REMOVE -> (forall w', trunks_inv b w' -> Q tt w') ->
  twp (TT := TT) (TE := TE) (npd_trunk_handle_port_event full n ev) Q (set_eth n (Some (with_attr p x)) w).
Proof.
  intros Hinv Hp Hl Hev H. apply (twp_link_event b); [done..|]. intros w1 t Ht Hin Hc1 Hp1 Q' HQ.
  destruct (i_trunk _ _ Hinv (trunkid p)) as (H1 & H2 & H3).
  eapply (twp_event_down env Henv rest (ro_beyond Hrest) b (trunkid p) t n (with_attr p x)); try done.
  - intros (m & q & Hq & Hqin & Hql). apply (H1 t Ht). exists m, q. split_and!; try done. cbn in Hq.
    destruct (Z.eqb_spec m n) as [->|]; [|done]. injection Hq as <-. congruence.
  - intros y m q Hy Hq Hqin. cbn in Hq, Hy. assert (exists q', pt w m = Some q') as [q' Hq'] by (destruct (Z.eqb_spec m n) as [->|]; eauto).
    destruct (H2 y m q' Hy Hq' Hqin) as (z & Hz & ?). cbn.
    destruct (master_port_index y =? n); [by exists (with_attr p x)|by exists z].
  - intros Hb Hu. destruct (H3 Hb t Ht Hu) as (q & Hq & ? & ?). destruct (decide (master_port_index t = n)) as [|Hne]; [by left|right].
    exists q. cbn. apply Z.eqb_neq in Hne. by rewrite Hne.
Qed.

Lemma twp_link_change b n ev w : trunks_inv b w ->
  ev = PORT_NOTIFIER_LINKUP_E \/ ev = PORT_NOTIFIER_LINKDOWN_E \/ ev = PORT_NOTIFIER_REMOVE ->
  twp (TT := TT) (TE := TE) (port_link_change full n ev) (fun _ => trunks_inv b) w.
Proof.
  intros Hinv Hev. unfold port_link_change. apply twp_bind, twp_find_port. destruct (pt w n) as [p|] eqn:Hp; [|by apply twp_ret].
  destruct (linked_attr (attr_bitmap p) ev) as [x|] eqn:Hx; [|by destruct_or! Hev; subst].
  apply twp_bind, twp_bind. eapply twp_update_port; [exact Hp|done|]. apply twp_ret, twp_bind, twp_tell.
  destruct Hev as [->|Hev]; [eapply twp_link_up|eapply twp_link_down]; try done; [by eapply linked_up|by eapply linked_down].
Qed.

(** Events that trunks do not care about. *)
Lemma twp_event_other n ev (Q : unit -> trunk_spec -> Prop) w : ev ∈ [PORT_NOTIFIER_CREATE; PORT_NOTIFIER_INSERT; PORT_NOTIFIER_L2CREATE] -> Q tt w ->
  twp (TT := TT) (TE := TE) (npd_trunk_handle_port_event full n ev) Q w.
Proof.
  intros Hev H. unfold npd_trunk_handle_port_event. destruct (negb _); [by apply twp_ret|].
  apply twp_bind, twp_find_port. destruct (pt w n); [|by apply twp_ret]. apply twp_bind, twp_find_trunk. destruct (tr w _); [|by apply twp_ret].
  set_unfold in Hev. destruct_or! Hev; subst; by apply twp_ret.
Qed.

(** What the chip says of the link is what the record says, or the port is in
    no trunk. *)
Definition link_known n w : Prop := forall p, pt w n = Some p -> trunkid p = -1 \/
  forall up, npd_get_port_link_status rest n = Some up -> has_link p = up.

Lemma twp_report_link b n p w : trunks_inv b w -> pt w n = Some p -> link_known n w ->
  twp (TT := TT) (TE := TE) (report_link full n) (fun _ => trunks_inv b) (set_eth n (Some p) w).
Proof.
  intros Hinv Hp Hknown. assert (with_attr p (attr_bitmap p) = p) as Heta by by destruct p.
  assert (trunks_inv b (set_eth n (Some p) w)) as Hinv1.
  { destruct Hinv as [Hc Hi Hk]. split; [by eapply core_port|rewrite <- Heta; by apply ids_attr|]. intros k. by eapply trunk_inv_port. }
  unfold report_link. cbn [around]. destruct (npd_get_port_link_status rest n) as [up|] eqn:Hs; [|by apply twp_ret].
  apply twp_bind, twp_tell. destruct (Hknown p Hp) as [Hid|Hup].
  { apply twp_event_outside; [apply Hinv1|cbn; rewrite Z.eqb_refl; by intros ? [= <-]|done]. }
  specialize (Hup up Hs). rewrite <- Heta. destruct up; [eapply twp_link_up|eapply twp_link_down]; try done; try (by rewrite Heta). by left.
Qed.

Lemma twp_insert_eth_port b n w : trunks_inv b w -> link_known n w ->
  twp (TT := TT) (TE := TE) (npd_insert_eth_port full n) (fun _ => trunks_inv b) w.
Proof.
  intros Hinv Hknown. unfold npd_insert_eth_port. apply twp_bind, twp_find_port. destruct (pt w n) as [p|] eqn:Hp; [|by apply twp_ret].
  apply twp_bind. eapply twp_update_port; [exact Hp|done|]. apply twp_bind, twp_tell, twp_bind, twp_event_other; [set_solver|]. by apply twp_report_link.
Qed.

(** A new port; one that the table has no room for is reported nevertheless. *)
Lemma twp_create_eth_port `{!NumberedPorts env TE} b n removed w : trunks_inv b w -> pt w n = None -> port_ok env n ->
  twp (TT := TT) (TE := TE) (npd_create_eth_port full n removed) (fun _ => trunks_inv b) w.
Proof.
  intros Hinv Hn Hok. unfold npd_create_eth_port. apply twp_bind.
  assert (forall w', trunks_inv b w' -> (forall p, pt w' n = Some p -> trunkid p = -1) ->
    twp (TT := TT) (TE := TE) (tell (Notify n PORT_NOTIFIER_CREATE);; npd_trunk_handle_port_event full n PORT_NOTIFIER_CREATE;;
      tell (Notify n PORT_NOTIFIER_L2CREATE);; npd_trunk_handle_port_event full n PORT_NOTIFIER_L2CREATE;;
      if removed then tell (Notify n PORT_NOTIFIER_REMOVE);; npd_trunk_handle_port_event full n PORT_NOTIFIER_REMOVE
      else if npd_startup_end rest then report_link full n else mret tt) (fun _ => trunks_inv b) w') as Hrest'.
  { intros w' Hinv' Hid. pose proof (i_core _ _ Hinv') as Hc. apply twp_bind, twp_tell, twp_bind, twp_event_outside; [done|done|].
    apply twp_bind, twp_tell, twp_bind, twp_event_outside; [done|done|].
    destruct removed; [apply twp_bind, twp_tell, twp_event_outside; done|]. destruct (npd_startup_end rest); [|by apply twp_ret].
    unfold report_link. destruct (npd_get_port_link_status _ n); [|by apply twp_ret]. apply twp_bind, twp_tell, twp_event_outside; done. }
  apply (twp_insert_port env); cbn [eth_port_ifindex new_port]; [by apply port_numbered|done| |]; apply Hrest'.
  - by apply inv_new_port.
  - cbn. rewrite Z.eqb_refl. by intros p [= <-].
  - done.
  - by rewrite Hn.
Qed.

End stores.
End operations.

(** ** Runs *)

Inductive trunk_op :=
  | TActivate (id : Z) (nm : cstr)
  | TDestroy (id : Z)
  | TDestroyNamed (nm : cstr)
  | TAdd (id n : Z)
  | TDel (id n : Z)
  | TMaster (id n : Z)
  | TBalance (id mode : Z)
  | TLink (n : Z) (event : port_event)
  | TCreate (n : Z) (removed : bool)
  | TDelete (n : Z)
  | TRemove (n : Z)
  | TInsert (n : Z).

(** Trunk numbers are [unsigned short]s. *)
Definition op_trunk (op : trunk_op) : Z :=
  match op with
  | TActivate id _ | TDestroy id | TAdd id _ | TDel id _ | TMaster id _ | TBalance id _ => id
  | _ => 0
  end.

Definition by_hand (op : trunk_op) : bool := match op with TMaster _ _ => true | _ => false end.

Section runs.
Context {TT TE : Type} `{!KeyStore TT trunk_s, !KeyStore TE eth_port_s}.
Implicit Types (s : trunk_state TT TE).

Definition trunk_exec (env : trunk_env) (op : trunk_op) : TM TT TE Z :=
  match op with
  | TActivate id nm => npd_trunk_activate env id nm
  | TDestroy id => npd_trunk_destroy_node env id
  | TDestroyNamed nm => npd_trunk_destroy_node_by_name env nm
  | TAdd id n => npd_trunk_port_add env id n
  | TDel id n => npd_trunk_port_del env id n
  | TMaster id n => npd_trunk_master_port_set env id n
  | TBalance id mode => npd_trunk_load_balanc_set id mode
  | TLink n event => port_link_change env n event;; mret 0
  | TCreate n removed => npd_create_eth_port env n removed;; mret 0
  | TDelete n => npd_delete_eth_port env n;; mret 0
  | TRemove n => npd_remove_eth_port env n;; mret 0
  | TInsert n => npd_insert_eth_port env n;; mret 0
  end.

Definition trunk_of s (id : Z) : option trunk_s := ks_search (g_trunks s) (trunk_key id).
Definition port_of s (n : Z) : option eth_port_s := ks_search (g_eth_ports s) (eth_port_key n).

(** A port that is created is new; a port that a master is set to is one of
    the chassis; a port that is put back has the link that its record says, or
    is in no trunk. *)
Definition op_possible (env : trunk_env) s (op : trunk_op) : Prop :=
  0 <= op_trunk op < 2 ^ 16 /\
  match op with
  | TLink _ event => event = PORT_NOTIFIER_LINKUP_E \/ event = PORT_NOTIFIER_LINKDOWN_E \/ event = PORT_NOTIFIER_REMOVE
  | TMaster _ n => port_ok env n
  | TCreate n _ => port_ok env n /\ port_of s n = None
  | TInsert n => forall p, port_of s n = Some p -> trunkid p = -1 \/ forall up, npd_get_port_link_status env n = Some up -> has_link p = up
  | _ => True
  end.

(** From empty tables; what is around may change between operations.  The mark
    says that no master was set by hand. *)
Inductive trunk_run (nb : port_numbers) : bool -> trunk_state TT TE -> Prop :=
  | run_starts s : ks_ok (g_trunks s) -> ks_ok (g_eth_ports s) -> (forall id, trunk_of s id = None) -> (forall n, port_of s n = None) ->
      trunk_run nb true s
  | run_does b (env : trunk_env) op s r s' : trunk_run nb b s -> numbers env = nb -> rest_ok env (around env) -> op_possible env s op ->
      trunk_exec env op s = Some (r, s') -> trunk_run nb (b && negb (by_hand op)) s'.

(** What the tables say then. *)
Definition tables_agree (nb : port_numbers) (b : bool) s : Prop :=
  (forall n p id t, port_of s n = Some p -> trunk_of s id = Some t -> (in_trunk nb t n = true <-> trunkid p = id)) /\
  (forall n p, port_of s n = Some p -> trunkid p = -1 \/ is_Some (trunk_of s (trunkid p))) /\
  (forall id t a, trunk_of s id = Some t -> bit_at (ports t) a = true -> is_Some (port_of s (eth_port_array_index_to_ifindex nb a))) /\
  (forall id t, trunk_of s id = Some t ->
    (linkstate t = TRUNK_STATE_UP_E <-> exists n p, port_of s n = Some p /\ trunkid p = id /\ has_link p = true)) /\
  (forall id t n p, trunk_of s id = Some t -> port_of s n = Some p -> trunkid p = id ->
    exists q, port_of s (master_port_index t) = Some q /\ trunkid q = id) /\
  (b = true -> forall id t, trunk_of s id = Some t -> linkstate t = TRUNK_STATE_UP_E ->
    exists q, port_of s (master_port_index t) = Some q /\ trunkid q = id /\ has_link q = true).

Context `{!TrunkStores TT TE}.

Lemma op_ok (env : trunk_env) `{!NumberedPorts env TE} b op s w : env_ok env -> rest_ok env (around env) -> tholds s w -> op_possible env s op -> trunks_inv env b w ->
  twp (trunk_exec env op) (fun _ => trunks_inv env (b && negb (by_hand op))) w.
Proof.
  intros Henv Hrest Hs [Hid Hp] Hinv. destruct env as [nb rest]. cbn [numbers around] in *.
  assert (forall A (m : TM TT TE A), twp m (fun _ => trunks_inv nb b) w -> twp (m;; mret 0) (fun _ => trunks_inv nb b) w) as Hunit.
  { intros A m H. apply twp_bind. eapply twp_mono; [exact H|]. intros. by apply twp_ret. }
  destruct op; cbn [trunk_exec by_hand negb op_trunk] in *; rewrite ?andb_true_r, ?andb_false_r.
  - by apply twp_activate.
  - by apply twp_destroy_keeps.
  - by apply twp_destroy_by_name.
  - by apply (twp_port_add nb Henv rest Hrest b).
  - by apply (twp_port_del nb Henv rest Hrest b).
  - apply twp_master_port_set; try done. destruct Hinv as [Hc Hi Hk]. split; try done. intros k. by destruct (Hk k) as (? & ? & _).
  - by apply (twp_load_balanc_set nb).
  - by apply Hunit, twp_link_change.
  - destruct Hp as [Hok Hn]. unfold port_of in Hn. rewrite (th_pt _ _ Hs) in Hn. by apply Hunit, twp_create_eth_port.
  - by apply Hunit, twp_delete_eth_port.
  - unfold npd_remove_eth_port. apply Hunit, twp_link_change; try done. by right; right.
  - apply Hunit, twp_insert_eth_port; try done. intros p Hpt. apply (Hp p). unfold port_of. by rewrite (th_pt _ _ Hs).
Qed.

Lemma run_holds nb `{!NumberedPorts nb TE} b s : env_ok nb -> trunk_run nb b s -> exists w, tholds s w /\ trunks_inv nb b w.
Proof.
  intros Henv. induction 1 as [s H1 H2 H3 H4|b env op s r s' _ (w & Hs & Hinv) <- Hrest Hp E].
  - exists (TSpec (fun _ => None) (fun _ => None)). split; [by split|]. split; [split; done|done|]. intros id. by split_and!; intros; intros ?.
  - destruct (op_ok env b op s w Henv Hrest Hs Hp Hinv s Hs) as (r' & s1 & w1 & E1 & Hs1 & Hinv1). exists w1.
    rewrite E in E1. by injection E1 as <- <-.
Qed.

Lemma holds_agree nb b s w : tholds s w -> trunks_inv nb b w -> tables_agree nb b s.
Proof.
  intros Hs [Hc Hi Hk]. assert (forall id, trunk_of s id = tr w id) as Et by apply (th_tr _ _ Hs).
  assert (forall n, port_of s n = pt w n) as Ep by apply (th_pt _ _ Hs). unfold tables_agree. setoid_rewrite Et. setoid_rewrite Ep.
  assert (forall id t n p, tr w id = Some t -> pt w n = Some p -> (in_trunk nb t n = true <-> trunkid p = id)) as Hin
    by (intros id t n p Ht Hp; by apply (Hi n p Hp)).
  split_and!.
  - intros n p id t Hp Ht. by apply Hin.
  - intros n p Hp. apply (Hi n p Hp).
  - intros id t a Ht Ha. apply (c_member _ _ Hc _ _ _ Ht Ha).
  - intros id t Ht. destruct (Hk id) as (H & _). rewrite (H t Ht). split; intros (n & p & Hp & Hx & Hl); exists n, p; split_and!; try done; by apply (Hin id t n p Ht Hp).
  - intros id t n p Ht Hp Hx. destruct (Hk id) as (_ & H & _). destruct (H t n p Ht Hp) as (q & Hq & Hqin); [by apply (Hin id t n p)|].
    exists q. split; [done|]. by apply (Hin id t _ q Ht Hq).
  - intros Hb id t Ht Hu. destruct (Hk id) as (_ & _ & H). destruct (H Hb t Ht Hu) as (q & Hq & Hqin & Hl). exists q. split_and!; try done.
    by apply (Hin id t _ q Ht Hq).
Qed.

End runs.

(** C13: Start from empty tables, with port and trunk numbers as the boards have
    them ([env_ok], [NumberedPorts]), and run any sequence of operations that
    create, destroy, fill and empty trunks, choose a master or a balance, and
    create, delete, insert and remove ports or change their links, under these
    conditions ([op_possible], [rest_ok]): the numbers of trunks are 16-bit
    ones; a created port is one of the chassis and not there yet; a master is
    set to a port of the chassis; an inserted port is in no trunk or its record
    already says the link that the chip reports (the insertion does not write
    the record: [link_of_inserted_port_not_recorded]); there is
    memory where npd looks half a gigabyte beyond the array of a trunk that
    becomes empty ([emptying_trunk_reads_beyond]); and the pointer that is
    searched for in place of a port is the number of none.  Then every operation returns and the tables
    agree: the array of a trunk has exactly the ports whose records name the
    trunk, and those exist; a trunk is up exactly when one of its ports has
    link by its record; the master of a trunk that has ports is one of them,
    and has link while the trunk is up unless a master was set by hand. *)
Theorem trunks_agree_with_ports {TT TE} `{!KeyStore TT trunk_s, !KeyStore TE eth_port_s, !TrunkStores TT TE} nb `{!NumberedPorts nb TE} b (s : trunk_state TT TE) :
  env_ok nb -> trunk_run nb b s ->
  tables_agree nb b s /\
  forall (env : trunk_env) op, numbers env = nb -> rest_ok env (around env) -> op_possible env s op -> is_Some (trunk_exec env op s).
Proof.
  intros Henv Hr. destruct (run_holds nb b s Henv Hr) as (w & Hs & Hinv). split; [by eapply holds_agree|].
  intros env op <- Hrest Hp. destruct (op_ok env b op s w Henv Hrest Hs Hp Hinv s Hs) as (r & s' & _ & E & _). by exists (r, s').
Qed.

(** C15: Through every run ([trunk_run]: operations that are possible, from empty
    tables, on numbers as the boards have them) the records have the shape that the rest of npd takes for granted: a trunk
    is filed under its number, which lies above 0 and below
    [NPD_TRUNK_NUMBER_MAX], its interface index is one of a trunk and gives that
    number back, its array has the declared length in 32-bit words with bits
    for ports only, and its link state is one of the two; a port is filed under
    its index, which is one of an Ethernet port, and says a trunk number or
    -1. *)
Theorem trunk_records_well_formed {TT TE} `{!KeyStore TT trunk_s, !KeyStore TE eth_port_s, !TrunkStores TT TE} nb `{!NumberedPorts nb TE} b (s : trunk_state TT TE) :
  env_ok nb -> trunk_run nb b s ->
  (forall id t, trunk_of s id = Some t ->
    trunk_id t = id /\ 0 < id < NPD_TRUNK_NUMBER_MAX nb /\
    npd_netif_type_get (g_index t) = NPD_NETIF_TRUNK_TYPE /\ npd_netif_trunk_get_tid (g_index t) = id /\
    length (ports t) = pbmp_words nb /\ Forall u32_range (ports t) /\
    (forall a, bit_at (ports t) a = true -> npd_netif_type_get (eth_port_array_index_to_ifindex nb a) = NPD_NETIF_ETH_TYPE) /\
    (linkstate t = TRUNK_STATE_DOWN_E \/ linkstate t = TRUNK_STATE_UP_E)) /\
  (forall n p, port_of s n = Some p ->
    eth_port_ifindex p = n /\ npd_netif_type_get n = NPD_NETIF_ETH_TYPE /\ (trunkid p = -1 \/ 0 < trunkid p < NPD_TRUNK_NUMBER_MAX nb)).
Proof.
  intros Henv Hr. destruct (run_holds nb b s Henv Hr) as (w & Hs & [Hc Hi _]). unfold trunk_of, port_of. split.
  - intros id t. rewrite (th_tr _ _ Hs). intros Ht. destruct (c_trunk _ _ Hc _ _ Ht) as [H1 H2 H3 [H4 _] H5 H6].
    destruct (trunk_index_facts nb Henv id t w Hc Ht) as [H7 H8]. rewrite H3. unfold zlen, nbits in H5. split_and!; try done; try lia.
    intros a Ha. destruct (c_member _ _ Hc _ _ _ Ht Ha) as [[q Hq] _]. apply (c_port _ _ Hc _ _ Hq).
  - intros n p. rewrite (th_pt _ _ Hs). intros Hp. split_and!; [by eapply eth_port_at|apply (c_port _ _ Hc _ _ Hp)|].
    destruct (proj1 (Hi n p Hp)) as [|[t Ht]]; [by left|right]. apply (c_trunk _ _ Hc _ _ Ht).
Qed.

(** C14: In a state reached by a run ([trunk_run]), and where there is memory far
    beyond the array of an emptied trunk ([rest_ok]), destroying a trunk that exists returns 0 and removes exactly it: no other
    trunk is written, every port that was in it says that it is in none, and
    all other ports, and the links of all ports, are as they were. *)
Theorem trunk_destroyed {TT TE} `{!KeyStore TT trunk_s, !KeyStore TE eth_port_s, !TrunkStores TT TE} (env : trunk_env) `{!NumberedPorts env TE} b (s : trunk_state TT TE) id t :
  env_ok env -> rest_ok env (around env) -> trunk_run env b s -> trunk_of s id = Some t ->
  exists s', npd_trunk_destroy_node env id s = Some (0, s') /\ trunk_of s' id = None /\ (forall k, k <> id -> trunk_of s' k = trunk_of s k) /\
    forall n p, port_of s n = Some p -> exists p', port_of s' n = Some p' /\ attr_bitmap p' = attr_bitmap p /\
      if trunkid p =? id then trunkid p' = -1 else p' = p.
Proof.
  intros Henv Hrest Hr Ht. destruct (run_holds env b s Henv Hr) as (w & Hs & Hinv). destruct env as [nb rest]. cbn [numbers around] in *.
  assert (tr w id = Some t) as Ht' by (rewrite <- Ht; symmetry; apply (th_tr _ _ Hs)).
  destruct (twp_destroy_node nb Henv rest Hrest b id t w Hinv Ht' s Hs) as (r & s' & w' & E & Hs' & -> & [_ Hi _] & [F1 F2] & Hn).
  exists s'. split; [done|]. unfold trunk_of, port_of. rewrite (th_tr _ _ Hs'). split; [done|]. split.
  - intros k Hk. rewrite (th_tr _ _ Hs'), (th_tr _ _ Hs). by apply F1.
  - intros n p. rewrite (th_pt _ _ Hs). intros Hp. destruct (F2 n p Hp) as (p' & Hp' & Hc). exists p'. rewrite (th_pt _ _ Hs').
    split; [done|]. pose proof (tw_range _ _ _ (c_trunk _ _ (i_core _ _ _ Hinv) _ _ Ht')) as Hid. destruct Hc as [->|(H1 & H2 & H3)].
    + split; [done|]. destruct (Z.eqb_spec (trunkid p) id) as [He|]; [|done]. destruct (Hi n p Hp') as [[?|[x Hx]] _]; [done|].
      rewrite He, Hn in Hx. done.
    + split; [done|]. by rewrite H1, Z.eqb_refl.
Qed.

(** ** The tables of npd *)

Section tables.
Context (nb : port_numbers) (max_ports : Z) (tops : db_ops trunk_s) (pops : db_ops eth_port_s).
#[local] Instance local_trunks : KeyStore (db_table_t trunk_s) trunk_s := trunks_store nb tops.
#[local] Instance local_ports : KeyStore (db_table_t eth_port_s) eth_port_s := eth_ports_store nb max_ports pops.
Context (Htm : 0 < NPD_TRUNK_NUMBER_MAX nb < 2 ^ 32) (Hpm : 0 < max_ports < 2 ^ 32).

(** Trunks and ports have numbers of their own. *)
Lemma trunk_index_inj m n : u32_range m -> u32_range n -> trunk_index m = trunk_index n -> m = n.
Proof. intros Hm Hn. unfold trunk_index. by rewrite !u32_small. Qed.
Lemma port_index_inj m n : numbered_port nb m -> numbered_port nb n -> npd_port_db_index nb m = npd_port_db_index nb n -> m = n.
Proof. intros [Hm Em] [Hn En]. unfold npd_port_db_index. rewrite !u32_small by done. congruence. Qed.
Lemma trunk_index_pos n : 0 <= trunk_index n.
Proof. apply u32_in_range. Qed.
Lemma port_index_pos n : 0 <= npd_port_db_index nb n.
Proof. apply u32_in_range. Qed.

Lemma npd_stores : TrunkStores (db_table_t trunk_s) (db_table_t eth_port_s).
Proof.
  split; try done.
  - apply (number_seq_store trunk_index u32_range _ trunk_index_pos trunk_index_inj (proj1 Htm) tops (trunk_key 0) trunk_id).
  - apply (number_seq_store (npd_port_db_index nb) (numbered_port nb) _ port_index_pos port_index_inj (proj1 Hpm) pops (eth_port_key 0) eth_port_ifindex).
Qed.
Lemma npd_numbered : NumberedPorts nb (db_table_t eth_port_s).
Proof. by intros p. Qed.

Lemma npd_init_runs trunk_size port_size : 0 < trunk_size <= MAX_SEND_SIZE - SYNC_HEADER_SIZE -> 0 < port_size <= MAX_SEND_SIZE - SYNC_HEADER_SIZE ->
  trunk_run nb true (npd_init_trunks nb max_ports trunk_size port_size).
Proof.
  intros H1 H2. destruct (number_seq_created trunk_index u32_range _ trunk_index_pos (proj1 Htm) (trunk_key 0) trunk_id
    (NPD_TRUNK_NUMBER_MAX nb) trunk_size 1) as [A1 A2]; [lia|done|].
  destruct (number_seq_created (npd_port_db_index nb) (numbered_port nb) _ port_index_pos (proj1 Hpm) (eth_port_key 0) eth_port_ifindex
    max_ports port_size 1) as [B1 B2]; [lia|done|].
  apply run_starts; [done|done|intros n; apply A2|intros n; apply B2].
Qed.

End tables.

(** *** The numbers of the boards *)

(** On the four boards the numbers are as the trunks rely on, and every port
    that a board has is a port. *)
Lemma board_env_ok b box max_trunk : b ∈ boards -> max_trunk <= 4096 -> env_ok (npd_numbers b box max_trunk).
Proof.
  intros Hb Hm. split; [|done|done]. unfold nbits. cbn [pbmp_words npd_numbers]. revert b Hb. apply list.Forall_forall. repeat constructor.
Qed.

Lemma board_port_ok b box max_trunk n : b ∈ boards -> eth_canonical b n -> port_ok (npd_numbers b box max_trunk) n.
Proof.
  intros Hb Hn. destruct (eth_canonical_roundtrip b n Hb Hn) as [Hr He]. pose proof Hn as [Hrange Ht _ Hs _ _].
  assert (MAX_ETHPORT_PER_SYSTEM b <= 4096 /\ MAX_ETHPORT_PER_SYSTEM b <= nbits (npd_numbers b box max_trunk) /\ MAX_CHASSIS_SLOT_COUNT b <= 16) as (M1 & M2 & M3).
  { clear -Hb. revert b Hb. apply list.Forall_forall. repeat (constructor; [vm_compute; intuition congruence|]). constructor. }
  assert (npd_netif_type_get n = NPD_NETIF_ETH_TYPE) as Ht' by exact Ht.
  assert (u32 (NetifIndex.netif_array_index_to_ifindex b 0 (NetifIndex.netif_array_index_from_ifindex b n)) = n) as Hback.
  { unfold NetifIndex.netif_array_index_to_ifindex. destruct (Z.ltb_spec (NetifIndex.netif_array_index_from_ifindex b n) (MAX_ETHPORT_PER_SYSTEM b)); [|lia].
    rewrite He. by apply u32_small. }
  split; [done| |done| |].
  - cbn. unfold NetifIndex.eth_port_array_index_from_ifindex. lia.
  - cbn. unfold npd_netif_eth_get_slot. pose proof (get_range NetifIndex.eth_slot n eq_refl). pose proof (get_range eth_sub_slot n eq_refl).
    cbn in *. destruct (_ =? 1); lia.
  - intros ->. done.
Qed.

(** ** Witness: a trunk of two ports *)

Definition demo_port_a : Z := npd_netif_eth_index 0 0 0 3.
Definition demo_port_b : Z := npd_netif_eth_index 0 0 0 4.

Definition demo_numbers : port_numbers := npd_numbers memory_short 0 8.
Definition demo_around (link : bool) (bit : option bool) : trunk_around :=
  {| MODULE_TYPE_ON_SLOT_INDEX := fun _ => 1; SYS_MODULE_SDK_DIFFERENT := fun x y => negb (x =? y); SYS_MODULE_SUPPORT_CROSSBOARD_TRUNK := fun _ => true;
     g_loadBalanc := 0; new_switch_port := fun n => Z.shiftr n 14; stray_pointer := 0; beyond_array := bit;
     ethport_attr_default := fun _ => PortDefaults 1 2 1 0 0 0 0; npd_startup_end := true; npd_get_port_link_status := fun _ => Some link |}.
Definition demo_trunk_env (link : bool) : trunk_env := TrunkEnv demo_numbers (demo_around link (Some false)).
Definition plain_ops {D} `{!EqDecision D} (zero : D) : db_ops D :=
  {| handle_update := None; handle_insert := None; handle_delete := None; app_handle_update := None; app_handle_delete := None;
     platform_db_sync := Some (fun _ => 0); platform_relay_flag := false; same_sync_part := fun x y => bool_decide (x = y);
     keep_local := fun new _ => new; entry_hton := fun d => d; entry_ntoh := fun d => d; zero_entry := zero; have_sync := true |}.

#[local] Instance demo_trunk_table : KeyStore (db_table_t trunk_s) trunk_s := trunks_store demo_numbers (plain_ops (trunk_key 0)).
#[local] Instance demo_port_table : KeyStore (db_table_t eth_port_s) eth_port_s := eth_ports_store demo_numbers 64 (plain_ops (eth_port_key 0)).
Definition demo_trunk_state : trunk_state (db_table_t trunk_s) (db_table_t eth_port_s) := npd_init_trunks demo_numbers 64 100 100.

Lemma demo_trunk_stores : TrunkStores (db_table_t trunk_s) (db_table_t eth_port_s).
Proof. by apply (npd_stores demo_numbers 64). Qed.
#[local] Existing Instance demo_trunk_stores.
#[local] Instance demo_numbered : NumberedPorts demo_numbers (db_table_t eth_port_s).
Proof. apply npd_numbered. Qed.
Lemma demo_trunks_start : trunk_run demo_numbers true demo_trunk_state.
Proof. by apply npd_init_runs. Qed.
Lemma demo_numbers_ok : env_ok demo_numbers.
Proof. apply board_env_ok; [by left|done]. Qed.
Lemma demo_port_ok n : n = demo_port_a \/ n = demo_port_b -> port_ok demo_numbers n.
Proof.
  intros Hn. apply board_port_ok; [by left|].
  destruct Hn as [-> | ->]; (split; try (vm_compute; (reflexivity || (split; congruence))); left; vm_compute; (split; congruence)).
Qed.
Lemma demo_rest_ok link : rest_ok demo_numbers (demo_around link (Some false)).
Proof. split; [|by eexists]. intros n [_ _ _ _ Hn] He. apply Hn. symmetry. exact He. Qed.

(** Operations in a row, where they are possible. *)
Fixpoint demo_ops (ops : list trunk_op) (s : trunk_state (db_table_t trunk_s) (db_table_t eth_port_s)) :=
  match ops with
  | [] => Some s
  | op :: ops =>
      if match op with
         | TCreate n _ => ((n =? demo_port_a) || (n =? demo_port_b)) && bool_decide (port_of s n = None)
         | TMaster _ _ | TInsert _ => false
         | TLink _ ev => match ev with PORT_NOTIFIER_LINKUP_E | PORT_NOTIFIER_LINKDOWN_E => true | _ => false end
         | _ => (0 <=? op_trunk op) && (op_trunk op <? 2 ^ 16)
         end
      then match trunk_exec (demo_trunk_env true) op s with Some (_, s) => demo_ops ops s | None => None end
      else None
  end.
Lemma demo_ops_run ops : forall s s', trunk_run demo_numbers true s -> demo_ops ops s = Some s' -> trunk_run demo_numbers true s'.
Proof.
  induction ops as [|op ops IH]; intros s s' Hr; cbn [demo_ops]; [by intros [= <-]|].
  destruct (match op with TCreate n _ => _ | _ => _ end) eqn:Hc; [|done]. destruct (trunk_exec (demo_trunk_env true) op s) as [[r s1]|] eqn:E; [|done].
  apply IH. assert (by_hand op = false) as Hb by by destruct op. replace true with (true && negb (by_hand op)) at 1 by (by rewrite Hb).
  eapply (run_does demo_numbers true (demo_trunk_env true)); [exact Hr|done| |split|exact E].
  - apply demo_rest_ok.
  - destruct op; cbn in *; lia.
  - destruct op as [| | | | | | |? []| | | |]; try done; auto. apply andb_true_iff in Hc as [Hn Hc]. apply bool_decide_eq_true in Hc. split; [|done].
    apply demo_port_ok. apply orb_true_iff in Hn as [?%Z.eqb_eq|?%Z.eqb_eq]; auto.
Qed.

Definition two_ports : list trunk_op :=
  [TCreate demo_port_a false; TCreate demo_port_b false; TActivate 1 ["l"%char; "a"%char; "g"%char]; TAdd 1 demo_port_a; TAdd 1 demo_port_b;
   TLink demo_port_b PORT_NOTIFIER_LINKUP_E].

(** What a state says of a trunk and of its ports. *)
Definition trunk_seen (id : Z) (s : trunk_state (db_table_t trunk_s) (db_table_t eth_port_s)) : option (Z * Z * list Z) :=
  (fun t => (linkstate t, master_port_index t, members (bit_at (ports t)) 0 96)) <$> trunk_of s id.
Definition port_seen (n : Z) (s : trunk_state (db_table_t trunk_s) (db_table_t eth_port_s)) : option (Z * bool) :=
  (fun p => (trunkid p, has_link p)) <$> port_of s n.

Lemma two_ports_seen : exists s, demo_ops two_ports demo_trunk_state = Some s /\
  trunk_seen 1 s = Some (TRUNK_STATE_UP_E, demo_port_b, [3; 4]) /\ port_seen demo_port_a s = Some (1, false).
Proof.
  assert ((fun s => (trunk_seen 1 s, port_seen demo_port_a s)) <$> demo_ops two_ports demo_trunk_state =
    Some (Some (TRUNK_STATE_UP_E, demo_port_b, [3; 4]), Some (1, false))) as E by (vm_compute; reflexivity).
  destruct (demo_ops two_ports demo_trunk_state) as [s|]; [|discriminate E]. exists s. split; [done|].
  cbn [fmap option_fmap option_map] in E. apply (inj Some), pair_eq in E as [E1 E2]. done.
Qed.

(** The two ports of the trunk, the second with link, and master. *)
Lemma trunks_agree_with_ports_witness :
  exists s, trunk_run demo_numbers true s /\ trunk_seen 1 s = Some (TRUNK_STATE_UP_E, demo_port_b, [3; 4]) /\
    (exists q, port_of s demo_port_b = Some q /\ trunkid q = 1 /\ has_link q = true) /\ is_Some (trunk_exec (demo_trunk_env true) (TDestroy 1) s).
Proof.
  destruct two_ports_seen as (s & E & H1 & _). pose proof (demo_ops_run _ _ _ demo_trunks_start E) as Hr. exists s.
  destruct (trunks_agree_with_ports demo_numbers true s demo_numbers_ok Hr) as [(_ & _ & _ & _ & _ & H) Hexec]. split_and!; [exact Hr|exact H1| |].
  - unfold trunk_seen in H1. destruct (trunk_of s 1) as [t|] eqn:Ht; [|discriminate H1]. cbn [fmap option_fmap option_map] in H1. injection H1 as Hl Hm _.
    rewrite <- Hm. apply (H eq_refl 1 t Ht). exact Hl.
  - apply Hexec; [reflexivity|apply demo_rest_ok|split; [split; [cbn; lia|reflexivity]|exact I]].
Defined.

(** A board is pulled out and put back while its port is in a trunk: the link
    that the chip reports is told to the trunk and not recorded for the port,
    so that the trunk is up although none of its ports has link. *)
Theorem link_of_inserted_port_not_recorded :
  exists s s', trunk_run demo_numbers true s /\ trunk_exec (demo_trunk_env true) (TInsert demo_port_b) s = Some (0, s') /\
    trunk_seen 1 s' = Some (TRUNK_STATE_UP_E, demo_port_a, [3; 4]) /\ port_seen demo_port_a s' = Some (1, false) /\ port_seen demo_port_b s' = Some (1, false).
Proof.
  assert ((fun s => from_option (fun x => Some (x.1, trunk_seen 1 x.2, port_seen demo_port_a x.2, port_seen demo_port_b x.2)) None
       (trunk_exec (demo_trunk_env true) (TInsert demo_port_b) s)) <$> demo_ops (two_ports ++ [TRemove demo_port_b]) demo_trunk_state =
    Some (Some (0, Some (TRUNK_STATE_UP_E, demo_port_a, [3; 4]), Some (1, false), Some (1, false)))) as E by (vm_compute; reflexivity).
  destruct (demo_ops (two_ports ++ [TRemove demo_port_b]) demo_trunk_state) as [s|] eqn:Hs; [|discriminate E].
  cbn [fmap option_fmap option_map] in E. apply (inj Some) in E.
  destruct (trunk_exec (demo_trunk_env true) (TInsert demo_port_b) s) as [[r s']|] eqn:Hx; [|discriminate E].
  cbn [from_option fst snd] in E. apply (inj Some), pair_eq in E as [E E3]. apply pair_eq in E as [E E2]. apply pair_eq in E as [-> E1].
  exists s, s'. split; [exact (demo_ops_run _ _ _ demo_trunks_start Hs)|]. split; [exact Hx|]. split; [exact E1|]. split; [exact E2|exact E3].
Qed.

(** A trunk that its last port has left keeps that port as its master. *)
Theorem empty_trunk_keeps_master :
  exists s, trunk_run demo_numbers true s /\ trunk_seen 1 s = Some (TRUNK_STATE_DOWN_E, demo_port_b, []) /\ port_seen demo_port_b s = Some (-1, true).
Proof.
  assert ((fun s => (trunk_seen 1 s, port_seen demo_port_b s)) <$> demo_ops (two_ports ++ [TDel 1 demo_port_a; TDel 1 demo_port_b]) demo_trunk_state =
    Some (Some (TRUNK_STATE_DOWN_E, demo_port_b, []), Some (-1, true))) as E by (vm_compute; reflexivity).
  destruct (demo_ops (two_ports ++ [TDel 1 demo_port_a; TDel 1 demo_port_b]) demo_trunk_state) as [s|] eqn:Hs; [|discriminate E].
  cbn [fmap option_fmap option_map] in E. apply (inj Some), pair_eq in E as [E1 E2]. exists s.
  split; [exact (demo_ops_run _ _ _ demo_trunks_start Hs)|]. split; [exact E1|exact E2].
Qed.

(** Where there is no memory half a gigabyte beyond the array, npd crashes when
    the last port leaves a trunk, and when a trunk with ports is destroyed: the
    master of the empty trunk is 0, which is no port. *)
Theorem emptying_trunk_reads_beyond :
  exists s, trunk_run demo_numbers true s /\ trunk_seen 1 s = Some (TRUNK_STATE_UP_E, demo_port_b, [4]) /\
    trunk_exec (TrunkEnv demo_numbers (demo_around true None)) (TDel 1 demo_port_b) s = None /\
    trunk_exec (TrunkEnv demo_numbers (demo_around true None)) (TDestroy 1) s = None.
Proof.
  assert ((fun s => (trunk_seen 1 s, bool_decide (trunk_exec (TrunkEnv demo_numbers (demo_around true None)) (TDel 1 demo_port_b) s = None),
      bool_decide (trunk_exec (TrunkEnv demo_numbers (demo_around true None)) (TDestroy 1) s = None)))
      <$> demo_ops (two_ports ++ [TDel 1 demo_port_a]) demo_trunk_state = Some (Some (TRUNK_STATE_UP_E, demo_port_b, [4]), true, true)) as E by (vm_compute; reflexivity).
  destruct (demo_ops (two_ports ++ [TDel 1 demo_port_a]) demo_trunk_state) as [s|] eqn:Hs; [|discriminate E].
  cbn [fmap option_fmap option_map] in E. apply (inj Some), pair_eq in E as [E E3]. apply pair_eq in E as [E1 E2]. exists s.
  split; [exact (demo_ops_run _ _ _ demo_trunks_start Hs)|]. split; [exact E1|]. split; [exact (bool_decide_eq_true_1 _ E2)|exact (bool_decide_eq_true_1 _ E3)].
Qed.

(** Speeds count by their codes: of two ports with link, a port of 2.5G comes
    before one of 10G or 12G. *)
Theorem slower_port_preferred place place' attr attr' : 0 <= place < 4096 -> 0 <= place' < 4096 ->
  Z.testbit attr 1 = Z.testbit attr' 1 -> Z.land attr ETH_ATTR_DUPLEX = Z.land attr' ETH_ATTR_DUPLEX ->
  Z.shiftr (Z.land attr ETH_ATTR_SPEED_MASK) ETH_SPEED_BIT = 5 -> Z.shiftr (Z.land attr' ETH_ATTR_SPEED_MASK) ETH_SPEED_BIT ∈ [3; 4] ->
  check_priority attr' place' < check_priority attr place.
Proof.
  intros Hp Hp' Hl Hd Hs Hs'. unfold check_priority. rewrite Hs, !link_bit, Hl, Hd. set_unfold in Hs'.
  destruct (Z.testbit attr' 1), (Z.land attr' ETH_ATTR_DUPLEX =? ETH_ATTR_DUPLEX_FULL), Hs' as [-> | [-> | []]];
    match goal with |- ?x + (4096 - _) < ?y + _ =>
      let v := eval vm_compute in x in let u := eval vm_compute in y in change x with v; change y with u end; lia.
Qed.

(** The trunk of the two ports goes. *)
Lemma trunk_destroyed_witness :
  exists s s', trunk_run demo_numbers true s /\ npd_trunk_destroy_node (demo_trunk_env true) 1 s = Some (0, s') /\ trunk_of s' 1 = None /\
    exists p', port_of s' demo_port_a = Some p' /\ trunkid p' = -1.
Proof.
  destruct two_ports_seen as (s & E & H1 & H2). pose proof (demo_ops_run _ _ _ demo_trunks_start E) as Hr. exists s.
  unfold trunk_seen in H1. destruct (trunk_of s 1) as [t|] eqn:Ht; [|discriminate H1].
  unfold port_seen in H2. destruct (port_of s demo_port_a) as [p|] eqn:Hp; [|discriminate H2]. cbn [fmap option_fmap option_map] in H2. injection H2 as Hid _.
  destruct (trunk_destroyed (demo_trunk_env true) true s 1 t demo_numbers_ok) as (s' & Hx & Hn & _ & Hports); [apply demo_rest_ok|exact Hr|exact Ht|].
  destruct (Hports _ p Hp) as (p' & Hp' & _ & Hfree). exists s'. rewrite Hid in Hfree.
  split; [exact Hr|]. split; [exact Hx|]. split; [exact Hn|]. exists p'. split; [exact Hp'|exact Hfree].
Defined.

Lemma trunk_records_well_formed_witness :
  exists s, trunk_run demo_numbers true s /\ exists t, trunk_of s 1 = Some t /\ npd_netif_trunk_get_tid (g_index t) = 1 /\ length (ports t) = 3%nat.
Proof.
  destruct two_ports_seen as (s & E & H1 & _). pose proof (demo_ops_run _ _ _ demo_trunks_start E) as Hr. exists s. split; [exact Hr|].
  unfold trunk_seen in H1. destruct (trunk_of s 1) as [t|] eqn:Ht; [|discriminate H1]. exists t. split; [reflexivity|].
  destruct (trunk_records_well_formed demo_numbers true s demo_numbers_ok Hr) as [H _].
  destruct (H 1 t Ht) as (_ & _ & _ & H4 & H5 & _). split; [exact H4|exact H5].
Defined.
