(* ===== verification/DhcpPacket.v ===== *)
(** * DHCP packets in npd: options, option 82, checksums

    [npd_dhcp_snp_options.c] and the packet functions of
    [npd_dhcp_snp_com.c] and [npd_dhcp_snp_pkt.c]: the walk over the options
    of a DHCP message, the relay agent option (82) that npd adds to requests
    and takes from replies, and the checksums it has to recompute.

    A packet is the memory of its receive buffer from the Ethernet header
    on, as a list of bytes; a read or a write outside of it is [None].  What
    the tables of the daemon answer (the global configuration and the record
    of the port) are arguments.  Integers that stand in memory in network
    order are big-endian; the processor is little-endian. *)

From Stdlib Require Import ZArith Lia Bool Ascii String.
From stdpp Require Import base decidable list.
From S2P Require Import Prelude Cstring.

Open Scope Z_scope.

(** ** Constants *)

Definition DHCP_SNP_RETURN_CODE_OK : Z := 0.
Definition DHCP_SNP_RETURN_CODE_ERROR : Z := 0x160001.
Definition DHCP_SNP_RETURN_CODE_ALREADY_SET : Z := 0x160002.
Definition DHCP_SNP_RETURN_CODE_FOUND : Z := 0x160008.
Definition DHCP_SNP_RETURN_CODE_NOT_FOUND : Z := 0x160009.
Definition DHCP_SNP_RETURN_CODE_PKT_DROP : Z := 0x16000A.

Definition NPD_DHCP_BOOTREQUEST : Z := 1.
Definition NPD_DHCP_BOOTREPLY : Z := 2.
Definition NPD_DHCP_SNP_OPTION_LEN : Z := 1500.

Definition NPD_DHCP_SNP_OPTION_FIELD : Z := 0.
Definition NPD_DHCP_SNP_FILE_FIELD : Z := 1.
Definition NPD_DHCP_SNP_SNAME_FIELD : Z := 2.

Definition DHCP_PADDING : Z := 0.
Definition DHCP_OPTION_OVER : Z := 0x34.
Definition DHCP_OPTION_82 : Z := 0x52.
Definition DHCP_CIRCUIT_ID : Z := 1.
Definition DHCP_REMOTE_ID : Z := 2.
Definition DHCP_END : Z := 0xFF.

Definition NPD_DHCP_SNP_CIRCUITID_STR_LEN : Z := 64.
Definition NPD_DHCP_SNP_REMOTEID_STR_LEN : Z := 64.

Definition NPD_DHCP_SNP_OPT82_FORMAT_TYPE_HEX : Z := 0.
Definition NPD_DHCP_SNP_OPT82_FORMAT_TYPE_ASCII : Z := 1.
Definition NPD_DHCP_SNP_OPT82_FILL_FORMAT_TYPE_EXT : Z := 0.
Definition NPD_DHCP_SNP_OPT82_FILL_FORMAT_TYPE_STD : Z := 1.
Definition NPD_DHCP_SNP_OPT82_REMOTEID_TYPE_SYSMAC : Z := 3.
Definition NPD_DHCP_SNP_OPT82_CIRCUITID_TYPE_DEFAULT : Z := 0.
Definition NPD_DHCP_SNP_OPT82_CIRCUITID_TYPE_USERSTR : Z := 1.
Definition NPD_DHCP_SNP_OPT82_CIRCUITID_TYPE_INVALID : Z := 2.
Definition NPD_DHCP_SNP_OPT82_STRATEGY_TYPE_REPLACE : Z := 0.
Definition NPD_DHCP_SNP_OPT82_STRATEGY_TYPE_DROP : Z := 1.
Definition NPD_DHCP_SNP_OPT82_STRATEGY_TYPE_KEEP : Z := 2.

Definition IPPROTO_UDP : Z := 17.

(** Where the headers are in a packet ([struct ethhdr], [struct iphdr],
    [struct udphdr]) and where the fields are in [NPD_DHCP_MESSAGE_T]. *)
Definition ip_off : Z := 14.
Definition udp_off : Z := ip_off + 20.
Definition dhcp_off : Z := udp_off + 8.

Definition op_at : Z := dhcp_off.
Definition hlen_at : Z := dhcp_off + 2.
Definition hops_at : Z := dhcp_off + 3.
Definition xid_at : Z := dhcp_off + 4.
Definition yiaddr_at : Z := dhcp_off + 16.
Definition giaddr_at : Z := dhcp_off + 24.
Definition chaddr_at : Z := dhcp_off + 28.
Definition sname_at : Z := dhcp_off + 44.
Definition file_at : Z := dhcp_off + 108.
Definition options_at : Z := dhcp_off + 240.

(** ** Memory *)

Definition mem_read (m : list Z) (a n : Z) : option (list Z) :=
  if (0 <=? a) && (0 <=? n) && (a + n <=? zlen m) then Some (take (Z.to_nat n) (drop (Z.to_nat a) m)) else None.

Definition mem_write (m : list Z) (a : Z) (bs : list Z) : option (list Z) :=
  if (0 <=? a) && (a + zlen bs <=? zlen m)
  then Some (take (Z.to_nat a) m ++ bs ++ drop (Z.to_nat a + length bs) m) else None.

(** [memcpy] of [n] bytes, and [memmove] within one array. *)
Definition memcpy (dst : list Z) (d : Z) (src : list Z) (s n : Z) : option (list Z) :=
  bs ← mem_read src s n; mem_write dst d bs.
Definition memmove (m : list Z) (d s n : Z) : option (list Z) := memcpy m d m s n.

Definition be16 (v : Z) : list Z := [v / 256 mod 256; v mod 256].
Definition be32 (v : Z) : list Z := be16 (v / 65536) ++ be16 v.
Definition le16 (v : Z) : list Z := [v mod 256; v / 256 mod 256].

(** [ntohs] of a field; a field as the processor reads it. *)
Definition get_be16 (m : list Z) (a : Z) : option Z :=
  h ← rd m a; l ← rd m (a + 1); Some (256 * h + l).
Definition get_le16 (m : list Z) (a : Z) : option Z :=
  l ← rd m a; h ← rd m (a + 1); Some (256 * h + l).

Definition text (s : cstr) : list Z := map code s.

(** ** Configuration *)

Record NPD_DHCP_SNP_STATUS_ITEM_STRUCT := StatusItem {
  global_port_ifindex : Z;
  trust_mode : Z;
  opt82_strategy : Z;
  opt82_circuitid : Z;
  opt82_circuitid_str : list Z
}.

Record NPD_DHCP_SNP_GLOBAL_STATUS := GlobalStatus {
  dhcp_snp_enable : Z;
  dhcp_snp_opt82_enable : Z;
  dhcp_snp_opt82_format_type : Z;
  dhcp_snp_opt82_fill_format_type : Z;
  dhcp_snp_opt82_remoteid_type : Z;
  dhcp_snp_opt82_remoteid_str : list Z;
  vlan_admin_status : list Z;
  switch_port_control_count : list Z
}.

(** ** The walk over the options *)

(** The loop of [npd_dhcp_snp_get_option]: [base] is [optionptr], [i] the
    position, [length] the size of the field.  The result is the address of
    the data of the option, if it is found.  [i] grows with every turn in a
    field, so fuel for the three fields is enough; the theorems of
    [DhcpOptions] show it. *)
Fixpoint option_loop (fuel : nat) (m : list Z) (opt base i length over curr : Z) : option (option Z) :=
  match fuel with
  | O => None
  | S fuel =>
      if length <=? i then Some None
      else
        c ← rd m (base + i);
        if negb (c =? DHCP_PADDING) && negb (c =? DHCP_END) && (length <=? i + 2) then Some None
        else if (c =? opt) && negb (c =? DHCP_PADDING) && negb (c =? DHCP_END) then
          l ← rd m (base + i + 1);
          if length <=? i + 1 + l then Some None else Some (Some (base + i + 2))
        else if c =? DHCP_PADDING then option_loop fuel m opt base (i + 1) length over curr
        else if c =? DHCP_OPTION_OVER then
          l ← rd m (base + i + 1);
          if length <=? i + 1 + l then Some None
          else
            over ← rd m (base + i + 2);
            option_loop fuel m opt base (i + l + 2) length over curr
        else if c =? DHCP_END then
          if (curr =? NPD_DHCP_SNP_OPTION_FIELD) && negb (Z.land over NPD_DHCP_SNP_FILE_FIELD =? 0)
          then option_loop fuel m opt file_at 0 128 over NPD_DHCP_SNP_FILE_FIELD
          else if (curr =? NPD_DHCP_SNP_FILE_FIELD) && negb (Z.land over NPD_DHCP_SNP_SNAME_FIELD =? 0)
          then option_loop fuel m opt sname_at 0 64 over NPD_DHCP_SNP_SNAME_FIELD
          else Some None
        else
          l ← rd m (base + i + 1);
          option_loop fuel m opt base (i + l + 2) length over curr
  end.

(** One turn per byte of the fields and one to find each at its end. *)
Definition option_fuel : nat := Z.to_nat (NPD_DHCP_SNP_OPTION_LEN + 128 + 64 + 3).

Definition npd_dhcp_snp_get_option (m : list Z) (opt : Z) : option (option Z) :=
  option_loop option_fuel m opt options_at 0 NPD_DHCP_SNP_OPTION_LEN 0 NPD_DHCP_SNP_OPTION_FIELD.

(** The same loop, written out again in the source. *)
Definition npd_dhcp_snp_check_opt82 (m : list Z) (opt : Z) : option Z :=
  r ← option_loop option_fuel m opt options_at 0 NPD_DHCP_SNP_OPTION_LEN 0 NPD_DHCP_SNP_OPTION_FIELD;
  Some (match r with Some _ => DHCP_SNP_RETURN_CODE_FOUND | None => DHCP_SNP_RETURN_CODE_NOT_FOUND end).

(** [npd_dhcp_snp_end_option] has no bound but the memory: [i] grows with
    every turn, so fuel for every byte is enough. *)
Fixpoint end_loop (fuel : nat) (m : list Z) (i : Z) : option Z :=
  match fuel with
  | O => None
  | S fuel =>
      c ← rd m (options_at + i);
      if c =? DHCP_END then Some i
      else if c =? DHCP_PADDING then end_loop fuel m (i + 1)
      else l ← rd m (options_at + i + 1); end_loop fuel m (i + l + 2)
  end.
Definition npd_dhcp_snp_end_option (m : list Z) : option Z := end_loop (S (length m)) m 0.

(** The result, [*del_len] and the packet. *)
Fixpoint remove_loop (fuel : nat) (m : list Z) (opt opt_len del_len i : Z) : option (Z * Z * list Z) :=
  match fuel with
  | O => None
  | S fuel =>
      let length := NPD_DHCP_SNP_OPTION_LEN in
      if length <=? i then Some (DHCP_SNP_RETURN_CODE_ERROR, del_len, m)
      else
        c ← rd m (options_at + i);
        if negb (c =? DHCP_PADDING) && negb (c =? DHCP_END) && (length <=? i + 2)
        then Some (DHCP_SNP_RETURN_CODE_ERROR, del_len, m)
        else if (c =? opt) && negb (c =? DHCP_PADDING) && negb (c =? DHCP_END) then
          l ← rd m (options_at + i + 1);
          if length <=? i + 1 + l then Some (DHCP_SNP_RETURN_CODE_ERROR, del_len, m)
          else
            m' ← memmove m (options_at + i) (options_at + (i + l + 2)) (u32 (opt_len - i - (l + 2) + 1));
            Some (DHCP_SNP_RETURN_CODE_OK, l + 2, m')
        else if c =? DHCP_PADDING then remove_loop fuel m opt opt_len del_len (i + 1)
        else if c =? DHCP_END then Some (DHCP_SNP_RETURN_CODE_OK, del_len, m)
        else l ← rd m (options_at + i + 1); remove_loop fuel m opt opt_len del_len (i + l + 2)
  end.

Definition npd_dhcp_snp_remove_opt82 (m : list Z) (opt opt_len del_len : Z) : option (Z * Z * list Z) :=
  remove_loop option_fuel m opt opt_len del_len 0.

(** ** Option 82 *)

Section option82.
Context (PRODUCT_MAC_ADDRESS : list Z).

(** [%02d] of an [int]. *)
Definition fmt_02d (n : Z) : cstr := if n <? 0 then lit "-" ++ fmt_prec 1 (- n) else fmt_prec 2 n.
(** [%.2x] of a byte. *)
Definition fmt_2x (n : Z) : cstr := [hex_digit (n / 16 mod 16); hex_digit (n mod 16)].

(** [sprintf] writes the terminating zero as well. *)
Definition sprintf_at (m : list Z) (a : Z) (s : cstr) : option (list Z * Z) :=
  m' ← mem_write m a (text s ++ [0]); Some (m', zlen s).

(** The result, [*circuitid_mode] and [circuitid_content].  The default data
    is a structure of a short and an int, so two bytes of padding are in
    it. *)
Definition npd_dhcp_snp_get_opt82_port_circuitid (cfg : option NPD_DHCP_SNP_GLOBAL_STATUS)
    (item : option NPD_DHCP_SNP_STATUS_ITEM_STRUCT) (g_eth_index vlanid : Z) (content : list Z) : option (Z * Z * list Z) :=
  match cfg with
  | None => Some (DHCP_SNP_RETURN_CODE_ERROR, NPD_DHCP_SNP_OPT82_CIRCUITID_TYPE_INVALID, content)
  | Some user =>
      let ext := dhcp_snp_opt82_fill_format_type user =? NPD_DHCP_SNP_OPT82_FILL_FORMAT_TYPE_EXT in
      let mode := match item with None => NPD_DHCP_SNP_OPT82_CIRCUITID_TYPE_DEFAULT | Some x => opt82_circuitid x end in
      let str := match item with None => replicate 64 0 | Some x => opt82_circuitid_str x end in
      if mode =? NPD_DHCP_SNP_OPT82_CIRCUITID_TYPE_USERSTR then
        content ← (if ext then mem_write content 2 [1; NPD_DHCP_SNP_CIRCUITID_STR_LEN] else Some content);
        let len := if ext then 2 else 0 in
        content ← memcpy content (2 + len) str 0 NPD_DHCP_SNP_CIRCUITID_STR_LEN;
        content ← mem_write content 0 [DHCP_CIRCUIT_ID; u8 (len + NPD_DHCP_SNP_CIRCUITID_STR_LEN)];
        Some (DHCP_SNP_RETURN_CODE_OK, mode, content)
      else if mode =? NPD_DHCP_SNP_OPT82_CIRCUITID_TYPE_DEFAULT then
        content ← (if ext then mem_write content 2 [0; 8] else Some content);
        let len := if ext then 2 else 0 in
        '(content, len) ←
          (if dhcp_snp_opt82_format_type user =? NPD_DHCP_SNP_OPT82_FORMAT_TYPE_HEX then
             content ← mem_write content (2 + len) (be16 vlanid ++ [0; 0] ++ be32 g_eth_index);
             Some (content, len + 8)
           else if dhcp_snp_opt82_format_type user =? NPD_DHCP_SNP_OPT82_FORMAT_TYPE_ASCII then
             '(content, n1) ← sprintf_at content (2 + len) (fmt_02d vlanid);
             '(content, n2) ← sprintf_at content (2 + len + n1) (fmt_02d (s32 g_eth_index));
             content ← (if ext then mem_write content 2 [1; u8 (n1 + n2)] else Some content);
             Some (content, len + n1 + n2)
           else Some (content, len));
        content ← mem_write content 0 [DHCP_CIRCUIT_ID; u8 len];
        Some (DHCP_SNP_RETURN_CODE_OK, mode, content)
      else Some (DHCP_SNP_RETURN_CODE_OK, mode, content)
  end.

Definition npd_dhcp_snp_get_opt82_port_remoteid (cfg : option NPD_DHCP_SNP_GLOBAL_STATUS) (content : list Z) :
    option (Z * list Z) :=
  match cfg with
  | None => Some (DHCP_SNP_RETURN_CODE_ERROR, content)
  | Some user =>
      let ext := dhcp_snp_opt82_fill_format_type user =? NPD_DHCP_SNP_OPT82_FILL_FORMAT_TYPE_EXT in
      let len := if ext then 2 else 0 in
      '(content, len) ←
        (if dhcp_snp_opt82_remoteid_type user =? NPD_DHCP_SNP_OPT82_REMOTEID_TYPE_SYSMAC then
           content ← (if ext then mem_write content 2 [0; 6] else Some content);
           if dhcp_snp_opt82_format_type user =? NPD_DHCP_SNP_OPT82_FORMAT_TYPE_HEX then
             content ← memcpy content (2 + len) PRODUCT_MAC_ADDRESS 0 6;
             Some (content, len + 6)
           else if dhcp_snp_opt82_format_type user =? NPD_DHCP_SNP_OPT82_FORMAT_TYPE_ASCII then
             mac ← mem_read PRODUCT_MAC_ADDRESS 0 6;
             '(content, n) ← sprintf_at content (2 + len) (concat (map fmt_2x mac));
             content ← (if ext then mem_write content 2 [1; 12] else Some content);
             Some (content, len + n)
           else Some (content, len)
         else
           content ← (if ext then mem_write content 2 [1; 0x40] else Some content);
           content ← memcpy content (2 + len) (dhcp_snp_opt82_remoteid_str user) 0 NPD_DHCP_SNP_REMOTEID_STR_LEN;
           Some (content, len + NPD_DHCP_SNP_REMOTEID_STR_LEN));
      content ← mem_write content 0 [DHCP_REMOTE_ID; u8 len];
      Some (DHCP_SNP_RETURN_CODE_OK, content)
  end.

Definition npd_dhcp_snp_cat_opt82_sting (circuitid_str remoteid_str opt82_str : list Z) : option (list Z) :=
  opt82_str ← wr opt82_str 0 DHCP_OPTION_82;
  cl ← rd circuitid_str 1;
  opt82_str ← memcpy opt82_str 2 circuitid_str 0 (cl + 2);
  let opt82_len := cl + 2 in
  rl ← rd remoteid_str 1;
  opt82_str ← memcpy opt82_str (2 + opt82_len) remoteid_str 0 (rl + 2);
  wr opt82_str 1 (u8 (opt82_len + (rl + 2))).

Definition npd_dhcp_snp_attach_opt82_string (m string : list Z) : option (Z * list Z) :=
  e ← npd_dhcp_snp_end_option m;
  l ← rd string 1;
  if NPD_DHCP_SNP_OPTION_LEN <=? e + l + 2 + 1 then Some (DHCP_SNP_RETURN_CODE_ERROR, m)
  else
    m ← memcpy m (options_at + e) string 0 (l + 2);
    m ← wr m (options_at + (e + l + 2)) DHCP_END;
    Some (DHCP_SNP_RETURN_CODE_OK, m).

(** ** Checksums *)

(** The sum is an [int], whose overflow is undefined. *)
Fixpoint sum_words (n : nat) (m : list Z) (a sum : Z) : option Z :=
  match n with
  | O => Some sum
  | S n =>
      w ← get_le16 m a;
      if 2 ^ 31 <=? sum + w then None else sum_words n m (a + 2) (sum + w)
  end.

(** Three turns are enough for a 31-bit sum. *)
Fixpoint fold_sum (fuel : nat) (sum : Z) : option Z :=
  match fuel with
  | O => None
  | S fuel =>
      if Z.shiftr sum 16 =? 0 then Some sum
      else fold_sum fuel (Z.land sum 0xffff + Z.shiftr sum 16)
  end.

Definition npd_dhcp_snp_checksum (m : list Z) (addr count : Z) : option Z :=
  sum ← sum_words (Z.to_nat (count / 2)) m addr 0;
  sum ← (if count mod 2 =? 0 then Some sum
         else tmp ← rd m (addr + count - 1); if 2 ^ 31 <=? sum + tmp then None else Some (sum + tmp));
  sum ← fold_sum 3 sum;
  Some (u16 (Z.lnot sum)).

Definition npd_dhcp_information_checksum (m : list Z) : option (list Z) :=
  tempip ← mem_read m ip_off 20;
  addrs ← mem_read m (ip_off + 12) 8;
  check ← get_le16 m (udp_off + 6);
  m ← mem_write m (udp_off + 6) (le16 0);
  m ← mem_write m ip_off (replicate 20 0);
  m ← wr m (ip_off + 9) IPPROTO_UDP;
  m ← mem_write m (ip_off + 12) addrs;
  len ← mem_read m (udp_off + 4) 2;
  m ← mem_write m (ip_off + 2) len;
  m ← (if check =? 0 then Some m
       else
         n ← get_be16 m (udp_off + 4);
         c ← npd_dhcp_snp_checksum m ip_off (n + 20);
         mem_write m (udp_off + 6) (le16 c));
  m ← mem_write m ip_off tempip;
  m ← mem_write m (ip_off + 10) (le16 0);
  c ← npd_dhcp_snp_checksum m ip_off 20;
  mem_write m (ip_off + 10) (le16 c).

(** ** Requests and replies *)

Definition npd_dhcp_snp_get_opt82_port_strategy (item : option NPD_DHCP_SNP_STATUS_ITEM_STRUCT) : Z :=
  match item with Some x => opt82_strategy x | None => NPD_DHCP_SNP_OPT82_STRATEGY_TYPE_REPLACE end.

(** [udp->len], [ip->tot_len] and [*bufflen] when [del] bytes went and [add]
    came, and the checksums. *)
Definition set_lengths (m : list Z) (bufflen del add : Z) : option (list Z * Z) :=
  n ← get_be16 m (udp_off + 4);
  m ← mem_write m (udp_off + 4) (be16 (u16 (n - del + add)));
  n ← get_be16 m (udp_off + 4);
  m ← mem_write m (ip_off + 2) (be16 (u16 (n + 20)));
  m ← npd_dhcp_information_checksum m;
  Some (m, u32 (bufflen - del + add)).

(** The result, the packet and [*bufflen]. *)
Definition npd_dhcp_snp_attach_opt82 (cfg : option NPD_DHCP_SNP_GLOBAL_STATUS)
    (item : option NPD_DHCP_SNP_STATUS_ITEM_STRUCT) (m : list Z) (ifindex vlanid bufflen : Z) : option (Z * list Z * Z) :=
  let strategy_mode := npd_dhcp_snp_get_opt82_port_strategy item in
  if strategy_mode =? NPD_DHCP_SNP_OPT82_STRATEGY_TYPE_REPLACE then
    '(ret, _, circuitid_str) ← npd_dhcp_snp_get_opt82_port_circuitid cfg item ifindex vlanid (replicate 68 0);
    if negb (ret =? DHCP_SNP_RETURN_CODE_OK) then Some (DHCP_SNP_RETURN_CODE_ERROR, m, bufflen) else
    '(ret, remoteid_str) ← npd_dhcp_snp_get_opt82_port_remoteid cfg (replicate 68 0);
    if negb (ret =? DHCP_SNP_RETURN_CODE_OK) then Some (DHCP_SNP_RETURN_CODE_ERROR, m, bufflen) else
    opt82_str ← npd_dhcp_snp_cat_opt82_sting circuitid_str remoteid_str (replicate 140 0);
    found ← npd_dhcp_snp_check_opt82 m DHCP_OPTION_82;
    '(ret, del_len, m) ←
      (if found =? DHCP_SNP_RETURN_CODE_FOUND then
         endposition ← npd_dhcp_snp_end_option m;
         npd_dhcp_snp_remove_opt82 m DHCP_OPTION_82 endposition 0
       else Some (DHCP_SNP_RETURN_CODE_OK, 0, m));
    if negb (ret =? DHCP_SNP_RETURN_CODE_OK) then Some (DHCP_SNP_RETURN_CODE_ERROR, m, bufflen) else
    '(ret, m) ← npd_dhcp_snp_attach_opt82_string m opt82_str;
    if negb (ret =? DHCP_SNP_RETURN_CODE_OK) then Some (DHCP_SNP_RETURN_CODE_ERROR, m, bufflen) else
    l ← rd opt82_str 1;
    '(m, bufflen) ← set_lengths m bufflen del_len (l + 2);
    Some (DHCP_SNP_RETURN_CODE_OK, m, bufflen)
  else if strategy_mode =? NPD_DHCP_SNP_OPT82_STRATEGY_TYPE_DROP then
    found ← npd_dhcp_snp_check_opt82 m DHCP_OPTION_82;
    if found =? DHCP_SNP_RETURN_CODE_FOUND then
      endposition ← npd_dhcp_snp_end_option m;
      '(ret, del_len, m) ← npd_dhcp_snp_remove_opt82 m DHCP_OPTION_82 endposition 0;
      if negb (ret =? DHCP_SNP_RETURN_CODE_OK) then Some (DHCP_SNP_RETURN_CODE_ERROR, m, bufflen) else
      '(m, bufflen) ← set_lengths m bufflen del_len 0;
      Some (DHCP_SNP_RETURN_CODE_OK, m, bufflen)
    else Some (DHCP_SNP_RETURN_CODE_OK, m, bufflen)
  else Some (DHCP_SNP_RETURN_CODE_OK, m, bufflen).

Definition npd_dhcp_packet_information_process (cfg : option NPD_DHCP_SNP_GLOBAL_STATUS)
    (item : option NPD_DHCP_SNP_STATUS_ITEM_STRUCT) (vid ifindex : Z) (m : list Z) (buffLen option_enable_flag : Z) :
    option (Z * list Z * Z) :=
  if option_enable_flag =? 0 then Some (DHCP_SNP_RETURN_CODE_OK, m, buffLen)
  else
    op ← rd m op_at;
    '(ret, m, buffLen) ←
      (if op =? NPD_DHCP_BOOTREQUEST then npd_dhcp_snp_attach_opt82 cfg item m ifindex vid buffLen
       else Some (DHCP_SNP_RETURN_CODE_OK, m, buffLen));
    if negb (ret =? DHCP_SNP_RETURN_CODE_OK) then Some (DHCP_SNP_RETURN_CODE_PKT_DROP, m, buffLen) else
    op ← rd m op_at;
    if op =? NPD_DHCP_BOOTREPLY then
      endposition ← npd_dhcp_snp_end_option m;
      '(ret, del_len, m) ← npd_dhcp_snp_remove_opt82 m DHCP_OPTION_82 endposition 0;
      if negb (ret =? DHCP_SNP_RETURN_CODE_OK) then Some (DHCP_SNP_RETURN_CODE_PKT_DROP, m, buffLen) else
      n ← get_be16 m (udp_off + 4);
      m ← mem_write m (udp_off + 4) (be16 (u16 (n - del_len)));
      n ← get_be16 m (ip_off + 2);
      m ← mem_write m (ip_off + 2) (be16 (u16 (n - del_len)));
      m ← npd_dhcp_information_checksum m;
      Some (DHCP_SNP_RETURN_CODE_OK, m, u32 (buffLen - del_len))
    else Some (DHCP_SNP_RETURN_CODE_OK, m, buffLen).

End option82.
