(* ===== verification/DhcpOptions.v ===== *)
(** * What the DHCP packet functions compute

    The options of a message as a list, with its encoding: the walk finds
    exactly the option asked for, no content of a packet makes it read
    outside of the message; removing and adding an option as functions on the
    list; the content of option 82. *)

From Stdlib Require Import ZArith Lia Bool Ascii String.
From stdpp Require Import base decidable list.
From S2P Require Import Prelude Cstring DhcpPacket.

Open Scope Z_scope.

Create HintDb dhcp.

(** ** Options as data *)

Inductive dhcp_opt := Pad | Opt (c : Z) (data : list Z).

Definition encode_opt (o : dhcp_opt) : list Z :=
  match o with Pad => [DHCP_PADDING] | Opt c d => c :: zlen d :: d end.
Definition encode (os : list dhcp_opt) : list Z := concat (map encode_opt os).

Definition byte (x : Z) : Prop := 0 <= x < 256.

Definition opt_ok (o : dhcp_opt) : Prop :=
  match o with
  | Pad => True
  | Opt c d => 0 < c < 255 /\ zlen d < 256 /\ Forall byte d /\ (c = DHCP_OPTION_OVER -> d <> [])
  end.

Definition has_code (c : Z) (o : dhcp_opt) : bool := match o with Pad => false | Opt c' _ => c' =? c end.

(** Where the data of the first option with a code is in the encoding. *)
Fixpoint opt_offset (c : Z) (os : list dhcp_opt) : option Z :=
  match os with
  | [] => None
  | o :: os => if has_code c o then Some 2 else (fun k => zlen (encode_opt o) + k) <$> opt_offset c os
  end.

(** The overload option in force after a list of options. *)
Fixpoint overload (os : list dhcp_opt) (over : Z) : Z :=
  match os with
  | [] => over
  | Opt c (v :: _) :: os => overload os (if c =? DHCP_OPTION_OVER then v else over)
  | _ :: os => overload os over
  end.

(** A field of [len] bytes at [base] holds options and an end mark. *)
Definition field (m : list Z) (base len : Z) (os : list dhcp_opt) : Prop :=
  exists pre post, m = pre ++ encode os ++ DHCP_END :: post /\ zlen pre = base /\ zlen (encode os) < len /\ Forall opt_ok os.

(** ** Lists *)

Lemma zlen_app {A} (l k : list A) : zlen (l ++ k) = zlen l + zlen k.
Proof. unfold zlen. rewrite length_app. lia. Qed.
Lemma zlen_cons {A} (x : A) l : zlen (x :: l) = 1 + zlen l.
Proof. unfold zlen. cbn [length]. lia. Qed.
Lemma zlen_nil {A} : zlen (@nil A) = 0.
Proof. done. Qed.
Lemma zlen_pos {A} (l : list A) : 0 <= zlen l.
Proof. unfold zlen. lia. Qed.

Create Rewrite HintDb zlen.
#[export] Hint Rewrite @zlen_app @zlen_cons @zlen_nil : zlen.
Ltac zl := autorewrite with zlen in *.

Lemma rd_mid {A} (pre : list A) x post a : a = zlen pre -> rd (pre ++ x :: post) a = Some x.
Proof.
  intros ->. unfold rd, zlen. destruct (Z.leb_spec 0 (Z.of_nat (length pre))); [|lia].
  rewrite Nat2Z.id, lookup_app_r by lia. by rewrite Nat.sub_diag.
Qed.

Lemma mem_read_mid pre bs post a n : a = zlen pre -> n = zlen bs -> mem_read (pre ++ bs ++ post) a n = Some bs.
Proof.
  intros -> ->. unfold mem_read. zl. pose proof (zlen_pos pre). pose proof (zlen_pos bs). pose proof (zlen_pos post).
  destruct (Z.leb_spec 0 (zlen pre)), (Z.leb_spec 0 (zlen bs)), (Z.leb_spec (zlen pre + zlen bs) (zlen pre + (zlen bs + zlen post))); try lia.
  cbn [andb]. unfold zlen. rewrite !Nat2Z.id, drop_app_length, take_app_length. done.
Qed.

Lemma mem_write_mid pre bs bs' post a : a = zlen pre -> zlen bs' = zlen bs ->
  mem_write (pre ++ bs ++ post) a bs' = Some (pre ++ bs' ++ post).
Proof.
  intros -> Hl. unfold mem_write. zl. pose proof (zlen_pos pre). pose proof (zlen_pos bs). pose proof (zlen_pos post).
  destruct (Z.leb_spec 0 (zlen pre)), (Z.leb_spec (zlen pre + zlen bs') (zlen pre + (zlen bs + zlen post))); try lia.
  cbn [andb]. unfold zlen in *. rewrite Nat2Z.id, take_app_length. f_equal. f_equal. f_equal.
  replace (length pre + length bs')%nat with (length (pre ++ bs)) by (rewrite length_app; lia).
  by rewrite app_assoc, drop_app_length.
Qed.

Lemma wr_mid {A} (pre : list A) x y post a : a = zlen pre -> wr (pre ++ x :: post) a y = Some (pre ++ y :: post).
Proof.
  intros ->. pose proof (zlen_pos pre). pose proof (zlen_pos post).
  rewrite wr_Some by (zl; lia). f_equal. unfold zlen. rewrite Nat2Z.id. by rewrite insert_app_r_alt, Nat.sub_diag by lia.
Qed.

Lemma encode_app a b : encode (a ++ b) = encode a ++ encode b.
Proof. unfold encode. by rewrite map_app, concat_app. Qed.

Lemma encode_cons o os : encode (o :: os) = encode_opt o ++ encode os.
Proof. done. Qed.

Lemma encode_opt_len o : opt_ok o -> 1 <= zlen (encode_opt o).
Proof. destruct o; cbn [encode_opt]; zl; [lia|]. pose proof (zlen_pos data). lia. Qed.

Lemma encode_len os : Forall opt_ok os -> Z.of_nat (length os) <= zlen (encode os).
Proof.
  induction 1 as [|o os Ho _ IH]; [done|]. rewrite encode_cons. zl. pose proof (encode_opt_len o Ho). cbn [length]. lia.
Qed.

Lemma byte_ok o : opt_ok o -> Forall byte (encode_opt o).
Proof.
  destruct o as [|c d]; cbn [encode_opt]; [repeat constructor; done|]. intros (Hc & Hl & Hd & _).
  pose proof (zlen_pos d). constructor; [unfold byte; lia|]. constructor; [unfold byte; lia|done].
Qed.

(** ** The walk on well-formed fields *)

(** What the loop does when it has come to the end mark of a field. *)
Definition field_end (fuel : nat) (m : list Z) (c over curr : Z) : option (option Z) :=
  if (curr =? NPD_DHCP_SNP_OPTION_FIELD) && negb (Z.land over NPD_DHCP_SNP_FILE_FIELD =? 0)
  then option_loop fuel m c file_at 0 128 over NPD_DHCP_SNP_FILE_FIELD
  else if (curr =? NPD_DHCP_SNP_FILE_FIELD) && negb (Z.land over NPD_DHCP_SNP_SNAME_FIELD =? 0)
  then option_loop fuel m c sname_at 0 64 over NPD_DHCP_SNP_SNAME_FIELD
  else Some None.

(** The head of a field, split off. *)
Lemma field_opt pre c d rest base i : zlen pre = base + i ->
  let m := pre ++ encode_opt (Opt c d) ++ rest in
  rd m (base + i) = Some c /\ rd m (base + i + 1) = Some (zlen d) /\
  (forall v d', d = v :: d' -> rd m (base + i + 2) = Some v) /\
  m = (pre ++ encode_opt (Opt c d)) ++ rest /\ zlen (pre ++ encode_opt (Opt c d)) = base + (i + zlen d + 2).
Proof.
  intros Hp. cbn [encode_opt app]. split_and!.
  - by apply rd_mid.
  - replace (pre ++ c :: zlen d :: d ++ rest) with ((pre ++ [c]) ++ zlen d :: d ++ rest) by by rewrite <- app_assoc.
    apply rd_mid. zl. lia.
  - intros v d' ->. replace (pre ++ c :: zlen (v :: d') :: (v :: d') ++ rest) with ((pre ++ [c; zlen (v :: d')]) ++ v :: d' ++ rest)
      by by rewrite <- app_assoc. apply rd_mid. zl. lia.
  - by rewrite <- app_assoc.
  - zl. lia.
Qed.

Lemma option_loop_field c curr base len post os : Forall opt_ok os -> 0 < c < 255 ->
  forall f pre m i over, m = pre ++ encode os ++ DHCP_END :: post -> zlen pre = base + i -> 0 <= i ->
  i + zlen (encode os) < len ->
  option_loop (length os + S f) m c base i len over curr =
    match opt_offset c os with
    | Some k => Some (Some (base + i + k))
    | None => field_end f m c (overload os over) curr
    end.
Proof.
  intros Hok Hc. induction Hok as [|o os Ho Hok IH]; intros f pre m i over Hm Hp Hi Hl; rewrite ?encode_cons in *; zl.
  - cbn [length Nat.add option_loop opt_offset overload encode concat map app] in *.
    zl.
    destruct (Z.leb_spec len i); [lia|].
    assert (rd m (base + i) = Some DHCP_END) as -> by (rewrite Hm; apply rd_mid; lia). cbn [mbind option_bind].
    unfold DHCP_PADDING, DHCP_END in *. rewrite Z.eqb_refl. cbn [negb]. by rewrite !andb_false_r.
  - assert (1 <= zlen (encode_opt o)) by by apply encode_opt_len. pose proof (zlen_pos (encode os)).
    rewrite <- (app_assoc (encode_opt o)) in Hm. cbn [length Nat.add option_loop opt_offset has_code].
    destruct (Z.leb_spec len i); [lia|]. destruct o as [|c' d].
    + assert (rd m (base + i) = Some DHCP_PADDING) as -> by (rewrite Hm; apply rd_mid; lia). cbn [mbind option_bind].
      unfold DHCP_PADDING at 1 2 3 4. cbn [Z.eqb negb andb]. rewrite andb_false_r. cbn [andb].
      rewrite (IH f (pre ++ [DHCP_PADDING]) m (i + 1) over); [|subst m; by rewrite <- app_assoc|zl; lia|lia|cbn [encode_opt] in *; zl; lia].
      cbn [overload]. destruct (opt_offset c os) as [k|]; cbn [fmap option_fmap option_map encode_opt]; [|done]. zl. do 2 f_equal. lia.
    + pose proof Ho as (Hc' & Hd & Hb & Ho'). destruct (field_opt pre c' d (encode os ++ DHCP_END :: post) base i Hp) as (R0 & R1 & R2 & Em & El).
      rewrite <- Hm in R0, R1, R2, Em. rewrite R0, R1. cbn [mbind option_bind]. cbn [encode_opt] in Hl, H. zl. pose proof (zlen_pos d).
      unfold DHCP_PADDING, DHCP_END in *.
      destruct (Z.eqb_spec c' 0), (Z.eqb_spec c' 255), (Z.leb_spec len (i + 2)); try lia. cbn [negb andb has_code]. rewrite andb_true_r.
      destruct (Z.eqb_spec c' c) as [->|Hne].
      { cbn [andb]. destruct (Z.leb_spec len (i + 1 + zlen d)); [lia|]. done. }
      cbn [andb]. assert (forall over', option_loop (length os + S f) m c base (i + zlen d + 2) len over' curr =
        match (fun k => zlen (encode_opt (Opt c' d)) + k) <$> opt_offset c os with
        | Some k => Some (Some (base + i + k)) | None => field_end f m c (overload os over') curr end) as Hrec.
      { intros over'. rewrite (IH f (pre ++ encode_opt (Opt c' d)) m (i + zlen d + 2) over'); [|done|zl; lia|lia|lia].
        destruct (opt_offset c os) as [k|]; cbn [fmap option_fmap option_map encode_opt]; [|done]. zl. do 2 f_equal. lia. }
      cbn [overload]. destruct (Z.eqb_spec c' DHCP_OPTION_OVER) as [E|E].
      * destruct d as [|v d]; [by destruct (Ho' E)|]. destruct (Z.leb_spec len (i + 1 + zlen (v :: d))); [lia|].
        rewrite (R2 v d) by done. apply Hrec.
      * rewrite Hrec. by destruct d.
Qed.

(** The fields of a message that the overload option makes visible. *)
Definition visible (os fs ss : list dhcp_opt) : list (Z * Z * list dhcp_opt) :=
  (options_at, NPD_DHCP_SNP_OPTION_LEN, os) ::
  if Z.land (overload os 0) NPD_DHCP_SNP_FILE_FIELD =? 0 then [] else
  (file_at, 128, fs) ::
  if Z.land (overload fs (overload os 0)) NPD_DHCP_SNP_SNAME_FIELD =? 0 then [] else [(sname_at, 64, ss)].

Definition message (m : list Z) (fields : list (Z * Z * list dhcp_opt)) : Prop :=
  forall base len os, (base, len, os) ∈ fields -> field m base len os.

(** The address of the data of the first option with a code. *)
Fixpoint locate (c : Z) (fields : list (Z * Z * list dhcp_opt)) : option Z :=
  match fields with
  | [] => None
  | (base, _, os) :: fields => match opt_offset c os with Some k => Some (base + k) | None => locate c fields end
  end.

Lemma field_loop m c base len os f over curr : field m base len os -> 0 < c < 255 -> (length os < f)%nat ->
  option_loop f m c base 0 len over curr =
    match opt_offset c os with
    | Some k => Some (Some (base + k))
    | None => field_end (f - length os - 1) m c (overload os over) curr
    end.
Proof.
  intros (pre & post & Hm & Hp & Hl & Hok) Hc Hf. replace f with (length os + S (f - length os - 1))%nat at 1 by lia.
  rewrite (option_loop_field c curr base len post os Hok Hc _ pre m 0 over Hm) by lia.
  destruct (opt_offset c os); [|done]. do 2 f_equal. lia.
Qed.

Lemma field_short m base len os : field m base len os -> (length os < Z.to_nat len)%nat.
Proof. intros (pre & post & _ & _ & Hl & Hok). pose proof (encode_len os Hok). lia. Qed.

Lemma get_option_message m c os fs ss : message m (visible os fs ss) -> 0 < c < 255 ->
  npd_dhcp_snp_get_option m c = Some (locate c (visible os fs ss)).
Proof.
  intros Hm Hc. unfold npd_dhcp_snp_get_option, visible in *. pose proof (Hm _ _ _ ltac:(by left)) as H1.
  pose proof (field_short _ _ _ _ H1) as L1. unfold option_fuel, NPD_DHCP_SNP_OPTION_LEN in *.
  rewrite (field_loop m c _ _ os _ _ _ H1 Hc) by lia. cbn [locate]. destruct (opt_offset c os); [done|].
  unfold field_end. cbn [Z.eqb andb NPD_DHCP_SNP_OPTION_FIELD].
  destruct (Z.land (overload os 0) NPD_DHCP_SNP_FILE_FIELD =? 0); [done|]. cbn [negb].
  pose proof (Hm _ _ _ ltac:(right; by left)) as H2. pose proof (field_short _ _ _ _ H2) as L2.
  rewrite (field_loop m c _ _ fs _ _ _ H2 Hc) by lia. cbn [locate]. destruct (opt_offset c fs); [done|].
  unfold field_end. cbn [Z.eqb andb NPD_DHCP_SNP_OPTION_FIELD NPD_DHCP_SNP_FILE_FIELD Pos.eqb].
  destruct (Z.land (overload fs (overload os 0)) NPD_DHCP_SNP_SNAME_FIELD =? 0); [done|]. cbn [negb].
  pose proof (Hm _ _ _ ltac:(right; right; by left)) as H3. pose proof (field_short _ _ _ _ H3) as L3.
  rewrite (field_loop m c _ _ ss _ _ _ H3 Hc) by lia. cbn [locate]. by destruct (opt_offset c ss).
Qed.

(** ** The walk on any bytes *)

(** The turns that the fields after this one can take. *)
Definition later (curr : Z) : Z :=
  if curr =? NPD_DHCP_SNP_OPTION_FIELD then 128 + 64 + 2 else if curr =? NPD_DHCP_SNP_FILE_FIELD then 64 + 1 else 0.

(** The three fields that the loop walks. *)
Inductive walked : Z -> Z -> Z -> Prop :=
  | walked_options : walked options_at NPD_DHCP_SNP_OPTION_LEN NPD_DHCP_SNP_OPTION_FIELD
  | walked_file : walked file_at 128 NPD_DHCP_SNP_FILE_FIELD
  | walked_sname : walked sname_at 64 NPD_DHCP_SNP_SNAME_FIELD.

(** An option with its data inside of a field. *)
Definition option_inside (m : list Z) (c p : Z) : Prop :=
  exists base len curr l, walked base len curr /\ base + 2 <= p /\ rd m (p - 2) = Some c /\ rd m (p - 1) = Some l /\
    0 <= l /\ p + l <= base + len /\ p < base + len.

Lemma rd_byte m a x : Forall byte m -> rd m a = Some x -> byte x.
Proof.
  unfold rd. destruct (0 <=? a); [|done]. intros Hm Hx. by eapply Forall_lookup_1.
Qed.

(** A read in a message that fits into its buffer. *)
Lemma walked_read m base len curr i : walked base len curr -> Forall byte m -> options_at + NPD_DHCP_SNP_OPTION_LEN <= zlen m ->
  0 <= i < len -> exists x, rd m (base + i) = Some x /\ byte x.
Proof.
  intros Hw Hb Hm Hi. assert (0 <= base /\ base + len <= zlen m) as [H0 H1].
  { destruct Hw; unfold options_at, file_at, sname_at, dhcp_off, udp_off, ip_off, NPD_DHCP_SNP_OPTION_LEN in *; lia. }
  destruct (rd_lt_Some m (base + i)) as [x Hx]; [lia|]. exists x. split; [done|]. by apply (rd_byte m (base + i)).
Qed.

Lemma option_loop_safe m c : Forall byte m -> options_at + NPD_DHCP_SNP_OPTION_LEN <= zlen m ->
  forall f base len curr i over, walked base len curr -> 0 <= i -> Z.max 0 (len - i) + 1 + later curr <= Z.of_nat f ->
  exists r, option_loop f m c base i len over curr = Some r /\ forall p, r = Some p -> option_inside m c p.
Proof.
  intros Hb Hm. induction f as [|f IH]; intros base len curr i over Hw Hi Hf.
  { exfalso. assert (0 <= later curr) by by destruct Hw. lia. }
  cbn [option_loop]. destruct (Z.leb_spec len i); [by exists None|].
  destruct (walked_read m base len curr i Hw Hb Hm ltac:(lia)) as (x & Hx & Bx). rewrite Hx. cbn [mbind option_bind].
  destruct (Z.eqb_spec x DHCP_PADDING) as [->|Hp]; [|destruct (Z.eqb_spec x DHCP_END) as [->|He]].
  - cbn [negb andb]. rewrite !andb_false_r. apply IH; [done|lia|lia].
  - cbn [negb andb]. rewrite !andb_false_r. change (DHCP_END =? DHCP_OPTION_OVER) with false. cbn iota.
    destruct Hw; unfold later, NPD_DHCP_SNP_OPTION_FIELD, NPD_DHCP_SNP_FILE_FIELD, NPD_DHCP_SNP_SNAME_FIELD in *;
      cbn [Z.eqb Pos.eqb andb] in *.
    + destruct (negb _); [|by exists None]. apply IH; [constructor|lia|]. cbn [Z.eqb Pos.eqb]. lia.
    + destruct (negb _); [|by exists None]. apply IH; [constructor|lia|]. cbn [Z.eqb Pos.eqb]. lia.
    + by exists None.
  - cbn [negb andb]. rewrite !andb_true_r. destruct (Z.leb_spec len (i + 2)); [by exists None|].
    destruct (walked_read m base len curr (i + 1) Hw Hb Hm ltac:(lia)) as (l & Hl & Bl). rewrite Z.add_assoc in Hl. rewrite Hl. cbn [mbind option_bind].
    destruct (walked_read m base len curr (i + 2) Hw Hb Hm ltac:(lia)) as (v & Hv & _). rewrite Z.add_assoc in Hv. rewrite Hv. cbn [mbind option_bind].
    assert (forall over, exists r, option_loop f m c base (i + l + 2) len over curr = Some r /\ forall p, r = Some p -> option_inside m c p) as Hnext.
    { intros over'. unfold byte in *. apply IH; [done|lia|lia]. }
    destruct (Z.eqb_spec x c) as [->|].
    + destruct (Z.leb_spec len (i + 1 + l)); [by exists None|]. exists (Some (base + i + 2)). split; [done|]. intros p [= <-].
      exists base, len, curr, l. unfold byte in *. split_and!; try done; try lia.
      * by replace (base + i + 2 - 2) with (base + i) by lia.
      * by replace (base + i + 2 - 1) with (base + i + 1) by lia.
    + destruct (x =? DHCP_OPTION_OVER); [|done]. destruct (Z.leb_spec len (i + 1 + l)); [by exists None|done].
Qed.

Lemma get_option_safe m c : Forall byte m -> options_at + NPD_DHCP_SNP_OPTION_LEN <= zlen m ->
  exists r, npd_dhcp_snp_get_option m c = Some r /\ forall p, r = Some p -> option_inside m c p.
Proof.
  intros Hb Hm. apply option_loop_safe; [done|done|constructor|lia|]. unfold option_fuel, NPD_DHCP_SNP_OPTION_LEN, later. 
  cbn [Z.eqb NPD_DHCP_SNP_OPTION_FIELD]. lia.
Qed.

(** ** The end, removal and addition *)

Fixpoint drop_first (c : Z) (os : list dhcp_opt) : list dhcp_opt :=
  match os with
  | [] => []
  | o :: os => if has_code c o then os else o :: drop_first c os
  end.

(** The bytes that the first option with a code takes. *)
Fixpoint first_size (c : Z) (os : list dhcp_opt) : Z :=
  match os with
  | [] => 0
  | o :: os => if has_code c o then zlen (encode_opt o) else first_size c os
  end.

Lemma end_loop_field post os : Forall opt_ok os ->
  forall f pre m i, m = pre ++ encode os ++ DHCP_END :: post -> zlen pre = options_at + i -> 0 <= i ->
  end_loop (length os + S f) m i = Some (i + zlen (encode os)).
Proof.
  induction 1 as [|o os Ho Hok IH]; intros f pre m i Hm Hp Hi; rewrite ?encode_cons in *; zl.
  - cbn [length Nat.add end_loop encode concat map app] in *.
    assert (rd m (options_at + i) = Some DHCP_END) as -> by (rewrite Hm; by apply rd_mid). cbn [mbind option_bind].
    rewrite Z.eqb_refl. f_equal. zl. lia.
  - rewrite <- (app_assoc (encode_opt o)) in Hm. cbn [length Nat.add end_loop]. destruct o as [|c d].
    + assert (rd m (options_at + i) = Some DHCP_PADDING) as -> by (rewrite Hm; by apply rd_mid). cbn [mbind option_bind].
      change (DHCP_PADDING =? DHCP_END) with false. rewrite Z.eqb_refl.
      rewrite (IH f (pre ++ [DHCP_PADDING]) m (i + 1)); [|subst m; by rewrite <- app_assoc|zl; lia|lia]. cbn [encode_opt]. zl. f_equal. lia.
    + pose proof Ho as (Hc & _). destruct (field_opt pre c d (encode os ++ DHCP_END :: post) options_at i Hp) as (R0 & R1 & _ & Em & El).
      rewrite <- Hm in R0, R1, Em. rewrite R0, R1. cbn [mbind option_bind]. unfold DHCP_END, DHCP_PADDING in *.
      destruct (Z.eqb_spec c 255), (Z.eqb_spec c 0); try lia. pose proof (zlen_pos d).
      rewrite (IH f (pre ++ encode_opt (Opt c d)) m (i + zlen d + 2)); [|done|zl; lia|lia]. cbn [encode_opt]. zl. f_equal. lia.
Qed.

Lemma end_option_field m os : field m options_at NPD_DHCP_SNP_OPTION_LEN os ->
  npd_dhcp_snp_end_option m = Some (zlen (encode os)).
Proof.
  intros (pre & post & Hm & Hp & Hl & Hok). unfold npd_dhcp_snp_end_option.
  assert (length os < S (length m))%nat.
  { pose proof (encode_len os Hok). assert (zlen (encode os) <= zlen m) as Hz by (subst m; zl; pose proof (zlen_pos pre); pose proof (zlen_pos post); lia).
    unfold zlen in *. lia. }
  replace (S (length m)) with (length os + S (length m - length os))%nat by lia.
  rewrite (end_loop_field post os Hok _ pre m 0 Hm) by lia. f_equal.
Qed.

(** A write of fewer bytes than are named. *)
Lemma mem_write_part pre old post bs a : a = zlen pre -> zlen bs <= zlen old ->
  mem_write (pre ++ old ++ post) a bs = Some (pre ++ bs ++ drop (length bs) old ++ post).
Proof.
  intros -> Hl. assert (zlen (take (length bs) old) = zlen bs) as Ht by (unfold zlen in *; rewrite length_take; lia).
  rewrite <- (take_drop (length bs) old) at 1. rewrite <- app_assoc. by apply mem_write_mid.
Qed.

Lemma remove_loop_field opt_len post os : Forall opt_ok os ->
  forall f pre m i, m = pre ++ encode os ++ DHCP_END :: post -> zlen pre = options_at + i -> 0 <= i ->
  opt_len = i + zlen (encode os) -> opt_len < NPD_DHCP_SNP_OPTION_LEN ->
  exists post', remove_loop (length os + S f) m DHCP_OPTION_82 opt_len 0 i =
      Some (DHCP_SNP_RETURN_CODE_OK, first_size DHCP_OPTION_82 os, pre ++ encode (drop_first DHCP_OPTION_82 os) ++ DHCP_END :: post') /\
    zlen post' = zlen post + first_size DHCP_OPTION_82 os /\ (Forall byte post -> Forall byte post').
Proof.
  induction 1 as [|o os Ho Hok IH]; intros f pre m i Hm Hp Hi Hl Hs; rewrite ?encode_cons in *; zl.
  - exists post. cbn [length Nat.add remove_loop encode concat map app drop_first first_size] in *. zl.
    destruct (Z.leb_spec NPD_DHCP_SNP_OPTION_LEN i); [lia|].
    assert (rd m (options_at + i) = Some DHCP_END) as -> by (rewrite Hm; by apply rd_mid). cbn [mbind option_bind].
    rewrite Z.eqb_refl. cbn [negb]. rewrite !andb_false_r. cbn [andb]. change (DHCP_END =? DHCP_PADDING) with false. subst m. split_and!; [done|lia|done].
  - assert (1 <= zlen (encode_opt o)) by by apply encode_opt_len. pose proof (zlen_pos (encode os)).
    rewrite <- (app_assoc (encode_opt o)) in Hm. cbn [length Nat.add remove_loop drop_first first_size].
    destruct (Z.leb_spec NPD_DHCP_SNP_OPTION_LEN i); [lia|]. destruct o as [|c d].
    + assert (rd m (options_at + i) = Some DHCP_PADDING) as -> by (rewrite Hm; by apply rd_mid). cbn [mbind option_bind has_code].
      rewrite Z.eqb_refl. cbn [negb andb]. rewrite andb_false_r.
      destruct (IH f (pre ++ [DHCP_PADDING]) m (i + 1)) as (post' & E & Hp'); [subst m; by rewrite <- app_assoc|zl; lia|lia|cbn [encode_opt] in *; zl; lia|done|].
      exists post'. rewrite E. split; [|done]. rewrite encode_cons. cbn [encode_opt]. by rewrite <- !app_assoc.
    + pose proof Ho as (Hc & Hd & Hb & _). destruct (field_opt pre c d (encode os ++ DHCP_END :: post) options_at i Hp) as (R0 & R1 & _ & Em & El).
      rewrite <- Hm in R0, R1, Em. rewrite R0, R1. cbn [mbind option_bind has_code]. unfold DHCP_END, DHCP_PADDING in *.
      cbn [encode_opt] in *. zl. pose proof (zlen_pos d).
      destruct (Z.eqb_spec c 255), (Z.eqb_spec c 0), (Z.leb_spec NPD_DHCP_SNP_OPTION_LEN (i + 2)); try lia.
      cbn [negb andb]. rewrite andb_true_r. destruct (Z.eqb_spec c DHCP_OPTION_82) as [Ec|Ec].
      * cbn [andb]. destruct (Z.leb_spec NPD_DHCP_SNP_OPTION_LEN (i + 1 + zlen d)); [lia|].
        unfold memmove, memcpy. rewrite u32_small by (unfold u32_range, NPD_DHCP_SNP_OPTION_LEN in *; lia).
        assert (m = (pre ++ c :: zlen d :: d) ++ (encode os ++ [255]) ++ post) as Em' by (rewrite Em; by rewrite <- !app_assoc).
        match goal with |- context [mem_read m ?a ?n] =>
          assert (mem_read m a n = Some (encode os ++ [255])) as -> by (rewrite Em'; apply mem_read_mid; zl; lia) end.
        cbn [mbind option_bind].
        rewrite <- (app_assoc pre), (app_assoc (c :: _)) in Em'. rewrite Em', mem_write_part by (zl; lia). cbn [mbind option_bind].
        set (k := drop (length (encode os ++ [255])) ((c :: zlen d :: d) ++ encode os ++ [255])).
        assert (zlen k = 2 + zlen d) as Hk.
        { unfold k, zlen. rewrite length_drop, !length_app. cbn [length]. lia. }
        exists (k ++ post). split; [|split; [zl; lia|]].
        { f_equal. f_equal; [f_equal; lia|]. by rewrite <- !app_assoc. }
        intros Hpost. apply Forall_app. split; [|done]. apply Forall_drop, Forall_app.
        split; [apply (byte_ok (Opt c d) Ho)|]. apply Forall_app. split; [|repeat constructor; unfold byte; lia].
        clear -Hok. induction Hok as [|o os Ho _ IHo]; [constructor|]. rewrite encode_cons. apply Forall_app. split; [by apply byte_ok|done].
      * cbn [andb].
        destruct (IH f (pre ++ encode_opt (Opt c d)) m (i + zlen d + 2)) as (post' & E & Hp'); [done|cbn [encode_opt]; zl; lia|lia|lia|done|].
        exists post'. cbn [encode_opt] in E. rewrite E. split; [|done]. rewrite encode_cons. cbn [encode_opt]. by rewrite <- !app_assoc.
Qed.

Lemma remove_opt82_field pre post os : zlen pre = options_at -> zlen (encode os) < NPD_DHCP_SNP_OPTION_LEN -> Forall opt_ok os ->
  exists post', npd_dhcp_snp_remove_opt82 (pre ++ encode os ++ DHCP_END :: post) DHCP_OPTION_82 (zlen (encode os)) 0 =
      Some (DHCP_SNP_RETURN_CODE_OK, first_size DHCP_OPTION_82 os, pre ++ encode (drop_first DHCP_OPTION_82 os) ++ DHCP_END :: post') /\
    zlen post' = zlen post + first_size DHCP_OPTION_82 os /\ (Forall byte post -> Forall byte post').
Proof.
  intros Hp Hl Hok. pose proof (encode_len os Hok). unfold npd_dhcp_snp_remove_opt82, option_fuel, NPD_DHCP_SNP_OPTION_LEN in *.
  replace (Z.to_nat (1500 + 128 + 64 + 3)) with (length os + S (Z.to_nat (1500 + 128 + 64 + 3) - length os - 1))%nat by lia.
  apply (remove_loop_field _ post os Hok _ pre); [done|lia|lia|lia|done].
Qed.

Lemma drop_first_ok c os : Forall opt_ok os -> Forall opt_ok (drop_first c os).
Proof. induction 1 as [|o os Ho Hok IH]; [constructor|]. cbn [drop_first]. destruct (has_code c o); [done|]. by constructor. Qed.

Lemma drop_first_size c os : zlen (encode (drop_first c os)) = zlen (encode os) - first_size c os.
Proof.
  induction os as [|o os IH]; [done|]. cbn [drop_first first_size]. rewrite encode_cons. destruct (has_code c o); zl; [lia|].
  rewrite encode_cons. zl. lia.
Qed.

Lemma first_size_pos c os : 0 <= first_size c os.
Proof. induction os as [|o os IH]; [done|]. cbn [first_size]. destruct (has_code c o); [apply zlen_pos|done]. Qed.

(** Nothing to find, nothing to remove. *)
Lemma no_option c os : opt_offset c os = None -> drop_first c os = os /\ first_size c os = 0.
Proof.
  induction os as [|o os IH]; [done|]. cbn [opt_offset drop_first first_size]. destruct (has_code c o); [done|].
  destruct (opt_offset c os); [done|]. intros _. destruct (IH eq_refl) as [-> ->]. done.
Qed.

Lemma attach_string_field pre post os d tail : zlen pre = options_at -> zlen (encode os) < NPD_DHCP_SNP_OPTION_LEN -> Forall opt_ok os ->
  zlen d + 2 <= zlen post -> zlen (encode os) + zlen d + 3 < NPD_DHCP_SNP_OPTION_LEN ->
  npd_dhcp_snp_attach_opt82_string (pre ++ encode os ++ DHCP_END :: post) (encode_opt (Opt DHCP_OPTION_82 d) ++ tail) =
    Some (DHCP_SNP_RETURN_CODE_OK,
          pre ++ encode (os ++ [Opt DHCP_OPTION_82 d]) ++ DHCP_END :: drop (length d + 2) post).
Proof.
  intros Hp Hl Hok Hr Hs. unfold npd_dhcp_snp_attach_opt82_string.
  rewrite (end_option_field _ os) by (exists pre, post; split_and!; done). cbn [mbind option_bind encode_opt app].
  change (rd (DHCP_OPTION_82 :: zlen d :: d ++ tail) 1) with (Some (zlen d)). cbn [mbind option_bind].
  destruct (Z.leb_spec NPD_DHCP_SNP_OPTION_LEN (zlen (encode os) + zlen d + 2 + 1)); [lia|]. unfold memcpy.
  rewrite (mem_read_mid [] (DHCP_OPTION_82 :: zlen d :: d) tail) by (zl; lia). cbn [mbind option_bind].
  destruct (decide (zlen d + 2 <= zlen post)); [|lia].
  assert (exists x post1, drop (length d + 1) post = x :: post1 /\ drop (length d + 2) post = post1) as (x & post1 & E1 & E2).
  { destruct (drop (length d + 1) post) as [|x post1] eqn:E.
    - apply (f_equal length) in E. rewrite length_drop in E. unfold zlen in *. cbn [length] in E. lia.
    - exists x, post1. split; [done|]. replace (length d + 2)%nat with (length d + 1 + 1)%nat by lia. rewrite <- drop_drop, E. done. }
  replace (pre ++ encode os ++ DHCP_END :: post) with ((pre ++ encode os) ++ (DHCP_END :: post) ++ []) by by rewrite app_nil_r, <- app_assoc.
  rewrite mem_write_part by (zl; lia). cbn [mbind option_bind length drop]. rewrite app_nil_r.
  replace (S (length d)) with (length d + 1)%nat by lia. rewrite E1.
  rewrite (app_assoc (pre ++ encode os)), (wr_mid (_ ++ _)) by (zl; lia). cbn [mbind option_bind]. f_equal. f_equal.
  rewrite encode_app, E2, <- !app_assoc. unfold encode at 3. cbn [map concat encode_opt app]. by rewrite app_nil_r.
Qed.

(** ** The option of a port *)

Section contents.
Context (mac : list Z).

Definition sub_option (t : Z) (d : list Z) : list Z := t :: zlen d :: d.

(** The circuit and the remote identifiers that the configuration asks
    for. *)
Definition circuit_sub (cfg : NPD_DHCP_SNP_GLOBAL_STATUS) (item : option NPD_DHCP_SNP_STATUS_ITEM_STRUCT) (port vlan : Z) : list Z :=
  let ext := dhcp_snp_opt82_fill_format_type cfg =? NPD_DHCP_SNP_OPT82_FILL_FORMAT_TYPE_EXT in
  let with_head (t : Z) (d : list Z) := (if ext then [t; zlen d] else []) ++ d in
  let mode := match item with None => NPD_DHCP_SNP_OPT82_CIRCUITID_TYPE_DEFAULT | Some x => opt82_circuitid x end in
  if mode =? NPD_DHCP_SNP_OPT82_CIRCUITID_TYPE_USERSTR then
    sub_option DHCP_CIRCUIT_ID (with_head 1 (match item with None => replicate 64 0 | Some x => opt82_circuitid_str x end))
  else if mode =? NPD_DHCP_SNP_OPT82_CIRCUITID_TYPE_DEFAULT then
    if dhcp_snp_opt82_format_type cfg =? NPD_DHCP_SNP_OPT82_FORMAT_TYPE_HEX
    then sub_option DHCP_CIRCUIT_ID (with_head 0 (be16 vlan ++ [0; 0] ++ be32 port))
    else if dhcp_snp_opt82_format_type cfg =? NPD_DHCP_SNP_OPT82_FORMAT_TYPE_ASCII
    then sub_option DHCP_CIRCUIT_ID (with_head 1 (text (fmt_02d vlan ++ fmt_02d (s32 port))))
    else sub_option DHCP_CIRCUIT_ID (if ext then [0; 8] else [])
  else sub_option 0 [].

Definition remote_sub (cfg : NPD_DHCP_SNP_GLOBAL_STATUS) : list Z :=
  let ext := dhcp_snp_opt82_fill_format_type cfg =? NPD_DHCP_SNP_OPT82_FILL_FORMAT_TYPE_EXT in
  let with_head (t : Z) (d : list Z) := (if ext then [t; zlen d] else []) ++ d in
  sub_option DHCP_REMOTE_ID
    (if dhcp_snp_opt82_remoteid_type cfg =? NPD_DHCP_SNP_OPT82_REMOTEID_TYPE_SYSMAC then
       if dhcp_snp_opt82_format_type cfg =? NPD_DHCP_SNP_OPT82_FORMAT_TYPE_HEX then with_head 0 mac
       else if dhcp_snp_opt82_format_type cfg =? NPD_DHCP_SNP_OPT82_FORMAT_TYPE_ASCII then with_head 1 (text (concat (map fmt_2x mac)))
       else if ext then [0; 6] else []
     else with_head 1 (dhcp_snp_opt82_remoteid_str cfg)).

Definition option82 (cfg : NPD_DHCP_SNP_GLOBAL_STATUS) (item : option NPD_DHCP_SNP_STATUS_ITEM_STRUCT) (port vlan : Z) : list Z :=
  circuit_sub cfg item port vlan ++ remote_sub cfg.

(** Arrays of the records have their sizes. *)
Definition config_ok (cfg : NPD_DHCP_SNP_GLOBAL_STATUS) (item : option NPD_DHCP_SNP_STATUS_ITEM_STRUCT) : Prop :=
  (length (dhcp_snp_opt82_remoteid_str cfg) = 64%nat /\ Forall byte (dhcp_snp_opt82_remoteid_str cfg)) /\
  (forall x, item = Some x -> length (opt82_circuitid_str x) = 64%nat /\ Forall byte (opt82_circuitid_str x)) /\
  (length mac = 6%nat /\ Forall byte mac).

Lemma mem_write_zeros pre bs n a : a = zlen pre -> (length bs <= n)%nat ->
  mem_write (pre ++ replicate n 0) a bs = Some (pre ++ bs ++ replicate (n - length bs) 0).
Proof.
  intros -> Hl. replace n with (length bs + (n - length bs))%nat at 1 by lia. rewrite replicate_add.
  apply mem_write_mid; [done|]. unfold zlen. by rewrite length_replicate.
Qed.

Lemma sprintf_zeros pre s n a : a = zlen pre -> (length s < n)%nat ->
  sprintf_at (pre ++ replicate n 0) a s = Some (pre ++ text s ++ replicate (n - length s) 0, zlen s).
Proof.
  intros -> Hl. unfold sprintf_at. assert (length (text s) = length s) as Ht by apply length_map.
  rewrite mem_write_zeros by (rewrite ?length_app, ?Ht; cbn [length]; lia). cbn [mbind option_bind]. do 2 f_equal.
  rewrite <- app_assoc, length_app, Ht. cbn [length app]. f_equal. f_equal.
  replace (n - length s)%nat with (S (n - (length s + 1))) by lia. done.
Qed.

Lemma text_len s : zlen (text s) = zlen s.
Proof. unfold zlen, text. by rewrite length_map. Qed.
Lemma text_app s t : text (s ++ t) = text s ++ text t.
Proof. apply map_app. Qed.
Lemma text_bytes s : Forall byte (text s).
Proof.
  apply Forall_map, Forall_true. intros c. unfold byte, code. pose proof (N_ascii_bounded c). lia.
Qed.

Lemma fmt_02d_len n : - 2 ^ 31 <= n < 2 ^ 32 -> (length (fmt_02d n) <= 11)%nat.
Proof.
  intros Hn. assert (forall p k, (p <= 2)%nat -> 0 <= k < 2 ^ 32 -> (length (fmt_prec p k) <= 10)%nat) as Hf.
  { intros p k Hp Hk. unfold fmt_prec. rewrite length_app, length_replicate.
    pose proof (dec_length k 10 ltac:(lia) ltac:(change (10 ^ Z.of_nat 10) with 10000000000; lia)). lia. }
  unfold fmt_02d. destruct (Z.ltb_spec n 0).
  - rewrite length_app. pose proof (Hf 1%nat (- n) ltac:(lia) ltac:(lia)). cbn [length lit list_ascii_of_string]. lia.
  - pose proof (Hf 2%nat n ltac:(lia) ltac:(lia)). lia.
Qed.

Lemma s32_range x : - 2 ^ 31 <= s32 x < 2 ^ 31.
Proof. unfold s32. pose proof (u32_in_range x) as Hu. unfold u32_range in Hu. destruct (Z.ltb_spec (u32 x) (2 ^ 31)); lia. Qed.

(** The last write: type and length of the sub-option. *)
Lemma sub_option_written t d rest n : n = zlen d -> 0 <= zlen d < 256 ->
  mem_write (0 :: 0 :: d ++ rest) 0 [t; u8 n] = Some (sub_option t d ++ rest).
Proof.
  intros -> Hd. rewrite (mem_write_mid [] [0; 0] [t; u8 (zlen d)] (d ++ rest)) by done.
  unfold sub_option. cbn [app]. do 3 f_equal. unfold u8. by rewrite wrap_small.
Qed.

(** A sub-option built over zeros: head, data, then type and length. *)
Lemma sub_built (ext : bool) t d n2 : (length d <= 64)%nat ->
  (content ← (if ext then mem_write (replicate 68 0) 2 [t; zlen d] else Some (replicate 68 0));
   content ← mem_write content (2 + (if ext then 2 else 0)) d;
   mem_write content 0 [n2; u8 ((if ext then 2 else 0) + zlen d)]) =
  Some (sub_option n2 ((if ext then [t; zlen d] else []) ++ d) ++ replicate ((if ext then 64 else 66) - length d) 0).
Proof.
  intros Hd. change (replicate 68 0) with ([0; 0] ++ replicate 66 0). destruct ext.
  - rewrite mem_write_zeros by (try done; cbn; lia). cbn [mbind option_bind length Nat.sub].
    rewrite (app_assoc [0; 0]), mem_write_zeros by (try done; lia). cbn [mbind option_bind].
    change (([0; 0] ++ [t; zlen d]) ++ ?x) with (0 :: 0 :: t :: zlen d :: x).
    rewrite <- (sub_option_written n2 ([t; zlen d] ++ d) _ (2 + zlen d)); [done|zl; lia|zl; unfold zlen; lia].
  - cbn [mbind option_bind]. rewrite (mem_write_zeros [0; 0]) by (try done; lia). cbn [mbind option_bind app].
    rewrite <- (sub_option_written n2 d _ (0 + zlen d)); [done|lia|unfold zlen; lia].
Qed.

(** Two numbers printed one after the other. *)
Lemma sprintf_two pre n s1 s2 : (length s1 + length s2 < n)%nat -> exists k,
  ('(content, n1) ← sprintf_at (pre ++ replicate n 0) (zlen pre) s1;
   '(content, n2) ← sprintf_at content (zlen pre + n1) s2; Some (content, n1, n2)) =
  Some (pre ++ text (s1 ++ s2) ++ replicate k 0, zlen s1, zlen s2).
Proof.
  intros Hn. exists (n - length s1 - length s2)%nat. rewrite sprintf_zeros by (try done; lia). cbn [mbind option_bind].
  rewrite app_assoc, sprintf_zeros; [|by zl; rewrite text_len|lia]. cbn [mbind option_bind]. by rewrite text_app, <- !app_assoc.
Qed.

Lemma mem_read_all bs n : n = zlen bs -> mem_read bs 0 n = Some bs.
Proof. intros ->. rewrite <- (app_nil_r bs) at 1. by apply (mem_read_mid [] bs []). Qed.

Lemma circuit_content cfg item port vlan : config_ok cfg item -> 0 <= vlan < 65536 ->
  exists mode tail, npd_dhcp_snp_get_opt82_port_circuitid (Some cfg) item port vlan (replicate 68 0) =
    Some (DHCP_SNP_RETURN_CODE_OK, mode, circuit_sub cfg item port vlan ++ tail).
Proof.
  intros (_ & Hi & _) Hv. unfold npd_dhcp_snp_get_opt82_port_circuitid, circuit_sub.
  set (mode := match item with Some x => opt82_circuitid x | None => _ end).
  set (str := match item with Some x => opt82_circuitid_str x | None => replicate 64 0 end).
  assert (length str = 64%nat) as Hs by (unfold str; destruct item as [x|]; [by apply Hi|done]).
  set (ext := dhcp_snp_opt82_fill_format_type cfg =? _). destruct (mode =? NPD_DHCP_SNP_OPT82_CIRCUITID_TYPE_USERSTR).
  - pose proof (sub_built ext 1 str DHCP_CIRCUIT_ID ltac:(lia)) as Hb. unfold memcpy.
    rewrite mem_read_all by (unfold zlen; by rewrite Hs).
    replace (zlen str) with NPD_DHCP_SNP_CIRCUITID_STR_LEN in * by (unfold zlen; by rewrite Hs).
    exists mode, (replicate ((if ext then 64 else 66) - length str) 0). destruct ext; cbn [mbind option_bind] in *.
    + destruct (mem_write (replicate 68 0) 2 _) as [c1|]; [|done]. cbn [mbind option_bind] in *.
      destruct (mem_write c1 _ _) as [c2|]; [|done]. cbn [mbind option_bind] in *. rewrite Hb. done.
    + destruct (mem_write (replicate 68 0) _ _) as [c2|]; [|done]. cbn [mbind option_bind] in *. rewrite Hb. done.
  - destruct (mode =? NPD_DHCP_SNP_OPT82_CIRCUITID_TYPE_DEFAULT); [|by eexists mode, (replicate 66 0)].
    destruct (dhcp_snp_opt82_format_type cfg =? NPD_DHCP_SNP_OPT82_FORMAT_TYPE_HEX); [|destruct (dhcp_snp_opt82_format_type cfg =? _)].
    + pose proof (sub_built ext 0 (be16 vlan ++ [0; 0] ++ be32 port) DHCP_CIRCUIT_ID ltac:(cbn; lia)) as Hb.
      change (zlen (be16 vlan ++ _)) with 8 in *. exists mode, (replicate ((if ext then 64 else 66) - 8) 0). destruct ext; cbn [mbind option_bind] in *.
      * destruct (mem_write (replicate 68 0) 2 _) as [c1|]; [|done]. cbn [mbind option_bind] in *.
        destruct (mem_write c1 _ _) as [c2|]; [|done]. cbn [mbind option_bind] in *. rewrite Hb. done.
      * destruct (mem_write (replicate 68 0) _ _) as [c2|]; [|done]. cbn [mbind option_bind] in *. rewrite Hb. done.
    + pose proof (fmt_02d_len vlan ltac:(lia)) as L1. pose proof (fmt_02d_len (s32 port) ltac:(pose proof (s32_range port); lia)) as L2.
      set (s1 := fmt_02d vlan) in *. set (s2 := fmt_02d (s32 port)) in *. change (replicate 68 0) with ([0; 0] ++ replicate 66 0).
      pose proof (fun pre n => sprintf_two pre n s1 s2) as Hpr.
      exists mode. destruct ext.
      * rewrite mem_write_zeros by (try done; cbn; lia). cbn [mbind option_bind length Nat.sub].
        destruct (Hpr ([0; 0] ++ [0; 8]) 64%nat ltac:(lia)) as [k E]. exists (replicate k 0). rewrite <- app_assoc in E. cbn [app zlen] in E |- *.
        change (zlen [0; 0; 0; 8]) with (2 + 2) in E.
        destruct (sprintf_at _ (2 + 2) s1) as [[c1 n1]|]; [|done]. cbn [mbind option_bind] in E |- *.
        destruct (sprintf_at c1 _ s2) as [[c2 n2]|]; [|done]. cbn [mbind option_bind] in E |- *. injection E as -> -> ->.
        change (0 :: 0 :: 0 :: 8 :: ?x) with ([0; 0] ++ [0; 8] ++ x). rewrite mem_write_mid by done. cbn [mbind option_bind app].
        assert (zlen s1 + zlen s2 = zlen (text (s1 ++ s2))) as -> by (rewrite text_len; by zl).
        unfold u8 at 1. rewrite wrap_small by (rewrite text_len; zl; unfold zlen; lia).
        pose proof (sub_option_written DHCP_CIRCUIT_ID (1 :: zlen (text (s1 ++ s2)) :: text (s1 ++ s2)) (replicate k 0) (2 + zlen s1 + zlen s2)) as Hw.
        cbn [app] in Hw. rewrite Hw; [done|zl; rewrite text_len; zl; lia|zl; rewrite text_len; zl; unfold zlen; lia].
      * cbn [mbind option_bind]. destruct (Hpr [0; 0] 66%nat ltac:(lia)) as [k E]. exists (replicate k 0).
        change (zlen [0; 0]) with (2 + 0) in E.
        destruct (sprintf_at _ (2 + 0) s1) as [[c1 n1]|]; [|done]. cbn [mbind option_bind] in E |- *.
        destruct (sprintf_at c1 _ s2) as [[c2 n2]|]; [|done]. cbn [mbind option_bind] in E |- *. injection E as -> -> ->.
        cbn [app]. pose proof (sub_option_written DHCP_CIRCUIT_ID (text (s1 ++ s2)) (replicate k 0) (0 + zlen s1 + zlen s2)) as Hw.
        rewrite Hw; [done|rewrite text_len; zl; lia|rewrite text_len; zl; unfold zlen; lia].
    + exists mode. destruct ext; [by exists (replicate 64 0)|by exists (replicate 66 0)].
Qed.

Lemma hex_text_len l : length (concat (map fmt_2x l)) = (2 * length l)%nat.
Proof. induction l as [|x l IH]; [done|]. cbn [map concat length fmt_2x app]. rewrite IH. lia. Qed.

Lemma remote_content cfg item : config_ok cfg item ->
  exists tail, npd_dhcp_snp_get_opt82_port_remoteid mac (Some cfg) (replicate 68 0) =
    Some (DHCP_SNP_RETURN_CODE_OK, remote_sub cfg ++ tail).
Proof.
  intros ([Hr _] & _ & Hm & _). unfold npd_dhcp_snp_get_opt82_port_remoteid, remote_sub.
  set (ext := dhcp_snp_opt82_fill_format_type cfg =? _).
  destruct (dhcp_snp_opt82_remoteid_type cfg =? NPD_DHCP_SNP_OPT82_REMOTEID_TYPE_SYSMAC).
  - destruct (dhcp_snp_opt82_format_type cfg =? NPD_DHCP_SNP_OPT82_FORMAT_TYPE_HEX); [|destruct (dhcp_snp_opt82_format_type cfg =? _)].
    + pose proof (sub_built ext 0 mac DHCP_REMOTE_ID ltac:(lia)) as Hb. unfold memcpy.
      rewrite mem_read_all by (unfold zlen; by rewrite Hm). replace (zlen mac) with 6 in * by (unfold zlen; by rewrite Hm).
      exists (replicate ((if ext then 64 else 66) - length mac) 0). destruct ext; cbn [mbind option_bind] in *.
      * destruct (mem_write (replicate 68 0) 2 _) as [c1|]; [|done]. cbn [mbind option_bind] in *.
        destruct (mem_write c1 _ _) as [c2|]; [|done]. cbn [mbind option_bind] in *. rewrite Hb. done.
      * destruct (mem_write (replicate 68 0) _ _) as [c2|]; [|done]. cbn [mbind option_bind] in *. rewrite Hb. done.
    + rewrite mem_read_all by (unfold zlen; by rewrite Hm). cbn [mbind option_bind]. pose proof (hex_text_len mac) as Hx. rewrite Hm in Hx. change (2 * 6)%nat with 12%nat in Hx.
      set (s := concat (map fmt_2x mac)) in *. assert (zlen (text s) = 12) as Ht by (rewrite text_len; unfold zlen; by rewrite Hx).
      assert (zlen s = 12) as Hz by (unfold zlen; by rewrite Hx). rewrite Ht.
      change (replicate 68 0) with ([0; 0] ++ replicate 66 0). destruct ext.
      * exists (replicate 52 0). rewrite mem_write_zeros by (try done; cbn; lia). cbn [mbind option_bind length Nat.sub].
        rewrite (app_assoc [0; 0]), sprintf_zeros by (try done; lia). cbn [mbind option_bind]. rewrite <- app_assoc, mem_write_mid by done.
        cbn [mbind option_bind app]. rewrite Hx, Hz. change (64 - 12)%nat with 52%nat.
        pose proof (sub_option_written DHCP_REMOTE_ID (1 :: 12 :: text s) (replicate 52 0) (2 + 12)) as Hw. cbn [app] in Hw.
        rewrite Hw; [done|zl; lia|zl; lia].
      * exists (replicate 54 0). cbn [mbind option_bind]. rewrite sprintf_zeros by (try done; lia). cbn [mbind option_bind app].
        rewrite Hx, Hz. change (66 - 12)%nat with 54%nat. rewrite (sub_option_written DHCP_REMOTE_ID (text s) (replicate 54 0) (0 + 12)); [done|lia|lia].
    + destruct ext; [by exists (replicate 64 0)|by exists (replicate 66 0)].
  - set (str := dhcp_snp_opt82_remoteid_str cfg) in *. pose proof (sub_built ext 1 str DHCP_REMOTE_ID ltac:(lia)) as Hb. unfold memcpy, NPD_DHCP_SNP_REMOTEID_STR_LEN.
    rewrite mem_read_all by (unfold zlen; by rewrite Hr). replace (zlen str) with 64 in * by (unfold zlen; by rewrite Hr).
    exists (replicate ((if ext then 64 else 66) - length str) 0). destruct ext; cbn [mbind option_bind] in *.
    + destruct (mem_write (replicate 68 0) 2 _) as [c1|]; [|done]. cbn [mbind option_bind] in *.
      destruct (mem_write c1 _ _) as [c2|]; [|done]. cbn [mbind option_bind] in *. rewrite Hb. done.
    + destruct (mem_write (replicate 68 0) _ _) as [c2|]; [|done]. cbn [mbind option_bind] in *. rewrite Hb. done.
Qed.

(** A sub-option fits into the local arrays. *)
Definition sub_ok (bs : list Z) : Prop :=
  exists t d, bs = sub_option t d /\ (length d <= 66)%nat /\ byte t /\ Forall byte d.

Lemma sub_ok_head (ext : bool) n t d : (length d <= 64)%nat -> Forall byte d -> byte t -> byte n ->
  sub_ok (sub_option n ((if ext then [t; zlen d] else []) ++ d)).
Proof.
  intros Hl Hd Ht Hn. eexists n, _. split; [done|]. destruct ext; cbn [app]; (split; [cbn [length]; lia|]); split; try done.
  constructor; [done|]. constructor; [unfold byte, zlen; lia|done].
Qed.

Lemma be16_bytes v : Forall byte (be16 v).
Proof. unfold be16, byte. repeat constructor; apply Z.mod_pos_bound; lia. Qed.
Lemma be32_bytes v : Forall byte (be32 v).
Proof. unfold be32. apply Forall_app. split; apply be16_bytes. Qed.

Lemma circuit_sub_ok cfg item port vlan : config_ok cfg item -> 0 <= vlan < 65536 -> sub_ok (circuit_sub cfg item port vlan).
Proof.
  intros (_ & Hi & _) Hv. unfold circuit_sub. destruct (_ =? NPD_DHCP_SNP_OPT82_CIRCUITID_TYPE_USERSTR).
  - destruct item as [x|]; [destruct (Hi x eq_refl)|]; (apply sub_ok_head; [|try done|unfold byte; lia|done]); try (cbn; lia).
    apply Forall_replicate. done.
  - destruct (_ =? NPD_DHCP_SNP_OPT82_CIRCUITID_TYPE_DEFAULT).
    2: { exists 0, []. split; [done|]. split; [cbn; lia|done]. }
    destruct (_ =? NPD_DHCP_SNP_OPT82_FORMAT_TYPE_HEX); [|destruct (_ =? NPD_DHCP_SNP_OPT82_FORMAT_TYPE_ASCII)].
    + apply sub_ok_head; [cbn; lia| |done|done]. apply Forall_app. split; [apply be16_bytes|].
      apply Forall_app. split; [by repeat constructor|apply be32_bytes].
    + apply sub_ok_head; [|apply text_bytes|done|done]. unfold text. rewrite length_map, length_app.
      pose proof (fmt_02d_len vlan ltac:(lia)). pose proof (fmt_02d_len (s32 port) ltac:(pose proof (s32_range port); lia)). lia.
    + eexists _, _. split; [done|]. destruct (_ =? NPD_DHCP_SNP_OPT82_FILL_FORMAT_TYPE_EXT); (split; [cbn; lia|]); by repeat constructor.
Qed.

Lemma remote_sub_ok cfg item : config_ok cfg item -> sub_ok (remote_sub cfg).
Proof.
  intros ([Hr Hrb] & _ & Hm & Hmb). unfold remote_sub.
  destruct (_ =? NPD_DHCP_SNP_OPT82_REMOTEID_TYPE_SYSMAC); [|apply sub_ok_head; [lia|done|done|done]].
  destruct (_ =? NPD_DHCP_SNP_OPT82_FORMAT_TYPE_HEX); [apply sub_ok_head; [lia|done|done|done]|].
  destruct (_ =? NPD_DHCP_SNP_OPT82_FORMAT_TYPE_ASCII).
  - apply sub_ok_head; [|apply text_bytes|done|done]. unfold text. rewrite length_map, hex_text_len. lia.
  - eexists _, _. split; [done|]. destruct (_ =? NPD_DHCP_SNP_OPT82_FILL_FORMAT_TYPE_EXT); (split; [cbn; lia|]); by repeat constructor.
Qed.

Lemma cat_opt82_ok a b tail1 tail2 : sub_ok a -> sub_ok b ->
  exists tail, npd_dhcp_snp_cat_opt82_sting (a ++ tail1) (b ++ tail2) (replicate 140 0) =
    Some (encode_opt (Opt DHCP_OPTION_82 (a ++ b)) ++ tail).
Proof.
  intros (t1 & d1 & -> & L1 & _) (t2 & d2 & -> & L2 & _).
  unfold npd_dhcp_snp_cat_opt82_sting. change (replicate 140 0) with (0 :: replicate 139 0). change (wr (0 :: ?x) 0 ?v) with (Some (v :: x)).
  change (rd (sub_option ?t ?d ++ ?r) 1) with (Some (zlen d)). cbn [mbind option_bind]. unfold memcpy.
  rewrite (mem_read_mid [] (sub_option t1 d1) tail1) by (unfold sub_option; zl; lia). cbn [mbind option_bind].
  change (DHCP_OPTION_82 :: replicate 139 0) with ([DHCP_OPTION_82; 0] ++ replicate 138 0).
  assert (length (sub_option t1 d1) = length d1 + 2)%nat as S1 by (unfold sub_option; cbn [length]; lia).
  assert (length (sub_option t2 d2) = length d2 + 2)%nat as S2 by (unfold sub_option; cbn [length]; lia).
  rewrite mem_write_zeros by (try done; lia). cbn [mbind option_bind].
  rewrite (mem_read_mid [] (sub_option t2 d2) tail2) by (unfold sub_option; zl; lia). cbn [mbind option_bind].
  rewrite (app_assoc [DHCP_OPTION_82; 0]), mem_write_zeros; [|unfold sub_option; zl; lia|lia]. cbn [mbind option_bind].
  eexists. rewrite <- !app_assoc. change ([DHCP_OPTION_82; 0] ++ ?x) with ([DHCP_OPTION_82] ++ 0 :: x). rewrite wr_mid by done.
  cbn [encode_opt app]. rewrite <- !app_assoc. unfold u8. rewrite wrap_small.
  - assert (zlen d1 + 2 + (zlen d2 + 2) = zlen (sub_option t1 d1 ++ sub_option t2 d2)) as -> by (unfold sub_option; zl; lia). done.
  - unfold zlen. lia.
Qed.

End contents.

(** ** Decided *)

Lemma bytes_decided l : forallb (fun x => (0 <=? x) && (x <? 256)) l = true -> Forall byte l.
Proof.
  induction l as [|x l IH]; [constructor|]. cbn [forallb]. intros [Hx Hl]%andb_true_iff. apply Forall_cons. split; [unfold byte; lia|by apply IH].
Qed.

Definition opt_okb (o : dhcp_opt) : bool :=
  match o with
  | Pad => true
  | Opt c d => (0 <? c) && (c <? 255) && (zlen d <? 256) && forallb (fun x => (0 <=? x) && (x <? 256)) d && negb (bool_decide (d = []))
  end.

Lemma opts_decided os : forallb opt_okb os = true -> Forall opt_ok os.
Proof.
  induction os as [|[|c d] os IH]; cbn [forallb opt_okb]; [constructor|intros H; constructor; [done|by apply IH]|].
  rewrite !andb_true_iff. intros [[[[[H1 H2] H3] H4] H5] H6]. constructor; [|by apply IH]. cbn [opt_ok]. split_and!; [lia|lia|lia|by apply bytes_decided|].
  intros _ ->. done.
Qed.

(** ** Properties of the walk *)

Definition found_code {A} (r : option A) : Z :=
  match r with Some _ => DHCP_SNP_RETURN_CODE_FOUND | None => DHCP_SNP_RETURN_CODE_NOT_FOUND end.

(** C26: On a message whose option fields are well formed, with the fields
    [file] and [sname] in use as its overload options say, the walk returns
    the address of the data of the first option with the code asked for, and
    the check for option 82 answers whether there is one. *)
Theorem option_walk_exact m c os fs ss : message m (visible os fs ss) -> 0 < c < 255 ->
  npd_dhcp_snp_get_option m c = Some (locate c (visible os fs ss)) /\
  npd_dhcp_snp_check_opt82 m c = Some (found_code (locate c (visible os fs ss))).
Proof.
  intros Hm Hc. pose proof (get_option_message m c os fs ss Hm Hc) as E. split; [done|].
  unfold npd_dhcp_snp_check_opt82. fold (npd_dhcp_snp_get_option m c). rewrite E. by destruct (locate c _).
Qed.

(** C25: In a buffer that holds all of the 1500 option bytes that the walk may
    cover, no content of a packet stops the walk or leads it out of the
    message: it returns for all bytes and all codes, and what it finds is an
    option with that code whose data is inside of one of the three fields; the
    check for option 82 agrees with it.  (In a shorter buffer the walk can read
    past the end: it knows the bound of 1500 only.) *)
Theorem option_walk_safe m c : Forall byte m -> options_at + NPD_DHCP_SNP_OPTION_LEN <= zlen m ->
  exists r, npd_dhcp_snp_get_option m c = Some r /\ (forall p, r = Some p -> option_inside m c p) /\
    npd_dhcp_snp_check_opt82 m c = Some (found_code r).
Proof.
  intros Hb Hm. destruct (get_option_safe m c Hb Hm) as (r & E & Hr). exists r. split_and!; [done|done|].
  unfold npd_dhcp_snp_check_opt82. fold (npd_dhcp_snp_get_option m c). rewrite E. by destruct r.
Qed.

(** A message that says that [file] and [sname] hold options, with its lease
    time in [sname]. *)
Definition demo_options : list dhcp_opt := [Opt 0x35 [5]; Opt DHCP_OPTION_OVER [3]].
Definition demo_file : list dhcp_opt := [Pad; Opt 0x36 [10; 0; 0; 1]].
Definition demo_sname : list dhcp_opt := [Opt 0x33 [0; 0; 14; 16]].
Definition demo_overloaded : list Z :=
  replicate 86 0 ++ encode demo_sname ++ DHCP_END :: replicate 57 0 ++ encode demo_file ++ DHCP_END :: replicate 120 0 ++ [0x63; 0x82; 0x53; 0x63] ++
  encode demo_options ++ DHCP_END :: replicate 20 0.

Lemma option_walk_exact_witness :
  message demo_overloaded (visible demo_options demo_file demo_sname) /\
  npd_dhcp_snp_get_option demo_overloaded 0x33 = Some (Some (sname_at + 2)) /\
  npd_dhcp_snp_check_opt82 demo_overloaded 0x33 = Some DHCP_SNP_RETURN_CODE_FOUND.
Proof.
  assert (message demo_overloaded (visible demo_options demo_file demo_sname)) as Hm.
  { change (visible demo_options demo_file demo_sname) with [(options_at, NPD_DHCP_SNP_OPTION_LEN, demo_options); (file_at, 128, demo_file); (sname_at, 64, demo_sname)].
    intros base len os. rewrite !elem_of_cons, elem_of_nil. intros [E|[E|[E|[]]]]; injection E as -> -> ->.
    - exists (take 282 demo_overloaded), (replicate 20 0). split_and!; [by vm_compute|by vm_compute|by vm_compute|by apply opts_decided].
    - exists (take 150 demo_overloaded), (drop 158 demo_overloaded). split_and!; [by vm_compute|by vm_compute|by vm_compute|by apply opts_decided].
    - exists (take 86 demo_overloaded), (drop 93 demo_overloaded). split_and!; [by vm_compute|by vm_compute|by vm_compute|by apply opts_decided]. }
  split; [exact Hm|]. exact (option_walk_exact demo_overloaded 0x33 demo_options demo_file demo_sname Hm ltac:(lia)).
Defined.

Lemma option_walk_safe_witness :
  exists r, npd_dhcp_snp_get_option (replicate 1782 52) 51 = Some r /\ (forall p, r = Some p -> option_inside (replicate 1782 52) 51 p) /\
    npd_dhcp_snp_check_opt82 (replicate 1782 52) 51 = Some (found_code r).
Proof.
  apply (option_walk_safe (replicate 1782 52) 51).
  - apply Forall_replicate. by unfold byte.
  - by vm_compute.
Defined.
