(* ===== verification/DhcpFrames.v ===== *)
(** * DHCP packets on their way through the switch

    Packets with their headers: the checksums that npd writes are the ones a
    receiver accepts, a request leaves with the option 82 of its port, and a
    reply loses the option again; and options without an end mark, on which
    the code reads past the buffer. *)

From Stdlib Require Import ZArith Lia Bool.
From stdpp Require Import base decidable list.
From S2P Require Import Prelude DhcpPacket DhcpOptions.

Open Scope Z_scope.

(** ** Internet checksums *)

(** The sum of the 16-bit words of a list of bytes, in the order of the
    network and in the order of the processor; an odd byte is the first of
    its word. *)
Fixpoint be_sum (l : list Z) : Z :=
  match l with a :: b :: l => 256 * a + b + be_sum l | [a] => 256 * a | [] => 0 end.
Fixpoint le_sum (l : list Z) : Z :=
  match l with a :: b :: l => a + 256 * b + le_sum l | [a] => a | [] => 0 end.

(** What a receiver checks: the one's complement sum of the words, with the
    checksum among them, is all ones (RFC 1071). *)
Definition sum_accepted (l : list Z) : Prop := 0 < be_sum l /\ be_sum l mod 65535 = 0.

Lemma pairs_ind (P : list Z -> Prop) : P [] -> (forall a, P [a]) -> (forall a b l, P l -> P (a :: b :: l)) -> forall l, P l.
Proof.
  intros H0 H1 H2. fix IH 1. intros [|a [|b l]]; [done|apply H1|apply H2, IH].
Qed.

Lemma le_sum_bounds l : Forall byte l -> 0 <= be_sum l /\ 0 <= le_sum l <= 65535 * ((zlen l + 1) / 2).
Proof.
  revert l. apply (pairs_ind (fun l => Forall byte l -> _)).
  - intros _. cbn [be_sum le_sum]. change (zlen (@nil Z)) with 0. dlia.
  - intros a Ha. inversion Ha as [|? ? Hb]. subst. unfold byte in Hb. cbn [be_sum le_sum]. rewrite zlen_cons. change (zlen (@nil Z)) with 0. dlia.
  - intros a b l IH Hl. inversion Hl as [|? ? Ha Hl']. inversion Hl' as [|? ? Hb Hl'']. subst.
    destruct (IH Hl'') as [I1 I2]. unfold byte in *. cbn [be_sum le_sum]. rewrite !zlen_cons.
    replace (1 + (1 + zlen l) + 1) with (zlen l + 1 + 1 * 2) by lia. rewrite Z.div_add by lia. lia.
Qed.

(** The byte order does not matter to the check. *)
Lemma le_be_sum l : exists k, le_sum l = 256 * be_sum l + 65535 * k.
Proof.
  revert l. apply pairs_ind.
  - by exists 0.
  - intros a. exists (- a). cbn [be_sum le_sum]. lia.
  - intros a b l [k Hk]. exists (k - a). cbn [be_sum le_sum]. lia.
Qed.

Lemma be_sum_zero l : Forall byte l -> be_sum l = 0 -> le_sum l = 0.
Proof.
  revert l. apply (pairs_ind (fun l => Forall byte l -> be_sum l = 0 -> le_sum l = 0)); [done| |].
  - intros a _. cbn [be_sum le_sum]. lia.
  - intros a b l IH Hl. inversion Hl as [|? ? Ha Hl']. inversion Hl' as [|? ? Hb Hl'']. subst.
    pose proof (le_sum_bounds l Hl'') as [H0 _]. unfold byte in *. cbn [be_sum le_sum]. intros E. rewrite (IH Hl'') by lia. lia.
Qed.

Lemma accepted_le l : Forall byte l -> 0 < le_sum l -> le_sum l mod 65535 = 0 -> sum_accepted l.
Proof.
  intros Hl Hp Hm. pose proof (le_sum_bounds l Hl) as [H0 _]. split.
  - destruct (Z.eq_dec (be_sum l) 0) as [E|]; [|lia]. rewrite (be_sum_zero l Hl E) in Hp. lia.
  - destruct (le_be_sum l) as [k Hk]. apply Z.mod_divide in Hm as [j Hj]; [|done]. apply Z.mod_divide; [done|].
    exists (256 * (j - k) - be_sum l). lia.
Qed.

Lemma sum_words_ok n : forall pre bs post a s, length bs = (2 * n)%nat -> Forall byte bs -> a = zlen pre -> 0 <= s -> s + le_sum bs < 2 ^ 31 ->
  sum_words n (pre ++ bs ++ post) a s = Some (s + le_sum bs).
Proof.
  induction n as [|n IH]; intros pre bs post a s Hl Hb -> Hs Hm.
  - destruct bs; [|done]. cbn [sum_words le_sum]. f_equal. lia.
  - destruct bs as [|x [|y bs]]; [done|cbn [length] in Hl; lia|].
    inversion Hb as [|? ? Hx Hb']. inversion Hb' as [|? ? Hy Hb'']. subst. unfold byte in *.
    pose proof (le_sum_bounds bs Hb'') as [_ [H0 _]]. cbn [sum_words le_sum] in *. unfold get_le16.
    change ((x :: y :: bs) ++ post) with (x :: y :: bs ++ post). rewrite (rd_mid pre x _ (zlen pre) eq_refl). cbn [mbind option_bind].
    replace (pre ++ x :: y :: bs ++ post) with ((pre ++ [x]) ++ y :: bs ++ post) by by rewrite <- app_assoc.
    rewrite rd_mid by (zl; lia). cbn [mbind option_bind]. destruct (Z.leb_spec (2 ^ 31) (s + (256 * y + x))); [lia|].
    replace ((pre ++ [x]) ++ y :: bs ++ post) with ((pre ++ [x; y]) ++ bs ++ post) by by rewrite <- !app_assoc.
    cbn [length] in Hl. rewrite IH; [f_equal; lia|lia|done|zl; lia|lia|lia].
Qed.

Lemma fold_sum_ok s : 0 <= s < 2 ^ 31 -> exists r, fold_sum 3 s = Some r /\ 0 <= r < 65536 /\ (r - s) mod 65535 = 0.
Proof.
  intros Hs. assert (forall x, 0 <= x -> Z.land x 0xffff = x mod 65536 /\ Z.shiftr x 16 = x / 65536) as Hx.
  { intros x _. split; [apply (Z.land_ones x 16); lia|apply (Z.shiftr_div_pow2 x 16); lia]. }
  assert (forall x, (x mod 65536 + x / 65536 - x) mod 65535 = 0) as Hc.
  { intros x. apply Z.mod_divide; [done|]. exists (- (x / 65536)). dlia. }
  assert (forall f x, 0 <= x -> fold_sum (S f) x = if x / 65536 =? 0 then Some x else fold_sum f (x mod 65536 + x / 65536)) as Hf.
  { intros f x H0. cbn [fold_sum]. by rewrite !(proj1 (Hx x H0)), !(proj2 (Hx x H0)). }
  set (s1 := s mod 65536 + s / 65536). set (s2 := s1 mod 65536 + s1 / 65536).
  assert (0 <= s1 < 65536 * 2 - 1) by (unfold s1; dlia). assert (0 <= s2 < 65536) by (unfold s2; dlia).
  rewrite Hf by lia. destruct (Z.eqb_spec (s / 65536) 0); [exists s; split_and!; [done|lia|dlia|by rewrite Z.sub_diag]|]. fold s1.
  rewrite Hf by lia. destruct (Z.eqb_spec (s1 / 65536) 0); [exists s1; split_and!; [done|lia|dlia|apply Hc]|]. fold s2.
  rewrite Hf by lia. destruct (Z.eqb_spec (s2 / 65536) 0); [|dlia]. exists s2. split_and!; [done|lia|lia|].
  pose proof (Hc s1) as [j1 H1]%Z.mod_divide; [|done]. pose proof (Hc s) as [j2 H2]%Z.mod_divide; [|done]. fold s1 s2 in H1, H2.
  apply Z.mod_divide; [done|]. exists (j1 + j2). lia.
Qed.

Lemma lnot16 r : 0 <= r < 65536 -> u16 (Z.lnot r) = 65535 - r.
Proof. intros Hr. unfold u16, wrap, Z.lnot. change (2 ^ 16) with 65536. dlia. Qed.

(** The checksum of a block of memory makes its sum a multiple of 65535. *)
Lemma checksum_block pre bs post a n : Forall byte bs -> a = zlen pre -> n = zlen bs -> n <= 65536 ->
  exists c, npd_dhcp_snp_checksum (pre ++ bs ++ post) a n = Some c /\ 0 <= c < 65536 /\
    0 < c + le_sum bs /\ (c + le_sum bs) mod 65535 = 0.
Proof.
  intros Hb -> -> Hn. pose proof (le_sum_bounds bs Hb) as [_ [H0 H1]].
  assert (le_sum bs < 2 ^ 31) as Hs by dlia. unfold npd_dhcp_snp_checksum.
  assert (exists s, (sum ← sum_words (Z.to_nat (zlen bs / 2)) (pre ++ bs ++ post) (zlen pre) 0;
     (if zlen bs mod 2 =? 0 then Some sum
      else tmp ← rd (pre ++ bs ++ post) (zlen pre + zlen bs - 1); if 2 ^ 31 <=? sum + tmp then None else Some (sum + tmp))) = Some s /\ s = le_sum bs) as (s & E & Es).
  { pose proof (zlen_pos bs). destruct (Z.eqb_spec (zlen bs mod 2) 0) as [E|E].
    - rewrite sum_words_ok by (try done; unfold zlen in *; dlia). cbn [mbind option_bind]. by eexists.
    - destruct (exists_last (l := bs)) as (bs' & x & ->); [by intros ->|]. zl. apply Forall_app in Hb as [Hb Hx]. inversion Hx as [|? ? Hx']. subst.
      assert (exists k, length bs' = (2 * k)%nat) as [k Hk].
      { exists (Z.to_nat (zlen bs' / 2)). unfold zlen in *. dlia. }
      assert (le_sum (bs' ++ [x]) = le_sum bs' + x) as Hle.
      { clear -Hk. revert bs' Hk. induction k as [|k IH]; intros bs' Hk; [by destruct bs'|].
        destruct bs' as [|y [|z bs']]; [done|cbn [length] in Hk; lia|]. cbn [app le_sum length] in *. rewrite IH by lia. lia. }
      pose proof (le_sum_bounds bs' Hb) as [_ [H3 _]]. unfold byte in *.
      replace (Z.to_nat ((zlen bs' + (1 + 0)) / 2)) with k by (unfold zlen; rewrite Hk; dlia).
      rewrite <- (app_assoc bs'). rewrite sum_words_ok by (try done; lia). cbn [mbind option_bind].
      rewrite (app_assoc pre). change ([x] ++ post) with (x :: post). rewrite rd_mid by (zl; lia). cbn [mbind option_bind].
      destruct (Z.leb_spec (2 ^ 31) (0 + le_sum bs' + x)); [lia|]. eexists. split; [done|]. lia. }
  destruct (sum_words _ _ _ _) as [s0|]; [|done]. cbn [mbind option_bind] in E |- *. rewrite E. cbn [mbind option_bind]. subst s.
  destruct (fold_sum_ok (le_sum bs)) as (r & Er & Hr & Hm); [lia|]. rewrite Er. cbn [mbind option_bind]. exists (65535 - r).
  rewrite lnot16 by done. split; [done|]. apply Z.mod_divide in Hm as [j Hj]; [|done]. split_and!; [lia|lia| |].
  - destruct (Z.eq_dec r 65535) as [->|]; [|lia]. destruct (Z.eq_dec (le_sum bs) 0) as [Ez|]; [|lia]. 
    by rewrite Ez in Er.
  - apply Z.mod_divide; [done|]. exists (1 - j). lia.
Qed.

(** ** Packets with their headers *)

Lemma mem_write_Some h k bs h' : mem_write h k bs = Some h' ->
  exists pre mid post, h = pre ++ mid ++ post /\ zlen pre = k /\ zlen mid = zlen bs /\ h' = pre ++ bs ++ post.
Proof.
  unfold mem_write. destruct (Z.leb_spec 0 k), (Z.leb_spec (k + zlen bs) (zlen h)); try done. intros [= <-].
  exists (take (Z.to_nat k) h), (take (length bs) (drop (Z.to_nat k) h)), (drop (Z.to_nat k + length bs) h). unfold zlen in *.
  rewrite <- drop_drop, !take_drop. split_and!; [done| | |done]; rewrite length_take, ?length_drop; lia.
Qed.

Lemma mem_read_Some h k n bs : mem_read h k n = Some bs -> exists pre post, h = pre ++ bs ++ post /\ zlen pre = k /\ zlen bs = n.
Proof.
  unfold mem_read. destruct (Z.leb_spec 0 k), (Z.leb_spec 0 n), (Z.leb_spec (k + n) (zlen h)); try done. intros [= <-].
  exists (take (Z.to_nat k) h), (drop (Z.to_nat n) (drop (Z.to_nat k) h)). unfold zlen in *. rewrite !take_drop.
  split_and!; [done| |]; rewrite length_take, ?length_drop; lia.
Qed.

Lemma rd_Some_split {A} (h : list A) k x : rd h k = Some x -> exists pre post, h = pre ++ x :: post /\ zlen pre = k.
Proof.
  unfold rd. destruct (Z.leb_spec 0 k); [|done]. intros Hx. exists (take (Z.to_nat k) h), (drop (S (Z.to_nat k)) h).
  split; [by rewrite take_drop_middle|]. apply lookup_lt_Some in Hx. unfold zlen. rewrite length_take. lia.
Qed.

(** An access to the headers, which follow [eth] and precede [body]. *)
Section headers.
Context (eth body : list Z) (Heth : zlen eth = ip_off).

Lemma head_write h a bs h' : mem_write h (a - ip_off) bs = Some h' ->
  mem_write (eth ++ h ++ body) a bs = Some (eth ++ h' ++ body).
Proof.
  intros (pre & mid & post & -> & Hk & Hm & ->)%mem_write_Some.
  replace (eth ++ (pre ++ mid ++ post) ++ body) with ((eth ++ pre) ++ mid ++ post ++ body) by by rewrite <- !app_assoc.
  rewrite mem_write_mid by (zl; lia). by rewrite <- !app_assoc.
Qed.

Lemma head_read h a n bs : mem_read h (a - ip_off) n = Some bs -> mem_read (eth ++ h ++ body) a n = Some bs.
Proof.
  intros (pre & post & -> & Hk & Hm)%mem_read_Some.
  replace (eth ++ (pre ++ bs ++ post) ++ body) with ((eth ++ pre) ++ bs ++ post ++ body) by by rewrite <- !app_assoc.
  apply mem_read_mid; zl; lia.
Qed.

Lemma head_rd h a x : rd h (a - ip_off) = Some x -> rd (eth ++ h ++ body) a = Some x.
Proof.
  intros (pre & post & -> & Hk)%rd_Some_split.
  replace (eth ++ (pre ++ x :: post) ++ body) with ((eth ++ pre) ++ x :: post ++ body) by by rewrite <- !app_assoc.
  apply rd_mid. zl. lia.
Qed.

Lemma head_wr h a y h' : wr h (a - ip_off) y = Some h' -> wr (eth ++ h ++ body) a y = Some (eth ++ h' ++ body).
Proof.
  intros Hw. pose proof (wr_bounds _ _ _ _ Hw) as Hb. destruct (rd_lt_Some h (a - ip_off) Hb) as [x Hx].
  apply rd_Some_split in Hx as (pre & post & -> & Hk). rewrite wr_mid in Hw by done. injection Hw as <-.
  replace (eth ++ (pre ++ x :: post) ++ body) with ((eth ++ pre) ++ x :: post ++ body) by by rewrite <- !app_assoc.
  rewrite wr_mid by (zl; lia). by rewrite <- !app_assoc.
Qed.

End headers.

(** Evaluate the next access to headers that are written out. *)
Ltac header_eval := first [eassumption|cbv; reflexivity].
Ltac header_step :=
  first
  [ erewrite head_write by header_eval
  | erewrite head_read by header_eval
  | erewrite head_wr by header_eval
  | erewrite head_rd by header_eval ]; cbn [mbind option_bind].

(** The elements of a list of known length. *)
Ltac explode l H :=
  repeat (destruct l as [|? l]; [discriminate H|]); destruct l; [|discriminate H].

Lemma le_sum_app n : forall l k, length l = (2 * n)%nat -> le_sum (l ++ k) = le_sum l + le_sum k.
Proof.
  induction n as [|n IH]; intros l k Hl; [by destruct l|]. destruct l as [|a [|b l]]; [done|cbn [length] in Hl; lia|].
  cbn [app le_sum length] in *. rewrite IH by lia. lia.
Qed.

Lemma le16_sum c : 0 <= c < 65536 -> le_sum (le16 c) = c.
Proof. intros Hc. cbn [le_sum le16]. dlia. Qed.
Lemma le16_bytes c : Forall byte (le16 c).
Proof. unfold le16, byte. repeat constructor; apply Z.mod_pos_bound; lia. Qed.

(** What a UDP checksum covers: addresses, protocol, length and the
    segment (RFC 768). *)
Definition udp_covered (ip seg : list Z) : list Z :=
  take 8 (drop 12 ip) ++ [0; IPPROTO_UDP] ++ take 2 (drop 4 seg) ++ seg.

Definition be_value (l : list Z) : Z := foldl (fun v b => 256 * v + b) 0 l.

(** The length and the checksum in a UDP header. *)
Definition udp_len (udp : list Z) : Z := be_value (take 2 (drop 4 udp)).
Definition udp_check (udp : list Z) : Z := be_value (drop 6 udp).

Ltac split_bytes H := repeat (apply Forall_cons in H as [? H]).
Ltac bytes := repeat (apply Forall_cons; split; [assumption || (unfold byte; lia)|]); try solve [constructor|assumption].

(** The end of [npd_dhcp_information_checksum]: the IP header is put back
    and gets its checksum. *)
Lemma ip_part eth junk ip udp body : length eth = 14%nat -> length junk = 20%nat -> length ip = 20%nat -> length udp = 8%nat -> Forall byte ip ->
  exists c, (m ← mem_write (eth ++ (junk ++ udp) ++ body) ip_off ip; m ← mem_write m (ip_off + 10) (le16 0);
       c ← npd_dhcp_snp_checksum m ip_off 20; mem_write m (ip_off + 10) (le16 c)) =
      Some (eth ++ (take 10 ip ++ c ++ drop 12 ip) ++ udp ++ body) /\
    length c = 2%nat /\ Forall byte c /\ sum_accepted (take 10 ip ++ c ++ drop 12 ip).
Proof.
  intros He Hj Hi Hu Bi. assert (zlen eth = ip_off) as He' by (unfold zlen; by rewrite He).
  explode junk Hj. explode ip Hi. explode udp Hu. split_bytes Bi. do 2 header_step.
  match goal with |- context [eth ++ [?a0; ?a1; ?a2; ?a3; ?a4; ?a5; ?a6; ?a7; ?a8; ?a9; ?a10; ?a11; ?a12; ?a13; ?a14; ?a15; ?a16; ?a17; ?a18; ?a19; ?b0; ?b1; ?b2; ?b3; ?b4; ?b5; ?b6; ?b7] ++ body] =>
    pose proof (checksum_block eth [a0; a1; a2; a3; a4; a5; a6; a7; a8; a9; a10; a11; a12; a13; a14; a15; a16; a17; a18; a19]
      ([b0; b1; b2; b3; b4; b5; b6; b7] ++ body) ip_off 20) as Hsum end.
  destruct Hsum as (c & Ec & Hc & Hp & Hm); [bytes|done|done|lia|].
  lazymatch goal with |- context [npd_dhcp_snp_checksum ?m ip_off 20] => change (npd_dhcp_snp_checksum m ip_off 20 = Some c) in Ec end.
  rewrite Ec. cbn [mbind option_bind].
  pose proof (le16_bytes c) as Bc. pose proof (le16_sum c Hc) as Sc. unfold le16 in *. set (c1 := c mod 256) in *. set (c2 := c / 256 mod 256) in *.
  exists [c1; c2]. clearbody c1 c2. apply Forall_cons in Bc as [B1 [B2 _]%Forall_cons]. header_step. cbn [take drop app] in *.
  split_and!; [done|done|bytes|]. apply accepted_le; [bytes|cbn [le_sum] in *; lia|].
  rewrite <- Hm. f_equal. cbn [le_sum] in *. lia.
Qed.

Lemma information_checksum_ok eth ip udp body :
  length eth = 14%nat -> length ip = 20%nat -> length udp = 8%nat ->
  Forall byte ip -> Forall byte udp -> Forall byte body ->
  (udp_check udp <> 0 -> 8 <= udp_len udp <= 65516 /\ udp_len udp - 8 <= zlen body) ->
  exists c d, npd_dhcp_information_checksum (eth ++ ip ++ udp ++ body) =
      Some (eth ++ (take 10 ip ++ c ++ drop 12 ip) ++ (take 6 udp ++ d) ++ body) /\
    length c = 2%nat /\ length d = 2%nat /\ Forall byte c /\ Forall byte d /\
    sum_accepted (take 10 ip ++ c ++ drop 12 ip) /\
    (udp_check udp = 0 -> d = drop 6 udp) /\
    (udp_check udp <> 0 -> sum_accepted (udp_covered ip ((take 6 udp ++ d) ++ take (Z.to_nat (udp_len udp - 8)) body))).
Proof.
  intros He Hi Hu Bi Bu Bb Hn. assert (zlen eth = ip_off) as He' by (unfold zlen; by rewrite He). pose proof Hi as Hi'.
  rewrite (app_assoc ip). explode ip Hi. explode udp Hu. pose proof Bi as Bi'. split_bytes Bi. split_bytes Bu.
  unfold npd_dhcp_information_checksum, udp_check, udp_len, get_le16, be_value in *. cbn [take drop foldl] in *. repeat header_step.
  assert (z25 = 0 /\ z26 = 0 <-> 256 * z26 + z25 = 0) as Hz by (unfold byte in *; lia).
  assert (256 * (256 * 0 + z25) + z26 = 0 <-> 256 * z26 + z25 = 0) as Hz' by (unfold byte in *; lia).
  match goal with |- context [eth ++ [?a0; ?a1; ?a2; ?a3; ?a4; ?a5; ?a6; ?a7; ?a8; ?a9; ?a10; ?a11; ?a12; ?a13; ?a14; ?a15; ?a16; ?a17; ?a18; ?a19; ?b0; ?b1; ?b2; ?b3; ?b4; ?b5; ?b6; ?b7] ++ body] =>
    set (junk := [a0; a1; a2; a3; a4; a5; a6; a7; a8; a9; a10; a11; a12; a13; a14; a15; a16; a17; a18; a19]) end.
  destruct (Z.eqb_spec (256 * z26 + z25) 0) as [E|E].
  - cbn [mbind option_bind]. destruct (ip_part eth junk _ [z19; z20; z21; z22; z23; z24; 0; 0] body He eq_refl Hi' eq_refl Bi') as (c & Ec & Hc & Bc & Sc).
    exists c, [0; 0]. split; [exact Ec|]. split_and!; [done|done|done|bytes|done| |].
    + intros _. by destruct (proj2 Hz E) as [-> ->].
    + intros Hne. exfalso. by apply Hne, Hz'.
  - destruct Hn as [Hn1 Hn2]; [by rewrite Hz'|]. unfold get_be16. do 2 header_step. set (n := 256 * (256 * 0 + z23) + z24) in *.
    replace (256 * z23 + z24) with n by (unfold n; lia). set (k := Z.to_nat (n - 8)).
    destruct (checksum_block eth ((junk ++ [z19; z20; z21; z22; z23; z24; 0; 0]) ++ take k body) (drop k body) ip_off (n + 20)) as (c & Ec & Hc & Hp & Hm).
    { unfold junk. cbn [app]. bytes. by apply Forall_take. }
    { done. }
    { unfold junk, k. rewrite !zlen_app. unfold zlen in *. rewrite length_take. cbn [length]. lia. }
    { lia. }
    rewrite <- (app_assoc _ (take k body)), take_drop in Ec.
    lazymatch goal with |- context [npd_dhcp_snp_checksum ?m ip_off _] => change (npd_dhcp_snp_checksum m ip_off (n + 20) = Some c) in Ec end.
    rewrite Ec. cbn [mbind option_bind].
    pose proof (le16_bytes c) as Bc. pose proof (le16_sum c Hc) as Sc. unfold le16 in *. set (c1 := c mod 256) in *. set (c2 := c / 256 mod 256) in *.
    clearbody c1 c2. apply Forall_cons in Bc as [B1 [B2 _]%Forall_cons]. header_step.
    destruct (ip_part eth junk _ [z19; z20; z21; z22; z23; z24; c1; c2] body He eq_refl Hi' eq_refl Bi') as (d & Ed & Hd & Bd & Sd).
    exists d, [c1; c2]. split; [exact Ed|]. split_and!; [done|done|done|bytes|done| |].
    + intros Hz0. exfalso. by apply E, Hz'.
    + intros _. unfold udp_covered, IPPROTO_UDP. cbn [take drop app] in *. apply accepted_le; [bytes; by apply Forall_take|unfold junk, IPPROTO_UDP in *; cbn [app le_sum] in *; lia|].
      rewrite <- Hm. f_equal. unfold junk, IPPROTO_UDP in *. cbn [app le_sum] in *. lia.
Qed.

(** ** Lengths *)

Definition ip_len (ip : list Z) : Z := be_value (take 2 (drop 2 ip)).
Definition with_udp_len (udp : list Z) (n : Z) : list Z := take 4 udp ++ be16 n ++ drop 6 udp.
Definition with_ip_len (ip : list Z) (n : Z) : list Z := take 2 ip ++ be16 n ++ drop 4 ip.

Lemma write_udp_len eth ip udp body n : length eth = 14%nat -> length ip = 20%nat -> length udp = 8%nat ->
  mem_write (eth ++ ip ++ udp ++ body) (udp_off + 4) (be16 n) = Some (eth ++ ip ++ with_udp_len udp n ++ body).
Proof.
  intros He Hi Hu. assert (zlen eth = ip_off) by (unfold zlen; by rewrite He). rewrite (app_assoc ip), (app_assoc ip). unfold with_udp_len, be16.
  set (a := n / 256 mod 256). set (b := n mod 256). clearbody a b. clear -H Hi Hu. explode ip Hi. explode udp Hu. by header_step.
Qed.

Lemma write_ip_len eth ip udp body n : length eth = 14%nat -> length ip = 20%nat -> length udp = 8%nat ->
  mem_write (eth ++ ip ++ udp ++ body) (ip_off + 2) (be16 n) = Some (eth ++ with_ip_len ip n ++ udp ++ body).
Proof.
  intros He Hi Hu. assert (zlen eth = ip_off) by (unfold zlen; by rewrite He). rewrite (app_assoc ip), (app_assoc (with_ip_len _ _)). unfold with_ip_len, be16.
  set (a := n / 256 mod 256). set (b := n mod 256). clearbody a b. clear -H Hi Hu. explode ip Hi. explode udp Hu. by header_step.
Qed.

Lemma read_udp_len eth ip udp body : length eth = 14%nat -> length ip = 20%nat -> length udp = 8%nat ->
  get_be16 (eth ++ ip ++ udp ++ body) (udp_off + 4) = Some (udp_len udp).
Proof.
  intros He Hi Hu. assert (zlen eth = ip_off) by (unfold zlen; by rewrite He). rewrite (app_assoc ip). unfold get_be16, udp_len, be_value.
  clear -H Hi Hu. explode ip Hi. explode udp Hu. do 2 header_step. cbn [drop take foldl]. f_equal; lia.
Qed.

Lemma read_ip_len eth ip udp body : length eth = 14%nat -> length ip = 20%nat -> length udp = 8%nat ->
  get_be16 (eth ++ ip ++ udp ++ body) (ip_off + 2) = Some (ip_len ip).
Proof.
  intros He Hi Hu. assert (zlen eth = ip_off) by (unfold zlen; by rewrite He). rewrite (app_assoc ip). unfold get_be16, ip_len, be_value.
  clear -H Hi Hu. explode ip Hi. explode udp Hu. do 2 header_step. cbn [drop take foldl]. f_equal; lia.
Qed.

Lemma be16_value n : 0 <= n < 65536 -> be_value (be16 n) = n.
Proof. intros Hn. unfold be_value, be16. cbn [foldl]. dlia. Qed.

Lemma with_udp_len_ok udp n : length udp = 8%nat -> 0 <= n < 65536 -> Forall byte udp ->
  length (with_udp_len udp n) = 8%nat /\ udp_len (with_udp_len udp n) = n /\ udp_check (with_udp_len udp n) = udp_check udp /\
  Forall byte (with_udp_len udp n) /\ drop 6 (with_udp_len udp n) = drop 6 udp.
Proof.
  intros Hu Hn Bu. pose proof (be16_value n Hn) as Hv. pose proof (be16_bytes n) as Bn. unfold with_udp_len, udp_len, udp_check, be16 in *.
  set (a := n / 256 mod 256) in *. set (b := n mod 256) in *. clearbody a b. clear -Hu Bu Hv Bn. explode udp Hu. cbn [take drop app] in *.
  split_and!; try done. split_bytes Bu. split_bytes Bn. bytes.
Qed.

Lemma with_ip_len_ok ip n : length ip = 20%nat -> 0 <= n < 65536 -> Forall byte ip ->
  length (with_ip_len ip n) = 20%nat /\ ip_len (with_ip_len ip n) = n /\ Forall byte (with_ip_len ip n).
Proof.
  intros Hi Hn Bi. pose proof (be16_value n Hn) as Hv. pose proof (be16_bytes n) as Bn. unfold with_ip_len, ip_len, be16 in *.
  set (a := n / 256 mod 256) in *. set (b := n mod 256) in *. clearbody a b. clear -Hi Bi Hv Bn. explode ip Hi. cbn [take drop app] in *.
  split_and!; try done. split_bytes Bi. split_bytes Bn. bytes.
Qed.


(** Headers that a receiver of the payload accepts: lengths, the IP
    checksum, and the UDP checksum if the packet had one. *)
Definition headers_accepted (ip udp body : list Z) (had_check : Prop) (n : Z) : Prop :=
  length ip = 20%nat /\ length udp = 8%nat /\ Forall byte ip /\ Forall byte udp /\ udp_len udp = n /\ ip_len ip = n + 20 /\ sum_accepted ip /\
  (had_check -> sum_accepted (udp_covered ip (udp ++ take (Z.to_nat (n - 8)) body))).

(** The lengths written, then the checksums. *)
Lemma lengths_and_checksums eth ip udp body n :
  length eth = 14%nat -> length ip = 20%nat -> length udp = 8%nat -> Forall byte ip -> Forall byte udp -> Forall byte body ->
  8 <= n <= 65515 -> n - 8 <= zlen body ->
  exists ip' udp', npd_dhcp_information_checksum (eth ++ with_ip_len ip (n + 20) ++ with_udp_len udp n ++ body) = Some (eth ++ ip' ++ udp' ++ body) /\
    headers_accepted ip' udp' body (udp_check udp <> 0) n.
Proof.
  intros He Hi Hu Bi Bu Bb Hn Hb.
  destruct (with_ip_len_ok ip (n + 20) Hi) as (Li & Vi & Bi'); [lia|done|].
  destruct (with_udp_len_ok udp n Hu) as (Lu & Vu & Cu & Bu' & Du); [lia|done|].
  destruct (information_checksum_ok eth (with_ip_len ip (n + 20)) (with_udp_len udp n) body He Li Lu Bi' Bu' Bb) as (c & d & E & Lc & Ld & Bc & Bd & Ai & Zu & Au).
  { rewrite Vu. lia. }
  eexists _, _. split; [exact E|]. rewrite Vu, Cu in *. unfold headers_accepted. split_and!; [| | | | | |done|].
  - rewrite !length_app, length_take, length_drop, Li, Lc. done.
  - rewrite !length_app, length_take, Lu, Ld. done.
  - repeat (apply Forall_app; split); try done; [by apply Forall_take|by apply Forall_drop].
  - apply Forall_app. split; [by apply Forall_take|done].
  - transitivity (udp_len (with_udp_len udp n)); [|done]. unfold udp_len. revert Lu. clear. generalize (with_udp_len udp n). intros l Lu. by explode l Lu.
  - transitivity (ip_len (with_ip_len ip (n + 20))); [|done]. unfold ip_len. revert Li Lc. clear. generalize (with_ip_len ip (n + 20)). intros l Li Lc. explode l Li. by explode c Lc.
  - intros Hc. pose proof (Au Hc) as Ha. unfold udp_covered in *. 
    replace (drop 12 (take 10 _ ++ c ++ drop 12 (with_ip_len ip (n + 20)))) with (drop 12 (with_ip_len ip (n + 20))); [done|].
    revert Li Lc. clear. generalize (with_ip_len ip (n + 20)). intros l Li Lc. explode l Li. by explode c Lc.
Qed.

Lemma set_lengths_ok eth ip udp body bufflen del add n :
  length eth = 14%nat -> length ip = 20%nat -> length udp = 8%nat -> Forall byte ip -> Forall byte udp -> Forall byte body ->
  n = udp_len udp - del + add -> 8 <= n <= 65515 -> n - 8 <= zlen body ->
  exists ip' udp', set_lengths (eth ++ ip ++ udp ++ body) bufflen del add = Some (eth ++ ip' ++ udp' ++ body, u32 (bufflen - del + add)) /\
    headers_accepted ip' udp' body (udp_check udp <> 0) n.
Proof.
  intros He Hi Hu Bi Bu Bb Hn Hr Hb. unfold set_lengths. rewrite read_udp_len by done. cbn [mbind option_bind]. rewrite <- Hn.
  assert (u16 n = n) as -> by (apply wrap_small; lia). rewrite write_udp_len by done. cbn [mbind option_bind].
  destruct (with_udp_len_ok udp n Hu ltac:(lia) Bu) as (Lu & Vu & _). rewrite read_udp_len, Vu by done. cbn [mbind option_bind].
  assert (u16 (n + 20) = n + 20) as -> by (apply wrap_small; lia). rewrite write_ip_len by done. cbn [mbind option_bind].
  destruct (lengths_and_checksums eth ip udp body n He Hi Hu Bi Bu Bb Hr Hb) as (ip' & udp' & -> & H). by exists ip', udp'.
Qed.

(** ** Packets *)

(** A DHCP packet in its buffer: [fixed] is the message up to its options,
    [rest] what the buffer holds after the end mark. *)
Record frame := Frame { eth : list Z; ip : list Z; udp : list Z; fixed : list Z; opts : list dhcp_opt; rest : list Z }.

Definition wire (f : frame) : list Z := eth f ++ ip f ++ udp f ++ fixed f ++ encode (opts f) ++ DHCP_END :: rest f.

Record frame_ok (f : frame) : Prop := {
  fr_eth : length (eth f) = 14%nat;
  fr_ip : length (ip f) = 20%nat /\ Forall byte (ip f);
  fr_udp : length (udp f) = 8%nat /\ Forall byte (udp f);
  fr_fixed : length (fixed f) = 240%nat /\ Forall byte (fixed f);
  fr_opts : Forall opt_ok (opts f) /\ zlen (encode (opts f)) < NPD_DHCP_SNP_OPTION_LEN;
  fr_over : Z.land (overload (opts f) 0) NPD_DHCP_SNP_FILE_FIELD = 0;
  fr_rest : Forall byte (rest f)
}.

(** The operation code of the message. *)
Definition op_of (f : frame) : option Z := head (fixed f).

Definition before (f : frame) : list Z := eth f ++ ip f ++ udp f ++ fixed f.

Lemma wire_before f : wire f = before f ++ encode (opts f) ++ DHCP_END :: rest f.
Proof. unfold wire, before. by rewrite <- !app_assoc. Qed.

Lemma before_len f : frame_ok f -> zlen (before f) = options_at.
Proof.
  intros []. unfold before, zlen. rewrite !length_app. destruct fr_ip0 as [-> _], fr_udp0 as [-> _], fr_fixed0 as [-> _]. by rewrite fr_eth0.
Qed.

Lemma frame_field f : frame_ok f -> field (wire f) options_at NPD_DHCP_SNP_OPTION_LEN (opts f).
Proof.
  intros Hf. exists (before f), (rest f). split_and!; [apply wire_before|by apply before_len|apply Hf|apply Hf].
Qed.

Lemma frame_message f : frame_ok f -> message (wire f) (visible (opts f) [] []).
Proof.
  intros Hf. unfold visible. rewrite (fr_over f Hf). cbn [Z.eqb]. intros base len os [= -> -> ->]%list_elem_of_singleton. by apply frame_field.
Qed.

Lemma frame_get_option f c : frame_ok f -> 0 < c < 255 ->
  npd_dhcp_snp_get_option (wire f) c = Some ((fun k => options_at + k) <$> opt_offset c (opts f)).
Proof.
  intros Hf Hc. rewrite (get_option_message _ _ _ _ _ (frame_message f Hf) Hc). unfold visible. rewrite (fr_over f Hf). cbn [Z.eqb locate].
  by destruct (opt_offset c (opts f)).
Qed.

Lemma frame_op f : length (eth f) = 14%nat -> length (ip f) = 20%nat -> length (udp f) = 8%nat -> length (fixed f) = 240%nat ->
  rd (wire f) op_at = op_of f.
Proof.
  intros He Hi Hu Hx. unfold op_of, wire. destruct (fixed f) as [|x l]; [done|]. cbn [head].
  replace (eth f ++ ip f ++ udp f ++ (x :: l) ++ encode (opts f) ++ DHCP_END :: rest f) with ((eth f ++ ip f ++ udp f) ++ x :: l ++ encode (opts f) ++ DHCP_END :: rest f)
    by by rewrite <- !app_assoc.
  apply rd_mid. unfold zlen. rewrite !length_app, He, Hi, Hu. done.
Qed.

(** The packet without its first option 82. *)
Lemma frame_strip f : frame_ok f ->
  exists post, npd_dhcp_snp_remove_opt82 (wire f) DHCP_OPTION_82 (zlen (encode (opts f))) 0 =
      Some (DHCP_SNP_RETURN_CODE_OK, first_size DHCP_OPTION_82 (opts f), before f ++ encode (drop_first DHCP_OPTION_82 (opts f)) ++ DHCP_END :: post) /\
    zlen post = zlen (rest f) + first_size DHCP_OPTION_82 (opts f) /\ Forall byte post.
Proof.
  intros Hf. destruct (remove_opt82_field (before f) (rest f) (opts f)) as (post & E & Hl & Hb); [by apply before_len|apply Hf|apply Hf|].
  exists post. rewrite wire_before. split_and!; [done|done|]. apply Hb, Hf.
Qed.

Lemma encode_bytes os : Forall opt_ok os -> Forall byte (encode os).
Proof.
  induction 1 as [|o os Ho _ IH]; [constructor|]. rewrite encode_cons. apply Forall_app. split; [by apply byte_ok|done].
Qed.

Definition with_opts (f : frame) (ip' udp' : list Z) (os : list dhcp_opt) (rest' : list Z) : frame :=
  Frame (eth f) ip' udp' (fixed f) os rest'.

(** The payload of the UDP segment, and what follows it in the buffer. *)
Definition body (f : frame) : list Z := fixed f ++ encode (opts f) ++ DHCP_END :: rest f.

Lemma body_bytes f : Forall byte (fixed f) -> Forall opt_ok (opts f) -> Forall byte (rest f) -> Forall byte (body f).
Proof.
  intros Hx Ho Hr. unfold body. apply Forall_app. split; [done|]. apply Forall_app. split; [by apply encode_bytes|].
  apply Forall_cons. split; [unfold byte, DHCP_END; lia|done].
Qed.

Lemma wire_body f : wire f = eth f ++ ip f ++ udp f ++ body f.
Proof. done. Qed.

(** ** Requests and replies *)

Section packets.
Context (mac : list Z).

(** A packet whose option 82 is [data] and whose buffer has room for it. *)
Definition has_room (f : frame) (data : list Z) : Prop :=
  let gone := first_size DHCP_OPTION_82 (opts f) in
  let n := udp_len (udp f) - gone + (zlen data + 2) in
  zlen data + 2 <= zlen (rest f) + gone /\ zlen (encode (opts f)) - gone + zlen data + 3 < NPD_DHCP_SNP_OPTION_LEN /\
  8 <= n <= 65515 /\ n - 8 <= zlen (body f).

(** The check and the removal of a request. *)
Lemma strip_found f : frame_ok f ->
  exists post, (found ← npd_dhcp_snp_check_opt82 (wire f) DHCP_OPTION_82;
      if found =? DHCP_SNP_RETURN_CODE_FOUND then
        endposition ← npd_dhcp_snp_end_option (wire f); npd_dhcp_snp_remove_opt82 (wire f) DHCP_OPTION_82 endposition 0
      else Some (DHCP_SNP_RETURN_CODE_OK, 0, wire f)) =
      Some (DHCP_SNP_RETURN_CODE_OK, first_size DHCP_OPTION_82 (opts f), before f ++ encode (drop_first DHCP_OPTION_82 (opts f)) ++ DHCP_END :: post) /\
    zlen post = zlen (rest f) + first_size DHCP_OPTION_82 (opts f) /\ Forall byte post.
Proof.
  intros Hf. unfold npd_dhcp_snp_check_opt82. fold (npd_dhcp_snp_get_option (wire f) DHCP_OPTION_82).
  rewrite frame_get_option by (try done; unfold DHCP_OPTION_82; lia). cbn [mbind option_bind].
  destruct (opt_offset DHCP_OPTION_82 (opts f)) eqn:E; cbn [fmap option_fmap option_map].
  - rewrite Z.eqb_refl, (end_option_field _ _ (frame_field f Hf)). by apply frame_strip.
  - change (DHCP_SNP_RETURN_CODE_NOT_FOUND =? DHCP_SNP_RETURN_CODE_FOUND) with false. destruct (no_option _ _ E) as [-> ->].
    exists (rest f). rewrite <- wire_before. split_and!; [done|lia|apply Hf].
Qed.

Lemma option82_ok cfg item port vlan : config_ok mac cfg item -> 0 <= vlan < 65536 -> opt_ok (Opt DHCP_OPTION_82 (option82 mac cfg item port vlan)).
Proof.
  intros Hcfg Hv. destruct (circuit_sub_ok mac cfg item port vlan Hcfg Hv) as (t & d & E1 & L1 & B1 & D1).
  destruct (remote_sub_ok mac cfg item Hcfg) as (t' & d' & E2 & L2 & B2 & D2).
  unfold option82. rewrite E1, E2. unfold sub_option. cbn [opt_ok]. split_and!; [done|done| | |done].
  - zl. unfold zlen. lia.
  - apply Forall_app. split; (apply Forall_cons; split; [done|]; apply Forall_cons; split; [unfold byte, zlen; lia|done]).
Qed.

Lemma attach_opt82_frame cfg item f ifindex vid bufflen : frame_ok f -> config_ok mac cfg item -> 0 <= vid < 65536 ->
  npd_dhcp_snp_get_opt82_port_strategy item = NPD_DHCP_SNP_OPT82_STRATEGY_TYPE_REPLACE ->
  let data := option82 mac cfg item ifindex vid in
  let gone := first_size DHCP_OPTION_82 (opts f) in
  let n := udp_len (udp f) - gone + (zlen data + 2) in
  has_room f data ->
  exists ip' udp' rest', let g := with_opts f ip' udp' (drop_first DHCP_OPTION_82 (opts f) ++ [Opt DHCP_OPTION_82 data]) rest' in
    npd_dhcp_snp_attach_opt82 mac (Some cfg) item (wire f) ifindex vid bufflen =
      Some (DHCP_SNP_RETURN_CODE_OK, wire g, u32 (bufflen - gone + (zlen data + 2))) /\
    headers_accepted ip' udp' (body g) (udp_check (udp f) <> 0) n /\ Forall byte rest' /\
    zlen rest' = zlen (rest f) + gone - (zlen data + 2).
Proof.
  intros Hf Hcfg Hv Hst data gone n (Hr & Hm & Hn & Hb). fold gone in Hr, Hm, Hn, Hb. unfold npd_dhcp_snp_attach_opt82.
  rewrite Hst, Z.eqb_refl. destruct (circuit_content mac cfg item ifindex vid Hcfg Hv) as (mode & t1 & ->). cbn [mbind option_bind].
  rewrite Z.eqb_refl. cbn [negb]. destruct (remote_content mac cfg item Hcfg) as (t2 & ->). cbn [mbind option_bind]. rewrite Z.eqb_refl. cbn [negb].
  destruct (cat_opt82_ok _ _ t1 t2 (circuit_sub_ok mac cfg item ifindex vid Hcfg Hv) (remote_sub_ok mac cfg item Hcfg)) as (t3 & ->).
  fold (option82 mac cfg item ifindex vid). fold data. cbn [mbind option_bind].
  destruct (strip_found f Hf) as (post & E & Hp & Bp). destruct (npd_dhcp_snp_check_opt82 (wire f) DHCP_OPTION_82) as [found|]; [|done].
  cbn [mbind option_bind] in E |- *. rewrite E. cbn [mbind option_bind]. rewrite Z.eqb_refl. cbn [negb]. clear E. fold gone in Hp |- *.
  pose proof (drop_first_size DHCP_OPTION_82 (opts f)) as Hs. fold gone in Hs. destruct (fr_opts f Hf) as [Ho Hl].
  pose proof (first_size_pos DHCP_OPTION_82 (opts f)) as Hg. fold gone in Hg.
  rewrite attach_string_field; [|by apply before_len|lia|by apply drop_first_ok|lia|lia]. cbn [mbind option_bind]. rewrite Z.eqb_refl. cbn [negb].
  change (rd (encode_opt (Opt DHCP_OPTION_82 data) ++ t3) 1) with (Some (zlen data)). cbn [mbind option_bind].
  set (rest' := drop (length data + 2) post). assert (Forall byte rest') as Br by by apply Forall_drop.
  set (os := drop_first DHCP_OPTION_82 (opts f) ++ [Opt DHCP_OPTION_82 data]).
  assert (zlen rest' = zlen (rest f) + gone - (zlen data + 2)) as Lr.
  { unfold rest'. unfold zlen in *. rewrite length_drop. lia. }
  pose proof (fr_ip f Hf) as [Li Bi]. pose proof (fr_udp f Hf) as [Lu Bu]. pose proof (fr_fixed f Hf) as [Lx Bx].
  assert (Forall opt_ok os) as Hos.
  { apply Forall_app. split; [by apply drop_first_ok|]. apply Forall_cons. split; [|constructor]. by apply option82_ok. }
  assert (Forall byte (fixed f ++ encode os ++ DHCP_END :: rest')) as Bb by (apply (body_bytes (Frame [] [] [] (fixed f) os rest')); done).
  destruct (set_lengths_ok (eth f) (ip f) (udp f) (fixed f ++ encode os ++ DHCP_END :: rest') bufflen gone (zlen data + 2) n) as (ip' & udp' & E & Ha);
    try done; [apply Hf| |].
  { unfold body in Hb. unfold os. rewrite encode_app. unfold n, encode at 2. cbn [map concat encode_opt app]. rewrite ?app_nil_r. zl. fold n. lia. }
  exists ip', udp', rest'. split_and!; [|done|done|done].
  unfold before. rewrite <- !app_assoc. rewrite E. done.
Qed.

Lemma request_frame cfg item f ifindex vid bufflen flag :
  frame_ok f -> op_of f = Some NPD_DHCP_BOOTREQUEST -> flag <> 0 -> config_ok mac cfg item -> 0 <= vid < 65536 ->
  npd_dhcp_snp_get_opt82_port_strategy item = NPD_DHCP_SNP_OPT82_STRATEGY_TYPE_REPLACE ->
  let data := option82 mac cfg item ifindex vid in
  let gone := first_size DHCP_OPTION_82 (opts f) in
  has_room f data ->
  exists ip' udp' rest', let g := with_opts f ip' udp' (drop_first DHCP_OPTION_82 (opts f) ++ [Opt DHCP_OPTION_82 data]) rest' in
    npd_dhcp_packet_information_process mac (Some cfg) item vid ifindex (wire f) bufflen flag =
      Some (DHCP_SNP_RETURN_CODE_OK, wire g, u32 (bufflen - gone + (zlen data + 2))) /\
    headers_accepted ip' udp' (body g) (udp_check (udp f) <> 0) (udp_len (udp f) - gone + (zlen data + 2)) /\ Forall byte rest' /\
    zlen rest' = zlen (rest f) + gone - (zlen data + 2).
Proof.
  intros Hf Hop Hfl Hcfg Hv Hst data gone Hr. unfold npd_dhcp_packet_information_process.
  destruct (Z.eqb_spec flag 0); [done|]. rewrite frame_op, Hop by apply Hf. cbn [mbind option_bind]. rewrite Z.eqb_refl.
  destruct (attach_opt82_frame cfg item f ifindex vid bufflen Hf Hcfg Hv Hst Hr) as (ip' & udp' & rest' & E & Ha & Hrest).
  fold data gone in E, Ha. rewrite E. cbn [mbind option_bind]. rewrite Z.eqb_refl. cbn [negb].
  exists ip', udp', rest'. split; [|done]. rewrite frame_op; [|apply Hf|apply Ha|apply Ha|apply Hf].
  by change (op_of (with_opts _ _ _ _ _)) with (op_of f); rewrite Hop.
Qed.


(** C17: A request on a port with the strategy replace leaves with the option
    82 that the configuration asks for in place of the one it had: all other
    options stay in their order, the lengths of the UDP segment and of the IP
    packet and the packet length grow by the difference, and a receiver
    accepts the IP checksum and, if the packet had one, the UDP checksum.  The
    packet is well formed and its buffer has room for the option. *)
Theorem request_carries_option82 cfg item f ifindex vid bufflen flag :
  frame_ok f -> op_of f = Some NPD_DHCP_BOOTREQUEST -> flag <> 0 -> config_ok mac cfg item -> 0 <= vid < 65536 ->
  npd_dhcp_snp_get_opt82_port_strategy item = NPD_DHCP_SNP_OPT82_STRATEGY_TYPE_REPLACE ->
  let data := option82 mac cfg item ifindex vid in
  let gone := first_size DHCP_OPTION_82 (opts f) in
  has_room f data ->
  exists ip' udp' rest', let g := with_opts f ip' udp' (drop_first DHCP_OPTION_82 (opts f) ++ [Opt DHCP_OPTION_82 data]) rest' in
    npd_dhcp_packet_information_process mac (Some cfg) item vid ifindex (wire f) bufflen flag =
      Some (DHCP_SNP_RETURN_CODE_OK, wire g, u32 (bufflen - gone + (zlen data + 2))) /\
    headers_accepted ip' udp' (body g) (udp_check (udp f) <> 0) (udp_len (udp f) - gone + (zlen data + 2)).
Proof.
  intros Hf Hop Hfl Hcfg Hv Hst data gone Hr.
  destruct (request_frame cfg item f ifindex vid bufflen flag Hf Hop Hfl Hcfg Hv Hst Hr) as (ip' & udp' & rest' & E & Ha & _).
  by exists ip', udp', rest'.
Qed.

(** A reply loses its first option 82 and nothing else; a reply without the
    option keeps its options and lengths. *)
Lemma reply_frame cfg item f ifindex vid bufflen flag :
  frame_ok f -> op_of f = Some NPD_DHCP_BOOTREPLY -> flag <> 0 ->
  let gone := first_size DHCP_OPTION_82 (opts f) in
  let n := udp_len (udp f) - gone in
  ip_len (ip f) = udp_len (udp f) + 20 -> 8 <= n <= 65515 -> n - 8 <= zlen (body f) ->
  exists ip' udp' rest', let g := with_opts f ip' udp' (drop_first DHCP_OPTION_82 (opts f)) rest' in
    npd_dhcp_packet_information_process mac cfg item vid ifindex (wire f) bufflen flag =
      Some (DHCP_SNP_RETURN_CODE_OK, wire g, u32 (bufflen - gone)) /\
    headers_accepted ip' udp' (body g) (udp_check (udp f) <> 0) n.
Proof.
  intros Hf Hop Hfl gone n Hl Hn Hb. unfold npd_dhcp_packet_information_process.
  destruct (Z.eqb_spec flag 0); [done|]. rewrite frame_op, Hop by apply Hf. cbn [mbind option_bind].
  change (NPD_DHCP_BOOTREPLY =? NPD_DHCP_BOOTREQUEST) with false. cbn [mbind option_bind]. rewrite Z.eqb_refl. cbn [negb].
  rewrite frame_op, Hop by apply Hf. cbn [mbind option_bind]. rewrite Z.eqb_refl.
  rewrite (end_option_field _ _ (frame_field f Hf)). cbn [mbind option_bind].
  destruct (frame_strip f Hf) as (post & -> & Hp & Bp). fold gone in Hp |- *. cbn [mbind option_bind]. rewrite Z.eqb_refl. cbn [negb].
  pose proof (fr_eth f Hf) as Le. pose proof (fr_ip f Hf) as [Li Bi]. pose proof (fr_udp f Hf) as [Lu Bu]. pose proof (fr_fixed f Hf) as [_ Bx].
  pose proof (drop_first_size DHCP_OPTION_82 (opts f)) as Hs. fold gone in Hs. set (os := drop_first DHCP_OPTION_82 (opts f)) in *.
  unfold before. rewrite <- !app_assoc. set (b := fixed f ++ encode os ++ DHCP_END :: post).
  assert (Forall byte b) as Bb.
  { apply (body_bytes (Frame [] [] [] (fixed f) os post)); [done|apply drop_first_ok; apply Hf|done]. }
  rewrite read_udp_len by done. cbn [mbind option_bind]. fold n. assert (u16 n = n) as -> by (apply wrap_small; lia).
  rewrite write_udp_len by done. cbn [mbind option_bind]. destruct (with_udp_len_ok (udp f) n Lu ltac:(lia) Bu) as (Lu' & _).
  rewrite read_ip_len by done. cbn [mbind option_bind]. replace (ip_len (ip f) - gone) with (n + 20) by lia.
  assert (u16 (n + 20) = n + 20) as -> by (apply wrap_small; lia). rewrite write_ip_len by done. cbn [mbind option_bind].
  destruct (lengths_and_checksums (eth f) (ip f) (udp f) b n Le Li Lu Bi Bu Bb Hn) as (ip' & udp' & -> & Ha).
  { unfold b, body in *. zl. lia. }
  by exists ip', udp', post.
Qed.

(** A server that answers with the options it got. *)
Definition as_reply (f : frame) : frame :=
  Frame (eth f) (ip f) (udp f) (NPD_DHCP_BOOTREPLY :: tail (fixed f)) (opts f) (rest f).

Lemma overload_app a b over : overload (a ++ b) over = overload b (overload a over).
Proof. revert over. induction a as [|[|c [|v d]] a IH]; intros over; cbn [app overload]; apply IH || done. Qed.

Lemma drop_first_last c os d : opt_offset c os = None -> drop_first c (os ++ [Opt c d]) = os /\ first_size c (os ++ [Opt c d]) = zlen d + 2.
Proof.
  induction os as [|o os IH]; cbn [app opt_offset drop_first first_size has_code].
  - intros _. rewrite Z.eqb_refl. split; [done|]. cbn [encode_opt]. zl. lia.
  - destruct (has_code c o); [done|]. destruct (opt_offset c os); [done|]. intros _. by destruct (IH eq_refl) as [-> ->].
Qed.

(** C18: A request without option 82 gets one, and the reply of a server that
    sends all options back reaches the client without it: the options and the
    lengths of the reply are those of the request. *)
Theorem option82_roundtrip cfg item f ifindex vid bufflen flag :
  frame_ok f -> op_of f = Some NPD_DHCP_BOOTREQUEST -> opt_offset DHCP_OPTION_82 (opts f) = None -> flag <> 0 ->
  config_ok mac cfg item -> 0 <= vid < 65536 ->
  npd_dhcp_snp_get_opt82_port_strategy item = NPD_DHCP_SNP_OPT82_STRATEGY_TYPE_REPLACE ->
  let data := option82 mac cfg item ifindex vid in
  has_room f data -> 8 <= udp_len (udp f) -> 0 <= bufflen -> bufflen + (zlen data + 2) < 2 ^ 32 ->
  exists g len, npd_dhcp_packet_information_process mac (Some cfg) item vid ifindex (wire f) bufflen flag = Some (DHCP_SNP_RETURN_CODE_OK, wire g, len) /\
    opts g = opts f ++ [Opt DHCP_OPTION_82 data] /\
    exists h, npd_dhcp_packet_information_process mac (Some cfg) item vid ifindex (wire (as_reply g)) len flag = Some (DHCP_SNP_RETURN_CODE_OK, wire h, bufflen) /\
      opts h = opts f /\ udp_len (udp h) = udp_len (udp f).
Proof.
  intros Hf Hop Hno Hfl Hcfg Hv Hst data Hr Hl8 Hb0 Hb. destruct (no_option _ _ Hno) as [Hd Hg].
  destruct (request_frame cfg item f ifindex vid bufflen flag Hf Hop Hfl Hcfg Hv Hst Hr) as (ip' & udp' & rest' & E & Ha & Br & Lr).
  fold data in E, Ha, Lr. rewrite Hd, Hg in *. set (g := with_opts _ _ _ _ _) in *. pose proof Ha as (Li & Lu & Bi & Bu & Vu & Vi & _).
  destruct Hr as (Hr1 & Hr2 & Hn & Hnb). fold data in Hr1, Hr2, Hn, Hnb. rewrite Hg in Hr1, Hr2, Hn, Hnb.
  destruct (drop_first_last DHCP_OPTION_82 (opts f) data Hno) as [D1 D2]. pose proof (zlen_pos data) as Hz.
  exists g, (u32 (bufflen - 0 + (zlen data + 2))). split; [done|]. split; [done|].
  assert (frame_ok (as_reply g)) as Hok.
  { pose proof (fr_fixed f Hf) as [Lx Bx]. split; cbn [as_reply eth ip udp fixed opts rest g with_opts]; try done; [apply Hf| | |].
    - destruct (fixed f) as [|x l]; [done|]. split; [done|]. apply Forall_cons in Bx as [_ Bx]. apply Forall_cons. split; [unfold byte, NPD_DHCP_BOOTREPLY; lia|done].
    - split; [apply Forall_app; split; [apply Hf|]; apply Forall_cons; split; [by apply option82_ok|constructor]|].
      rewrite encode_app. unfold encode at 2. cbn [map concat encode_opt app]. rewrite app_nil_r. zl. lia.
    - rewrite overload_app. cbn [overload]. transitivity (Z.land (overload (opts f) 0) NPD_DHCP_SNP_FILE_FIELD); [by destruct data|apply Hf]. }
  destruct (reply_frame (Some cfg) item (as_reply g) ifindex vid (u32 (bufflen - 0 + (zlen data + 2))) flag Hok eq_refl Hfl) as (ip2 & udp2 & rest2 & E2 & Ha2);
    cbn [as_reply eth ip udp fixed opts rest g with_opts] in *; rewrite ?D1, ?D2, ?Vu, ?Vi in *; [done|lia| |].
  { unfold body, g, with_opts. cbn [as_reply eth ip udp fixed opts rest]. unfold body in Hnb. rewrite encode_app. unfold encode at 2. cbn [map concat encode_opt app].
    rewrite app_nil_r. destruct (fr_fixed f Hf) as [Lx _]. destruct (fixed f); [done|]. cbn [tail]. zl. lia. }
  eexists. split; [rewrite E2; do 2 f_equal|].
  { rewrite (u32_small (bufflen - 0 + _)) by (unfold u32_range; lia). rewrite u32_small by (unfold u32_range; lia). lia. }
  split; [done|]. destruct Ha2 as (_ & _ & _ & _ & V2 & _). cbn [udp with_opts]. rewrite V2. lia.
Qed.

End packets.

(** ** Without an end mark *)

Lemma padding_loop pre n fuel i : zlen pre = options_at -> 0 <= i -> end_loop fuel (pre ++ replicate n DHCP_PADDING) i = None.
Proof.
  intros Hp. revert i. induction fuel as [|fuel IH]; intros i Hi; [done|]. cbn [end_loop].
  destruct (rd (pre ++ replicate n DHCP_PADDING) (options_at + i)) as [c|] eqn:E; [|done]. cbn [mbind option_bind].
  assert (c = DHCP_PADDING) as ->; [|by apply IH; lia].
  unfold rd in E. destruct (0 <=? options_at + i); [|done]. unfold zlen in Hp. rewrite lookup_app_r in E by lia. by apply lookup_replicate in E as [-> _].
Qed.

(** A reply whose options are all padding is read past the end of its
    buffer, however long the buffer is. *)
Lemma padded_reply_crashes mac cfg item pre n vid ifindex bufflen flag : zlen pre = options_at -> rd pre op_at = Some NPD_DHCP_BOOTREPLY -> flag <> 0 ->
  npd_dhcp_packet_information_process mac cfg item vid ifindex (pre ++ replicate n DHCP_PADDING) bufflen flag = None.
Proof.
  intros Hp Hop Hfl. unfold npd_dhcp_packet_information_process. destruct (Z.eqb_spec flag 0); [done|].
  assert (rd (pre ++ replicate n DHCP_PADDING) op_at = Some NPD_DHCP_BOOTREPLY) as E.
  { unfold rd in *. destruct (0 <=? op_at); [|done]. by apply lookup_app_l_Some. }
  rewrite E. cbn [mbind option_bind]. change (NPD_DHCP_BOOTREPLY =? NPD_DHCP_BOOTREQUEST) with false. cbn [mbind option_bind]. rewrite Z.eqb_refl. cbn [negb].
  rewrite E. cbn [mbind option_bind]. rewrite Z.eqb_refl. unfold npd_dhcp_snp_end_option. by rewrite padding_loop.
Qed.

(** ** A packet *)

(** A message of the client 00:1f:64:00:00:01 with transaction 7. *)
Definition demo_fixed (op yiaddr0 yiaddr3 : Z) : list Z :=
  [op; 1; 6; 0] ++ [0; 0; 0; 7] ++ replicate 8 0 ++ [yiaddr0; 0; 0; yiaddr3] ++ replicate 8 0 ++ [0; 0x1f; 0x64; 0; 0; 1] ++ replicate 10 0 ++
  replicate 192 0 ++ [0x63; 0x82; 0x53; 0x63].

(** In a buffer with 160 free bytes; the UDP length is right, and there is a
    checksum. *)
Definition demo_frame (op yiaddr0 yiaddr3 : Z) (os : list dhcp_opt) : frame :=
  let n := 8 + 240 + zlen (encode os) + 1 in
  Frame (replicate 12 0xff ++ [8; 0]) ([0x45; 0] ++ be16 (n + 20) ++ [0; 0; 0; 0; 64; 17; 0; 0; 0; 0; 0; 0; 255; 255; 255; 255])
    ([0; 68; 0; 67] ++ be16 n ++ [0x12; 0x34]) (demo_fixed op yiaddr0 yiaddr3) os (replicate 160 0).

Definition demo_config : NPD_DHCP_SNP_GLOBAL_STATUS := GlobalStatus 1 1 0 1 NPD_DHCP_SNP_OPT82_REMOTEID_TYPE_SYSMAC (replicate 64 0) (replicate 128 0xffffffff) [].
Definition demo_mac : list Z := [0; 0x1f; 0x64; 0xa; 0xb; 0xc].

Definition demo_request : frame := demo_frame NPD_DHCP_BOOTREQUEST 0 0 [Opt 0x35 [3]; Pad; Opt 0x32 [10; 0; 0; 9]].

Lemma demo_frame_ok op a b os : byte op -> byte a -> byte b -> Forall opt_ok os -> zlen (encode os) < NPD_DHCP_SNP_OPTION_LEN ->
  Z.land (overload os 0) NPD_DHCP_SNP_FILE_FIELD = 0 -> frame_ok (demo_frame op a b os).
Proof.
  intros Ho Ha Hb Hos Hl Hov. split; try done; cbn [demo_frame ip udp fixed rest].
  - split; [done|]. repeat (apply Forall_app; split); [by apply bytes_decided|apply be16_bytes|by apply bytes_decided].
  - split; [done|]. repeat (apply Forall_app; split); [by apply bytes_decided|apply be16_bytes|by apply bytes_decided].
  - split; [done|]. unfold demo_fixed. repeat (apply Forall_app; split); try by apply bytes_decided.
    + repeat (apply Forall_cons; split; [done || by unfold byte|]). constructor.
    + repeat (apply Forall_cons; split; [done || by unfold byte|]). constructor.
  - by apply bytes_decided.
Qed.

Lemma demo_request_ok : frame_ok demo_request.
Proof.
  apply demo_frame_ok; try done. by apply opts_decided.
Qed.

Lemma demo_config_ok : config_ok demo_mac demo_config None.
Proof. split_and!; try done; by apply bytes_decided. Qed.

Lemma request_carries_option82_witness :
  let data := option82 demo_mac demo_config None 5 10 in
  zlen data + 2 = 20 /\ udp_len (udp demo_request) = 259 /\
  exists ip' udp' rest', let g := with_opts demo_request ip' udp' (opts demo_request ++ [Opt DHCP_OPTION_82 data]) rest' in
    npd_dhcp_packet_information_process demo_mac (Some demo_config) None 10 5 (wire demo_request) 300 1 = Some (DHCP_SNP_RETURN_CODE_OK, wire g, 320) /\
    headers_accepted ip' udp' (body g) (udp_check (udp demo_request) <> 0) (udp_len (udp demo_request) - 0 + (zlen data + 2)).
Proof.
  split; [by vm_compute|]. split; [by vm_compute|].
  destruct (request_carries_option82 demo_mac demo_config None demo_request 5 10 300 1) as (ip' & udp' & rest' & E & H).
  - apply demo_request_ok.
  - done.
  - done.
  - apply demo_config_ok.
  - done.
  - done.
  - vm_compute. split_and!; try done; intros [=].
  - exists ip', udp', rest'. split; [exact E|exact H].
Defined.

Lemma option82_roundtrip_witness :
  exists g len, npd_dhcp_packet_information_process demo_mac (Some demo_config) None 10 5 (wire demo_request) 300 1 = Some (DHCP_SNP_RETURN_CODE_OK, wire g, len) /\
    opts g = opts demo_request ++ [Opt DHCP_OPTION_82 (option82 demo_mac demo_config None 5 10)] /\
    exists h, npd_dhcp_packet_information_process demo_mac (Some demo_config) None 10 5 (wire (as_reply g)) len 1 = Some (DHCP_SNP_RETURN_CODE_OK, wire h, 300) /\
      opts h = opts demo_request /\ udp_len (udp h) = udp_len (udp demo_request).
Proof.
  apply (option82_roundtrip demo_mac demo_config None demo_request 5 10 300 1).
  - apply demo_request_ok.
  - done.
  - done.
  - done.
  - apply demo_config_ok.
  - done.
  - done.
  - vm_compute. split_and!; try done; intros [=].
  - vm_compute. intros [=].
  - done.
  - by vm_compute.
Defined.
