(* ===== verification/DhcpSnooping.v ===== *)
(** * DHCP snooping in npd: bindings, their timers, packets

    [npd_dhcp_snp_tbl.c], [npd_dhcp_snp_pkt.c] and the receive path of
    [npd_dhcp_snp_com.c]: the table of the clients that were seen, with the
    address each was given and the port it is on, the list of times at which
    its entries expire, and what a packet from a client or a server does to
    them.

    The table is a [KeyStore] with the hardware address of a client as key;
    [snp_env] is what the rest of npd answers (the clock, the configuration
    tables, the source guard of a port, the relay).  [None] is a crash of the
    process.  A hardware address is a 48-bit number; addresses of IP are the
    32-bit values that the processor reads from the packet. *)

From Stdlib Require Import ZArith Lia Bool.
From stdpp Require Import base decidable list gmap.
From S2P Require Import Prelude Database DatabaseHash KeyStore NetifIndex Bitarray DhcpPacket.

Open Scope Z_scope.

(** ** Constants and records *)

Definition NPD_DHCP_SNP_ENABLE : Z := 1.
Definition NPD_DHCP_SNP_OPT82_ENABLE : Z := 1.
Definition NPD_DHCP_RELAY_ENABLE : Z := 1.
Definition NPD_DHCP_RELAY_OPT82_ENABLE : Z := 1.

Definition DHCP_LEASE_TIME : Z := 0x33.
Definition NPD_DHCP_MESSAGE_TYPE : Z := 0x35.
Definition DHCP_SERVER_ID : Z := 0x36.

Definition NPD_DHCP_DISCOVER : Z := 1.
Definition NPD_DHCP_OFFER : Z := 2.
Definition NPD_DHCP_REQUEST : Z := 3.
Definition NPD_DHCP_DECLINE : Z := 4.
Definition NPD_DHCP_ACK : Z := 5.
Definition NPD_DHCP_NAK : Z := 6.
Definition NPD_DHCP_RELEASE : Z := 7.

Definition NPD_DHCP_SNP_REQUEST_TIMEOUT : Z := 60.
Definition NPD_DHCP_SNP_REQUEST_TIMEOUT_NAK : Z := 13.
(** [~0UL], of a build whose [unsigned long] has 32 bits like the field it is
    compared with; where it has 64, no lease is infinite. *)
Definition NPD_DHCP_SNP_LEASE_INFINITE : Z := 0xFFFFFFFF.

Definition NPD_DHCP_SNP_BIND_STATE_REQUEST : Z := 0.
Definition NPD_DHCP_SNP_BIND_STATE_BOUND : Z := 1.
Definition NPD_DHCP_SNP_BIND_TYPE_DYNAMIC : Z := 0.
Definition NPD_DHCP_SNP_BIND_TYPE_STATIC : Z := 1.

Definition NPD_DHCP_SNP_PORT_MODE_NOTRUST : Z := 0.
Definition NPD_DHCP_SNP_PORT_MODE_NOBIND : Z := 1.
Definition NPD_DHCP_SNP_PORT_MODE_TRUST : Z := 2.

Definition NPD_DHCP_SNP_BINDING_OPERATE_TYPE_ADD : Z := 0.
Definition NPD_DHCP_SNP_BINDING_OPERATE_TYPE_DEL : Z := 1.

Definition DHCP_SNP_RETURN_CODE_NOT_ENABLE_GBL : Z := 0x160004.
Definition DHCP_SNP_RETURN_CODE_VLAN_NOTEXIST : Z := 0x16000F.
Definition DHCP_SNP_RETURN_CODE_VLAN_PORT_NO_EXIST : Z := 0x160013.
Definition DHCP_SNP_RETURN_CODE_MAC_ILEGAL : Z := 0x160028.

Definition NPD_PORT_L3INTF_VLAN_ID : Z := 0xfff.

Record NPD_DHCP_SNP_USER_ITEM_T := UserItem {
  bind_type : Z;
  state : Z;
  haddr_len : Z;
  chaddr : Z;
  vlanId : Z;
  ip_addr : Z;
  lease_time : Z;
  sys_escape : Z;
  cur_expire : Z;
  ifindex : Z;
  flags : Z;
  have_sg : Z;
  xid : Z;
  server_id : Z;
  relay_ip : Z
}.

(** A cleared item with a hardware address, as searches use it. *)
Definition user_key (mac : Z) : NPD_DHCP_SNP_USER_ITEM_T := UserItem 0 0 0 mac 0 0 0 0 0 0 0 0 0 0 0.

Definition with_escape (u : NPD_DHCP_SNP_USER_ITEM_T) (t : Z) : NPD_DHCP_SNP_USER_ITEM_T :=
  UserItem (bind_type u) (state u) (haddr_len u) (chaddr u) (vlanId u) (ip_addr u) (lease_time u) t (cur_expire u)
    (ifindex u) (flags u) (have_sg u) (xid u) (server_id u) (relay_ip u).
Definition with_sg (u : NPD_DHCP_SNP_USER_ITEM_T) (g : Z) : NPD_DHCP_SNP_USER_ITEM_T :=
  UserItem (bind_type u) (state u) (haddr_len u) (chaddr u) (vlanId u) (ip_addr u) (lease_time u) (sys_escape u) (cur_expire u)
    (ifindex u) (flags u) g (xid u) (server_id u) (relay_ip u).
Definition with_place (u : NPD_DHCP_SNP_USER_ITEM_T) (v i : Z) : NPD_DHCP_SNP_USER_ITEM_T :=
  UserItem (bind_type u) (state u) (haddr_len u) (chaddr u) v (ip_addr u) (lease_time u) (sys_escape u) (cur_expire u)
    i (flags u) (have_sg u) (xid u) (server_id u) (relay_ip u).
Definition with_lease (u : NPD_DHCP_SNP_USER_ITEM_T) (a l : Z) : NPD_DHCP_SNP_USER_ITEM_T :=
  UserItem (bind_type u) (state u) (haddr_len u) (chaddr u) (vlanId u) a l (sys_escape u) (cur_expire u)
    (ifindex u) (flags u) (have_sg u) (xid u) (server_id u) (relay_ip u).
(** State, lease time, transaction and relay of a request. *)
Definition with_request (u : NPD_DHCP_SNP_USER_ITEM_T) (s l x r : Z) : NPD_DHCP_SNP_USER_ITEM_T :=
  UserItem (bind_type u) s (haddr_len u) (chaddr u) (vlanId u) (ip_addr u) l (sys_escape u) (cur_expire u)
    (ifindex u) (flags u) (have_sg u) x (server_id u) r.
Definition with_bound (u : NPD_DHCP_SNP_USER_ITEM_T) (s srv : Z) : NPD_DHCP_SNP_USER_ITEM_T :=
  UserItem (bind_type u) s (haddr_len u) (chaddr u) (vlanId u) (ip_addr u) (lease_time u) (sys_escape u) (cur_expire u)
    (ifindex u) (flags u) (have_sg u) (xid u) srv (relay_ip u).

(** The bytes of an item from its hardware address to its end. *)
Definition be48 (v : Z) : list Z := be16 (v / 2 ^ 32) ++ be32 v.
Definition le32 (v : Z) : list Z := le16 v ++ le16 (v / 65536).
Definition item_tail (u : NPD_DHCP_SNP_USER_ITEM_T) : list Z :=
  be48 (chaddr u) ++ le16 (vlanId u) ++ [0; 0] ++ le32 (ip_addr u) ++ le32 (lease_time u) ++ le32 (sys_escape u) ++
  le32 (cur_expire u) ++ le32 (ifindex u) ++ le32 (flags u) ++ le32 (have_sg u) ++ le32 (xid u) ++ le32 (server_id u) ++ le32 (relay_ip u).

(** ** Timers *)

(** [struct npd_dhcp_snp_timeout_s]: when, and for which client. *)
Definition timeout : Type := Z * Z.

(** Take the node of a client out of the list. *)
Fixpoint unlink_node (hw_addr : Z) (l : list timeout) : list timeout :=
  match l with
  | [] => []
  | n :: l => if n.2 =? hw_addr then l else n :: unlink_node hw_addr l
  end.

(** Put a node before the first one that expires later. *)
Fixpoint sort_in (n : timeout) (l : list timeout) : list timeout :=
  match l with
  | [] => [n]
  | h :: t => if n.1 <? h.1 then n :: l else h :: sort_in n t
  end.

Definition npd_dhcp_snp_add_timeout (expire_time hw_addr : Z) (l : list timeout) : list timeout :=
  sort_in (expire_time, hw_addr) (unlink_node hw_addr l).
Definition npd_dhcp_snp_cancel_timeout (hw_addr : Z) (l : list timeout) : list timeout := unlink_node hw_addr l.

(** ** The state of the daemon *)

(** Calls to the source guard, and what is sent. *)
Inductive guard_call :=
  | npd_source_guard_entry_add (ip port vlan mac : Z)
  | npd_source_guard_entry_del (ip port : Z).
Inductive snp_out :=
  | SendNak (u : NPD_DHCP_SNP_USER_ITEM_T)
  | Flood (vid except : Z) (pkt : list Z) (len : Z)
  | Unicast (port vid : Z) (pkt : list Z) (len : Z)
  | ToServers (netif vid : Z) (pkt : list Z) (len : Z).

Record snp_env := Env {
  is_master : bool;
  master_active : bool;
  npd_dhcp_snp_get_relative : Z;
  source_guard_of : Z -> option bool;
  npd_dhcp_snp_global_cfg_get : option NPD_DHCP_SNP_GLOBAL_STATUS;
  npd_dhcp_snp_status_item_find : Z -> option NPD_DHCP_SNP_STATUS_ITEM_STRUCT;
  SYS_PRODUCT_BASEMAC : Z;
  PRODUCT_MAC_ADDRESS : list Z;
  npd_dhcp_relay_global_status_get : option (Z * Z);
  npd_dhcpr_check_intf_status : Z -> bool;
  npd_dhcpr_check_global_status : bool;
  dhcp_relay_max_hops : Z;
  npd_dhcpr_relay_server_send : list Z -> Z;
  npd_dhcp_relay_message_replace : list Z -> Z -> Z -> Z -> option (bool * Z * Z * list Z * Z);
  vlan_exists : Z -> bool;
  npd_vlan_check_contain_port : Z -> Z -> bool
}.

Record snp_state (T : Type) := Snp {
  binds : T;
  timeouts : list timeout;
  guards : list guard_call;
  outs : list snp_out
}.
Arguments Snp {T}.
Arguments binds {T}.
Arguments timeouts {T}.
Arguments guards {T}.
Arguments outs {T}.

(** Computations that may crash. *)
Definition SM (T A : Type) : Type := snp_state T -> option (A * snp_state T).

#[export] Instance SM_ret {T} : MRet (SM T) := fun A a st => Some (a, st).
#[export] Instance SM_bind {T} : MBind (SM T) := fun A B f m st =>
  match m st with Some (a, st') => f a st' | None => None end.

Section snooping.
Context {T : Type} `{!KeyStore T NPD_DHCP_SNP_USER_ITEM_T}.
Context (env : snp_env).
Abbreviation M := (SM T).

Definition get_state : M (snp_state T) := fun st => Some (st, st).
Definition lift {A} (x : option A) : M A := fun st => match x with Some a => Some (a, st) | None => None end.
Definition set_binds (t : T) (l : list timeout) : M unit := fun st => Some (tt, Snp t l (guards st) (outs st)).
Definition guard_calls (c : guard_call) : M unit := fun st => Some (tt, Snp (binds st) (timeouts st) (guards st ++ [c]) (outs st)).
Definition send (o : snp_out) : M unit := fun st => Some (tt, Snp (binds st) (timeouts st) (guards st) (outs st ++ [o])).

(** ** The table with its callbacks *)

Definition npd_dhcp_snp_handle_update (new old : NPD_DHCP_SNP_USER_ITEM_T) (l : list timeout) : list timeout :=
  if negb (is_master env) then l
  else if negb (lease_time new =? lease_time old) then
    let l := if negb (lease_time old =? NPD_DHCP_SNP_LEASE_INFINITE) then npd_dhcp_snp_cancel_timeout (chaddr old) l else l in
    if negb (lease_time new =? NPD_DHCP_SNP_LEASE_INFINITE)
    then npd_dhcp_snp_add_timeout (u32 (lease_time new + sys_escape new)) (chaddr new) l else l
  else l.

Definition npd_dhcp_snp_handle_insert (d : NPD_DHCP_SNP_USER_ITEM_T) (l : list timeout) : list timeout :=
  if negb (is_master env) then l
  else if negb (lease_time d =? NPD_DHCP_SNP_LEASE_INFINITE)
  then npd_dhcp_snp_add_timeout (u32 (lease_time d + sys_escape d)) (chaddr d) l else l.

Definition npd_dhcp_snp_handle_delete (d : NPD_DHCP_SNP_USER_ITEM_T) (l : list timeout) : list timeout :=
  if negb (is_master env) then l
  else if negb (lease_time d =? NPD_DHCP_SNP_LEASE_INFINITE) then npd_dhcp_snp_cancel_timeout (chaddr d) l else l.

(** [dbtable_hash_update], [dbtable_hash_insert] and [dbtable_hash_delete] on
    the table, with the callback that each of them calls. *)
Definition bind_update (d : NPD_DHCP_SNP_USER_ITEM_T) : M Z :=
  st ← get_state;
  '(c, t) ← lift (ks_update (binds st) d);
  set_binds t (match ks_search (binds st) d with Some old => npd_dhcp_snp_handle_update d old (timeouts st) | None => timeouts st end);;
  mret c.
Definition bind_insert (d : NPD_DHCP_SNP_USER_ITEM_T) : M Z :=
  st ← get_state;
  '(c, t) ← lift (ks_insert (binds st) d);
  set_binds t (match ks_search (binds st) d with
               | Some old => npd_dhcp_snp_handle_update d old (timeouts st)
               | None => if c =? 0 then npd_dhcp_snp_handle_insert d (timeouts st) else timeouts st
               end);;
  mret c.
Definition bind_delete (d : NPD_DHCP_SNP_USER_ITEM_T) : M Z :=
  st ← get_state;
  '(c, t) ← lift (ks_delete (binds st) d);
  set_binds t (match ks_search (binds st) d with Some old => npd_dhcp_snp_handle_delete old (timeouts st) | None => timeouts st end);;
  mret c.

(** [npd_dhcp_snp_tbl_item_find]: the item found, in place of the one given. *)
Definition npd_dhcp_snp_tbl_item_find (u : NPD_DHCP_SNP_USER_ITEM_T) : M (option NPD_DHCP_SNP_USER_ITEM_T) :=
  st ← get_state; mret (ks_search (binds st) u).

(** The source guard of the port of a bound client: [None] if the port is not
    there. *)
Definition guard_bound (u : NPD_DHCP_SNP_USER_ITEM_T) : M (option NPD_DHCP_SNP_USER_ITEM_T) :=
  if (state u =? NPD_DHCP_SNP_BIND_STATE_BOUND) && (npd_netif_type_get (ifindex u) =? NPD_NETIF_ETH_TYPE) then
    match source_guard_of env (ifindex u) with
    | None => mret None
    | Some sg =>
        if (sg : bool) then
          guard_calls (npd_source_guard_entry_add (ip_addr u) (ifindex u) (vlanId u) (chaddr u));;
          mret (Some (with_sg u 1))
        else mret (Some u)
    end
  else mret (Some u).

Definition npd_dhcp_snp_tbl_item_insert (u : NPD_DHCP_SNP_USER_ITEM_T) : M Z :=
  let u := with_escape u (npd_dhcp_snp_get_relative env) in
  r ← guard_bound u;
  match r with
  | None => mret DHCP_SNP_RETURN_CODE_ERROR
  | Some u =>
      status ← bind_insert u;
      mret (if status =? 0 then DHCP_SNP_RETURN_CODE_OK else DHCP_SNP_RETURN_CODE_ERROR)
  end.

Definition npd_dhcp_snp_tbl_item_delete (u : NPD_DHCP_SNP_USER_ITEM_T) : M Z :=
  u ← (if negb (have_sg u =? 0) then
         guard_calls (npd_source_guard_entry_del (ip_addr u) (ifindex u));;
         bind_update (with_sg u 0);;
         mret (with_sg u 0)
       else mret u);
  (if lease_time u =? NPD_DHCP_SNP_REQUEST_TIMEOUT_NAK then send (SendNak u) else mret tt);;
  status ← bind_delete u;
  mret (if status =? 0 then DHCP_SNP_RETURN_CODE_OK else DHCP_SNP_RETURN_CODE_ERROR).

(** The comparison of hardware addresses has the length that a packet
    gave, and reads on in the structure, of which 50 bytes are left there. *)
Definition npd_dhcp_snp_tbl_identity_item (a b : NPD_DHCP_SNP_USER_ITEM_T) : M Z :=
  if negb (vlanId a =? vlanId b) || negb (haddr_len a =? haddr_len b) then mret DHCP_SNP_RETURN_CODE_ERROR
  else if negb (ifindex b =? 0) && negb (ifindex a =? ifindex b) then mret DHCP_SNP_RETURN_CODE_ERROR
  else
    x ← lift (mem_read (item_tail a) 0 (haddr_len a));
    y ← lift (mem_read (item_tail b) 0 (haddr_len a));
    mret (if bool_decide (x = y) then DHCP_SNP_RETURN_CODE_OK else DHCP_SNP_RETURN_CODE_ERROR).

Definition npd_dhcp_snp_tbl_refresh_bind (preuser u : NPD_DHCP_SNP_USER_ITEM_T) : M Z :=
  let u := with_escape u (npd_dhcp_snp_get_relative env) in
  st ← get_state;
  match ks_search (binds st) preuser with
  | None => mret DHCP_SNP_RETURN_CODE_OK
  | Some tempUser =>
      let u := with_place u (vlanId tempUser) (if ifindex u =? 0 then ifindex tempUser else ifindex u) in
      r ← guard_bound u;
      match r with
      | None => mret DHCP_SNP_RETURN_CODE_ERROR
      | Some u =>
          ret ← bind_update u;
          mret (if ret =? 0 then DHCP_SNP_RETURN_CODE_OK else DHCP_SNP_RETURN_CODE_ERROR)
      end
  end.

(** ** The timer *)

(** The inner loop of [npd_dhcp_snp_timer_thread] at a time [now].  A turn
    that finds the client takes its node out of the list, so fuel for every
    node is enough. *)
Fixpoint timer_loop (fuel : nat) (now : Z) : M unit :=
  match fuel with
  | O => lift None
  | S fuel =>
      st ← get_state;
      match timeouts st with
      | [] => mret tt
      | (expire, hw) :: _ =>
          if expire <=? now then
            lease ← npd_dhcp_snp_tbl_item_find (user_key hw);
            match lease with
            | Some lease =>
                if negb (master_active env) then mret tt
                else npd_dhcp_snp_tbl_item_delete lease;; timer_loop fuel now
            | None => timer_loop fuel now
            end
          else mret tt
      end
  end.
Definition timer_expire (now : Z) : M unit := fun st => timer_loop (S (length (timeouts st))) now st.

(** ** Packets *)

Definition get_le32 (m : list Z) (a : Z) : option Z :=
  l ← get_le16 m a; h ← get_le16 m (a + 2); Some (65536 * h + l).
Definition get_be32 (m : list Z) (a : Z) : option Z :=
  h ← get_be16 m a; l ← get_be16 m (a + 2); Some (65536 * h + l).
Definition get_mac (m : list Z) (a : Z) : option Z :=
  h ← get_be16 m a; l ← get_be32 m (a + 2); Some (2 ^ 32 * h + l).

(** An address of an option that may be [NULL]. *)
Definition deref (p : option Z) (f : Z -> option Z) : option Z := a ← p; f a.

Definition npd_dhcp_snp_get_item_from_pkt (vid port : Z) (m : list Z) (u : NPD_DHCP_SNP_USER_ITEM_T) : option NPD_DHCP_SNP_USER_ITEM_T :=
  hlen ← rd m hlen_at;
  mac ← get_mac m chaddr_at;
  let u := UserItem (bind_type u) (state u) hlen mac vid (ip_addr u) (lease_time u) (sys_escape u) (cur_expire u)
             port (flags u) (have_sg u) (xid u) (server_id u) (relay_ip u) in
  op ← rd m op_at;
  if op =? NPD_DHCP_BOOTREPLY then
    yiaddr ← get_le32 m yiaddr_at;
    temp ← npd_dhcp_snp_get_option m DHCP_LEASE_TIME;
    lease ← (match temp with Some p => get_be32 m p | None => Some (lease_time u) end);
    Some (with_lease (with_place u (vlanId u) 0) yiaddr lease)
  else Some u.

Definition npd_dhcp_snp_discovery_process (vid port : Z) (m : list Z) : M Z :=
  user ← lift (npd_dhcp_snp_get_item_from_pkt vid port m (user_key 0));
  giaddr ← lift (get_le32 m giaddr_at);
  x ← lift (get_le32 m xid_at);
  r ← npd_dhcp_snp_tbl_item_find user;
  match r with
  | None => npd_dhcp_snp_tbl_item_insert (with_request user NPD_DHCP_SNP_BIND_STATE_REQUEST NPD_DHCP_SNP_REQUEST_TIMEOUT x giaddr)
  | Some temp =>
      if bind_type temp =? NPD_DHCP_SNP_BIND_TYPE_DYNAMIC then
        let lease := if lease_time user =? 0
                     then if lease_time temp =? 0 then NPD_DHCP_SNP_REQUEST_TIMEOUT else lease_time temp
                     else lease_time user in
        ret ← npd_dhcp_snp_tbl_refresh_bind temp (with_request user NPD_DHCP_SNP_BIND_STATE_REQUEST lease x giaddr);
        mret (if ret =? 0 then DHCP_SNP_RETURN_CODE_OK else DHCP_SNP_RETURN_CODE_ERROR)
      else mret DHCP_SNP_RETURN_CODE_OK
  end.

Definition npd_dhcp_snp_request_process (vid port : Z) (m : list Z) : M Z :=
  user ← lift (npd_dhcp_snp_get_item_from_pkt vid port m (user_key 0));
  giaddr ← lift (get_le32 m giaddr_at);
  x ← lift (get_le32 m xid_at);
  r ← npd_dhcp_snp_tbl_item_find user;
  match r with
  | None => npd_dhcp_snp_tbl_item_insert (with_request user NPD_DHCP_SNP_BIND_STATE_REQUEST NPD_DHCP_SNP_REQUEST_TIMEOUT_NAK x giaddr)
  | Some temp =>
      if (bind_type temp =? NPD_DHCP_SNP_BIND_TYPE_DYNAMIC) &&
         (negb (ifindex temp =? port) || negb (vlanId temp =? vid) || negb (relay_ip temp =? giaddr)) then
        let relay := if negb (relay_ip temp =? giaddr) then giaddr else relay_ip user in
        ret ← npd_dhcp_snp_tbl_refresh_bind temp (with_request user NPD_DHCP_SNP_BIND_STATE_REQUEST NPD_DHCP_SNP_REQUEST_TIMEOUT_NAK x relay);
        mret (if ret =? 0 then DHCP_SNP_RETURN_CODE_OK else DHCP_SNP_RETURN_CODE_ERROR)
      else mret DHCP_SNP_RETURN_CODE_OK
  end.

Definition npd_dhcp_snp_ack_process (vid port : Z) (m : list Z) : M Z :=
  user ← lift (npd_dhcp_snp_get_item_from_pkt vid port m (user_key 0));
  if (ip_addr user =? 0) || (lease_time user =? 0) then mret DHCP_SNP_RETURN_CODE_OK
  else
    r ← npd_dhcp_snp_tbl_item_find user;
    match r with
    | None => mret DHCP_SNP_RETURN_CODE_OK
    | Some temp =>
        if bind_type temp =? NPD_DHCP_SNP_BIND_TYPE_STATIC then mret DHCP_SNP_RETURN_CODE_OK
        else
          p ← lift (npd_dhcp_snp_get_option m DHCP_SERVER_ID);
          srv ← lift (deref p (get_le32 m));
          let temp := with_bound (with_lease temp (ip_addr user) (lease_time user)) NPD_DHCP_SNP_BIND_STATE_BOUND srv in
          ret ← npd_dhcp_snp_tbl_refresh_bind temp temp;
          mret (if ret =? DHCP_SNP_RETURN_CODE_OK then DHCP_SNP_RETURN_CODE_OK else DHCP_SNP_RETURN_CODE_ERROR)
    end.

Definition npd_dhcp_snp_nack_process (vid port : Z) (m : list Z) : M Z :=
  user ← lift (npd_dhcp_snp_get_item_from_pkt vid port m (user_key 0));
  r ← npd_dhcp_snp_tbl_item_find user;
  match r with
  | None => mret DHCP_SNP_RETURN_CODE_OK
  | Some user =>
      if bind_type user =? NPD_DHCP_SNP_BIND_TYPE_STATIC then mret DHCP_SNP_RETURN_CODE_OK
      else
        p ← lift (npd_dhcp_snp_get_option m DHCP_SERVER_ID);
        srv ← lift (deref p (get_le32 m));
        if negb (server_id user =? srv) then mret DHCP_SNP_RETURN_CODE_OK
        else if bind_type user =? NPD_DHCP_SNP_BIND_TYPE_DYNAMIC then
          ret ← npd_dhcp_snp_tbl_item_delete user;
          mret (if ret =? DHCP_SNP_RETURN_CODE_OK then DHCP_SNP_RETURN_CODE_OK else DHCP_SNP_RETURN_CODE_ERROR)
        else mret DHCP_SNP_RETURN_CODE_OK
  end.

Definition npd_dhcp_snp_release_process (vid port : Z) (m : list Z) : M Z :=
  user ← lift (npd_dhcp_snp_get_item_from_pkt vid port m (user_key 0));
  r ← npd_dhcp_snp_tbl_item_find user;
  match r with
  | None => mret DHCP_SNP_RETURN_CODE_OK
  | Some temp =>
      if bind_type temp =? NPD_DHCP_SNP_BIND_TYPE_STATIC then mret DHCP_SNP_RETURN_CODE_OK
      else
        ret ← npd_dhcp_snp_tbl_identity_item temp user;
        if negb (ret =? DHCP_SNP_RETURN_CODE_OK) then mret DHCP_SNP_RETURN_CODE_OK
        else if bind_type temp =? NPD_DHCP_SNP_BIND_TYPE_DYNAMIC then
          ret ← npd_dhcp_snp_tbl_item_delete temp;
          mret (if ret =? DHCP_SNP_RETURN_CODE_OK then DHCP_SNP_RETURN_CODE_OK else DHCP_SNP_RETURN_CODE_ERROR)
        else mret DHCP_SNP_RETURN_CODE_OK
  end.

(** Offers, informs and unknown messages leave the table alone. *)
Definition npd_dhcp_packet_record_user_info (vid port : Z) (m : list Z) (message_type trustMode : Z) : M Z :=
  let done (act : M Z) : M Z :=
    ret ← act; mret (if ret =? DHCP_SNP_RETURN_CODE_OK then DHCP_SNP_RETURN_CODE_OK else DHCP_SNP_RETURN_CODE_PKT_DROP) in
  if message_type =? NPD_DHCP_DISCOVER then
    if trustMode =? NPD_DHCP_SNP_PORT_MODE_NOBIND then mret DHCP_SNP_RETURN_CODE_OK
    else done (npd_dhcp_snp_discovery_process vid port m)
  else if message_type =? NPD_DHCP_REQUEST then
    if trustMode =? NPD_DHCP_SNP_PORT_MODE_NOBIND then mret DHCP_SNP_RETURN_CODE_OK
    else done (npd_dhcp_snp_request_process vid port m)
  else if message_type =? NPD_DHCP_ACK then done (npd_dhcp_snp_ack_process vid port m)
  else if message_type =? NPD_DHCP_NAK then done (npd_dhcp_snp_nack_process vid port m)
  else if (message_type =? NPD_DHCP_RELEASE) || (message_type =? NPD_DHCP_DECLINE) then done (npd_dhcp_snp_release_process vid port m)
  else mret DHCP_SNP_RETURN_CODE_OK.

(** Requests go to the VLAN, or to the servers of the relay. *)
Definition npd_dhcp_snp_send_to_server (m : list Z) (buffLen netif vid relay_is_enable : Z) : M Z :=
  if relay_is_enable =? 0 then send (Flood vid netif m buffLen);; mret DHCP_SNP_RETURN_CODE_OK
  else
    hops ← lift (rd m hops_at);
    if dhcp_relay_max_hops env <? hops then mret DHCP_SNP_RETURN_CODE_PKT_DROP
    else
      m ← lift (wr m hops_at (u8 (hops + 1)));
      send (ToServers netif vid m buffLen);;
      (if npd_dhcpr_relay_server_send env m =? 0 then send (Flood vid netif m buffLen) else mret tt);;
      mret DHCP_SNP_RETURN_CODE_PKT_DROP.

(** Replies go to the port where the client was seen. *)
Definition npd_dhcp_snp_send_to_client (m : list Z) (buffLen port vid : Z) : M Z :=
  mac ← lift (get_mac m chaddr_at);
  if mac =? 0 then mret DHCP_SNP_RETURN_CODE_PKT_DROP
  else match npd_dhcp_snp_global_cfg_get env with
  | None => mret DHCP_SNP_RETURN_CODE_PKT_DROP
  | Some cfg =>
      found ← (if dhcp_snp_enable cfg =? NPD_DHCP_SNP_ENABLE then npd_dhcp_snp_tbl_item_find (user_key mac) else mret None);
      giaddr ← lift (get_le32 m giaddr_at);
      if (giaddr =? 0) || negb (npd_dhcpr_check_global_status env) then
        match found with
        | None => send (Flood vid port m buffLen);; mret DHCP_SNP_RETURN_CODE_PKT_DROP
        | Some u => send (Unicast (ifindex u) (vlanId u) m buffLen);; mret DHCP_SNP_RETURN_CODE_PKT_DROP
        end
      else
        let '(out, vlan) := match found with Some u => (ifindex u, vlanId u) | None => (0, 0) end in
        match npd_dhcp_relay_message_replace env m buffLen out vlan with
        | None => mret DHCP_SNP_RETURN_CODE_PKT_DROP
        | Some (isBroadcast, out, vlan, m, buffLen) =>
            send (if (isBroadcast : bool) then Flood vlan port m buffLen else Unicast out vlan m buffLen);;
            mret DHCP_SNP_RETURN_CODE_PKT_DROP
        end
  end.

Definition npd_dhcp_snp_get_trust_mode (port : Z) : Z :=
  match npd_dhcp_snp_status_item_find env port with Some x => trust_mode x | None => NPD_DHCP_SNP_PORT_MODE_NOTRUST end.

(** Whether snooping looks at the VLAN; bit 0 of the options enabled. *)
Definition snoops (cfg : NPD_DHCP_SNP_GLOBAL_STATUS) (vid : Z) : option bool :=
  if dhcp_snp_enable cfg =? NPD_DHCP_SNP_ENABLE
  then b ← npd_bitarray_test_bit (vlan_admin_status cfg) vid; Some (negb (b =? 0)) else Some false.

(** Whether the relay takes part, and bit 1 of the options enabled. *)
Definition relays (netif vid giaddr op : Z) : bool * bool :=
  match npd_dhcp_relay_global_status_get env with
  | None => (false, false)
  | Some (endis, opt82) =>
      if endis =? NPD_DHCP_RELAY_ENABLE then
        let lo := if negb (vid =? NPD_PORT_L3INTF_VLAN_ID) then npd_netif_vlan_index vid else netif in
        let on := npd_dhcpr_check_intf_status env lo in
        let back := negb (giaddr =? 0) && (op =? NPD_DHCP_BOOTREPLY) in
        (on || back, on && (opt82 =? NPD_DHCP_RELAY_OPT82_ENABLE) || back)
      else (false, false)
  end.

Definition npd_dhcp_snp_packet_rx_process (m : list Z) (buffLen netif vid : Z) : M Z :=
  mac ← lift (get_mac m chaddr_at);
  if mac =? SYS_PRODUCT_BASEMAC env then mret DHCP_SNP_RETURN_CODE_OK else
  p ← lift (npd_dhcp_snp_get_option m NPD_DHCP_MESSAGE_TYPE);
  match p with
  | None => mret DHCP_SNP_RETURN_CODE_PKT_DROP
  | Some p =>
      message_type ← lift (rd m p);
      match npd_dhcp_snp_global_cfg_get env with
      | None => mret DHCP_SNP_RETURN_CODE_PKT_DROP
      | Some cfg =>
          snoop ← lift (snoops cfg vid);
          giaddr ← lift (get_le32 m giaddr_at);
          op ← lift (rd m op_at);
          let '(relay, relay82) := relays netif vid giaddr op in
          let options := (if snoop && (dhcp_snp_opt82_enable cfg =? NPD_DHCP_SNP_OPT82_ENABLE) then 1 else 0) + (if relay82 then 2 else 0) in
          if negb (snoop || relay) then mret DHCP_SNP_RETURN_CODE_OK
          else
            ret ← (if (snoop : bool) then
                     let trust := npd_dhcp_snp_get_trust_mode netif in
                     if (op =? NPD_DHCP_BOOTREPLY) && (trust =? NPD_DHCP_SNP_PORT_MODE_NOTRUST) then mret DHCP_SNP_RETURN_CODE_PKT_DROP
                     else npd_dhcp_packet_record_user_info vid netif m message_type trust
                   else mret DHCP_SNP_RETURN_CODE_OK);
            if negb (ret =? DHCP_SNP_RETURN_CODE_OK) then mret DHCP_SNP_RETURN_CODE_PKT_DROP
            else
              '(ret, m, buffLen) ← lift (npd_dhcp_packet_information_process (PRODUCT_MAC_ADDRESS env) (npd_dhcp_snp_global_cfg_get env)
                                           (npd_dhcp_snp_status_item_find env netif) vid netif m buffLen options);
              if negb (ret =? DHCP_SNP_RETURN_CODE_OK) then mret DHCP_SNP_RETURN_CODE_PKT_DROP
              else if op =? NPD_DHCP_BOOTREPLY then npd_dhcp_snp_send_to_client m buffLen netif vid
              else if op =? NPD_DHCP_BOOTREQUEST then npd_dhcp_snp_send_to_server m buffLen netif vid (if (relay : bool) then 1 else 0)
              else mret DHCP_SNP_RETURN_CODE_OK
      end
  end.

(** The operator adds or removes a binding; the arguments are decoded. *)
Definition npd_dbus_dhcp_snp_add_del_binding (mac ip vid port opt_type lease btype : Z) : M Z :=
  if mac =? 0 then mret DHCP_SNP_RETURN_CODE_MAC_ILEGAL
  else match npd_dhcp_snp_global_cfg_get env with
  | None => mret DHCP_SNP_RETURN_CODE_NOT_ENABLE_GBL
  | Some cfg =>
      if negb (dhcp_snp_enable cfg =? NPD_DHCP_SNP_ENABLE) then mret DHCP_SNP_RETURN_CODE_NOT_ENABLE_GBL
      else if negb (vlan_exists env vid) then mret DHCP_SNP_RETURN_CODE_VLAN_NOTEXIST
      else if negb (npd_vlan_check_contain_port env vid port) then mret DHCP_SNP_RETURN_CODE_VLAN_PORT_NO_EXIST
      else
        let item := UserItem btype 0 0 mac vid ip lease 0 0 port 0 0 0 0 0 in
        found ← npd_dhcp_snp_tbl_item_find item;
        if opt_type =? NPD_DHCP_SNP_BINDING_OPERATE_TYPE_ADD then
          match found with
          | Some user =>
              if bind_type user =? NPD_DHCP_SNP_BIND_TYPE_STATIC then mret DHCP_SNP_RETURN_CODE_ALREADY_SET
              else if bind_type user =? NPD_DHCP_SNP_BIND_TYPE_DYNAMIC then
                ret ← npd_dhcp_snp_tbl_refresh_bind user (with_bound item NPD_DHCP_SNP_BIND_STATE_BOUND (server_id item));
                mret (if ret =? 0 then DHCP_SNP_RETURN_CODE_OK else DHCP_SNP_RETURN_CODE_ERROR)
              else mret DHCP_SNP_RETURN_CODE_OK
          | None =>
              ret ← npd_dhcp_snp_tbl_item_insert (with_bound item NPD_DHCP_SNP_BIND_STATE_BOUND (server_id item));
              mret (if ret =? 0 then DHCP_SNP_RETURN_CODE_OK else DHCP_SNP_RETURN_CODE_ERROR)
          end
        else if opt_type =? NPD_DHCP_SNP_BINDING_OPERATE_TYPE_DEL then
          match found with
          | Some user =>
              if (vlanId user =? vid) && (ifindex user =? port) && (ip_addr user =? ip) && (chaddr user =? mac) then
                ret ← npd_dhcp_snp_tbl_item_delete user;
                mret (if ret =? 0 then DHCP_SNP_RETURN_CODE_OK else DHCP_SNP_RETURN_CODE_ERROR)
              else mret DHCP_SNP_RETURN_CODE_ERROR
          | None => mret DHCP_SNP_RETURN_CODE_ERROR
          end
        else mret DHCP_SNP_RETURN_CODE_NOT_FOUND
  end.

(** One turn of the walks that delete the bindings of a port or of a VLAN, for
    the entry that the walk has read: [pick] is the condition of the walk. *)
Definition lease_delete (pick : NPD_DHCP_SNP_USER_ITEM_T -> bool) (leaseEntry : NPD_DHCP_SNP_USER_ITEM_T) : M Z :=
  if pick leaseEntry then npd_dhcp_snp_tbl_item_delete leaseEntry else mret 0.
Definition by_port (port flag : Z) (leaseEntry : NPD_DHCP_SNP_USER_ITEM_T) : bool := (ifindex leaseEntry =? port) && (bind_type leaseEntry =? flag).
Definition by_vlan (vid flag : Z) (leaseEntry : NPD_DHCP_SNP_USER_ITEM_T) : bool := (vlanId leaseEntry =? vid) && (bind_type leaseEntry =? flag).
Definition by_vlan_port (vid port flag : Z) (leaseEntry : NPD_DHCP_SNP_USER_ITEM_T) : bool :=
  (vlanId leaseEntry =? vid) && (ifindex leaseEntry =? port) && (bind_type leaseEntry =? flag).

End snooping.

(** ** The table of the daemon *)

#[export] Instance user_item_eq : EqDecision NPD_DHCP_SNP_USER_ITEM_T.
Proof. solve_decision. Defined.

Definition NPD_DHCP_SNP_DBTABLE_SIZE : Z := 512.
Definition NPD_DHCP_SNP_DBHASH_MAC_SIZE : Z := 128.
Definition NPD_DHCP_SNP_INDEX_SIZE : Z := 256.

(** The sum of the bytes of the hardware address. *)
Definition npd_dhcp_snp_dbhash_index_mac_key (u : NPD_DHCP_SNP_USER_ITEM_T) : Z :=
  foldl Z.add 0 (be48 (chaddr u)) mod NPD_DHCP_SNP_DBHASH_MAC_SIZE.
(** The number of a bucket of the second index, from port and VLAN; the VLAN
    is shifted as an [int]. *)
Definition npd_dhcp_snp_dbhash_index_key (u : NPD_DHCP_SNP_USER_ITEM_T) : Z :=
  u32 (Z.shiftr (u32 (Z.shiftl (ifindex u) 12)) 26 + Z.shiftr (s32 (Z.shiftl (vlanId u) 26)) 20) mod NPD_DHCP_SNP_INDEX_SIZE.
Definition npd_dhcp_snp_dbhash_mac_compare (a b : NPD_DHCP_SNP_USER_ITEM_T) : bool := chaddr a =? chaddr b.

(** The callbacks as the library sees them: they return 0, and what they do
    to the timers is in the operations above. *)
Definition snp_ops : db_ops NPD_DHCP_SNP_USER_ITEM_T :=
  {| handle_update := Some (fun _ _ => 0); handle_insert := Some (fun _ => 0); handle_delete := Some (fun _ => 0);
     app_handle_update := None; app_handle_delete := None; platform_db_sync := Some (fun _ => 0);
     platform_relay_flag := false; same_sync_part := fun x y => bool_decide (x = y); keep_local := fun new _ => new;
     entry_hton := fun d => d; entry_ntoh := fun d => d; zero_entry := user_key 0; have_sync := true |}.

(** The index of the hardware addresses is the first that is created, and so
    the second in the list of the table. *)
Definition binds_store : KeyStore (db_table_t NPD_DHCP_SNP_USER_ITEM_T) NPD_DHCP_SNP_USER_ITEM_T :=
  database_hash_store snp_ops (user_key 0) 1 npd_dhcp_snp_dbhash_index_mac_key npd_dhcp_snp_dbhash_mac_compare NPD_DHCP_SNP_DBHASH_MAC_SIZE.

(** [sizeof(NPD_DHCP_SNP_USER_ITEM_T)] is 56; [DB_SYNC_ALL] is 1. *)
Definition npd_dhcp_snp_tbl_initialize : snp_state (db_table_t NPD_DHCP_SNP_USER_ITEM_T) :=
  Snp (dbtable_create_hash_index
         (dbtable_create_hash_index (create_dbtable NPD_DHCP_SNP_DBTABLE_SIZE 56 1) NPD_DHCP_SNP_DBHASH_MAC_SIZE
            (Some npd_dhcp_snp_dbhash_index_mac_key) npd_dhcp_snp_dbhash_mac_compare)
         NPD_DHCP_SNP_INDEX_SIZE (Some npd_dhcp_snp_dbhash_index_key) npd_dhcp_snp_dbhash_mac_compare) [] [] [].
