(* ===== verification/DhcpBindings.v ===== *)
(** * What DHCP snooping promises of its bindings

    Every binding with a lease has its timer and every timer its binding,
    through every run of packets, timers and commands; expired bindings go,
    and only they; packets leave static bindings alone.  The operations are
    taken apart with triples: a property that the three calls on the table
    keep is kept by every operation ([Section kept]). *)

From Stdlib Require Import ZArith Lia Bool Sorting.Sorted.
From stdpp Require Import base decidable list gmap.
From S2P Require Import Prelude Database DatabaseHash KeyStore NetifIndex DhcpPacket DhcpOptions DhcpFrames DhcpSnooping.

Open Scope Z_scope.

(** ** The list of timers *)

Definition sooner (a b : timeout) : Prop := a.1 <= b.1.
Definition timers_ok (l : list timeout) : Prop := StronglySorted sooner l /\ NoDup l.*2.

Lemma unlink_elem mac l n : NoDup l.*2 -> n ∈ unlink_node mac l <-> n ∈ l /\ n.2 <> mac.
Proof.
  induction l as [|h l IH]; cbn [unlink_node fmap list_fmap].
  - intros _. split; [by intros ?%elem_of_nil|by intros [?%elem_of_nil _]].
  - intros [Hh Hl]%NoDup_cons. destruct (Z.eqb_spec h.2 mac) as [<-|Hne].
    + rewrite elem_of_cons. split; [|by intros [[->|] ?]]. intros Hn. split; [by right|]. intros E. apply Hh. rewrite <- E. by apply list_elem_of_fmap_2.
    + rewrite !elem_of_cons, IH by done. split; [intros [->|[]]; auto|intros [[->|] ?]; auto].
Qed.

Lemma unlink_sublist mac l : unlink_node mac l `sublist_of` l.
Proof. induction l as [|h l IH]; cbn [unlink_node]; [constructor|]. destruct (h.2 =? mac); by constructor. Qed.

Lemma sorted_sublist l k : k `sublist_of` l -> StronglySorted sooner l -> StronglySorted sooner k.
Proof.
  induction 1 as [|x k l Hs IH|x k l Hs IH]; [done| |].
  - intros [Hl Hx]%StronglySorted_inv. constructor; [by apply IH|]. apply Forall_forall. intros y Hy.
    rewrite Forall_forall in Hx. apply Hx. by apply (elem_of_sublist k).
  - intros [Hl _]%StronglySorted_inv. by apply IH.
Qed.

Lemma sort_in_elem n l x : x ∈ sort_in n l <-> x = n \/ x ∈ l.
Proof.
  induction l as [|h l IH]; cbn [sort_in]; [by rewrite elem_of_cons|]. destruct (n.1 <? h.1); rewrite !elem_of_cons, ?IH; tauto.
Qed.

Lemma sort_in_sorted n l : StronglySorted sooner l -> StronglySorted sooner (sort_in n l).
Proof.
  induction 1 as [|h l Hl IH Hh]; cbn [sort_in]; [by repeat constructor|]. destruct (Z.ltb_spec n.1 h.1).
  - constructor; [by constructor|]. constructor; [unfold sooner; lia|]. rewrite Forall_forall in Hh |- *. intros x Hx.
    specialize (Hh x Hx). unfold sooner in *. lia.
  - constructor; [done|]. rewrite Forall_forall in Hh |- *. intros x [->|Hx]%sort_in_elem; [unfold sooner; lia|by apply Hh].
Qed.

Lemma sort_in_perm n l : sort_in n l ≡ₚ n :: l.
Proof. induction l as [|h l IH]; cbn [sort_in]; [done|]. destruct (n.1 <? h.1); [done|]. rewrite IH. constructor. Qed.

Lemma cancel_ok mac l : timers_ok l -> timers_ok (npd_dhcp_snp_cancel_timeout mac l) /\
  forall n, n ∈ npd_dhcp_snp_cancel_timeout mac l <-> n ∈ l /\ n.2 <> mac.
Proof.
  intros [Hs Hn]. split; [|intros n; by apply unlink_elem]. split; [by apply (sorted_sublist l), Hs; apply unlink_sublist|].
  apply (sublist_NoDup _ l.*2); [done|]. apply fmap_sublist, unlink_sublist.
Qed.

Lemma add_ok e mac l : timers_ok l -> timers_ok (npd_dhcp_snp_add_timeout e mac l) /\
  forall n, n ∈ npd_dhcp_snp_add_timeout e mac l <-> n = (e, mac) \/ n ∈ l /\ n.2 <> mac.
Proof.
  intros Hok. destruct (cancel_ok mac l Hok) as [[Hs Hn] He]. unfold npd_dhcp_snp_cancel_timeout, npd_dhcp_snp_add_timeout in *. split.
  - split; [by apply sort_in_sorted|]. rewrite sort_in_perm. cbn [fmap list_fmap]. apply NoDup_cons. split; [|done].
    intros (n & E & Hm)%list_elem_of_fmap. apply He in Hm as [_ Hne]. done.
  - intros n. by rewrite sort_in_elem, He.
Qed.

(** ** The bindings and their timers *)

Section bindings.
Context {T : Type} `{!KeyStore T NPD_DHCP_SNP_USER_ITEM_T, !KeyStoreLaws T NPD_DHCP_SNP_USER_ITEM_T, !KeyStoreTotal T NPD_DHCP_SNP_USER_ITEM_T}.
Context (Hsame : forall x y : NPD_DHCP_SNP_USER_ITEM_T, ks_same x y = (chaddr x =? chaddr y)).
Implicit Types (st : snp_state T) (u : NPD_DHCP_SNP_USER_ITEM_T).

(** The binding of a client. *)
Definition binding st (mac : Z) : option NPD_DHCP_SNP_USER_ITEM_T := ks_search (binds st) (user_key mac).

Definition leased u : Prop := lease_time u <> NPD_DHCP_SNP_LEASE_INFINITE.

(** A client has a timer exactly if its binding has a lease that ends. *)
Definition timed (find : Z -> option NPD_DHCP_SNP_USER_ITEM_T) (l : list timeout) : Prop :=
  forall mac, mac ∈ l.*2 <-> exists u, find mac = Some u /\ leased u.

Definition consistent st : Prop := ks_ok (binds st) /\ timers_ok (timeouts st) /\ timed (binding st) (timeouts st).

Lemma snp_found_key st u x : ks_ok (binds st) -> ks_search (binds st) u = Some x -> chaddr x = chaddr u.
Proof.
  intros Hok Hx. rewrite (search_mk chaddr user_key (fun n => eq_refl) Hsame) in Hx by done.
  by apply (search_key chaddr user_key (fun n => eq_refl) Hsame) in Hx.
Qed.
Lemma search_binding st u : ks_ok (binds st) -> ks_search (binds st) u = binding st (chaddr u).
Proof. intros Hok. by apply (search_mk chaddr user_key (fun n => eq_refl) Hsame). Qed.


(** *** Triples: what holds after a computation that returns *)

Definition triple {A} (P : snp_state T -> Prop) (m : SM T A) (Q : A -> snp_state T -> Prop) : Prop :=
  forall st a st', P st -> m st = Some (a, st') -> Q a st'.

Lemma snp_triple_ret {A} (a : A) (P : snp_state T -> Prop) : triple P (mret a) (fun _ => P).
Proof. intros st b st' HP [= <- <-]. done. Qed.
Lemma snp_triple_bind {A B} P (m : SM T A) (k : A -> SM T B) Q R :
  triple P m Q -> (forall a, triple (Q a) (k a) R) -> triple P (m ≫= k) R.
Proof.
  intros Hm Hk st b st' HP. unfold mbind, SM_bind. destruct (m st) as [[a st1]|] eqn:E; [|done]. apply Hk. by apply (Hm st).
Qed.
Lemma triple_lift {A} P (x : option A) : triple P (lift x) (fun _ => P).
Proof. intros st a st' HP. unfold lift. destruct x; [|done]. by intros [= <- <-]. Qed.
Lemma triple_find P u : triple P (npd_dhcp_snp_tbl_item_find u) (fun r st => P st /\ r = ks_search (binds st) u).
Proof. intros st a st' HP. unfold npd_dhcp_snp_tbl_item_find, get_state, mbind, SM_bind, mret, SM_ret. by intros [= <- <-]. Qed.
Lemma triple_pre {A} (P P' : snp_state T -> Prop) (m : SM T A) Q : (forall st, P st -> P' st) -> triple P' m Q -> triple P m Q.
Proof. intros HP Hm st a st' H'. apply Hm. by apply HP. Qed.
Lemma snp_triple_pure {A} (P : snp_state T -> Prop) (X : Prop) (m : SM T A) Q : (X -> triple P m Q) -> triple (fun st => P st /\ X) m Q.
Proof. intros Hm st a st' [HP HX]. by apply Hm. Qed.

(** A property that a computation keeps. *)
Definition keeps {A} (P : snp_state T -> Prop) (m : SM T A) : Prop := triple P m (fun _ => P).

Lemma snp_keeps_get {A} P (k : snp_state T -> SM T A) : (forall st, P st -> keeps P (k st)) -> keeps P (st ← get_state; k st).
Proof. intros Hk st a st' HP. unfold get_state, mbind, SM_bind. by apply Hk. Qed.

Lemma snp_keeps_bind {A B} P (m : SM T A) (k : A -> SM T B) : keeps P m -> (forall a, keeps P (k a)) -> keeps P (m ≫= k).
Proof. apply snp_triple_bind. Qed.

(** Calls that leave bindings and timers alone. *)
Definition blind (P : snp_state T -> Prop) : Prop :=
  forall t l g o g' o', P (Snp t l g o) -> P (Snp t l g' o').
Lemma keeps_guard P c : blind P -> keeps P (guard_calls c).
Proof. intros HP [t l g o] a st' H' [= _ <-]. by apply (HP t l g o). Qed.
Lemma snp_keeps_send P o : blind P -> keeps P (send o).
Proof. intros HP [t l g o'] a st' H' [= _ <-]. by apply (HP t l g o'). Qed.

(** *** The table operations with their callbacks *)

Context (env : snp_env).
Definition put_at (find : Z -> option NPD_DHCP_SNP_USER_ITEM_T) u (mac : Z) : option NPD_DHCP_SNP_USER_ITEM_T :=
  if mac =? chaddr u then Some u else find mac.
Definition drop_at (find : Z -> option NPD_DHCP_SNP_USER_ITEM_T) (k mac : Z) : option NPD_DHCP_SNP_USER_ITEM_T :=
  if mac =? k then None else find mac.

Lemma bind_update_found d old st : ks_ok (binds st) -> binding st (chaddr d) = Some old -> exists t,
  bind_update env d st = Some (0, Snp t (npd_dhcp_snp_handle_update env d old (timeouts st)) (guards st) (outs st)) /\ ks_ok t /\
  forall mac, ks_search t (user_key mac) = put_at (binding st) d mac.
Proof.
  intros Hok Hx. destruct (update_at chaddr user_key (fun n => eq_refl) Hsame (binds st) d Hok) as (t & E & Hok' & Hf); [by eexists|].
  exists t. split_and!; [|done|done]. unfold bind_update, get_state, lift, set_binds, mbind, SM_bind, mret, SM_ret.
  by rewrite E, search_binding, Hx.
Qed.
Lemma bind_update_missing d st : ks_ok (binds st) -> binding st (chaddr d) = None -> exists t,
  bind_update env d st = Some (-1, Snp t (timeouts st) (guards st) (outs st)) /\ ks_ok t /\
  forall mac, ks_search t (user_key mac) = binding st mac.
Proof.
  intros Hok Hx. destruct (update_missing chaddr user_key (fun n => eq_refl) Hsame (binds st) d Hok Hx) as (t & E & Hok' & Hf).
  exists t. split_and!; [|done|done]. unfold bind_update, get_state, lift, set_binds, mbind, SM_bind, mret, SM_ret.
  by rewrite E, search_binding, Hx.
Qed.
Lemma bind_insert_new d st : ks_ok (binds st) -> binding st (chaddr d) = None -> exists t,
  ks_ok t /\
  (bind_insert env d st = Some (0, Snp t (npd_dhcp_snp_handle_insert env d (timeouts st)) (guards st) (outs st)) /\
     (forall mac, ks_search t (user_key mac) = put_at (binding st) d mac) \/
   bind_insert env d st = Some (-1, Snp t (timeouts st) (guards st) (outs st)) /\
     forall mac, ks_search t (user_key mac) = binding st mac).
Proof.
  intros Hok Hx. destruct (insert_try chaddr user_key (fun n => eq_refl) Hsame (binds st) d Hok (ks_all_valid d) Hx) as (r & t & E & Hok' & Hf).
  exists t. split; [done|]. unfold bind_insert, get_state, lift, set_binds, mbind, SM_bind, mret, SM_ret.
  rewrite E, search_binding, Hx by done. destruct Hf as [[-> Hf]|[-> Hf]]; [left|right]; by split.
Qed.
Lemma bind_insert_found d old st : ks_ok (binds st) -> binding st (chaddr d) = Some old -> exists t,
  bind_insert env d st = Some (0, Snp t (npd_dhcp_snp_handle_update env d old (timeouts st)) (guards st) (outs st)) /\ ks_ok t /\
  forall mac, ks_search t (user_key mac) = put_at (binding st) d mac.
Proof.
  intros Hok Hx. rewrite <- search_binding in Hx by done. destruct (ks_insert_some (binds st) d old Hok Hx) as (t & E & Hok' & _ & _ & _ & Hf).
  exists t. split_and!; [|done|].
  - unfold bind_insert, get_state, lift, set_binds, mbind, SM_bind, mret, SM_ret. by rewrite E, Hx.
  - intros mac. rewrite Hf. unfold ks_put, put_at. by rewrite Hsame.
Qed.
Lemma bind_delete_found d old st : ks_ok (binds st) -> binding st (chaddr d) = Some old -> exists t,
  bind_delete env d st = Some (0, Snp t (npd_dhcp_snp_handle_delete env old (timeouts st)) (guards st) (outs st)) /\ ks_ok t /\
  forall mac, ks_search t (user_key mac) = drop_at (binding st) (chaddr d) mac.
Proof.
  intros Hok Hx. rewrite <- search_binding in Hx by done. destruct (ks_delete_some (binds st) d old Hok Hx) as (t & E & Hok' & _ & _ & _ & Hf).
  exists t. split_and!; [|done|].
  - unfold bind_delete, get_state, lift, set_binds, mbind, SM_bind, mret, SM_ret. by rewrite E, Hx.
  - intros mac. rewrite Hf. unfold ks_drop, drop_at. by rewrite Hsame.
Qed.
Lemma bind_delete_missing d st : ks_ok (binds st) -> binding st (chaddr d) = None -> exists c t,
  bind_delete env d st = Some (c, Snp t (timeouts st) (guards st) (outs st)) /\ ks_ok t /\
  forall mac, ks_search t (user_key mac) = binding st mac.
Proof.
  intros Hok Hx. rewrite <- search_binding in Hx by done. destruct (ks_delete_none (binds st) d Hok (ks_all_valid d) Hx) as (t & E & Hok' & _ & _ & _ & Hf).
  eexists _, t. split_and!; [|done|].
  - unfold bind_delete, get_state, lift, set_binds, mbind, SM_bind, mret, SM_ret. by rewrite E, Hx.
  - intros mac. by rewrite Hf.
Qed.

(** *** Timers follow the bindings *)

Lemma timers_elem (l : list timeout) mac : mac ∈ l.*2 <-> exists e, (e, mac) ∈ l.
Proof.
  rewrite list_elem_of_fmap. split; [intros ([e m] & -> & Hn); by exists e|intros [e Hn]; by exists (e, mac)].
Qed.

Lemma cancel_fmap mac l : timers_ok l -> forall m, m ∈ (npd_dhcp_snp_cancel_timeout mac l).*2 <-> m ∈ l.*2 /\ m <> mac.
Proof.
  intros Hl m. destruct (cancel_ok mac l Hl) as [_ He]. rewrite !timers_elem. split.
  - intros [e [Hn Hm]%He]. split; [by exists e|done].
  - intros [[e Hn] Hm]. exists e. by apply He.
Qed.
Lemma add_fmap e mac l : timers_ok l -> forall m, m ∈ (npd_dhcp_snp_add_timeout e mac l).*2 <-> m = mac \/ m ∈ l.*2.
Proof.
  intros Hl m. destruct (add_ok e mac l Hl) as [_ He]. rewrite !timers_elem. split.
  - intros [e' [[= -> ->]|[Hn _]]%He]; [by left|right; by exists e'].
  - destruct (decide (m = mac)) as [->|Hm]; [intros _; exists e; apply He; by left|].
    intros [->|[e' Hn]]; [done|]. exists e'. apply He. by right.
Qed.

Lemma timed_put find u l l' : timed find l -> (forall m, m ∈ l'.*2 <-> if m =? chaddr u then leased u else m ∈ l.*2) -> timed (put_at find u) l'.
Proof.
  intros Ht Hl mac. rewrite Hl. unfold put_at. destruct (mac =? chaddr u); [|done]. split; [by exists u|]. by intros (x & [= <-] & Hx).
Qed.
Lemma timed_drop find k l l' : timed find l -> (forall m, m ∈ l'.*2 <-> m <> k /\ m ∈ l.*2) -> timed (drop_at find k) l'.
Proof.
  intros Ht Hl mac. rewrite Hl, (Ht mac). unfold drop_at. destruct (Z.eqb_spec mac k); [|tauto]. split; [tauto|]. by intros (x & [=] & _).
Qed.

Context (Hmaster : is_master env = true).

Lemma handle_update_timed find d old l : timers_ok l -> timed find l -> find (chaddr d) = Some old -> chaddr old = chaddr d ->
  timers_ok (npd_dhcp_snp_handle_update env d old l) /\ timed (put_at find d) (npd_dhcp_snp_handle_update env d old l).
Proof.
  intros Hl Ht Hf Hc. unfold npd_dhcp_snp_handle_update. rewrite Hmaster. cbn [negb].
  assert (chaddr d ∈ l.*2 <-> leased old) as Hold.
  { rewrite (Ht (chaddr d)). split; [intros (x & Hx & ?); congruence|by exists old]. }
  destruct (Z.eqb_spec (lease_time d) (lease_time old)) as [El|El]; cbn [negb].
  { split; [done|]. apply (timed_put find d l); [done|]. intros m. destruct (Z.eqb_spec m (chaddr d)) as [->|]; [|done].
    rewrite Hold. unfold leased. by rewrite El. }
  set (l1 := if negb (lease_time old =? _) then _ else l).
  assert (timers_ok l1 /\ forall m, m ∈ l1.*2 <-> m ∈ l.*2 /\ m <> chaddr d) as [Hl1 H1].
  { unfold l1. destruct (Z.eqb_spec (lease_time old) NPD_DHCP_SNP_LEASE_INFINITE) as [Ei|Ei]; cbn [negb].
    - split; [done|]. intros m. split; [|tauto]. intros Hm. split; [done|]. intros ->. by apply Hold in Hm.
    - rewrite Hc. split; [by apply cancel_ok|by apply cancel_fmap]. }
  destruct (Z.eqb_spec (lease_time d) NPD_DHCP_SNP_LEASE_INFINITE) as [Ed|Ed]; cbn [negb].
  - split; [done|]. apply (timed_put find d l); [done|]. intros m. rewrite H1. destruct (Z.eqb_spec m (chaddr d)) as [->|]; [|tauto].
    split; [tauto|]. by intros Hd.
  - split; [by apply add_ok|]. apply (timed_put find d l); [done|]. intros m. rewrite add_fmap, H1 by done.
    destruct (Z.eqb_spec m (chaddr d)) as [->|]; [|tauto]. split; [done|by left].
Qed.

Lemma handle_insert_timed find d l : timers_ok l -> timed find l -> find (chaddr d) = None ->
  timers_ok (npd_dhcp_snp_handle_insert env d l) /\ timed (put_at find d) (npd_dhcp_snp_handle_insert env d l).
Proof.
  intros Hl Ht Hf. unfold npd_dhcp_snp_handle_insert. rewrite Hmaster. cbn [negb].
  assert (chaddr d ∉ l.*2) as Hold by (rewrite (Ht (chaddr d)); intros (x & Hx & _); congruence).
  destruct (Z.eqb_spec (lease_time d) NPD_DHCP_SNP_LEASE_INFINITE) as [Ed|Ed]; cbn [negb].
  - split; [done|]. apply (timed_put find d l); [done|]. intros m. by destruct (Z.eqb_spec m (chaddr d)) as [->|].
  - split; [by apply add_ok|]. apply (timed_put find d l); [done|]. intros m. rewrite add_fmap by done.
    destruct (Z.eqb_spec m (chaddr d)) as [->|]; [|tauto]. split; [done|by left].
Qed.

Lemma handle_delete_timed find old l : timers_ok l -> timed find l -> find (chaddr old) = Some old ->
  timers_ok (npd_dhcp_snp_handle_delete env old l) /\ timed (drop_at find (chaddr old)) (npd_dhcp_snp_handle_delete env old l).
Proof.
  intros Hl Ht Hf. unfold npd_dhcp_snp_handle_delete. rewrite Hmaster. cbn [negb].
  destruct (Z.eqb_spec (lease_time old) NPD_DHCP_SNP_LEASE_INFINITE) as [Ed|Ed]; cbn [negb].
  - split; [done|]. apply (timed_drop find _ l); [done|]. intros m. split; [|tauto]. intros Hm. split; [|done]. intros ->.
    apply Ht in Hm as (x & Hx & Hlx). congruence.
  - split; [by apply cancel_ok|]. apply (timed_drop find _ l); [done|]. intros m. rewrite cancel_fmap by done. tauto.
Qed.

Lemma consistent_as t l g o find : ks_ok t -> (forall mac, ks_search t (user_key mac) = find mac) -> timers_ok l /\ timed find l ->
  consistent (Snp t l g o).
Proof. intros Hok Hf [Hl Ht]. split_and!; [done|done|]. intros mac. rewrite (Ht mac). unfold binding. cbn [binds]. by rewrite Hf. Qed.

Lemma binding_chaddr st mac u : ks_ok (binds st) -> binding st mac = Some u -> chaddr u = mac.
Proof. intros Hok Hu. by apply (snp_found_key st (user_key mac)). Qed.

Lemma update_consistent d : keeps consistent (bind_update env d).
Proof.
  intros st a st' (Hok & Hl & Ht) E. destruct (binding st (chaddr d)) as [old|] eqn:Hx.
  - destruct (bind_update_found d old st Hok Hx) as (t & E' & Hok' & Hf). rewrite E' in E. injection E as _ <-.
    apply (consistent_as _ _ _ _ _ Hok' Hf). apply handle_update_timed; [done|done|done|]. by apply (binding_chaddr st).
  - destruct (bind_update_missing d st Hok Hx) as (t & E' & Hok' & Hf). rewrite E' in E. injection E as _ <-.
    by apply (consistent_as _ _ _ _ _ Hok' Hf).
Qed.
Lemma insert_consistent d : keeps consistent (bind_insert env d).
Proof.
  intros st a st' (Hok & Hl & Ht) E. destruct (binding st (chaddr d)) as [old|] eqn:Hx.
  - destruct (bind_insert_found d old st Hok Hx) as (t & E' & Hok' & Hf). rewrite E' in E. injection E as _ <-.
    apply (consistent_as _ _ _ _ _ Hok' Hf). apply handle_update_timed; [done|done|done|]. by apply (binding_chaddr st).
  - destruct (bind_insert_new d st Hok Hx) as (t & Hok' & [[E' Hf]|[E' Hf]]); rewrite E' in E; injection E as _ <-;
      apply (consistent_as _ _ _ _ _ Hok' Hf); [by apply handle_insert_timed|done].
Qed.
Lemma delete_consistent d : keeps consistent (bind_delete env d).
Proof.
  intros st a st' (Hok & Hl & Ht) E. destruct (binding st (chaddr d)) as [old|] eqn:Hx.
  - destruct (bind_delete_found d old st Hok Hx) as (t & E' & Hok' & Hf). rewrite E' in E. injection E as _ <-.
    apply (consistent_as _ _ _ _ _ Hok' Hf). rewrite <- (binding_chaddr st (chaddr d) old Hok Hx). apply handle_delete_timed; [done|done|].
    by rewrite (binding_chaddr st (chaddr d) old Hok Hx).
  - destruct (bind_delete_missing d st Hok Hx) as (c & t & E' & Hok' & Hf). rewrite E' in E. injection E as _ <-.
    by apply (consistent_as _ _ _ _ _ Hok' Hf).
Qed.

(** *** What all operations keep *)

(** A property of the state that the operations on the clients [X] keep, where
    [X] has every client without a static binding. *)
Section kept.
Context (P : snp_state T -> Prop) (X : Z -> Prop).
Context (Pok : forall st, P st -> ks_ok (binds st)) (Pblind : blind P).
Context (Pupd : forall d, X (chaddr d) -> keeps P (bind_update env d)).
Context (Pins : forall d, X (chaddr d) -> keeps P (bind_insert env d)).
Context (Pdel : forall d, X (chaddr d) -> keeps P (bind_delete env d)).
Context (Pfree : forall st mac, P st -> (forall u, binding st mac = Some u -> bind_type u <> NPD_DHCP_SNP_BIND_TYPE_STATIC) -> X mac).

Lemma guard_kept u : triple P (guard_bound env u) (fun r st => P st /\ forall u', r = Some u' -> chaddr u' = chaddr u).
Proof.
  assert (forall r : option NPD_DHCP_SNP_USER_ITEM_T, (forall u', r = Some u' -> chaddr u' = chaddr u) ->
    triple P (mret r) (fun r st => P st /\ forall u', r = Some u' -> chaddr u' = chaddr u)) as Hret.
  { intros r Hr st a st' HP [= <- <-]. done. }
  unfold guard_bound. destruct (_ && _); [|apply Hret; by intros u' [= <-]].
  destruct (source_guard_of env (ifindex u)) as [[]|]; [|apply Hret; by intros u' [= <-]|by apply Hret].
  apply (snp_triple_bind _ _ _ (fun _ => P)); [by apply keeps_guard|]. intros _. apply Hret. by intros u' [= <-].
Qed.

Lemma insert_kept u : X (chaddr u) -> keeps P (npd_dhcp_snp_tbl_item_insert env u).
Proof.
  intros HX. unfold npd_dhcp_snp_tbl_item_insert. eapply snp_triple_bind; [apply guard_kept|]. intros [u'|]; cbn beta.
  - apply snp_triple_pure. intros Hu. eapply snp_triple_bind; [apply Pins; by rewrite (Hu u')|]. intros a. apply snp_triple_ret.
  - intros st a st' [HP _]. by apply snp_triple_ret.
Qed.

Lemma refresh_kept pre u : X (chaddr u) -> keeps P (npd_dhcp_snp_tbl_refresh_bind env pre u).
Proof.
  intros HX. apply snp_keeps_get. intros st0 _. destruct (ks_search (binds st0) pre) as [x|]; [|apply snp_triple_ret].
  eapply snp_triple_bind; [apply guard_kept|]. intros [u'|]; cbn beta.
  - apply snp_triple_pure. intros Hu. eapply snp_triple_bind; [apply Pupd; by rewrite (Hu u')|]. intros r. apply snp_triple_ret.
  - intros st a st' [HP _]. by apply snp_triple_ret.
Qed.

Lemma delete_kept u : X (chaddr u) -> keeps P (npd_dhcp_snp_tbl_item_delete env u).
Proof.
  intros HX. unfold npd_dhcp_snp_tbl_item_delete.
  apply (snp_triple_bind _ _ _ (fun u' st => P st /\ chaddr u' = chaddr u)).
  { destruct (negb _).
    - eapply snp_triple_bind; [by apply keeps_guard|]. intros a0. eapply snp_triple_bind; [by apply (Pupd (with_sg u 0))|]. intros r st b st' HP [= <- <-]. done.
    - intros st a st' HP [= <- <-]. done. }
  intros u'. apply snp_triple_pure. intros Hu. apply (snp_triple_bind _ _ _ (fun _ => P)).
  - destruct (_ =? _); [by apply snp_keeps_send|apply snp_triple_ret].
  - intros ?. eapply snp_triple_bind; [apply Pdel; by rewrite Hu|]. intros r. apply snp_triple_ret.
Qed.

(** A client that a search finds free. *)
Lemma found_kept {A} u (k : option NPD_DHCP_SNP_USER_ITEM_T -> SM T A) :
  (forall r, (forall x, r = Some x -> chaddr x = chaddr u) ->
     ((forall x, r = Some x -> bind_type x <> NPD_DHCP_SNP_BIND_TYPE_STATIC) -> X (chaddr u)) -> keeps P (k r)) ->
  keeps P (r ← npd_dhcp_snp_tbl_item_find u; k r).
Proof.
  intros Hk st a st' HP. unfold npd_dhcp_snp_tbl_item_find, get_state, mbind, SM_bind, mret, SM_ret. apply Hk; [| |done].
  - intros x Hx. apply (snp_found_key st); [by apply Pok|done].
  - intros Hr. apply (Pfree st); [done|]. intros x Hx. apply Hr. rewrite search_binding by by apply Pok. done.
Qed.

(** *** Packets *)

Lemma discovery_kept vid port m : keeps P (npd_dhcp_snp_discovery_process env vid port m).
Proof.
  unfold npd_dhcp_snp_discovery_process. do 3 (apply snp_keeps_bind; [apply triple_lift|intros ?]). apply found_kept. intros r Hr HX.
  destruct r as [x|]; [|apply insert_kept; by apply HX].
  destruct (Z.eqb_spec (bind_type x) NPD_DHCP_SNP_BIND_TYPE_DYNAMIC) as [Hd|]; [|apply snp_triple_ret].
  apply snp_keeps_bind; [|intros; apply snp_triple_ret]. apply refresh_kept. apply HX. intros ? [= <-]. by rewrite Hd.
Qed.

Lemma request_kept vid port m : keeps P (npd_dhcp_snp_request_process env vid port m).
Proof.
  unfold npd_dhcp_snp_request_process. do 3 (apply snp_keeps_bind; [apply triple_lift|intros ?]). apply found_kept. intros r Hr HX.
  destruct r as [x|]; [|apply insert_kept; by apply HX].
  destruct (Z.eqb_spec (bind_type x) NPD_DHCP_SNP_BIND_TYPE_DYNAMIC) as [Hd|]; [|apply snp_triple_ret]. cbn [andb].
  destruct (_ || _); [|apply snp_triple_ret].
  apply snp_keeps_bind; [|intros; apply snp_triple_ret]. apply refresh_kept. apply HX. intros ? [= <-]. by rewrite Hd.
Qed.

Lemma ack_kept vid port m : keeps P (npd_dhcp_snp_ack_process env vid port m).
Proof.
  unfold npd_dhcp_snp_ack_process. apply snp_keeps_bind; [apply triple_lift|intros u]. destruct (_ || _); [apply snp_triple_ret|].
  apply found_kept. intros r Hr HX. destruct r as [x|]; [|apply snp_triple_ret].
  destruct (Z.eqb_spec (bind_type x) NPD_DHCP_SNP_BIND_TYPE_STATIC) as [|Hd]; [apply snp_triple_ret|].
  do 2 (apply snp_keeps_bind; [apply triple_lift|intros ?]). apply snp_keeps_bind; [|intros; apply snp_triple_ret].
  apply refresh_kept. cbn [chaddr with_bound with_lease]. rewrite (Hr x) by done. apply HX. by intros ? [= <-].
Qed.

Lemma nack_kept vid port m : keeps P (npd_dhcp_snp_nack_process env vid port m).
Proof.
  unfold npd_dhcp_snp_nack_process. apply snp_keeps_bind; [apply triple_lift|intros u].
  apply found_kept. intros r Hr HX. destruct r as [x|]; [|apply snp_triple_ret].
  destruct (Z.eqb_spec (bind_type x) NPD_DHCP_SNP_BIND_TYPE_STATIC) as [|Hd]; [apply snp_triple_ret|].
  do 2 (apply snp_keeps_bind; [apply triple_lift|intros ?]). repeat (case_match; try apply snp_triple_ret). apply snp_keeps_bind; [|intros; apply snp_triple_ret].
  apply delete_kept. rewrite (Hr x) by done. apply HX. by intros ? [= <-].
Qed.

Lemma release_kept vid port m : keeps P (npd_dhcp_snp_release_process env vid port m).
Proof.
  unfold npd_dhcp_snp_release_process. apply snp_keeps_bind; [apply triple_lift|intros u].
  apply found_kept. intros r Hr HX. destruct r as [x|]; [|apply snp_triple_ret].
  destruct (Z.eqb_spec (bind_type x) NPD_DHCP_SNP_BIND_TYPE_STATIC) as [|Hd]; [apply snp_triple_ret|].
  apply snp_keeps_bind.
  { unfold npd_dhcp_snp_tbl_identity_item. repeat (case_match; try apply snp_triple_ret). do 2 (apply snp_keeps_bind; [apply triple_lift|intros ?]). apply snp_triple_ret. }
  intros ret. repeat (case_match; try apply snp_triple_ret). apply snp_keeps_bind; [|intros; apply snp_triple_ret].
  apply delete_kept. rewrite (Hr x) by done. apply HX. by intros ? [= <-].
Qed.

Lemma record_kept vid port m mt trust : keeps P (npd_dhcp_packet_record_user_info env vid port m mt trust).
Proof.
  unfold npd_dhcp_packet_record_user_info. repeat (case_match; try apply snp_triple_ret); (apply snp_keeps_bind; [|intros; apply snp_triple_ret]).
  - apply discovery_kept.
  - apply request_kept.
  - apply ack_kept.
  - apply nack_kept.
  - apply release_kept.
Qed.

Lemma to_client_kept m len port vid : keeps P (npd_dhcp_snp_send_to_client env m len port vid).
Proof.
  unfold npd_dhcp_snp_send_to_client. apply snp_keeps_bind; [apply triple_lift|intros mac]. case_match; [apply snp_triple_ret|].
  case_match; [|apply snp_triple_ret]. apply snp_keeps_bind.
  { case_match; [|apply snp_triple_ret]. intros st a st' HP [= _ <-]. done. }
  intros found. apply snp_keeps_bind; [apply triple_lift|intros giaddr].
  repeat (case_match; try apply snp_triple_ret; try (apply snp_keeps_bind; [by apply snp_keeps_send|intros; apply snp_triple_ret])).
Qed.

Lemma to_server_kept m len netif vid relay : keeps P (npd_dhcp_snp_send_to_server env m len netif vid relay).
Proof.
  unfold npd_dhcp_snp_send_to_server. case_match; [apply snp_keeps_bind; [by apply snp_keeps_send|intros; apply snp_triple_ret]|].
  apply snp_keeps_bind; [apply triple_lift|intros hops]. case_match; [apply snp_triple_ret|].
  apply snp_keeps_bind; [apply triple_lift|intros m']. apply snp_keeps_bind; [by apply snp_keeps_send|intros _].
  apply snp_keeps_bind; [|intros; apply snp_triple_ret]. case_match; [by apply snp_keeps_send|apply snp_triple_ret].
Qed.

Lemma packet_kept m len netif vid : keeps P (npd_dhcp_snp_packet_rx_process env m len netif vid).
Proof.
  unfold npd_dhcp_snp_packet_rx_process. apply snp_keeps_bind; [apply triple_lift|intros mac]. case_match; [apply snp_triple_ret|].
  apply snp_keeps_bind; [apply triple_lift|intros [p|]]; [|apply snp_triple_ret]. apply snp_keeps_bind; [apply triple_lift|intros mt].
  destruct (npd_dhcp_snp_global_cfg_get env) as [cfg|] eqn:Hcfg; [|apply snp_triple_ret].
  do 3 (apply snp_keeps_bind; [apply triple_lift|intros ?]). destruct (relays _ _ _ _ _) as [relay relay82]. case_match; [apply snp_triple_ret|].
  apply snp_keeps_bind.
  { repeat (case_match; try apply snp_triple_ret). apply record_kept. }
  intros ret. case_match; [apply snp_triple_ret|]. apply snp_keeps_bind; [apply triple_lift|intros [[ret' m'] len']].
  repeat (case_match; try apply snp_triple_ret; try apply to_client_kept; try apply to_server_kept).
Qed.

(** Commands, and deletions of one binding, where every client is free. *)
Context (Xall : forall mac, X mac).

Lemma command_kept mac ip vid port opt lease btype : keeps P (npd_dbus_dhcp_snp_add_del_binding env mac ip vid port opt lease btype).
Proof.
  unfold npd_dbus_dhcp_snp_add_del_binding. case_match; [apply snp_triple_ret|]. case_match; [|apply snp_triple_ret].
  do 3 (case_match; [apply snp_triple_ret|]). apply found_kept. intros r _ _.
  repeat (case_match; try apply snp_triple_ret; try (apply snp_keeps_bind; [|intros; apply snp_triple_ret]));
    [by apply refresh_kept|by apply insert_kept|by apply delete_kept].
Qed.

Lemma lease_delete_kept pick u : keeps P (lease_delete env pick u).
Proof. unfold lease_delete. case_match; [by apply delete_kept|apply snp_triple_ret]. Qed.

Lemma timer_loop_kept fuel now : keeps P (timer_loop env fuel now).
Proof.
  induction fuel as [|fuel IH]; cbn [timer_loop]; [apply triple_lift|]. apply snp_keeps_get. intros st _.
  destruct (timeouts st) as [|[e hw] l]; [apply snp_triple_ret|]. destruct (e <=? now); [|apply snp_triple_ret].
  apply found_kept. intros r _ _. destruct r as [x|]; [|done]. case_match; [apply snp_triple_ret|].
  apply snp_keeps_bind; [by apply delete_kept|done].
Qed.

End kept.
(** ** The state of a run *)

Lemma consistent_blind : blind consistent.
Proof. by intros t l g o g' o' H'. Qed.

(** ** Expiry *)

Definition guard_dels u : list guard_call :=
  if have_sg u =? 0 then [] else [npd_source_guard_entry_del (ip_addr u) (ifindex u)].
Definition nak_outs u : list snp_out :=
  if lease_time u =? NPD_DHCP_SNP_REQUEST_TIMEOUT_NAK then [SendNak (if have_sg u =? 0 then u else with_sg u 0)] else [].

(** A binding that is there is deleted with its timer and its source guard. *)
Lemma item_delete_exact st mac u : ks_ok (binds st) -> binding st mac = Some u -> exists t,
  npd_dhcp_snp_tbl_item_delete env u st =
    Some (DHCP_SNP_RETURN_CODE_OK, Snp t (npd_dhcp_snp_handle_delete env u (timeouts st)) (guards st ++ guard_dels u) (outs st ++ nak_outs u)) /\
  ks_ok t /\ forall m, ks_search t (user_key m) = drop_at (binding st) mac m.
Proof.
  intros Hok Hu. pose proof (binding_chaddr st mac u Hok Hu) as Hc. unfold npd_dhcp_snp_tbl_item_delete, guard_dels, nak_outs.
  set (u0 := if have_sg u =? 0 then u else with_sg u 0).
  assert (exists t0, (if negb (have_sg u =? 0) then guard_calls (npd_source_guard_entry_del (ip_addr u) (ifindex u));; bind_update env (with_sg u 0);; mret (with_sg u 0)
      else mret u) st = Some (u0, Snp t0 (timeouts st) (guards st ++ guard_dels u) (outs st)) /\ ks_ok t0 /\
      ks_search t0 (user_key mac) = Some u0 /\ forall m, m <> mac -> ks_search t0 (user_key m) = binding st m) as (t0 & E0 & Hok0 & F0 & G0).
  { unfold u0, guard_dels. destruct (have_sg u =? 0); cbn [negb].
    - exists (binds st). rewrite app_nil_r. by destruct st.
    - set (st1 := Snp (binds st) (timeouts st) (guards st ++ [npd_source_guard_entry_del (ip_addr u) (ifindex u)]) (outs st)).
      destruct (bind_update_found (with_sg u 0) u st1 Hok) as (t0 & E & Hok0 & Hf); [cbn [chaddr with_sg]; by rewrite Hc|].
      exists t0. split_and!; [|done| |].
      + unfold guard_calls, mbind, SM_bind. fold st1. rewrite E. unfold npd_dhcp_snp_handle_update, mret, SM_ret. cbn [lease_time with_sg].
        rewrite Z.eqb_refl. cbn [negb]. by destruct (negb (is_master env)).
      + rewrite Hf. unfold put_at. cbn [chaddr with_sg]. by rewrite Hc, Z.eqb_refl.
      + intros m Hm. rewrite Hf. unfold put_at. cbn [chaddr with_sg]. rewrite Hc. by destruct (Z.eqb_spec m mac). }
  assert (chaddr u0 = mac /\ lease_time u0 = lease_time u) as [Hc0 Hl0] by (unfold u0; by destruct (_ =? 0)).
  set (outs' := outs st ++ nak_outs u).
  destruct (bind_delete_found u0 u0 (Snp t0 (timeouts st) (guards st ++ guard_dels u) outs') Hok0) as (t & E & Hok' & Hf).
  { unfold binding. cbn [binds]. by rewrite Hc0. }
  exists t. split_and!; [|done|].
  - unfold mbind, SM_bind in E0 |- *. rewrite E0, Hl0.
    assert ((if lease_time u =? NPD_DHCP_SNP_REQUEST_TIMEOUT_NAK then send (SendNak u0) else mret ())
      (Snp t0 (timeouts st) (guards st ++ guard_dels u) (outs st)) = Some (tt, Snp t0 (timeouts st) (guards st ++ guard_dels u) outs')) as ->.
    { unfold outs', nak_outs. fold u0. destruct (lease_time u =? NPD_DHCP_SNP_REQUEST_TIMEOUT_NAK); [done|]. by rewrite app_nil_r. }
    rewrite E. unfold npd_dhcp_snp_handle_delete. cbn [timeouts guards outs]. rewrite Hl0, Hc0, <- Hc. done.
  - intros m. rewrite Hf. unfold drop_at. rewrite Hc0. destruct (Z.eqb_spec m mac); [done|]. by apply G0.
Qed.

(** The clients whose time has come. *)
Definition expired (now : Z) (l : list timeout) (mac : Z) : bool := existsb (fun x => (x.2 =? mac) && (x.1 <=? now)) l.

Lemma expired_later now l mac : Forall (fun x : timeout => now < x.1) l -> expired now l mac = false.
Proof.
  induction 1 as [|x l Hx _ IH]; [done|]. unfold expired in *. cbn [existsb]. rewrite IH. destruct (Z.leb_spec x.1 now); [lia|]. by rewrite andb_false_r.
Qed.

Lemma filter_later now l : Forall (fun x : timeout => now < x.1) l -> filter (fun x : timeout => now < x.1) l = l.
Proof. induction 1 as [|x l Hx _ IH]; [done|]. by rewrite filter_cons_True, IH. Qed.

Lemma timer_exact now n : master_active env = true -> forall st, length (timeouts st) = n -> consistent st -> exists st',
  timer_loop env (S n) now st = Some (tt, st') /\ timeouts st' = filter (fun x => now < x.1) (timeouts st) /\
  forall mac, binding st' mac = if expired now (timeouts st) mac then None else binding st mac.
Proof.
  intros Hact. induction n as [|n IH]; intros st Hn Hst.
  { exists st. destruct (timeouts st) eqn:E; [|done]. cbn [timer_loop]. unfold get_state, mbind, SM_bind. by rewrite E. }
  remember (S n) as k. cbn [timer_loop]. unfold get_state. unfold mbind at 1, SM_bind at 1. destruct (timeouts st) as [|[e hw] l] eqn:El; [subst; done|].
  pose proof Hst as (Hok & [Hs Hd] & Ht). rewrite El in Hs, Hd. apply StronglySorted_inv in Hs as [Hs Hmin]. destruct (Z.leb_spec e now) as [He|He].
  - assert (exists u, binding st hw = Some u /\ leased u) as (u & Hu & Hlu) by (apply Ht; rewrite El; by left).
    unfold npd_dhcp_snp_tbl_item_find, get_state. unfold mbind at 1, SM_bind at 1. unfold mbind at 1, SM_bind at 1. unfold mret at 1, SM_ret at 1.
    unfold binding in Hu. rewrite Hu, Hact. cbn [negb]. unfold mbind at 1, SM_bind at 1.
    destruct (item_delete_exact st hw u Hok Hu) as (t & Ed & Hok' & Hf). rewrite Ed.
    pose proof (delete_kept consistent (fun _ => True) consistent_blind (fun d _ => update_consistent d) (fun d _ => delete_consistent d) u I st _ _ Hst Ed) as Hst'.
    assert (npd_dhcp_snp_handle_delete env u (timeouts st) = l) as El'.
    { unfold npd_dhcp_snp_handle_delete. rewrite Hmaster, El. cbn [negb]. destruct (Z.eqb_spec (lease_time u) NPD_DHCP_SNP_LEASE_INFINITE); [done|]. cbn [negb].
      unfold npd_dhcp_snp_cancel_timeout. cbn [unlink_node snd]. by rewrite (binding_chaddr st hw u Hok Hu), Z.eqb_refl. }
    rewrite El' in *. subst k. destruct (IH (Snp t l (guards st ++ guard_dels u) (outs st ++ nak_outs u))) as (st' & E & F & G);
      [cbn [timeouts length] in *; lia|done|]. exists st'. split_and!; [done| |].
    + rewrite F. cbn [timeouts]. rewrite filter_cons_False; [done|]. cbn [fst]. lia.
    + intros mac. rewrite G. cbn [timeouts]. unfold binding at 1. cbn [binds]. rewrite Hf. unfold drop_at, expired. cbn [existsb fst snd].
      rewrite (Z.eqb_sym hw mac). destruct (Z.eqb_spec mac hw); [|done]. destruct (Z.leb_spec e now); [|lia]. by case_match.
  - assert (Forall (fun x : timeout => now < x.1) ((e, hw) :: l)) as Hall.
    { apply Forall_cons. split; [done|]. eapply Forall_impl; [exact Hmin|]. unfold sooner. cbn [fst]. intros; lia. }
    exists st. split_and!; [done| |].
    + by rewrite filter_later.
    + intros mac. by rewrite expired_later.
Qed.

End bindings.

(** ** Runs of the daemon *)

(** What happens to the daemon: a packet, the timer, a command, a turn of
    the walks that remove the bindings of a port or VLAN, for any entry. *)
Inductive snp_event :=
  | Packet (m : list Z) (len netif vid : Z)
  | Timer (now : Z)
  | Command (mac ip vid port opt lease btype : Z)
  | LeaseGone (pick : NPD_DHCP_SNP_USER_ITEM_T -> bool) (leaseEntry : NPD_DHCP_SNP_USER_ITEM_T).

Section runs.
Context {T : Type} `{!KeyStore T NPD_DHCP_SNP_USER_ITEM_T}.

Definition handle (env : snp_env) (ev : snp_event) : SM T unit :=
  match ev with
  | Packet m len netif vid => npd_dhcp_snp_packet_rx_process env m len netif vid;; mret tt
  | Timer now => timer_expire env now
  | Command mac ip vid port opt lease btype => npd_dbus_dhcp_snp_add_del_binding env mac ip vid port opt lease btype;; mret tt
  | LeaseGone pick leaseEntry => lease_delete env pick leaseEntry;; mret tt
  end.

(** Every event with the environment it happens in. *)
Fixpoint run (evs : list (snp_env * snp_event)) : SM T unit :=
  match evs with
  | [] => mret tt
  | (env, ev) :: evs => handle env ev;; run evs
  end.

Context `{!KeyStoreLaws T NPD_DHCP_SNP_USER_ITEM_T, !KeyStoreTotal T NPD_DHCP_SNP_USER_ITEM_T}.
Context (Hsame : forall x y : NPD_DHCP_SNP_USER_ITEM_T, ks_same x y = (chaddr x =? chaddr y)).

Lemma handle_consistent env ev : is_master env = true -> keeps consistent (handle env ev).
Proof.
  intros Hm. assert (forall st : snp_state T, consistent st -> ks_ok (binds st)) as Hok by by intros st [].
  pose proof (fun d (_ : True) => update_consistent Hsame env Hm d) as Hu. pose proof (fun d (_ : True) => insert_consistent Hsame env Hm d) as Hi.
  pose proof (fun d (_ : True) => delete_consistent Hsame env Hm d) as Hd. pose proof consistent_blind as Hb.
  assert (forall st (mac : Z), consistent st -> (forall u, binding st mac = Some u -> bind_type u <> NPD_DHCP_SNP_BIND_TYPE_STATIC) -> True) as Hf by done.
  destruct ev; cbn [handle]; try (apply snp_keeps_bind; [|intros; apply snp_triple_ret]).
  - by apply (packet_kept Hsame env consistent (fun _ => True)).
  - intros st a st' Hst. by apply (timer_loop_kept Hsame env consistent (fun _ => True)).
  - by apply (command_kept Hsame env consistent (fun _ => True)).
  - by apply (lease_delete_kept env consistent (fun _ => True)).
Qed.

Lemma run_consistent evs : Forall (fun e => is_master e.1 = true) evs -> keeps consistent (run evs).
Proof.
  induction 1 as [|[env ev] evs He _ IH]; cbn [run]; [apply snp_triple_ret|]. apply snp_keeps_bind; [by apply handle_consistent|done].
Qed.

(** What a packet does not change: a static binding. *)
Definition has_static (mac : Z) (u : NPD_DHCP_SNP_USER_ITEM_T) (st : snp_state T) : Prop :=
  ks_ok (binds st) /\ binding st mac = Some u /\ bind_type u = NPD_DHCP_SNP_BIND_TYPE_STATIC.

Lemma static_put t d l g o mac u st : has_static mac u st -> chaddr d <> mac -> ks_ok t ->
  (forall m, ks_search t (user_key m) = put_at (binding st) d m) -> has_static mac u (Snp t l g o).
Proof.
  intros (_ & Hu & Hs) Hne Hok Hf. split_and!; [done| |done]. unfold binding. cbn [binds]. rewrite Hf. unfold put_at.
  by destruct (Z.eqb_spec mac (chaddr d)).
Qed.
Lemma static_same t l g o mac u st : has_static mac u st -> ks_ok t ->
  (forall m, ks_search t (user_key m) = binding st m) -> has_static mac u (Snp t l g o).
Proof. intros (_ & Hu & Hs) Hok Hf. split_and!; [done| |done]. unfold binding. cbn [binds]. by rewrite Hf. Qed.

Lemma packet_static env mac u m len netif vid : keeps (has_static mac u) (npd_dhcp_snp_packet_rx_process env m len netif vid).
Proof.
  apply (packet_kept Hsame env (has_static mac u) (fun k => k <> mac)).
  - by intros st [].
  - by intros t l g o g' o' H'.
  - intros d Hd st a st' Hst E. pose proof Hst as (Hok & _). destruct (binding st (chaddr d)) as [old|] eqn:Hx.
    + destruct (bind_update_found Hsame env d old st Hok Hx) as (t & E' & Hok' & Hf). rewrite E' in E. injection E as _ <-. by apply (static_put _ d _ _ _ _ _ st).
    + destruct (bind_update_missing Hsame env d st Hok Hx) as (t & E' & Hok' & Hf). rewrite E' in E. injection E as _ <-. by apply (static_same _ _ _ _ _ _ st).
  - intros d Hd st a st' Hst E. pose proof Hst as (Hok & _). destruct (binding st (chaddr d)) as [old|] eqn:Hx.
    + destruct (bind_insert_found Hsame env d old st Hok Hx) as (t & E' & Hok' & Hf). rewrite E' in E. injection E as _ <-. by apply (static_put _ d _ _ _ _ _ st).
    + destruct (bind_insert_new Hsame env d st Hok Hx) as (t & Hok' & [[E' Hf]|[E' Hf]]); rewrite E' in E; injection E as _ <-;
        [by apply (static_put _ d _ _ _ _ _ st)|by apply (static_same _ _ _ _ _ _ st)].
  - intros d Hd st a st' Hst E. pose proof Hst as (Hok & Hu & Hs). destruct (binding st (chaddr d)) as [old|] eqn:Hx.
    + destruct (bind_delete_found Hsame env d old st Hok Hx) as (t & E' & Hok' & Hf). rewrite E' in E. injection E as _ <-.
      split_and!; [done| |done]. unfold binding. cbn [binds]. rewrite Hf. unfold drop_at. by destruct (Z.eqb_spec mac (chaddr d)).
    + destruct (bind_delete_missing Hsame env d st Hok Hx) as (c & t & E' & Hok' & Hf). rewrite E' in E. injection E as _ <-. by apply (static_same _ _ _ _ _ _ st).
  - intros st k (_ & Hu & Hs) Hk ->. by apply (Hk u).
Qed.

End runs.

(** ** The table of the daemon *)

#[export] Instance snp_table : KeyStore (db_table_t NPD_DHCP_SNP_USER_ITEM_T) NPD_DHCP_SNP_USER_ITEM_T := binds_store.

#[local] Instance snp_hash_laws : HashLaws npd_dhcp_snp_dbhash_index_mac_key npd_dhcp_snp_dbhash_mac_compare NPD_DHCP_SNP_DBHASH_MAC_SIZE.
Proof.
  unfold npd_dhcp_snp_dbhash_mac_compare. split; [split; [split|]|].
  - intros x. apply Z.eqb_refl.
  - intros x y. rewrite !Z.eqb_eq. congruence.
  - intros x y z. rewrite !Z.eqb_eq. congruence.
  - intros x y E%Z.eqb_eq. unfold npd_dhcp_snp_dbhash_index_mac_key. by rewrite E.
  - intros x. by apply Z.mod_pos_bound.
Qed.

#[export] Instance snp_table_laws : KeyStoreLaws (db_table_t NPD_DHCP_SNP_USER_ITEM_T) NPD_DHCP_SNP_USER_ITEM_T.
Proof. apply database_hash_store_laws, snp_hash_laws. Qed.
#[export] Instance snp_table_total : KeyStoreTotal (db_table_t NPD_DHCP_SNP_USER_ITEM_T) NPD_DHCP_SNP_USER_ITEM_T.
Proof. done. Qed.

Lemma snp_table_same (x y : NPD_DHCP_SNP_USER_ITEM_T) : ks_same x y = (chaddr x =? chaddr y).
Proof. done. Qed.

(** A new table with a second index, searched through the first. *)
Lemma second_index_models {D} (junk : D) key cmp sz `{!HashLaws key cmp sz} key2 cmp2 sz2 num esize mode :
  0 <= num < 2 ^ 32 -> 0 < esize <= MAX_SEND_SIZE - SYNC_HEADER_SIZE -> 0 <= sz ->
  let db := dbtable_create_hash_index (dbtable_create_hash_index (create_dbtable num esize mode) sz (Some key) cmp) sz2 (Some key2) cmp2 in
  hash_ok 1 key cmp sz db /\ forall d, hash_find junk 1 db d = None.
Proof.
  intros Hn He Hs db. destruct (create_models junk key cmp sz num esize mode Hn He Hs) as [(Hw & h & Hg & Hc) _ _].
  destruct (create_wf (D := D) num esize mode Hn He) as (_ & H0 & _).
  assert (core_eq db (dbtable_create_hash_index (create_dbtable num esize mode) sz (Some key) cmp)) as Hi by apply core_with_index.
  assert (hash_ok 1 key cmp sz db) as Hok by (split; [by rewrite Hi|by exists h]).
  split; [done|]. intros d. apply (hash_find_none junk 1 key cmp sz db d Hok). intros i x [Hx _]. rewrite Hi in Hx.
  change (contents (create_dbtable num esize mode) !! i = Some x) in Hx. by rewrite H0 in Hx.
Qed.

Lemma initialize_models : ks_ok (binds npd_dhcp_snp_tbl_initialize) /\ forall mac, binding npd_dhcp_snp_tbl_initialize mac = None.
Proof.
  destruct (second_index_models (user_key 0) npd_dhcp_snp_dbhash_index_mac_key npd_dhcp_snp_dbhash_mac_compare NPD_DHCP_SNP_DBHASH_MAC_SIZE
    npd_dhcp_snp_dbhash_index_key npd_dhcp_snp_dbhash_mac_compare NPD_DHCP_SNP_INDEX_SIZE NPD_DHCP_SNP_DBTABLE_SIZE 56 1) as [Hok Hf]; [done|done|done|].
  split; [exact Hok|]. intros mac. exact (Hf (user_key mac)).
Qed.

Lemma initialize_consistent : consistent npd_dhcp_snp_tbl_initialize.
Proof.
  destruct initialize_models as [Hok Hf]. split_and!; [done|split; constructor|]. intros mac. rewrite Hf. split; [by intros ?%elem_of_nil|by intros (u & [=] & _)].
Qed.

(** ** Properties *)

Abbreviation snp_table_state := (snp_state (db_table_t NPD_DHCP_SNP_USER_ITEM_T)).

Lemma reached_consistent evs (st' : snp_table_state) :
  Forall (fun e => is_master e.1 = true) evs -> run evs npd_dhcp_snp_tbl_initialize = Some (tt, st') -> consistent st'.
Proof. intros Hm. apply (run_consistent snp_table_same evs Hm), initialize_consistent. Qed.

(** C16: On the master board, in every state that the daemon can reach from its
    start without a crash, by packets
    with any content, commands, removals and timers in any order and under any
    configuration, the list of timers is sorted, has one node for every
    binding whose lease ends and no other node. *)
Theorem leases_have_timers evs (st' : snp_table_state) :
  Forall (fun e => is_master e.1 = true) evs -> run evs npd_dhcp_snp_tbl_initialize = Some (tt, st') -> consistent st'.
Proof. apply reached_consistent. Qed.

(** C29: The timer thread returns, and the bindings whose time has come are
    gone, with their timers, and all others are as they were. *)
Theorem expired_bindings_removed env now (st : snp_table_state) : is_master env = true -> master_active env = true -> consistent st ->
  exists st', timer_expire env now st = Some (tt, st') /\ consistent st' /\
    timeouts st' = filter (fun x => now < x.1) (timeouts st) /\
    forall mac, binding st' mac = if expired now (timeouts st) mac then None else binding st mac.
Proof.
  intros Hm Ha Hst. destruct (timer_exact snp_table_same env Hm now (length (timeouts st)) Ha st eq_refl Hst) as (st' & E & F & G).
  exists st'. split_and!; [done| |done|done]. by apply (handle_consistent snp_table_same env (Timer now) Hm st tt st').
Qed.

(** C30: No packet, whatever its content and from whatever port, changes or
    removes a static binding. *)
Theorem static_bindings_untouched env m len netif vid r mac u (st st' : snp_table_state) :
  ks_ok (binds st) -> binding st mac = Some u -> bind_type u = NPD_DHCP_SNP_BIND_TYPE_STATIC ->
  npd_dhcp_snp_packet_rx_process env m len netif vid st = Some (r, st') -> binding st' mac = Some u.
Proof. intros Hok Hu Hs E. by apply (packet_static snp_table_same env mac u m len netif vid st r st'). Qed.

(** *** A run *)

Definition demo_env (now : Z) : snp_env :=
  {| is_master := true; master_active := true; npd_dhcp_snp_get_relative := now; source_guard_of := fun _ => Some true;
     npd_dhcp_snp_global_cfg_get := Some demo_config;
     npd_dhcp_snp_status_item_find := fun p => if p =? 7 then Some (StatusItem 7 NPD_DHCP_SNP_PORT_MODE_TRUST 0 0 (replicate 64 0)) else None;
     SYS_PRODUCT_BASEMAC := 0x1f640a0b0c; PRODUCT_MAC_ADDRESS := demo_mac; npd_dhcp_relay_global_status_get := None;
     npd_dhcpr_check_intf_status := fun _ => false; npd_dhcpr_check_global_status := false; dhcp_relay_max_hops := 16;
     npd_dhcpr_relay_server_send := fun _ => 1; npd_dhcp_relay_message_replace := fun _ _ _ _ => None; vlan_exists := fun _ => true;
     npd_vlan_check_contain_port := fun _ _ => true |}.

Definition demo_client : Z := 0x1f64000001.
Definition demo_discover : list Z := wire (demo_frame NPD_DHCP_BOOTREQUEST 0 0 [Opt NPD_DHCP_MESSAGE_TYPE [NPD_DHCP_DISCOVER]]).
Definition demo_ack_frame : frame :=
  demo_frame NPD_DHCP_BOOTREPLY 10 9
    [Opt NPD_DHCP_MESSAGE_TYPE [NPD_DHCP_ACK]; Opt DHCP_SERVER_ID [10; 0; 0; 1]; Opt DHCP_LEASE_TIME [0; 0; 14; 16]].
Definition demo_ack : list Z := wire demo_ack_frame.

(** The client on port 5 gets an address for an hour from the server on
    port 7. *)
Definition demo_run : list (snp_env * snp_event) :=
  [(demo_env 100, Packet demo_discover 300 5 10); (demo_env 102, Packet demo_ack 320 7 10)].

(** A state of a run, with what a decision says of it. *)
Lemma run_decided evs (P : snp_table_state -> bool) : Forall (fun e => is_master e.1 = true) evs ->
  match run evs npd_dhcp_snp_tbl_initialize with Some (_, st) => P st | None => false end = true ->
  exists st : snp_table_state, run evs npd_dhcp_snp_tbl_initialize = Some (tt, st) /\ consistent st /\ P st = true.
Proof.
  intros Hm. destruct (run evs npd_dhcp_snp_tbl_initialize) as [[[] st]|] eqn:E; [|done]. intros HP. exists st. split_and!; [done| |done].
  by apply (reached_consistent evs).
Qed.

Lemma leases_have_timers_witness : exists st : snp_table_state, run demo_run npd_dhcp_snp_tbl_initialize = Some (tt, st) /\ consistent st /\
  timeouts st = [(3702, demo_client)] /\ (ip_addr <$> binding st demo_client) = Some 0x0900000a.
Proof.
  destruct (run_decided demo_run (fun st => bool_decide (timeouts st = [(3702, demo_client)]) &&
    bool_decide ((ip_addr <$> binding st demo_client) = Some 0x0900000a))) as (st & E & _ & H); [by repeat constructor|by vm_compute|].
  apply andb_true_iff in H as [H1%bool_decide_eq_true H2%bool_decide_eq_true]. exists st. split_and!; [done| |done|done].
  apply (leases_have_timers demo_run st); [by repeat constructor|done].
Defined.

Lemma expired_bindings_removed_witness : exists st st' : snp_table_state, run demo_run npd_dhcp_snp_tbl_initialize = Some (tt, st) /\
  timer_expire (demo_env 3702) 3702 st = Some (tt, st') /\ timeouts st' = [] /\ binding st' demo_client = None.
Proof.
  destruct (run_decided demo_run (fun st => bool_decide (timeouts st = [(3702, demo_client)]))) as (st & E & Hst & H); [by repeat constructor|by vm_compute|].
  apply bool_decide_eq_true in H. exists st.
  destruct (expired_bindings_removed (demo_env 3702) 3702 st eq_refl eq_refl Hst) as (st' & E' & _ & F & G).
  exists st'. rewrite F, G, H. split_and!; [done|done|done|done].
Defined.

(** A binding of the operator, and a message of its server. *)
Definition demo_static : list (snp_env * snp_event) :=
  [(demo_env 50, Command demo_client 0x0500000a 10 5 NPD_DHCP_SNP_BINDING_OPERATE_TYPE_ADD 3600 NPD_DHCP_SNP_BIND_TYPE_STATIC)].

Lemma static_bindings_untouched_witness : exists st st' : snp_table_state, run demo_static npd_dhcp_snp_tbl_initialize = Some (tt, st) /\
  npd_dhcp_snp_packet_rx_process (demo_env 102) demo_ack 320 7 10 st = Some (DHCP_SNP_RETURN_CODE_PKT_DROP, st') /\
  (ip_addr <$> binding st' demo_client) = Some 0x0500000a.
Proof.
  destruct (run_decided demo_static (fun st =>
    match binding st demo_client with Some u => (bind_type u =? NPD_DHCP_SNP_BIND_TYPE_STATIC) && (ip_addr u =? 0x0500000a) | None => false end &&
    match npd_dhcp_snp_packet_rx_process (demo_env 102) demo_ack 320 7 10 st with Some (r, _) => r =? DHCP_SNP_RETURN_CODE_PKT_DROP | None => false end))
    as (st & E & [Hok _] & H); [by repeat constructor|by vm_compute|]. exists st.
  apply andb_true_iff in H as [H1 H2]. destruct (binding st demo_client) as [u|] eqn:Hu; [|done].
  apply andb_true_iff in H1 as [Hs%Z.eqb_eq Hi%Z.eqb_eq]. destruct (npd_dhcp_snp_packet_rx_process (demo_env 102) demo_ack 320 7 10 st) as [[r st']|] eqn:E'; [|done].
  apply Z.eqb_eq in H2 as ->. exists st'. split; [done|]. split; [done|].
  rewrite (static_bindings_untouched (demo_env 102) demo_ack 320 7 10 _ demo_client u st st' Hok Hu Hs E'). cbn [fmap option_fmap option_map]. by rewrite Hi.
Defined.
