(* ===== verification/DhcpLeases.v ===== *)
(** * What DHCP packets do to the bindings

    Replies from a port that is not trusted are dropped and change nothing; the
    acknowledgement of a server starts the lease of its client; and what goes
    wrong: a lease renewed for the same time ends at its first end, a client
    can send the refusal of the server itself, and a refusal without a server
    identifier stops the process. *)

From Stdlib Require Import ZArith Lia Bool.
From stdpp Require Import base decidable list gmap.
From S2P Require Import Prelude Database DatabaseHash KeyStore NetifIndex DhcpPacket DhcpOptions DhcpFrames DhcpSnooping DhcpBindings.

Open Scope Z_scope.

(** ** Reading a message *)

Definition le_value (l : list Z) : Z := be_value (rev l).

Lemma rd_second {A} (pre : list A) x y post a : a = zlen pre -> rd (pre ++ x :: y :: post) (a + 1) = Some y.
Proof. intros ->. rewrite cons_middle, app_assoc. apply rd_mid. zl. lia. Qed.

Lemma get_be16_mid pre x y post a : a = zlen pre -> get_be16 (pre ++ x :: y :: post) a = Some (256 * x + y).
Proof. intros Ha. unfold get_be16. rewrite (rd_mid _ _ _ _ Ha). cbn [mbind option_bind]. by rewrite (rd_second _ _ _ _ _ Ha). Qed.
Lemma get_le16_mid pre x y post a : a = zlen pre -> get_le16 (pre ++ x :: y :: post) a = Some (256 * y + x).
Proof. intros Ha. unfold get_le16. rewrite (rd_mid _ _ _ _ Ha). cbn [mbind option_bind]. by rewrite (rd_second _ _ _ _ _ Ha). Qed.

Lemma get_le32_mid pre l post a : a = zlen pre -> length l = 4%nat -> get_le32 (pre ++ l ++ post) a = Some (le_value l).
Proof.
  intros Ha Hl. explode l Hl. unfold get_le32. cbn [app]. rewrite (get_le16_mid _ _ _ _ _ Ha). cbn [mbind option_bind].
  rewrite cons_middle, (cons_middle z0), !app_assoc. rewrite get_le16_mid by (zl; lia). cbn [mbind option_bind].
  unfold le_value, be_value. cbn [rev app foldl]. f_equal. lia.
Qed.
Lemma get_be32_mid pre l post a : a = zlen pre -> length l = 4%nat -> get_be32 (pre ++ l ++ post) a = Some (be_value l).
Proof.
  intros Ha Hl. explode l Hl. unfold get_be32. cbn [app]. rewrite (get_be16_mid _ _ _ _ _ Ha). cbn [mbind option_bind].
  rewrite cons_middle, (cons_middle z0), !app_assoc. rewrite get_be16_mid by (zl; lia). cbn [mbind option_bind].
  unfold be_value. cbn [foldl]. f_equal. lia.
Qed.
Lemma get_mac_mid pre l post a : a = zlen pre -> length l = 6%nat -> get_mac (pre ++ l ++ post) a = Some (be_value l).
Proof.
  intros Ha Hl. destruct l as [|x [|y l]]; [done|done|]. unfold get_mac. cbn [app]. rewrite (get_be16_mid _ _ _ _ _ Ha). cbn [mbind option_bind].
  rewrite cons_middle, (cons_middle y), !app_assoc. rewrite <- (app_assoc _ l post). rewrite get_be32_mid; [|zl; lia|by injection Hl].
  cbn [mbind option_bind]. injection Hl as Hl. explode l Hl. unfold be_value. cbn [foldl]. f_equal. lia.
Qed.

(** The fields of the fixed part. *)
Definition part (f : frame) (k n : nat) : list Z := take n (drop k (fixed f)).
Definition hlen_of (f : frame) : Z := be_value (part f 2 1).
Definition yiaddr_of (f : frame) : Z := le_value (part f 16 4).
Definition giaddr_of (f : frame) : Z := le_value (part f 24 4).
Definition mac_of (f : frame) : Z := be_value (part f 28 6).

Lemma part_len f k n : frame_ok f -> (k + n <= 240)%nat -> length (part f k n) = n.
Proof. intros Hf Hk. unfold part. destruct (fr_fixed f Hf) as [Hl _]. rewrite length_take, length_drop. lia. Qed.

Lemma wire_part f k n : frame_ok f -> (k + n <= 240)%nat -> exists pre post, wire f = pre ++ part f k n ++ post /\ dhcp_off + Z.of_nat k = zlen pre.
Proof.
  intros Hf Hk. exists (eth f ++ ip f ++ udp f ++ take k (fixed f)), (drop n (drop k (fixed f)) ++ encode (opts f) ++ DHCP_END :: rest f). split.
  - unfold wire, part. rewrite <- !app_assoc, (app_assoc (take n _)), (take_drop n), (app_assoc (take k _)), (take_drop k). done.
  - destruct (fr_ip f Hf) as [Hi _], (fr_udp f Hf) as [Hu _], (fr_fixed f Hf) as [Hx _]. unfold zlen.
    rewrite !length_app, length_take, Hi, Hu, Hx, (fr_eth f Hf). unfold dhcp_off, udp_off, ip_off. lia.
Qed.

Lemma frame_mac f : frame_ok f -> get_mac (wire f) chaddr_at = Some (mac_of f).
Proof.
  intros Hf. destruct (wire_part f 28 6 Hf) as (pre & post & -> & Hp); [lia|]. apply get_mac_mid; [done|apply part_len; [done|lia]].
Qed.
Lemma frame_yiaddr f : frame_ok f -> get_le32 (wire f) yiaddr_at = Some (yiaddr_of f).
Proof.
  intros Hf. destruct (wire_part f 16 4 Hf) as (pre & post & -> & Hp); [lia|]. apply get_le32_mid; [done|apply part_len; [done|lia]].
Qed.
Lemma frame_hlen f : frame_ok f -> rd (wire f) hlen_at = Some (hlen_of f).
Proof.
  intros Hf. destruct (wire_part f 2 1 Hf) as (pre & post & -> & Hp); [lia|]. unfold hlen_of. pose proof (part_len f 2 1 Hf ltac:(lia)) as Hl.
  destruct (part f 2 1) as [|x [|]]; [done| |done]. by apply rd_mid.
Qed.

(** The data of the first option with a code. *)
Fixpoint first_data (c : Z) (os : list dhcp_opt) : option (list Z) :=
  match os with
  | [] => None
  | Opt c' d :: os => if c' =? c then Some d else first_data c os
  | Pad :: os => first_data c os
  end.

Lemma first_data_offset c os : match first_data c os with
  | Some d => exists k pre post, opt_offset c os = Some k /\ encode os = pre ++ d ++ post /\ zlen pre = k
  | None => opt_offset c os = None
  end.
Proof.
  induction os as [|[|c' d'] os IH]; cbn [first_data opt_offset has_code]; [done| |].
  - destruct (first_data c os) as [d|]; [|by rewrite IH]. destruct IH as (k & pre & post & -> & E & Hk).
    exists (1 + k), (DHCP_PADDING :: pre), post. rewrite encode_cons, E. cbn [encode_opt app fmap option_fmap option_map]. split_and!; [by zl|done|]. zl. lia.
  - destruct (c' =? c).
    + exists 2, [c'; zlen d'], (encode os). by rewrite encode_cons.
    + destruct (first_data c os) as [d|]; [|by rewrite IH]. destruct IH as (k & pre & post & -> & E & Hk).
      exists (zlen (encode_opt (Opt c' d')) + k), (encode_opt (Opt c' d') ++ pre), post. rewrite encode_cons, E, <- app_assoc. split_and!; [done|done|]. zl. lia.
Qed.

Lemma frame_option f c d : frame_ok f -> 0 < c < 255 -> first_data c (opts f) = Some d ->
  exists p pre post, npd_dhcp_snp_get_option (wire f) c = Some (Some p) /\ wire f = pre ++ d ++ post /\ p = zlen pre.
Proof.
  intros Hf Hc Hd. pose proof (first_data_offset c (opts f)) as H. rewrite Hd in H. destruct H as (k & pre & post & Ho & E & Hk).
  exists (options_at + k), (before f ++ pre), (post ++ DHCP_END :: rest f). split_and!.
  - by rewrite frame_get_option, Ho.
  - rewrite wire_before, E. by rewrite <- !app_assoc.
  - rewrite zlen_app, before_len by done. lia.
Qed.
Lemma frame_no_option f c : frame_ok f -> 0 < c < 255 -> first_data c (opts f) = None -> npd_dhcp_snp_get_option (wire f) c = Some None.
Proof.
  intros Hf Hc Hd. pose proof (first_data_offset c (opts f)) as H. rewrite Hd in H. by rewrite frame_get_option, H.
Qed.

(** ** Replies from ports that are not trusted *)

Section packets.
Context {T : Type} `{!KeyStore T NPD_DHCP_SNP_USER_ITEM_T}.
Implicit Types (st : snp_state T) (u : NPD_DHCP_SNP_USER_ITEM_T).

Lemma mbind_lift {A B} (x : option A) (k : A -> SM T B) st a : x = Some a -> (lift x ≫= k) st = k a st.
Proof. by intros ->. Qed.
Lemma mbind_find {A} u (k : option NPD_DHCP_SNP_USER_ITEM_T -> SM T A) st : (npd_dhcp_snp_tbl_item_find u ≫= k) st = k (ks_search (binds st) u) st.
Proof. done. Qed.

(** A byte that the walk found is there. *)
Lemma inside_read m c p : Forall byte m -> options_at + NPD_DHCP_SNP_OPTION_LEN <= zlen m -> option_inside m c p -> exists x, rd m p = Some x.
Proof.
  intros Hb Hm (base & len & curr & l & Hw & H1 & _ & _ & H2 & H3 & H4).
  destruct (walked_read m base len curr (p - base) Hw Hb Hm) as (x & Hx & _); [lia|]. exists x. by replace p with (base + (p - base)) by lia.
Qed.

Lemma long_read (m : list Z) a : options_at + NPD_DHCP_SNP_OPTION_LEN <= zlen m -> 0 <= a < options_at -> exists x, rd m a = Some x.
Proof. intros Hm Ha. apply rd_lt_Some. unfold NPD_DHCP_SNP_OPTION_LEN in Hm. lia. Qed.

Lemma reply_untrusted env m len netif vid cfg mac st :
  Forall byte m -> options_at + NPD_DHCP_SNP_OPTION_LEN <= zlen m ->
  get_mac m chaddr_at = Some mac ->
  npd_dhcp_snp_global_cfg_get env = Some cfg -> snoops cfg vid = Some true ->
  rd m op_at = Some NPD_DHCP_BOOTREPLY -> npd_dhcp_snp_get_trust_mode env netif = NPD_DHCP_SNP_PORT_MODE_NOTRUST ->
  npd_dhcp_snp_packet_rx_process env m len netif vid st =
    Some (if mac =? SYS_PRODUCT_BASEMAC env then DHCP_SNP_RETURN_CODE_OK else DHCP_SNP_RETURN_CODE_PKT_DROP, st).
Proof.
  intros Hb Hm Hmac Hcfg Hsn Hop Htr. unfold npd_dhcp_snp_packet_rx_process. rewrite (mbind_lift _ _ _ _ Hmac).
  destruct (Z.eqb_spec mac (SYS_PRODUCT_BASEMAC env)); [done|].
  destruct (get_option_safe m NPD_DHCP_MESSAGE_TYPE Hb Hm) as (r & Er & Hr). rewrite (mbind_lift _ _ _ _ Er). destruct r as [p|]; [|done].
  destruct (inside_read m _ p Hb Hm (Hr p eq_refl)) as (mt & Hmt). rewrite (mbind_lift _ _ _ _ Hmt), Hcfg, (mbind_lift _ _ _ _ Hsn).
  assert (exists g, get_le32 m giaddr_at = Some g) as (g & Hg).
  { unfold get_le32, get_le16. assert (forall k, 0 <= k < 8 -> exists x, rd m (giaddr_at + k) = Some x) as Hk.
    { intros k Hk. apply long_read; [done|]. unfold giaddr_at, options_at, dhcp_off, udp_off, ip_off. lia. }
    destruct (Hk 0 ltac:(lia)) as (a & Ha). rewrite Z.add_0_r in Ha. destruct (Hk 1 ltac:(lia)) as (b & Hb').
    destruct (Hk 2 ltac:(lia)) as (c & Hc). destruct (Hk 3 ltac:(lia)) as (d & Hd). rewrite <- Z.add_assoc. change (2 + 1) with 3.
    rewrite Ha, Hb', Hc, Hd. by eexists. }
  rewrite (mbind_lift _ _ _ _ Hg), (mbind_lift _ _ _ _ Hop). destruct (relays env netif vid g NPD_DHCP_BOOTREPLY) as [relay relay82].
  cbn [orb negb]. by rewrite Htr.
Qed.

End packets.

(** C27: With snooping on the VLAN, a reply from a port that is not trusted, in a
    buffer that holds the 1500 bytes of options that the walks may read, changes
    nothing whatever its content: no binding, no timer, no source guard, and
    nothing is sent.  It is dropped, unless the client it names is the switch
    itself ([SYS_PRODUCT_BASEMAC]): then it passes. *)
Theorem untrusted_reply_dropped env m len netif vid cfg mac (st : snp_table_state) :
  Forall byte m -> options_at + NPD_DHCP_SNP_OPTION_LEN <= zlen m ->
  get_mac m chaddr_at = Some mac ->
  npd_dhcp_snp_global_cfg_get env = Some cfg -> snoops cfg vid = Some true ->
  rd m op_at = Some NPD_DHCP_BOOTREPLY -> npd_dhcp_snp_get_trust_mode env netif = NPD_DHCP_SNP_PORT_MODE_NOTRUST ->
  npd_dhcp_snp_packet_rx_process env m len netif vid st =
    Some (if mac =? SYS_PRODUCT_BASEMAC env then DHCP_SNP_RETURN_CODE_OK else DHCP_SNP_RETURN_CODE_PKT_DROP, st).
Proof. apply reply_untrusted. Qed.

Lemma untrusted_reply_dropped_witness :
  npd_dhcp_snp_packet_rx_process (demo_env 102) (demo_ack ++ replicate 1500 0) 320 5 10 npd_dhcp_snp_tbl_initialize =
    Some (DHCP_SNP_RETURN_CODE_PKT_DROP, npd_dhcp_snp_tbl_initialize).
Proof.
  apply (untrusted_reply_dropped (demo_env 102) (demo_ack ++ replicate 1500 0) 320 5 10 demo_config demo_client).
  - apply bytes_decided. by vm_compute.
  - by vm_compute.
  - by vm_compute.
  - done.
  - by vm_compute.
  - by vm_compute.
  - by vm_compute.
Defined.

(** ** Acknowledgements *)

Section acks.
Context {T : Type} `{!KeyStore T NPD_DHCP_SNP_USER_ITEM_T, !KeyStoreLaws T NPD_DHCP_SNP_USER_ITEM_T, !KeyStoreTotal T NPD_DHCP_SNP_USER_ITEM_T}.
Context (Hsame : forall x y : NPD_DHCP_SNP_USER_ITEM_T, ks_same x y = (chaddr x =? chaddr y)).
Context (env : snp_env).
Implicit Types (st : snp_state T) (u : NPD_DHCP_SNP_USER_ITEM_T).

(** Whether the source guard is on at a port. *)
Definition guarded (port : Z) : bool :=
  (npd_netif_type_get port =? NPD_NETIF_ETH_TYPE) && match source_guard_of env port with Some sg => sg | None => false end.
Definition port_known (port : Z) : Prop := npd_netif_type_get port = NPD_NETIF_ETH_TYPE -> source_guard_of env port <> None.

(** The binding of a client whose lease starts now. *)
Definition granted u (ip lease srv : Z) : NPD_DHCP_SNP_USER_ITEM_T :=
  let u := with_escape (with_bound (with_lease u ip lease) NPD_DHCP_SNP_BIND_STATE_BOUND srv) (npd_dhcp_snp_get_relative env) in
  if guarded (ifindex u) then with_sg u 1 else u.

(** An acknowledgement: what it says. *)
Record acknowledges (f : frame) (mac ip lease srv : Z) : Prop := {
  ak_ok : frame_ok f;
  ak_op : op_of f = Some NPD_DHCP_BOOTREPLY;
  ak_mac : mac_of f = mac;
  ak_ip : yiaddr_of f = ip /\ ip <> 0;
  ak_lease : exists d, first_data DHCP_LEASE_TIME (opts f) = Some d /\ length d = 4%nat /\ be_value d = lease /\ lease <> 0;
  ak_server : exists d, first_data DHCP_SERVER_ID (opts f) = Some d /\ length d = 4%nat /\ le_value d = srv
}.

Lemma ack_item f mac ip lease srv vid port : acknowledges f mac ip lease srv ->
  npd_dhcp_snp_get_item_from_pkt vid port (wire f) (user_key 0) =
    Some (UserItem 0 0 (hlen_of f) mac vid ip lease 0 0 0 0 0 0 0 0).
Proof.
  intros []. unfold npd_dhcp_snp_get_item_from_pkt. rewrite frame_hlen, frame_mac by done. cbn [mbind option_bind].
  rewrite frame_op, ak_op0 by apply ak_ok0. cbn [mbind option_bind]. rewrite Z.eqb_refl, frame_yiaddr by done. cbn [mbind option_bind].
  destruct ak_lease0 as (d & Hd & Hl & <- & _). destruct ak_ip0 as [<- _].
  destruct (frame_option f DHCP_LEASE_TIME d ak_ok0 ltac:(by unfold DHCP_LEASE_TIME) Hd) as (p & pre & post & -> & Hw & Hp). cbn [mbind option_bind].
  rewrite Hw, get_be32_mid by done. cbn [mbind option_bind]. by rewrite ak_mac0.
Qed.

Lemma guard_exact u st : state u = NPD_DHCP_SNP_BIND_STATE_BOUND -> port_known (ifindex u) ->
  guard_bound env u st = Some (Some (if guarded (ifindex u) then with_sg u 1 else u),
    Snp (binds st) (timeouts st) (guards st ++ if guarded (ifindex u) then [npd_source_guard_entry_add (ip_addr u) (ifindex u) (vlanId u) (chaddr u)] else []) (outs st)).
Proof.
  intros Hs Hp. unfold guard_bound, guarded, port_known in *. rewrite Hs, Z.eqb_refl. cbn [andb].
  destruct (Z.eqb_spec (npd_netif_type_get (ifindex u)) NPD_NETIF_ETH_TYPE) as [He|]; cbn [andb].
  - destruct (source_guard_of env (ifindex u)) as [[]|]; [done| |by destruct Hp]. rewrite app_nil_r. by destruct st.
  - rewrite app_nil_r. by destruct st.
Qed.

Lemma ack_exact f mac ip lease srv vid port u st : acknowledges f mac ip lease srv ->
  ks_ok (binds st) -> binding st mac = Some u -> bind_type u <> NPD_DHCP_SNP_BIND_TYPE_STATIC -> port_known (ifindex u) ->
  exists t, npd_dhcp_snp_ack_process env vid port (wire f) st =
      Some (DHCP_SNP_RETURN_CODE_OK, Snp t (npd_dhcp_snp_handle_update env (granted u ip lease srv) u (timeouts st))
        (guards st ++ if guarded (ifindex u) then [npd_source_guard_entry_add ip (ifindex u) (vlanId u) mac] else []) (outs st)) /\
    ks_ok t /\ forall m, ks_search t (user_key m) = put_at (binding st) (granted u ip lease srv) m.
Proof.
  intros Hf Hok Hu Hst Hp. unfold npd_dhcp_snp_ack_process. rewrite (mbind_lift _ _ _ _ (ack_item f mac ip lease srv vid port Hf)). cbn [ip_addr lease_time].
  pose proof (binding_chaddr Hsame st mac u Hok Hu) as Hc. destruct Hf as [Hfr _ _ [_ Hip] (dl & _ & _ & _ & Hle) (ds & Hds & Hls & Hsrv)].
  destruct (Z.eqb_spec ip 0); [done|]. destruct (Z.eqb_spec lease 0); [done|]. cbn [orb]. rewrite mbind_find, (search_binding Hsame) by done. cbn [chaddr].
  rewrite Hu. destruct (Z.eqb_spec (bind_type u) NPD_DHCP_SNP_BIND_TYPE_STATIC); [done|].
  destruct (frame_option f DHCP_SERVER_ID ds Hfr ltac:(by unfold DHCP_SERVER_ID) Hds) as (p & pre & post & Eo & Hw & Hpp).
  rewrite (mbind_lift _ _ _ _ Eo). rewrite (mbind_lift _ _ _ srv).
  2: { unfold deref. cbn [mbind option_bind]. rewrite Hw, get_le32_mid by done. by rewrite Hsrv. }
  cbv zeta. set (tmp := with_bound _ _ _). unfold npd_dhcp_snp_tbl_refresh_bind, get_state. unfold mbind at 1, SM_bind at 1. unfold mbind at 1, SM_bind at 1.
  rewrite (search_binding Hsame) by done. change (chaddr tmp) with (chaddr u). rewrite Hc, Hu.
  assert (with_place (with_escape tmp (npd_dhcp_snp_get_relative env)) (vlanId u)
    (if ifindex (with_escape tmp (npd_dhcp_snp_get_relative env)) =? 0 then ifindex u else ifindex (with_escape tmp (npd_dhcp_snp_get_relative env))) =
    with_escape tmp (npd_dhcp_snp_get_relative env)) as ->.
  { unfold tmp. cbn. by destruct (_ =? 0). }
  unfold mbind at 1, SM_bind at 1. rewrite guard_exact by done. set (st1 := Snp _ _ _ _).
  change (if guarded (ifindex (with_escape tmp (npd_dhcp_snp_get_relative env))) then with_sg (with_escape tmp (npd_dhcp_snp_get_relative env)) 1
    else with_escape tmp (npd_dhcp_snp_get_relative env)) with (granted u ip lease srv).
  assert (chaddr (granted u ip lease srv) = mac) as Hg by (unfold granted; destruct (guarded _); done).
  destruct (bind_update_found Hsame env (granted u ip lease srv) u st1 Hok) as (t & E & Hok' & Hfin); [by rewrite Hg|].
  exists t. split_and!; [|done|done]. unfold mbind at 1, SM_bind at 1. rewrite E. cbn [timeouts guards outs st1]. cbn. by rewrite Hc.
Qed.

End acks.

(** ** Properties *)

Lemma granted_fields env u ip lease srv :
  chaddr (granted env u ip lease srv) = chaddr u /\ lease_time (granted env u ip lease srv) = lease /\
  sys_escape (granted env u ip lease srv) = npd_dhcp_snp_get_relative env.
Proof. unfold granted. by destruct (guarded _ _). Qed.

(** The timers after a lease: one of the same length as before keeps its timer,
    one that never ends has none, any other gets a new one. *)
Definition lease_timer (old lease now mac : Z) (l : list timeout) (n : timeout) : Prop :=
  if lease =? old then n ∈ l
  else (lease <> NPD_DHCP_SNP_LEASE_INFINITE /\ n = (u32 (lease + now), mac)) \/ n ∈ l /\ n.2 <> mac.

Lemma lease_timers env u d l : is_master env = true -> timers_ok l -> chaddr d = chaddr u ->
  (lease_time u = NPD_DHCP_SNP_LEASE_INFINITE -> forall n, n ∈ l -> n.2 <> chaddr u) ->
  forall n, n ∈ npd_dhcp_snp_handle_update env d u l <-> lease_timer (lease_time u) (lease_time d) (sys_escape d) (chaddr u) l n.
Proof.
  intros Hm Hl Hc Hno n. unfold npd_dhcp_snp_handle_update, lease_timer. rewrite Hm. cbn [negb].
  destruct (Z.eqb_spec (lease_time d) (lease_time u)); [done|]. cbn [negb]. rewrite Hc. destruct (cancel_ok (chaddr u) l Hl) as [Hl' He].
  destruct (Z.eqb_spec (lease_time u) NPD_DHCP_SNP_LEASE_INFINITE) as [Hu|Hu], (Z.eqb_spec (lease_time d) NPD_DHCP_SNP_LEASE_INFINITE) as [Hd|Hd]; cbn [negb];
    rewrite ?(proj2 (add_ok _ _ _ Hl)), ?(proj2 (add_ok _ _ _ Hl')), ?He; [congruence| |tauto|tauto]. pose proof (Hno Hu n). tauto.
Qed.

(** C28: The acknowledgement of a server starts the lease of its client.  On the
    master board, for a client with a binding that is not static, on a port
    whose source guard can be read: the binding gets the address, the lease time
    and the server; the source guard lets the client through if it is on at its
    port; the timer of the client is the end of the lease, but there is none for
    a lease that never ends, and a lease time that is the one recorded already
    leaves the timer as it was; and all other bindings and timers are as they
    were. *)
Theorem ack_starts_lease env f mac ip lease srv vid port u (st : snp_table_state) :
  is_master env = true -> acknowledges f mac ip lease srv -> consistent st -> binding st mac = Some u ->
  bind_type u <> NPD_DHCP_SNP_BIND_TYPE_STATIC -> port_known env (ifindex u) ->
  exists st', npd_dhcp_snp_ack_process env vid port (wire f) st = Some (DHCP_SNP_RETURN_CODE_OK, st') /\
    (forall m, binding st' m = if m =? mac then Some (granted env u ip lease srv) else binding st m) /\
    (forall n, n ∈ timeouts st' <-> lease_timer (lease_time u) lease (npd_dhcp_snp_get_relative env) mac (timeouts st) n) /\
    guards st' = guards st ++ (if guarded env (ifindex u) then [npd_source_guard_entry_add ip (ifindex u) (vlanId u) mac] else []) /\ outs st' = outs st.
Proof.
  intros Hm Hf (Hok & Hl & Ht) Hu Hst Hp. destruct (ack_exact snp_table_same env f mac ip lease srv vid port u st Hf Hok Hu Hst Hp) as (t & E & _ & Hfin).
  pose proof (binding_chaddr snp_table_same st mac u Hok Hu) as Hc. destruct (granted_fields env u ip lease srv) as (G1 & G2 & G3).
  eexists. split; [exact E|]. cbn [timeouts guards outs]. split_and!; [|intros n|done|done].
  - intros m. unfold binding at 1. cbn [binds]. rewrite Hfin. unfold put_at. by rewrite G1, Hc.
  - rewrite lease_timers; [by rewrite G2, G3, Hc|done|done|done|]. intros Hi [e m] Hn Hm'. cbn in Hm'. subst m. rewrite Hc in Hn.
    destruct (proj1 (Ht mac)) as (u' & Hu' & Hl'); [by apply (list_elem_of_fmap_2 snd) in Hn|]. rewrite Hu in Hu'. injection Hu' as <-. by apply Hl'.
Qed.

(** C39: A lease that is renewed for the same time still ends at its first end:
    the acknowledgement updates the binding but [npd_dhcp_snp_handle_update]
    leaves the timer as it was, so the timer thread removes the binding of a
    client whose lease goes on. *)
Theorem renewal_keeps_first_end env f mac ip lease srv vid port u e (st : snp_table_state) :
  is_master env = true -> acknowledges f mac ip lease srv -> consistent st -> binding st mac = Some u ->
  bind_type u <> NPD_DHCP_SNP_BIND_TYPE_STATIC -> port_known env (ifindex u) -> lease_time u = lease -> (e, mac) ∈ timeouts st ->
  exists st', npd_dhcp_snp_ack_process env vid port (wire f) st = Some (DHCP_SNP_RETURN_CODE_OK, st') /\
    binding st' mac = Some (granted env u ip lease srv) /\ timeouts st' = timeouts st /\
    forall env' now, is_master env' = true -> master_active env' = true -> e <= now ->
      exists st'', timer_expire env' now st' = Some (tt, st'') /\ binding st'' mac = None.
Proof.
  intros Hm Hf Hco Hu Hst Hp Hl He. pose proof Hco as (Hok & _ & _).
  destruct (ack_exact snp_table_same env f mac ip lease srv vid port u st Hf Hok Hu Hst Hp) as (t & E & _ & Hfin).
  pose proof (binding_chaddr snp_table_same st mac u Hok Hu) as Hc. destruct (granted_fields env u ip lease srv) as (G1 & G2 & _).
  assert (npd_dhcp_snp_handle_update env (granted env u ip lease srv) u (timeouts st) = timeouts st) as Ht.
  { unfold npd_dhcp_snp_handle_update. rewrite Hm, G2, Hl, Z.eqb_refl. done. }
  eexists. split; [exact E|]. cbn [timeouts]. split_and!; [|done|].
  - unfold binding. cbn [binds]. rewrite Hfin. unfold put_at. by rewrite G1, Hc, Z.eqb_refl.
  - intros env' now Hm' Ha' Hn. set (st' := Snp _ _ _ _) in *.
    assert (consistent st') as Hco'.
    { apply (ack_kept snp_table_same env consistent (fun _ => True) (fun _ H => proj1 H) consistent_blind
        (fun d _ => update_consistent snp_table_same env Hm d) (fun _ _ _ _ => I) _ _ _ _ _ _ Hco E). }
    destruct (timer_exact snp_table_same env' Hm' now _ Ha' st' eq_refl Hco') as (st'' & E' & _ & G). exists st''. split; [done|]. rewrite G.
    replace (expired now (timeouts st') mac) with true; [done|]. symmetry. apply existsb_exists. exists (e, mac). split.
    + apply list_elem_of_In. cbn [timeouts st']. by rewrite Ht.
    + cbn [fst snd]. rewrite Z.eqb_refl. cbn [andb]. by apply Z.leb_le.
Qed.

(** C40: Any client can stop the process: a refusal without server identifier,
    sent as a request from any port of the VLAN, makes
    [npd_dhcp_snp_nack_process] read through a null pointer as soon as the
    client it names has a binding that is not static. *)
Theorem nak_without_server_crashes env f len netif vid cfg u (st : snp_table_state) :
  frame_ok f -> op_of f = Some NPD_DHCP_BOOTREQUEST -> mac_of f <> SYS_PRODUCT_BASEMAC env ->
  npd_dhcp_snp_global_cfg_get env = Some cfg -> snoops cfg vid = Some true ->
  first_data NPD_DHCP_MESSAGE_TYPE (opts f) = Some [NPD_DHCP_NAK] -> first_data DHCP_SERVER_ID (opts f) = None ->
  ks_ok (binds st) -> binding st (mac_of f) = Some u -> bind_type u <> NPD_DHCP_SNP_BIND_TYPE_STATIC ->
  npd_dhcp_snp_packet_rx_process env (wire f) len netif vid st = None.
Proof.
  intros Hf Hop Hmac Hcfg Hsn Hmt Hsrv Hok Hu Hst. unfold npd_dhcp_snp_packet_rx_process. rewrite (mbind_lift _ _ _ _ (frame_mac f Hf)).
  destruct (Z.eqb_spec (mac_of f) (SYS_PRODUCT_BASEMAC env)); [done|].
  destruct (frame_option f NPD_DHCP_MESSAGE_TYPE _ Hf ltac:(by unfold NPD_DHCP_MESSAGE_TYPE) Hmt) as (p & pre & post & Eo & Hw & Hp).
  rewrite (mbind_lift _ _ _ _ Eo), (mbind_lift _ _ _ NPD_DHCP_NAK) by (rewrite Hw; by apply rd_mid). rewrite Hcfg, (mbind_lift _ _ _ _ Hsn).
  destruct (wire_part f 24 4 Hf ltac:(lia)) as (pre' & post' & Hw' & Hp').
  rewrite (mbind_lift _ _ _ (giaddr_of f)) by (rewrite Hw'; apply get_le32_mid; [done|apply part_len; [done|lia]]).
  rewrite (mbind_lift _ _ _ NPD_DHCP_BOOTREQUEST) by (rewrite frame_op, Hop; [done|apply Hf..]).
  destruct (relays _ _ _ _ _) as [relay relay82]. cbn [orb negb].
  change (NPD_DHCP_BOOTREQUEST =? NPD_DHCP_BOOTREPLY) with false. cbn [andb]. unfold npd_dhcp_packet_record_user_info.
  change (NPD_DHCP_NAK =? NPD_DHCP_DISCOVER) with false. change (NPD_DHCP_NAK =? NPD_DHCP_REQUEST) with false.
  change (NPD_DHCP_NAK =? NPD_DHCP_ACK) with false. change (NPD_DHCP_NAK =? NPD_DHCP_NAK) with true. cbv iota zeta.
  unfold mbind at 1, SM_bind at 1. unfold mbind at 1, SM_bind at 1. unfold npd_dhcp_snp_nack_process.
  assert (exists x, npd_dhcp_snp_get_item_from_pkt vid netif (wire f) (user_key 0) = Some x /\ chaddr x = mac_of f) as (x & Hx & Hxc).
  { unfold npd_dhcp_snp_get_item_from_pkt. rewrite frame_hlen, frame_mac by done. cbn [mbind option_bind].
    rewrite frame_op, Hop by apply Hf. cbn [mbind option_bind]. change (NPD_DHCP_BOOTREQUEST =? NPD_DHCP_BOOTREPLY) with false. by eexists. }
  rewrite (mbind_lift _ _ _ _ Hx), mbind_find, (search_binding snp_table_same), Hxc, Hu by done.
  destruct (Z.eqb_spec (bind_type u) NPD_DHCP_SNP_BIND_TYPE_STATIC); [done|].
  by rewrite (mbind_lift _ _ _ _ (frame_no_option f DHCP_SERVER_ID Hf ltac:(by unfold DHCP_SERVER_ID) Hsrv)).
Qed.

(** *** A client and its server *)

Lemma demo_ack_acknowledges : acknowledges demo_ack_frame demo_client 0x0900000a 3600 0x0100000a.
Proof.
  split; try done.
  - apply demo_frame_ok; try done. by apply opts_decided.
  - by exists [0; 0; 14; 16].
  - by exists [10; 0; 0; 1].
Qed.

(** What the witnesses need to know of the client's binding. *)
Definition demo_binding (lease : Z) (st : snp_table_state) : bool :=
  match binding st demo_client with
  | Some u => (bind_type u =? NPD_DHCP_SNP_BIND_TYPE_DYNAMIC) && (ifindex u =? 5) && (lease_time u =? lease)
  | None => false
  end.

Lemma demo_binding_found lease st : demo_binding lease st = true ->
  exists u, binding st demo_client = Some u /\ bind_type u <> NPD_DHCP_SNP_BIND_TYPE_STATIC /\ ifindex u = 5 /\ lease_time u = lease.
Proof.
  unfold demo_binding. destruct (binding st demo_client) as [u|]; [|done]. rewrite !andb_true_iff, !Z.eqb_eq. intros [[H1 H2] H3].
  exists u. split_and!; try done. by rewrite H1.
Qed.

Lemma demo_port_known now port : port_known (demo_env now) port.
Proof. by intros _. Qed.

Lemma ack_starts_lease_witness : exists (st st' : snp_table_state) u,
  run (take 1 demo_run) npd_dhcp_snp_tbl_initialize = Some (tt, st) /\ lease_time u = 60 /\
  npd_dhcp_snp_ack_process (demo_env 102) 10 7 demo_ack st = Some (DHCP_SNP_RETURN_CODE_OK, st') /\
  binding st' demo_client = Some (granted (demo_env 102) u 0x0900000a 3600 0x0100000a) /\ (3702, demo_client) ∈ timeouts st'.
Proof.
  destruct (run_decided (take 1 demo_run) (demo_binding 60)) as (st & E & Hst & H); [by repeat constructor|by vm_compute|].
  apply demo_binding_found in H as (u & Hu & Hs & _ & Hl).
  destruct (ack_starts_lease (demo_env 102) demo_ack_frame demo_client 0x0900000a 3600 0x0100000a 10 7 u st eq_refl demo_ack_acknowledges Hst Hu Hs) as (st' & E' & F & G & _).
  - apply demo_port_known.
  - exists st, st', u. split_and!; [done|done|done|by rewrite F|]. apply G. unfold lease_timer. rewrite Hl. cbn [Z.eqb Pos.eqb].
    left. split; [done|reflexivity].
Defined.

(** Renewed at 1902 for an hour, and gone at 3702. *)
Lemma renewal_keeps_first_end_witness : exists (st st' st'' : snp_table_state) u,
  run demo_run npd_dhcp_snp_tbl_initialize = Some (tt, st) /\
  npd_dhcp_snp_ack_process (demo_env 1902) 10 7 demo_ack st = Some (DHCP_SNP_RETURN_CODE_OK, st') /\
  binding st' demo_client = Some u /\ lease_time u + sys_escape u = 5502 /\
  timer_expire (demo_env 3702) 3702 st' = Some (tt, st'') /\ binding st'' demo_client = None.
Proof.
  destruct (run_decided demo_run (fun st => demo_binding 3600 st && bool_decide (timeouts st = [(3702, demo_client)]))) as (st & E & Hst & H);
    [by repeat constructor|by vm_compute|]. apply andb_true_iff in H as [H Ht%bool_decide_eq_true].
  apply demo_binding_found in H as (u & Hu & Hs & _ & Hl).
  destruct (renewal_keeps_first_end (demo_env 1902) demo_ack_frame demo_client 0x0900000a 3600 0x0100000a 10 7 u 3702 st eq_refl demo_ack_acknowledges Hst Hu Hs)
    as (st' & E' & F & _ & G).
  - apply demo_port_known.
  - done.
  - rewrite Ht. by left.
  - destruct (G (demo_env 3702) 3702 eq_refl eq_refl ltac:(lia)) as (st'' & E'' & F''). exists st, st', st'', (granted (demo_env 1902) u 0x0900000a 3600 0x0100000a).
    destruct (granted_fields (demo_env 1902) u 0x0900000a 3600 0x0100000a) as (_ & G2 & G3). rewrite G2, G3. by split_and!.
Defined.

Definition demo_nak : frame := demo_frame NPD_DHCP_BOOTREQUEST 0 0 [Opt NPD_DHCP_MESSAGE_TYPE [NPD_DHCP_NAK]].

Lemma demo_nak_ok : frame_ok demo_nak.
Proof. apply demo_frame_ok; try done. by apply opts_decided. Qed.

Lemma nak_without_server_crashes_witness : exists st : snp_table_state,
  run demo_run npd_dhcp_snp_tbl_initialize = Some (tt, st) /\ npd_dhcp_snp_packet_rx_process (demo_env 200) (wire demo_nak) 300 6 10 st = None.
Proof.
  destruct (run_decided demo_run (demo_binding 3600)) as (st & E & [Hok _] & H); [by repeat constructor|by vm_compute|].
  apply demo_binding_found in H as (u & Hu & Hs & _). exists st. split; [exact E|].
  apply (nak_without_server_crashes (demo_env 200) demo_nak 300 6 10 demo_config u st).
  - exact demo_nak_ok.
  - vm_compute; reflexivity.
  - vm_compute; intros [=].
  - reflexivity.
  - vm_compute; reflexivity.
  - vm_compute; reflexivity.
  - vm_compute; reflexivity.
  - exact Hok.
  - exact Hu.
  - exact Hs.
Defined.

(** A client on port 6 can end the binding of the client on port 5: the
    refusal needs the identifier of the server, but no trusted port. *)
Lemma forged_nak_removes_binding : exists (st st' : snp_table_state) r,
  run demo_run npd_dhcp_snp_tbl_initialize = Some (tt, st) /\
  npd_dhcp_snp_packet_rx_process (demo_env 200)
    (wire (demo_frame NPD_DHCP_BOOTREQUEST 0 0 [Opt NPD_DHCP_MESSAGE_TYPE [NPD_DHCP_NAK]; Opt DHCP_SERVER_ID [10; 0; 0; 1]])) 300 6 10 st = Some (r, st') /\
  demo_binding 3600 st = true /\ binding st' demo_client = None.
Proof.
  destruct (run_decided demo_run (fun st => demo_binding 3600 st && match npd_dhcp_snp_packet_rx_process (demo_env 200)
    (wire (demo_frame NPD_DHCP_BOOTREQUEST 0 0 [Opt NPD_DHCP_MESSAGE_TYPE [NPD_DHCP_NAK]; Opt DHCP_SERVER_ID [10; 0; 0; 1]])) 300 6 10 st with
    | Some (_, st') => bool_decide (binding st' demo_client = None) | None => false end)) as (st & E & _ & H); [by repeat constructor|by vm_compute|].
  apply andb_true_iff in H as [H1 H2]. destruct (npd_dhcp_snp_packet_rx_process _ _ _ _ _ st) as [[r st']|] eqn:E'; [|done].
  apply bool_decide_eq_true in H2. exists st, st', r. split; [exact E|]. split; [exact E'|]. split; [exact H1|exact H2].
Qed.
